(* ===== verification/_CoqProject ===== *)
-Q . S2P
Prelude.v
Memory.v
CString.v
Utils.v
Vsprintf.v
Frames.v
Paging.v
PagingSpec.v
HeapTables.v
PagingBoot.v
RbTree.v
RbHeap.v
RbModel.v
RbRep.v
RbInsert.v
RbSpec.v
RbRemove.v
RbUnlink.v
RbRemoveSpec.v
MemAlloc.v
AllocBase.v
AllocTree.v
AllocSpec.v
AllocOps.v
HeapPages.v
AllocGrow.v
AllocShrink.v
AllocAlign.v
AllocProps.v
AllocLife.v
Dll.v
Handlers.v
Desc.v
Arch.v
ArchSpec.v
Kheap.v
Sched.v
SchedSpec.v
ThreadSpec.v
Vga.v
VgaSpec.v
Keyboard.v
Interrupts.v
InterruptSpec.v
Vnode.v
VnodeSpec.v
Boot.v
BootSpec.v
Process.v
Console.v
FormatSpec.v
RbPrint.v
SerialSpec.v
ConsoleSpec.v
InitrdSpec.v
MkInitrd.v
MkInitrdSpec.v
Demo.v
DemoSpec.v
StartSpec.v
Main.v
MainSpec.v
BootMemory.v
Smoke.v
