(* ===== verification/Prelude.v ===== *)
(** * The Toutatis kernel

    Toutatis is a small 32-bit x86 kernel in C (src/kernel/). The boot stub
    enters main() of main.c with the boot loader's information structure; main
    initialises the screen and the serial line, checks the loader, sets up the
    descriptor tables, the interrupt controller and the timer, reads the ramdisk,
    builds the bitmap of physical frames from the firmware's memory map, switches
    paging on, creates the kernel heap and tests it, and starts the scheduler, the
    keyboard, the system calls and twenty threads. From then on the kernel runs in
    interrupts: the timer switches threads, the keyboard fills a queue, int 0x80
    serves the threads. src/make_initrd.c is the host tool that writes the ramdisk.

    This library models these parts as executable functions and proves what
    they do. The models are shallow: a C function is a Rocq function in the
    state and error monad [M] below, its state the variables and the memory
    that the C code uses. An operation returns [Ok] with its result and the new
    state, or [Err]: a page fault, an access outside an array, a failed assert,
    a deliberate stop, an endless loop. 32-bit integers are [Z] with the
    wrap-around written out ([u8], [u16], [u32], [u64], [s8], [s32]).

    ** Files and sources

    - Prelude: the monad, machine integers, automation. Memory: bytes and words
      of a paged address space.
    - CString (string.c), Utils (utils.c), Vsprintf and FormatSpec (vsprintf.c,
      stdarg.h): strings, numbers and formatted output in raw memory. A format
      is a list of pieces; FormatSpec shows that vsprintf prints them.
    - Frames, Paging, PagingSpec, PagingBoot (paging.c): the frame bitmap, page
      tables as objects, page directories, the boot-time mapping and cloning.
      HeapTables: the pages that the heap can have, and that alloc_page and
      free_page keep the tables fit for it.
    - RbTree (rb_tree.c) is the tree on raw memory with the caller's compare and
      select callbacks as parameters. RbHeap, RbModel and RbRep relate memory
      to an abstract heap of nodes and that to functional red-black trees;
      RbInsert and RbSpec prove insertion, RbRemove, RbUnlink and RbRemoveSpec
      removal, as operations on a sorted list of nodes with duplicates. RbPrint
      is print_tree, which draws a tree into a buffer.
    - MemAlloc (mem_alloc.c) is the heap allocator over memory, tree and page
      tables: expand and contract call get_page, alloc_page and free_page of
      Paging, and the memory has the pages that the current directory shows.
      AllocBase states the layout invariant of the heap and makes its callbacks
      an instance of the tree's interface; AllocTree, AllocSpec and AllocOps
      prove creation and the steps of alloc and free, HeapPages, AllocGrow and
      AllocShrink growth and contraction, AllocAlign requests with an alignment.
      AllocProps and AllocLife state the contracts.
    - Kheap (kheap.c): kmalloc before and after the heap exists, and the class
      [KernelHeap] through which the other components see it.
    - Dll: doubly linked segments. Handlers (system.c): the handler lists of the
      256 vectors. Desc (gdt.c, idt.c): descriptor tables. Arch and ArchSpec
      (pic.c, pit.c, system.c): port programming, the interrupt flag, ticks.
    - Sched, SchedSpec, ThreadSpec (scheduler.c, thread.c) and Process
      (process.c): threads, their ring, context switches, processes.
    - Vga and VgaSpec (vga.c), Keyboard (keyboard.c), Console, SerialSpec and
      ConsoleSpec (serial.c, driver.h, logging.c): output and input.
    - Interrupts and InterruptSpec (system.c, syscall.c, keyboard.c): dispatch on
      the state of the whole kernel, which puts the components together.
    - Vnode and VnodeSpec (vnode.c, vnode.h): reference-counted nodes.
    - Boot and BootSpec (main.c, multiboot.h), InitrdSpec (initrd.c): the memory
      map and the ramdisk. MkInitrd and MkInitrdSpec (make_initrd.c): the tool.
    - Demo, DemoSpec and StartSpec (main.c, syscall.h): the threads that main
      starts, and the system calls as a thread makes them.
    - Main (main.c): main() on the state of the whole machine. MainSpec: up to the
      boot message. BootMemory: from the ramdisk to the heap. Smoke: the test of
      the heap.

    ** What is shown

    - Heap: alloc and free implement an abstract allocator on a list of blocks
      (the best fit is split; the heap grows when nothing fits; freed neighbours
      are merged; a free last block gives its pages back), for every sequence of
      calls that a caller may make; blocks tile the heap, the tree holds exactly
      the free ones, and the page tables keep the frames of different pages apart.
      Free undoes alloc, aligned requests are aligned, creation gives one free
      block. Insertion and removal in the red-black tree refine the operations
      on a sorted list and keep order, colours and black height; print_tree draws
      every node at its place.
    - Memory: alloc_page takes a free frame and touches nothing else;
      paging_finalize maps the kernel and the heap; a clone shares the kernel's
      tables; main() marks exactly the reserved frames, and its steps from the
      ramdisk to the heap fit together: the heap works, and its frames are neither
      reserved nor those of the kernel or the ramdisk. The test that main runs on
      the heap returns, through two contractions and a growth by 417 pages.
    - Threads: a new thread starts its function with its argument; main's twenty
      threads are in the ring in order; the timer interrupt acknowledges, counts
      a tick and resumes the next thread; n+1 ticks run n+1 threads once each; the
      demonstration threads print what they mean to.
    - Interrupts: handlers are attached at the end, detached from the end, and
      run in order; unhandled exceptions stop the kernel; a key reaches the
      queue; system calls change eax only.
    - Text: vsprintf prints formats with flags, widths and precisions; kprintf
      sends its text on the serial line, colours as escape sequences, and types
      it on the screen; main's first message appears on both, and main stops when
      the loader is not the one it knows; vga_print_char is a terminal; itoa and
      strtol undo each other; memmove copies for every overlap.
    - Files: nodes are released once, by the last reference; the ramdisk's
      offsets become addresses; the tool writes headers and contents in order.
    - Defects: theorems also state where the code does not do what it means to:
      an aligned allocation that returns memory in use, or overruns its block, or
      cannot be freed; a contraction that leaves less than a block; free of the
      last block, which reads behind the heap; free_page, which never frees most
      frames; a tick that hangs when all threads sleep; the first-free search and
      the memory map loop, which leave the bitmap; a list of handlers that is
      lost; file offsets of the ramdisk tool that are not where the files are; and
      others named in the doc comments.

    ** Fuel

    Loops that are not structural take a number of rounds, and running out of
    it is [Err Hang]. The theorems give bounds that are enough: the length of
    the string for string loops, 50 slots for handler lists, more than the
    depth of the tree and the longest list of duplicates for tree loops (twice
    the number of blocks plus seven covers every tree operation of the heap, 17
    those of main's test), one round per entry or page for the memory map and the
    page tables (at most 2^18 + 1), 1102 rounds more than the format is long for
    vsprintf (34 digits and a 1024 byte buffer; 1250 cover main's message), one
    call of alloc when a block fits and two when the heap must grow. Where a loop
    of the C code really never ends, the theorem says so for every fuel.

    ** Parameters

    Devices are functions from the history of port accesses to the byte read;
    rdtsc is a sequence of readings; addresses of functions, string constants
    and stack buffers are parameters, as is the code behind a function pointer
    that the kernel calls (interrupt handlers, file systems). [table_ap] is the
    kmalloc_ap that get_page calls back for a page table that is missing; in a
    heap whose tables exist it is not called. [frame_data] is what the frame
    behind a new page holds, any bytes of that page (class [FrameData]). What a
    theorem needs of a parameter is a hypothesis, and each has a concrete instance
    in the witness of the theorem.

    ** Not modelled

    The assembly stubs (arch.s, bootstrap.s, interrupts.s) and instructions such
    as lgdt, invlpg, cpuid and hlt beyond their effect on the state; the TLB: a
    change of a page table is visible at once; the unused spin locks; the
    preprocessor-disabled functions of serial.c and DBPRINT, which is compiled
    out; the error messages of expand and contract. In the components before
    Console a call of kprintf is recorded by level and format; in Main it goes
    through Console where the text matters (MainSpec). *)

From stdpp Require Export base gmap sets list strings.
From Stdlib Require Export ZArith Lia.
Open Scope Z_scope.

(** ** Errors and results *)

(** The ways an operation of the kernel can fail to return: an access to a
    page that is not present, an access outside an array, a failed [assert]
    (which disables interrupts and stops the processor), an endless loop. *)
Inductive err : Type :=
  | Fault (addr : Z)
  | OutOfBounds (index : Z)
  | AssertFailed
  | Stopped
  | Hang.

Inductive res (A : Type) : Type :=
  | Ok (a : A)
  | Err (e : err).
Arguments Ok {A} _.
Arguments Err {A} _.

#[global] Instance err_eq_dec : EqDecision err.
Proof. solve_decision. Defined.

Definition is_ok {A} (r : res A) : bool :=
  match r with Ok _ => true | Err _ => false end.

(** ** The state and error monad of the model *)

Definition M (S A : Type) : Type := S -> res (A * S).

#[global] Instance M_ret {S} : MRet (M S) := fun A a s => Ok (a, s).

#[global] Instance M_bind {S} : MBind (M S) := fun A B f c s =>
  match c s with
  | Ok (a, s') => f a s'
  | Err e => Err e
  end.

Definition throw {S A} (e : err) : M S A := fun _ => Err e.
Definition get {S} : M S S := fun s => Ok (s, s).
Definition put {S} (s : S) : M S unit := fun _ => Ok (tt, s).
Definition gets {S A} (f : S -> A) : M S A := fun s => Ok (f s, s).
Definition modify {S} (f : S -> S) : M S unit := fun s => Ok (tt, f s).

(** [assert(x)] of system.h: a false condition stops the kernel. *)
Definition assert {S} (b : bool) : M S unit :=
  if b then mret tt else throw AssertFailed.

(** A C conditional without an else branch. *)
Definition when {S} (b : bool) (c : M S unit) : M S unit :=
  if b then c else mret tt.

(** [a && b] and [a || b] of C: the second operand is evaluated only when it
    is needed. *)
Definition andM {S} (a b : M S bool) : M S bool :=
  x ← a; if (x : bool) then b else mret false.
Definition orM {S} (a b : M S bool) : M S bool :=
  x ← a; if (x : bool) then mret true else b.
Definition notM {S} (a : M S bool) : M S bool := x ← a; mret (negb x).

(** Run an operation on one field of a larger state. *)
Definition zoom {S T A} (proj : S -> T) (upd : T -> S -> S) (c : M T A) : M S A :=
  fun s =>
    match c (proj s) with
    | Ok (a, t) => Ok (a, upd t s)
    | Err e => Err e
    end.

(** ** Machine integers *)

Definition u8 (z : Z) : Z := z mod 2 ^ 8.
Definition u16 (z : Z) : Z := z mod 2 ^ 16.
Definition u32 (z : Z) : Z := z mod 2 ^ 32.
Definition u64 (z : Z) : Z := z mod 2 ^ 64.

(** Two's complement reading of a 32-bit word. *)
Definition s32 (z : Z) : Z := (z + 2 ^ 31) mod 2 ^ 32 - 2 ^ 31.
Definition s8 (z : Z) : Z := (z + 2 ^ 7) mod 2 ^ 8 - 2 ^ 7.

(** ** Lemmas on the monad *)

Section monad_laws.
Context {S A B : Type}.

Lemma bind_ok (c : M S A) (f : A -> M S B) s a s' :
  c s = Ok (a, s') -> (c ≫= f) s = f a s'.
Proof. intros H. unfold mbind, M_bind. by rewrite H. Qed.

Lemma bind_err (c : M S A) (f : A -> M S B) s e :
  c s = Err e -> (c ≫= f) s = Err e.
Proof. intros H. unfold mbind, M_bind. by rewrite H. Qed.

Lemma bind_ok_inv (c : M S A) (f : A -> M S B) s b s'' :
  (c ≫= f) s = Ok (b, s'') ->
  exists a s', c s = Ok (a, s') /\ f a s' = Ok (b, s'').
Proof.
  unfold mbind, M_bind. intros H.
  destruct (c s) as [[a s']|e]; [eauto | discriminate].
Qed.

Lemma ret_ok (a : A) (s : S) : (mret a : M S A) s = Ok (a, s).
Proof. reflexivity. Qed.
End monad_laws.

(** ** Lemmas on machine integers *)

Lemma u32_range z : 0 <= u32 z < 2 ^ 32.
Proof. unfold u32. apply Z.mod_pos_bound. lia. Qed.

Lemma u16_range z : 0 <= u16 z < 2 ^ 16.
Proof. unfold u16. apply Z.mod_pos_bound. lia. Qed.

Lemma u8_range z : 0 <= u8 z < 2 ^ 8.
Proof. unfold u8. apply Z.mod_pos_bound. lia. Qed.

Lemma u32_small z : 0 <= z < 2 ^ 32 -> u32 z = z.
Proof. apply Z.mod_small. Qed.

Lemma u16_small z : 0 <= z < 2 ^ 16 -> u16 z = z.
Proof. apply Z.mod_small. Qed.

Lemma u8_small z : 0 <= z < 2 ^ 8 -> u8 z = z.
Proof. apply Z.mod_small. Qed.

Lemma s32_small z : - 2 ^ 31 <= z < 2 ^ 31 -> s32 z = z.
Proof. intros. unfold s32. rewrite Z.mod_small; lia. Qed.

Lemma u32_u32 z : u32 (u32 z) = u32 z.
Proof. unfold u32. apply Z.mod_mod. lia. Qed.

(** The three masks the sources use to take one low bit, to drop it and to
    keep the low [n] bits. *)
Lemma land_1 z : Z.land z 1 = z mod 2.
Proof. change 1 with (Z.ones 1). rewrite Z.land_ones by lia. reflexivity. Qed.

Lemma land_lnot_1 z : Z.land z (Z.lnot 1) = z - z mod 2.
Proof.
  pose proof (Z.add_nocarry_lxor (Z.land z (Z.lnot 1)) (Z.land z 1)) as H.
  rewrite <- land_1.
  assert (E : Z.land (Z.land z (Z.lnot 1)) (Z.land z 1) = 0).
  { apply Z.bits_inj'. intros i Hi.
    rewrite !Z.land_spec, Z.lnot_spec, Z.bits_0 by lia.
    destruct (Z.testbit z i), (Z.testbit 1 i); reflexivity. }
  assert (X : Z.lxor (Z.land z (Z.lnot 1)) (Z.land z 1) = z).
  { apply Z.bits_inj'. intros i Hi.
    rewrite Z.lxor_spec, !Z.land_spec, Z.lnot_spec by lia.
    destruct (Z.testbit z i), (Z.testbit 1 i); reflexivity. }
  specialize (H E). lia.
Qed.

(** Setting the low bit of an even word adds that bit. *)
Lemma lor_low_bit x b : x mod 2 = 0 -> 0 <= b < 2 -> Z.lor b x = x + b.
Proof.
  intros Hx Hb. assert (b = 0 \/ b = 1) as [-> | ->] by lia.
  - rewrite Z.lor_0_l. lia.
  - rewrite Z.lor_comm. pose proof (Z.add_nocarry_lxor x 1) as A.
    assert (E : Z.land x 1 = 0) by (rewrite land_1; exact Hx).
    rewrite (A E), Z.lxor_lor by exact E. reflexivity.
Qed.

Lemma testbit_shiftl_1 k i : 0 <= k -> Z.testbit (Z.shiftl 1 k) i = (i =? k).
Proof.
  intros Hk. destruct (Z.ltb_spec i 0) as [Hi|Hi].
  { rewrite Z.testbit_neg_r by lia. symmetry. apply Z.eqb_neq. lia. }
  rewrite Z.shiftl_spec by lia.
  destruct (Z.eqb_spec i k) as [->|Hne].
  - rewrite Z.sub_diag. reflexivity.
  - destruct (Z.ltb_spec (i - k) 0) as [H|H].
    + apply Z.testbit_neg_r. lia.
    + change 1 with (2 ^ 0). rewrite Z.pow2_bits_eqb by lia. apply Z.eqb_neq. lia.
Qed.

(** [x & (1 << k)] tests bit [k]. *)
Lemma land_shiftl_1 x k :
  0 <= k -> Z.land x (Z.shiftl 1 k) = if Z.testbit x k then 2 ^ k else 0.
Proof.
  intros Hk. apply Z.bits_inj'. intros i Hi.
  rewrite Z.land_spec, testbit_shiftl_1 by lia.
  destruct (Z.eqb_spec i k) as [->|Hne].
  - destruct (Z.testbit x k) eqn:E; simpl.
    + rewrite Z.pow2_bits_eqb by lia. by rewrite Z.eqb_refl.
    + by rewrite Z.bits_0.
  - rewrite andb_false_r. destruct (Z.testbit x k).
    + rewrite Z.pow2_bits_eqb by lia. symmetry. apply Z.eqb_neq. lia.
    + by rewrite Z.bits_0.
Qed.

(** ** Automation *)

(** Facts on machine integers and on the low bit. *)
Create HintDb kernel.
#[export] Hint Resolve u32_range u16_range u8_range : kernel.

(** [mstep] runs the first operation of a monadic computation whose result
    is known from a hypothesis or by computation. *)
Ltac mstep :=
  match goal with
  | H : ?c ?s = Ok (_, _) |- context [ (?c ≫= _) ?s ] => rewrite (bind_ok _ _ _ _ _ H)
  | |- context [ (mret _ ≫= _) _ ] => rewrite (bind_ok _ _ _ _ _ (ret_ok _ _))
  end.

(** [minv H] inverts a successful sequence of operations. *)
Ltac minv H :=
  let a := fresh "v" in
  let s := fresh "s" in
  let H1 := fresh "Hrun" in
  apply bind_ok_inv in H; destruct H as (a & s & H1 & H).

(** [zbool] proves equations between boolean comparisons of integers. *)
Ltac zbool :=
  repeat match goal with
  | |- context [?a <=? ?b] => destruct (Z.leb_spec a b)
  | |- context [?a <? ?b] => destruct (Z.ltb_spec a b)
  | |- context [?a =? ?b] => destruct (Z.eqb_spec a b)
  end;
  first [ reflexivity | exfalso; lia ].
