(* ===== verification/Memory.v ===== *)
(** Memory of the machine as the kernel's C code sees it: a byte-addressed
    32-bit address space whose pages are present or absent.

    A byte is read and written at an address; a 32-bit word is four bytes, low
    byte first (i386). An access to a page that is not in [m_pages] is a page
    fault, which page_fault() of paging.c answers by stopping the kernel: the
    operation returns [Err (Fault a)]. Bytes never written have an arbitrary
    value, the one [m_bytes] gives them (0 where it has no entry). *)

From S2P Require Import Prelude.

Definition PAGE : Z := 4096.

Record mem : Type := Mem {
  m_bytes : gmap Z Z;
  m_pages : gset Z
}.

Definition page_present (m : mem) (a : Z) : bool := bool_decide (a / PAGE ∈ m_pages m).

(** Contents, for a present page. *)
Definition byte_at (m : mem) (a : Z) : Z := u8 (default 0 (m_bytes m !! a)).

Definition set_byte (a v : Z) (m : mem) : mem :=
  Mem (<[a := u8 v]> (m_bytes m)) (m_pages m).

Definition word_at (m : mem) (a : Z) : Z :=
  byte_at m a + 2 ^ 8 * byte_at m (a + 1) + 2 ^ 16 * byte_at m (a + 2)
  + 2 ^ 24 * byte_at m (a + 3).

Definition set_word (a v : Z) (m : mem) : mem :=
  set_byte (a + 3) (v / 2 ^ 24)
    (set_byte (a + 2) (v / 2 ^ 16)
       (set_byte (a + 1) (v / 2 ^ 8) (set_byte a v m))).

(** The processor's accesses. *)
Definition load8 (a : Z) : M mem Z := fun m =>
  if page_present m a then Ok (byte_at m a, m) else Err (Fault a).

Definition store8 (a v : Z) : M mem unit := fun m =>
  if page_present m a then Ok (tt, set_byte a v m) else Err (Fault a).

Definition word_present (m : mem) (a : Z) : bool :=
  page_present m a && page_present m (a + 3).

Definition load32 (a : Z) : M mem Z := fun m =>
  if word_present m a then Ok (word_at m a, m) else Err (Fault a).

Definition store32 (a v : Z) : M mem unit := fun m =>
  if word_present m a then Ok (tt, set_word a v m) else Err (Fault a).

(** Mapping and unmapping one page. *)
Definition map_page_at (a : Z) (m : mem) : mem :=
  Mem (m_bytes m) ({[a / PAGE]} ∪ m_pages m).

Definition unmap_page_at (a : Z) (m : mem) : mem :=
  Mem (m_bytes m) (m_pages m ∖ {[a / PAGE]}).

(** The memory every page of which is absent, and the one where the [n] pages
    from the page of [a] are present and hold zeros. *)
Definition no_mem : mem := Mem ∅ ∅.

Fixpoint mem_with_pages (n : nat) (a : Z) : mem :=
  match n with
  | O => no_mem
  | S n' => map_page_at a (mem_with_pages n' (a + PAGE))
  end.

(** ** Bytes *)

Lemma byte_at_range m a : 0 <= byte_at m a < 2 ^ 8.
Proof. apply u8_range. Qed.

Lemma byte_at_set_same m a v : byte_at (set_byte a v m) a = u8 v.
Proof.
  unfold byte_at, set_byte; simpl. rewrite lookup_insert_eq. simpl.
  apply u8_small, u8_range.
Qed.

Lemma byte_at_set_other m a b v : a <> b -> byte_at (set_byte a v m) b = byte_at m b.
Proof. intros H. unfold byte_at, set_byte; simpl. by rewrite lookup_insert_ne. Qed.

Lemma pages_set_byte m a v : m_pages (set_byte a v m) = m_pages m.
Proof. reflexivity. Qed.

(** ** Words *)

Lemma word_at_range m a : 0 <= word_at m a < 2 ^ 32.
Proof.
  unfold word_at.
  pose proof (byte_at_range m a). pose proof (byte_at_range m (a + 1)).
  pose proof (byte_at_range m (a + 2)). pose proof (byte_at_range m (a + 3)). lia.
Qed.

Lemma word_at_set_same m a v : word_at (set_word a v m) a = u32 v.
Proof.
  unfold word_at, set_word.
  rewrite byte_at_set_same.
  rewrite 3!(byte_at_set_other _ _ a) by lia. rewrite byte_at_set_same.
  rewrite 2!(byte_at_set_other _ _ (a + 1)) by lia. rewrite byte_at_set_same.
  rewrite (byte_at_set_other _ _ (a + 2)) by lia. rewrite byte_at_set_same.
  unfold u8, u32. Z.div_mod_to_equations. lia.
Qed.

(** Words that do not overlap do not interfere. *)
Lemma word_at_set_other m a b v :
  a + 4 <= b \/ b + 4 <= a -> word_at (set_word a v m) b = word_at m b.
Proof.
  intros H. unfold word_at, set_word. by rewrite !byte_at_set_other by lia.
Qed.

Lemma byte_at_set_word_other m a b v :
  b < a \/ a + 4 <= b -> byte_at (set_word a v m) b = byte_at m b.
Proof. intros H. unfold set_word. by rewrite !byte_at_set_other by lia. Qed.

(** Writing back the word that is already there changes no word. *)
Lemma word_at_set_id m a b :
  a mod 4 = 0 -> b mod 4 = 0 -> word_at (set_word a (word_at m a) m) b = word_at m b.
Proof.
  intros Ha Hb. destruct (decide (a = b)) as [->|Hne].
  - rewrite word_at_set_same. apply u32_small, word_at_range.
  - apply word_at_set_other. Z.div_mod_to_equations. lia.
Qed.

Lemma pages_set_word m a v : m_pages (set_word a v m) = m_pages m.
Proof. reflexivity. Qed.

Lemma word_present_set_word m a v b : word_present (set_word a v m) b = word_present m b.
Proof. reflexivity. Qed.

(** ** The accesses, when the page is present *)

Lemma load32_ok m a : word_present m a = true -> load32 a m = Ok (word_at m a, m).
Proof. intros H. unfold load32. by rewrite H. Qed.

Lemma store32_ok m a v : word_present m a = true -> store32 a v m = Ok (tt, set_word a v m).
Proof. intros H. unfold store32. by rewrite H. Qed.

Lemma load8_ok m a : page_present m a = true -> load8 a m = Ok (byte_at m a, m).
Proof. intros H. unfold load8. by rewrite H. Qed.

Lemma store8_ok m a v : page_present m a = true -> store8 a v m = Ok (tt, set_byte a v m).
Proof. intros H. unfold store8. by rewrite H. Qed.

Lemma load32_fault m a : word_present m a = false -> load32 a m = Err (Fault a).
Proof. intros H. unfold load32. by rewrite H. Qed.

Lemma page_present_map m a b :
  page_present (map_page_at a m) b = bool_decide (b / PAGE = a / PAGE) || page_present m b.
Proof.
  unfold page_present, map_page_at; simpl.
  repeat case_bool_decide; set_solver.
Qed.

(** ** Extensional equality of memories

    Two memories with the same present pages and the same contents cannot be
    told apart by any access, although the maps behind them may differ. *)
Definition mem_equiv (m1 m2 : mem) : Prop :=
  m_pages m1 = m_pages m2 /\ forall a, byte_at m1 a = byte_at m2 a.

#[global] Instance mem_equiv_equivalence : Equivalence mem_equiv.
Proof.
  unfold mem_equiv. split.
  - intros m. done.
  - intros m1 m2 [H1 H2]. split; [done | intros a; done].
  - intros m1 m2 m3 [H1 H2] [H3 H4]. split; [congruence | intros a; congruence].
Qed.

#[global] Instance byte_at_proper : Proper (mem_equiv ==> eq ==> eq) byte_at.
Proof. intros m1 m2 [_ H] a b ->. apply H. Qed.

#[global] Instance word_at_proper : Proper (mem_equiv ==> eq ==> eq) word_at.
Proof. intros m1 m2 H a b ->. unfold word_at. by rewrite H. Qed.

#[global] Instance page_present_proper : Proper (mem_equiv ==> eq ==> eq) page_present.
Proof. intros m1 m2 [H _] a b ->. unfold page_present. by rewrite H. Qed.

#[global] Instance set_byte_proper : Proper (eq ==> eq ==> mem_equiv ==> mem_equiv) set_byte.
Proof.
  intros a b -> v w -> m1 m2 [Hp Hb]. split; [done |]. intros c.
  destruct (decide (b = c)) as [->|Hne].
  - by rewrite !byte_at_set_same.
  - by rewrite !byte_at_set_other.
Qed.

#[global] Instance set_word_proper : Proper (eq ==> eq ==> mem_equiv ==> mem_equiv) set_word.
Proof. intros a b -> v w -> m1 m2 H. unfold set_word. by rewrite H. Qed.

(** Memories that agree byte for byte. *)
Lemma set_byte_twice m a v w : mem_equiv (set_byte a v (set_byte a w m)) (set_byte a v m).
Proof.
  split; [done |]. intros b. destruct (decide (a = b)) as [->|Hne].
  - by rewrite !byte_at_set_same.
  - by rewrite !byte_at_set_other.
Qed.

#[export] Hint Resolve byte_at_range word_at_range : kernel.
