(* ===== verification/CString.v ===== *)
(** string.c on raw memory.

    The string instructions of the inline assembly (rep movsb, movsl, stosb,
    stosw) are loops over bytes or words, first address first. Loops bounded by
    a length recurse on it; loops that look for the end of a string take an
    explicit number of iterations and return [Err Hang] when it is not enough.
    Characters are signed where the code compares them as [char]. Addresses do
    not wrap around. *)

From S2P Require Import Prelude Memory.

(** ** Operations *)

(** rep movsb *)
Fixpoint movsb (n : nat) (d s : Z) : M mem unit :=
  match n with
  | O => mret tt
  | S n => b ← load8 s; store8 d b;; movsb n (d + 1) (s + 1)
  end.

(** rep movsl *)
Fixpoint movsl (n : nat) (d s : Z) : M mem unit :=
  match n with
  | O => mret tt
  | S n => w ← load32 s; store32 d w;; movsl n (d + 4) (s + 4)
  end.

Definition memcpy (dst src n : Z) : M mem Z :=
  if negb (Z.land (Z.lor (Z.lor dst src) n) 3 =? 0) then
    movsb (Z.to_nat n) dst src;; mret dst
  else
    movsl (Z.to_nat (n / 4)) dst src;; mret dst.

(** rep stosb; the returned pointer is the register after the loop. *)
Fixpoint stosb (n : nat) (p value : Z) : M mem Z :=
  match n with
  | O => mret p
  | S n => store8 p value;; stosb n (p + 1) value
  end.

Definition memset (ptr value n : Z) : M mem Z := stosb (Z.to_nat n) ptr value.

Definition store16 (a v : Z) : M mem unit := store8 a v;; store8 (a + 1) (v / 2 ^ 8).

Fixpoint stosw (n : nat) (p value : Z) : M mem Z :=
  match n with
  | O => mret p
  | S n => store16 p value;; stosw n (p + 2) value
  end.

Definition memsetw (ptr value n : Z) : M mem Z := stosw (Z.to_nat n) ptr value.

(** The two loops [for (i = ...; i > 0; --i) d[i-1] = s[i-1]]. *)
Fixpoint move_words (i : nat) (d s : Z) : M mem unit :=
  match i with
  | O => mret tt
  | S i =>
      w ← load32 (s + 4 * Z.of_nat i); store32 (d + 4 * Z.of_nat i) w;; move_words i d s
  end.

Fixpoint move_bytes (i : nat) (d s : Z) : M mem unit :=
  match i with
  | O => mret tt
  | S i => b ← load8 (s + Z.of_nat i); store8 (d + Z.of_nat i) b;; move_bytes i d s
  end.

Definition memmove (dst src n : Z) : M mem Z :=
  if dst <? src then memcpy dst src n
  else
    (if (dst mod 4 =? 0) && (src mod 4 =? 0) && (n mod 4 =? 0) then
       move_words (Z.to_nat (n / 4)) dst src
     else move_bytes (Z.to_nat n) dst src);;
    mret dst.

Fixpoint memcmp_loop (n : nat) (p1 p2 : Z) : M mem Z :=
  match n with
  | O => mret 0
  | S n =>
      a ← load8 p1; b ← load8 p2;
      if negb (a =? b) then mret (a - b) else memcmp_loop n (p1 + 1) (p2 + 1)
  end.

Definition memcmp (ptr1 ptr2 n : Z) : M mem Z := memcmp_loop (Z.to_nat n) ptr1 ptr2.

Fixpoint memchr_loop (n : nat) (p value : Z) : M mem Z :=
  match n with
  | O => mret 0
  | S n => b ← load8 p; if b =? value then mret p else memchr_loop n (p + 1) value
  end.

Definition memchr (ptr value n : Z) : M mem Z := memchr_loop (Z.to_nat n) ptr value.

(** [while (str[ret++]);] *)
Fixpoint strlen_loop (fuel : nat) (str ret : Z) : M mem Z :=
  match fuel with
  | O => throw Hang
  | S fuel =>
      c ← load8 (str + ret);
      if c =? 0 then mret (ret + 1) else strlen_loop fuel str (ret + 1)
  end.

Definition strlen (fuel : nat) (str : Z) : M mem Z := strlen_loop fuel str 0.

(** [while (str[ret++] && n--);] *)
Fixpoint strnlen_loop (fuel : nat) (str ret n : Z) : M mem Z :=
  match fuel with
  | O => throw Hang
  | S fuel =>
      c ← load8 (str + ret);
      if c =? 0 then mret (ret + 1)
      else if n =? 0 then mret (ret + 1)
      else strnlen_loop fuel str (ret + 1) (n - 1)
  end.

Definition strnlen (fuel : nat) (str n : Z) : M mem Z := strnlen_loop fuel str 0 n.

(** [for (i = 0; src[i]; ++i) dst[i] = src[i]; dst[i] = 0;] *)
Fixpoint strcpy_loop (fuel : nat) (dst src i : Z) : M mem unit :=
  match fuel with
  | O => throw Hang
  | S fuel =>
      c ← load8 (src + i);
      if c =? 0 then store8 (dst + i) 0
      else store8 (dst + i) c;; strcpy_loop fuel dst src (i + 1)
  end.

Definition strcpy (fuel : nat) (dst src : Z) : M mem Z := strcpy_loop fuel dst src 0;; mret dst.

(** [for (i = 0; src[i] && n > 0; ++i, --n)] *)
Fixpoint strncpy_loop (n : nat) (dst src i : Z) : M mem unit :=
  c ← load8 (src + i);
  if c =? 0 then store8 (dst + i) 0
  else
    match n with
    | O => store8 (dst + i) 0
    | S n => store8 (dst + i) c;; strncpy_loop n dst src (i + 1)
    end.

Definition strncpy (dst src n : Z) : M mem Z := strncpy_loop (Z.to_nat n) dst src 0;; mret dst.

Definition strcat (fuel : nat) (dst src : Z) : M mem Z :=
  offset ← strlen fuel dst;
  strcpy fuel (dst + offset) src;;
  mret dst.

(** The comparison after the loops of strcmp and strncmp. *)
Definition char_order (a b : Z) : Z :=
  if s8 b <? s8 a then 1 else if a =? b then 0 else -1.

Fixpoint strcmp_loop (fuel : nat) (s1 s2 i : Z) : M mem Z :=
  match fuel with
  | O => throw Hang
  | S fuel =>
      a ← load8 (s1 + i);
      more ← (if a =? 0 then mret false else b ← load8 (s2 + i); mret (a =? b));
      if more : bool then strcmp_loop fuel s1 s2 (i + 1)
      else b ← load8 (s2 + i); mret (char_order a b)
  end.

Definition strcmp (fuel : nat) (s1 s2 : Z) : M mem Z := strcmp_loop fuel s1 s2 0.

(** [s1[i] != 0 && s1[i] == s2[i] && n > 0] *)
Fixpoint strncmp_loop (n : nat) (s1 s2 i : Z) : M mem Z :=
  a ← load8 (s1 + i);
  b ← load8 (s2 + i);
  if negb (a =? 0) && (a =? b) then
    match n with
    | O => mret (char_order a b)
    | S n => strncmp_loop n s1 s2 (i + 1)
    end
  else mret (char_order a b).

Definition strncmp (s1 s2 n : Z) : M mem Z := strncmp_loop (Z.to_nat n) s1 s2 0.

(** ** Memory regions and C strings *)

Definition present (m : mem) (a n : Z) : Prop := forall i, 0 <= i < n -> page_present m (a + i) = true.

(** [m'] is [m] with the [n] bytes at [s] copied to [d]. *)
Record copied (m m' : mem) (d s n : Z) : Prop := {
  cp_pages : m_pages m' = m_pages m;
  cp_bytes : forall x, byte_at m' x = if (d <=? x) && (x <? d + n) then byte_at m (s + (x - d)) else byte_at m x
}.

(** The bytes [l] stand at address [a]. *)
Definition bytes_at (m : mem) (a : Z) (l : list Z) : Prop :=
  forall i b, l !! i = Some b -> page_present m (a + Z.of_nat i) = true /\ byte_at m (a + Z.of_nat i) = b.

(** The string [l], without zero bytes, and its terminator. *)
Definition cstring (m : mem) (a : Z) (l : list Z) : Prop :=
  bytes_at m a (l ++ [0]) /\ Forall (fun b => 0 < b < 256) l.

(** ** Copying *)

Section copying.
Implicit Types (m : mem) (d s x : Z).

Lemma present_sub m a n b k : present m a n -> a <= b -> b + k <= a + n -> present m b k.
Proof. intros P H1 H2 i Hi. replace (b + i) with (a + (b + i - a)) by lia. apply P. lia. Qed.

(** Intervals without a common address. *)
Lemma interval_apart a k c l : 0 < k -> 0 < l -> (forall x, a <= x < a + k -> ~ (c <= x < c + l)) -> a + k <= c \/ c + l <= a.
Proof.
  intros Hk Hl Hx. destruct (decide (a + k <= c)); [by left|]. destruct (decide (c + l <= a)); [by right|].
  exfalso. apply (Hx (Z.max a c)); lia.
Qed.

Lemma present_first m a n : present m a n -> 0 < n -> page_present m a = true.
Proof. intros P H. rewrite <- (Z.add_0_r a). apply P. lia. Qed.

Lemma present_pages m m' a n : m_pages m' = m_pages m -> present m a n -> present m' a n.
Proof. intros E P i Hi. unfold page_present. rewrite E. by apply P. Qed.

Lemma present_word m a n : present m a n -> 4 <= n -> word_present m a = true.
Proof.
  intros P H. unfold word_present. rewrite (present_first m a n P), (P 3) by lia. done.
Qed.

Lemma copied_nil m d s : copied m m d s 0.
Proof. split; [done |]. intros x. replace ((d <=? x) && (x <? d + 0)) with false by lia. done. Qed.

Lemma copied_byte m d s : copied m (set_byte d (byte_at m s) m) d s 1.
Proof.
  split; [done |]. intros x. destruct (decide (d = x)) as [->|Hne].
  - rewrite byte_at_set_same. replace ((x <=? x) && (x <? x + 1)) with true by lia.
    replace (s + (x - x)) with s by lia. apply u8_small, byte_at_range.
  - rewrite byte_at_set_other by done. by replace ((d <=? x) && (x <? d + 1)) with false by lia.
Qed.

(** The bytes of a word that was read. *)
Lemma word_bytes m s :
  u8 (word_at m s) = byte_at m s /\ u8 (word_at m s / 2 ^ 8) = byte_at m (s + 1) /\
  u8 (word_at m s / 2 ^ 16) = byte_at m (s + 2) /\ u8 (word_at m s / 2 ^ 24) = byte_at m (s + 3).
Proof.
  unfold word_at, u8. pose proof (byte_at_range m s). pose proof (byte_at_range m (s + 1)).
  pose proof (byte_at_range m (s + 2)). pose proof (byte_at_range m (s + 3)).
  set (a := byte_at m s) in *. set (b := byte_at m (s + 1)) in *. set (c := byte_at m (s + 2)) in *.
  set (e := byte_at m (s + 3)) in *. clearbody a b c e. split_and!; Z.div_mod_to_equations; lia.
Qed.

Lemma copied_word m d s : copied m (set_word d (word_at m s) m) d s 4.
Proof.
  split; [done |]. intros x. destruct (word_bytes m s) as (B0 & B1 & B2 & B3).
  destruct (decide (d <= x < d + 4)) as [Hin|Hout].
  - replace ((d <=? x) && (x <? d + 4)) with true by lia. unfold set_word.
    assert (x = d \/ x = d + 1 \/ x = d + 2 \/ x = d + 3) as [-> | [-> | [-> | ->]]] by lia;
      repeat first [ rewrite byte_at_set_same | rewrite byte_at_set_other by lia ].
    + rewrite B0. f_equal. lia.
    + rewrite B1. f_equal. lia.
    + rewrite B2. f_equal. lia.
    + rewrite B3. f_equal. lia.
  - rewrite byte_at_set_word_other by lia. by replace ((d <=? x) && (x <? d + 4)) with false by lia.
Qed.

(** Copying the first [k] bytes and then the others: the destination may lie
    below the source. *)
Lemma copied_forward m m1 m2 d s k n :
  0 <= k -> 0 <= n -> copied m m1 d s k -> copied m1 m2 (d + k) (s + k) n -> d <= s \/ s + k + n <= d ->
  copied m m2 d s (k + n).
Proof.
  intros Hk Hn [P1 B1] [P2 B2] Hov. split; [congruence |]. intros x. rewrite B2.
  destruct (decide (d + k <= x < d + k + n)) as [Hin|Hout].
  - replace ((d + k <=? x) && (x <? d + k + n)) with true by lia.
    replace ((d <=? x) && (x <? d + (k + n))) with true by lia. rewrite B1.
    replace ((d <=? s + k + (x - (d + k))) && (s + k + (x - (d + k)) <? d + k)) with false by lia.
    f_equal. lia.
  - replace ((d + k <=? x) && (x <? d + k + n)) with false by lia. rewrite B1.
    by replace ((d <=? x) && (x <? d + (k + n))) with ((d <=? x) && (x <? d + k)) by lia.
Qed.

(** Copying the last [k] bytes first: the destination may lie above the source. *)
Lemma copied_backward m m1 m2 d s k n :
  0 <= k -> 0 <= n -> copied m m1 (d + n) (s + n) k -> copied m1 m2 d s n -> s <= d ->
  copied m m2 d s (n + k).
Proof.
  intros Hk Hn [P1 B1] [P2 B2] Hov. split; [congruence |]. intros x. rewrite B2.
  destruct (decide (d <= x < d + n)) as [Hin|Hout].
  - replace ((d <=? x) && (x <? d + n)) with true by lia.
    replace ((d <=? x) && (x <? d + (n + k))) with true by lia. rewrite B1.
    by replace ((d + n <=? s + (x - d)) && (s + (x - d) <? d + n + k)) with false by lia.
  - replace ((d <=? x) && (x <? d + n)) with false by lia. rewrite B1.
    destruct (decide (d + n <= x < d + n + k)).
    + replace ((d + n <=? x) && (x <? d + n + k)) with true by lia.
      replace ((d <=? x) && (x <? d + (n + k))) with true by lia. f_equal. lia.
    + replace ((d + n <=? x) && (x <? d + n + k)) with false by lia.
      by replace ((d <=? x) && (x <? d + (n + k))) with false by lia.
Qed.

Lemma movsb_ok n m d s :
  present m d (Z.of_nat n) -> present m s (Z.of_nat n) -> d <= s \/ s + Z.of_nat n <= d ->
  exists m', movsb n d s m = Ok (tt, m') /\ copied m m' d s (Z.of_nat n).
Proof.
  revert m d s. induction n as [|n IH]; intros m d s Pd Ps Hov.
  { exists m. split; [done | apply copied_nil]. }
  cbn [movsb]. rewrite (bind_ok _ _ _ _ _ (load8_ok _ _ (present_first _ _ _ Ps ltac:(lia)))).
  rewrite (bind_ok _ _ _ _ _ (store8_ok _ _ _ (present_first _ _ _ Pd ltac:(lia)))).
  destruct (IH (set_byte d (byte_at m s) m) (d + 1) (s + 1)) as (m' & Run & C); [| | lia |].
  - eapply present_pages; [done |]. eapply present_sub; [exact Pd | lia | lia].
  - eapply present_pages; [done |]. eapply present_sub; [exact Ps | lia | lia].
  - exists m'. split; [done |]. replace (Z.of_nat (S n)) with (1 + Z.of_nat n) by lia.
    eapply copied_forward; [lia | lia | apply copied_byte | exact C | lia].
Qed.

Lemma movsl_ok n m d s :
  present m d (4 * Z.of_nat n) -> present m s (4 * Z.of_nat n) -> d <= s \/ s + 4 * Z.of_nat n <= d ->
  exists m', movsl n d s m = Ok (tt, m') /\ copied m m' d s (4 * Z.of_nat n).
Proof.
  revert m d s. induction n as [|n IH]; intros m d s Pd Ps Hov.
  { exists m. split; [done | apply copied_nil]. }
  cbn [movsl]. rewrite (bind_ok _ _ _ _ _ (load32_ok _ _ (present_word _ _ _ Ps ltac:(lia)))).
  rewrite (bind_ok _ _ _ _ _ (store32_ok _ _ _ (present_word _ _ _ Pd ltac:(lia)))).
  destruct (IH (set_word d (word_at m s) m) (d + 4) (s + 4)) as (m' & Run & C); [| | lia |].
  - eapply present_pages; [done |]. eapply present_sub; [exact Pd | lia | lia].
  - eapply present_pages; [done |]. eapply present_sub; [exact Ps | lia | lia].
  - exists m'. split; [done |]. replace (4 * Z.of_nat (S n)) with (4 + 4 * Z.of_nat n) by lia.
    eapply copied_forward; [lia | lia | apply copied_word | exact C | lia].
Qed.

Lemma land_3 z : Z.land z 3 = z mod 4.
Proof. change 3 with (Z.ones 2). rewrite Z.land_ones by lia. done. Qed.

Lemma lor_mod4 a b c :
  (Z.land (Z.lor (Z.lor a b) c) 3 =? 0) = true -> a mod 4 = 0 /\ b mod 4 = 0 /\ c mod 4 = 0.
Proof.
  intros H%Z.eqb_eq. rewrite !Z.land_lor_distr_l in H.
  apply Z.lor_eq_0_iff in H as [[Ha Hb]%Z.lor_eq_0_iff Hc]. by rewrite !land_3 in *.
Qed.

Lemma memcpy_ok m d s n :
  0 <= n -> present m d n -> present m s n -> d <= s \/ s + n <= d ->
  exists m', memcpy d s n m = Ok (d, m') /\ copied m m' d s n.
Proof.
  intros Hn Pd Ps Hov. unfold memcpy. destruct (Z.land _ 3 =? 0) eqn:E; cbn [negb].
  - destruct (lor_mod4 _ _ _ E) as (_ & _ & Hmod).
    assert (En : 4 * Z.of_nat (Z.to_nat (n / 4)) = n) by (Z.div_mod_to_equations; lia).
    destruct (movsl_ok (Z.to_nat (n / 4)) m d s) as (m' & Run & C); rewrite ?En; try done.
    rewrite (bind_ok _ _ _ _ _ Run). rewrite En in C. eauto.
  - destruct (movsb_ok (Z.to_nat n) m d s) as (m' & Run & C); rewrite ?Z2Nat.id by done; try done.
    rewrite (bind_ok _ _ _ _ _ Run). rewrite Z2Nat.id in C by done. eauto.
Qed.

Lemma move_bytes_ok n m d s :
  present m d (Z.of_nat n) -> present m s (Z.of_nat n) -> s <= d ->
  exists m', move_bytes n d s m = Ok (tt, m') /\ copied m m' d s (Z.of_nat n).
Proof.
  revert m. induction n as [|n IH]; intros m Pd Ps Hov.
  { exists m. split; [done | apply copied_nil]. }
  cbn [move_bytes]. rewrite (bind_ok _ _ _ _ _ (load8_ok _ _ (Ps (Z.of_nat n) ltac:(lia)))).
  rewrite (bind_ok _ _ _ _ _ (store8_ok _ _ _ (Pd (Z.of_nat n) ltac:(lia)))).
  destruct (IH (set_byte (d + Z.of_nat n) (byte_at m (s + Z.of_nat n)) m)) as (m' & Run & C); [| | done |].
  - eapply present_pages; [done |]. eapply present_sub; [exact Pd | lia | lia].
  - eapply present_pages; [done |]. eapply present_sub; [exact Ps | lia | lia].
  - exists m'. split; [done |]. replace (Z.of_nat (S n)) with (Z.of_nat n + 1) by lia.
    eapply copied_backward; [lia | lia | apply copied_byte | exact C | lia].
Qed.

Lemma move_words_ok n m d s :
  present m d (4 * Z.of_nat n) -> present m s (4 * Z.of_nat n) -> s <= d ->
  exists m', move_words n d s m = Ok (tt, m') /\ copied m m' d s (4 * Z.of_nat n).
Proof.
  revert m. induction n as [|n IH]; intros m Pd Ps Hov.
  { exists m. split; [done | apply copied_nil]. }
  assert (Pw : forall a, present m a (4 * Z.of_nat (S n)) -> word_present m (a + 4 * Z.of_nat n) = true).
  { intros a P. apply (present_word _ _ 4); [| lia]. eapply present_sub; [exact P | lia | lia]. }
  cbn [move_words]. rewrite (bind_ok _ _ _ _ _ (load32_ok _ _ (Pw _ Ps))).
  rewrite (bind_ok _ _ _ _ _ (store32_ok _ _ _ (Pw _ Pd))).
  destruct (IH (set_word (d + 4 * Z.of_nat n) (word_at m (s + 4 * Z.of_nat n)) m)) as (m' & Run & C); [| | done |].
  - eapply present_pages; [done |]. eapply present_sub; [exact Pd | lia | lia].
  - eapply present_pages; [done |]. eapply present_sub; [exact Ps | lia | lia].
  - exists m'. split; [done |]. replace (4 * Z.of_nat (S n)) with (4 * Z.of_nat n + 4) by lia.
    eapply copied_backward; [lia | lia | apply copied_word | exact C | lia].
Qed.

(** C22: memmove copies [n] bytes from [s] to [d] for every overlap of the two
    regions and every alignment, changes nothing else and returns [d]. *)
Theorem memmove_ok m d s n :
  0 <= n -> present m d n -> present m s n ->
  exists m', memmove d s n m = Ok (d, m') /\ copied m m' d s n.
Proof.
  intros Hn Pd Ps. unfold memmove. destruct (Z.ltb_spec d s) as [Hlt|Hge].
  { apply memcpy_ok; try done. lia. }
  destruct ((d mod 4 =? 0) && (s mod 4 =? 0) && (n mod 4 =? 0)) eqn:E.
  - apply andb_true_iff in E as [_ E%Z.eqb_eq].
    assert (En : 4 * Z.of_nat (Z.to_nat (n / 4)) = n) by (Z.div_mod_to_equations; lia).
    destruct (move_words_ok (Z.to_nat (n / 4)) m d s) as (m' & Run & C); rewrite ?En; try done.
    rewrite (bind_ok _ _ _ _ _ Run). rewrite En in C. eauto.
  - destruct (move_bytes_ok (Z.to_nat n) m d s) as (m' & Run & C); rewrite ?Z2Nat.id by done; try done.
    rewrite (bind_ok _ _ _ _ _ Run). rewrite Z2Nat.id in C by done. eauto.
Qed.
End copying.

(** ** Filling *)

Record filled (m m' : mem) (p n : Z) (f : Z -> Z) : Prop := {
  fl_pages : m_pages m' = m_pages m;
  fl_bytes : forall x, byte_at m' x = if (p <=? x) && (x <? p + n) then f (x - p) else byte_at m x
}.

Lemma stosb_ok n m p v :
  present m p (Z.of_nat n) ->
  exists m', stosb n p v m = Ok (p + Z.of_nat n, m') /\ filled m m' p (Z.of_nat n) (fun _ => u8 v).
Proof.
  revert m p. induction n as [|n IH]; intros m p P.
  { exists m. split; [by rewrite Z.add_0_r |]. split; [done |]. intros x.
    by replace ((p <=? x) && (x <? p + Z.of_nat 0)) with false by zbool. }
  cbn [stosb]. rewrite (bind_ok _ _ _ _ _ (store8_ok _ _ _ (present_first _ _ _ P ltac:(lia)))).
  destruct (IH (set_byte p v m) (p + 1)) as (m' & Run & [Pg B]).
  { eapply present_pages; [done |]. eapply present_sub; [exact P | lia | lia]. }
  exists m'. split; [rewrite Run; do 2 f_equal; lia |]. split; [done |]. intros x. rewrite B.
  destruct (decide (x = p)) as [->|].
  - rewrite byte_at_set_same. replace ((p + 1 <=? p) && (p <? p + 1 + Z.of_nat n)) with false by zbool.
    by replace ((p <=? p) && (p <? p + Z.of_nat (S n))) with true by zbool.
  - rewrite byte_at_set_other by done.
    by replace ((p <=? x) && (x <? p + Z.of_nat (S n))) with ((p + 1 <=? x) && (x <? p + 1 + Z.of_nat n)) by zbool.
Qed.

Lemma memset_ok m p v n :
  0 <= n -> present m p n ->
  exists m', memset p v n m = Ok (p + n, m') /\ filled m m' p n (fun _ => u8 v).
Proof.
  intros Hn P. unfold memset. rewrite <- (Z2Nat.id n) in P |- * by done. rewrite Nat2Z.id.
  by apply stosb_ok.
Qed.

(** ** Strings *)

Lemma bytes_at_cons m a b l :
  bytes_at m a (b :: l) <-> (page_present m a = true /\ byte_at m a = b) /\ bytes_at m (a + 1) l.
Proof.
  split.
  - intros H. split; [specialize (H 0%nat b eq_refl); by rewrite Z.add_0_r in H |].
    intros i c Hi. replace (a + 1 + Z.of_nat i) with (a + Z.of_nat (S i)) by lia. by apply H.
  - intros [H0 H] [|i] c Hi; simpl in Hi.
    + simplify_eq. by rewrite Z.add_0_r.
    + replace (a + Z.of_nat (S i)) with (a + 1 + Z.of_nat i) by lia. by apply H.
Qed.

Lemma bytes_at_present m a l : bytes_at m a l -> present m a (Z.of_nat (length l)).
Proof.
  intros H i Hi. destruct (lookup_lt_is_Some_2 l (Z.to_nat i)) as [b Hb]; [lia |].
  destruct (H _ _ Hb) as [P _]. by rewrite Z2Nat.id in P by lia.
Qed.

(** The same bytes after a copy, and in a memory that agrees on them. *)
Lemma bytes_at_copied m m' d s l :
  bytes_at m s l -> copied m m' d s (Z.of_nat (length l)) -> present m d (Z.of_nat (length l)) ->
  bytes_at m' d l.
Proof.
  intros H [P B] Pd i b Hi. assert (Hl := lookup_lt_Some _ _ _ Hi). split.
  - unfold page_present. rewrite P. apply Pd. lia.
  - rewrite B. replace ((d <=? d + Z.of_nat i) && (d + Z.of_nat i <? d + Z.of_nat (length l))) with true by zbool.
    replace (s + (d + Z.of_nat i - d)) with (s + Z.of_nat i) by lia. by apply H.
Qed.

Lemma bytes_at_outside m m' d s n a l :
  bytes_at m a l -> copied m m' d s n -> a + Z.of_nat (length l) <= d \/ d + n <= a -> bytes_at m' a l.
Proof.
  intros H [P B] Hd i b Hi. assert (Hl := lookup_lt_Some _ _ _ Hi). destruct (H _ _ Hi) as [H1 H2]. split.
  - unfold page_present. by rewrite P.
  - rewrite B. by replace ((d <=? a + Z.of_nat i) && (a + Z.of_nat i <? d + n)) with false by zbool.
Qed.

(** [m'] differs from [m] only at addresses in [W], and [n] bytes from [a] on
    lie outside of [W]. *)
Record changes (W : Z -> Prop) (m m' : mem) : Prop := {
  ch_pages : m_pages m' = m_pages m;
  ch_bytes : forall x, ~ W x -> byte_at m' x = byte_at m x
}.

Definition clear_of (W : Z -> Prop) (a n : Z) : Prop := forall x, a <= x < a + n -> ~ W x.

#[global] Instance changes_preorder W : PreOrder (changes W).
Proof.
  split; [by split|]. intros m1 m2 m3 [P1 B1] [P2 B2]. split; [congruence|]. intros x Hx. by rewrite B2, B1.
Qed.

Lemma changes_weaken (W W' : Z -> Prop) m m' : (forall x, W x -> W' x) -> changes W m m' -> changes W' m m'.
Proof. intros HW [P B]. split; [done|]. intros x Hx. apply B. intros Hw. by apply Hx, HW. Qed.

Section changes.
Context (W : Z -> Prop) (m m' : mem) (K : changes W m m').

Lemma clear_sub a n b k : clear_of W a n -> a <= b -> b + k <= a + n -> clear_of W b k.
Proof. intros C H1 H2 x Hx. apply C. lia. Qed.

Lemma changes_present a n : present m a n -> present m' a n.
Proof. apply present_pages. symmetry. by rewrite (ch_pages _ _ _ K). Qed.

Lemma changes_word_present a : word_present m' a = word_present m a.
Proof. unfold word_present, page_present. by rewrite (ch_pages _ _ _ K). Qed.

Lemma changes_bytes_at a l : bytes_at m a l -> clear_of W a (Z.of_nat (length l)) -> bytes_at m' a l.
Proof.
  intros B C i c Hi. pose proof (lookup_lt_Some _ _ _ Hi). destruct (B i c Hi) as [P E].
  split; [unfold page_present in *; by rewrite (ch_pages _ _ _ K)|]. rewrite (ch_bytes _ _ _ K); [done|]. apply C. lia.
Qed.

Lemma changes_cstring a l : cstring m a l -> clear_of W a (Z.of_nat (length l) + 1) -> cstring m' a l.
Proof.
  intros [B F] C. split; [|done]. apply changes_bytes_at; [done|]. rewrite length_app. cbn [length].
  by replace (Z.of_nat (length l + 1)) with (Z.of_nat (length l) + 1) by lia.
Qed.

Lemma changes_word a : clear_of W a 4 -> word_at m' a = word_at m a.
Proof. intros C. unfold word_at. by rewrite !(ch_bytes _ _ _ K) by (apply C; lia). Qed.

Lemma changes_load32 a v : load32 a m = Ok (v, m) -> clear_of W a 4 -> load32 a m' = Ok (v, m').
Proof.
  unfold load32. intros E C. rewrite changes_word_present. destruct (word_present m a); [|done].
  rewrite changes_word by done. congruence.
Qed.
End changes.

(** Reading a string of a known tail. *)
Lemma cstring_cons m a b l : cstring m a (b :: l) <->
  (page_present m a = true /\ byte_at m a = b) /\ 0 < b < 256 /\ cstring m (a + 1) l.
Proof.
  unfold cstring. simpl. rewrite bytes_at_cons, Forall_cons. tauto.
Qed.

Lemma cstring_nil m a : cstring m a [] <-> page_present m a = true /\ byte_at m a = 0.
Proof.
  unfold cstring. simpl. rewrite bytes_at_cons. split; [tauto |]. intros H. split; [| done].
  split; [done |]. intros i b Hi. by rewrite lookup_nil in Hi.
Qed.

Lemma strlen_loop_ok l m a r fuel :
  cstring m (a + r) l -> (length l < fuel)%nat ->
  strlen_loop fuel a r m = Ok (r + Z.of_nat (length l) + 1, m).
Proof.
  revert r fuel. induction l as [|b l IH]; intros r [|fuel] C Hf; simpl in Hf; try lia.
  - apply cstring_nil in C as [P B]. cbn [strlen_loop]. rewrite (bind_ok _ _ _ _ _ (load8_ok _ _ P)), B.
    rewrite Z.eqb_refl. simpl. by rewrite Z.add_0_r.
  - apply cstring_cons in C as ((P & B) & Hb & C). cbn [strlen_loop].
    rewrite (bind_ok _ _ _ _ _ (load8_ok _ _ P)), B. replace (b =? 0) with false by zbool.
    rewrite IH; [do 2 f_equal; cbn [length]; lia | by rewrite Z.add_assoc | lia].
Qed.

Lemma strlen_ok m a l fuel :
  cstring m a l -> (length l < fuel)%nat -> strlen fuel a m = Ok (Z.of_nat (length l) + 1, m).
Proof. intros C Hf. unfold strlen. rewrite (strlen_loop_ok l); [done | by rewrite Z.add_0_r | done]. Qed.

Lemma strnlen_loop_ok l m a r n fuel :
  cstring m (a + r) l -> 0 <= n -> (length l < fuel)%nat ->
  strnlen_loop fuel a r n m = Ok (r + Z.min (Z.of_nat (length l)) n + 1, m).
Proof.
  revert r n fuel. induction l as [|b l IH]; intros r n [|fuel] C Hn Hf; simpl in Hf; try lia.
  - apply cstring_nil in C as [P B]. cbn [strnlen_loop]. rewrite (bind_ok _ _ _ _ _ (load8_ok _ _ P)), B.
    rewrite Z.eqb_refl. rewrite ret_ok. do 2 f_equal. cbn [length]. lia.
  - apply cstring_cons in C as ((P & B) & Hb & C). cbn [strnlen_loop].
    rewrite (bind_ok _ _ _ _ _ (load8_ok _ _ P)), B. replace (b =? 0) with false by zbool.
    destruct (Z.eqb_spec n 0) as [->|Hn0]; [rewrite ret_ok; do 2 f_equal; cbn [length]; lia |].
    rewrite IH; [do 2 f_equal; cbn [length]; lia | by rewrite Z.add_assoc | lia | lia].
Qed.

Lemma strcpy_loop_ok l m d s i fuel :
  cstring m (s + i) l -> present m (d + i) (Z.of_nat (length l) + 1) -> (length l < fuel)%nat ->
  d + i + Z.of_nat (length l) + 1 <= s + i \/ s + i + Z.of_nat (length l) + 1 <= d + i ->
  exists m', strcpy_loop fuel d s i m = Ok (tt, m') /\ copied m m' (d + i) (s + i) (Z.of_nat (length l) + 1).
Proof.
  revert m i fuel. induction l as [|b l IH]; intros m i [|fuel] C Pd Hf Hov; simpl in Hf; try lia.
  - apply cstring_nil in C as [P B]. cbn [strcpy_loop]. rewrite (bind_ok _ _ _ _ _ (load8_ok _ _ P)), B.
    rewrite Z.eqb_refl. rewrite store8_ok by (eapply present_first; [exact Pd | simpl; lia]).
    eexists. split; [done |]. rewrite <- B at 1. apply copied_byte.
  - apply cstring_cons in C as ((P & B) & Hb & C). cbn [strcpy_loop].
    rewrite (bind_ok _ _ _ _ _ (load8_ok _ _ P)). replace (byte_at m (s + i) =? 0) with false by zbool.
    rewrite (bind_ok _ _ _ _ _ (store8_ok _ _ _ (present_first _ _ _ Pd ltac:(simpl; lia)))).
    assert (C1 := copied_byte m (d + i) (s + i)). simpl length in *.
    set (m1 := set_byte (d + i) (byte_at m (s + i)) m) in *.
    destruct (IH m1 (i + 1) fuel) as (m' & Run & Cp).
    + destruct C as [C Fl]. split; [| done]. rewrite Z.add_assoc. eapply bytes_at_outside; [exact C | exact C1 |].
      rewrite length_app. simpl. lia.
    + eapply present_pages; [done |]. eapply present_sub; [exact Pd | lia | lia].
    + lia.
    + lia.
    + exists m'. split; [done |]. replace (Z.of_nat (S (length l)) + 1) with (1 + (Z.of_nat (length l) + 1)) by lia.
      eapply copied_forward; [lia | lia | exact C1 | by rewrite <- !Z.add_assoc | lia].
Qed.

Lemma strcpy_ok m d s l fuel :
  cstring m s l -> present m d (Z.of_nat (length l) + 1) -> (length l < fuel)%nat ->
  d + Z.of_nat (length l) + 1 <= s \/ s + Z.of_nat (length l) + 1 <= d ->
  exists m', strcpy fuel d s m = Ok (d, m') /\ copied m m' d s (Z.of_nat (length l) + 1) /\ cstring m' d l.
Proof.
  intros C Pd Hf Hov. unfold strcpy.
  destruct (strcpy_loop_ok l m d s 0 fuel) as (m' & Run & Cp); rewrite ?Z.add_0_r in *; try done.
  exists m'. rewrite (bind_ok _ _ _ _ _ Run). split; [done |]. split; [done |].
  destruct C as [C Fl]. split; [| done].
  assert (Len : Z.of_nat (length (l ++ [0])) = Z.of_nat (length l) + 1) by (rewrite length_app; simpl; lia).
  eapply bytes_at_copied; rewrite ?Len; done.
Qed.

(** strcat copies the second string behind the terminator of the first:
    [d] still holds only the first string, and the second follows it. *)
Theorem strcat_ok m d s l1 l2 fuel :
  cstring m d l1 -> cstring m s l2 -> present m (d + Z.of_nat (length l1) + 1) (Z.of_nat (length l2) + 1) ->
  (length l1 < fuel)%nat -> (length l2 < fuel)%nat ->
  d + Z.of_nat (length l1) + 1 + Z.of_nat (length l2) + 1 <= s \/ s + Z.of_nat (length l2) + 1 <= d ->
  exists m', strcat fuel d s m = Ok (d, m') /\ cstring m' d l1 /\ cstring m' (d + Z.of_nat (length l1) + 1) l2.
Proof.
  intros C1 C2 P F1 F2 Hov. unfold strcat. rewrite (bind_ok _ _ _ _ _ (strlen_ok _ _ _ _ C1 F1)).
  destruct (strcpy_ok m (d + (Z.of_nat (length l1) + 1)) s l2 fuel C2) as (m' & Run & Cp & C'); try lia.
  { by rewrite Z.add_assoc. }
  exists m'. rewrite (bind_ok _ _ _ _ _ Run). split; [done |]. rewrite Z.add_assoc in *. split; [| done].
  destruct C1 as [C1 Fl]. split; [| done]. eapply bytes_at_outside; [exact C1 | exact Cp |].
  rewrite length_app. simpl. lia.
Qed.

(** ** Comparing and searching *)

(** The order of strings, by the first character that differs. *)
Fixpoint str_order (l1 l2 : list Z) : Z :=
  match l1, l2 with
  | a :: l1, b :: l2 => if a =? b then str_order l1 l2 else char_order a b
  | a :: _, [] => char_order a 0
  | [], b :: _ => char_order 0 b
  | [], [] => 0
  end.

Lemma char_order_refl a : char_order a a = 0.
Proof. unfold char_order. by rewrite Z.ltb_irrefl, Z.eqb_refl. Qed.

Lemma s8_inj a b : 0 <= a < 256 -> 0 <= b < 256 -> s8 a = s8 b -> a = b.
Proof. unfold s8. intros. Z.div_mod_to_equations. lia. Qed.

Lemma char_order_zero a b : 0 <= a < 256 -> 0 <= b < 256 -> char_order a b = 0 -> a = b.
Proof.
  unfold char_order. intros Ha Hb. destruct (s8 b <? s8 a); [done |].
  destruct (Z.eqb_spec a b); [done | done].
Qed.

Lemma str_order_zero l1 l2 :
  Forall (fun b => 0 < b < 256) l1 -> Forall (fun b => 0 < b < 256) l2 ->
  str_order l1 l2 = 0 <-> l1 = l2.
Proof.
  revert l2. induction l1 as [|a l1 IH]; intros [|b l2] F1 F2; simpl; try done.
  - apply Forall_cons in F2 as [Hb _]. split; [| done]. intros E%char_order_zero; lia.
  - apply Forall_cons in F1 as [Ha _]. split; [| done]. intros E%char_order_zero; lia.
  - apply Forall_cons in F1 as [Ha F1], F2 as [Hb F2]. destruct (Z.eqb_spec a b) as [->|Hne].
    + rewrite IH by done. split; [by intros -> | by intros [= ->]].
    + split; [intros E%char_order_zero; lia | by intros [= ->]].
Qed.

Lemma str_order_sym_zero l1 l2 :
  Forall (fun b => 0 < b < 256) l1 -> Forall (fun b => 0 < b < 256) l2 ->
  str_order l1 l2 = - str_order l2 l1.
Proof.
  assert (Anti : forall a b, 0 <= a < 256 -> 0 <= b < 256 -> a <> b -> char_order a b = - char_order b a).
  { intros a b Ha Hb Hne. unfold char_order. assert (s8 a <> s8 b) by (intros E; by apply Hne, s8_inj).
    destruct (Z.ltb_spec (s8 b) (s8 a)), (Z.ltb_spec (s8 a) (s8 b)); try lia.
    all: rewrite ?(proj2 (Z.eqb_neq a b)), ?(proj2 (Z.eqb_neq b a)) by lia; done. }
  revert l2. induction l1 as [|a l1 IH]; intros [|b l2] F1 F2; simpl; try done.
  - apply Forall_cons in F2 as [Hb _]. apply Anti; lia.
  - apply Forall_cons in F1 as [Ha _]. apply Anti; lia.
  - apply Forall_cons in F1 as [Ha F1], F2 as [Hb F2]. rewrite (Z.eqb_sym b a).
    destruct (Z.eqb_spec a b); [by apply IH | apply Anti; lia].
Qed.

(** The first byte of a string, its terminator included. *)
Lemma cstring_first m a l : cstring m a l -> page_present m a = true /\ byte_at m a = default 0 (head l).
Proof.
  destruct l as [|b l]; [by intros ?%cstring_nil |]. intros C%cstring_cons. simpl. tauto.
Qed.

Lemma strcmp_loop_ok l1 l2 m s1 s2 i fuel :
  cstring m (s1 + i) l1 -> cstring m (s2 + i) l2 -> (length l1 < fuel)%nat ->
  strcmp_loop fuel s1 s2 i m = Ok (str_order l1 l2, m).
Proof.
  revert l2 i fuel. induction l1 as [|a l1 IH]; intros l2 i [|fuel] C1 C2 Hf; simpl in Hf; try lia.
  - destruct (cstring_first _ _ _ C1) as [P1 B1], (cstring_first _ _ _ C2) as [P2 B2]. cbn [strcmp_loop].
    rewrite (bind_ok _ _ _ _ _ (load8_ok _ _ P1)), B1. simpl.
    rewrite (bind_ok _ _ _ _ _ (ret_ok _ _)). rewrite (bind_ok _ _ _ _ _ (load8_ok _ _ P2)), B2.
    destruct l2; simpl; rewrite ?char_order_refl; done.
  - destruct (cstring_first _ _ _ C2) as [P2 B2].
    apply cstring_cons in C1 as ((P1 & B1) & Ha & C1). cbn [strcmp_loop].
    rewrite (bind_ok _ _ _ _ _ (load8_ok _ _ P1)), B1. replace (a =? 0) with false by zbool.
    assert (E2 : (b ← load8 (s2 + i); mret (a =? b)) m = Ok (a =? byte_at m (s2 + i), m)).
    { by rewrite (bind_ok _ _ _ _ _ (load8_ok _ _ P2)). }
    rewrite (bind_ok _ _ _ _ _ E2), B2.
    destruct l2 as [|b l2]; simpl.
    + replace (a =? 0) with false by zbool. by rewrite (bind_ok _ _ _ _ _ (load8_ok _ _ P2)), B2.
    + destruct (Z.eqb_spec a b) as [->|Hne].
      * apply cstring_cons in C2 as (_ & _ & C2). apply IH; [by rewrite Z.add_assoc | by rewrite Z.add_assoc | lia].
      * by rewrite (bind_ok _ _ _ _ _ (load8_ok _ _ P2)), B2.
Qed.

(** strcmp returns the order of the two strings, character by
    character, with the characters taken as signed. *)
Theorem strcmp_ok m s1 s2 l1 l2 fuel :
  cstring m s1 l1 -> cstring m s2 l2 -> (length l1 < fuel)%nat ->
  strcmp fuel s1 s2 m = Ok (str_order l1 l2, m).
Proof. intros. unfold strcmp. apply strcmp_loop_ok; by rewrite ?Z.add_0_r. Qed.

(** strncmp looks at one character more than it is asked to. *)
Lemma strncmp_loop_ok n l1 l2 m s1 s2 i :
  cstring m (s1 + i) l1 -> cstring m (s2 + i) l2 ->
  strncmp_loop n s1 s2 i m = Ok (str_order (take (S n) l1) (take (S n) l2), m).
Proof.
  revert l1 l2 i. induction n as [|n IH]; intros l1 l2 i C1 C2.
  - destruct (cstring_first _ _ _ C1) as [P1 B1], (cstring_first _ _ _ C2) as [P2 B2]. cbn [strncmp_loop].
    rewrite (bind_ok _ _ _ _ _ (load8_ok _ _ P1)), (bind_ok _ _ _ _ _ (load8_ok _ _ P2)), B1, B2.
    destruct l1 as [|a l1], l2 as [|b l2]; simpl; rewrite ?char_order_refl; try done.
    + by destruct (_ && _).
    + destruct (Z.eqb_spec a b) as [->|Hne]; rewrite ?andb_false_r; [| done].
      by destruct (negb _ && _); rewrite char_order_refl.
  - destruct (cstring_first _ _ _ C1) as [P1 B1], (cstring_first _ _ _ C2) as [P2 B2]. cbn [strncmp_loop].
    rewrite (bind_ok _ _ _ _ _ (load8_ok _ _ P1)), (bind_ok _ _ _ _ _ (load8_ok _ _ P2)), B1, B2.
    destruct l1 as [|a l1], l2 as [|b l2]; cbn [default from_option id head]; simpl; rewrite ?char_order_refl; try done.
    + apply cstring_cons in C1 as (_ & Ha & _). replace (a =? 0) with false by zbool. done.
    + apply cstring_cons in C1 as (_ & Ha & C1), C2 as (_ & Hb & C2).
      replace (a =? 0) with false by zbool. simpl.
      destruct (Z.eqb_spec a b) as [->|Hne]; [| done]. apply IH; by rewrite Z.add_assoc.
Qed.

Lemma strncmp_ok m s1 s2 l1 l2 n :
  cstring m s1 l1 -> cstring m s2 l2 -> 0 <= n ->
  strncmp s1 s2 n m = Ok (str_order (take (Z.to_nat (n + 1)) l1) (take (Z.to_nat (n + 1)) l2), m).
Proof.
  intros C1 C2 Hn. unfold strncmp. rewrite (strncmp_loop_ok _ l1 l2) by (by rewrite Z.add_0_r).
  by replace (Z.to_nat (n + 1)) with (S (Z.to_nat n)) by lia.
Qed.

(** memcmp returns the first difference. *)
Fixpoint first_diff (l1 l2 : list Z) : Z :=
  match l1, l2 with
  | a :: l1, b :: l2 => if a =? b then first_diff l1 l2 else a - b
  | _, _ => 0
  end.

Lemma memcmp_ok m p1 p2 l1 l2 :
  bytes_at m p1 l1 -> bytes_at m p2 l2 -> length l1 = length l2 ->
  memcmp p1 p2 (Z.of_nat (length l1)) m = Ok (first_diff l1 l2, m).
Proof.
  unfold memcmp. rewrite Nat2Z.id. revert p1 p2 l2. induction l1 as [|a l1 IH]; intros p1 p2 [|b l2] B1 B2 L; try done.
  apply bytes_at_cons in B1 as ((P1 & E1) & B1), B2 as ((P2 & E2) & B2). cbn [length memcmp_loop].
  rewrite (bind_ok _ _ _ _ _ (load8_ok _ _ P1)), (bind_ok _ _ _ _ _ (load8_ok _ _ P2)), E1, E2. simpl.
  destruct (Z.eqb_spec a b); [| done]. apply IH; [done | done | by injection L].
Qed.

Lemma first_diff_zero l1 l2 : length l1 = length l2 -> first_diff l1 l2 = 0 <-> l1 = l2.
Proof.
  revert l2. induction l1 as [|a l1 IH]; intros [|b l2] L; simpl; try done.
  injection L as L. destruct (Z.eqb_spec a b) as [->|Hne].
  - rewrite IH by done. split; [by intros -> | by intros [= ->]].
  - split; [lia | by intros [= ->]].
Qed.

(** memchr returns the first occurrence, or NULL. *)
Lemma memchr_ok m p l v :
  bytes_at m p l ->
  memchr p v (Z.of_nat (length l)) m =
  Ok (from_option (fun ib => p + Z.of_nat (fst ib)) 0 (list_find (fun b => b = v) l), m).
Proof.
  unfold memchr. rewrite Nat2Z.id. revert p. induction l as [|b l IH]; intros p B; [done |].
  apply bytes_at_cons in B as ((P & E) & B). cbn [length memchr_loop].
  rewrite (bind_ok _ _ _ _ _ (load8_ok _ _ P)), E. cbn [list_find].
  destruct (Z.eqb_spec b v) as [->|Hne].
  - rewrite decide_True by done. simpl. by rewrite Z.add_0_r.
  - rewrite decide_False by done. rewrite IH by done. destruct (list_find _ l) as [[i c]|]; simpl; [| done].
    do 2 f_equal. lia.
Qed.

(** strncpy: at most [n] characters and a terminator after them. *)
Lemma terminated m d s i x :
  byte_at (set_byte (d + i) 0 m) x =
  if (d + i <=? x) && (x <? d + i + Z.of_nat 0) then byte_at m (s + (x - d))
  else if x =? d + i + Z.of_nat 0 then 0 else byte_at m x.
Proof.
  change (Z.of_nat 0) with 0. rewrite Z.add_0_r. replace ((d + i <=? x) && (x <? d + i)) with false by zbool.
  destruct (Z.eqb_spec x (d + i)) as [->|]; [by rewrite byte_at_set_same | by rewrite byte_at_set_other].
Qed.

Lemma strncpy_loop_ok n l m d s i :
  cstring m (s + i) l -> present m (d + i) (Z.of_nat (min n (length l)) + 1) ->
  d + i + Z.of_nat (min n (length l)) + 1 <= s + i \/ s + i + Z.of_nat (length l) + 1 <= d + i ->
  exists m', strncpy_loop n d s i m = Ok (tt, m') /\ m_pages m' = m_pages m /\
    (forall x, byte_at m' x =
       if (d + i <=? x) && (x <? d + i + Z.of_nat (min n (length l))) then byte_at m (s + (x - d))
       else if x =? d + i + Z.of_nat (min n (length l)) then 0 else byte_at m x).
Proof.
  revert l m i. induction n as [|n IH]; intros l m i C Pd Hov.
  - destruct (cstring_first _ _ _ C) as [P _]. cbn [strncpy_loop]. rewrite (bind_ok _ _ _ _ _ (load8_ok _ _ P)).
    exists (set_byte (d + i) 0 m). split; [| split; [done |]].
    + destruct (_ =? 0); apply store8_ok; (eapply present_first; [exact Pd | lia]).
    + apply terminated.
  - destruct l as [|b l].
    + apply cstring_nil in C as [P B]. cbn [strncpy_loop]. rewrite (bind_ok _ _ _ _ _ (load8_ok _ _ P)), B.
      exists (set_byte (d + i) 0 m). split; [| split; [done |]].
      * apply store8_ok. eapply present_first; [exact Pd | lia].
      * apply terminated.
    + apply cstring_cons in C as ((P & B) & Hb & C). cbn [strncpy_loop]. cbn [length Nat.min] in *.
      rewrite (bind_ok _ _ _ _ _ (load8_ok _ _ P)). replace (byte_at m (s + i) =? 0) with false by zbool.
      rewrite (bind_ok _ _ _ _ _ (store8_ok _ _ _ (present_first _ _ _ Pd ltac:(lia)))).
      assert (C1 := copied_byte m (d + i) (s + i)).
      destruct (IH l (set_byte (d + i) (byte_at m (s + i)) m) (i + 1)) as (m' & Run & Pg & Bt).
      * destruct C as [C Fl]. split; [| done]. rewrite Z.add_assoc. eapply bytes_at_outside; [exact C | exact C1 |].
        rewrite length_app. simpl. lia.
      * eapply present_pages; [done |]. eapply present_sub; [exact Pd | lia | lia].
      * lia.
      * exists m'. split; [done |]. split; [done |]. intros x. rewrite Bt.
        rewrite !(cp_bytes _ _ _ _ _ C1).
        assert (Hk : (min n (length l) <= length l)%nat) by lia. set (k := min n (length l)) in *. clearbody k.
        repeat match goal with
          |- context [?a <=? ?b] => destruct (Z.leb_spec a b) | |- context [?a <? ?b] => destruct (Z.ltb_spec a b)
        | |- context [?a =? ?b] => destruct (Z.eqb_spec a b) end; simpl; try lia; try (f_equal; lia).
Qed.

(** strncpy leaves the first [n] characters and a terminator. *)
Lemma strncpy_ok m d s l n :
  cstring m s l -> let k := min (Z.to_nat n) (length l) in
  present m d (Z.of_nat k + 1) ->
  d + Z.of_nat k + 1 <= s \/ s + Z.of_nat (length l) + 1 <= d ->
  exists m', strncpy d s n m = Ok (d, m') /\ m_pages m' = m_pages m /\ cstring m' d (take (Z.to_nat n) l) /\
    (forall x, x < d \/ d + Z.of_nat k + 1 <= x -> byte_at m' x = byte_at m x).
Proof.
  intros C k P Ho. destruct (strncpy_loop_ok (Z.to_nat n) l m d s 0) as (m' & E & Pg & B);
    rewrite ?Z.add_0_r; try done.
  fold k in B. rewrite Z.add_0_r in B. exists m'. unfold strncpy. rewrite (bind_ok _ _ _ _ _ E).
  assert (Hk : length (take (Z.to_nat n) l) = k) by apply length_take.
  split_and!; [done | done | split |].
  - intros i b Hi. assert (Hl := lookup_lt_Some _ _ _ Hi). rewrite length_app, Hk in Hl. cbn in Hl. split.
    + unfold page_present. rewrite Pg. apply P. lia.
    + rewrite B. destruct (decide (i < k)%nat) as [L|L].
      * rewrite lookup_app_l in Hi by lia. rewrite lookup_take_lt in Hi by lia.
        replace ((d <=? d + Z.of_nat i) && (d + Z.of_nat i <? d + Z.of_nat k)) with true by zbool.
        replace (s + (d + Z.of_nat i - d)) with (s + Z.of_nat i) by lia.
        apply C. by rewrite lookup_app_l by (apply lookup_lt_Some in Hi; lia).
      * replace i with k in * by lia. replace ((d <=? _) && _) with false by zbool.
        rewrite Z.eqb_refl. rewrite lookup_app_r, Hk, Nat.sub_diag in Hi by lia. by injection Hi.
  - apply Forall_take, C.
  - intros x Hx. rewrite B. replace ((d <=? x) && (x <? d + Z.of_nat k)) with false by zbool.
    destruct (Z.eqb_spec x (d + Z.of_nat k)); [lia | done].
Qed.

(** ** Concrete memories *)

(** The bytes [l] written from address [a] on. *)
Fixpoint put_bytes (a : Z) (l : list Z) (m : mem) : mem :=
  match l with [] => m | b :: l' => put_bytes (a + 1) l' (set_byte a b m) end.

(** Executable forms of the predicates. *)
Fixpoint present_b (m : mem) (a : Z) (n : nat) : bool :=
  match n with O => true | S n' => page_present m a && present_b m (a + 1) n' end.

Fixpoint bytes_at_b (m : mem) (a : Z) (l : list Z) : bool :=
  match l with
  | [] => true
  | b :: l' => page_present m a && (byte_at m a =? b) && bytes_at_b m (a + 1) l'
  end.

Lemma present_b_ok m n : forall a, present_b m a n = true -> present m a (Z.of_nat n).
Proof.
  induction n as [|n IH]; intros a H i Hi; [lia|].
  cbn [present_b] in H. apply andb_true_iff in H as [H1 H2].
  destruct (Z.eq_dec i 0) as [->|Hne]; [by rewrite Z.add_0_r|].
  replace (a + i) with (a + 1 + (i - 1)) by lia. apply IH; [done | lia].
Qed.

Lemma bytes_at_b_ok m l : forall a, bytes_at_b m a l = true -> bytes_at m a l.
Proof.
  induction l as [|b l IH]; intros a H i x Hx; [done|].
  cbn [bytes_at_b] in H. rewrite !andb_true_iff, Z.eqb_eq in H. destruct H as ((H1 & H2) & H3).
  destruct i as [|i]; cbn in Hx.
  - injection Hx as ->. by rewrite Z.add_0_r.
  - replace (a + Z.of_nat (S i)) with (a + 1 + Z.of_nat i) by lia. by apply IH.
Qed.

Lemma cstring_b_ok m a l :
  bytes_at_b m a (l ++ [0]) && forallb (fun b => (0 <? b) && (b <? 256)) l = true -> cstring m a l.
Proof.
  intros [H1 H2]%andb_true_iff. split; [by apply bytes_at_b_ok|].
  apply Forall_forall. intros x Hx. rewrite forallb_forall in H2.
  apply list_elem_of_In, H2, andb_true_iff in Hx as [Hx1%Z.ltb_lt Hx2%Z.ltb_lt]. lia.
Qed.

(** One page with the strings "ab" at 16 and "abc" at 32. *)
Definition two_strings : mem := put_bytes 16 [97; 98; 0] (put_bytes 32 [97; 98; 99; 0] (mem_with_pages 1 0)).

Lemma memmove_ok_witness :
  exists m', memmove 34 32 4 two_strings = Ok (34, m') /\ copied two_strings m' 34 32 4.
Proof.
  apply memmove_ok; [lia | apply (present_b_ok _ 4); vm_compute; reflexivity
    | apply (present_b_ok _ 4); vm_compute; reflexivity].
Defined.

Lemma strcmp_ok_witness :
  strcmp 10 16 32 two_strings = Ok (str_order [97; 98] [97; 98; 99], two_strings).
Proof.
  apply strcmp_ok; [apply cstring_b_ok; vm_compute; reflexivity.. | simpl; lia].
Defined.

Lemma strcat_ok_witness :
  exists m', strcat 10 16 32 two_strings = Ok (16, m') /\ cstring m' 16 [97; 98] /\
    cstring m' (16 + Z.of_nat (length [97; 98]) + 1) [97; 98; 99].
Proof.
  apply strcat_ok; [apply cstring_b_ok; vm_compute; reflexivity | apply cstring_b_ok; vm_compute; reflexivity
    | apply (present_b_ok _ 4); vm_compute; reflexivity | simpl; lia | simpl; lia | simpl; lia].
Defined.
