(* ===== verification/Utils.v ===== *)
(** utils.c: characters, strtol, itoa and atoi, on strings in memory.

    [long] and [int] results wrap around at 32 bits. The loops take an explicit
    number of iterations; itoa needs at most 33, one per binary digit. *)

From S2P Require Import Prelude Memory CString.

(** ** Characters: utils.h *)

Definition is_upper (c : Z) : bool := (65 <=? c) && (c <=? 90).
Definition to_lower (c : Z) : Z := if is_upper c then c - 65 + 97 else c.
Definition is_alpha (c : Z) : bool := ((97 <=? c) && (c <=? 122)) || ((65 <=? c) && (c <=? 90)).
Definition is_digit (c : Z) : bool := (48 <=? c) && (c <=? 57).
Definition is_alnum (c : Z) : bool := is_alpha c || is_digit c.
Definition is_xdigit (c : Z) : bool := is_digit c || ((97 <? c) && (c <? 102)).

(** [char] is signed. *)
Definition load_char (a : Z) : M mem Z := b ← load8 a; mret (s8 b).

Definition chars (s : string) : list Z :=
  (fun a => Z.of_N (Ascii.N_of_ascii a)) <$> String.list_ascii_of_string s.

Definition digits_lower : list Z := chars "0123456789abcdefghijklmnopqrstuvwxyz".

(** ** strtol *)

Fixpoint skip_blanks (fuel : nat) (buf : Z) : M mem Z :=
  match fuel with
  | O => throw Hang
  | S fuel =>
      c ← load_char buf;
      if (c =? 32) || (c =? 9) then skip_blanks fuel (buf + 1) else mret buf
  end.

Fixpoint strtol_digits (fuel : nat) (base buf value : Z) : M mem (Z * Z) :=
  match fuel with
  | O => throw Hang
  | S fuel =>
      c ← load_char buf;
      if is_alnum c then
        if is_alpha c then
          let k := to_lower c - 97 + 10 in
          if base <? k then mret (value, buf)
          else strtol_digits fuel base (buf + 1) (s32 (value * base + k))
        else strtol_digits fuel base (buf + 1) (s32 (value * base + (c - 48)))
      else mret (value, buf)
  end.

(** Returns the value and the pointer that is stored in [*endptr]. The branch
    for [base == 0] is not reachable, and the hexadecimal prefix moves the
    parameter [str], which is not read again. *)
Definition strtol (fuel : nat) (str base : Z) : M mem (Z * Z) :=
  if (base <? 2) || (36 <? base) then mret (0, str)
  else
    buf ← skip_blanks fuel str;
    c ← load_char buf;
    let '(sign, buf) := if c =? 45 then (-1, buf + 1) else if c =? 43 then (1, buf + 1) else (1, buf) in
    '(value, buf) ← strtol_digits fuel base buf 0;
    mret (s32 (sign * value), buf).

(** ** itoa *)

(** [do { *ptr++ = digits[value % base]; value /= base; } while (value);] *)
Fixpoint itoa_digits (fuel : nat) (base value ptr : Z) : M mem Z :=
  match fuel with
  | O => throw Hang
  | S fuel =>
      store8 ptr (default 0 (digits_lower !! Z.to_nat (value mod base)));;
      if value / base =? 0 then mret (ptr + 1) else itoa_digits fuel base (value / base) (ptr + 1)
  end.

(** [while (low < ptr)] *)
Fixpoint reverse_loop (fuel : nat) (low ptr : Z) : M mem unit :=
  match fuel with
  | O => throw Hang
  | S fuel =>
      if low <? ptr then
        tmp ← load8 low;
        x ← load8 ptr;
        store8 low x;;
        store8 ptr tmp;;
        reverse_loop fuel (low + 1) (ptr - 1)
      else mret tt
  end.

Definition itoa (value str base : Z) : M mem Z :=
  if (base <? 2) || (36 <? base) then store8 str 0;; mret str
  else
    ptr ← itoa_digits 33 base value str;
    store8 ptr 0;;
    reverse_loop 33 str (ptr - 1);;
    mret str.

(** ** atoi *)

Fixpoint skip_spaces (fuel : nat) (str : Z) : M mem Z :=
  match fuel with
  | O => throw Hang
  | S fuel => c ← load_char str; if c =? 32 then skip_spaces fuel (str + 1) else mret str
  end.

Fixpoint atoi_digits (fuel : nat) (base str n : Z) : M mem Z :=
  match fuel with
  | O => throw Hang
  | S fuel =>
      c ← load_char str;
      if c =? 0 then mret n
      else if c =? 32 then mret n
      else
        let k := if is_alpha c then to_lower c - 97 + 10 else c - 48 in
        atoi_digits fuel base (str + 1) (s32 (n * base + k))
  end.

Definition atoi (fuel : nat) (str : Z) : M mem Z :=
  str ← skip_spaces fuel str;
  c ← load_char str;
  if c =? 48 then
    c ← load_char (str + 1);
    if c =? 120 then atoi_digits fuel 16 (str + 2) 0
    else atoi_digits fuel 8 (str + 1) 0
  else atoi_digits fuel 10 str 0.

(** ** Numerals *)

Definition digit_char (d : Z) : Z := if d <? 10 then 48 + d else 87 + d.

(** The digits of [v], the last one first. *)
Fixpoint digits_rev (fuel : nat) (base v : Z) : list Z :=
  match fuel with
  | O => []
  | S fuel => digit_char (v mod base) :: if v / base =? 0 then [] else digits_rev fuel base (v / base)
  end.

(** The numeral of [v] in base [base]. *)
Definition numeral (base v : Z) : list Z := rev (digits_rev 33 base v).

Definition digit_value (c : Z) : Z := if is_alpha c then to_lower c - 97 + 10 else c - 48.

Definition numeral_value (base : Z) (l : list Z) : Z :=
  foldl (fun n c => n * base + digit_value c) 0 l.

(** ** Lemmas: digits *)

Lemma digit_lookup d : 0 <= d < 36 -> digits_lower !! Z.to_nat d = Some (digit_char d).
Proof.
  intros Hd. assert (F : Forall (fun d => digits_lower !! Z.to_nat d = Some (digit_char d)) (seqZ 0 36)).
  { let l := eval vm_compute in (seqZ 0 36) in change (seqZ 0 36) with l. repeat constructor. }
  eapply Forall_forall in F; [exact F |]. apply elem_of_seqZ. lia.
Qed.

(** A digit is an alphanumeric character that stands for its value. *)
Lemma digit_char_ok d :
  0 <= d < 36 ->
  is_alnum (digit_char d) = true /\ digit_value (digit_char d) = d /\ 48 <= digit_char d < 123 /\
  s8 (digit_char d) = digit_char d /\ (is_alpha (digit_char d) = true -> 10 <= d).
Proof.
  intros Hd.
  assert (F : Forall (fun d => is_alnum (digit_char d) = true /\ digit_value (digit_char d) = d /\
     48 <= digit_char d < 123 /\ s8 (digit_char d) = digit_char d /\
     (is_alpha (digit_char d) = true -> 10 <= d)) (seqZ 0 36)).
  { let l := eval vm_compute in (seqZ 0 36) in change (seqZ 0 36) with l. repeat constructor; try done; vm_compute; congruence. }
  eapply Forall_forall in F; [exact F |]. apply elem_of_seqZ. lia.
Qed.

Lemma digits_rev_value fuel base v :
  2 <= base <= 36 -> 0 <= v < base ^ Z.of_nat fuel -> numeral_value base (rev (digits_rev fuel base v)) = v.
Proof.
  intros Hb. revert v. induction fuel as [|fuel IH]; intros v Hv.
  { simpl in Hv. change (base ^ 0) with 1 in Hv. assert (v = 0) as -> by lia. done. }
  rewrite Nat2Z.inj_succ, Z.pow_succ_r in Hv by lia.
  assert (Hm := Z.mod_pos_bound v base ltac:(lia)).
  destruct (digit_char_ok (v mod base) ltac:(lia)) as (_ & Hd & _).
  assert (Hdiv := Z.div_mod v base ltac:(lia)).
  cbn [digits_rev rev]. unfold numeral_value in *. rewrite foldl_app. simpl. rewrite Hd.
  destruct (Z.eqb_spec (v / base) 0) as [E|E]; simpl.
  - lia.
  - rewrite IH; [lia |]. split; [apply Z.div_pos; lia |]. apply Z.div_lt_upper_bound; lia.
Qed.

Lemma numeral_value_ok base v :
  2 <= base <= 36 -> 0 <= v < 2 ^ 32 -> numeral_value base (numeral base v) = v.
Proof.
  intros Hb Hv. apply digits_rev_value; [done |]. split; [lia |].
  assert (2 ^ 33 <= base ^ 33) by (apply Z.pow_le_mono_l; lia). simpl in *. lia.
Qed.

(** Every character of a numeral is a digit of the base. *)
Definition is_numeral (base : Z) (l : list Z) : Prop :=
  Forall (fun c => exists d, 0 <= d < base /\ c = digit_char d) l.

Lemma digits_rev_numeral fuel base v : 0 < base -> is_numeral base (digits_rev fuel base v).
Proof.
  intros Hb. revert v. induction fuel as [|fuel IH]; intros v; [constructor |]. cbn [digits_rev].
  constructor; [exists (v mod base); split; [by apply Z.mod_pos_bound | done] |].
  destruct (v / base =? 0); [constructor | apply IH].
Qed.

Lemma numeral_is_numeral base v : 0 < base -> is_numeral base (numeral base v).
Proof. intros Hb. unfold numeral, is_numeral. by apply Forall_rev, digits_rev_numeral. Qed.

Lemma digits_rev_length fuel base v : (length (digits_rev fuel base v) <= fuel)%nat.
Proof.
  revert v. induction fuel as [|fuel IH]; intros v; cbn [digits_rev length]; [done |].
  destruct (v / base =? 0); simpl; [lia | specialize (IH (v / base)); lia].
Qed.

Lemma digits_rev_nonempty fuel base v : digits_rev (S fuel) base v <> [].
Proof. done. Qed.

(** ** Lemmas: memory outside a buffer *)

Record only_in (m m' : mem) (a n : Z) : Prop := {
  oi_pages : m_pages m' = m_pages m;
  oi_bytes : forall x, x < a \/ a + n <= x -> byte_at m' x = byte_at m x
}.

Lemma only_in_byte m a v b n : b <= a < b + n -> only_in m (set_byte a v m) b n.
Proof. intros H. split; [done |]. intros x Hx. apply byte_at_set_other. lia. Qed.

Lemma only_in_trans m1 m2 m3 a n : only_in m1 m2 a n -> only_in m2 m3 a n -> only_in m1 m3 a n.
Proof. intros [P1 B1] [P2 B2]. split; [congruence |]. intros x Hx. rewrite B2, B1; done. Qed.

Lemma only_in_sub m m' a n b k : only_in m m' a n -> b <= a -> a + n <= b + k -> only_in m m' b k.
Proof. intros [P B] H1 H2. split; [done |]. intros x Hx. apply B. lia. Qed.

Lemma only_in_present m m' a n b k : only_in m m' a n -> present m b k -> present m' b k.
Proof. intros [P _]. by apply present_pages. Qed.

Lemma bytes_at_only_in m m' a n b l :
  only_in m m' a n -> bytes_at m b l -> b + Z.of_nat (length l) <= a \/ a + n <= b -> bytes_at m' b l.
Proof.
  intros [P B] H Hd i c Hi. assert (Hl := lookup_lt_Some _ _ _ Hi). destruct (H _ _ Hi) as [H1 H2]. split.
  - unfold page_present. by rewrite P.
  - rewrite B; [done | lia].
Qed.

Lemma bytes_at_app m a l1 l2 :
  bytes_at m a (l1 ++ l2) <-> bytes_at m a l1 /\ bytes_at m (a + Z.of_nat (length l1)) l2.
Proof.
  revert a. induction l1 as [|b l1 IH]; intros a; cbn [app length].
  - rewrite Z.add_0_r. split; [intros H; split; [| done] | tauto]. intros i c Hi. by rewrite lookup_nil in Hi.
  - rewrite !bytes_at_cons, IH. replace (a + 1 + Z.of_nat (length l1)) with (a + Z.of_nat (S (length l1))) by lia.
    tauto.
Qed.

Lemma bytes_at_nil m a : bytes_at m a [].
Proof. intros i c Hi. by rewrite lookup_nil in Hi. Qed.

Lemma bytes_at_one m a b : bytes_at m a [b] <-> page_present m a = true /\ byte_at m a = b.
Proof. rewrite bytes_at_cons. split; [tauto |]. intros H. split; [done | apply bytes_at_nil]. Qed.

(** ** Lemmas: itoa *)

Lemma itoa_digits_ok fuel base v ptr m :
  2 <= base <= 36 -> 0 <= v < base ^ Z.of_nat fuel -> (0 < fuel)%nat -> present m ptr (Z.of_nat fuel) ->
  let l := digits_rev fuel base v in
  exists m', itoa_digits fuel base v ptr m = Ok (ptr + Z.of_nat (length l), m') /\
    bytes_at m' ptr l /\ only_in m m' ptr (Z.of_nat (length l)).
Proof.
  intros Hb. revert v ptr m. induction fuel as [|fuel IH]; intros v ptr m Hv Hf P l; [lia |].
  rewrite Nat2Z.inj_succ, Z.pow_succ_r in Hv by lia.
  assert (Hm := Z.mod_pos_bound v base ltac:(lia)). cbn [itoa_digits].
  assert (P0 := present_first _ _ _ P ltac:(lia)).
  rewrite (digit_lookup (v mod base)) by lia. cbn [from_option id].
  rewrite (bind_ok _ _ _ _ _ (store8_ok _ _ _ P0)).
  set (c := digit_char (v mod base)). set (m1 := set_byte ptr c m).
  destruct (digit_char_ok (v mod base) ltac:(lia)) as (_ & _ & Hc & _). fold c in Hc.
  assert (B1 : byte_at m1 ptr = c) by (unfold m1; rewrite byte_at_set_same; apply u8_small; lia).
  unfold l. cbn [digits_rev]. fold c. destruct (Z.eqb_spec (v / base) 0) as [E|E].
  - exists m1. split; [done |]. split; [by apply bytes_at_one |]. apply only_in_byte. simpl. lia.
  - destruct (IH (v / base) (ptr + 1) m1) as (m' & Run & Bt & O).
    + split; [apply Z.div_pos; lia | apply Z.div_lt_upper_bound; lia].
    + destruct fuel; [| lia]. simpl in Hv. change (base ^ 0) with 1 in Hv. exfalso. apply E.
      apply Z.div_small. lia.
    + eapply present_pages; [done |]. eapply present_sub; [exact P | lia | lia].
    + exists m'. rewrite Run. cbn [length]. split; [do 2 f_equal; lia |]. split.
      * apply bytes_at_cons. split; [| done]. split.
        -- unfold page_present. by rewrite (oi_pages _ _ _ _ O).
        -- rewrite (oi_bytes _ _ _ _ O) by lia. done.
      * apply (only_in_trans _ m1); [apply only_in_byte; lia |].
        eapply only_in_sub; [exact O | lia | lia].
Qed.

(** A list is empty, has one element, or has a first and a last one. *)
Lemma two_ends (l : list Z) : l = [] \/ (exists x, l = [x]) \/ exists x l' y, l = x :: l' ++ [y].
Proof.
  destruct l as [|x l]; [by left |]. right. destruct l as [|z l] using rev_ind; [left; eauto |]. right. eauto.
Qed.

Lemma reverse_loop_ok fuel low l m :
  bytes_at m low l -> (length l < 2 * fuel)%nat ->
  exists m', reverse_loop fuel low (low + Z.of_nat (length l) - 1) m = Ok (tt, m') /\
    bytes_at m' low (rev l) /\ only_in m m' low (Z.of_nat (length l)).
Proof.
  revert low l m. induction fuel as [|fuel IH]; intros low l m B Hf; [lia |]. cbn [reverse_loop].
  destruct (two_ends l) as [-> | [(x & ->) | (x & l' & y & ->)]].
  - replace (low <? low + Z.of_nat (length []) - 1) with false by (simpl; zbool).
    exists m. split; [done |]. split; [apply bytes_at_nil | done].
  - replace (low <? low + Z.of_nat (length [x]) - 1) with false by (simpl; zbool).
    exists m. split; [done |]. split; [done | done].
  - assert (Len : length (x :: l' ++ [y]) = S (S (length l'))) by (simpl; rewrite length_app; simpl; lia).
    rewrite Len in *. set (hi := low + Z.of_nat (S (S (length l'))) - 1).
    assert (Hhi : hi = low + 1 + Z.of_nat (length l')) by (unfold hi; lia).
    apply bytes_at_cons in B as ((Px & Bx) & (Bl & By)%bytes_at_app). rewrite <- Hhi in By.
    apply bytes_at_one in By as [Py By].
    replace (low <? hi) with true by zbool.
    rewrite (bind_ok _ _ _ _ _ (load8_ok _ _ Px)), (bind_ok _ _ _ _ _ (load8_ok _ _ Py)), Bx, By.
    rewrite (bind_ok _ _ _ _ _ (store8_ok _ _ _ Px)).
    rewrite (bind_ok _ _ _ _ _ (store8_ok _ _ _ (Py : page_present (set_byte low y m) hi = true))).
    set (m1 := set_byte hi x (set_byte low y m)).
    assert (O1 : only_in m m1 low (Z.of_nat (S (S (length l'))))).
    { apply (only_in_trans _ (set_byte low y m)); apply only_in_byte; lia. }
    assert (Bx1 : byte_at m1 hi = x) by (unfold m1; rewrite byte_at_set_same, <- Bx; apply u8_small, byte_at_range).
    assert (By1 : byte_at m1 low = y).
    { unfold m1. rewrite byte_at_set_other, byte_at_set_same, <- By by lia. apply u8_small, byte_at_range. }
    assert (Bl1 : bytes_at m1 (low + 1) l').
    { intros i c Hi. assert (Hl := lookup_lt_Some _ _ _ Hi). destruct (Bl i c Hi) as [H1 H2]. split; [done |].
      unfold m1. rewrite !byte_at_set_other by lia. done. }
    destruct (IH (low + 1) l' m1 Bl1 ltac:(lia)) as (m' & Run & Br & O).
    replace (hi - 1) with (low + 1 + Z.of_nat (length l') - 1) by lia.
    exists m'. split; [done |]. split.
    + simpl. rewrite rev_app_distr. simpl. apply bytes_at_cons. split.
      * split; [unfold page_present; by rewrite (oi_pages _ _ _ _ O) |].
        rewrite (oi_bytes _ _ _ _ O) by lia. done.
      * apply bytes_at_app. split; [done |]. rewrite length_rev, <- Hhi. apply bytes_at_one.
        split; [unfold page_present; by rewrite (oi_pages _ _ _ _ O) |].
        rewrite (oi_bytes _ _ _ _ O) by lia. done.
    + eapply only_in_trans; [exact O1 |]. eapply only_in_sub; [exact O | lia | lia].
Qed.

Lemma is_numeral_cstring base l : base <= 36 -> is_numeral base l -> Forall (fun b => 0 < b < 256) l.
Proof.
  intros Hb F. eapply Forall_impl; [exact F |]. intros c (d & Hd & ->).
  destruct (digit_char_ok d ltac:(lia)) as (_ & _ & ? & _). lia.
Qed.

Lemma itoa_ok m v str base :
  2 <= base <= 36 -> 0 <= v < 2 ^ 32 -> present m str 34 ->
  exists m', itoa v str base m = Ok (str, m') /\ cstring m' str (numeral base v) /\ only_in m m' str 34.
Proof.
  intros Hb Hv P. unfold itoa. replace ((base <? 2) || (36 <? base)) with false by zbool.
  set (l := digits_rev 33 base v). assert (Ll : (length l <= 33)%nat) by apply digits_rev_length.
  assert (Hv' : 0 <= v < base ^ Z.of_nat 33).
  { assert (2 ^ 33 <= base ^ 33) by (apply Z.pow_le_mono_l; lia). simpl. lia. }
  destruct (itoa_digits_ok 33 base v str m Hb Hv' ltac:(lia)) as (m1 & R1 & B1 & O1).
  { eapply present_sub; [exact P | lia | lia]. }
  fold l in R1, B1, O1. rewrite (bind_ok _ _ _ _ _ R1).
  set (e := str + Z.of_nat (length l)) in *.
  assert (P1 : page_present m1 e = true).
  { unfold page_present. rewrite (oi_pages _ _ _ _ O1). apply (P (Z.of_nat (length l))). lia. }
  rewrite (bind_ok _ _ _ _ _ (store8_ok _ _ _ P1)). set (m2 := set_byte e 0 m1).
  assert (O2 : only_in m1 m2 e 1) by (apply only_in_byte; lia).
  destruct (reverse_loop_ok 33 str l m2) as (m3 & R3 & B3 & O3).
  { eapply bytes_at_only_in; [exact O2 | exact B1 | unfold e; lia]. }
  { lia. }
  fold e in R3. rewrite (bind_ok _ _ _ _ _ R3). exists m3. split; [done |]. split; [split |].
  - apply bytes_at_app. split; [exact B3 |]. unfold numeral. rewrite length_rev. fold l e.
    apply bytes_at_one. split.
    + unfold page_present. rewrite (oi_pages _ _ _ _ O3). exact P1.
    + rewrite (oi_bytes _ _ _ _ O3) by (unfold e; lia). unfold m2. by rewrite byte_at_set_same.
  - apply (is_numeral_cstring base); [lia |]. apply numeral_is_numeral. lia.
  - eapply only_in_trans; [eapply only_in_sub; [exact O1 | lia | lia] |].
    eapply only_in_trans; [eapply only_in_sub; [exact O2 | unfold e; lia | unfold e; lia] |].
    eapply only_in_sub; [exact O3 | lia | lia].
Qed.

(** ** Lemmas: reading numerals *)

Lemma s32_split z : exists q, s32 z = z + 2 ^ 32 * q.
Proof.
  unfold s32. exists (- ((z + 2 ^ 31) / 2 ^ 32)). pose proof (Z.div_mod (z + 2 ^ 31) (2 ^ 32)). lia.
Qed.

Lemma s32_add z q : s32 (z + 2 ^ 32 * q) = s32 z.
Proof.
  unfold s32. f_equal. replace (z + 2 ^ 32 * q + 2 ^ 31) with (z + 2 ^ 31 + q * 2 ^ 32) by lia.
  apply Z_mod_plus_full.
Qed.

Lemma s32_step n b k : s32 (s32 n * b + k) = s32 (n * b + k).
Proof.
  destruct (s32_split n) as [q ->]. rewrite <- (s32_add (n * b + k) (q * b)). f_equal. lia.
Qed.

Lemma s32_s32 n : s32 (s32 n) = s32 n.
Proof. destruct (s32_split n) as [q E]. rewrite E at 1. apply s32_add. Qed.

Lemma load_char_ok m a : page_present m a = true -> load_char a m = Ok (s8 (byte_at m a), m).
Proof. intros P. unfold load_char. by rewrite (bind_ok _ _ _ _ _ (load8_ok _ _ P)). Qed.

(** The first character of a numeral, and the others. *)
Lemma numeral_cons m a c l base :
  base <= 36 -> is_numeral base (c :: l) -> cstring m a (c :: l) ->
  exists d, 0 <= d < base /\ c = digit_char d /\ load_char a m = Ok (c, m) /\
    is_numeral base l /\ cstring m (a + 1) l.
Proof.
  intros Hb ((d & Hd & ->) & F)%Forall_cons ((P & B) & _ & C)%cstring_cons.
  destruct (digit_char_ok d ltac:(lia)) as (_ & _ & _ & S8 & _).
  exists d. rewrite load_char_ok, B, S8 by done. done.
Qed.

Lemma load_char_end m a : cstring m a [] -> load_char a m = Ok (0, m).
Proof. intros [P B]%cstring_nil. rewrite load_char_ok, B by done. done. Qed.

Lemma atoi_digits_ok fuel base db l m a n :
  db <= 36 -> is_numeral db l -> cstring m a l -> (length l < fuel)%nat ->
  atoi_digits fuel base a (s32 n) m = Ok (s32 (foldl (fun n c => n * base + digit_value c) n l), m).
Proof.
  intros Hb. revert l a n. induction fuel as [|fuel IH]; intros [|c l] a n F C Hf; simpl in Hf; try lia.
  - cbn [atoi_digits]. by rewrite (bind_ok _ _ _ _ _ (load_char_end _ _ C)).
  - destruct (numeral_cons _ _ _ _ _ Hb F C) as (d & Hd & -> & L & F' & C').
    destruct (digit_char_ok d ltac:(lia)) as (_ & _ & Hr & _).
    cbn [atoi_digits]. rewrite (bind_ok _ _ _ _ _ L).
    replace (digit_char d =? 0) with false by zbool. replace (digit_char d =? 32) with false by zbool.
    fold (digit_value (digit_char d)). rewrite s32_step. simpl. apply IH; [done | done | lia].
Qed.

Lemma strtol_digits_ok fuel base l m a n :
  base <= 36 -> is_numeral base l -> cstring m a l -> (length l < fuel)%nat ->
  strtol_digits fuel base a (s32 n) m =
  Ok ((s32 (foldl (fun n c => n * base + digit_value c) n l), a + Z.of_nat (length l)), m).
Proof.
  intros Hb. revert l a n. induction fuel as [|fuel IH]; intros [|c l] a n F C Hf; simpl in Hf; try lia.
  - cbn [strtol_digits]. rewrite (bind_ok _ _ _ _ _ (load_char_end _ _ C)). simpl. by rewrite Z.add_0_r.
  - destruct (numeral_cons _ _ _ _ _ Hb F C) as (d & Hd & -> & L & F' & C').
    destruct (digit_char_ok d ltac:(lia)) as (An & Dv & Hr & _ & Al).
    cbn [strtol_digits]. rewrite (bind_ok _ _ _ _ _ L), An.
    assert (Step : forall k, k = d -> strtol_digits fuel base (a + 1) (s32 (s32 n * base + k)) m =
       Ok ((s32 (foldl (fun n c => n * base + digit_value c) n (digit_char d :: l)),
            a + Z.of_nat (length (digit_char d :: l))), m)).
    { intros k ->. rewrite s32_step, (IH l) by (done || lia). cbn [foldl length]. rewrite Dv. do 3 f_equal. lia. }
    unfold digit_value in Dv. destruct (is_alpha (digit_char d)).
    + rewrite Dv. replace (base <? d) with false by zbool. by apply Step.
    + by apply Step.
Qed.

(** The first digit of a numeral is not zero, but for the number zero. *)
Lemma digits_rev_last fuel base v :
  2 <= base <= 36 -> 0 < v < base ^ Z.of_nat fuel ->
  exists l d, digits_rev fuel base v = l ++ [digit_char d] /\ 0 < d < base.
Proof.
  intros Hb. revert v. induction fuel as [|fuel IH]; intros v Hv.
  { simpl in Hv. change (base ^ 0) with 1 in Hv. lia. }
  rewrite Nat2Z.inj_succ, Z.pow_succ_r in Hv by lia. cbn [digits_rev].
  assert (Hm := Z.mod_pos_bound v base ltac:(lia)). assert (Hdiv := Z.div_mod v base ltac:(lia)).
  destruct (Z.eqb_spec (v / base) 0) as [E|E].
  - exists [], (v mod base). split; [done | lia].
  - destruct (IH (v / base)) as (l & d & El & Hd).
    { split; [pose proof (Z.div_pos v base); lia | apply Z.div_lt_upper_bound; lia]. }
    exists (digit_char (v mod base) :: l), d. by rewrite El.
Qed.

Lemma numeral_head base v :
  2 <= base <= 36 -> 0 < v < 2 ^ 32 ->
  exists d l, numeral base v = digit_char d :: l /\ 0 < d < base.
Proof.
  intros Hb Hv. destruct (digits_rev_last 33 base v Hb) as (l & d & E & Hd).
  { assert (2 ^ 33 <= base ^ 33) by (apply Z.pow_le_mono_l; lia). simpl. lia. }
  exists d, (rev l). split; [| done]. unfold numeral. by rewrite E, rev_app_distr.
Qed.

Lemma numeral_zero base : 2 <= base <= 36 -> numeral base 0 = [48].
Proof. intros Hb. unfold numeral. cbn [digits_rev]. by rewrite Z.mod_0_l, Z.div_0_l by lia. Qed.

Lemma numeral_length base v : (length (numeral base v) <= 33)%nat.
Proof. unfold numeral. rewrite length_rev. apply digits_rev_length. Qed.

Lemma atoi_numeral m a v fuel :
  0 <= v < 2 ^ 32 -> cstring m a (numeral 10 v) -> (33 < fuel)%nat -> atoi fuel a m = Ok (s32 v, m).
Proof.
  intros Hv C Hf. unfold atoi. destruct (decide (v = 0)) as [->|Hn].
  - rewrite numeral_zero in C by lia. apply cstring_cons in C as ((P & B) & _ & C).
    assert (L : load_char a m = Ok (48, m)) by (rewrite load_char_ok, B; done).
    destruct fuel as [|fuel]; [lia |].
    assert (Sk : skip_spaces (S fuel) a m = Ok (a, m)) by (cbn [skip_spaces]; by rewrite (bind_ok _ _ _ _ _ L)).
    rewrite (bind_ok _ _ _ _ _ Sk), (bind_ok _ _ _ _ _ L). simpl.
    rewrite (bind_ok _ _ _ _ _ (load_char_end _ _ C)). simpl.
    by rewrite (bind_ok _ _ _ _ _ (load_char_end _ _ C)).
  - destruct (numeral_head 10 v ltac:(lia) ltac:(lia)) as (d & l & E & Hd).
    assert (F := numeral_is_numeral 10 v ltac:(lia)). assert (V := numeral_value_ok 10 v ltac:(lia) Hv).
    assert (Len := numeral_length 10 v). rewrite E in C, F, V, Len.
    destruct (numeral_cons _ _ _ _ 10 ltac:(lia) F C) as (d' & _ & _ & L & _ & _).
    destruct (digit_char_ok d ltac:(lia)) as (_ & _ & Hr & _).
    assert (H48 : digit_char d <> 48) by (unfold digit_char; destruct (d <? 10); lia).
    destruct fuel as [|fuel]; [lia |].
    assert (Sk : skip_spaces (S fuel) a m = Ok (a, m)).
    { cbn [skip_spaces]. rewrite (bind_ok _ _ _ _ _ L). by replace (digit_char d =? 32) with false by zbool. }
    rewrite (bind_ok _ _ _ _ _ Sk), (bind_ok _ _ _ _ _ L). replace (digit_char d =? 48) with false by zbool.
    change 0 with (s32 0) at 1. rewrite (atoi_digits_ok _ 10 10 (digit_char d :: l)); [| lia | done | done | simpl in *; lia].
    unfold numeral_value in V. by rewrite V.
Qed.

Lemma strtol_numeral m a v base fuel :
  2 <= base <= 36 -> 0 <= v < 2 ^ 32 -> cstring m a (numeral base v) -> (33 < fuel)%nat ->
  strtol fuel a base m = Ok ((s32 v, a + Z.of_nat (length (numeral base v))), m).
Proof.
  intros Hb Hv C Hf. unfold strtol. replace ((base <? 2) || (36 <? base)) with false by zbool.
  assert (F := numeral_is_numeral base v ltac:(lia)). assert (V := numeral_value_ok base v Hb Hv).
  assert (Len := numeral_length base v).
  assert (exists c l, numeral base v = c :: l) as (c & l & E).
  { destruct (decide (v = 0)) as [->|]; [rewrite numeral_zero by done; eauto |].
    destruct (numeral_head base v Hb ltac:(lia)) as (d & l & E & _). eauto. }
  rewrite E in *. destruct (numeral_cons _ _ _ _ _ (proj2 Hb) F C) as (d & Hd & Ec & L & _ & _).
  destruct (digit_char_ok d ltac:(lia)) as (_ & _ & Hr & _). rewrite <- Ec in Hr.
  destruct fuel as [|fuel]; [lia |].
  assert (Sk : skip_blanks (S fuel) a m = Ok (a, m)).
  { cbn [skip_blanks]. rewrite (bind_ok _ _ _ _ _ L).
    replace (c =? 32) with false by zbool. by replace (c =? 9) with false by zbool. }
  rewrite (bind_ok _ _ _ _ _ Sk), (bind_ok _ _ _ _ _ L).
  replace (c =? 45) with false by zbool. replace (c =? 43) with false by zbool.
  assert (Dg := strtol_digits_ok (S fuel) base (c :: l) m a 0 (proj2 Hb) F C ltac:(simpl in *; lia)).
  change (s32 0) with 0 in Dg. rewrite (bind_ok _ _ _ _ _ Dg).
  unfold numeral_value in V. rewrite V, ret_ok. do 3 f_equal. rewrite Z.mul_1_l. apply s32_s32.
Qed.

(** The hexadecimal prefix is not skipped: reading stops at the x. *)
(** strtol in base 16 does not skip a "0x" prefix: it returns 0 and
    points at the x. *)
Theorem strtol_hex_prefix m a l fuel :
  cstring m a (48 :: 120 :: l) -> (2 < fuel)%nat -> strtol fuel a 16 m = Ok ((0, a + 1), m).
Proof.
  intros ((P0 & B0) & _ & ((P1 & B1) & _ & _)%cstring_cons)%cstring_cons Hf.
  assert (L0 : load_char a m = Ok (48, m)) by (rewrite load_char_ok, B0; done).
  assert (L1 : load_char (a + 1) m = Ok (120, m)) by (rewrite load_char_ok, B1; done).
  destruct fuel as [|[|fuel]]; [lia | lia |]. unfold strtol. simpl.
  assert (Sk : skip_blanks (S (S fuel)) a m = Ok (a, m)) by (cbn [skip_blanks]; by rewrite (bind_ok _ _ _ _ _ L0)).
  rewrite (bind_ok _ _ _ _ _ Sk), (bind_ok _ _ _ _ _ L0). simpl.
  assert (Dg : strtol_digits (S (S fuel)) 16 a 0 m = Ok ((0, a + 1), m)).
  { cbn [strtol_digits]. rewrite (bind_ok _ _ _ _ _ L0). simpl. by rewrite (bind_ok _ _ _ _ _ L1). }
  by rewrite (bind_ok _ _ _ _ _ Dg).
Qed.

(** ** Round trips *)

(** C30: the text that itoa writes for a 32-bit number, in any base, is read
    back by strtol in that base as the same (signed) number, up to its end, and
    by atoi for base 10; itoa writes at most 34 bytes. *)
Theorem itoa_roundtrip m v str base fuel :
  2 <= base <= 36 -> 0 <= v < 2 ^ 32 -> present m str 34 -> (33 < fuel)%nat ->
  exists m', itoa v str base m = Ok (str, m') /\ only_in m m' str 34 /\
    strtol fuel str base m' = Ok ((s32 v, str + Z.of_nat (length (numeral base v))), m') /\
    (base = 10 -> atoi fuel str m' = Ok (s32 v, m')).
Proof.
  intros Hb Hv P Hf. destruct (itoa_ok m v str base Hb Hv P) as (m' & Run & C & O).
  exists m'. split_and!; [done | done | by apply strtol_numeral |].
  intros ->. by apply atoi_numeral.
Qed.

Lemma itoa_roundtrip_witness :
  exists m', itoa 48879 64 16 two_strings = Ok (64, m') /\ only_in two_strings m' 64 34 /\
    strtol 34 64 16 m' = Ok ((s32 48879, 64 + Z.of_nat (length (numeral 16 48879))), m') /\
    (16 = 10 -> atoi 34 64 m' = Ok (s32 48879, m')).
Proof.
  apply itoa_roundtrip; [lia | lia | apply (present_b_ok _ 34); vm_compute; reflexivity | lia].
Defined.

Lemma strtol_hex_prefix_witness :
  strtol 10 64 16 (put_bytes 64 [48; 120; 49; 0] two_strings) =
  Ok ((0, 64 + 1), put_bytes 64 [48; 120; 49; 0] two_strings).
Proof.
  apply (strtol_hex_prefix _ _ [49]); [apply cstring_b_ok; vm_compute; reflexivity | lia].
Defined.
