(* ===== verification/Vsprintf.v ===== *)
(** vsprintf.c: number conversion and formatted output, on raw memory.

    The argument list is a pointer into the stack, read as stdarg.h does; [tmp]
    is the address of the local array of vsprintf. *)

From S2P Require Import Prelude Memory CString Utils.

(** ** Flags *)

Definition LEFT : Z := Z.shiftl 1 0.
Definition PLUS : Z := Z.shiftl 1 1.
Definition SIGNED : Z := Z.shiftl 1 2.
Definition SPACE : Z := Z.shiftl 1 3.
Definition PREFIX : Z := Z.shiftl 1 4.
Definition ZEROS : Z := Z.shiftl 1 5.
Definition LARGE : Z := Z.shiftl 1 6.

Definition has (flags f : Z) : bool := negb (Z.land flags f =? 0).

Definition digits_upper : list Z := chars "0123456789ABCDEFGHIJKLMNOPQRSTUVWXYZ".

(** ** number *)

(** [while (width-- > 0) *str++ = c;]: the new pointer. *)
Fixpoint fill (n : nat) (c str : Z) : M mem Z :=
  match n with
  | O => mret str
  | S n => store8 str c;; fill n c (str + 1)
  end.

(** ... and what the loop leaves in [width]. *)
Definition after_loop (width : Z) : Z := Z.min width 0 - 1.

(** The digits of [num], the last one first: the content of [buffer]. *)
Fixpoint number_digits (fuel : nat) (digits : list Z) (base num : Z) : list Z :=
  match fuel with
  | O => []
  | S fuel =>
      if num =? 0 then []
      else default 0 (digits !! Z.to_nat (num mod base)) :: number_digits fuel digits base (num / base)
  end.

(** [while (i-- > 0) *str++ = buffer[i];] *)
Fixpoint write_list (l : list Z) (str : Z) : M mem Z :=
  match l with
  | [] => mret str
  | c :: l => store8 str c;; write_list l (str + 1)
  end.

(** "if there is a sign, write it" *)
Definition write_sign (sign str : Z) : M mem Z :=
  if negb (sign =? 0) then store8 str sign;; mret (str + 1) else mret str.

(** "if there is a prefix, write it" *)
Definition write_prefix (flags base str : Z) : M mem Z :=
  if has flags PREFIX then
    if base =? 8 then store8 str 48;; mret (str + 1)
    else if base =? 16 then
      store8 str 48;; store8 (str + 1) (if has flags LARGE then 88 else 120);; mret (str + 2)
    else mret str
  else mret str.

Definition number (str num base width precision flags : Z) : M mem Z :=
  let flags := if has flags LEFT then Z.land flags (Z.lnot ZEROS) else flags in
  if (base <? 2) || (36 <? base) then mret 0
  else
    let pad := if has flags ZEROS then 48 else 32 in
    let '(num, sign, width) :=
      if has flags SIGNED then
        if s32 num <? 0 then (u32 (- num), 45, width - 1)
        else if has flags PLUS then (num, 43, width - 1)
        else if has flags SPACE then (num, 32, width - 1)
        else (num, 0, width)
      else (num, 0, width) in
    let width :=
      if has flags PREFIX then
        if base =? 16 then width - 2 else if base =? 8 then width - 1 else width
      else width in
    let buffer :=
      if num =? 0 then [48]
      else number_digits 32 (if has flags LARGE then digits_upper else digits_lower) base num in
    let i := Z.of_nat (length buffer) in
    let precision := if precision <? i then i else precision in
    let width := width - precision in
    let str0 := str in
    '(str, width) ←
      (if negb (has flags (Z.lor ZEROS LEFT)) then
         str ← fill (Z.to_nat width) 32 str; mret (str, after_loop width)
       else mret (str, width));
    str ← write_sign sign str;
    str ← write_prefix flags base str;
    '(str, width) ←
      (if negb (has flags LEFT) then
         str ← fill (Z.to_nat width) pad str; mret (str, after_loop width)
       else mret (str, width));
    str ← fill (Z.to_nat (precision - i)) 48 str;
    str ← write_list (rev buffer) str;
    str ← fill (Z.to_nat width) 32 str;
    mret (u32 (str - str0 - 1)).

(** ** vsprintf *)

(** [va_arg(args, int)]: the next word of the stack. *)
Definition va_arg (args : Z) : M mem (Z * Z) := w ← load32 args; mret (w, args + 4).

(** The loop over the flags; returns the index before the first other character. *)
Fixpoint parse_flags (fuel : nat) (fmt i flags : Z) : M mem (Z * Z) :=
  match fuel with
  | O => throw Hang
  | S fuel =>
      c ← load_char (fmt + (i + 1));
      if c =? 35 then parse_flags fuel fmt (i + 1) (Z.lor flags PREFIX)
      else if c =? 48 then
        parse_flags fuel fmt (i + 1) (if negb (has flags LEFT) then Z.lor flags ZEROS else flags)
      else if c =? 45 then
        parse_flags fuel fmt (i + 1) (Z.lor (Z.land flags (Z.lnot ZEROS)) LEFT)
      else if c =? 43 then parse_flags fuel fmt (i + 1) (Z.lor flags PLUS)
      else if c =? 32 then
        parse_flags fuel fmt (i + 1) (Z.lor (Z.land flags (Z.lnot PLUS)) SPACE)
      else mret (i, flags)
  end.

(** [for (k = 0; is_digit(fmt[i+1]); ++k) tmp[k] = fmt[++i];] *)
Fixpoint copy_digits (fuel : nat) (fmt tmp i k : Z) : M mem (Z * Z) :=
  match fuel with
  | O => throw Hang
  | S fuel =>
      c ← load_char (fmt + (i + 1));
      if is_digit c then
        store8 (tmp + k) c;; copy_digits fuel fmt tmp (i + 1) (k + 1)
      else mret (i, k)
  end.

(** A number in the format string. *)
Definition parse_number (fuel : nat) (fmt tmp i : Z) : M mem (Z * Z) :=
  '(i, k) ← copy_digits fuel fmt tmp i 0;
  store8 (tmp + k) 0;;
  v ← atoi fuel tmp;
  mret (i, v).

(** The field width: index, width, flags, arguments. *)
Definition parse_width (fuel : nat) (fmt tmp i flags args : Z) : M mem (Z * Z * Z * Z) :=
  c ← load_char (fmt + (i + 1));
  if is_digit c then
    '(i, w) ← parse_number fuel fmt tmp i; mret (i, w, flags, args)
  else if c =? 42 then
    '(w, args) ← va_arg args;
    let w := s32 w in
    if w <? 0 then mret (i + 1, s32 (- w), Z.lor flags LEFT, args) else mret (i + 1, w, flags, args)
  else mret (i, -1, flags, args).

(** The precision: index, precision, arguments. *)
Definition parse_precision (fuel : nat) (fmt tmp i args : Z) : M mem (Z * Z * Z) :=
  c ← load_char (fmt + (i + 1));
  if c =? 46 then
    let i := i + 1 in
    c ← load_char (fmt + (i + 1));
    '(i, p, args) ←
      (if is_digit c then '(i, p) ← parse_number fuel fmt tmp i; mret (i, p, args)
       else if c =? 42 then '(p, args) ← va_arg args; mret (i + 1, s32 p, args)
       else mret (i, -1, args));
    mret (i, (if p <? 0 then 0 else p), args)
  else mret (i, -1, args).

(** The conversion: the new [i], [loc] and arguments. *)
Definition convert (fuel : nat) (buf fmt tmp i loc args width precision flags : Z) : M mem (Z * Z * Z) :=
  c ← load_char (fmt + (i + 1));
  let num base flags :=
    '(val, args) ← va_arg args;
    r ← number (buf + loc) val base width precision flags;
    mret (i + 1, u32 (loc + r), args) in
  if c =? 99 then
    b ← load8 args;
    store8 (buf + loc) b;;
    mret (i + 1, loc, args + 4)
  else if c =? 115 then
    '(val, args) ← va_arg args;
    strncpy tmp val 1024;;
    strncpy (buf + loc) tmp 1024;;
    n ← strlen fuel tmp;
    mret (i + 1, u32 (loc + n - 2), args)
  else if (c =? 100) || (c =? 105) then num 10 (Z.lor flags SIGNED)
  else if c =? 117 then num 10 flags
  else if c =? 111 then num 8 flags
  else if c =? 88 then num 16 (Z.lor flags LARGE)
  else if c =? 120 then num 16 flags
  else if c =? 98 then num 2 flags
  else mret (i, loc, args).

(** One iteration: the character at [i]. *)
Definition format_step (fuel : nat) (buf fmt tmp i loc args : Z) : M mem (Z * Z * Z) :=
  c ← load_char (fmt + i);
  if c =? 37 then
    '(i, flags) ← parse_flags fuel fmt i 0;
    '(i, width, flags, args) ← parse_width fuel fmt tmp i flags args;
    '(i, precision, args) ← parse_precision fuel fmt tmp i args;
    convert fuel buf fmt tmp i loc args width precision flags
  else
    store8 (buf + loc) c;; mret (i, loc, args).

(** [for (i = 0; i <= strlen(fmt); ++i, ++loc)] *)
Fixpoint format_loop (fuel : nat) (buf fmt tmp i loc args : Z) : M mem Z :=
  match fuel with
  | O => throw Hang
  | S fuel =>
      n ← strlen fuel fmt;
      if i <=? n then
        '(i, loc, args) ← format_step fuel buf fmt tmp i loc args;
        format_loop fuel buf fmt tmp (i + 1) (u32 (loc + 1)) args
      else mret i
  end.

Definition vsprintf (fuel : nat) (buf fmt tmp args : Z) : M mem Z :=
  if (buf =? 0) || (fmt =? 0) then mret 0
  else
    stosb 1024 tmp 0;;
    format_loop fuel buf fmt tmp 0 0 args.

(** ** What number writes *)

Definition number_text (num base width precision flags : Z) : list Z :=
  let flags := if has flags LEFT then Z.land flags (Z.lnot ZEROS) else flags in
  let negative := has flags SIGNED && (s32 num <? 0) in
  let sign :=
    if has flags SIGNED then
      if s32 num <? 0 then [45] else if has flags PLUS then [43] else if has flags SPACE then [32] else []
    else [] in
  let prefix :=
    if has flags PREFIX then
      if base =? 8 then [48]
      else if base =? 16 then [48; if has flags LARGE then 88 else 120] else []
    else [] in
  let n := if negative then u32 (- num) else num in
  let ds := if n =? 0 then [48]
            else number_digits 32 (if has flags LARGE then digits_upper else digits_lower) base n in
  let zeros := Z.to_nat (precision - Z.of_nat (length ds)) in
  let body := prefix ++ replicate zeros 48 ++ rev ds in
  let room := Z.to_nat (width - Z.of_nat (length sign) - Z.of_nat (length body)) in
  if has flags LEFT then sign ++ body ++ replicate room 32
  else if has flags ZEROS then sign ++ prefix ++ replicate (room + zeros) 48 ++ rev ds
  else replicate room 32 ++ sign ++ body.

(** [c] writes the characters [l] at [str] and returns the pointer behind them. *)
Definition emits (c : Z -> M mem Z) (l : list Z) : Prop :=
  forall str m, present m str (Z.of_nat (length l)) ->
    exists m', c str m = Ok (str + Z.of_nat (length l), m') /\ bytes_at m' str l /\
      only_in m m' str (Z.of_nat (length l)).

Section emitting.
Implicit Types (c f : Z -> M mem Z) (l : list Z).

Lemma emits_nil : emits (fun str => mret str) [].
Proof. intros str m _. exists m. split; [by rewrite Z.add_0_r |]. split; [apply bytes_at_nil | done]. Qed.

Lemma emits_app c f l1 l2 : emits c l1 -> emits f l2 -> emits (fun str => str ← c str; f str) (l1 ++ l2).
Proof.
  intros E1 E2 str m P. rewrite length_app in *.
  destruct (E1 str m) as (m1 & R1 & B1 & O1); [eapply present_sub; [exact P | lia | lia] |].
  destruct (E2 (str + Z.of_nat (length l1)) m1) as (m2 & R2 & B2 & O2).
  { eapply only_in_present; [exact O1 |]. eapply present_sub; [exact P | lia | lia]. }
  exists m2. rewrite (bind_ok _ _ _ _ _ R1), R2. split; [do 2 f_equal; lia |]. split.
  - apply bytes_at_app. split; [| done]. eapply bytes_at_only_in; [exact O2 | done | lia].
  - eapply only_in_trans; [eapply only_in_sub; [exact O1 | lia | lia] |].
    eapply only_in_sub; [exact O2 | lia | lia].
Qed.

Lemma emits_one x : 0 <= x < 256 -> emits (fun str => store8 str x;; mret (str + 1)) [x].
Proof.
  intros Hx str m P. assert (P0 := present_first _ _ _ P ltac:(simpl; lia)).
  exists (set_byte str x m). rewrite (bind_ok _ _ _ _ _ (store8_ok _ _ _ P0)). split; [done |]. split.
  - apply bytes_at_one. split; [done |]. rewrite byte_at_set_same. by apply u8_small.
  - apply only_in_byte. simpl. lia.
Qed.

Lemma emits_ext c f l : (forall str m, c str m = f str m) -> emits c l -> emits f l.
Proof. intros E H str m P. destruct (H str m P) as (m' & R & ?). exists m'. by rewrite <- E. Qed.

Lemma emits_cons x c l : 0 <= x < 256 -> emits c l -> emits (fun str => store8 str x;; c (str + 1)) (x :: l).
Proof.
  intros Hx H. eapply emits_ext; [| apply (emits_app _ _ [x] l (emits_one x Hx) H)]. intros str m. simpl.
  unfold mbind, M_bind. by destruct (store8 str x m) as [[[] m1]|].
Qed.

Lemma emits_fill n x : 0 <= x < 256 -> emits (fill n x) (replicate n x).
Proof.
  intros Hx. induction n as [|n IH]; [apply emits_nil |]. exact (emits_cons x (fill n x) _ Hx IH).
Qed.

Lemma emits_list l : Forall (fun x => 0 <= x < 256) l -> emits (write_list l) l.
Proof.
  induction 1 as [|x l Hx _ IH]; [apply emits_nil |]. exact (emits_cons x (write_list l) _ Hx IH).
Qed.

Lemma emits_eq c l l' : l = l' -> emits c l -> emits c l'.
Proof. by intros ->. Qed.
End emitting.

(** Every character of the two digit strings is a byte. *)
Lemma digits_bytes : Forall (fun x => 0 <= x < 256) digits_lower /\ Forall (fun x => 0 <= x < 256) digits_upper.
Proof. split; vm_compute; repeat constructor; done. Qed.

Lemma number_digits_bytes fuel digits base num :
  Forall (fun x => 0 <= x < 256) digits -> Forall (fun x => 0 <= x < 256) (number_digits fuel digits base num).
Proof.
  intros F. revert num. induction fuel as [|fuel IH]; intros num; simpl; [constructor |].
  destruct (num =? 0); constructor; [| apply IH].
  destruct (digits !! _) eqn:E; simpl; [by eapply Forall_lookup_1 in F; eauto | lia].
Qed.

(** ** number writes its text *)

Definition sign_text (sign : Z) : list Z := if negb (sign =? 0) then [sign] else [].

Definition prefix_text (flags base : Z) : list Z :=
  if has flags PREFIX then
    if base =? 8 then [48]
    else if base =? 16 then [48; if has flags LARGE then 88 else 120] else []
  else [].

Lemma emits_sign sign : 0 <= sign < 256 -> emits (write_sign sign) (sign_text sign).
Proof.
  intros Hs. unfold write_sign, sign_text. destruct (negb (sign =? 0)); [by apply emits_one | apply emits_nil].
Qed.

Lemma emits_prefix flags base : emits (write_prefix flags base) (prefix_text flags base).
Proof.
  unfold write_prefix, prefix_text. destruct (has flags PREFIX); [| apply emits_nil].
  destruct (base =? 8); [by apply emits_one |]. destruct (base =? 16); [| apply emits_nil].
  set (x := if has flags LARGE then 88 else 120).
  assert (Hx : 0 <= x < 256) by (unfold x; destruct (has flags LARGE); lia).
  eapply emits_ext; [| apply (emits_cons 48 _ [x] ltac:(lia) (emits_one x Hx))]. intros str m. simpl.
  unfold mbind, M_bind. destruct (store8 str 48 m) as [[[] m1]|]; [| done].
  destruct (store8 (str + 1) x m1) as [[[] m2]|]; [| done]. by rewrite <- Z.add_assoc.
Qed.

(** The writing part of number, for given texts and paddings. *)
Lemma number_writes sign flags base ds w1 w2 w3 z str m :
  0 <= sign < 256 -> Forall (fun x => 0 <= x < 256) ds ->
  let pad := if has flags ZEROS then 48 else 32 in
  let text := replicate w1 32 ++ sign_text sign ++ prefix_text flags base ++ replicate w2 pad ++
              replicate z 48 ++ ds ++ replicate w3 32 in
  present m str (Z.of_nat (length text)) ->
  exists m',
    (s ← fill w1 32 str; s ← write_sign sign s; s ← write_prefix flags base s; s ← fill w2 pad s;
     s ← fill z 48 s; s ← write_list ds s; s ← fill w3 32 s;
     mret (u32 (s - str - 1))) m = Ok (u32 (Z.of_nat (length text) - 1), m') /\
    bytes_at m' str text /\ only_in m m' str (Z.of_nat (length text)).
Proof.
  intros Hs Hd pad text P. assert (Hp : 0 <= pad < 256) by (unfold pad; destruct (has flags ZEROS); lia).
  assert (Em := emits_app _ _ _ _ (emits_fill w1 32 ltac:(lia))
    (emits_app _ _ _ _ (emits_sign sign Hs)
      (emits_app _ _ _ _ (emits_prefix flags base)
        (emits_app _ _ _ _ (emits_fill w2 pad Hp)
          (emits_app _ _ _ _ (emits_fill z 48 ltac:(lia))
            (emits_app _ _ _ _ (emits_list ds Hd) (emits_fill w3 32 ltac:(lia)))))))).
  destruct (Em str m P) as (m' & R & B & O). exists m'. split; [| done].
  revert R. unfold mbind, M_bind. repeat (case_match; try done; simplify_eq).
  intros [= -> ->]. rewrite ret_ok. fold text. do 3 f_equal. lia.
Qed.

Lemma pad_steps {A} (b : bool) (c0 : M mem Z) (c1 c2 : Z -> M mem Z) (c3 : Z -> Z -> M mem Z)
    (str w w0 : Z) (f : Z -> Z) (k : Z -> Z -> M mem A) m :
  (p ← (if b then s ← c0; mret (s, w0) else mret (str, w));
   let '(s, w) := p in
   s ← c1 s; s ← c2 s; p ← (s ← c3 w s; mret (s, f w)); let '(s, w) := p in k s w) m =
  (s ← (if b then c0 else mret str); s ← c1 s; s ← c2 s; s ← c3 (if b then w0 else w) s;
   k s (f (if b then w0 else w))) m.
Proof.
  destruct b; unfold mbind, M_bind, mret, M_ret; [destruct (c0 m) as [[s0 m0]|]; [| done] |].
  - destruct (c1 s0 m0) as [[s1 m1]|]; [| done]. destruct (c2 s1 m1) as [[s2 m2]|]; [| done].
    by destruct (c3 w0 s2 m2) as [[s3 m3]|].
  - destruct (c1 str m) as [[s1 m1]|]; [| done]. destruct (c2 s1 m1) as [[s2 m2]|]; [| done].
    by destruct (c3 w s2 m2) as [[s3 m3]|].
Qed.

Lemma has_lor flags a b : has flags (Z.lor a b) = has flags a || has flags b.
Proof.
  unfold has. rewrite Z.land_lor_distr_r.
  destruct (Z.eqb_spec (Z.lor (Z.land flags a) (Z.land flags b)) 0) as [E|E].
  - apply Z.lor_eq_0_iff in E as [-> ->]. done.
  - destruct (Z.eqb_spec (Z.land flags a) 0) as [E1|E1], (Z.eqb_spec (Z.land flags b) 0) as [E2|E2]; try done.
    exfalso. apply E. by rewrite E1, E2.
Qed.

(** The flags that number works with: LEFT wins over ZEROS. *)
Definition eff_flags (flags : Z) : Z := if has flags LEFT then Z.land flags (Z.lnot ZEROS) else flags.

Lemma eff_flags_left flags : has (eff_flags flags) LEFT = true -> has (eff_flags flags) ZEROS = false.
Proof.
  unfold eff_flags. destruct (has flags LEFT) eqn:E; [| congruence]. intros _. unfold has.
  rewrite <- Z.land_assoc, (Z.land_comm (Z.lnot ZEROS)), Z.land_lnot_diag, Z.land_0_r. done.
Qed.

(** The number without its sign, the sign and the room that is left. *)
Definition split_sign (num width flags : Z) : Z * Z * Z :=
  if has flags SIGNED then
    if s32 num <? 0 then (u32 (- num), 45, width - 1)
    else if has flags PLUS then (num, 43, width - 1)
    else if has flags SPACE then (num, 32, width - 1)
    else (num, 0, width)
  else (num, 0, width).

Definition number_buffer (num base flags : Z) : list Z :=
  if num =? 0 then [48]
  else number_digits 32 (if has flags LARGE then digits_upper else digits_lower) base num.

Lemma number_buffer_bytes num base flags : Forall (fun x => 0 <= x < 256) (number_buffer num base flags).
Proof.
  unfold number_buffer. destruct digits_bytes. destruct (num =? 0); [repeat constructor; lia |].
  apply number_digits_bytes. by destruct (has flags LARGE).
Qed.

Lemma split_sign_text num width flags n sign w :
  split_sign num width flags = (n, sign, w) ->
  n = (if has flags SIGNED && (s32 num <? 0) then u32 (- num) else num) /\
  sign_text sign =
    (if has flags SIGNED then
       if s32 num <? 0 then [45] else if has flags PLUS then [43] else if has flags SPACE then [32] else []
     else []) /\
  w = width - Z.of_nat (length (sign_text sign)) /\ 0 <= sign < 256.
Proof.
  unfold split_sign, sign_text. destruct (has flags SIGNED), (s32 num <? 0), (has flags PLUS), (has flags SPACE);
    intros [= <- <- <-]; simpl; split_and!; try done; lia.
Qed.

Lemma prefix_width base width flags :
  (if has flags PREFIX then if base =? 16 then width - 2 else if base =? 8 then width - 1 else width else width) =
  width - Z.of_nat (length (prefix_text flags base)).
Proof.
  unfold prefix_text. destruct (has flags PREFIX); [| simpl; lia].
  destruct (Z.eqb_spec base 16) as [->|]; [simpl; lia |]. destruct (base =? 8); simpl; lia.
Qed.

Lemma number_run str num base width precision flags m :
  2 <= base <= 36 ->
  let text := number_text num base width precision flags in
  present m str (Z.of_nat (length text)) ->
  exists m', number str num base width precision flags m = Ok (u32 (Z.of_nat (length text) - 1), m') /\
    bytes_at m' str text /\ only_in m m' str (Z.of_nat (length text)).
Proof.
  intros Hb text P. unfold number. fold (eff_flags flags).
  replace ((base <? 2) || (36 <? base)) with false by zbool.
  subst text. unfold number_text in *. fold (eff_flags flags) in *.
  assert (HLZ := eff_flags_left flags). set (fl := eff_flags flags) in *. clearbody fl.
  fold (split_sign num width fl). destruct (split_sign num width fl) as [[n sign] w] eqn:Es.
  destruct (split_sign_text _ _ _ _ _ _ Es) as (En & Et & Ew & Hsign). rewrite <- En, <- Et in P |- *.
  fold (prefix_text fl base) in *. fold (number_buffer n base fl) in *. rewrite prefix_width.
  set (ds := number_buffer n base fl) in *. assert (Hds : Forall (fun x => 0 <= x < 256) (rev ds)).
  { apply Forall_rev, number_buffer_bytes. }
  set (i := Z.of_nat (length ds)) in *. set (prec := if precision <? i then i else precision).
  assert (Hprec : prec = Z.max precision i) by (unfold prec; destruct (Z.ltb_spec precision i); lia).
  set (pt := prefix_text fl base) in *. set (wd := w - Z.of_nat (length pt) - prec).
  set (zs := Z.to_nat (precision - i)) in *. rewrite !length_app, length_replicate, length_rev in P |- *.
  assert (Hz : Z.to_nat (prec - i) = zs) by (unfold zs; lia). rewrite Hz.
  assert (Hroom : Z.to_nat (width - Z.of_nat (length (sign_text sign)) - Z.of_nat (length pt + (zs + length ds))) = Z.to_nat wd).
  { unfold wd, zs, i in *. lia. }
  rewrite Hroom in *. rewrite has_lor.
  destruct (has fl LEFT) eqn:HL; [| destruct (has fl ZEROS) eqn:HZ].
  - rewrite (HLZ eq_refl) in *. cbn [orb negb].
    destruct (number_writes sign fl base (rev ds) 0 0 (Z.to_nat wd) zs str m Hsign Hds) as (m' & R & B & O).
    { cbn [replicate app]. by rewrite <- !app_assoc in P. }
    rewrite (HLZ eq_refl) in *. cbn [replicate app] in *. rewrite <- !app_assoc. exists m'. split_and!; [exact R | exact B | exact O].
  - cbn [orb negb].
    destruct (number_writes sign fl base (rev ds) 0 (Z.to_nat wd) 0 zs str m Hsign Hds) as (m' & R & B & O);
      rewrite ?HZ in *; cbn [replicate app] in *; rewrite ?app_nil_r in *.
    { rewrite replicate_add in P. by rewrite <- !app_assoc in P. }
    rewrite replicate_add, <- !app_assoc. exists m'. split_and!; [| exact B | exact O].
    refine (eq_trans _ R). etransitivity; [apply (pad_steps false (mret str) (write_sign sign) (write_prefix fl base)
      (fun w s => fill (Z.to_nat w) 48 s) str wd 0 after_loop
      (fun s w => s ← fill zs 48 s; s ← write_list (rev ds) s; s ← fill (Z.to_nat w) 32 s;
                  mret (u32 (s - str - 1)))) |].
    replace (Z.to_nat (after_loop wd)) with 0%nat by (unfold after_loop; lia). reflexivity.
  - cbn [orb negb].
    destruct (number_writes sign fl base (rev ds) (Z.to_nat wd) 0 0 zs str m Hsign Hds) as (m' & R & B & O);
      rewrite ?HZ in *; cbn [replicate app] in *; rewrite ?app_nil_r in *.
    { exact P. }
    exists m'. split_and!; [| exact B | exact O].
    refine (eq_trans _ R). etransitivity; [apply (pad_steps true (fill (Z.to_nat wd) 32 str) (write_sign sign) (write_prefix fl base)
      (fun w s => fill (Z.to_nat w) 32 s) str wd (after_loop wd) after_loop
      (fun s w => s ← fill zs 48 s; s ← write_list (rev ds) s; s ← fill (Z.to_nat w) 32 s;
                  mret (u32 (s - str - 1)))) |].
    cbv iota. replace (Z.to_nat (after_loop wd)) with 0%nat by (unfold after_loop; lia).
    replace (Z.to_nat (after_loop (after_loop wd))) with 0%nat by (unfold after_loop; lia). reflexivity.
Qed.

(** ** What the text means *)

Lemma number_digits_numeral fuel k base v :
  2 <= base <= 36 -> 0 < v < base ^ Z.of_nat fuel -> (fuel <= k)%nat ->
  number_digits fuel digits_lower base v = digits_rev k base v.
Proof.
  intros Hb. revert k v. induction fuel as [|fuel IH]; intros k v Hv Hk.
  { simpl in Hv. change (base ^ 0) with 1 in Hv. lia. }
  destruct k as [|k]; [lia |]. rewrite Nat2Z.inj_succ, Z.pow_succ_r in Hv by lia.
  assert (Hm := Z.mod_pos_bound v base ltac:(lia)). cbn [number_digits digits_rev].
  replace (v =? 0) with false by zbool. rewrite (digit_lookup (v mod base)) by lia. cbn [from_option id]. f_equal.
  destruct (Z.eqb_spec (v / base) 0) as [E|E].
  - rewrite E. by destruct fuel.
  - apply IH; [| lia]. pose proof (Z.div_pos v base). split; [lia | apply Z.div_lt_upper_bound; lia].
Qed.

Lemma number_buffer_numeral base n flags :
  2 <= base <= 36 -> 0 <= n < 2 ^ 32 -> has flags LARGE = false ->
  rev (number_buffer n base flags) = numeral base n.
Proof.
  intros Hb Hn Hl. unfold number_buffer. rewrite Hl. destruct (Z.eqb_spec n 0) as [->|Hne].
  - by rewrite numeral_zero.
  - unfold numeral. f_equal. apply number_digits_numeral; [done | | lia].
    assert (2 ^ 32 <= base ^ 32) by (apply Z.pow_le_mono_l; lia). simpl. lia.
Qed.

(** The field is filled up to its width. *)
Lemma number_text_width num base width precision flags :
  width <= Z.of_nat (length (number_text num base width precision flags)).
Proof.
  unfold number_text. fold (eff_flags flags). set (fl := eff_flags flags). clearbody fl.
  set (sign := if has fl SIGNED then _ else _). fold (prefix_text fl base). set (pt := prefix_text fl base).
  set (n := if has fl SIGNED && _ then _ else _). fold (number_buffer n base fl).
  set (ds := number_buffer n base fl).
  destruct (has fl LEFT); [| destruct (has fl ZEROS)];
    rewrite !length_app, !length_replicate, !length_rev; lia.
Qed.

(** A signed decimal without flags, width or precision is a minus sign, if
    needed, and the numeral of the absolute value. *)
Lemma number_text_decimal num :
  0 <= num < 2 ^ 32 ->
  number_text num 10 (-1) (-1) SIGNED =
  (if s32 num <? 0 then [45] else []) ++ numeral 10 (Z.abs (s32 num)).
Proof.
  intros Hn. unfold number_text. fold (eff_flags SIGNED). change (eff_flags SIGNED) with SIGNED.
  change (has SIGNED SIGNED) with true. change (has SIGNED PLUS) with false. change (has SIGNED SPACE) with false.
  change (has SIGNED PREFIX) with false. change (has SIGNED LEFT) with false. change (has SIGNED ZEROS) with false.
  cbn [andb app]. set (n := if s32 num <? 0 then u32 (- num) else num).
  assert (Hn' : n = Z.abs (s32 num)).
  { unfold n, s32, u32. destruct (Z.ltb_spec ((num + 2 ^ 31) mod 2 ^ 32 - 2 ^ 31) 0); Z.div_mod_to_equations; lia. }
  fold (number_buffer n 10 SIGNED). rewrite number_buffer_numeral; [| lia | | done].
  2:{ rewrite Hn'. unfold s32. Z.div_mod_to_equations. lia. }
  rewrite Hn'. set (ds := number_buffer _ _ _). replace (Z.to_nat (-1 - Z.of_nat (length ds))) with 0%nat by lia.
  cbn [replicate app].
  replace (Z.to_nat _) with 0%nat; [done |]. destruct (s32 num <? 0); cbn [length]; lia.
Qed.

(** ** A format without conversions *)

(** One plain character. *)
Lemma format_step_plain fuel buf fmt tmp i loc args m :
  page_present m (fmt + i) = true -> byte_at m (fmt + i) <> 37 -> page_present m (buf + loc) = true ->
  format_step fuel buf fmt tmp i loc args m =
  Ok ((i, loc, args), set_byte (buf + loc) (s8 (byte_at m (fmt + i))) m).
Proof.
  intros P Hc Pb. unfold format_step. rewrite (bind_ok _ _ _ _ _ (load_char_ok _ _ P)).
  replace (s8 (byte_at m (fmt + i)) =? 37) with false.
  - by rewrite (bind_ok _ _ _ _ _ (store8_ok _ _ _ Pb)).
  - symmetry. apply Z.eqb_neq. intros E. apply Hc. apply s8_inj; [apply byte_at_range | lia | done].
Qed.

Lemma u8_s8 b : 0 <= b < 256 -> u8 (s8 b) = b.
Proof. intros. unfold u8, s8. Z.div_mod_to_equations. lia. Qed.

(** The characters [l] and what stands behind the terminator are copied. *)
Lemma format_loop_plain n fuel buf fmt tmp args l b i m :
  cstring m fmt l -> bytes_at m (fmt + Z.of_nat (length l) + 1) [b] ->
  (forall c, c ∈ l ++ [0; b] -> c <> 37) -> 0 <= i ->
  i + Z.of_nat n = Z.of_nat (length l) + 2 -> (n + length l + 2 < fuel)%nat -> Z.of_nat (length l) + 2 < 2 ^ 32 ->
  present m (buf + i) (Z.of_nat n) ->
  fmt + Z.of_nat (length l) + 2 <= buf \/ buf + Z.of_nat (length l) + 2 <= fmt ->
  exists m', format_loop fuel buf fmt tmp i i args m = Ok (Z.of_nat (length l) + 2, m') /\
    copied m m' (buf + i) (fmt + i) (Z.of_nat n).
Proof.
  revert fuel i m. induction n as [|n IH]; intros [|fuel] i m C Cb Hc H0 Hi Hf Hmax P Hd; try lia;
    cbn [format_loop]; rewrite (bind_ok _ _ _ _ _ (strlen_ok m fmt l fuel C ltac:(lia))).
  - replace (i <=? Z.of_nat (length l) + 1) with false by zbool.
    exists m. split; [rewrite ret_ok; do 2 f_equal; lia | apply copied_nil].
  - replace (i <=? Z.of_nat (length l) + 1) with true by zbool.
    assert (Ball : bytes_at m fmt (l ++ [0; b])).
    { change [0; b] with ([0] ++ [b]). rewrite app_assoc. apply bytes_at_app. split; [apply C |].
      rewrite length_app, Nat2Z.inj_add, Z.add_assoc. exact Cb. }
    destruct (lookup_lt_is_Some_2 (l ++ [0; b]) (Z.to_nat i)) as [c Hl]; [rewrite length_app; simpl; lia |].
    destruct (Ball _ _ Hl) as [Pc Bc]. rewrite Z2Nat.id in Pc, Bc by done.
    assert (Hc37 : c <> 37) by (apply Hc; by eapply list_elem_of_lookup_2).
    assert (Pb := present_first _ _ _ P ltac:(lia)).
    rewrite (bind_ok _ _ _ _ _ (format_step_plain fuel buf fmt tmp i i args m Pc ltac:(congruence) Pb)).
    rewrite u32_small by lia.
    set (m1 := set_byte (buf + i) (s8 (byte_at m (fmt + i))) m).
    assert (C1 : copied m m1 (buf + i) (fmt + i) 1).
    { split; [done |]. intros x. rewrite <- (cp_bytes _ _ _ _ _ (copied_byte m (buf + i) (fmt + i)) x).
      unfold m1. destruct (decide (buf + i = x)) as [<-|]; [| by rewrite !byte_at_set_other].
      rewrite !byte_at_set_same, u8_s8 by apply byte_at_range. symmetry. apply u8_small, byte_at_range. }
    destruct (IH fuel (i + 1) m1) as (m' & R & C'); try lia; try done.
    + destruct C as [C Fl]. split; [| done]. eapply bytes_at_outside; [exact C | exact C1 |].
      rewrite length_app. simpl. lia.
    + eapply bytes_at_outside; [exact Cb | exact C1 |]. simpl. lia.
    + eapply present_pages; [done |]. eapply present_sub; [exact P | lia | lia].
    + exists m'. split; [done |]. replace (Z.of_nat (S n)) with (1 + Z.of_nat n) by lia.
      eapply copied_forward; [lia | lia | exact C1 | by rewrite <- !Z.add_assoc | lia].
Qed.

(** number writes exactly the text [number_text] describes (sign, prefix,
    zeros, digits and padding for every combination of flags, width and
    precision), which is at least as long as the field width, changes nothing
    else, and returns its length less one. *)
Theorem number_ok str num base width precision flags m :
  2 <= base <= 36 ->
  let text := number_text num base width precision flags in
  present m str (Z.of_nat (length text)) ->
  width <= Z.of_nat (length text) /\
  exists m', number str num base width precision flags m = Ok (u32 (Z.of_nat (length text) - 1), m') /\
    bytes_at m' str text /\ only_in m m' str (Z.of_nat (length text)).
Proof. intros Hb text P. split; [apply number_text_width | by apply number_run]. Qed.

(** "-0x00ff" right-aligned in nine columns. *)
Lemma number_ok_witness :
  let text := number_text (2 ^ 32 - 255) 16 9 4 (Z.lor SIGNED PREFIX) in
  9 <= Z.of_nat (length text) /\
  exists m', number 64 (2 ^ 32 - 255) 16 9 4 (Z.lor SIGNED PREFIX) two_strings = Ok (u32 (Z.of_nat (length text) - 1), m') /\
    bytes_at m' 64 text /\ only_in two_strings m' 64 (Z.of_nat (length text)).
Proof.
  apply number_ok; [lia|]. apply (present_b_ok _ _). vm_compute. reflexivity.
Defined.

(** "%d" without width prints a 32-bit value as its signed decimal numeral:
    a minus sign for negative values and the digits of the absolute value. *)
Theorem number_signed_decimal str num m :
  0 <= num < 2 ^ 32 ->
  let text := (if s32 num <? 0 then [45] else []) ++ numeral 10 (Z.abs (s32 num)) in
  present m str (Z.of_nat (length text)) ->
  exists m', number str num 10 (-1) (-1) SIGNED m = Ok (u32 (Z.of_nat (length text) - 1), m') /\
    bytes_at m' str text /\ numeral_value 10 (numeral 10 (Z.abs (s32 num))) = Z.abs (s32 num).
Proof.
  intros Hn text P. pose proof (number_text_decimal num Hn) as E. fold text in E.
  destruct (number_run str num 10 (-1) (-1) SIGNED m) as (m' & Run & B & _); [lia | by rewrite E |].
  rewrite E in Run, B. exists m'. split_and!; [done | done |].
  apply numeral_value_ok; [lia|]. unfold s32. Z.div_mod_to_equations. lia.
Qed.

Lemma number_signed_decimal_witness :
  let text := (if s32 (2 ^ 32 - 42) <? 0 then [45] else []) ++ numeral 10 (Z.abs (s32 (2 ^ 32 - 42))) in
  exists m', number 64 (2 ^ 32 - 42) 10 (-1) (-1) SIGNED two_strings = Ok (u32 (Z.of_nat (length text) - 1), m') /\
    bytes_at m' 64 text /\
    numeral_value 10 (numeral 10 (Z.abs (s32 (2 ^ 32 - 42)))) = Z.abs (s32 (2 ^ 32 - 42)).
Proof.
  apply number_signed_decimal; [lia|]. apply present_b_ok. vm_compute. reflexivity.
Defined.

(** Bytes outside a filled region. *)
Lemma bytes_at_filled m m' p n f a l :
  filled m m' p n f -> bytes_at m a l -> a + Z.of_nat (length l) <= p \/ p + n <= a -> bytes_at m' a l.
Proof.
  intros [Fp Fb] B D i b Hi. destruct (B i b Hi) as [B1 B2]. pose proof (lookup_lt_Some _ _ _ Hi).
  split; [unfold page_present in *; by rewrite Fp|].
  rewrite Fb. by replace ((p <=? a + Z.of_nat i) && (a + Z.of_nat i <? p + n)) with false by zbool.
Qed.

(** vsprintf of a format without conversions copies the string to the
    buffer; the loop runs to [strlen(fmt)], which counts the terminator, so it
    also copies the byte behind the terminator, and the result is the string's
    length plus two. *)
Theorem vsprintf_plain fuel buf fmt tmp args l b m :
  buf <> 0 -> fmt <> 0 -> cstring m fmt l -> bytes_at m (fmt + Z.of_nat (length l) + 1) [b] ->
  (forall c, c ∈ l ++ [0; b] -> c <> 37) -> (2 * length l + 4 < fuel)%nat ->
  Z.of_nat (length l) + 2 < 2 ^ 32 -> present m tmp 1024 -> present m buf (Z.of_nat (length l) + 2) ->
  fmt + Z.of_nat (length l) + 2 <= buf \/ buf + Z.of_nat (length l) + 2 <= fmt ->
  fmt + Z.of_nat (length l) + 2 <= tmp \/ tmp + 1024 <= fmt ->
  exists m', vsprintf fuel buf fmt tmp args m = Ok (Z.of_nat (length l) + 2, m') /\
    bytes_at m' buf (l ++ [0; b]).
Proof.
  intros Hb Hf C B Hc Hfu Hl Pt Pb D1 D2. unfold vsprintf.
  rewrite (proj2 (Z.eqb_neq _ _) Hb), (proj2 (Z.eqb_neq _ _) Hf). cbn [orb].
  destruct (stosb_ok 1024 m tmp 0 Pt) as (m1 & Run & Fl). rewrite (bind_ok _ _ _ _ _ Run).
  change (Z.of_nat 1024) with 1024 in Fl.
  assert (C1 : cstring m1 fmt l).
  { destruct C as [Cb Cr]. split; [|done]. eapply bytes_at_filled; [exact Fl | done |].
    rewrite length_app. simpl. lia. }
  assert (B1 : bytes_at m1 (fmt + Z.of_nat (length l) + 1) [b]).
  { eapply bytes_at_filled; [exact Fl | done |]. simpl. lia. }
  destruct (format_loop_plain (length l + 2) fuel buf fmt tmp args l b 0 m1) as (m' & R & Cp);
    [done | done | done | lia | lia | lia | lia | | lia |].
  { intros i Hi. rewrite Z.add_0_r. unfold page_present. rewrite (fl_pages _ _ _ _ _ Fl).
    apply Pb. lia. }
  exists m'. split; [done|]. rewrite !Z.add_0_r in Cp.
  assert (F : bytes_at m1 fmt (l ++ [0; b])).
  { destruct C1 as [Cb _]. intros i x Hx.
    replace (l ++ [0; b]) with ((l ++ [0]) ++ [b]) in Hx by (by rewrite <- app_assoc).
    apply lookup_app_Some in Hx as [Hx|[Hge Hx]]; [by apply Cb|].
    rewrite length_app in Hge, Hx. simpl in Hge, Hx.
    destruct (i - (length l + 1))%nat as [|k] eqn:Ei; [|done].
    destruct (B1 0%nat x Hx) as [Q1 Q2].
    replace (fmt + Z.of_nat i) with (fmt + Z.of_nat (length l) + 1 + Z.of_nat 0) by lia. done. }
  intros i x Hx. destruct (F i x Hx) as [Q1 Q2]. pose proof (lookup_lt_Some _ _ _ Hx) as Hi.
  rewrite length_app in Hi. simpl in Hi. split.
  - unfold page_present. rewrite (cp_pages _ _ _ _ _ Cp), (fl_pages _ _ _ _ _ Fl). apply Pb. lia.
  - rewrite (cp_bytes _ _ _ _ _ Cp).
    replace ((buf <=? buf + Z.of_nat i) && (buf + Z.of_nat i <? buf + Z.of_nat (length l + 2))) with true by zbool.
    rewrite <- Q2. f_equal. lia.
Qed.

Lemma vsprintf_plain_witness :
  exists m', vsprintf 30 512 16 1024 0 two_strings = Ok (Z.of_nat (length [97; 98]) + 2, m') /\
    bytes_at m' 512 ([97; 98] ++ [0; 0]).
Proof.
  apply vsprintf_plain; try lia.
  - apply cstring_b_ok. vm_compute. reflexivity.
  - apply bytes_at_b_ok. vm_compute. reflexivity.
  - intros c. rewrite !elem_of_app, !elem_of_cons, elem_of_nil. lia.
  - simpl. lia.
  - simpl. lia.
  - apply (present_b_ok _ 1024). vm_compute. reflexivity.
  - apply (present_b_ok _ 4). vm_compute. reflexivity.
  - simpl. lia.
  - simpl. lia.
Defined.
