(* ===== verification/Frames.v ===== *)
(** The bitmap of physical frames: the first part of paging.c.

    Bit [f mod 32] of word [f / 32] of [frames] is set when frame [f] is in
    use. The array has [nframes / 32] whole words; an access outside it is the
    error [OutOfBounds]. *)

From S2P Require Import Prelude.

Definition FRAME_SIZE : Z := 4096.

Record bitmap : Type := Bitmap {
  frames : list Z;
  nframes : Z;
  used_frames : Z
}.

Definition BIT_TO_IDX (bit : Z) : Z := bit / 32.
Definition BIT_TO_OFF (bit : Z) : Z := bit mod 32.

(** [frames[i]] *)
Definition frames_at (i : Z) : M bitmap Z := fun s =>
  match frames s !! Z.to_nat i with
  | Some w => Ok (w, s)
  | None => Err (OutOfBounds i)
  end.

(** [frames[i] = w] *)
Definition set_frames_at (i w : Z) : M bitmap unit := fun s =>
  match frames s !! Z.to_nat i with
  | Some _ => Ok (tt, Bitmap (<[Z.to_nat i := w]> (frames s)) (nframes s) (used_frames s))
  | None => Err (OutOfBounds i)
  end.

Definition add_used (d : Z) : M bitmap unit :=
  modify (fun s => Bitmap (frames s) (nframes s) (u32 (used_frames s + d))).

(** ** Operations *)

Definition test_frame (frame : Z) : M bitmap Z :=
  w ← frames_at (BIT_TO_IDX frame);
  mret (s32 (Z.land w (Z.shiftl 1 (BIT_TO_OFF frame)))).

Definition set_frame (frame : Z) : M bitmap unit :=
  t ← test_frame frame;
  when (t =? 0)
    (w ← frames_at (BIT_TO_IDX frame);
     set_frames_at (BIT_TO_IDX frame) (Z.lor w (Z.shiftl 1 (BIT_TO_OFF frame)));;
     add_used 1).

Definition clear_frame (frame : Z) : M bitmap unit :=
  t ← test_frame frame;
  when (t =? 1)
    (w ← frames_at (BIT_TO_IDX frame);
     set_frames_at (BIT_TO_IDX frame) (Z.land w (Z.lnot (Z.shiftl 1 (BIT_TO_OFF frame))));;
     add_used (-1)).

(** [for (count = 1; count < num; ++count)]; [n] iterations are left. *)
Fixpoint scan_run (n : nat) (start count : Z) : M bitmap Z :=
  match n with
  | O => mret count
  | S n =>
      t ← test_frame (u32 (start + count));
      if negb (t =? 0) then mret count else scan_run n start (count + 1)
  end.

(** [for (j = 0; j < 32; ++j)]; [n] iterations are left. *)
Fixpoint scan_bits (n : nat) (num i j : Z) : M bitmap (option Z) :=
  match n with
  | O => mret None
  | S n =>
      w ← frames_at i;
      if Z.land w (Z.shiftl 1 j) =? 0 then
        let start := u32 (i * 32 + j) in
        count ← scan_run (Z.to_nat (num - 1)) start 1;
        if count =? num then mret (Some (s32 (i * 32 + j)))
        else scan_bits n num i (j + 1)
      else scan_bits n num i (j + 1)
  end.

(** [for (i = 0; i < nframes; ++i)]; [n] iterations are left. *)
Fixpoint scan_words (n : nat) (num i : Z) : M bitmap (option Z) :=
  match n with
  | O => mret None
  | S n =>
      w ← frames_at i;
      if negb (w =? 0xffffffff) then
        r ← scan_bits 32 num i 0;
        match r with
        | Some f => mret (Some f)
        | None => scan_words n num (i + 1)
        end
      else scan_words n num (i + 1)
  end.

Definition first_free_frames (num : Z) : M bitmap Z :=
  if num =? 0 then mret (-1)
  else
    n ← gets nframes;
    r ← scan_words (Z.to_nat n) num 0;
    mret (default (-1) r).

Definition first_free_frame : M bitmap Z := first_free_frames 1.

Fixpoint count_word (n : nat) (i j count : Z) : M bitmap Z :=
  match n with
  | O => mret count
  | S n =>
      w ← frames_at i;
      count_word n i (j + 1)
        (if negb (Z.land w (Z.shiftl 1 j) =? 0) then u32 (count + 1) else count)
  end.

Fixpoint count_words (n : nat) (i count : Z) : M bitmap Z :=
  match n with
  | O => mret count
  | S n => count ← count_word 32 i 0 count; count_words n (i + 1) count
  end.

Definition memory_used : M bitmap Z :=
  n ← gets nframes;
  count ← count_words (Z.to_nat n) 0 0;
  mret (u32 (count * FRAME_SIZE)).

Definition memory_total : M bitmap Z := n ← gets nframes; mret (u32 (n * FRAME_SIZE)).

Definition paging_mark_reserved (address : Z) : M bitmap unit := set_frame (address / FRAME_SIZE).

(** The bitmap that paging_init leaves: [nframes / 8] bytes of zeroes. *)
Definition init_bitmap (mem_size : Z) : bitmap :=
  let n := mem_size / FRAME_SIZE in
  Bitmap (replicate (Z.to_nat (n / 8 / 4)) 0) n 0.

(** ** The abstract bitmap *)

(** [Some true]: in use, [Some false]: free, [None]: no such frame. *)
Definition frame_status (s : bitmap) (f : Z) : option bool :=
  (fun w => Z.testbit w (f mod 32)) <$> frames s !! Z.to_nat (f / 32).

Definition bits (w : Z) : nat := length (filter (fun j => Z.testbit w j = true) (seqZ 0 32)).

Fixpoint total_bits (l : list Z) : nat :=
  match l with [] => 0 | w :: l => bits w + total_bits l end.

(** How many frames are in use. *)
Definition popcount (s : bitmap) : Z := Z.of_nat (total_bits (frames s)).

Record bitmap_ok (s : bitmap) : Prop := {
  bo_words : Forall (fun w => 0 <= w < 2 ^ 32) (frames s);
  bo_len : nframes s = 32 * Z.of_nat (length (frames s));
  bo_max : nframes s <= 2 ^ 20;
  bo_used : used_frames s = popcount s
}.

(** ** Lemmas: one word *)

Lemma frame_status_word s f b :
  frame_status s f = Some b ->
  exists w, frames s !! Z.to_nat (f / 32) = Some w /\ Z.testbit w (f mod 32) = b.
Proof. unfold frame_status. intros (w & Hw & ->)%fmap_Some. eauto. Qed.

Lemma off_range f : 0 <= f mod 32 < 32.
Proof. apply Z.mod_pos_bound. lia. Qed.

(** Different frames differ in the word or in the bit. *)
Lemma frame_split f g : 0 <= f -> 0 <= g -> Z.to_nat (f / 32) = Z.to_nat (g / 32) -> f mod 32 = g mod 32 -> f = g.
Proof. intros. Z.div_mod_to_equations. lia. Qed.

Lemma testbit_set w k j : 0 <= k -> Z.testbit (Z.lor w (Z.shiftl 1 k)) j = (j =? k) || Z.testbit w j.
Proof. intros. rewrite Z.lor_spec, testbit_shiftl_1 by lia. apply orb_comm. Qed.

Lemma testbit_clear w k j :
  0 <= k -> 0 <= j -> Z.testbit (Z.land w (Z.lnot (Z.shiftl 1 k))) j = negb (j =? k) && Z.testbit w j.
Proof.
  intros. rewrite Z.land_spec, Z.lnot_spec, testbit_shiftl_1 by lia. apply andb_comm.
Qed.

(** Bits below 32 decide the range of a word. *)
Lemma word_range w : 0 <= w -> (forall j, 32 <= j -> Z.testbit w j = false) -> w < 2 ^ 32.
Proof.
  intros Hw Hj. destruct (Z.eq_dec w 0) as [->|]; [lia |].
  apply Z.log2_lt_pow2; [lia |]. apply Z.nle_gt. intros Hl.
  specialize (Hj _ Hl). rewrite Z.bit_log2 in Hj by lia. done.
Qed.

Lemma word_high w j : 0 <= w < 2 ^ 32 -> 32 <= j -> Z.testbit w j = false.
Proof.
  intros Hw Hj. destruct (Z.eq_dec w 0) as [->|]; [apply Z.bits_0 |].
  apply Z.bits_above_log2; [lia |]. assert (Z.log2 w < 32) by (apply Z.log2_lt_pow2; lia). lia.
Qed.

Lemma set_range w k : 0 <= w < 2 ^ 32 -> 0 <= k < 32 -> 0 <= Z.lor w (Z.shiftl 1 k) < 2 ^ 32.
Proof.
  intros Hw Hk. assert (0 <= Z.lor w (Z.shiftl 1 k)).
  { apply Z.lor_nonneg. rewrite Z.shiftl_nonneg. lia. }
  split; [done |]. apply word_range; [done |]. intros j Hj.
  rewrite testbit_set, (word_high w j Hw Hj) by lia. replace (j =? k) with false by lia. done.
Qed.

Lemma clear_range w k :
  0 <= w < 2 ^ 32 -> 0 <= k < 32 -> 0 <= Z.land w (Z.lnot (Z.shiftl 1 k)) < 2 ^ 32.
Proof.
  intros Hw Hk. assert (0 <= Z.land w (Z.lnot (Z.shiftl 1 k))) by (apply Z.land_nonneg; lia).
  split; [done |]. apply word_range; [done |]. intros j Hj.
  rewrite testbit_clear, (word_high w j Hw Hj) by lia. apply andb_false_r.
Qed.

(** Filters that agree, and that differ in one element. *)
Lemma filter_agree (P Q : Z -> bool) (l : list Z) :
  (forall j, j ∈ l -> P j = Q j) -> filter (fun j => P j = true) l = filter (fun j => Q j = true) l.
Proof.
  induction l as [|x l IH]; intros PQ; [done |]. rewrite !filter_cons, (PQ x) by set_solver.
  rewrite IH by set_solver. done.
Qed.

Lemma filter_flip (P Q : Z -> bool) (l : list Z) k :
  NoDup l -> k ∈ l -> P k = false -> Q k = true -> (forall j, j ∈ l -> j <> k -> P j = Q j) ->
  length (filter (fun j => Q j = true) l) = S (length (filter (fun j => P j = true) l)).
Proof.
  intros ND Hk Pk Qk PQ. induction l as [|x l IH]; [by apply not_elem_of_nil in Hk |].
  apply NoDup_cons in ND as [Nx ND]. rewrite !filter_cons.
  assert (Same : k = x -> filter (fun j => Q j = true) l = filter (fun j => P j = true) l).
  { intros ->. symmetry. apply filter_agree. intros j Hj. apply PQ; [set_solver | congruence]. }
  destruct (decide (k = x)) as [->|Hne].
  - rewrite Pk, Qk. repeat case_decide; try done. simpl. by rewrite Same.
  - rewrite (PQ x); [| set_solver | congruence]. apply elem_of_cons in Hk as [?|Hk]; [done |].
    case_decide; simpl; rewrite IH; set_solver.
Qed.

Lemma bits_set w k : 0 <= k < 32 -> Z.testbit w k = false -> bits (Z.lor w (Z.shiftl 1 k)) = S (bits w).
Proof.
  intros Hk Hb. unfold bits. apply (filter_flip (Z.testbit w) (Z.testbit (Z.lor w _)) _ k).
  - apply NoDup_seqZ.
  - apply elem_of_seqZ. lia.
  - done.
  - rewrite testbit_set by lia. by rewrite Z.eqb_refl.
  - intros j _ Hj. rewrite testbit_set by lia. by rewrite (proj2 (Z.eqb_neq j k) Hj).
Qed.

Lemma bits_clear w k :
  0 <= k < 32 -> Z.testbit w k = true -> bits w = S (bits (Z.land w (Z.lnot (Z.shiftl 1 k)))).
Proof.
  intros Hk Hb. unfold bits. apply (filter_flip (Z.testbit (Z.land w _)) (Z.testbit w) _ k).
  - apply NoDup_seqZ.
  - apply elem_of_seqZ. lia.
  - rewrite testbit_clear by lia. by rewrite Z.eqb_refl.
  - done.
  - intros j Hj Hn. apply elem_of_seqZ in Hj. rewrite testbit_clear by lia.
    by rewrite (proj2 (Z.eqb_neq j k) Hn).
Qed.

Lemma popcount_insert l i w w' :
  l !! i = Some w ->
  (total_bits (<[i := w']> l) + bits w = total_bits l + bits w')%nat.
Proof.
  revert i. induction l as [|x l IH]; intros [|i] H; simpl in *; try done.
  - simplify_eq. lia.
  - specialize (IH i H). simpl in IH. lia.
Qed.

(** ** Lemmas: reading the bitmap *)

Lemma land_bit_zero w k : 0 <= k -> (Z.land w (Z.shiftl 1 k) =? 0) = negb (Z.testbit w k).
Proof.
  intros Hk. rewrite land_shiftl_1 by lia. destruct (Z.testbit w k); [| done].
  apply Z.eqb_neq. pose proof (Z.pow_pos_nonneg 2 k). lia.
Qed.

(** The int that test_frame returns: 0 for a free frame, and otherwise a power
    of two that is 1 for the first frame of a word only. *)
Lemma test_frame_ok s f b :
  frame_status s f = Some b ->
  exists t, test_frame f s = Ok (t, s) /\ (t =? 0) = negb b /\ (t =? 1) = b && (f mod 32 =? 0).
Proof.
  intros (w & Hw & Hb)%frame_status_word. pose proof (off_range f) as Hk.
  unfold test_frame, BIT_TO_IDX, BIT_TO_OFF. eexists.
  split; [unfold frames_at; erewrite bind_ok by (by rewrite Hw); apply ret_ok |].
  rewrite land_shiftl_1, Hb by lia. destruct b; [| done].
  assert (P : 2 ^ (f mod 32) <= 2 ^ 31) by (apply Z.pow_le_mono_r; lia).
  destruct (Z.eqb_spec (f mod 32) 0) as [->|Hne]; [done |].
  assert (P2 : 2 ^ 1 <= 2 ^ (f mod 32)) by (apply Z.pow_le_mono_r; lia).
  unfold s32. set (x := 2 ^ (f mod 32)) in *. clearbody x.
  split; apply Z.eqb_neq; Z.div_mod_to_equations; lia.
Qed.

Lemma test_frame_out s f : frame_status s f = None -> test_frame f s = Err (OutOfBounds (f / 32)).
Proof.
  unfold frame_status, test_frame, BIT_TO_IDX. intros H%fmap_None.
  apply bind_err. unfold frames_at. by rewrite H.
Qed.

(** ** Lemmas: writing the bitmap *)

(** [s'] is [s] with the status of [f] set to [b]. *)
Record marked (f : Z) (b : bool) (s s' : bitmap) : Prop := {
  mk_frame : frame_status s' f = Some b;
  mk_other : forall g, 0 <= g -> g <> f -> frame_status s' g = frame_status s g;
  mk_nframes : nframes s' = nframes s;
  mk_length : length (frames s') = length (frames s)
}.

Lemma frame_status_insert s f w w' n u g :
  frames s !! Z.to_nat (f / 32) = Some w ->
  frame_status (Bitmap (<[Z.to_nat (f / 32) := w']> (frames s)) n u) g =
  if decide (Z.to_nat (g / 32) = Z.to_nat (f / 32)) then Some (Z.testbit w' (g mod 32))
  else frame_status s g.
Proof.
  intros Hw. unfold frame_status; simpl. case_decide as D.
  - rewrite D, list_lookup_insert_eq; [done |]. by eapply lookup_lt_Some.
  - by rewrite list_lookup_insert_ne.
Qed.

Lemma popcount_pos s : 0 <= popcount s.
Proof. unfold popcount. lia. Qed.

Lemma bits_le w : (bits w <= 32)%nat.
Proof. unfold bits. etransitivity; [apply length_filter |]. by rewrite length_seqZ. Qed.

Lemma total_bits_le l : (total_bits l <= 32 * length l)%nat.
Proof. induction l as [|w l IH]; simpl; [done |]. pose proof (bits_le w). lia. Qed.

Lemma frames_at_ok s i w : frames s !! Z.to_nat i = Some w -> frames_at i s = Ok (w, s).
Proof. intros H. unfold frames_at. by rewrite H. Qed.

Lemma set_frames_at_ok s i w w' :
  frames s !! Z.to_nat i = Some w ->
  set_frames_at i w' s = Ok (tt, Bitmap (<[Z.to_nat i := w']> (frames s)) (nframes s) (used_frames s)).
Proof. intros H. unfold set_frames_at. by rewrite H. Qed.

(** Replacing a word whose number of bits grows by [d] keeps the invariant. *)
Lemma bitmap_ok_insert s i w w' d :
  bitmap_ok s -> frames s !! i = Some w -> 0 <= w' < 2 ^ 32 ->
  Z.of_nat (bits w') = Z.of_nat (bits w) + d ->
  bitmap_ok (Bitmap (<[i := w']> (frames s)) (nframes s) (u32 (used_frames s + d))).
Proof.
  intros [Ow Ol Om Ou] Hw Hw' Hd. split; simpl.
  - by apply Forall_insert.
  - by rewrite length_insert.
  - done.
  - assert (P := popcount_insert (frames s) i w w' Hw).
    pose proof (total_bits_le (<[i := w']> (frames s))) as B. rewrite length_insert in B.
    unfold popcount in *. simpl. rewrite u32_small; lia.
Qed.

Lemma bitmap_ok_word s i w : bitmap_ok s -> frames s !! i = Some w -> 0 <= w < 2 ^ 32.
Proof. intros [Ow _ _ _] Hw. eapply Forall_lookup_1 in Ow; eauto. Qed.

Lemma set_frame_ok s f b :
  bitmap_ok s -> 0 <= f -> frame_status s f = Some b ->
  exists s', set_frame f s = Ok (tt, s') /\ bitmap_ok s' /\ marked f true s s' /\
    used_frames s' = used_frames s + (if b then 0 else 1).
Proof.
  intros Ok Hf Hs. destruct (test_frame_ok _ _ _ Hs) as (t & Ht & Hz & _).
  unfold set_frame. rewrite (bind_ok _ _ _ _ _ Ht), Hz. destruct b; simpl.
  { exists s. split; [done |]. split; [done |]. split; [by split | lia]. }
  destruct (frame_status_word _ _ _ Hs) as (w & Hw & Hb). pose proof (off_range f) as Hk.
  unfold BIT_TO_IDX, BIT_TO_OFF. rewrite (bind_ok _ _ _ _ _ (frames_at_ok _ _ _ Hw)).
  rewrite (bind_ok _ _ _ _ _ (set_frames_at_ok _ _ _ _ Hw)).
  eexists. split; [reflexivity |]. cbn [frames nframes used_frames]. split.
  - apply (bitmap_ok_insert s _ w _ 1 Ok Hw); [apply set_range; [by eapply bitmap_ok_word | done] |].
    rewrite bits_set by done. lia.
  - split; [| rewrite u32_small; [done |]; rewrite (bo_used _ Ok); unfold popcount;
      pose proof (total_bits_le (frames s)); pose proof (bo_len _ Ok); pose proof (bo_max _ Ok); lia].
    split; [| | done | simpl; by rewrite length_insert].
    + rewrite (frame_status_insert s f w) by done. rewrite decide_True by done.
      rewrite testbit_set, Z.eqb_refl by lia. done.
    + intros g Hg Hne. rewrite (frame_status_insert s f w) by done. case_decide as D; [| done].
      unfold frame_status. rewrite D, Hw. simpl. rewrite testbit_set by lia.
      replace (g mod 32 =? f mod 32) with false; [done |].
      symmetry. apply Z.eqb_neq. intros E. apply Hne. by apply frame_split.
Qed.

Lemma set_frame_out s f : frame_status s f = None -> set_frame f s = Err (OutOfBounds (f / 32)).
Proof. intros H. unfold set_frame. by apply bind_err, test_frame_out. Qed.

Lemma clear_frame_first s f :
  bitmap_ok s -> 0 <= f -> f mod 32 = 0 -> frame_status s f = Some true ->
  exists s', clear_frame f s = Ok (tt, s') /\ bitmap_ok s' /\ marked f false s s' /\ used_frames s' <= used_frames s.
Proof.
  intros Ok Hf H0 Hs. destruct (test_frame_ok _ _ _ Hs) as (t & Ht & _ & Ho).
  unfold clear_frame. rewrite (bind_ok _ _ _ _ _ Ht), Ho, H0. simpl.
  destruct (frame_status_word _ _ _ Hs) as (w & Hw & Hb). pose proof (off_range f) as Hk.
  unfold BIT_TO_IDX, BIT_TO_OFF. rewrite (bind_ok _ _ _ _ _ (frames_at_ok _ _ _ Hw)).
  rewrite (bind_ok _ _ _ _ _ (set_frames_at_ok _ _ _ _ Hw)).
  eexists. split; [reflexivity |]. cbn [frames nframes used_frames]. split.
  - apply (bitmap_ok_insert s _ w _ (-1) Ok Hw); [apply clear_range; [by eapply bitmap_ok_word | done] |].
    rewrite (bits_clear w (f mod 32)) by done. lia.
  - split; [| pose proof (bo_used _ Ok) as Eu; rewrite Eu; unfold popcount;
      pose proof (popcount_insert (frames s) (Z.to_nat (f / 32)) w (Z.land w (Z.lnot (Z.shiftl 1 (f mod 32)))) Hw) as Pi;
      rewrite (bits_clear w (f mod 32)) in Pi by done; pose proof (total_bits_le (frames s)); pose proof (bo_len _ Ok);
      pose proof (bo_max _ Ok); rewrite u32_small; lia].
    split; [| | done | simpl; by rewrite length_insert].
    + rewrite (frame_status_insert s f w) by done. rewrite decide_True by done.
      rewrite testbit_clear, Z.eqb_refl by lia. done.
    + intros g Hg Hne. rewrite (frame_status_insert s f w) by done. case_decide as D; [| done].
      unfold frame_status. rewrite D, Hw. simpl. pose proof (off_range g). rewrite testbit_clear by lia.
      replace (g mod 32 =? f mod 32) with false; [done |].
      symmetry. apply Z.eqb_neq. intros E. apply Hne. by apply frame_split.
Qed.

(** The result of test_frame is compared with 1, not with 0: the other frames
    of a word are never cleared. *)
Lemma clear_frame_stuck s f b :
  f mod 32 <> 0 \/ b = false -> frame_status s f = Some b -> clear_frame f s = Ok (tt, s).
Proof.
  intros H0 Hs. destruct (test_frame_ok _ _ _ Hs) as (t & Ht & _ & Ho).
  unfold clear_frame. rewrite (bind_ok _ _ _ _ _ Ht), Ho.
  replace (b && (f mod 32 =? 0)) with false; [done |].
  destruct H0 as [H0| ->]; [| done]. by rewrite (proj2 (Z.eqb_neq _ _) H0), andb_false_r.
Qed.

(** ** Lemmas: looking for free frames *)

(** [num] free frames from [f] on. *)
Definition free_run (s : bitmap) (f num : Z) : Prop :=
  forall k, 0 <= k < num -> frame_status s (f + k) = Some false.

(** A frame in use, or a free one that is followed too early by one in use. *)
Definition rejected (s : bitmap) (num g : Z) : Prop :=
  frame_status s g = Some true \/
  (frame_status s g = Some false /\
   (exists k, 1 <= k < num /\ frame_status s (g + k) = Some true) /\
   (forall k, 1 <= k < num -> is_Some (frame_status s (g + k)))).

Section search.
Context (s : bitmap) (s_ok : bitmap_ok s).
Implicit Types (n : nat) (i j f g num start c : Z).

Lemma status_range f b : 0 <= f -> frame_status s f = Some b -> f < nframes s.
Proof.
  intros Hf (w & Hw & _)%frame_status_word. apply lookup_lt_Some in Hw.
  rewrite (bo_len _ s_ok). Z.div_mod_to_equations. lia.
Qed.

Lemma status_some f : 0 <= f < nframes s -> is_Some (frame_status s f).
Proof.
  intros Hf. unfold frame_status. apply fmap_is_Some, lookup_lt_is_Some.
  rewrite (bo_len _ s_ok) in Hf. Z.div_mod_to_equations. lia.
Qed.

Lemma status_small f b : 0 <= f -> frame_status s f = Some b -> u32 f = f /\ s32 f = f.
Proof.
  intros Hf Hb. pose proof (status_range _ _ Hf Hb). pose proof (bo_max _ s_ok).
  split; [apply u32_small | apply s32_small]; lia.
Qed.

Lemma scan_run_free n start c :
  0 <= start + c -> (forall k, c <= k < c + Z.of_nat n -> frame_status s (start + k) = Some false) ->
  scan_run n start c s = Ok (c + Z.of_nat n, s).
Proof.
  revert c. induction n as [|n IH]; intros c H0 Hk; simpl.
  { by rewrite Z.add_0_r. }
  assert (Hc := Hk c ltac:(lia)). rewrite (proj1 (status_small _ _ H0 Hc)).
  destruct (test_frame_ok _ _ _ Hc) as (t & Ht & Hz & _).
  rewrite (bind_ok _ _ _ _ _ Ht), Hz. simpl. rewrite IH; [do 2 f_equal; lia | lia |].
  intros k Hk'. apply Hk. lia.
Qed.

Lemma scan_run_reject n start c :
  0 <= start + c ->
  (exists k, c <= k < c + Z.of_nat n /\ frame_status s (start + k) = Some true) ->
  (forall k, c <= k < c + Z.of_nat n -> is_Some (frame_status s (start + k))) ->
  exists r, c <= r < c + Z.of_nat n /\ scan_run n start c s = Ok (r, s).
Proof.
  revert c. induction n as [|n IH]; intros c H0 (k & Hk & Hs) Hall; [lia |].
  destruct (Hall c ltac:(lia)) as [b Hb]. cbn [scan_run]. rewrite (proj1 (status_small _ _ H0 Hb)).
  destruct (test_frame_ok _ _ _ Hb) as (t & Ht & Hz & _).
  rewrite (bind_ok _ _ _ _ _ Ht), Hz. destruct b; simpl.
  { exists c. split; [lia | done]. }
  destruct (IH (c + 1)) as (r & Hr & Er); [lia | | | exists r; split; [lia | done]].
  - exists k. split; [| done]. destruct (decide (k = c)) as [->|]; [congruence | lia].
  - intros k' Hk'. apply Hall. lia.
Qed.

(** Frame [32 i + j] is bit [j] of word [i]. *)
Lemma status_word i j w :
  0 <= i -> 0 <= j < 32 -> frames s !! Z.to_nat i = Some w ->
  frame_status s (i * 32 + j) = Some (Z.testbit w j).
Proof.
  intros Hi Hj Hw. unfold frame_status.
  replace ((i * 32 + j) / 32) with i by (Z.div_mod_to_equations; lia).
  replace ((i * 32 + j) mod 32) with j by (Z.div_mod_to_equations; lia).
  by rewrite Hw.
Qed.

Lemma scan_bits_skip n num i j w :
  0 <= i -> 0 <= j -> j + Z.of_nat n <= 32 -> frames s !! Z.to_nat i = Some w ->
  (forall g, i * 32 + j <= g < i * 32 + j + Z.of_nat n -> rejected s num g) ->
  scan_bits n num i j s = Ok (None, s).
Proof.
  intros Hi. revert j. induction n as [|n IH]; intros j Hj Hn Hw Hrej; [done |].
  cbn [scan_bits]. rewrite (bind_ok _ _ _ _ _ (frames_at_ok _ _ _ Hw)), land_bit_zero by lia.
  assert (Next : scan_bits n num i (j + 1) s = Ok (None, s)).
  { apply IH; [lia | lia | done |]. intros g Hg. apply Hrej. lia. }
  assert (Hs := status_word i j w Hi ltac:(lia) Hw).
  destruct (Z.testbit w j) eqn:Hb; simpl; [exact Next |].
  destruct (Hrej (i * 32 + j) ltac:(lia)) as [Ht | (_ & (k & Hk & Ht) & Hall)]; [congruence |].
  rewrite (proj1 (status_small (i * 32 + j) _ ltac:(lia) Hs)).
  destruct (scan_run_reject (Z.to_nat (num - 1)) (i * 32 + j) 1) as (r & Hr & Er); [lia | | |].
  { exists k. split; [lia | done]. }
  { intros k' Hk'. apply Hall. lia. }
  rewrite (bind_ok _ _ _ _ _ Er). replace (r =? num) with false by (symmetry; lia). exact Next.
Qed.

Lemma scan_bits_hit n num i j w f :
  0 <= i -> 0 <= j -> j + Z.of_nat n <= 32 -> frames s !! Z.to_nat i = Some w -> 0 < num ->
  i * 32 + j <= f < i * 32 + j + Z.of_nat n -> free_run s f num ->
  (forall g, i * 32 + j <= g < f -> rejected s num g) ->
  scan_bits n num i j s = Ok (Some f, s).
Proof.
  intros Hi. revert j. induction n as [|n IH]; intros j Hj Hn Hw Hnum Hf Hrun Hrej; [lia |].
  cbn [scan_bits]. rewrite (bind_ok _ _ _ _ _ (frames_at_ok _ _ _ Hw)), land_bit_zero by lia.
  assert (Hs := status_word i j w Hi ltac:(lia) Hw).
  destruct (decide (f = i * 32 + j)) as [->|Hne].
  - assert (H0 := Hrun 0 ltac:(lia)). rewrite Z.add_0_r, Hs in H0. simplify_eq. rewrite H0. simpl.
    destruct (status_small (i * 32 + j) _ ltac:(lia) Hs) as [E1 E2]. rewrite E1, E2.
    rewrite (bind_ok _ _ _ _ _ (scan_run_free (Z.to_nat (num - 1)) (i * 32 + j) 1 ltac:(lia)
               ltac:(intros k Hk; apply Hrun; lia))).
    rewrite (proj2 (Z.eqb_eq _ num)) by lia. done.
  - assert (Next : scan_bits n num i (j + 1) s = Ok (Some f, s)).
    { apply IH; try done; try lia. intros g Hg. apply Hrej. lia. }
    destruct (Z.testbit w j) eqn:Hb; simpl; [exact Next |].
    destruct (Hrej (i * 32 + j) ltac:(lia)) as [Ht | (_ & (k & Hk & Ht) & Hall)]; [congruence |].
    rewrite (proj1 (status_small (i * 32 + j) _ ltac:(lia) Hs)).
    destruct (scan_run_reject (Z.to_nat (num - 1)) (i * 32 + j) 1) as (r & Hr & Er); [lia | | |].
    { exists k. split; [lia | done]. }
    { intros k' Hk'. apply Hall. lia. }
    rewrite (bind_ok _ _ _ _ _ Er). replace (r =? num) with false by (symmetry; lia). exact Next.
Qed.

Lemma full_word i w g :
  0 <= i -> frames s !! Z.to_nat i = Some w -> w = 0xffffffff -> i * 32 <= g < i * 32 + 32 ->
  frame_status s g = Some true.
Proof.
  intros Hi Hw -> Hg. replace g with (i * 32 + (g - i * 32)) by lia.
  rewrite (status_word i (g - i * 32) _ Hi ltac:(lia) Hw). f_equal.
  change 0xffffffff with (Z.ones 32). apply Z.ones_spec_low. lia.
Qed.

Lemma scan_words_hit n num i f :
  0 <= i -> 0 < num -> i * 32 <= f < (i + Z.of_nat n) * 32 -> free_run s f num ->
  (forall g, i * 32 <= g < f -> rejected s num g) ->
  scan_words n num i s = Ok (Some f, s).
Proof.
  revert i. induction n as [|n IH]; intros i Hi Hnum Hf Hrun Hrej; [lia |].
  assert (Hfr := Hrun 0 ltac:(lia)). rewrite Z.add_0_r in Hfr.
  assert (Hfn := status_range f _ ltac:(lia) Hfr). rewrite (bo_len _ s_ok) in Hfn.
  destruct (lookup_lt_is_Some_2 (frames s) (Z.to_nat i)) as [w Hw]; [lia |].
  cbn [scan_words]. rewrite (bind_ok _ _ _ _ _ (frames_at_ok _ _ _ Hw)).
  destruct (decide (f < i * 32 + 32)) as [Hin|Hin].
  - destruct (Z.eqb_spec w 0xffffffff) as [E|E]; cbn [negb].
    { pose proof (full_word i w f Hi Hw E ltac:(lia)). congruence. }
    rewrite (bind_ok _ _ _ _ _ (scan_bits_hit 32 num i 0 w f Hi ltac:(lia) ltac:(lia) Hw Hnum
               ltac:(lia) Hrun ltac:(intros g Hg; apply Hrej; lia))). done.
  - assert (Next : scan_words n num (i + 1) s = Ok (Some f, s)).
    { apply IH; try done; try lia. intros g Hg. apply Hrej. lia. }
    destruct (w =? 0xffffffff); cbn [negb]; [exact Next |].
    rewrite (bind_ok _ _ _ _ _ (scan_bits_skip 32 num i 0 w Hi ltac:(lia) ltac:(lia) Hw
               ltac:(intros g Hg; apply Hrej; lia))). exact Next.
Qed.

(** Before the first free run every frame is rejected. *)
Lemma before_first num f g :
  0 < num -> 0 <= f -> free_run s f num -> (forall g, 0 <= g < f -> ~ free_run s g num) ->
  0 <= g < f -> rejected s num g.
Proof.
  intros Hnum Hf Hrun Hmin Hg.
  assert (Hlast := Hrun (num - 1) ltac:(lia)).
  assert (Hr := status_range (f + (num - 1)) _ ltac:(lia) Hlast).
  assert (Hsome : forall k, 0 <= k < num -> is_Some (frame_status s (g + k))).
  { intros k Hk. apply status_some. lia. }
  destruct (Hsome 0 ltac:(lia)) as [b Hb]. rewrite Z.add_0_r in Hb.
  destruct b; [by left |]. right. split; [done |]. split; [| intros k Hk; apply Hsome; lia].
  destruct (decide (Exists (fun k => frame_status s (g + k) = Some true) (seqZ 1 (num - 1)))) as [Ex|Nex].
  - apply Exists_exists in Ex as (k & Hk & Ht). apply elem_of_seqZ in Hk. exists k. split; [lia | done].
  - exfalso. apply (Hmin g Hg). intros k Hk. destruct (decide (k = 0)) as [->|]; [by rewrite Z.add_0_r |].
    destruct (Hsome k Hk) as [[] Hs]; [| done]. exfalso. apply Nex, Exists_exists.
    exists k. split; [apply elem_of_seqZ; lia | done].
Qed.

Lemma first_free_found num f :
  0 < num -> 0 <= f -> free_run s f num -> (forall g, 0 <= g < f -> ~ free_run s g num) ->
  first_free_frames num s = Ok (f, s).
Proof.
  intros Hnum Hf Hrun Hmin. unfold first_free_frames.
  replace (num =? 0) with false by (symmetry; lia).
  assert (H0 := Hrun 0 ltac:(lia)). rewrite Z.add_0_r in H0. pose proof (status_range _ _ Hf H0).
  rewrite (bind_ok _ _ s (nframes s) s) by done.
  rewrite (bind_ok _ _ _ _ _ (scan_words_hit (Z.to_nat (nframes s)) num 0 f ltac:(lia) Hnum ltac:(lia) Hrun
             ltac:(intros g Hg; eapply before_first; eauto; lia))).
  done.
Qed.

Lemma scan_words_full n num i :
  0 <= i -> i <= Z.of_nat (length (frames s)) -> Z.of_nat (length (frames s)) < i + Z.of_nat n ->
  (forall g, 0 <= g < nframes s -> frame_status s g = Some true) ->
  scan_words n num i s = Err (OutOfBounds (Z.of_nat (length (frames s)))).
Proof.
  revert i. induction n as [|n IH]; intros i Hi Hl Hn Hall; [lia |]. cbn [scan_words].
  destruct (frames s !! Z.to_nat i) as [w|] eqn:Hw.
  - rewrite (bind_ok _ _ _ _ _ (frames_at_ok _ _ _ Hw)). apply lookup_lt_Some in Hw as Hlt.
    assert (Next : scan_words n num (i + 1) s = Err (OutOfBounds (Z.of_nat (length (frames s))))).
    { apply IH; [lia | lia | lia | done]. }
    destruct (w =? 0xffffffff); cbn [negb]; [exact Next |].
    rewrite (bind_ok _ _ _ _ _ (scan_bits_skip 32 num i 0 w Hi ltac:(lia) ltac:(lia) Hw
               ltac:(intros g Hg; left; apply Hall; rewrite (bo_len _ s_ok); lia))). exact Next.
  - apply lookup_ge_None in Hw. assert (i = Z.of_nat (length (frames s))) as -> by lia.
    apply bind_err. unfold frames_at. by rewrite lookup_ge_None_2 by lia.
Qed.

Lemma first_free_exhausted num :
  0 < num -> 0 < nframes s -> (forall g, 0 <= g < nframes s -> frame_status s g = Some true) ->
  first_free_frames num s = Err (OutOfBounds (nframes s / 32)).
Proof.
  intros Hnum Hn Hall. unfold first_free_frames. replace (num =? 0) with false by (symmetry; lia).
  rewrite (bind_ok _ _ s (nframes s) s) by done. apply bind_err.
  assert (L := bo_len _ s_ok).
  rewrite scan_words_full by (done || lia). do 2 f_equal. Z.div_mod_to_equations. lia.
Qed.
End search.

(** ** Lemmas: counting, and the initial bitmap *)

Lemma count_word_ok s n i j c w :
  frames s !! Z.to_nat i = Some w -> exists c', count_word n i j c s = Ok (c', s).
Proof.
  intros Hw. revert j c. induction n as [|n IH]; intros j c; cbn [count_word]; [eauto |].
  rewrite (bind_ok _ _ _ _ _ (frames_at_ok _ _ _ Hw)). apply IH.
Qed.

Lemma count_word_out s n i j c :
  frames s !! Z.to_nat i = None -> count_word (S n) i j c s = Err (OutOfBounds i).
Proof. intros Hw. apply bind_err. unfold frames_at. by rewrite Hw. Qed.

Lemma count_words_out s n i c :
  0 <= i <= Z.of_nat (length (frames s)) -> Z.of_nat (length (frames s)) < i + Z.of_nat n ->
  count_words n i c s = Err (OutOfBounds (Z.of_nat (length (frames s)))).
Proof.
  revert i c. induction n as [|n IH]; intros i c Hi Hn; [lia |]. cbn [count_words].
  destruct (frames s !! Z.to_nat i) as [w|] eqn:Hw.
  - destruct (count_word_ok s 32 i 0 c w Hw) as [c' Ec]. rewrite (bind_ok _ _ _ _ _ Ec).
    apply lookup_lt_Some in Hw. apply IH; lia.
  - apply lookup_ge_None in Hw. assert (i = Z.of_nat (length (frames s))) as -> by lia.
    apply bind_err, (count_word_out s 31). rewrite lookup_ge_None. lia.
Qed.

Lemma total_bits_zero n : total_bits (replicate n 0) = 0%nat.
Proof. induction n as [|n IH]; simpl; [done |]. by rewrite IH. Qed.

Lemma init_bitmap_ok mem_size :
  0 <= mem_size < 2 ^ 32 -> (mem_size / FRAME_SIZE) mod 32 = 0 -> bitmap_ok (init_bitmap mem_size).
Proof.
  intros Hm H32. split; simpl; unfold FRAME_SIZE in *.
  - by apply Forall_replicate.
  - rewrite length_replicate. Z.div_mod_to_equations. lia.
  - Z.div_mod_to_equations. lia.
  - unfold popcount. simpl. by rewrite total_bits_zero.
Qed.

Lemma init_bitmap_free mem_size f :
  0 <= mem_size < 2 ^ 32 -> (mem_size / FRAME_SIZE) mod 32 = 0 -> 0 <= f < mem_size / FRAME_SIZE ->
  frame_status (init_bitmap mem_size) f = Some false.
Proof.
  unfold FRAME_SIZE. intros Hm H32 Hf. unfold frame_status, init_bitmap, FRAME_SIZE. simpl.
  rewrite lookup_replicate_2 by (Z.div_mod_to_equations; lia). simpl. by rewrite Z.bits_0.
Qed.

(** ** Lemmas: a free frame exists when not all are in use *)

Lemma filter_all (P : Z -> bool) (l : list Z) :
  Forall (fun j => P j = true) l -> length (filter (fun j => P j = true) l) = length l.
Proof.
  induction 1 as [|x l Hx _ IH]; [done |]. rewrite filter_cons, decide_True by done. simpl. by rewrite IH.
Qed.

Lemma total_bits_missing l :
  (total_bits l < 32 * length l)%nat -> exists i w j, l !! i = Some w /\ 0 <= j < 32 /\ Z.testbit w j = false.
Proof.
  induction l as [|w l IH]; simpl; [lia |]. intros Hlt.
  destruct (decide (Forall (fun j => Z.testbit w j = true) (seqZ 0 32))) as [F|F].
  - destruct IH as (i & w' & j & Hi & Hj); [| by exists (S i), w', j].
    assert (bits w = 32%nat) by (unfold bits; by rewrite filter_all). lia.
  - apply not_Forall_Exists in F; [| apply _]. apply Exists_exists in F as (j & Hj & Hb).
    apply elem_of_seqZ in Hj. exists 0%nat, w, j. split_and!; try done; try lia.
    by apply not_true_is_false.
Qed.

Lemma free_frame_exists s :
  bitmap_ok s -> used_frames s < nframes s -> exists f, 0 <= f /\ frame_status s f = Some false.
Proof.
  intros Ok Hlt. rewrite (bo_used _ Ok), (bo_len _ Ok) in Hlt. unfold popcount in Hlt.
  destruct (total_bits_missing (frames s)) as (i & w & j & Hw & Hj & Hb); [lia |].
  exists (Z.of_nat i * 32 + j). split; [lia |]. rewrite <- Hb.
  apply (status_word s (Z.of_nat i) j w); [lia | done | by rewrite Nat2Z.id].
Qed.

(** The lowest free frame. *)
Definition first_free (b : bitmap) (f : Z) : Prop :=
  0 <= f /\ frame_status b f = Some false /\ forall g, 0 <= g < f -> frame_status b g = Some true.

Lemma first_free_exists s : bitmap_ok s -> used_frames s < nframes s -> exists f, first_free s f.
Proof.
  intros Ok Hlt. destruct (free_frame_exists s Ok Hlt) as (f & Hf & Hs).
  revert Hs. pattern f. revert f Hf. apply Zlt_0_ind. intros f IH Hf Hs.
  destruct (decide (Exists (fun g => frame_status s g = Some false) (seqZ 0 f))) as [Ex|Nex].
  - apply Exists_exists in Ex as (g & Hg & Hgs). apply elem_of_seqZ in Hg. apply (IH g); [lia | done].
  - exists f. split; [done |]. split; [done |]. intros g Hg.
    destruct (status_some s Ok g) as [[] Hst]; [pose proof (status_range s Ok f _ Hf Hs); lia | done |].
    exfalso. apply Nex, Exists_exists. exists g. split; [apply elem_of_seqZ; lia | done].
Qed.
