(* ===== verification/Paging.v ===== *)
(** Page tables and page directories: the second part of paging.c.

    Page tables and directories are objects at page-aligned addresses of the
    kernel, kept in two stores, so that two directories that share a table share
    one object. A [pte_t *] is the address of a four-byte entry inside a table.
    The physical allocator kmalloc_ap, which paging.c takes from kheap.c, is a
    parameter with an interface; [placement_ap] is the implementation that
    paging_finalize runs with, before the heap exists. Messages to the log are
    not part of the state. *)

From S2P Require Import Prelude Frames.

(** ** Entries *)

(** [pte_t]: the bit fields in order. *)
Record pte_t : Type := Pte {
  p_present : Z;
  p_read_write : Z;
  p_user_supervisor : Z;
  p_write_through : Z;
  p_cache_disabled : Z;
  p_accessed : Z;
  p_dirty : Z;
  p_pt_attr_index : Z;
  p_global_page : Z;
  p_available : Z;
  p_frame : Z
}.

(** [pde_t] *)
Record pde_t : Type := Pde {
  d_present : Z;
  d_read_write : Z;
  d_user_supervisor : Z;
  d_write_through : Z;
  d_cache_disabled : Z;
  d_accessed : Z;
  d_reserved : Z;
  d_page_size : Z;
  d_global_page : Z;
  d_available : Z;
  d_page_table_base : Z
}.

Definition zero_pte : pte_t := Pte 0 0 0 0 0 0 0 0 0 0 0.
Definition zero_pde : pde_t := Pde 0 0 0 0 0 0 0 0 0 0 0.

(** [page->present = a; page->read_write = b; page->user_supervisor = c] *)
Definition set_flags (a b c : Z) (e : pte_t) : pte_t :=
  Pte a b c (p_write_through e) (p_cache_disabled e) (p_accessed e) (p_dirty e)
    (p_pt_attr_index e) (p_global_page e) (p_available e) (p_frame e).

Definition set_present (a : Z) (e : pte_t) : pte_t :=
  set_flags a (p_read_write e) (p_user_supervisor e) e.

(** [page->frame = f]: a field of 20 bits. *)
Definition set_pframe (f : Z) (e : pte_t) : pte_t :=
  Pte (p_present e) (p_read_write e) (p_user_supervisor e) (p_write_through e)
    (p_cache_disabled e) (p_accessed e) (p_dirty e) (p_pt_attr_index e) (p_global_page e)
    (p_available e) (f mod 2 ^ 20).

Definition set_pde_base (b : Z) (e : pde_t) : pde_t :=
  Pde (d_present e) (d_read_write e) (d_user_supervisor e) (d_write_through e)
    (d_cache_disabled e) (d_accessed e) (d_reserved e) (d_page_size e) (d_global_page e)
    (d_available e) (b mod 2 ^ 20).

(** The entry that get_page writes for a new table. *)
Definition map_table (phys : Z) (e : pde_t) : pde_t :=
  Pde 1 1 1 (d_write_through e) (d_cache_disabled e) (d_accessed e) (d_reserved e)
    (d_page_size e) (d_global_page e) (d_available e) (Z.shiftr phys 12 mod 2 ^ 20).

(** ** Directories *)

Record page_dir : Type := PageDir {
  entries : list pde_t;
  entries_phys_addr : Z;
  tables : list Z
}.

Definition zero_dir : page_dir := PageDir (replicate 1024 zero_pde) 0 (replicate 1024 0).
Definition zero_table : list pte_t := replicate 1024 zero_pte.

(** sizeof(page_table_t), sizeof(page_dir_t) *)
Definition PAGE_TABLE_SIZE : Z := 4096.
Definition PAGE_DIR_SIZE : Z := 8196.

Record pg : Type := Pg {
  bm : bitmap;
  dirs : gmap Z page_dir;
  ptables : gmap Z (list pte_t);
  current_directory : Z;
  kernel_directory : Z;
  placement_address : Z;
  cr3 : Z
}.

Definition set_bm (b : bitmap) (s : pg) : pg :=
  Pg b (dirs s) (ptables s) (current_directory s) (kernel_directory s) (placement_address s) (cr3 s).
Definition set_dirs (d : gmap Z page_dir) (s : pg) : pg :=
  Pg (bm s) d (ptables s) (current_directory s) (kernel_directory s) (placement_address s) (cr3 s).
Definition set_ptables (t : gmap Z (list pte_t)) (s : pg) : pg :=
  Pg (bm s) (dirs s) t (current_directory s) (kernel_directory s) (placement_address s) (cr3 s).
Definition set_placement (p : Z) (s : pg) : pg :=
  Pg (bm s) (dirs s) (ptables s) (current_directory s) (kernel_directory s) p (cr3 s).
Definition set_kernel_directory (d : Z) (s : pg) : pg :=
  Pg (bm s) (dirs s) (ptables s) (current_directory s) d (placement_address s) (cr3 s).

(** The bitmap operations on the larger state. *)
Definition on_bm {A} (c : M bitmap A) : M pg A := zoom bm set_bm c.

(** Reading and writing through pointers. *)
Definition load_dir (dir : Z) : M pg page_dir := fun s =>
  match dirs s !! dir with Some d => Ok (d, s) | None => Err (Fault dir) end.
Definition store_dir (dir : Z) (d : page_dir) : M pg unit :=
  modify (fun s => set_dirs (<[dir := d]> (dirs s)) s).

Definition table_of (page : Z) : Z := page - page mod 4096.
Definition index_of (page : Z) : nat := Z.to_nat (page mod 4096 / 4).

Definition load_pte (page : Z) : M pg pte_t := fun s =>
  match ptables s !! table_of page ≫= (fun t => t !! index_of page) with
  | Some e => Ok (e, s)
  | None => Err (Fault page)
  end.
Definition store_pte (page : Z) (e : pte_t) : M pg unit := fun s =>
  match ptables s !! table_of page with
  | Some t => Ok (tt, set_ptables (<[table_of page := <[index_of page := e]> t]> (ptables s)) s)
  | None => Err (Fault page)
  end.

Definition PAGE_DIRECTORY_INDEX (virt : Z) : Z := Z.land (Z.shiftr virt 22) 0x3ff.
Definition PAGE_TABLE_INDEX (virt : Z) : Z := Z.land (Z.shiftr virt 12) 0x3ff.

(** ** Pages *)

Definition flag (b : Z) : Z := if b =? 0 then 0 else 1.
Definition nflag (b : Z) : Z := if b =? 0 then 1 else 0.

Definition alloc_page (page is_kernel is_writeable : Z) : M pg unit :=
  e ← load_pte page;
  if negb (p_frame e =? 0) then
    store_pte page (set_flags 1 (flag is_writeable) (nflag is_kernel) e)
  else
    f ← on_bm first_free_frame;
    if f =? -1 then mret tt
    else
      on_bm (set_frame f);;
      store_pte page (set_flags 1 (flag is_writeable) (nflag is_kernel) (set_pframe f e)).

Definition map_page (page is_kernel is_writeable phys : Z) : M pg unit :=
  let f := phys / FRAME_SIZE in
  e ← load_pte page;
  store_pte page (set_pframe f (set_flags 1 (flag is_writeable) (nflag is_kernel) e));;
  n ← gets (fun s => nframes (bm s));
  when (f <? n) (on_bm (set_frame f)).

Definition free_page (page : Z) : M pg unit :=
  e ← load_pte page;
  when (negb (p_frame e =? 0)) (on_bm (clear_frame (p_frame e)));;
  store_pte page (set_pframe 0 (set_present 0 e)).

(** switch_page_directory: returns the previous content of cr3. *)
Definition switch_page_directory (dir : Z) : M pg Z :=
  if dir =? 0 then mret 0
  else
    modify (fun s => Pg (bm s) (dirs s) (ptables s) dir (kernel_directory s) (placement_address s) (cr3 s));;
    old ← gets cr3;
    d ← load_dir dir;
    modify (fun s => Pg (bm s) (dirs s) (ptables s) (current_directory s) (kernel_directory s)
                       (placement_address s) (entries_phys_addr d));;
    mret old.

Section allocator.
(** kmalloc_ap(size, &phys): the address and the physical address. *)
Variable kmalloc_ap : Z -> M pg (Z * Z).

Definition get_page (virt make dir : Z) : M pg Z :=
  assert (negb (dir =? 0));;
  let dir_idx := Z.to_nat (PAGE_DIRECTORY_INDEX virt) in
  let slot t := t + 4 * PAGE_TABLE_INDEX virt in
  d ← load_dir dir;
  let t := default 0 (tables d !! dir_idx) in
  if negb (t =? 0) then mret (slot t)
  else if negb (make =? 0) then
    '(t, phys) ← kmalloc_ap PAGE_TABLE_SIZE;
    modify (fun s => set_ptables (<[t := zero_table]> (ptables s)) s);;
    d ← load_dir dir;
    store_dir dir (PageDir (alter (map_table phys) dir_idx (entries d)) (entries_phys_addr d)
                     (<[dir_idx := t]> (tables d)));;
    mret (slot t)
  else mret 0.

(** [for (; virt < 0xfffff000; virt += FRAME_SIZE)]; [n] iterations are left. *)
Fixpoint prealloc_tables (n : nat) (virt dir : Z) : M pg unit :=
  match n with
  | O => mret tt
  | S n => get_page virt 1 dir;; prealloc_tables n (u32 (virt + FRAME_SIZE)) dir
  end.

(** [while (virt < placement_address)] *)
Fixpoint map_kernel (fuel : nat) (virt phys : Z) : M pg unit :=
  match fuel with
  | O => throw Hang
  | S fuel =>
      p ← gets placement_address;
      if virt <? p then
        dir ← gets kernel_directory;
        page ← get_page virt 1 dir;
        map_page page 0 0 phys;;
        map_kernel fuel (u32 (virt + FRAME_SIZE)) (u32 (phys + FRAME_SIZE))
      else mret tt
  end.

(** The loop that allocates the pages of the heap; [n] iterations are left. *)
Fixpoint alloc_heap_pages (n : nat) (virt : Z) : M pg unit :=
  match n with
  | O => mret tt
  | S n =>
      dir ← gets kernel_directory;
      page ← get_page virt 1 dir;
      alloc_page page 0 1;;
      alloc_heap_pages n (u32 (virt + FRAME_SIZE))
  end.

(** paging_finalize up to the registration of the fault handler. *)
Definition finalize_tables (fuel : nat) (kernel_voffset : Z) : M pg unit :=
  on_bm (set_frame 0);;
  '(kd, phys) ← kmalloc_ap PAGE_DIR_SIZE;
  modify (fun s => set_kernel_directory kd (set_dirs (<[kd := zero_dir]> (dirs s)) s));;
  d ← load_dir kd;
  store_dir kd (PageDir (entries d) phys (tables d));;
  prealloc_tables (Z.to_nat ((0xfffff000 - kernel_voffset + 4095) / 4096)) kernel_voffset kd;;
  map_kernel fuel kernel_voffset 0.

(** The two loops of clone_page_directory. *)

(** copy_frame is not implemented: it stops the kernel. *)
Definition copy_frame (src dst : Z) : M pg unit := throw Stopped.

Fixpoint clone_pages (n : nat) (i : Z) (table clone : Z) : M pg unit :=
  match n with
  | O => mret tt
  | S n =>
      e ← load_pte (table + 4 * i);
      when (negb (p_frame e =? 0))
        (alloc_page (clone + 4 * i) 0 0;;
         c ← load_pte (clone + 4 * i);
         store_pte (clone + 4 * i) (set_pframe (p_frame c) e);;
         copy_frame (u32 (p_frame e * FRAME_SIZE)) (u32 (p_frame c * FRAME_SIZE)));;
      clone_pages n (i + 1) table clone
  end.

Definition clone_page_table (table : Z) : M pg (Z * Z) :=
  '(clone, phys) ← kmalloc_ap PAGE_TABLE_SIZE;
  modify (fun s => set_ptables (<[clone := zero_table]> (ptables s)) s);;
  clone_pages 1024 0 table clone;;
  mret (clone, phys).

Fixpoint clone_tables (n : nat) (i : nat) (dir clone : Z) : M pg unit :=
  match n with
  | O => mret tt
  | S n =>
      d ← load_dir dir;
      let t := default 0 (tables d !! i) in
      let e := default zero_pde (entries d !! i) in
      (if t =? 0 then mret tt
       else
         kd ← gets kernel_directory;
         k ← load_dir kd;
         if default 0 (tables k !! i) =? t then
           c ← load_dir clone;
           store_dir clone (PageDir (<[i := e]> (entries c)) (entries_phys_addr c) (<[i := t]> (tables c)))
         else
           '(t', phys) ← clone_page_table t;
           c ← load_dir clone;
           store_dir clone (PageDir (<[i := set_pde_base (Z.shiftr phys 12) e]> (entries c))
                              (entries_phys_addr c) (<[i := t']> (tables c))));;
      clone_tables n (S i) dir clone
  end.

Definition clone_page_directory (dir : Z) : M pg Z :=
  '(clone, phys) ← kmalloc_ap PAGE_DIR_SIZE;
  modify (fun s => set_dirs (<[clone := zero_dir]> (dirs s)) s);;
  c ← load_dir clone;
  store_dir clone (PageDir (entries c) phys (tables c));;
  clone_tables 1024 0 dir clone;;
  mret clone.
End allocator.

(** kmalloc_int of kheap.c while there is no heap: the addresses from
    [placement_address] on, rounded up to a page. *)
Definition placement_ap (kernel_voffset : Z) (size : Z) : M pg (Z * Z) :=
  p ← gets placement_address;
  let p := if p mod FRAME_SIZE =? 0 then p else u32 (p - p mod FRAME_SIZE + FRAME_SIZE) in
  modify (set_placement (u32 (p + size)));;
  mret (p, u32 (p - kernel_voffset)).

(** page_fault's reading of the error code. *)
Record fault_info : Type := FaultInfo {
  f_not_present : bool;
  f_write : bool;
  f_user : bool;
  f_reserved : bool;
  f_fetch : bool
}.

Definition page_fault_info (err_code : Z) : fault_info :=
  FaultInfo (Z.land err_code (Z.shiftl 1 0) =? 0) (negb (Z.land err_code (Z.shiftl 1 1) =? 0))
    (negb (Z.land err_code (Z.shiftl 1 2) =? 0)) (negb (Z.land err_code (Z.shiftl 1 3) =? 0))
    (negb (Z.land err_code (Z.shiftl 1 4) =? 0)).

(** page_fault reports the fault and stops. *)
Definition page_fault (err_code : Z) : M pg unit :=
  let _ := page_fault_info err_code in throw Stopped.

(** ** The interface of the page allocator

    An allocation returns a new page-aligned object and changes only the
    allocator's own state; [room r s] says that [r] more bytes are left. *)
Class PageAllocator (kmalloc_ap : Z -> M pg (Z * Z)) (phys_of : Z -> Z) (room : Z -> pg -> Prop) : Prop := {
  kmalloc_ok : forall r size s, room r s -> 0 < size -> size + 4096 <= r ->
    exists a p, kmalloc_ap size s = Ok ((a, phys_of a), set_placement p s) /\
      placement_address s <= p /\ 0 < a < 2 ^ 32 /\ a mod 4096 = 0 /\ dirs s !! a = None /\ ptables s !! a = None /\
      (forall s', placement_address s' = p ->
         (forall x, is_Some (dirs s' !! x) \/ is_Some (ptables s' !! x) ->
            x = a \/ is_Some (dirs s !! x) \/ is_Some (ptables s !! x)) ->
         room (r - size - 4096) s');
  room_same : forall r s s', room r s -> placement_address s' = placement_address s ->
    (forall x, is_Some (dirs s' !! x) \/ is_Some (ptables s' !! x) ->
       is_Some (dirs s !! x) \/ is_Some (ptables s !! x)) -> room r s';
  room_placement : forall r s, room r s -> placement_address s + r <= 2 ^ 32;
  phys_ok : forall a, a mod 4096 = 0 -> phys_of a mod 4096 = 0 /\ 0 <= phys_of a < 2 ^ 32
}.

(** ** Abstract views *)

(** The page table entry at a pointer. *)
Definition pte_at (s : pg) (page : Z) : option pte_t :=
  ptables s !! table_of page ≫= (fun t => t !! index_of page).

(** Where the walk of a directory ends. *)
Definition walk (s : pg) (dir virt : Z) : option Z :=
  match dirs s !! dir with
  | Some d =>
      match tables d !! Z.to_nat (PAGE_DIRECTORY_INDEX virt) with
      | Some t => if t =? 0 then None else Some (t + 4 * PAGE_TABLE_INDEX virt)
      | None => None
      end
  | None => None
  end.

(** The page of [virt] is present in a directory. *)
Definition visible (s : pg) (dir virt : Z) : bool :=
  match walk s dir virt with
  | Some p => match pte_at s p with Some e => p_present e =? 1 | None => false end
  | None => false
  end.

(** Two pointers to the same entry. *)
Definition same_entry (p q : Z) : Prop := table_of p = table_of q /\ index_of p = index_of q.

Record dir_ok (phys_of : Z -> Z) (s : pg) (d : page_dir) : Prop := {
  do_entries : length (entries d) = 1024%nat;
  do_tables : length (tables d) = 1024%nat;
  do_table : forall i t, tables d !! i = Some t -> t <> 0 -> is_Some (ptables s !! t);
  do_entry : forall i t e, tables d !! i = Some t -> entries d !! i = Some e ->
    if t =? 0 then d_present e = 0 else d_present e = 1 /\ d_page_table_base e * 4096 = phys_of t
}.

Record pg_ok (phys_of : Z -> Z) (s : pg) : Prop := {
  po_bm : bitmap_ok (bm s);
  po_tables : forall t l, ptables s !! t = Some l -> length l = 1024%nat /\ t mod 4096 = 0 /\ 0 < t < 2 ^ 32;
  po_dirs : forall a d, dirs s !! a = Some d -> dir_ok phys_of s d;
  po_range : forall page e, pte_at s page = Some e -> 0 <= p_frame e < 2 ^ 20;
  po_frames : forall page e, pte_at s page = Some e -> p_frame e <> 0 -> p_frame e < nframes (bm s) ->
    frame_status (bm s) (p_frame e) = Some true
}.
