(* ===== verification/PagingSpec.v ===== *)
(** Properties of the page tables: address arithmetic, pages, directories,
    the boot-time mapping, and cloning. *)

From S2P Require Import Prelude Frames Paging.

(** ** Virtual addresses *)

Lemma land_3ff z : Z.land z 0x3ff = z mod 1024.
Proof. change 0x3ff with (Z.ones 10). rewrite Z.land_ones by lia. done. Qed.

Lemma dir_index virt : 0 <= virt < 2 ^ 32 -> PAGE_DIRECTORY_INDEX virt = virt / 2 ^ 22.
Proof.
  intros H. unfold PAGE_DIRECTORY_INDEX. rewrite land_3ff, Z.shiftr_div_pow2 by lia.
  apply Z.mod_small. Z.div_mod_to_equations. lia.
Qed.

Lemma table_index virt : PAGE_TABLE_INDEX virt = (virt / 4096) mod 1024.
Proof. unfold PAGE_TABLE_INDEX. rewrite land_3ff, Z.shiftr_div_pow2 by lia. done. Qed.

Lemma dir_index_range virt : 0 <= virt -> 0 <= PAGE_DIRECTORY_INDEX virt < 1024.
Proof. intros. unfold PAGE_DIRECTORY_INDEX. rewrite land_3ff. apply Z.mod_pos_bound. lia. Qed.

Lemma table_index_range virt : 0 <= PAGE_TABLE_INDEX virt < 1024.
Proof. rewrite table_index. apply Z.mod_pos_bound. lia. Qed.

(** The three parts of an address. *)
Lemma virt_split virt :
  0 <= virt < 2 ^ 32 ->
  virt = PAGE_DIRECTORY_INDEX virt * 2 ^ 22 + PAGE_TABLE_INDEX virt * 2 ^ 12 + virt mod 4096.
Proof. intros. rewrite dir_index, table_index by done. Z.div_mod_to_equations. lia. Qed.

Lemma page_below v w : v mod 4096 = 0 -> w mod 4096 = 0 -> v < w + 4096 -> v <> w -> v < w.
Proof. intros. Z.div_mod_to_equations. lia. Qed.

(** A slot of a page table, taken apart again. *)
Lemma slot_table t i : t mod 4096 = 0 -> 0 <= i < 1024 -> table_of (t + 4 * i) = t.
Proof. intros. unfold table_of. Z.div_mod_to_equations. lia. Qed.

Lemma slot_index t i : t mod 4096 = 0 -> 0 <= i < 1024 -> index_of (t + 4 * i) = Z.to_nat i.
Proof. intros. unfold index_of. f_equal. Z.div_mod_to_equations. lia. Qed.

#[global] Instance same_entry_dec p q : Decision (same_entry p q).
Proof. unfold same_entry. apply _. Defined.

#[global] Instance same_entry_equiv : Equivalence same_entry.
Proof. split; red; unfold same_entry; naive_solver congruence. Qed.

(** ** Entries in the store *)

Section entries.
Context (phys_of : Z -> Z).
Implicit Types (s : pg) (page : Z) (e : pte_t).

Lemma load_pte_ok s page e : pte_at s page = Some e -> load_pte page s = Ok (e, s).
Proof. intros H. unfold load_pte, pte_at in *. by rewrite H. Qed.

(** Writing an entry changes that entry. *)
Lemma store_pte_ok s page e e' :
  pte_at s page = Some e ->
  exists T, store_pte page e' s = Ok (tt, set_ptables T s) /\
    (forall q, pte_at (set_ptables T s) q = if decide (same_entry q page) then Some e' else pte_at s q) /\
    (forall t, is_Some (T !! t) <-> is_Some (ptables s !! t)) /\
    (forall t l, T !! t = Some l -> exists l', ptables s !! t = Some l' /\ length l = length l').
Proof.
  unfold pte_at at 1. intros (t & Ht & He)%bind_Some. unfold store_pte. rewrite Ht.
  eexists. split; [done |]. assert (Hlt := lookup_lt_Some _ _ _ He). split; [| split].
  - intros q. unfold pte_at; simpl.
    destruct (decide (table_of q = table_of page)) as [Et|Et].
    + rewrite Et, lookup_insert_eq. simpl. destruct (decide (index_of q = index_of page)) as [E|E].
      * rewrite E, list_lookup_insert_eq by done. by rewrite decide_True by done.
      * rewrite list_lookup_insert_ne by done. rewrite decide_False by (intros []; done).
        by rewrite Ht.
    + rewrite lookup_insert_ne by done. by rewrite decide_False by (intros []; done).
  - intros q. rewrite lookup_insert. case_decide; subst; [rewrite Ht; split; eauto | done].
  - intros q l. rewrite lookup_insert. case_decide; subst; [| eauto].
    intros [= <-]. exists t. by rewrite length_insert.
Qed.

(** ... and keeps the invariant when its frame is marked. *)
Lemma store_pte_pg_ok s page e e' T :
  pg_ok phys_of s -> pte_at s page = Some e -> store_pte page e' s = Ok (tt, set_ptables T s) ->
  0 <= p_frame e' < 2 ^ 20 ->
  (p_frame e' <> 0 -> p_frame e' < nframes (bm s) -> frame_status (bm s) (p_frame e') = Some true) ->
  pg_ok phys_of (set_ptables T s).
Proof.
  intros [Ob Ot Od Or Of] He Hst Hr Hf. destruct (store_pte_ok s page e e' He) as (T' & Hst' & P & D & L).
  rewrite Hst in Hst'. assert (ET : set_ptables T s = set_ptables T' s) by congruence.
  rewrite ET. clear T Hst Hst' ET. split; simpl.
  - done.
  - intros t l Hl. destruct (L t l Hl) as (l' & Hl' & ->). by eapply Ot.
  - intros a d Hd. destruct (Od a d Hd) as [E1 E2 E3 E4]. split; [done | done | | done].
    intros i t Hi Ht. apply D. by eapply E3.
  - intros q eq Hq. rewrite P in Hq. case_decide; [simplify_eq; exact Hr | by eapply Or].
  - intros q eq Hq. rewrite P in Hq. case_decide; [simplify_eq; exact Hf | by eapply Of].
Qed.

(** Changing the bitmap keeps the invariant when no frame that a page uses is
    cleared. *)
Lemma set_bm_pg_ok s b :
  pg_ok phys_of s -> bitmap_ok b -> nframes b = nframes (bm s) ->
  (forall page e, pte_at s page = Some e -> p_frame e <> 0 ->
     frame_status (bm s) (p_frame e) = Some true -> frame_status b (p_frame e) = Some true) ->
  pg_ok phys_of (set_bm b s).
Proof.
  intros [Ob Ot Od Or Of] Hb Hn Hm. split; simpl; [done | done | | done |].
  - intros a d Hd. destruct (Od a d Hd) as [E1 E2 E3 E4]. by split.
  - intros page e He H0 Hlt. eapply Hm; eauto. eapply Of; eauto. lia.
Qed.

Lemma on_bm_ok {A} (c : M bitmap A) s a b : c (bm s) = Ok (a, b) -> on_bm c s = Ok (a, set_bm b s).
Proof. intros H. unfold on_bm, zoom. by rewrite H. Qed.

Lemma on_bm_read {A} (c : M bitmap A) s a : c (bm s) = Ok (a, bm s) -> on_bm c s = Ok (a, s).
Proof. intros H. rewrite (on_bm_ok _ _ _ _ H). by destruct s. Qed.

Lemma first_free_frame_ok b f : bitmap_ok b -> first_free b f -> first_free_frame b = Ok (f, b).
Proof.
  intros Hb (H0 & Hf & Hm). apply first_free_found; [done | lia | done | |].
  - intros k Hk. replace (f + k) with f by lia. done.
  - intros g Hg Hr. specialize (Hr 0 ltac:(lia)). rewrite Z.add_0_r, (Hm g Hg) in Hr. done.
Qed.

Lemma alloc_page_new s page e f k w :
  pg_ok phys_of s -> pte_at s page = Some e -> p_frame e = 0 -> first_free (bm s) f -> f <> 0 ->
  let e' := set_flags 1 (flag w) (nflag k) (set_pframe f e) in
  exists s', alloc_page page k w s = Ok (tt, s') /\ pg_ok phys_of s' /\
    p_frame e' = f /\
    (forall q, pte_at s' q = if decide (same_entry q page) then Some e' else pte_at s q) /\
    (forall q eq, pte_at s q = Some eq -> p_frame eq <> f) /\
    marked f true (bm s) (bm s') /\ used_frames (bm s') = used_frames (bm s) + 1 /\ dirs s' = dirs s /\ placement_address s' = placement_address s /\
    kernel_directory s' = kernel_directory s /\ current_directory s' = current_directory s /\ cr3 s' = cr3 s /\
    (forall t, is_Some (ptables s' !! t) <-> is_Some (ptables s !! t)).
Proof.
  intros Ok He H0 Hff Hf0 e'. assert (Ob := po_bm _ _ Ok). assert (Hff' := Hff).
  destruct Hff' as (Hf & Hfree & _).
  assert (Hlt := status_range _ Ob f _ Hf Hfree). assert (Hmax := bo_max _ Ob).
  assert (Ef : p_frame e' = f) by (apply Z.mod_small; lia).
  destruct (set_frame_ok _ _ _ Ob Hf Hfree) as (b & Hset & Hb & Hmk & Hu).
  destruct (store_pte_ok (set_bm b s) page e e' He) as (T & Hst & P & D & L).
  exists (set_ptables T (set_bm b s)). split_and!; try done.
  - unfold alloc_page. rewrite (bind_ok _ _ _ _ _ (load_pte_ok _ _ _ He)), H0. simpl.
    rewrite (bind_ok _ _ _ _ _ (on_bm_read _ _ _ (first_free_frame_ok _ _ Ob Hff))).
    replace (f =? -1) with false by (symmetry; lia).
    rewrite (bind_ok _ _ _ _ _ (on_bm_ok _ _ _ _ Hset)). exact Hst.
  - eapply store_pte_pg_ok; [| exact He | exact Hst | |].
    + apply set_bm_pg_ok; [done | done | by apply Hmk |]. intros q eq Hq Hn Hs.
      destruct (decide (p_frame eq = f)) as [->|Hne]; [apply Hmk |].
      rewrite (mk_other _ _ _ _ Hmk); [done | by eapply po_range | done].
    + rewrite Ef. lia.
    + intros _ _. rewrite Ef. apply Hmk.
  - intros q eq Hq Hbad. assert (Hs := po_frames _ _ Ok q eq Hq). rewrite Hbad in Hs.
    rewrite Hs in Hfree; [done | done | lia].
Qed.

(** What a change of one entry leaves alone. *)
Record only_entry (page : Z) (e' : pte_t) (s s' : pg) : Prop := {
  oe_pte : forall q, pte_at s' q = if decide (same_entry q page) then Some e' else pte_at s q;
  oe_dirs : dirs s' = dirs s;
  oe_kernel : kernel_directory s' = kernel_directory s;
  oe_placement : placement_address s' = placement_address s;
  oe_current : current_directory s' = current_directory s /\ cr3 s' = cr3 s;
  oe_tables : forall t, is_Some (ptables s' !! t) <-> is_Some (ptables s !! t)
}.

Lemma map_page_ok s page e k w phys :
  pg_ok phys_of s -> pte_at s page = Some e -> 0 <= phys < 2 ^ 32 ->
  let f := phys / FRAME_SIZE in
  let e' := set_pframe f (set_flags 1 (flag w) (nflag k) e) in
  exists s', map_page page k w phys s = Ok (tt, s') /\ pg_ok phys_of s' /\ p_frame e' = f /\
    only_entry page e' s s' /\ used_frames (bm s') <= used_frames (bm s) + 1 /\
    if f <? nframes (bm s) then marked f true (bm s) (bm s') else bm s' = bm s.
Proof.
  intros Ok He Hp f e'. assert (Ob := po_bm _ _ Ok). unfold FRAME_SIZE in f.
  assert (Hf : 0 <= f < 2 ^ 20) by (unfold f; Z.div_mod_to_equations; lia).
  assert (Ef : p_frame e' = f) by (apply Z.mod_small; lia).
  destruct (store_pte_ok s page e e' He) as (T & Hst & P & D & L).
  assert (Run : map_page page k w phys s =
    (when (f <? nframes (bm s)) (on_bm (set_frame f))) (set_ptables T s)).
  { unfold map_page. fold e' f. rewrite (bind_ok _ _ _ _ _ (load_pte_ok _ _ _ He)).
    by rewrite (bind_ok _ _ _ _ _ Hst). }
  rewrite Run. destruct (Z.ltb_spec f (nframes (bm s))) as [Hlt|Hge]; simpl.
  - destruct (status_some _ Ob f ltac:(lia)) as [b0 Hb0].
    destruct (set_frame_ok _ _ _ Ob (proj1 Hf) Hb0) as (b & Hset & Hb & Hmk & Hu).
    exists (set_ptables T (set_bm b s)). split_and!; try done.
    + exact (on_bm_ok (set_frame f) (set_ptables T s) tt b Hset).
    + assert (Hst2 : store_pte page e' (set_bm b s) = Prelude.Ok (tt, set_ptables T (set_bm b s))).
      { revert Hst. unfold store_pte. simpl. destruct (ptables s !! table_of page); [| done].
        intros H. assert (T = <[table_of page:=<[index_of page:=e']> l]> (ptables s)) as ->; [| done].
        by injection H. }
      eapply store_pte_pg_ok; [| exact He | exact Hst2 | by rewrite Ef |].
      * apply set_bm_pg_ok; [done | done | by apply Hmk |]. intros q eq Hq Hn Hs.
        destruct (decide (p_frame eq = f)) as [->|Hne]; [apply Hmk |].
        rewrite (mk_other _ _ _ _ Hmk); [done | by eapply po_range | done].
      * intros _ _. rewrite Ef. apply Hmk.
    + cbn [bm set_ptables set_bm]. rewrite Hu. destruct b0; lia.
  - exists (set_ptables T s). split_and!; try done; [| cbn [bm set_ptables]; lia].
    eapply store_pte_pg_ok; [done | exact He | exact Hst | by rewrite Ef |]. rewrite Ef. lia.
Qed.

Lemma free_page_leak s page e :
  pg_ok phys_of s -> pte_at s page = Some e -> p_frame e < nframes (bm s) -> p_frame e mod 32 <> 0 ->
  exists s', free_page page s = Ok (tt, s') /\ pg_ok phys_of s' /\ bm s' = bm s /\
    frame_status (bm s') (p_frame e) = Some true /\
    only_entry page (set_pframe 0 (set_present 0 e)) s s'.
Proof.
  intros Ok He Hlt Hmod. set (e' := set_pframe 0 (set_present 0 e)).
  destruct (store_pte_ok s page e e' He) as (T & Hst & P & D & L).
  assert (H0 : p_frame e <> 0) by (intros E; by rewrite E in Hmod).
  assert (Hs := po_frames _ _ Ok page e He H0 Hlt).
  exists (set_ptables T s). split_and!; try done.
  - unfold free_page. rewrite (bind_ok _ _ _ _ _ (load_pte_ok _ _ _ He)).
    rewrite (proj2 (Z.eqb_neq _ _) H0). simpl.
    rewrite (bind_ok _ _ _ _ _ (on_bm_read _ _ _ (clear_frame_stuck _ _ _ (or_introl Hmod) Hs))).
    exact Hst.
  - eapply store_pte_pg_ok; [done | exact He | exact Hst | apply Z.mod_pos_bound; lia | done].
Qed.
End entries.

(** ** Walking and creating tables *)

Section walking.
Context (kmalloc_ap : Z -> M pg (Z * Z)) (phys_of : Z -> Z) (room : Z -> pg -> Prop).
Context `{PA : !PageAllocator kmalloc_ap phys_of room}.
Implicit Types (s : pg) (virt dir : Z).

Lemma load_dir_ok s dir d : dirs s !! dir = Some d -> load_dir dir s = Ok (d, s).
Proof. intros H. unfold load_dir. by rewrite H. Qed.

Lemma get_page_walk s virt make dir p :
  dir <> 0 -> walk s dir virt = Some p -> get_page kmalloc_ap virt make dir s = Ok (p, s).
Proof.
  intros Hd Hw. unfold walk in Hw. destruct (dirs s !! dir) as [d|] eqn:Hdir; [| done].
  destruct (tables d !! _) as [t|] eqn:Ht; [| done].
  unfold get_page. rewrite (proj2 (Z.eqb_neq _ _) Hd).
  rewrite (bind_ok (assert (negb false)) _ s tt s) by done. rewrite (bind_ok _ _ _ _ _ (load_dir_ok _ _ _ Hdir)), Ht.
  cbn [from_option id]. destruct (t =? 0); cbn [negb]; simplify_eq; done.
Qed.

Lemma get_page_none s virt dir d :
  dir <> 0 -> dirs s !! dir = Some d -> walk s dir virt = None ->
  get_page kmalloc_ap virt 0 dir s = Ok (0, s).
Proof.
  intros Hd Hdir Hw. unfold walk in Hw. rewrite Hdir in Hw.
  unfold get_page. rewrite (proj2 (Z.eqb_neq _ _) Hd).
  rewrite (bind_ok (assert (negb false)) _ s tt s) by done. rewrite (bind_ok _ _ _ _ _ (load_dir_ok _ _ _ Hdir)).
  destruct (tables d !! Z.to_nat (PAGE_DIRECTORY_INDEX virt)) as [t|]; cbn [from_option id]; [| done].
  by destruct (t =? 0).
Qed.

(** What the creation of a table keeps: every walk and every entry. *)
Record extends s s' : Prop := {
  ex_walk : forall dir virt p, walk s dir virt = Some p -> walk s' dir virt = Some p;
  ex_pte : forall q e, pte_at s q = Some e -> pte_at s' q = Some e;
  ex_new : forall q e, pte_at s' q = Some e -> pte_at s q = Some e \/ e = zero_pte;
  ex_bm : bm s' = bm s;
  ex_dirs : forall a, is_Some (dirs s !! a) -> is_Some (dirs s' !! a);
  ex_kernel : kernel_directory s' = kernel_directory s;
  ex_placement : placement_address s <= placement_address s'
}.

#[local] Instance extends_preorder : PreOrder extends.
Proof.
  split; [split; auto; reflexivity |]. intros s1 s2 s3 [W1 P1 N1 B1 D1 K1 L1] [W2 P2 N2 B2 D2 K2 L2].
  split; eauto; try congruence; try lia. intros q e Hq. destruct (N2 q e Hq); auto.
Qed.

(** The page directory with a new table in it. *)
Lemma dir_ok_new s d i t phys s' :
  dir_ok phys_of s d -> (i < 1024)%nat -> 0 < t -> t mod 4096 = 0 ->
  phys = phys_of t ->
  (forall x, is_Some (ptables s !! x) -> is_Some (ptables s' !! x)) -> is_Some (ptables s' !! t) ->
  dir_ok phys_of s' (PageDir (alter (map_table phys) i (entries d)) (entries_phys_addr d) (<[i := t]> (tables d))).
Proof.
  intros [E1 E2 E3 E4] Hi Ht Htm -> Hsub Hnew. destruct (PA.(phys_ok kmalloc_ap phys_of room) t Htm) as [Pm Pr].
  split; simpl.
  - by rewrite length_alter.
  - by rewrite length_insert.
  - intros j u Hj Hu. destruct (decide (j = i)) as [->|Hne].
    + rewrite list_lookup_insert_eq in Hj by lia. by simplify_eq.
    + rewrite list_lookup_insert_ne in Hj by done. eauto.
  - intros j u e Hj He. destruct (decide (j = i)) as [->|Hne].
    + rewrite list_lookup_insert_eq in Hj by lia. rewrite list_lookup_alter_eq in He.
      apply fmap_Some in He as (e0 & _ & ->). simplify_eq.
      rewrite (proj2 (Z.eqb_neq _ _)) by lia. simpl. split; [done |].
      rewrite Z.shiftr_div_pow2 by lia. rewrite Z.mod_small; Z.div_mod_to_equations; lia.
    + rewrite list_lookup_insert_ne in Hj by done. rewrite list_lookup_alter_ne in He by done.
      exact (E4 j u e Hj He).
Qed.

Lemma dir_ok_more s s' d :
  dir_ok phys_of s d -> (forall x, is_Some (ptables s !! x) -> is_Some (ptables s' !! x)) -> dir_ok phys_of s' d.
Proof. intros [E1 E2 E3 E4] Hsub. split; [done | done | | done]. eauto. Qed.

Lemma zero_table_lookup i e : zero_table !! i = Some e -> e = zero_pte.
Proof. unfold zero_table. by intros [? _]%lookup_replicate. Qed.

(** A new table, at an address where there was none. *)
Lemma pte_at_new s t q :
  ptables s !! t = None ->
  pte_at (set_ptables (<[t := zero_table]> (ptables s)) s) q =
  if decide (table_of q = t) then zero_table !! index_of q else pte_at s q.
Proof.
  intros Ht. unfold pte_at. cbn [ptables set_ptables]. case_decide as D.
  - rewrite D, lookup_insert_eq. done.
  - by rewrite lookup_insert_ne.
Qed.

Lemma pte_at_new_extends s t q e :
  ptables s !! t = None -> pte_at s q = Some e ->
  pte_at (set_ptables (<[t := zero_table]> (ptables s)) s) q = Some e.
Proof.
  intros Ht Hq. rewrite pte_at_new by done. case_decide as D; [| done].
  unfold pte_at in Hq. rewrite D, Ht in Hq. done.
Qed.

(** The slot of an address in a new table. *)
Lemma pte_at_slot s t virt :
  ptables s !! t = None -> t mod 4096 = 0 ->
  pte_at (set_ptables (<[t := zero_table]> (ptables s)) s) (t + 4 * PAGE_TABLE_INDEX virt) = Some zero_pte.
Proof.
  intros Ht Hm. pose proof (table_index_range virt).
  rewrite pte_at_new, slot_table, slot_index, decide_True by done.
  unfold zero_table. apply lookup_replicate_2. lia.
Qed.

Lemma get_page_create s virt dir d r :
  pg_ok phys_of s -> room r s -> 8192 <= r -> 0 <= virt -> dir <> 0 -> dirs s !! dir = Some d ->
  walk s dir virt = None ->
  exists p s', get_page kmalloc_ap virt 1 dir s = Ok (p, s') /\ pg_ok phys_of s' /\ extends s s' /\
    walk s' dir virt = Some p /\ pte_at s' p = Some zero_pte /\ room (r - 8192) s' /\
    exists t d', 0 < t /\ ptables s !! t = None /\ dirs s' = <[dir := d']> (dirs s) /\
      tables d' = <[Z.to_nat (PAGE_DIRECTORY_INDEX virt) := t]> (tables d).
Proof.
  intros Ok Rm Hr Hv Hd Hdir Hw. assert (Hw' := Hw). unfold walk in Hw'. rewrite Hdir in Hw'.
  set (i := Z.to_nat (PAGE_DIRECTORY_INDEX virt)) in *.
  assert (Hi : (i < 1024)%nat) by (pose proof (dir_index_range virt Hv); lia).
  assert (Od := po_dirs _ _ Ok dir d Hdir).
  destruct (lookup_lt_is_Some_2 (tables d) i) as [t0 Ht0]; [by rewrite (do_tables _ _ _ Od) |].
  rewrite Ht0 in Hw'. destruct (Z.eqb_spec t0 0) as [E0|]; [rewrite E0 in Ht0; clear Hw' E0 t0 | done].
  destruct (PA.(kmalloc_ok kmalloc_ap phys_of room) r PAGE_TABLE_SIZE s Rm) as
    (t & p & Hk & Hpl & Ht & Htm & Nd & Nt & Hroom); [done | unfold PAGE_TABLE_SIZE; lia |].
  set (d' := PageDir (alter (map_table (phys_of t)) i (entries d)) (entries_phys_addr d) (<[i := t]> (tables d))).
  set (s1 := set_ptables (<[t := zero_table]> (ptables s)) s).
  set (s' := set_placement p (set_dirs (<[dir := d']> (dirs s)) s1)).
  assert (Ntd : dir <> t) by (intros ->; congruence).
  assert (Sub : forall x, is_Some (ptables s !! x) -> is_Some (ptables s' !! x)).
  { intros x Hx. simpl. rewrite lookup_insert. case_decide; eauto. }
  exists (t + 4 * PAGE_TABLE_INDEX virt), s'. split_and!.
  - unfold get_page. rewrite (proj2 (Z.eqb_neq _ _) Hd).
    rewrite (bind_ok (assert (negb false)) _ s tt s) by done.
    rewrite (bind_ok _ _ _ _ _ (load_dir_ok _ _ _ Hdir)). fold i. rewrite Ht0. cbn [from_option id].
    change (negb (0 =? 0)) with false. change (negb (1 =? 0)) with true. cbn beta iota.
    rewrite (bind_ok _ _ _ _ _ Hk). cbn beta iota.
    rewrite (bind_ok _ _ (set_placement p s) tt (set_placement p s1)) by done.
    rewrite (bind_ok _ _ _ _ _ (load_dir_ok (set_placement p s1) _ _ Hdir)).
    by rewrite (bind_ok _ _ (set_placement p s1) tt s').
  - destruct Ok as [Ob Ot Odd Or Of]. split.
    + done.
    + intros u l. simpl. rewrite lookup_insert. case_decide; [| apply Ot].
      intros [= <-]. subst u. unfold zero_table. rewrite length_replicate. done.
    + intros a dd. simpl. rewrite lookup_insert. case_decide.
      * intros [= <-]. eapply dir_ok_new; [exact Od | done | lia | done | done | done |].
        simpl. rewrite lookup_insert_eq. eauto.
      * intros Ha. eapply dir_ok_more; [by eapply Odd | done].
    + intros q e. change (pte_at s' q) with (pte_at s1 q). unfold s1. rewrite pte_at_new by done.
      case_decide; [intros ->%zero_table_lookup; simpl; lia | apply Or].
    + intros q e. change (pte_at s' q) with (pte_at s1 q). unfold s1. rewrite pte_at_new by done.
      case_decide; [intros ->%zero_table_lookup; done | apply Of].
  - split; try done.
    + intros dir' virt' q. unfold walk. cbn [dirs set_placement set_dirs s'].
      rewrite lookup_insert. case_decide as D; [| done]. subst dir'. rewrite Hdir.
      cbn [tables d']. destruct (decide (Z.to_nat (PAGE_DIRECTORY_INDEX virt') = i)) as [E|E].
      * rewrite E, Ht0. done.
      * by rewrite list_lookup_insert_ne.
    + intros q e Hq. by apply pte_at_new_extends.
    + intros q e. change (pte_at s' q) with (pte_at s1 q). unfold s1. rewrite pte_at_new by done.
      case_decide; [intros ->%zero_table_lookup; by right | by left].
    + intros a Ha. simpl. rewrite lookup_insert. case_decide; eauto.
  - unfold walk. cbn [dirs set_placement set_dirs s']. rewrite lookup_insert_eq. cbn [tables d'].
    fold i. rewrite list_lookup_insert_eq by (by rewrite (do_tables _ _ _ Od)).
    by rewrite (proj2 (Z.eqb_neq t 0)) by lia.
  - by apply pte_at_slot.
  - replace (r - 8192) with (r - PAGE_TABLE_SIZE - 4096) by (unfold PAGE_TABLE_SIZE; lia).
    apply Hroom; [done |]. intros x. simpl. rewrite !lookup_insert.
    repeat case_decide; subst; eauto.
  - exists t, d'. split_and!; [lia | done | done | done].
Qed.


(** ** The kernel's page tables at boot *)

(** The directory [kd] has the tables from [b] up to [k], all different. *)
Record kdir (kd : Z) (b k : nat) s : Prop := {
  kd_dir : exists d, dirs s !! kd = Some d /\
    (forall i t, tables d !! i = Some t -> t <> 0 <-> (b <= i < k)%nat) /\
    (forall i j t, tables d !! i = Some t -> tables d !! j = Some t -> t <> 0 -> i = j)
}.

Lemma kdir_walk kd b k s virt :
  pg_ok phys_of s -> kdir kd b k s -> 0 <= virt -> (b <= Z.to_nat (PAGE_DIRECTORY_INDEX virt) < k)%nat ->
  exists p e, walk s kd virt = Some p /\ pte_at s p = Some e.
Proof.
  intros Ok [(d & Hd & Ht & _)] Hv Hi. assert (Od := po_dirs _ _ Ok kd d Hd).
  pose proof (dir_index_range virt Hv). pose proof (table_index_range virt).
  destruct (lookup_lt_is_Some_2 (tables d) (Z.to_nat (PAGE_DIRECTORY_INDEX virt))) as [t Hl].
  { rewrite (do_tables _ _ _ Od). lia. }
  assert (Ht0 := proj2 (Ht _ t Hl) Hi).
  destruct (do_table _ _ _ Od _ _ Hl Ht0) as [l Hlt].
  destruct (po_tables _ _ Ok t l Hlt) as (Len & Mod & _).
  destruct (lookup_lt_is_Some_2 l (Z.to_nat (PAGE_TABLE_INDEX virt))) as [e He]; [lia |].
  exists (t + 4 * PAGE_TABLE_INDEX virt), e. split.
  - unfold walk. by rewrite Hd, Hl, (proj2 (Z.eqb_neq _ _) Ht0).
  - unfold pte_at. rewrite slot_table, slot_index by done. rewrite Hlt. done.
Qed.

Lemma kdir_missing kd b k s virt :
  kdir kd b k s -> ~ (b <= Z.to_nat (PAGE_DIRECTORY_INDEX virt) < k)%nat -> walk s kd virt = None.
Proof.
  intros [(d & Hd & Ht & _)] Hi. unfold walk. rewrite Hd.
  destruct (tables d !! _) as [t|] eqn:Hl; [| done].
  destruct (Z.eqb_spec t 0); [done |]. exfalso. apply Hi. by apply (Ht _ t Hl).
Qed.

(** Adding the table of index [k]. *)
Lemma kdir_next kd b k s virt R :
  pg_ok phys_of s -> kdir kd b k s -> kd <> 0 -> 0 <= virt -> (b <= k)%nat ->
  Z.to_nat (PAGE_DIRECTORY_INDEX virt) = k -> room R s -> 8192 <= R ->
  exists p s', get_page kmalloc_ap virt 1 kd s = Ok (p, s') /\ pg_ok phys_of s' /\ extends s s' /\
    kdir kd b (S k) s' /\ room (R - 8192) s'.
Proof.
  intros Ok K Hk0 Hv Hb Hi Rm HR. assert (Hm := kdir_missing _ _ _ _ virt K ltac:(lia)).
  destruct K as [(d & Hd & Ht & Inj)].
  destruct (get_page_create s virt kd d R Ok Rm HR Hv Hk0 Hd Hm)
    as (p & s' & Run & Ok' & Ext & _ & _ & Rm' & t & d' & Ht0 & Nt & Hdirs & Htab).
  exists p, s'. split_and!; try done. split. exists d'. rewrite Hdirs, lookup_insert_eq, Htab, Hi.
  assert (Old : forall i t', tables d !! i = Some t' -> t' <> 0 -> t' <> t).
  { intros i t' Hi' Hn ->. destruct (do_table _ _ _ (po_dirs _ _ Ok _ _ Hd) _ _ Hi' Hn). congruence. }
  split_and!; [done | |].
  - intros i t'. destruct (decide (i = k)) as [->|Hne].
    + rewrite list_lookup_insert_Some. intros [(_ & <- & _)|[]]; [lia | done].
    + rewrite list_lookup_insert_ne by done. intros Hi'. rewrite (Ht i t' Hi'). lia.
  - intros i j t'. rewrite !list_lookup_insert_Some.
    intros [(<- & <- & _)|[Hne1 H1]] [(<- & E & _)|[Hne2 H2]] Hn; try done.
    + exfalso. by apply (Old j t H2 Hn).
    + subst. exfalso. by apply (Old i t' H1 Hn).
    + by eapply Inj.
Qed.

Lemma prealloc_ok kd b R n virt s k :
  pg_ok phys_of s -> kdir kd b k s -> kd <> 0 -> Z.of_nat b * 2 ^ 22 <= virt ->
  virt + 4096 * Z.of_nat n < 2 ^ 32 -> virt mod 4096 = 0 ->
  (Z.to_nat (PAGE_DIRECTORY_INDEX virt) <= k <= 1024)%nat ->
  0 <= R -> room (R + 8192 * (1024 - Z.of_nat k)) s ->
  exists s' k', prealloc_tables kmalloc_ap n virt kd s = Ok (tt, s') /\ pg_ok phys_of s' /\ extends s s' /\
    kdir kd b k' s' /\ (k <= k' <= 1024)%nat /\ room (R + 8192 * (1024 - Z.of_nat k')) s' /\
    (n <> 0%nat -> (Z.to_nat (PAGE_DIRECTORY_INDEX (virt + 4096 * Z.of_nat (n - 1))) < k')%nat).
Proof.
  intros Ok K Hk0. revert virt s k Ok K. induction n as [|n IH]; intros virt s k Ok K Hb Hend Hal Hi HR Rm.
  { exists s, k. split_and!; try done; lia. }
  assert (Hv : 0 <= virt < 2 ^ 32) by lia. pose proof (dir_index virt Hv) as Ei.
  assert (Hbi : (b <= Z.to_nat (PAGE_DIRECTORY_INDEX virt))%nat) by (rewrite Ei; Z.div_mod_to_equations; lia).
  assert (Hi1 : PAGE_DIRECTORY_INDEX virt <= 1023) by (rewrite Ei; Z.div_mod_to_equations; lia).
  assert (Step : exists p s1 k1, get_page kmalloc_ap virt 1 kd s = Prelude.Ok (p, s1) /\ pg_ok phys_of s1 /\
    extends s s1 /\ kdir kd b k1 s1 /\ (k <= k1 <= 1024)%nat /\
    (Z.to_nat (PAGE_DIRECTORY_INDEX virt) < k1)%nat /\ room (R + 8192 * (1024 - Z.of_nat k1)) s1).
  { destruct (decide (Z.to_nat (PAGE_DIRECTORY_INDEX virt) < k)%nat) as [Hlt|Hge].
    - destruct (kdir_walk kd b k s virt Ok K) as (p & e & Hw & _); [lia | lia |].
      exists p, s, k. split_and!; try done; try lia. by apply get_page_walk.
    - destruct (kdir_next kd b k s virt _ Ok K Hk0 ltac:(lia) ltac:(lia) ltac:(lia) Rm ltac:(lia))
        as (p & s1 & Run & Ok1 & Ext & K1 & Rm1).
      exists p, s1, (S k). split_and!; try done; try lia.
      by replace (R + 8192 * (1024 - Z.of_nat (S k))) with (R + 8192 * (1024 - Z.of_nat k) - 8192) by lia. }
  destruct Step as (p & s1 & k1 & Run & Ok1 & Ext1 & K1 & Hk1 & Hlt1 & Rm1).
  cbn [prealloc_tables]. rewrite (bind_ok _ _ _ _ _ Run). unfold FRAME_SIZE. rewrite u32_small by lia.
  assert (Enext : PAGE_DIRECTORY_INDEX (virt + 4096) <= PAGE_DIRECTORY_INDEX virt + 1).
  { rewrite !dir_index by lia. Z.div_mod_to_equations. lia. }
  destruct (IH (virt + 4096) s1 k1) as (s' & k' & Run' & Ok' & Ext' & K' & Hk' & Rm' & Hlast); try done; try lia.
  { Z.div_mod_to_equations. lia. }
  exists s', k'. split_and!; try done; try lia.
  - by transitivity s1.
  - intros _. destruct n as [|n]; [simpl; rewrite Z.add_0_r; lia |].
    specialize (Hlast ltac:(done)). simpl in *. rewrite Nat.sub_0_r in Hlast.
    replace (virt + 4096 * Z.of_nat (S n)) with (virt + 4096 + 4096 * Z.of_nat n) by lia. lia.
Qed.

(** The page at [virt] is mapped to the frame at [virt - kv]. *)
Definition mapped_low (kd kv virt : Z) s : Prop :=
  exists p e, walk s kd virt = Some p /\ pte_at s p = Some e /\
    p_present e = 1 /\ p_frame e = (virt - kv) / 4096.

(** Different pages of one directory have different entries. *)
Lemma walk_inj kd b s v1 v2 p1 p2 :
  pg_ok phys_of s -> kdir kd b 1024 s -> 0 <= v1 < 2 ^ 32 -> 0 <= v2 < 2 ^ 32 ->
  v1 mod 4096 = 0 -> v2 mod 4096 = 0 ->
  walk s kd v1 = Some p1 -> walk s kd v2 = Some p2 -> same_entry p1 p2 -> v1 = v2.
Proof.
  intros Ok [(d & Hd & Ht & Inj)] H1 H2 M1 M2 W1 W2 [Et Ei].
  unfold walk in W1, W2. rewrite Hd in W1, W2.
  destruct (tables d !! Z.to_nat (PAGE_DIRECTORY_INDEX v1)) as [t1|] eqn:E1; [| done].
  destruct (tables d !! Z.to_nat (PAGE_DIRECTORY_INDEX v2)) as [t2|] eqn:E2; [| done].
  destruct (Z.eqb_spec t1 0) as [|N1]; [done |]. destruct (Z.eqb_spec t2 0) as [|N2]; [done |].
  injection W1 as <-. injection W2 as <-.
  assert (Od := po_dirs _ _ Ok kd d Hd).
  destruct (do_table _ _ _ Od _ _ E1 N1) as [l1 L1]. destruct (do_table _ _ _ Od _ _ E2 N2) as [l2 L2].
  destruct (po_tables _ _ Ok _ _ L1) as (_ & A1 & _). destruct (po_tables _ _ Ok _ _ L2) as (_ & A2 & _).
  pose proof (table_index_range v1). pose proof (table_index_range v2).
  rewrite !slot_table in Et by done. rewrite !slot_index in Ei by done. subst t2.
  assert (Z.to_nat (PAGE_DIRECTORY_INDEX v1) = Z.to_nat (PAGE_DIRECTORY_INDEX v2)) as Ed by (by eapply Inj).
  pose proof (dir_index_range v1 ltac:(lia)). pose proof (dir_index_range v2 ltac:(lia)).
  rewrite (virt_split v1 H1), (virt_split v2 H2). rewrite M1, M2. lia.
Qed.

Lemma kdir_only_entry kd b k s s' page e' : only_entry page e' s s' -> kdir kd b k s -> kdir kd b k s'.
Proof. intros O [K]. split. by rewrite (oe_dirs _ _ _ _ O). Qed.

Lemma walk_only_entry s s' page e' dir virt : only_entry page e' s s' -> walk s' dir virt = walk s dir virt.
Proof. intros O. unfold walk. by rewrite (oe_dirs _ _ _ _ O). Qed.

(** No frame in use becomes free. *)
Definition keeps_used s s' : Prop :=
  forall f, 0 <= f -> frame_status (bm s) f = Some true -> frame_status (bm s') f = Some true.

Lemma marked_keeps f b b' g :
  marked f true b b' -> 0 <= g -> frame_status b g = Some true -> frame_status b' g = Some true.
Proof.
  intros Hm Hg Hs. destruct (decide (g = f)) as [->|Hne]; [apply Hm |].
  by rewrite (mk_other _ _ _ _ Hm).
Qed.

Lemma map_kernel_ok kd b kv P fuel virt s :
  pg_ok phys_of s -> kdir kd b 1024 s -> kd <> 0 -> kernel_directory s = kd -> placement_address s = P ->
  0 <= kv -> kv mod 4096 = 0 -> virt mod 4096 = 0 -> kv = Z.of_nat b * 2 ^ 22 -> kv <= virt -> P + 4096 < 2 ^ 32 ->
  virt < 2 ^ 32 -> P - virt <= 4096 * (Z.of_nat fuel - 1) -> (0 < fuel)%nat ->
  (forall v, kv <= v < virt -> v mod 4096 = 0 -> mapped_low kd kv v s) ->
  exists s', map_kernel kmalloc_ap fuel virt (virt - kv) s = Ok (tt, s') /\ pg_ok phys_of s' /\
    kdir kd b 1024 s' /\ placement_address s' = P /\ kernel_directory s' = kd /\
    nframes (bm s') = nframes (bm s) /\ keeps_used s s' /\
    (forall v, kv <= v < P -> v mod 4096 = 0 -> mapped_low kd kv v s') /\
    (forall v q, P <= v < 2 ^ 32 -> virt <= v -> v mod 4096 = 0 -> walk s' kd v = Some q ->
       walk s kd v = Some q /\ pte_at s' q = pte_at s q) /\
    4096 * (used_frames (bm s') - used_frames (bm s)) <= Z.max 0 (P - virt + 4095) /\
    (forall x, is_Some (dirs s' !! x) \/ is_Some (ptables s' !! x) -> is_Some (dirs s !! x) \/ is_Some (ptables s !! x)).
Proof.
  intros Ok K Hk0 Hkd HP H0 Hkva Hal Hkv Hle HPm Hvm Hf Hf0 Hm. revert virt s Ok K Hkd HP Hal Hle Hvm Hf Hf0 Hm.
  induction fuel as [|fuel IH]; intros virt s Ok K Hkd HP Hal Hle Hvm Hf Hf0 Hm; [lia |].
  cbn [map_kernel]. rewrite (bind_ok _ _ s P s) by (unfold gets; by rewrite HP).
  destruct (Z.ltb_spec virt P) as [Hlt|Hge].
  2:{ exists s. split_and!; try done; try lia; [by intros f |]. intros v Hv. apply Hm. lia. }
  rewrite (bind_ok _ _ s kd s) by (unfold gets; by rewrite Hkd).
  destruct (kdir_walk kd b 1024 s virt Ok K) as (p & e & Hw & He); [lia | |].
  { rewrite dir_index by lia. split; [| Z.div_mod_to_equations; lia]. subst kv. Z.div_mod_to_equations. lia. }
  rewrite (bind_ok _ _ _ _ _ (get_page_walk _ _ _ _ _ Hk0 Hw)).
  destruct (map_page_ok phys_of s p e 0 0 (virt - kv) Ok He) as (s1 & Run & Ok1 & Ef & O1 & Hused & Hbm); [lia |].
  rewrite (bind_ok _ _ _ _ _ Run). unfold FRAME_SIZE. rewrite !u32_small by lia.
  replace (virt - kv + 4096) with (virt + 4096 - kv) by lia.
  destruct (IH (virt + 4096) s1) as (s' & Run' & Ok' & K' & P' & D' & N' & U' & M' & Above & Cnt & S'); try done; try lia.
  - by eapply kdir_only_entry.
  - by rewrite (oe_kernel _ _ _ _ O1).
  - by rewrite (oe_placement _ _ _ _ O1).
  - Z.div_mod_to_equations. lia.
  - intros v Hv Hva. unfold mapped_low.
    destruct (decide (v = virt)) as [->|Hne].
    + eexists p, _. rewrite (walk_only_entry _ _ _ _ _ _ O1), (oe_pte _ _ _ _ O1).
      rewrite decide_True by done. split_and!; [done | done | done |]. exact Ef.
    + destruct (Hm v) as (q & eq & Hq & Heq & Hpr & Hfr);
        [pose proof (page_below v virt); lia | done |].
      exists q, eq. rewrite (walk_only_entry _ _ _ _ _ _ O1), (oe_pte _ _ _ _ O1).
      rewrite decide_False; [done |]. intros Se. apply Hne. apply (walk_inj kd b s v virt q p); try done; lia.
  - exists s'. split_and!; try done.
    + rewrite N'. destruct (_ <? _); [apply Hbm | by rewrite Hbm].
    + intros f Hf' Hs. apply U'; [done |]. destruct (_ <? _); [by eapply marked_keeps | by rewrite Hbm].
    + intros v q Hv Hvv Hva Hq. assert (v <> virt) by lia.
      assert (virt + 4096 <= v) by (pose proof (page_below v virt Hva Hal); lia).
      destruct (Above v q Hv ltac:(lia) Hva Hq) as [W1 E1].
      rewrite (walk_only_entry _ _ _ _ _ _ O1) in W1. split; [done |].
      rewrite E1, (oe_pte _ _ _ _ O1), decide_False; [done |]. intros Se.
      assert (v = virt); [| done]. apply (walk_inj kd b s v virt q p); try done; lia.
    + lia.
    + intros x Hx. apply S' in Hx as [Hx|Hx]; [left | right].
      * by rewrite (oe_dirs _ _ _ _ O1) in Hx.
      * by apply (oe_tables _ _ _ _ O1).
Qed.

(** The invariant is about the bitmap, the directories and the tables. *)
Lemma pg_ok_fields s s' :
  pg_ok phys_of s -> bm s' = bm s -> dirs s' = dirs s -> ptables s' = ptables s -> pg_ok phys_of s'.
Proof.
  intros [Ob Ot Od Or Of] Eb Ed Et. split; unfold pte_at in *; rewrite ?Eb, ?Et, ?Ed; try done.
  intros a d Ha. eapply dir_ok_more; [by eapply Od |]. by rewrite Et.
Qed.

(** A new, empty page directory. *)
Lemma zero_dir_ok s phys : dir_ok phys_of s (PageDir (entries zero_dir) phys (tables zero_dir)).
Proof.
  unfold zero_dir. cbn [entries tables]. split; cbn [entries tables].
  - apply length_replicate.
  - apply length_replicate.
  - intros i t [-> _]%lookup_replicate. done.
  - intros i t e [-> _]%lookup_replicate [-> _]%lookup_replicate. done.
Qed.

Lemma new_dir_ok s R :
  pg_ok phys_of s -> room R s -> PAGE_DIR_SIZE + 4096 <= R ->
  exists kd p, kmalloc_ap PAGE_DIR_SIZE s = Ok ((kd, phys_of kd), set_placement p s) /\ 0 < kd < 2 ^ 32 /\
    placement_address s <= p /\ dirs s !! kd = None /\
    let s' := set_placement p (set_dirs (<[kd := PageDir (entries zero_dir) (phys_of kd) (tables zero_dir)]> (dirs s)) s) in
    pg_ok phys_of s' /\ room (R - PAGE_DIR_SIZE - 4096) s'.
Proof.
  intros Ok Rm HR.
  destruct (PA.(kmalloc_ok kmalloc_ap phys_of room) R PAGE_DIR_SIZE s Rm ltac:(done) HR)
    as (kd & p & Hk & Hpl & Hkd & _ & Nd & Nt & Hroom).
  exists kd, p. split; [done |]. split; [lia |]. split; [done |]. split; [done |]. intros s'. split.
  - destruct Ok as [Ob Ot Od Or Of]. split; try done. intros a d. cbn [dirs set_placement set_dirs s'].
    rewrite lookup_insert. case_decide; [intros [= <-]; apply zero_dir_ok |].
    intros Ha. exact (dir_ok_more s s' d (Od a d Ha) (fun x Hx => Hx)).
  - apply Hroom; [done |]. intros x. cbn [dirs ptables set_placement set_dirs s'].
    rewrite lookup_insert. case_decide; subst; eauto.
Qed.

Lemma finalize_tables_ok fuel b s R st0 :
  let kv := Z.of_nat b * 2 ^ 22 in
  pg_ok phys_of s -> 0 < kv < 0xfffff000 -> frame_status (bm s) 0 = Some st0 ->
  room (R + (PAGE_DIR_SIZE + 4096) + 8192 * (1024 - Z.of_nat b)) s -> 4096 < R ->
  2 ^ 32 - kv <= 4096 * (Z.of_nat fuel - 1) ->
  exists s', finalize_tables kmalloc_ap fuel kv s = Ok (tt, s') /\ pg_ok phys_of s' /\
    let kd := kernel_directory s' in
    kd <> 0 /\ kdir kd b 1024 s' /\ nframes (bm s') = nframes (bm s) /\
    frame_status (bm s') 0 = Some true /\ room R s' /\ placement_address s <= placement_address s' /\
    4096 * (used_frames (bm s') - used_frames (bm s) - 1) <= Z.max 0 (placement_address s' - kv + 4095) /\
    (forall v, kv <= v < placement_address s' -> v mod 4096 = 0 -> mapped_low kd kv v s') /\
    ((forall q e, pte_at s q = Some e -> p_frame e = 0) ->
     forall v q e, placement_address s' <= v < 2 ^ 32 -> kv <= v -> v mod 4096 = 0 ->
       walk s' kd v = Some q -> pte_at s' q = Some e -> p_frame e = 0).
Proof.
  intros kv Ok Hkv H0 Rm HR Hfuel.
  destruct (set_frame_ok _ 0 st0 (po_bm _ _ Ok) (Z.le_refl 0) H0) as (bm1 & Hset & Hb1 & Hmk & Hu1).
  set (s1 := set_bm bm1 s).
  assert (Ok1 : pg_ok phys_of s1).
  { apply set_bm_pg_ok; [done | done | by apply Hmk |]. intros q e Hq _ Hs.
    eapply marked_keeps; [exact Hmk | by eapply po_range | done]. }
  assert (Rm1 : room (R + (PAGE_DIR_SIZE + 4096) + 8192 * (1024 - Z.of_nat b)) s1).
  { eapply (PA.(room_same kmalloc_ap phys_of room)); [exact Rm | done | done]. }
  assert (Hb : (b < 1024)%nat) by lia.
  destruct (new_dir_ok s1 _ Ok1 Rm1) as (kd & p & Hk & Hkd & Hpl & Nkd & Ok2 & Rm2); [unfold PAGE_DIR_SIZE in *; lia |].
  set (s2 := set_placement p (set_dirs (<[kd := PageDir (entries zero_dir) (phys_of kd) (tables zero_dir)]> (dirs s1)) s1)) in *.
  set (s3 := set_kernel_directory kd s2).
  assert (K3 : kdir kd b b s3).
  { split. eexists. split; [cbn [dirs s3 s2 set_kernel_directory set_placement set_dirs]; by rewrite lookup_insert_eq |].
    cbn [tables]. split.
    - intros i t [-> _]%lookup_replicate. split; [done | lia].
    - by intros i j t [-> _]%lookup_replicate. }
  assert (Ok3 : pg_ok phys_of s3) by (by apply (pg_ok_fields s2)).
  assert (Rm3 : room (R + 8192 * (1024 - Z.of_nat b)) s3).
  { apply (PA.(room_same kmalloc_ap phys_of room) _ s2); [| done | done].
    replace (R + 8192 * (1024 - Z.of_nat b)) with
      (R + (PAGE_DIR_SIZE + 4096) + 8192 * (1024 - Z.of_nat b) - PAGE_DIR_SIZE - 4096) by lia. exact Rm2. }
  set (n := Z.to_nat ((0xfffff000 - kv + 4095) / 4096)).
  assert (Hn : kv + 4096 * Z.of_nat n = 0xfffff000) by (unfold n, kv; Z.div_mod_to_equations; lia).
  assert (Hkvi : PAGE_DIRECTORY_INDEX kv = Z.of_nat b).
  { rewrite dir_index by lia. unfold kv. Z.div_mod_to_equations. lia. }
  destruct (prealloc_ok kd b R n kv s3 b) as (s4 & k4 & Run4 & Ok4 & Ext4 & K4 & Hk4 & Rm4 & Hlast);
    try done; try lia; [unfold kv; Z.div_mod_to_equations; lia |].
  assert (k4 = 1024%nat) as ->.
  { specialize (Hlast ltac:(lia)). rewrite dir_index in Hlast by lia. Z.div_mod_to_equations. lia. }
  replace (R + 8192 * (1024 - Z.of_nat 1024)) with R in Rm4 by lia.
  assert (HP := PA.(room_placement kmalloc_ap phys_of room) _ _ Rm4).
  destruct (map_kernel_ok kd b kv (placement_address s4) fuel kv s4) as
    (s' & Run5 & Ok5 & K5 & P5 & D5 & N5 & U5 & M5 & A5 & C5 & S5); try done; try lia.
  { by rewrite (ex_kernel _ _ Ext4). }
  { unfold kv. Z.div_mod_to_equations. lia. }
  { unfold kv. Z.div_mod_to_equations. lia. }
  exists s'. cbv zeta. rewrite D5, P5. split_and!; try done; try lia.
  - unfold finalize_tables. rewrite (bind_ok _ _ _ _ _ (on_bm_ok _ _ _ _ Hset)).
    fold s1. rewrite (bind_ok _ _ _ _ _ Hk). cbn beta iota.
    set (sz := set_kernel_directory kd (set_dirs (<[kd := zero_dir]> (dirs s1)) (set_placement p s1))).
    assert (Ld : dirs sz !! kd = Some zero_dir) by (apply lookup_insert_eq).
    assert (St : store_dir kd (PageDir (entries zero_dir) (phys_of kd) (tables zero_dir)) sz = Prelude.Ok (tt, s3)).
    { unfold store_dir, modify, sz, s3, s2. cbn [dirs set_kernel_directory set_dirs]. by rewrite insert_insert_eq. }
    rewrite (bind_ok _ _ (set_placement p s1) tt sz) by done.
    rewrite (bind_ok _ _ _ _ _ (load_dir_ok _ _ _ Ld)), (bind_ok _ _ _ _ _ St).
    fold n. rewrite (bind_ok _ _ _ _ _ Run4). by rewrite Z.sub_diag in Run5.
  - rewrite N5, (ex_bm _ _ Ext4). apply Hmk.
  - apply U5; [lia |]. rewrite (ex_bm _ _ Ext4). apply Hmk.
  - eapply (PA.(room_same kmalloc_ap phys_of room)); [exact Rm4 | done | done].
  - pose proof (ex_placement _ _ Ext4) as HE. change (placement_address s3) with p in HE.
    change (placement_address s1) with (placement_address s) in Hpl. lia.
  - rewrite (ex_bm _ _ Ext4) in C5. change (bm s3) with bm1 in C5. rewrite Hu1 in C5. destruct st0; lia.
  - intros Hz v q e Hv Hvv Hva Hq He. destruct (A5 v q Hv Hvv Hva Hq) as [_ E5]. rewrite E5 in He.
    destruct (ex_new _ _ Ext4 q e He) as [Ho| ->]; [| done]. by apply (Hz q e).
Qed.
End walking.

(** ** The boot-time allocator implements the interface *)

Definition placement_phys (kv a : Z) : Z := u32 (a - kv).

Record placement_room (r : Z) (s : pg) : Prop := {
  pr_pos : 0 < placement_address s;
  pr_end : placement_address s + r <= 2 ^ 32;
  pr_below : forall x, is_Some (dirs s !! x) \/ is_Some (ptables s !! x) -> x < placement_address s
}.

Lemma round_up p :
  0 < p -> p + 4096 <= 2 ^ 32 ->
  let q := if p mod FRAME_SIZE =? 0 then p else u32 (p - p mod FRAME_SIZE + FRAME_SIZE) in
  p <= q < p + 4096 /\ q mod 4096 = 0.
Proof.
  unfold FRAME_SIZE. intros H0 H1. destruct (Z.eqb_spec (p mod 4096) 0); [lia |].
  rewrite u32_small by (Z.div_mod_to_equations; lia). split; Z.div_mod_to_equations; lia.
Qed.

#[export] Instance placement_allocator kv (kv_aligned : kv mod 4096 = 0) :
  PageAllocator (placement_ap kv) (placement_phys kv) placement_room.
Proof.
  split.
  - intros r size s [P0 P1 P2] Hs Hr. unfold placement_ap.
    destruct (round_up (placement_address s)) as [Hq Hqa]; [lia | lia |].
    set (q := if placement_address s mod FRAME_SIZE =? 0 then _ else _) in *.
    exists q, (q + size). split_and!; try lia.
    + rewrite (bind_ok _ _ s (placement_address s) s) by done. fold q.
      rewrite (u32_small (q + size)) by lia.
      by rewrite (bind_ok _ _ s tt (set_placement (q + size) s)).
    + destruct (dirs s !! q) eqn:E; [| done]. specialize (P2 q ltac:(eauto)). lia.
    + destruct (ptables s !! q) eqn:E; [| done]. specialize (P2 q ltac:(eauto)). lia.
    + intros s' Hp Hx. split; [lia | lia |]. intros x Hx'. rewrite Hp.
      destruct (Hx x Hx') as [-> | Hold]; [lia |]. specialize (P2 x Hold). lia.
  - intros r s s' [P0 P1 P2] Hp Hx. split; rewrite Hp; [done | done |]. intros x Hx'. apply P2. auto.
  - intros r s [_ P1 _]. done.
  - intros a Ha. unfold placement_phys. split; [| apply u32_range].
    unfold u32. Z.div_mod_to_equations. lia.
Qed.

(** ** The pages of the heap *)

(** The page at [v] is present, writeable and has frame [f]. *)
Definition has_frame (kd v : Z) (s : pg) (f : Z) : Prop :=
  exists p e, walk s kd v = Some p /\ pte_at s p = Some e /\ p_present e = 1 /\ p_read_write e = 1 /\
    p_frame e = f.

Section heap_pages.
Context (kmalloc_ap : Z -> M pg (Z * Z)) (phys_of : Z -> Z).
Context (kd : Z) (kd_nonnull : kd <> 0) (b : nat).

(** The state in which the loop runs. *)
Record heap_inv (s : pg) : Prop := {
  hi_ok : pg_ok phys_of s;
  hi_kdir : kdir kd b 1024 s;
  hi_kd : kernel_directory s = kd;
  hi_zero : frame_status (bm s) 0 = Some true
}.

Lemma heap_page_ok s virt p e :
  heap_inv s -> walk s kd virt = Some p -> pte_at s p = Some e -> p_frame e = 0 ->
  used_frames (bm s) < nframes (bm s) ->
  exists s' e', alloc_page p 0 1 s = Ok (tt, s') /\ heap_inv s' /\ only_entry p e' s s' /\
    p_present e' = 1 /\ p_read_write e' = 1 /\ 0 < p_frame e' < nframes (bm s) /\
    (forall q eq, pte_at s q = Some eq -> p_frame eq <> p_frame e') /\
    used_frames (bm s') = used_frames (bm s) + 1 /\ nframes (bm s') = nframes (bm s) /\
    marked (p_frame e') true (bm s) (bm s') /\ frame_status (bm s) (p_frame e') = Some false.
Proof.
  intros [Ok K Kd Z0] Hw He H0 Hu. destruct (first_free_exists _ (po_bm _ _ Ok) Hu) as (f & Hff).
  assert (Hf0 : f <> 0) by (destruct Hff as (_ & Hs & _); intros ->; congruence).
  destruct (alloc_page_new phys_of s p e f 0 1 Ok He H0 Hff Hf0)
    as (s' & Run & Ok' & Ef & P & Fresh & Mk & Us & D & Pl & KD & CD & C3 & T).
  set (e' := set_flags 1 (flag 1) (nflag 0) (set_pframe f e)) in *.
  assert (O : only_entry p e' s s') by (by split). destruct Hff as (Hf & Hs & _).
  exists s', e'. split_and!; try done.
  - split; [done | by eapply kdir_only_entry | congruence |].
    eapply marked_keeps; [exact Mk | lia | done].
  - lia.
  - pose proof (status_range _ (po_bm _ _ Ok) f _ Hf Hs). lia.
  - intros q eq Hq. rewrite Ef. by eapply Fresh.
  - apply Mk.
  - by rewrite Ef.
  - by rewrite Ef.
Qed.

Lemma alloc_heap_pages_ok n virt s :
  heap_inv s -> Z.of_nat b * 2 ^ 22 <= virt -> virt mod 4096 = 0 -> virt + 4096 * Z.of_nat n < 2 ^ 32 ->
  used_frames (bm s) + Z.of_nat n <= nframes (bm s) ->
  (forall v p e, virt <= v < virt + 4096 * Z.of_nat n -> v mod 4096 = 0 -> walk s kd v = Some p ->
     pte_at s p = Some e -> p_frame e = 0) ->
  exists s', alloc_heap_pages kmalloc_ap n virt s = Ok (tt, s') /\ heap_inv s' /\
    used_frames (bm s') = used_frames (bm s) + Z.of_nat n /\
    placement_address s' = placement_address s /\ dirs s' = dirs s /\
    (current_directory s' = current_directory s /\ cr3 s' = cr3 s) /\
    (forall v, walk s' kd v = walk s kd v) /\
    (forall q e, pte_at s q = Some e -> p_frame e <> 0 -> pte_at s' q = Some e) /\
    (forall v q, 0 <= v < 2 ^ 32 -> v mod 4096 = 0 -> v < virt \/ virt + 4096 * Z.of_nat n <= v ->
       walk s kd v = Some q -> pte_at s' q = pte_at s q) /\
    (forall v, virt <= v < virt + 4096 * Z.of_nat n -> v mod 4096 = 0 ->
       exists f, has_frame kd v s' f /\ 0 < f < nframes (bm s) /\ frame_status (bm s) f = Some false /\
         forall q e, pte_at s q = Some e -> p_frame e <> f) /\
    (forall v1 v2 f1 f2, virt <= v1 < virt + 4096 * Z.of_nat n -> virt <= v2 < virt + 4096 * Z.of_nat n ->
       v1 mod 4096 = 0 -> v2 mod 4096 = 0 -> has_frame kd v1 s' f1 -> has_frame kd v2 s' f2 ->
       v1 <> v2 -> f1 <> f2).
Proof.
  revert virt s. induction n as [|n IH]; intros virt s I Hb Hal Hend Hu Hz.
  { exists s. split_and!; try done; intros; lia. }
  destruct (kdir_walk phys_of kd b 1024 s virt) as (p & e & Hw & He); [apply I | apply I | lia | |].
  { rewrite dir_index by lia. Z.div_mod_to_equations. lia. }
  destruct (heap_page_ok s virt p e I Hw He) as (s1 & e1 & Run & I1 & O1 & Pr & Rw & Fr & New & U1 & N1 & Mk & Fs).
  { eapply Hz; [| exact Hal | exact Hw | exact He]. lia. }
  { lia. }
  cbn [alloc_heap_pages]. rewrite (bind_ok _ _ s kd s) by (unfold gets; by rewrite (hi_kd _ I)).
  rewrite (bind_ok _ _ _ _ _ (get_page_walk kmalloc_ap s virt 1 kd p kd_nonnull Hw)).
  rewrite (bind_ok _ _ _ _ _ Run). unfold FRAME_SIZE. rewrite u32_small by lia.
  assert (W1 := fun v => walk_only_entry _ _ _ _ kd v O1).
  assert (H1 : pte_at s1 p = Some e1) by (by rewrite (oe_pte _ _ _ _ O1), decide_True).
  assert (Hother : forall v q, 0 <= v < 2 ^ 32 -> v <> virt -> v mod 4096 = 0 -> walk s kd v = Some q -> pte_at s1 q = pte_at s q).
  { intros v q Hv Hvn Hva Hq. rewrite (oe_pte _ _ _ _ O1), decide_False; [done |]. intros Se.
    assert (v = virt); [| done]. apply (walk_inj phys_of kd b s v virt q p); try done; try lia; apply I. }
  destruct (IH (virt + 4096) s1) as (s' & Run' & I' & U' & Pl' & D' & [C' R'] & W' & Keep' & Out' & Got' & Dist').
  { done. }
  { lia. }
  { Z.div_mod_to_equations. lia. }
  { lia. }
  { lia. }
  { intros v q eq Hv Hva Hq Heq. rewrite W1 in Hq. rewrite (Hother v q) in Heq by (done || lia).
    eapply Hz; [| exact Hva | exact Hq | exact Heq]. lia. }
  assert (Hfirst : has_frame kd virt s' (p_frame e1)).
  { exists p, e1. rewrite W', W1. split_and!; try done. apply Keep'; [done | lia]. }
  assert (Hlater : forall v f, virt + 4096 <= v < virt + 4096 * Z.of_nat (S n) -> v mod 4096 = 0 ->
    has_frame kd v s' f -> f <> p_frame e1).
  { intros v f Hv Hva (q & eq & Hq & Heq & _ & _ & <-).
    destruct (Got' v ltac:(lia) Hva) as (f' & (q' & eq' & Hq' & Heq' & _ & _ & <-) & _ & _ & New').
    assert (eq' = eq) as -> by congruence. intros E. apply (New' p e1 H1). done. }
  exists s'. destruct (oe_current _ _ _ _ O1) as [C1 R1]. split_and!; try done.
  - lia.
  - by rewrite Pl', (oe_placement _ _ _ _ O1).
  - by rewrite D', (oe_dirs _ _ _ _ O1).
  - congruence.
  - congruence.
  - intros v. by rewrite W', W1.
  - intros q eq Hq Hn. apply Keep'; [| done]. rewrite (oe_pte _ _ _ _ O1), decide_False; [done |].
    intros Se. assert (E : pte_at s q = pte_at s p) by (unfold pte_at; by destruct Se as [-> ->]).
    rewrite Hq, He in E. simplify_eq. apply Hn. eapply Hz; [| exact Hal | exact Hw | exact He]. lia.
  - intros v q Hv Hva Ho Hq. rewrite (Out' v q) by (rewrite ?W1; (done || lia)). apply (Hother v); (done || lia).
  - intros v Hv Hva. destruct (decide (v = virt)) as [->|Hne].
    { exists (p_frame e1). split_and!; try done; lia. }
    assert (virt < v) by lia.
    assert (virt + 4096 <= v) by (pose proof (page_below v virt); lia).
    destruct (Got' v ltac:(lia) Hva) as (f & Hf & Hr & Hs & New'). exists f. split_and!; try done; try lia.
    { rewrite <- Hs. symmetry. apply (mk_other _ _ _ _ Mk); [lia | by eapply Hlater; [| exact Hva | exact Hf]; lia]. }
    intros q eq Hq Hbad. destruct (decide (p_frame eq = 0)) as [E0|E0]; [lia |].
    apply (New' q eq); [| done]. rewrite (oe_pte _ _ _ _ O1), decide_False; [done |].
    intros Se. assert (E : pte_at s q = pte_at s p) by (unfold pte_at; by destruct Se as [-> ->]).
    rewrite Hq, He in E. simplify_eq. apply E0. eapply Hz; [| exact Hal | exact Hw | exact He]. lia.
  - intros v1 v2 f1 f2 Hv1 Hv2 A1 A2 F1 F2 Hne.
    assert (HF : forall f, has_frame kd virt s' f -> f = p_frame e1).
    { intros f (q & eq & Hq & Heq & _ & _ & <-). destruct Hfirst as (q' & eq' & Hq' & Heq' & _ & _ & <-). congruence. }
    destruct (decide (v1 = virt)) as [->|]; [| destruct (decide (v2 = virt)) as [->|]].
    + rewrite (HF _ F1). apply not_eq_sym. eapply Hlater; [| exact A2 | exact F2].
      pose proof (page_below v2 virt). lia.
    + rewrite (HF _ F2). eapply Hlater; [| exact A1 | exact F1]. pose proof (page_below v1 virt). lia.
    + apply (Dist' v1 v2); try done; pose proof (page_below v1 virt); pose proof (page_below v2 virt); lia.
Qed.
End heap_pages.

(** ** Cloning a directory *)

Section clone.
Context (kmalloc_ap : Z -> M pg (Z * Z)) (phys_of : Z -> Z) (room : Z -> pg -> Prop).
Context `{PA : !PageAllocator kmalloc_ap phys_of room}.

(** The part of the clone below index [i] is done. *)
Record cloned (d c : page_dir) (i : nat) : Prop := {
  cl_tables : length (tables c) = 1024%nat;
  cl_entries : length (entries c) = 1024%nat;
  cl_done : forall j, (j < i)%nat -> tables c !! j = tables d !! j;
  cl_entry : forall j t, (j < i)%nat -> tables d !! j = Some t -> t <> 0 -> entries c !! j = entries d !! j;
  cl_todo : forall j, (i <= j < 1024)%nat -> tables c !! j = Some 0
}.

(** One iteration, on a table that the kernel directory shares. *)
Lemma cloned_step d c i t e :
  cloned d c i -> (i < 1024)%nat -> tables d !! i = Some t -> entries d !! i = Some e ->
  cloned d (if t =? 0 then c else PageDir (<[i := e]> (entries c)) (entries_phys_addr c) (<[i := t]> (tables c))) (S i).
Proof.
  intros [L1 L2 Dn En To] Hi Ht He. destruct (Z.eqb_spec t 0) as [->|Hn].
  - split; try done.
    + intros j Hj. destruct (decide (j = i)) as [->|]; [rewrite Ht; apply To; lia | apply Dn; lia].
    + intros j t' Hj Ht' Hn. destruct (decide (j = i)) as [->|]; [congruence | eapply En; eauto; lia].
    + intros j Hj. apply To. lia.
  - split; simpl; rewrite ?length_insert; try done.
    + intros j Hj. destruct (decide (j = i)) as [->|Hne].
      * by rewrite list_lookup_insert_eq by lia.
      * rewrite list_lookup_insert_ne by done. apply Dn. lia.
    + intros j t' Hj Ht' Hn'. destruct (decide (j = i)) as [->|Hne].
      * by rewrite list_lookup_insert_eq by lia.
      * rewrite list_lookup_insert_ne by done. eapply En; eauto. lia.
    + intros j Hj. rewrite list_lookup_insert_ne by lia. apply To. lia.
Qed.

Lemma clone_tables_ok n i s dir d k kd clone c :
  dirs s !! dir = Some d -> kernel_directory s = kd -> dirs s !! kd = Some k -> dirs s !! clone = Some c ->
  clone <> dir -> clone <> kd -> length (tables d) = 1024%nat -> length (entries d) = 1024%nat ->
  (forall j t, tables d !! j = Some t -> t <> 0 -> tables k !! j = Some t) ->
  (i + n = 1024)%nat -> cloned d c i ->
  exists c', clone_tables kmalloc_ap n i dir clone s = Ok (tt, set_dirs (<[clone := c']> (dirs s)) s) /\
    cloned d c' 1024 /\ entries_phys_addr c' = entries_phys_addr c.
Proof.
  revert i s c. induction n as [|n IH]; intros i s c Hd Hkd Hk Hc N1 N2 L1 L2 Hsh Hn Cl.
  { exists c. replace i with 1024%nat in Cl by lia. split; [| done]. rewrite insert_id by done. by destruct s. }
  destruct (lookup_lt_is_Some_2 (tables d) i) as [t Ht]; [lia |].
  destruct (lookup_lt_is_Some_2 (entries d) i) as [e He]; [lia |].
  assert (Cl' := cloned_step d c i t e Cl ltac:(lia) Ht He).
  cbn [clone_tables]. rewrite (bind_ok _ _ _ _ _ (load_dir_ok _ _ _ Hd)), Ht, He. cbn [from_option id].
  destruct (Z.eqb_spec t 0) as [E0|E0].
  - rewrite (bind_ok _ _ _ _ _ (ret_ok _ _)). apply (IH (S i)); try done; lia.
  - set (c1 := PageDir _ _ _) in Cl'.
    assert (Step : (kd ← gets kernel_directory; k ← load_dir kd;
       if default 0 (tables k !! i) =? t
       then c ← load_dir clone;
            store_dir clone (PageDir (<[i := e]> (entries c)) (entries_phys_addr c) (<[i := t]> (tables c)))
       else '(t', phys) ← clone_page_table kmalloc_ap t;
            c ← load_dir clone;
            store_dir clone (PageDir (<[i := set_pde_base (Z.shiftr phys 12) e]> (entries c))
                              (entries_phys_addr c) (<[i := t']> (tables c)))) s
       = Ok (tt, set_dirs (<[clone := c1]> (dirs s)) s)).
    { rewrite (bind_ok _ _ s kd s) by (unfold gets; by rewrite Hkd).
      rewrite (bind_ok _ _ _ _ _ (load_dir_ok _ _ _ Hk)), (Hsh i t Ht E0). cbn [from_option id].
      rewrite Z.eqb_refl. by rewrite (bind_ok _ _ _ _ _ (load_dir_ok _ _ _ Hc)). }
    rewrite (bind_ok _ _ _ _ _ Step).
    destruct (IH (S i) (set_dirs (<[clone := c1]> (dirs s)) s) c1) as (c' & Run & Cl1 & Ph); try done.
    + cbn [dirs set_dirs]. by rewrite lookup_insert_ne.
    + cbn [dirs set_dirs]. by rewrite lookup_insert_ne.
    + cbn [dirs set_dirs]. by rewrite lookup_insert_eq.
    + lia.
    + exists c'. split; [| done]. rewrite Run. cbn [dirs set_dirs]. by rewrite insert_insert_eq.
Qed.

Lemma clone_dir_ok s dir d k R :
  pg_ok phys_of s -> room R s -> PAGE_DIR_SIZE + 4096 <= R -> dirs s !! dir = Some d ->
  dirs s !! kernel_directory s = Some k ->
  (forall j t, tables d !! j = Some t -> t <> 0 -> tables k !! j = Some t) ->
  exists clone c p, clone_page_directory kmalloc_ap dir s =
      Ok (clone, set_placement p (set_dirs (<[clone := c]> (dirs s)) s)) /\
    dirs s !! clone = None /\ 0 < clone /\ tables c = tables d /\ entries_phys_addr c = phys_of clone /\
    forall j t, tables d !! j = Some t -> t <> 0 -> entries c !! j = entries d !! j.
Proof.
  intros Ok Rm HR Hd Hk Hsh.
  destruct (new_dir_ok kmalloc_ap phys_of room s R Ok Rm HR) as (clone & p & Hal & Hc & _ & Nc & _).
  set (c0 := PageDir (entries zero_dir) (phys_of clone) (tables zero_dir)).
  set (s1 := set_dirs (<[clone := c0]> (dirs s)) (set_placement p s)).
  assert (Od := po_dirs _ _ Ok dir d Hd).
  assert (N1 : clone <> dir) by congruence. assert (N2 : clone <> kernel_directory s) by congruence.
  destruct (clone_tables_ok 1024 0 s1 dir d k (kernel_directory s) clone c0) as (c & Run & Cl & Ph); try done.
  - cbn [dirs set_dirs s1]. by rewrite lookup_insert_ne.
  - cbn [dirs set_dirs s1]. by rewrite lookup_insert_ne.
  - cbn [dirs set_dirs s1]. by rewrite lookup_insert_eq.
  - apply Od.
  - apply Od.
  - unfold c0, zero_dir. split; cbn [tables entries]; try (apply length_replicate); try lia.
    intros j Hj. apply lookup_replicate_2. lia.
  - exists clone, c, p. split_and!; try done; try lia.
    + unfold clone_page_directory. rewrite (bind_ok _ _ _ _ _ Hal). cbn beta iota.
      set (sz := set_dirs (<[clone := zero_dir]> (dirs s)) (set_placement p s)).
      rewrite (bind_ok _ _ (set_placement p s) tt sz) by done.
      rewrite (bind_ok _ _ _ _ _ (load_dir_ok sz clone zero_dir (lookup_insert_eq _ _ _))).
      assert (St : store_dir clone (PageDir (entries zero_dir) (phys_of clone) (tables zero_dir)) sz = Prelude.Ok (tt, s1)).
      { unfold store_dir, modify, sz, s1. cbn [dirs set_dirs]. by rewrite insert_insert_eq. }
      rewrite (bind_ok _ _ _ _ _ St), (bind_ok _ _ _ _ _ Run). unfold s1. cbn [dirs set_dirs].
      by rewrite insert_insert_eq.
    + apply list_eq. intros j. destruct (decide (j < 1024)%nat) as [Hj|Hj]; [by apply Cl |].
      rewrite !lookup_ge_None_2; [done | | ]; [rewrite (do_tables _ _ _ Od) | rewrite (cl_tables _ _ _ Cl)]; lia.
    + intros j t Hj Hn. eapply cl_entry; eauto. apply lookup_lt_Some in Hj as Hlt.
      rewrite (do_tables _ _ _ Od) in Hlt. lia.
Qed.

(** A table of its own with a mapped page cannot be cloned: copy_frame stops. *)
Lemma clone_pages_stops n i table clone s e s1 c :
  pte_at s (table + 4 * i) = Some e -> p_frame e <> 0 ->
  alloc_page (clone + 4 * i) 0 0 s = Ok (tt, s1) -> pte_at s1 (clone + 4 * i) = Some c ->
  clone_pages (S n) i table clone s = Err Stopped.
Proof.
  intros He Hf Ha Hc. cbn [clone_pages]. rewrite (bind_ok _ _ _ _ _ (load_pte_ok _ _ _ He)).
  rewrite (proj2 (Z.eqb_neq _ _) Hf). cbn [negb when]. apply bind_err.
  rewrite (bind_ok _ _ _ _ _ Ha), (bind_ok _ _ _ _ _ (load_pte_ok _ _ _ Hc)).
  destruct (store_pte_ok s1 _ c (set_pframe (p_frame c) e) Hc) as (T & St & _).
  by rewrite (bind_ok _ _ _ _ _ St).
Qed.
End clone.
