(* ===== verification/HeapTables.v ===== *)
(** The pages of the heap in the page tables.

    [heap_pages] says that every page the heap can have has an entry, the same in
    the heap's directory and in the current one, and that no other entry has its
    frame. alloc_page takes a free frame; free_page keeps the frame in use or frees
    it, and nobody else has it. *)

From S2P Require Import Prelude Frames Paging PagingSpec.

(** ** Entries *)

Lemma alloc_page_kept phys_of s p e k w :
  pg_ok phys_of s -> pte_at s p = Some e -> p_frame e <> 0 ->
  exists s', alloc_page p k w s = Ok (tt, s') /\ pg_ok phys_of s' /\ bm s' = bm s /\
    only_entry p (set_flags 1 (flag w) (nflag k) e) s s'.
Proof.
  intros Ok He H0. destruct (store_pte_ok s p e (set_flags 1 (flag w) (nflag k) e) He) as (T & Hst & P & D & L).
  exists (set_ptables T s). split_and!; try done.
  - unfold alloc_page. rewrite (bind_ok _ _ _ _ _ (load_pte_ok _ _ _ He)). by rewrite (proj2 (Z.eqb_neq _ _) H0).
  - eapply store_pte_pg_ok; [done | exact He | exact Hst | exact (po_range _ _ Ok p e He) | exact (po_frames _ _ Ok p e He)].
Qed.

(** alloc_page while a frame is free. *)
Lemma alloc_page_runs phys_of s p e k w :
  pg_ok phys_of s -> frame_status (bm s) 0 = Some true -> pte_at s p = Some e -> used_frames (bm s) < nframes (bm s) ->
  exists s' e', alloc_page p k w s = Ok (tt, s') /\ pg_ok phys_of s' /\ only_entry p e' s s' /\ p_present e' = 1 /\
    frame_status (bm s') 0 = Some true /\ nframes (bm s') = nframes (bm s) /\ used_frames (bm s') <= used_frames (bm s) + 1 /\
    (p_frame e' = p_frame e \/ 0 < p_frame e' < nframes (bm s) /\ forall q eq, pte_at s q = Some eq -> p_frame eq <> p_frame e').
Proof.
  intros Ok Z0 He Hu. destruct (decide (p_frame e = 0)) as [E0|E0].
  - destruct (first_free_exists _ (po_bm _ _ Ok) Hu) as (f & Hff). assert (Hff' := Hff). destruct Hff' as (Hf & Hs & _).
    assert (Hf0 : f <> 0) by (intros ->; congruence).
    destruct (alloc_page_new phys_of s p e f k w Ok He E0 Hff Hf0) as (s' & Run & Ok' & Ef & P & Fresh & Mk & Us & D & Pl & KD & CD & C3 & T).
    exists s', (set_flags 1 (flag w) (nflag k) (set_pframe f e)). split_and!; try done.
    + by eapply marked_keeps.
    + apply Mk.
    + lia.
    + right. rewrite Ef. pose proof (status_range _ (po_bm _ _ Ok) f _ Hf Hs). split; [lia | exact Fresh].
  - destruct (alloc_page_kept phys_of s p e k w Ok He E0) as (s' & Run & Ok' & B & O). exists s', (set_flags 1 (flag w) (nflag k) e).
    rewrite B. split_and!; try done; [lia | by left].
Qed.

(** free_page of a page whose frame nobody else has. *)
Lemma free_page_runs phys_of s p e :
  pg_ok phys_of s -> frame_status (bm s) 0 = Some true -> pte_at s p = Some e ->
  (p_frame e <> 0 -> p_frame e < nframes (bm s) /\ forall q eq, pte_at s q = Some eq -> p_frame eq = p_frame e -> same_entry q p) ->
  exists s', free_page p s = Ok (tt, s') /\ pg_ok phys_of s' /\ only_entry p (set_pframe 0 (set_present 0 e)) s s' /\
    frame_status (bm s') 0 = Some true /\ nframes (bm s') = nframes (bm s) /\ used_frames (bm s') <= used_frames (bm s).
Proof.
  intros Ok Z0 He Pr. set (e' := set_pframe 0 (set_present 0 e)). pose proof (po_range _ _ Ok p e He) as Rg.
  assert (Same : exists s', store_pte p e' s = Prelude.Ok (tt, s') /\ pg_ok phys_of s' /\ only_entry p e' s s' /\ bm s' = bm s).
  { destruct (store_pte_ok s p e e' He) as (T & Hst & P & D & L). exists (set_ptables T s). split_and!; try done.
    eapply store_pte_pg_ok; [done | exact He | exact Hst | apply Z.mod_pos_bound; lia | done]. }
  unfold free_page. rewrite (bind_ok _ _ _ _ _ (load_pte_ok _ _ _ He)).
  destruct (Z.eqb_spec (p_frame e) 0) as [E0|E0]; cbn [negb when].
  { destruct Same as (s' & Run & Ok' & O & B). exists s'. rewrite B. by split_and!. }
  destruct (Pr E0) as [Lt Own]. assert (Hs := po_frames _ _ Ok p e He E0 Lt).
  destruct (decide (p_frame e mod 32 = 0)) as [M|M].
  - destruct (clear_frame_first _ _ (po_bm _ _ Ok) (proj1 Rg) M Hs) as (b & Hc & Hb & Mk & Us).
    rewrite (bind_ok _ _ _ _ _ (on_bm_ok _ _ _ _ Hc)).
    destruct (store_pte_ok (set_bm b s) p e e' He) as (T & Hst & P & D & L).
    exists (set_ptables T (set_bm b s)). split_and!; try done.
    + split; cbn [bm set_ptables set_bm].
      * done.
      * intros t l Hl. destruct (L t l Hl) as (l' & Hl' & ->). by eapply (po_tables _ _ Ok).
      * intros a d Hd. destruct (po_dirs _ _ Ok a d Hd) as [D1 D2 D3 D4]. split; try done. intros i t Hi Ht. apply D. by eapply D3.
      * intros q eq Hq. rewrite P in Hq. case_decide; [simplify_eq; apply Z.mod_pos_bound; lia | by eapply (po_range _ _ Ok)].
      * intros q eq Hq H0 Hlt. rewrite P in Hq. case_decide as Se; [simplify_eq; done |].
        rewrite (mk_nframes _ _ _ _ Mk) in Hlt. rewrite (mk_other _ _ _ _ Mk); [by eapply (po_frames _ _ Ok) | by eapply (po_range _ _ Ok) |].
        intros E. by destruct (Se (Own q eq Hq E)).
    + cbn [bm set_ptables set_bm]. by rewrite (mk_other _ _ _ _ Mk).
    + cbn [bm set_ptables set_bm]. apply Mk.
  - rewrite (bind_ok _ _ _ _ _ (on_bm_read _ _ _ (clear_frame_stuck _ _ _ (or_introl M) Hs))).
    destruct Same as (s' & Run & Ok' & O & B). exists s'. rewrite B. by split_and!.
Qed.

(** ** The pages that the heap can have *)

(** The kernel directory and the current one share the tables of every page from
    [lo] to [hi], and no other page has the frame of one of them. *)
Record heap_pages (s : pg) (dir lo hi : Z) : Prop := {
  hp_ok : exists phys_of, pg_ok phys_of s;
  hp_dir : dir <> 0;
  hp_kernel : kernel_directory s = dir;
  hp_zero : frame_status (bm s) 0 = Some true;
  hp_entry : forall a, lo <= a < hi -> a mod 4096 = 0 -> exists p e,
    walk s dir a = Some p /\ walk s (current_directory s) a = Some p /\ pte_at s p = Some e;
  hp_own : forall a p e, lo <= a < hi -> a mod 4096 = 0 -> walk s dir a = Some p -> pte_at s p = Some e -> p_frame e <> 0 ->
    p_frame e < nframes (bm s) /\ forall q eq, pte_at s q = Some eq -> p_frame eq = p_frame e -> same_entry q p
}.

Definition frames_left (s : pg) : Z := nframes (bm s) - used_frames (bm s).

(** One entry changes: its new frame is none, or no other entry has it. *)
Lemma heap_pages_entry phys_of s s' dir lo hi p e' :
  heap_pages s dir lo hi -> pg_ok phys_of s' -> only_entry p e' s s' -> frame_status (bm s') 0 = Some true ->
  nframes (bm s') = nframes (bm s) ->
  (p_frame e' <> 0 -> p_frame e' < nframes (bm s) /\ forall q eq, pte_at s q = Some eq -> p_frame eq = p_frame e' -> same_entry q p) ->
  heap_pages s' dir lo hi.
Proof.
  intros [_ Hd Hk _ En Ow] Ok' O Z' N New. assert (W := fun d v => walk_only_entry _ _ _ _ d v O).
  split; [by exists phys_of | done | by rewrite (oe_kernel _ _ _ _ O) | done | |].
  - intros a Ha Aa. destruct (En a Ha Aa) as (q & e & W1 & W2 & He). rewrite (proj1 (oe_current _ _ _ _ O)), !W.
    destruct (decide (same_entry q p)) as [Se|Se].
    + exists q, e'. by rewrite (oe_pte _ _ _ _ O), decide_True.
    + exists q, e. by rewrite (oe_pte _ _ _ _ O), decide_False.
  - intros a q e Ha Aa Wq He F0. rewrite W in Wq. rewrite (oe_pte _ _ _ _ O) in He. rewrite N. case_decide as Sq.
    + injection He as <-. destruct (New F0) as [Lt Own]. split; [done |]. intros q2 e2 H2 E2.
      rewrite (oe_pte _ _ _ _ O) in H2. rewrite Sq. case_decide; [done | by eapply Own].
    + destruct (Ow a q e Ha Aa Wq He F0) as [Lt Own]. split; [done |]. intros q2 e2 H2 E2.
      rewrite (oe_pte _ _ _ _ O) in H2. case_decide as S2; [| by eapply Own]. injection H2 as <-.
      destruct (New ltac:(congruence)) as [_ Own']. by destruct (Sq (Own' q e He (eq_sym E2))).
Qed.

(** The new frame of alloc_page belongs to one entry. *)
Lemma heap_pages_new s dir lo hi a p e e' :
  heap_pages s dir lo hi -> lo <= a < hi -> a mod 4096 = 0 -> walk s dir a = Some p -> pte_at s p = Some e ->
  (p_frame e' = p_frame e \/ 0 < p_frame e' < nframes (bm s) /\ forall q eq, pte_at s q = Some eq -> p_frame eq <> p_frame e') ->
  p_frame e' <> 0 -> p_frame e' < nframes (bm s) /\ forall q eq, pte_at s q = Some eq -> p_frame eq = p_frame e' -> same_entry q p.
Proof.
  intros Hp Ha Aa W He [E|[Rg Fresh]] F0; [rewrite E in *; by eapply (hp_own _ _ _ _ Hp) | split; [lia |]].
  intros q eq Hq E. by destruct (Fresh q eq Hq E).
Qed.

(** A smaller range. *)
Lemma heap_pages_sub s dir lo hi lo' hi' : heap_pages s dir lo hi -> lo <= lo' -> hi' <= hi -> heap_pages s dir lo' hi'.
Proof.
  intros [Hk Hd Hr Hz En Ow] L1 L2. split; try done; [intros a Ha | intros a p e Ha]; [apply En | apply Ow]; lia.
Qed.

(** The loop of paging_finalize over the first pages of the heap. *)
Lemma alloc_heap_pages_kept kmalloc_ap n virt s s' dir lo hi :
  heap_pages s dir lo hi -> lo <= virt -> virt + 4096 * Z.of_nat n <= hi -> hi <= 2 ^ 32 -> 0 <= virt -> virt mod 4096 = 0 ->
  Z.of_nat n <= frames_left s -> alloc_heap_pages kmalloc_ap n virt s = Ok (tt, s') ->
  heap_pages s' dir lo hi /\ nframes (bm s') = nframes (bm s).
Proof.
  revert virt s. induction n as [|n IH]; intros virt s Hp Lo Hi Top H0 Al Fr Run.
  { by injection Run as <-. }
  destruct (hp_ok _ _ _ _ Hp) as [phys_of Ok]. destruct (hp_entry _ _ _ _ Hp virt) as (p & e & W1 & W2 & He); [lia | done |].
  destruct (alloc_page_runs phys_of s p e 0 1 Ok (hp_zero _ _ _ _ Hp) He) as (s1 & e1 & R1 & Ok1 & O & Pr & Z1 & N & U & New);
    [unfold frames_left in *; lia |].
  cbn [alloc_heap_pages] in Run. rewrite (bind_ok _ _ s dir s) in Run by (unfold gets; by rewrite (hp_kernel _ _ _ _ Hp)).
  rewrite (bind_ok _ _ _ _ _ (get_page_walk kmalloc_ap _ virt 1 dir p (hp_dir _ _ _ _ Hp) W1)), (bind_ok _ _ _ _ _ R1) in Run.
  assert (Hp1 : heap_pages s1 dir lo hi).
  { eapply heap_pages_entry; [exact Hp | exact Ok1 | exact O | done | done |].
    eapply heap_pages_new; [exact Hp | | exact Al | exact W1 | exact He | exact New]. lia. }
  unfold FRAME_SIZE in Run. destruct n as [|n].
  - by injection Run as <-.
  - rewrite u32_small in Run by lia. rewrite <- N. eapply (IH (virt + 4096) s1); try done; try lia.
    + Z.div_mod_to_equations. lia.
    + unfold frames_left in *. lia.
Qed.

(** ** A directory with one table that has no pages *)

Definition small_dir : page_dir :=
  PageDir (<[0%nat := map_table 0x1000 zero_pde]> (replicate 1024 zero_pde)) 0x2000 (<[0%nat := 0x1000]> (replicate 1024 0)).
Definition small_tables : pg := Pg (Bitmap [1] 32 1) {[ 0x2000 := small_dir ]} {[ 0x1000 := zero_table ]} 0x2000 0x2000 0x5000 0x2000.

Lemma small_tables_entry q e : pte_at small_tables q = Some e -> e = zero_pte.
Proof.
  unfold pte_at, small_tables. cbn [ptables]. destruct (decide (table_of q = 0x1000)) as [->|Ne].
  - rewrite lookup_singleton_eq. by intros [-> _]%lookup_replicate.
  - by rewrite lookup_singleton_ne.
Qed.

Lemma small_tables_ok : pg_ok (fun a => a) small_tables.
Proof.
  split.
  - split; simpl; try lia; [repeat constructor; lia | reflexivity].
  - unfold small_tables. cbn [ptables]. intros t l [<- <-]%lookup_singleton_Some. split; [apply length_replicate | done].
  - intros a d Hd. unfold small_tables in Hd. cbn [dirs] in Hd. apply lookup_singleton_Some in Hd as [<- <-]. split; cbn [entries tables small_dir].
    + by rewrite length_insert, length_replicate.
    + by rewrite length_insert, length_replicate.
    + intros i t. rewrite list_lookup_insert_Some. intros [(<- & <- & _)|[_ [-> _]%lookup_replicate]]; [| done].
      intros _. cbn [ptables small_tables]. rewrite lookup_singleton_eq. by eexists.
    + intros i t e. rewrite !list_lookup_insert_Some.
      intros [(<- & <- & _)|[Ni [-> _]%lookup_replicate]] [(E & <- & _)|[Ne [-> _]%lookup_replicate]]; try done.
  - intros q e ->%small_tables_entry. simpl. lia.
  - by intros q e ->%small_tables_entry.
Qed.

Lemma small_heap_pages lo hi : 0 <= lo -> hi <= 2 ^ 22 -> heap_pages small_tables 0x2000 lo hi.
Proof.
  intros Hlo Hhi. split.
  - exists (fun a => a). apply small_tables_ok.
  - done.
  - reflexivity.
  - reflexivity.
  - intros a Ha _. assert (Ei : Z.to_nat (PAGE_DIRECTORY_INDEX a) = 0%nat).
    { rewrite dir_index by lia. rewrite Z.div_small by lia. done. }
    assert (W : walk small_tables 0x2000 a = Some (0x1000 + 4 * PAGE_TABLE_INDEX a)).
    { unfold walk, small_tables. cbn [dirs]. rewrite lookup_singleton_eq, Ei. done. }
    exists (0x1000 + 4 * PAGE_TABLE_INDEX a), zero_pte. split_and!; [exact W | exact W |].
    pose proof (table_index_range a) as R.
    unfold pte_at, table_of, index_of, small_tables. cbn [ptables].
    replace (0x1000 + 4 * PAGE_TABLE_INDEX a - (0x1000 + 4 * PAGE_TABLE_INDEX a) mod 4096) with 0x1000 by (Z.div_mod_to_equations; lia).
    rewrite lookup_singleton_eq. cbn [mbind option_bind]. apply lookup_replicate_2. Z.div_mod_to_equations. lia.
  - by intros a p e _ _ _ ->%small_tables_entry.
Qed.
