(* ===== verification/PagingBoot.v ===== *)
(** The memory manager as the kernel starts it: frames, pages and the two
    loops of paging_finalize, composed over the boot-time allocator. *)

From S2P Require Import Prelude Frames Paging PagingSpec HeapTables.

(** paging_finalize up to the creation of the heap: the kernel's tables, the
    new directory in cr3, and the pages of the heap. (The page fault handler
    it attaches in between is in the table of handlers, another state.) *)
Definition KHEAP_START : Z := 0xd0000000.
Definition KHEAP_INITIAL_SIZE : Z := 0x00100000.

Definition finalize_pages (kmalloc_ap : Z -> M pg (Z * Z)) (fuel : nat) (kernel_voffset : Z) : M pg unit :=
  finalize_tables kmalloc_ap fuel kernel_voffset;;
  kd ← gets kernel_directory;
  switch_page_directory kd;;
  alloc_heap_pages kmalloc_ap (Z.to_nat (KHEAP_INITIAL_SIZE / FRAME_SIZE)) KHEAP_START.

(** ** Lemmas *)

(** A state without tables satisfies the invariant. *)
Lemma no_tables_ok phys_of s :
  bitmap_ok (bm s) -> dirs s = ∅ -> ptables s = ∅ -> pg_ok phys_of s.
Proof.
  intros Hb Ed Et.
  assert (N : forall q, pte_at s q = None) by (intros q; unfold pte_at; by rewrite Et, lookup_empty).
  split; [done | | | |].
  - intros t l. by rewrite Et, lookup_empty.
  - intros a d. by rewrite Ed, lookup_empty.
  - intros q e. by rewrite N.
  - intros q e. by rewrite N.
Qed.

(** Switching to a directory changes no table. *)
Lemma switch_ok s dir d :
  dir <> 0 -> dirs s !! dir = Some d ->
  exists old s', switch_page_directory dir s = Ok (old, s') /\ bm s' = bm s /\ dirs s' = dirs s /\
    ptables s' = ptables s /\ kernel_directory s' = kernel_directory s /\
    placement_address s' = placement_address s /\
    current_directory s' = dir /\ cr3 s' = entries_phys_addr d.
Proof.
  intros H0 Hd. unfold switch_page_directory. rewrite (proj2 (Z.eqb_neq _ _) H0).
  set (s1 := Pg (bm s) (dirs s) (ptables s) dir (kernel_directory s) (placement_address s) (cr3 s)).
  rewrite (bind_ok _ _ s tt s1) by done. rewrite (bind_ok _ _ s1 (cr3 s1) s1) by done.
  rewrite (bind_ok _ _ _ _ _ (load_dir_ok s1 dir d Hd)).
  eexists _, _. split; [by rewrite (bind_ok _ _ _ tt _ eq_refl) |]. split_and!; done.
Qed.

(** The walk and the entries depend on the directories and the tables only. *)
Lemma walk_dirs s s' dir virt : dirs s' = dirs s -> walk s' dir virt = walk s dir virt.
Proof. unfold walk. by intros ->. Qed.
Lemma pte_tables s s' q : ptables s' = ptables s -> pte_at s' q = pte_at s q.
Proof. unfold pte_at. by intros ->. Qed.

Lemma kdir_dirs kd b k s s' : dirs s' = dirs s -> kdir kd b k s -> kdir kd b k s'.
Proof. intros E [K]. split. by rewrite E. Qed.

(** ** Frames stay in use

    No step of paging_finalize gives a frame back. [keeping c]: no run of [c]
    does. *)

Definition keeps_used (s s' : pg) : Prop :=
  forall f, frame_status (bm s) f = Some true -> frame_status (bm s') f = Some true.

#[global] Instance keeps_used_preorder : PreOrder keeps_used.
Proof. split; [by intros s f | intros s1 s2 s3 K1 K2 f Hf; by apply K2, K1]. Qed.

Definition keeping {A} (c : M pg A) : Prop := forall s a s', c s = Ok (a, s') -> keeps_used s s'.

Create HintDb keeping.

Section keeping.
Context {A B : Type}.

Lemma keeping_bind (c : M pg A) (f : A -> M pg B) : keeping c -> (forall a, keeping (f a)) -> keeping (c ≫= f).
Proof.
  intros Kc Kf s b s'' (a & s' & E1 & E2)%bind_ok_inv. etransitivity; [by eapply Kc | by eapply Kf].
Qed.

Lemma keeping_ret (a : A) : keeping (mret a).
Proof. by intros s ? ? [= <- <-]. Qed.

Lemma keeping_throw e : keeping (throw e : M pg A).
Proof. by intros s ? ?. Qed.

Lemma keeping_gets (f : pg -> A) : keeping (gets f).
Proof. by intros s ? ? [= <- <-]. Qed.

Lemma keeping_modify (f : pg -> pg) : (forall s, bm (f s) = bm s) -> keeping (modify f).
Proof. intros Hf s ? ? [= <- <-] g Hg. by rewrite Hf. Qed.

Lemma keeping_when (b : bool) (c : M pg unit) : keeping c -> keeping (when b c).
Proof. destruct b; [done|]. intros _ s ? ? [= <- <-]. done. Qed.

Lemma keeping_if (b : bool) (c d : M pg A) : keeping c -> keeping d -> keeping (if b then c else d).
Proof. by destruct b. Qed.
End keeping.

Lemma keeping_assert b : keeping (assert b).
Proof. destruct b; [apply keeping_ret | apply keeping_throw]. Qed.

Lemma keeping_load_dir d : keeping (load_dir d).
Proof. intros s a s'. unfold load_dir. destruct (dirs s !! d); [|done]. by intros [= <- <-]. Qed.

Lemma keeping_load_pte p : keeping (load_pte p).
Proof. intros s a s'. unfold load_pte. case_match; [|done]. by intros [= <- <-]. Qed.

Lemma keeping_store_pte p e : keeping (store_pte p e).
Proof. intros s a s'. unfold store_pte. destruct (ptables s !! _); [|done]. intros [= <- <-] g Hg. exact Hg. Qed.

(** set_frame sets a bit of a word. *)
Lemma keeping_set_frame f : keeping (on_bm (set_frame f)).
Proof.
  intros s [] s' E. unfold on_bm, zoom in E. destruct (set_frame f (bm s)) as [[[] b]|] eqn:E1; [|done].
  injection E as <-. intros g Hg. cbn [bm set_bm]. unfold set_frame in E1.
  apply bind_ok_inv in E1 as (t & b0 & Et & E1). assert (b0 = bm s) as ->.
  { unfold test_frame in Et. apply bind_ok_inv in Et as (w & b1 & Ew & Et). unfold frames_at in Ew.
    destruct (frames (bm s) !! _); [|done]. injection Ew as <- <-. by injection Et as _ <-. }
  destruct (t =? 0); cbn [when] in E1; [|by injection E1 as <-].
  apply bind_ok_inv in E1 as (w & b1 & Ew & E1). unfold frames_at in Ew.
  destruct (frames (bm s) !! Z.to_nat (BIT_TO_IDX f)) as [w'|] eqn:Hw; [|done]. injection Ew as <- <-.
  apply bind_ok_inv in E1 as ([] & b2 & Es & E1). unfold set_frames_at in Es. rewrite Hw in Es. injection Es as <-.
  injection E1 as <-. unfold frame_status in *. cbn [frames].
  destruct (decide (Z.to_nat (g / 32) = Z.to_nat (BIT_TO_IDX f))) as [E|E].
  - rewrite E, list_lookup_insert_eq by (by eapply lookup_lt_Some). rewrite E, Hw in Hg. cbn [fmap option_fmap option_map] in *.
    injection Hg as Hg. by rewrite Z.lor_spec, Hg.
  - by rewrite list_lookup_insert_ne by done.
Qed.

#[export] Hint Resolve keeping_ret keeping_throw keeping_gets keeping_when keeping_if keeping_assert keeping_load_dir
  keeping_load_pte keeping_store_pte keeping_set_frame : keeping.
#[export] Hint Extern 1 (keeping (modify _)) => by apply keeping_modify : keeping.
#[export] Hint Extern 1 (keeping (store_dir _ _)) => by apply keeping_modify : keeping.

(** Split a sequence of steps; the rest is in the hints. *)
Ltac keep :=
  repeat first [ apply keeping_bind; [|intros ?] | apply keeping_when | match goal with |- keeping (match ?x with _ => _ end) => destruct x end | progress cbv zeta ];
  eauto with keeping.

Section finalize_keeps.
Context (kmalloc_ap : Z -> M pg (Z * Z)) (Hk : forall size, keeping (kmalloc_ap size)).
#[local] Hint Resolve Hk : keeping.

Lemma keeping_get_page virt make dir : keeping (get_page kmalloc_ap virt make dir).
Proof. unfold get_page. keep. Qed.
#[local] Hint Resolve keeping_get_page : keeping.

Lemma keeping_map_page page k w phys : keeping (map_page page k w phys).
Proof. unfold map_page. keep. Qed.
#[local] Hint Resolve keeping_map_page : keeping.

Lemma keeping_prealloc n : forall virt dir, keeping (prealloc_tables kmalloc_ap n virt dir).
Proof. induction n; intros; cbn [prealloc_tables]; keep. Qed.
#[local] Hint Resolve keeping_prealloc : keeping.

Lemma keeping_map_kernel fuel : forall virt phys, keeping (map_kernel kmalloc_ap fuel virt phys).
Proof. induction fuel; intros; cbn [map_kernel]; keep. Qed.
#[local] Hint Resolve keeping_map_kernel : keeping.

Lemma keeping_finalize_tables fuel kv : keeping (finalize_tables kmalloc_ap fuel kv).
Proof. unfold finalize_tables. keep. Qed.
End finalize_keeps.

Lemma keeping_placement kv size : keeping (placement_ap kv size).
Proof. unfold placement_ap. keep. Qed.

(** ** Frames *)

(** while a frame is free, first_free_frame returns the lowest free frame,
    one of memory, and set_frame then marks exactly that frame and counts it;
    the bitmap stays well formed. *)
Theorem frame_claim s :
  bitmap_ok s -> used_frames s < nframes s ->
  exists f s', first_free_frame s = Ok (f, s) /\ set_frame f s = Ok (tt, s') /\
    0 <= f < nframes s /\ frame_status s f = Some false /\
    (forall g, 0 <= g < f -> frame_status s g = Some true) /\
    bitmap_ok s' /\ marked f true s s' /\ used_frames s' = used_frames s + 1.
Proof.
  intros Ok Hu. destruct (first_free_exists s Ok Hu) as (f & Hff). assert (Hff' := Hff).
  destruct Hff as (Hf & Hs & Hm). destruct (set_frame_ok s f false Ok Hf Hs) as (s' & Run & Ok' & Mk & Us).
  exists f, s'. split_and!; try done; [by apply first_free_frame_ok | by eapply status_range].
Qed.

Lemma frame_claim_witness :
  let s := Bitmap [0xffffffff; 0x7] 64 35 in
  exists f s', first_free_frame s = Ok (f, s) /\ set_frame f s = Ok (tt, s') /\
    0 <= f < nframes s /\ frame_status s f = Some false /\
    (forall g, 0 <= g < f -> frame_status s g = Some true) /\
    bitmap_ok s' /\ marked f true s s' /\ used_frames s' = used_frames s + 1.
Proof.
  intros s. apply (frame_claim s); [| simpl; lia]. split; simpl; try lia.
  - repeat constructor; lia.
  - reflexivity.
Defined.

(** when every frame is in use, the search does not report "Out of usable
    memory": the word index runs over [nframes] words although the bitmap has
    one word for 32 frames, so it reads behind the bitmap. *)
Theorem first_free_overruns s num :
  bitmap_ok s -> 0 < num -> 0 < nframes s ->
  (forall g, 0 <= g < nframes s -> frame_status s g = Some true) ->
  first_free_frames num s = Err (OutOfBounds (nframes s / 32)).
Proof. intros Ok. by apply first_free_exhausted. Qed.

Lemma first_free_overruns_witness :
  first_free_frames 1 (Bitmap [0xffffffff] 32 32) = Err (OutOfBounds 1).
Proof.
  apply (first_free_overruns (Bitmap [0xffffffff] 32 32) 1); [| lia | simpl; lia |].
  - split; simpl; try lia; [repeat constructor; lia | reflexivity].
  - intros g Hg. simpl in Hg. unfold frame_status. rewrite Z.div_small, Z.mod_small by lia. simpl.
    f_equal. change 0xffffffff with (Z.ones 32). rewrite Z.testbit_ones by lia. lia.
Defined.

(** clear_frame frees only the frames whose number is a multiple of 32,
    because it compares the masked word with 1: a used frame of the first bit
    of a word is marked free and counted, for every other frame the call
    changes nothing and the frame stays in use. *)
Theorem clear_frame_only_first s f :
  bitmap_ok s -> 0 <= f -> frame_status s f = Some true ->
  if f mod 32 =? 0 then
    exists s', clear_frame f s = Ok (tt, s') /\ bitmap_ok s' /\ marked f false s s'
  else clear_frame f s = Ok (tt, s).
Proof.
  intros Ok Hf Hs. destruct (Z.eqb_spec (f mod 32) 0) as [E|E].
  - destruct (clear_frame_first s f) as (s' & ? & ? & ? & _); try done. by exists s'.
  - eapply clear_frame_stuck; [by left | done].
Qed.

Lemma clear_frame_only_first_witness : clear_frame 2 (Bitmap [0x7] 32 3) = Ok (tt, Bitmap [0x7] 32 3).
Proof.
  apply (clear_frame_only_first (Bitmap [0x7] 32 3) 2); [| lia | reflexivity].
  split; simpl; try lia; [repeat constructor; lia | reflexivity].
Defined.

(** ** Pages *)

(** C20: alloc_page on an entry without a frame, while a frame other than frame
    0 is free, gives the entry a frame that no entry of any table had, marks
    that frame used, sets the permissions, and leaves every other entry and
    every directory alone; the tables stay consistent with the bitmap. *)
Theorem alloc_page_fresh phys_of s page e is_kernel is_writeable :
  pg_ok phys_of s -> pte_at s page = Some e -> p_frame e = 0 -> frame_status (bm s) 0 = Some true ->
  used_frames (bm s) < nframes (bm s) ->
  exists s' e', alloc_page page is_kernel is_writeable s = Ok (tt, s') /\ pg_ok phys_of s' /\
    only_entry page e' s s' /\ p_present e' = 1 /\
    p_read_write e' = flag is_writeable /\ p_user_supervisor e' = nflag is_kernel /\
    0 < p_frame e' < nframes (bm s) /\ frame_status (bm s) (p_frame e') = Some false /\
    marked (p_frame e') true (bm s) (bm s') /\
    (forall q eq, pte_at s q = Some eq -> p_frame eq <> p_frame e').
Proof.
  intros Ok He H0 Hz Hu. destruct (first_free_exists _ (po_bm _ _ Ok) Hu) as (f & Hff).
  assert (Hf0 : f <> 0) by (destruct Hff as (_ & Hs & _); intros ->; congruence).
  destruct (alloc_page_new phys_of s page e f is_kernel is_writeable Ok He H0 Hff Hf0)
    as (s' & Run & Ok' & Ef & P & Fresh & Mk & Us & D & Pl & KD & CD & C3 & T).
  destruct Hff as (Hf & Hs & _). pose proof (status_range _ (po_bm _ _ Ok) f _ Hf Hs).
  eexists s', _. split; [exact Run |]. rewrite Ef. split_and!; try done; lia.
Qed.

(** One table whose first entry is in use. *)
Definition one_table : pg :=
  Pg (Bitmap [0x3] 32 2) ∅ {[ 0x1000 := Pte 1 1 1 0 0 0 0 0 0 0 1 :: replicate 1023 zero_pte ]} 0 0 0x3000 0.

Lemma one_table_entry q e :
  pte_at one_table q = Some e -> e = zero_pte \/ p_frame e = 1.
Proof.
  unfold pte_at, one_table. cbn [ptables]. destruct (decide (table_of q = 0x1000)) as [->|Ne].
  - rewrite lookup_singleton_eq. cbn [mbind option_bind].
    destruct (index_of q) as [|i]; cbn [lookup list_lookup]; [intros [= <-]; by right |].
    intros [-> _]%lookup_replicate. by left.
  - by rewrite lookup_singleton_ne.
Qed.

Lemma one_table_ok : pg_ok (fun a => a) one_table.
Proof.
  split.
  - split; simpl; try lia; [repeat constructor; lia | reflexivity].
  - unfold one_table. cbn [ptables]. intros t l [<- <-]%lookup_singleton_Some. cbn [length]. split; [by rewrite length_replicate | done].
  - intros a d. unfold one_table. cbn [dirs]. by rewrite lookup_empty.
  - intros q e [-> | ->]%one_table_entry; simpl; lia.
  - intros q e [-> | ->]%one_table_entry; [done | done].
Qed.

Lemma alloc_page_fresh_witness :
  exists s' e', alloc_page 0x1004 0 1 one_table = Ok (tt, s') /\ pg_ok (fun a => a) s' /\
    only_entry 0x1004 e' one_table s' /\ p_present e' = 1 /\
    p_read_write e' = flag 1 /\ p_user_supervisor e' = nflag 0 /\
    0 < p_frame e' < nframes (bm one_table) /\ frame_status (bm one_table) (p_frame e') = Some false /\
    marked (p_frame e') true (bm one_table) (bm s') /\
    (forall q eq, pte_at one_table q = Some eq -> p_frame eq <> p_frame e').
Proof.
  apply (alloc_page_fresh (fun a => a) one_table 0x1004 zero_pte 0 1 one_table_ok);
    [reflexivity | reflexivity | reflexivity | simpl; lia].
Defined.

(** C40: free_page on a page whose frame number is not a multiple of 32 takes
    the page out of the table but leaves the frame marked as used: the frame
    is lost. *)
Theorem free_page_loses_frame phys_of s page e :
  pg_ok phys_of s -> pte_at s page = Some e -> p_frame e < nframes (bm s) -> p_frame e mod 32 <> 0 ->
  exists s', free_page page s = Ok (tt, s') /\ pg_ok phys_of s' /\ bm s' = bm s /\
    frame_status (bm s') (p_frame e) = Some true /\
    only_entry page (set_pframe 0 (set_present 0 e)) s s'.
Proof. apply free_page_leak. Qed.

Lemma free_page_loses_frame_witness :
  exists s', free_page 0x1000 one_table = Ok (tt, s') /\ pg_ok (fun a => a) s' /\ bm s' = bm one_table /\
    frame_status (bm s') 1 = Some true /\
    only_entry 0x1000 (set_pframe 0 (set_present 0 (Pte 1 1 1 0 0 0 0 0 0 0 1))) one_table s'.
Proof.
  apply (free_page_loses_frame _ one_table 0x1000 (Pte 1 1 1 0 0 0 0 0 0 0 1) one_table_ok);
    [reflexivity | simpl; lia | done].
Defined.

(** ** The boot sequence *)

Lemma finalize_pages_run fuel s P :
  let kv := 0xc0000000 in
  (2 ^ 18 + 1 <= Z.of_nat fuel) -> bitmap_ok (bm s) -> dirs s = ∅ -> ptables s = ∅ ->
  kv <= placement_address s -> placement_address s + 0x204000 <= P -> P <= KHEAP_START ->
  used_frames (bm s) + (P - kv) / 4096 + 258 <= nframes (bm s) ->
  exists s', finalize_pages (placement_ap kv) fuel kv s = Ok (tt, s') /\
    pg_ok (placement_phys kv) s' /\
    let kd := kernel_directory s' in
    kd <> 0 /\ current_directory s' = kd /\ placement_address s <= placement_address s' /\
    (exists d, dirs s' !! kd = Some d /\ cr3 s' = entries_phys_addr d) /\
    (forall v, kv <= v < placement_address s' -> v mod 4096 = 0 -> mapped_low kd kv v s') /\
    (forall v, KHEAP_START <= v < KHEAP_START + KHEAP_INITIAL_SIZE -> v mod 4096 = 0 ->
       exists f, has_frame kd v s' f /\ 0 < f < nframes (bm s) /\ frame_status (bm s) f = Some false /\
         forall u, kv <= u < placement_address s' -> u mod 4096 = 0 -> (u - kv) / 4096 <> f) /\
    (forall v1 v2 f1 f2, KHEAP_START <= v1 < KHEAP_START + KHEAP_INITIAL_SIZE ->
       KHEAP_START <= v2 < KHEAP_START + KHEAP_INITIAL_SIZE ->
       v1 mod 4096 = 0 -> v2 mod 4096 = 0 -> has_frame kd v1 s' f1 -> has_frame kd v2 s' f2 ->
       v1 <> v2 -> f1 <> f2) /\
    heap_pages s' kd KHEAP_START (2 ^ 32) /\ nframes (bm s') = nframes (bm s) /\
    used_frames (bm s') <= used_frames (bm s) + (P - kv) / 4096 + 258.
Proof.
  intros kv Hfu Hb Ed Et Hkv HP1 HP2 Hmem. unfold KHEAP_START, KHEAP_INITIAL_SIZE in *.
  assert (Nt : forall q e, pte_at s q = Some e -> p_frame e = 0)
    by (intros q e; unfold pte_at; by rewrite Et, lookup_empty).
  assert (A : kv mod 4096 = 0) by done. pose proof (placement_allocator kv A) as PA.
  assert (Hp : 0 <= (P - kv) / 4096) by (apply Z.div_pos; unfold kv in *; lia).
  destruct (status_some _ Hb 0) as [st0 Hst0]; [unfold kv in *; pose proof (popcount_pos (bm s)); rewrite (bo_used _ Hb) in *; lia |].
  assert (Rm : placement_room (2 ^ 32 - P + (PAGE_DIR_SIZE + 4096) + 8192 * (1024 - Z.of_nat 768)) s).
  { split; [unfold kv in *; lia | unfold PAGE_DIR_SIZE; lia |].
    intros x [Hx|Hx]; [rewrite Ed in Hx | rewrite Et in Hx]; rewrite lookup_empty in Hx; by destruct Hx. }
  destruct (finalize_tables_ok (placement_ap kv) (placement_phys kv) placement_room fuel 768
              s (2 ^ 32 - P) st0 (no_tables_ok _ _ Hb Ed Et))
    as (s1 & Run1 & Ok1 & Hkd & K1 & N1 & Z1 & Rm1 & Mono1 & U1 & M1 & F1);
    [unfold kv in *; lia | done | exact Rm | lia | lia |].
  change (Z.of_nat 768 * 2 ^ 22) with kv in *. set (kd := kernel_directory s1) in *.
  assert (HP : placement_address s1 <= P) by (pose proof (pr_end _ _ Rm1); lia).
  destruct (kd_dir _ _ _ _ K1) as (d & Hd & _).
  destruct (switch_ok s1 kd d Hkd Hd) as (old & s2 & Run2 & B2 & D2 & T2 & KD2 & Pl2 & C2 & R2).
  assert (I2 : heap_inv (placement_phys kv) kd 768 s2).
  { split; [by apply (pg_ok_fields _ s1) | by eapply kdir_dirs | done | by rewrite B2]. }
  assert (U1' : used_frames (bm s1) <= used_frames (bm s) + (P - kv) / 4096 + 2).
  { clear -U1 HP HP1 Hkv. Z.div_mod_to_equations. lia. }
  destruct (alloc_heap_pages_ok (placement_ap kv) (placement_phys kv) kd Hkd 768 256 0xd0000000 s2 I2)
    as (s' & Run3 & I3 & U3 & Pl3 & D3 & [C3 R3] & W3 & Keep3 & Out3 & Got3 & Dist3);
    [lia | done | lia | rewrite B2; lia | |].
  { intros v p e Hv Hva Hw He. rewrite (walk_dirs s1) in Hw by done. rewrite (pte_tables s1) in He by done.
    apply (F1 Nt v p e); try done; unfold kv in *; lia. }
  assert (Hp2 : heap_pages s2 kd 0xd0000000 (2 ^ 32)).
  { split; [exists (placement_phys kv); apply I2 | done | exact KD2 | apply I2 | |].
    - intros a Ha Aa. destruct (kdir_walk (placement_phys kv) kd 768 1024 s2 a) as (p & e & Hw & He); [apply I2 | apply I2 | lia | |].
      { rewrite dir_index by lia. Z.div_mod_to_equations. lia. }
      exists p, e. by rewrite C2.
    - intros a p e Ha Aa Hw He F0. destruct F0. rewrite (walk_dirs s1) in Hw by done. rewrite (pte_tables s1) in He by done.
      apply (F1 Nt a p e); try done; unfold kv in *; lia. }
  assert (Hp3 : heap_pages s' kd 0xd0000000 (2 ^ 32) /\ nframes (bm s') = nframes (bm s2)).
  { eapply (alloc_heap_pages_kept _ 256 0xd0000000 s2); [exact Hp2 | lia | lia | lia | lia | done | unfold frames_left; rewrite B2; lia | exact Run3]. }
  exists s'. split.
  { unfold finalize_pages. rewrite (bind_ok _ _ _ _ _ Run1), (bind_ok _ _ s1 kd s1) by done.
    rewrite (bind_ok _ _ _ _ _ Run2). exact Run3. }
  assert (Mlow : forall v, kv <= v < placement_address s' -> v mod 4096 = 0 -> mapped_low kd kv v s2).
  { intros v Hv Hva. rewrite Pl3, Pl2 in Hv. destruct (M1 v Hv Hva) as (p & e & Hw & He & Hpe).
    exists p, e. by rewrite (walk_dirs s1), (pte_tables s1). }
  split; [apply I3 |]. cbv zeta. rewrite (hi_kd _ _ _ _ I3). split_and!; try done.
  - congruence.
  - by rewrite Pl3, Pl2.
  - exists d. split; [congruence |]. congruence.
  - intros v Hv Hva. destruct (Mlow v Hv Hva) as (p & e & Hw & He & Hpe). exists p, e.
    rewrite W3, (Out3 v p); try done; rewrite Pl3, Pl2 in Hv; unfold kv in *; lia.
  - intros v Hv Hva. destruct (Got3 v) as (f & Hf & Hr & Hs & Hn); [lia | done |].
    rewrite B2, N1 in Hr. exists f. split_and!; try done; [lia.. | |].
    { destruct (status_some _ Hb f) as [[] Hst]; [lia | | done].
      apply (keeping_finalize_tables _ (keeping_placement kv) _ _ _ _ _ Run1) in Hst. congruence. } intros u Hu Hua E.
    destruct (Mlow u Hu Hua) as (p & e & Hw & He & _ & Hfr). apply (Hn p e He). congruence.
  - apply Hp3.
  - rewrite (proj2 Hp3), B2. exact N1.
  - rewrite U3, B2. lia.
Qed.



(** ** Cloning the directory of the kernel *)

(** clone_page_directory of a directory whose tables are all the kernel's
    allocates a new directory, leaves every existing one alone, and gives the
    new one the same tables and the same entries for them: the processes share
    the page tables of the kernel. *)
Theorem clone_shares_kernel kmalloc_ap phys_of room s dir d k R :
  PageAllocator kmalloc_ap phys_of room ->
  pg_ok phys_of s -> room R s -> PAGE_DIR_SIZE + 4096 <= R -> dirs s !! dir = Some d ->
  dirs s !! kernel_directory s = Some k ->
  (forall j t, tables d !! j = Some t -> t <> 0 -> tables k !! j = Some t) ->
  exists clone c p, clone_page_directory kmalloc_ap dir s =
      Ok (clone, set_placement p (set_dirs (<[clone := c]> (dirs s)) s)) /\
    dirs s !! clone = None /\ 0 < clone /\ tables c = tables d /\ entries_phys_addr c = phys_of clone /\
    forall j t, tables d !! j = Some t -> t <> 0 -> entries c !! j = entries d !! j.
Proof. intros PA. by apply (clone_dir_ok kmalloc_ap phys_of room). Qed.

(** A kernel directory with one table. *)
Definition one_dir : page_dir :=
  PageDir (<[768%nat := map_table 0x1000 zero_pde]> (replicate 1024 zero_pde)) 0x2000
    (<[768%nat := 0x1000]> (replicate 1024 0)).
Definition one_dir_state : pg :=
  Pg (bm one_table) {[ 0x2000 := one_dir ]} (ptables one_table) 0x2000 0x2000 0x5000 0x2000.

Lemma one_dir_ok : pg_ok (placement_phys 0) one_dir_state.
Proof.
  destruct one_table_ok as [Ob Ot _ Or Of]. split; [done | done | | done | done].
  intros a d Hd. unfold one_dir_state in Hd. cbn [dirs] in Hd.
  apply lookup_singleton_Some in Hd as [<- <-]. unfold one_dir. split; cbn [entries tables].
  - by rewrite length_insert, length_replicate.
  - by rewrite length_insert, length_replicate.
  - intros i t. rewrite list_lookup_insert_Some. intros [(<- & <- & _)|[_ [-> _]%lookup_replicate]]; [| done].
    intros _. cbn [ptables one_dir_state one_table]. rewrite lookup_singleton_eq. by eexists.
  - intros i t e. rewrite !list_lookup_insert_Some.
    intros [(<- & <- & _)|[Ni [-> _]%lookup_replicate]] [(E & <- & _)|[Ne [-> _]%lookup_replicate]]; try done.
Qed.

Lemma clone_shares_kernel_witness :
  exists clone c p, clone_page_directory (placement_ap 0) 0x2000 one_dir_state =
      Ok (clone, set_placement p (set_dirs (<[clone := c]> (dirs one_dir_state)) one_dir_state)) /\
    dirs one_dir_state !! clone = None /\ 0 < clone /\ tables c = tables one_dir /\
    entries_phys_addr c = placement_phys 0 clone /\
    forall j t, tables one_dir !! j = Some t -> t <> 0 -> entries c !! j = entries one_dir !! j.
Proof.
  apply (clone_shares_kernel (placement_ap 0) (placement_phys 0) placement_room one_dir_state 0x2000 one_dir one_dir
           0x10000 (placement_allocator 0 eq_refl) one_dir_ok).
  - split; cbn [placement_address one_dir_state]; [lia | lia |].
    intros x [Hx|Hx]; destruct Hx as [y Hy]; unfold one_dir_state in Hy; cbn [dirs ptables one_table] in Hy;
      apply lookup_singleton_Some in Hy as [<- _]; lia.
  - unfold PAGE_DIR_SIZE. lia.
  - unfold one_dir_state. cbn [dirs]. apply lookup_singleton_eq.
  - unfold one_dir_state. cbn [dirs kernel_directory]. apply lookup_singleton_eq.
  - auto.
Defined.
