(* ===== verification/RbTree.v ===== *)
(** The red-black tree of rb_tree.c, on raw memory.

    A node is four words: [data] and the links 0, 1 (children) and 2 (list of
    the nodes with the same key). The colour is bit 0 of link 0; every link is
    read with bit 0 masked. The operations below are the ones of the C file,
    statement by statement, in the monad of [Memory]. The tree structure itself
    ([root], [num_nodes], [num_dup]) is a record that is passed and returned;
    the two callbacks of the structure are the section variables [compare] and
    [select_dup]. A loop takes an explicit number of iterations and returns
    [Err Hang] when it needs more: the theorems of RbInsert say how many are
    enough. *)

From S2P Require Import Prelude Memory.

(** ** Nodes: the macros of rb_tree.c *)

(** Offsets in [rb_node_t]. *)
Definition data_off : Z := 0.
Definition link_off (i : Z) : Z := 4 + 4 * i.

(** sizeof(rb_node_t) *)
Definition RB_NODE_SIZE : Z := 16.

Definition node_data (node : Z) : M mem Z := load32 (node + data_off).

Definition is_red (node : Z) : M mem bool :=
  if node =? 0 then mret false
  else w ← load32 (node + link_off 0); mret (negb (Z.land w 1 =? 0)).

Definition paint_red (node : Z) : M mem unit :=
  w ← load32 (node + link_off 0); store32 (node + link_off 0) (Z.lor w 1).

Definition paint_black (node : Z) : M mem unit :=
  w ← load32 (node + link_off 0); store32 (node + link_off 0) (Z.land w (Z.lnot 1)).

Definition copy_color (src dst : Z) : M mem unit :=
  d ← load32 (dst + link_off 0);
  s ← load32 (src + link_off 0);
  store32 (dst + link_off 0) (Z.lor (Z.land d (Z.lnot 1)) (Z.land s 1)).

Definition get_link (node i : Z) : M mem Z :=
  w ← load32 (node + link_off i); mret (Z.land w (Z.lnot 1)).

Definition set_link (node i val : Z) : M mem unit :=
  w ← load32 (node + link_off i);
  store32 (node + link_off i) (Z.lor (Z.land w 1) (Z.land val (Z.lnot 1))).

(** A direction is a C int that is 0 or 1. *)
Abbreviation dir_idx d := (Z.b2z d) (only parsing).

Definition rotate (root : Z) (dir : bool) : M mem Z :=
  save ← get_link root (dir_idx (negb dir));
  inner ← get_link save (dir_idx dir);
  set_link root (dir_idx (negb dir)) inner;;
  set_link save (dir_idx dir) root;;
  paint_red root;;
  paint_black save;;
  mret save.

(** ** The tree *)

Record rb_tree : Type := RbTree {
  root : Z;
  num_nodes : Z;
  num_dup : Z
}.

(** init_rbtree leaves the two counters as they are. *)
Definition init_rbtree (tree : rb_tree) : rb_tree :=
  RbTree 0 (num_nodes tree) (num_dup tree).

(** [rb_node_t head = { 0 }] *)
Definition zero_node (a : Z) : M mem unit :=
  store32 (a + data_off) 0;;
  store32 (a + link_off 0) 0;;
  store32 (a + link_off 1) 0;;
  store32 (a + link_off 2) 0.

Section rb_tree.
Context {Args : Type}.
(** The callbacks of the tree: [compare node data args] and [select_dup node args]. *)
Variable compare : Z -> Z -> Args -> M mem Z.
Variable select_dup : Z -> Args -> M mem Z.
(** Where the compiler puts the local variable [head]. *)
Variable head : Z.

(** "hard red violation: make rotations" *)
Definition insert_rotate (t g p n : Z) (last : bool) : M mem unit :=
  violation ← andM (is_red n) (is_red p);
  when violation
    (t1 ← get_link t 1;
     let dir2 := t1 =? g in
     pl ← get_link p (dir_idx last);
     if n =? pl then
       top ← rotate g (negb last);
       set_link t (dir_idx dir2) top
     else
       gl ← get_link g (dir_idx last);
       sub ← rotate gl last;
       set_link g (dir_idx last) sub;;
       top ← rotate g (negb last);
       set_link t (dir_idx dir2) top).

(** "insert new node at the bottom" or "make a color flip"; returns [n],
    [duplicate] and the number of nodes. *)
Definition insert_grow (node p n : Z) (dir duplicate : bool) (nodes : Z) : M mem (Z * bool * Z) :=
  if n =? 0 then
    set_link p (dir_idx dir) node;; mret (node, false, u32 (nodes + 1))
  else
    flip ← andM (l ← get_link n 0; is_red l) (r ← get_link n 1; is_red r);
    when flip
      (paint_red n;;
       l ← get_link n 0; paint_black l;;
       r ← get_link n 1; paint_black r);;
    mret (n, duplicate, nodes).

(** The loop [for (;;)] of insert_rbnode; returns the two counters. *)
Fixpoint insert_loop (fuel : nat) (args : Args) (node : Z) (t g p n : Z) (dir last : bool)
    (duplicate : bool) (nodes dups : Z) : M mem (Z * Z) :=
  match fuel with
  | O => throw Hang
  | S fuel =>
      '(n, duplicate, nodes) ← insert_grow node p n dir duplicate nodes;
      insert_rotate t g p n last;;
      key ← node_data node;
      cmp ← compare n key args;
      if cmp =? 0 then
        if duplicate && negb (n =? node) then
          d ← get_link n 2;
          set_link node 2 d;;
          set_link n 2 node;;
          mret (nodes, u32 (dups + 1))
        else mret (nodes, dups)
      else
        let last := dir in
        let dir := cmp <? 0 in
        let t := if g =? 0 then t else g in
        let g := p in
        let p := n in
        n ← get_link n (dir_idx dir);
        insert_loop fuel args node t g p n dir last duplicate nodes dups
  end.

Definition insert_rbnode (fuel : nat) (tree : rb_tree) (node : Z) (args : Args)
  : M mem (Z * rb_tree) :=
  if node =? 0 then mret (0, tree)
  else
    set_link node 0 0;;
    set_link node 1 0;;
    set_link node 2 0;;
    paint_red node;;
    tree ←
      (if root tree =? 0 then mret (RbTree node 1 0)
       else
         zero_node head;;
         set_link head 1 (root tree);;
         '(nodes, dups) ←
           insert_loop fuel args node head 0 0 (root tree) false false true
             (num_nodes tree) (num_dup tree);
         r ← get_link head 1;
         mret (RbTree r nodes dups));
    paint_black (root tree);;
    mret (1, tree).

(** One iteration of the removal loop. The state is [(g, p, n, f, fp, dir)]. *)
Definition remove_step (data : Z) (args : Args) (st : Z * Z * Z * Z * Z * bool)
  : M mem (Z * Z * Z * Z * Z * bool) :=
  let '(g, p, n, f, fp, dir) := st in
  let last := dir in
  let g := p in
  let p := n in
  n ← get_link n (dir_idx dir);
  cmp ← compare n data args;
  let dir := cmp <? 0 in
  let '(f, fp) := if cmp =? 0 then (n, p) else (f, fp) in
  push ← andM (notM (is_red n)) (notM (c ← get_link n (dir_idx dir); is_red c));
  if push : bool then
    no ← get_link n (dir_idx (negb dir));
    nor ← is_red no;
    if nor : bool then
      top ← rotate n dir;
      set_link p (dir_idx last) top;;
      p ← get_link p (dir_idx last);
      mret (g, p, n, f, (if f =? n then p else fp), dir)
    else
      s ← get_link p (dir_idx (negb last));
      if s =? 0 then mret (g, p, n, f, fp, dir)
      else
        flip ← andM (notM (c ← get_link s 0; is_red c)) (notM (c ← get_link s 1; is_red c));
        if flip : bool then
          paint_black p;;
          paint_red s;;
          paint_red n;;
          mret (g, p, n, f, fp, dir)
        else
          g1 ← get_link g 1;
          let dir2 := g1 =? p in
          so ← get_link s (dir_idx (negb last)); sor ← is_red so;
          (if sor : bool then
             top ← rotate p last;
             set_link g (dir_idx dir2) top
           else
             si ← get_link s (dir_idx last); sir ← is_red si;
             when sir
               (c ← get_link p (dir_idx (negb last));
                sub ← rotate c (negb last);
                set_link p (dir_idx (negb last)) sub;;
                top ← rotate p last;
                set_link g (dir_idx dir2) top));;
          paint_red n;;
          c ← get_link g (dir_idx dir2); paint_red c;;
          c ← get_link g (dir_idx dir2); c0 ← get_link c 0; paint_black c0;;
          c ← get_link g (dir_idx dir2); c1 ← get_link c 1; paint_black c1;;
          (if f =? p then
             c ← get_link g (dir_idx dir2); mret (g, p, n, f, c, dir)
           else mret (g, p, n, f, fp, dir))
  else mret (g, p, n, f, fp, dir).

Fixpoint remove_loop (fuel : nat) (data : Z) (args : Args) (st : Z * Z * Z * Z * Z * bool)
  : M mem (Z * Z * Z * Z * Z * bool) :=
  match fuel with
  | O => throw Hang
  | S fuel =>
      let '(_, _, n, _, _, dir) := st in
      c ← get_link n (dir_idx dir);
      if c =? 0 then mret st
      else st ← remove_step data args st; remove_loop fuel data args st
  end.

(** [while (tmp && select_dup(tmp, args) == 0)]: the first node of the list
    that is selected (0 if none) and the node before it. *)
Fixpoint find_dup (fuel : nat) (args : Args) (tmp tmp_prev : Z) : M mem (Z * Z) :=
  match fuel with
  | O => throw Hang
  | S fuel =>
      if tmp =? 0 then mret (tmp, tmp_prev)
      else
        sel ← select_dup tmp args;
        if sel =? 0 then nxt ← get_link tmp 2; find_dup fuel args nxt tmp
        else mret (tmp, tmp_prev)
  end.

(** What remove_rbnode does once the search is over: take a duplicate out of
    the list of [f], or [f] out of the tree. Returns [f] and the counters. *)
Definition remove_found (fuel : nat) (args : Args) (p n f fp : Z) (nodes dups : Z)
  : M mem (Z * Z * Z) :=
  if f =? 0 then mret (f, nodes, dups)
  else
    f2 ← get_link f 2;
    if negb (f2 =? 0) then
      '(tmp, tmp_prev) ← find_dup fuel args f2 f;
      if tmp =? 0 then
        sel ← select_dup f args;
        if negb (sel =? 0) then
          tmp ← get_link f 2;
          f0 ← get_link f 0; set_link tmp 0 f0;;
          f1 ← get_link f 1; set_link tmp 1 f1;;
          fp1 ← get_link fp 1; set_link fp (dir_idx (fp1 =? f)) tmp;;
          copy_color f tmp;;
          mret (f, nodes, u32 (dups - 1))
        else mret (0, nodes, dups)
      else
        t2 ← get_link tmp 2;
        set_link tmp_prev 2 t2;;
        mret (tmp, nodes, u32 (dups - 1))
    else
      p1 ← get_link p 1;
      n0 ← get_link n 0;
      c ← get_link n (dir_idx (n0 =? 0));
      set_link p (dir_idx (p1 =? n)) c;;
      when (negb (n =? f))
        (f0 ← get_link f 0; set_link n 0 f0;;
         f1 ← get_link f 1; set_link n 1 f1;;
         fp1 ← get_link fp 1; set_link fp (dir_idx (fp1 =? f)) n;;
         copy_color f n);;
      mret (f, u32 (nodes - 1), dups).

Definition remove_rbnode (fuel : nat) (tree : rb_tree) (data : Z) (args : Args)
  : M mem (Z * rb_tree) :=
  if negb (root tree =? 0) then
    zero_node head;;
    set_link head 1 (root tree);;
    '(g, p, n, f, fp, dir) ← remove_loop fuel data args (0, 0, head, 0, 0, true);
    '(f, nodes, dups) ← remove_found fuel args p n f fp (num_nodes tree) (num_dup tree);
    r ← get_link head 1;
    when (negb (r =? 0)) (paint_black r);;
    mret (f, RbTree r nodes dups)
  else mret (0, tree).

(** lookup_rbnode: the result of the comparison inside the loop is a variable
    of its own, so the direction stays the one the root gave. *)
Fixpoint lookup_loop (fuel : nat) (data : Z) (args : Args) (cmp : Z) (node : Z) (found : bool)
  : M mem Z :=
  match fuel with
  | O => throw Hang
  | S fuel =>
      if found then mret node
      else
        nxt ← get_link node (dir_idx (cmp <? 0));
        if nxt =? 0 then mret 0
        else
          inner ← compare nxt data args;
          lookup_loop fuel data args cmp nxt (inner =? 0)
  end.

Definition lookup_rbnode (fuel : nat) (tree : rb_tree) (data : Z) (args : Args) : M mem Z :=
  cmp ← compare (root tree) data args;
  lookup_loop fuel data args cmp (root tree) (cmp =? 0).

End rb_tree.

(** height() of the debugging code. *)
Fixpoint height (fuel : nat) (node : Z) : M mem Z :=
  match fuel with
  | O => throw Hang
  | S fuel =>
      if node =? 0 then mret 0
      else
        ln ← get_link node 0; l ← height fuel ln;
        rn ← get_link node 1; r ← height fuel rn;
        mret (if r <? l then l + 1 else r + 1)
  end.

(** assert_tree(): the black height plus one; a violation loops for ever. *)
Fixpoint assert_tree (fuel : nat) (root : Z) : M mem Z :=
  match fuel with
  | O => throw Hang
  | S fuel =>
      if root =? 0 then mret 1
      else
        ln ← get_link root 0;
        rn ← get_link root 1;
        red_violation ← andM (is_red root) (orM (is_red ln) (is_red rn));
        if red_violation : bool then throw Hang
        else
          lh ← assert_tree fuel ln;
          rh ← assert_tree fuel rn;
          tree_violation ←
            orM (if ln =? 0 then mret false
                 else lk ← node_data ln; k ← node_data root; mret (k <=? lk))
                (if rn =? 0 then mret false
                 else rk ← node_data rn; k ← node_data root; mret (rk <=? k));
          if tree_violation : bool then throw Hang
          else if negb (lh =? 0) && negb (rh =? 0) && negb (lh =? rh) then throw Hang
          else if negb (lh =? 0) && negb (rh =? 0) then
            red ← is_red root; mret (if red : bool then lh else lh + 1)
          else mret 0
  end.
