(* ===== verification/RbHeap.v ===== *)
(** Abstract node heap of the red-black tree, and the correspondence with raw
    memory.

    [view m a] reads the node at address [a]; a node heap is a finite map from
    the addresses of pairwise disjoint nodes to their views. [sim m0 m H] says
    that memory [m] holds exactly the nodes [H] and equals [m0] outside them.
    [runs c H r H'] says that the raw operation [c], started in any memory that
    holds [H], returns [r] in a memory that holds [H'] and differs from the first
    one only inside the nodes. The macros of rb_tree.c are proved to be the
    obvious updates of the heap; the proofs about the tree code then never look
    at a byte again. *)

From S2P Require Import Prelude Memory RbTree.

(** ** Views *)

Record nview : Type := NView {
  v_data : Z;
  v_red : bool;
  v_l : Z;
  v_r : Z;
  v_d : Z
}.

Definition clear_bit0 (w : Z) : Z := w - w mod 2.
Definition bit0 (w : Z) : bool := negb (w mod 2 =? 0).

Definition view (m : mem) (a : Z) : nview :=
  NView (word_at m a) (bit0 (word_at m (a + 4))) (clear_bit0 (word_at m (a + 4)))
    (clear_bit0 (word_at m (a + 8))) (clear_bit0 (word_at m (a + 12))).

(** Child on side [d]: false is link 0, true is link 1. *)
Definition lnk (v : nview) (d : bool) : Z := if d then v_r v else v_l v.

Definition set_lnk (d : bool) (x : Z) (v : nview) : nview :=
  if d then NView (v_data v) (v_red v) (v_l v) x (v_d v)
  else NView (v_data v) (v_red v) x (v_r v) (v_d v).

Definition set_dup (x : Z) (v : nview) : nview :=
  NView (v_data v) (v_red v) (v_l v) (v_r v) x.

Definition set_red (c : bool) (v : nview) : nview :=
  NView (v_data v) c (v_l v) (v_r v) (v_d v).

Section nview_lemmas.
Implicit Types v : nview.

Lemma lnk_set_lnk_same d x v : lnk (set_lnk d x v) d = x.
Proof. by destruct d. Qed.
Lemma lnk_set_lnk_other d x v : lnk (set_lnk d x v) (negb d) = lnk v (negb d).
Proof. by destruct d. Qed.
Lemma lnk_set_lnk_other' d x v : lnk (set_lnk (negb d) x v) d = lnk v d.
Proof. by destruct d. Qed.
Lemma lnk_set_red d c v : lnk (set_red c v) d = lnk v d.
Proof. by destruct d. Qed.
Lemma lnk_set_dup d x v : lnk (set_dup x v) d = lnk v d.
Proof. by destruct d. Qed.
Lemma v_red_set_lnk d x v : v_red (set_lnk d x v) = v_red v.
Proof. by destruct d. Qed.
Lemma v_data_set_lnk d x v : v_data (set_lnk d x v) = v_data v.
Proof. by destruct d. Qed.
Lemma v_d_set_lnk d x v : v_d (set_lnk d x v) = v_d v.
Proof. by destruct d. Qed.
Lemma v_red_set_red c v : v_red (set_red c v) = c.
Proof. done. Qed.
Lemma v_data_set_red c v : v_data (set_red c v) = v_data v.
Proof. done. Qed.
Lemma v_d_set_red c v : v_d (set_red c v) = v_d v.
Proof. done. Qed.
End nview_lemmas.

Create Rewrite HintDb nview.
#[export] Hint Rewrite lnk_set_lnk_same lnk_set_lnk_other lnk_set_lnk_other' lnk_set_red
  lnk_set_dup v_red_set_lnk v_data_set_lnk v_d_set_lnk v_red_set_red v_data_set_red
  v_d_set_red negb_involutive : nview.

(** ** Nodes in memory *)

(** An aligned node inside the address space whose four words are present. *)
Record node_ok (m : mem) (a : Z) : Prop := {
  ok_pos : 0 < a;
  ok_align : a mod 4 = 0;
  ok_top : a + 16 <= 2 ^ 32;
  ok_w0 : word_present m a = true;
  ok_w1 : word_present m (a + 4) = true;
  ok_w2 : word_present m (a + 8) = true;
  ok_w3 : word_present m (a + 12) = true
}.

Definition disjoint_nodes (a b : Z) : Prop := a + 16 <= b \/ b + 16 <= a.

Abbreviation nheap := (gmap Z nview).

Record sim (m0 m : mem) (H : nheap) : Prop := {
  sim_ok : forall a v, H !! a = Some v -> node_ok m a;
  sim_view : forall a v, H !! a = Some v -> view m a = v;
  sim_disj : forall a b, a <> b -> is_Some (H !! a) -> is_Some (H !! b) -> disjoint_nodes a b;
  sim_pages : m_pages m = m_pages m0;
  sim_frame : forall b, (forall a, is_Some (H !! a) -> b < a \/ a + 16 <= b) ->
                byte_at m b = byte_at m0 b
}.

(** ** Running raw code on the abstract heap *)

Definition runs {A} (c : M mem A) (H : nheap) (r : A) (H' : nheap) : Prop :=
  dom H' = dom H /\
  forall m0 m, sim m0 m H -> exists m', c m = Ok (r, m') /\ sim m0 m' H'.

Lemma runs_ret {A} (a : A) H : runs (mret a) H a H.
Proof. split; [done |]. intros m0 m S. exists m. done. Qed.

Lemma runs_bind {A B} (c : M mem A) (f : A -> M mem B) H a H1 b H2 :
  runs c H a H1 -> runs (f a) H1 b H2 -> runs (c ≫= f) H b H2.
Proof.
  intros [D1 R1] [D2 R2]. split; [congruence |]. intros m0 m S.
  destruct (R1 m0 m S) as (m1 & E1 & S1).
  destruct (R2 m0 m1 S1) as (m2 & E2 & S2).
  exists m2. split; [| done]. by rewrite (bind_ok _ _ _ _ _ E1).
Qed.

Lemma runs_when_true (c : M mem unit) H H' : runs c H tt H' -> runs (when true c) H tt H'.
Proof. done. Qed.

Lemma runs_andM (c1 c2 : M mem bool) H b1 b2 :
  runs c1 H b1 H -> (b1 = true -> runs c2 H b2 H) -> (b1 = false -> b2 = false) ->
  runs (andM c1 c2) H b2 H.
Proof.
  intros R1 R2 E. unfold andM. eapply runs_bind; [exact R1 |]. simpl.
  destruct b1; [auto | rewrite E by done; apply runs_ret].
Qed.

Lemma runs_notM (c : M mem bool) H b : runs c H b H -> runs (notM c) H (negb b) H.
Proof. intros R. eapply runs_bind; [exact R | apply runs_ret]. Qed.

(** A read, and a write of one node. *)
Lemma runs_read {A} (c : M mem A) H r :
  (forall m0 m, sim m0 m H -> c m = Ok (r, m)) -> runs c H r H.
Proof. intros R. split; [done |]. intros m0 m S. exists m. split; [exact (R m0 m S) | exact S]. Qed.

Lemma runs_write (c : M mem unit) H a v v' :
  H !! a = Some v ->
  (forall m0 m, sim m0 m H -> exists m', c m = Ok (tt, m') /\ sim m0 m' (<[a := v']> H)) ->
  runs c H tt (<[a := v']> H).
Proof. intros Ha R. split; [| done]. apply dom_insert_lookup_L. eauto. Qed.

(** ** Reading and writing one word of a node *)

Lemma clear_bit0_even w : clear_bit0 w mod 2 = 0.
Proof. unfold clear_bit0. Z.div_mod_to_equations. lia. Qed.

Lemma clear_bit0_id x : x mod 2 = 0 -> clear_bit0 x = x.
Proof. unfold clear_bit0. lia. Qed.

Lemma bit0_odd w : bit0 w = negb (Z.land w 1 =? 0).
Proof. unfold bit0. by rewrite land_1. Qed.

(** What a link becomes when it is stored next to a tag bit. *)
Lemma tagged_clear x b : x mod 2 = 0 -> 0 <= b < 2 -> clear_bit0 (x + b) = x.
Proof. intros. unfold clear_bit0. Z.div_mod_to_equations. lia. Qed.

Lemma tagged_bit x b : x mod 2 = 0 -> 0 <= b < 2 -> bit0 (x + b) = negb (b =? 0).
Proof. intros. unfold bit0. do 2 f_equal. Z.div_mod_to_equations. lia. Qed.

Lemma node_ok_word m a i :
  node_ok m a -> i = 0 \/ i = 1 \/ i = 2 -> word_present m (a + link_off i) = true.
Proof.
  intros O Hi. unfold link_off.
  destruct Hi as [-> | [-> | ->]]; simpl; [apply O | apply (ok_w2 _ _ O) | apply (ok_w3 _ _ O)].
Qed.

Lemma node_ok_set_word m a b v : node_ok m a -> node_ok (set_word b v m) a.
Proof. intros O. destruct O. by split. Qed.

(** Writing one word of node [a] leaves the other nodes and the rest of
    memory alone. *)
Lemma sim_set_word m0 m H a v off w v' :
  sim m0 m H -> H !! a = Some v -> 0 <= off <= 12 ->
  view (set_word (a + off) w m) a = v' ->
  sim m0 (set_word (a + off) w m) (<[a := v']> H).
Proof.
  intros S Ha Hi Hv.
  assert (dom : forall b, is_Some (<[a := v']> H !! b) <-> is_Some (H !! b)).
  { intros b. destruct (decide (a = b)) as [->|]; [rewrite lookup_insert_eq; split; eauto |].
    by rewrite lookup_insert_ne. }
  split.
  - intros b vb Hb. apply node_ok_set_word.
    destruct (proj1 (dom b) (ex_intro _ _ Hb)) as [vb' Hb']. by eapply sim_ok.
  - intros b vb Hb. destruct (decide (a = b)) as [->|Hne].
    { rewrite lookup_insert_eq in Hb. congruence. }
    rewrite lookup_insert_ne in Hb by done.
    rewrite <- (sim_view _ _ _ S _ _ Hb).
    assert (D : disjoint_nodes a b) by (eapply sim_disj; eauto).
    unfold disjoint_nodes in D. unfold view. by rewrite !word_at_set_other by lia.
  - intros b c Hbc Hb Hc. apply dom in Hb, Hc. by eapply sim_disj.
  - apply (sim_pages _ _ _ S).
  - intros b Hb. rewrite byte_at_set_word_other.
    + apply (sim_frame _ _ _ S). intros c Hc. apply Hb. by apply dom.
    + assert (b < a \/ a + 16 <= b) by (apply Hb; apply dom; eauto).
      lia.
Qed.

(** Addresses of nodes and NULL are the values a link may hold. *)
Definition ptr_in (H : nheap) (x : Z) : Prop := x = 0 \/ is_Some (H !! x).

Lemma ptr_in_even m0 m H x : sim m0 m H -> ptr_in H x -> x mod 2 = 0 /\ 0 <= x < 2 ^ 32.
Proof.
  intros S [-> | [v Hv]]; [split; [done | lia] |].
  destruct (sim_ok _ _ _ S _ _ Hv) as [P A T]. split; [Z.div_mod_to_equations; lia | lia].
Qed.

Lemma runs_get_link H a v d : H !! a = Some v -> runs (get_link a (Z.b2z d)) H (lnk v d) H.
Proof.
  intros Ha. apply runs_read. intros m0 m S. unfold get_link.
  assert (O := sim_ok _ _ _ S _ _ Ha).
  rewrite (bind_ok _ _ _ _ _ (load32_ok _ _ (node_ok_word _ _ (Z.b2z d) O ltac:(destruct d; auto)))).
  rewrite land_lnot_1, ret_ok. rewrite <- (sim_view _ _ _ S _ _ Ha).
  destruct d; reflexivity.
Qed.

Lemma runs_get_dup H a v : H !! a = Some v -> runs (get_link a 2) H (v_d v) H.
Proof.
  intros Ha. apply runs_read. intros m0 m S. unfold get_link.
  assert (O := sim_ok _ _ _ S _ _ Ha).
  rewrite (bind_ok _ _ _ _ _ (load32_ok _ _ (node_ok_word _ _ 2 O ltac:(auto)))).
  rewrite land_lnot_1, ret_ok. by rewrite <- (sim_view _ _ _ S _ _ Ha).
Qed.

Lemma runs_node_data H a v : H !! a = Some v -> runs (node_data a) H (v_data v) H.
Proof.
  intros Ha. apply runs_read. intros m0 m S. unfold node_data, data_off.
  rewrite Z.add_0_r. rewrite load32_ok by apply (sim_ok _ _ _ S _ _ Ha).
  by rewrite <- (sim_view _ _ _ S _ _ Ha).
Qed.

Lemma runs_is_red_null H : runs (is_red 0) H false H.
Proof. apply runs_ret. Qed.

Lemma runs_is_red H a v : H !! a = Some v -> runs (is_red a) H (v_red v) H.
Proof.
  intros Ha. apply runs_read. intros m0 m S. unfold is_red.
  assert (O := sim_ok _ _ _ S _ _ Ha).
  replace (a =? 0) with false by (symmetry; apply Z.eqb_neq; pose proof (ok_pos _ _ O); lia).
  rewrite (bind_ok _ _ _ _ _ (load32_ok _ _ (node_ok_word _ _ 0 O ltac:(auto)))).
  rewrite ret_ok, <- bit0_odd. by rewrite <- (sim_view _ _ _ S _ _ Ha).
Qed.

Lemma set_link_word m a i x :
  word_present m (a + link_off i) = true -> x mod 2 = 0 ->
  set_link a i x m =
    Ok (tt, set_word (a + link_off i) (x + word_at m (a + link_off i) mod 2) m).
Proof.
  intros P E. unfold set_link. rewrite (bind_ok _ _ _ _ _ (load32_ok _ _ P)).
  rewrite land_1, land_lnot_1, E, Z.sub_0_r, lor_low_bit; [by apply store32_ok | done |].
  apply Z.mod_pos_bound. lia.
Qed.

Lemma runs_set_link H a v d x :
  H !! a = Some v -> ptr_in H x ->
  runs (set_link a (Z.b2z d) x) H tt (<[a := set_lnk d x v]> H).
Proof.
  intros Ha Hx. apply (runs_write _ _ _ _ _ Ha). intros m0 m S.
  assert (O := sim_ok _ _ _ S _ _ Ha). destruct (ptr_in_even _ _ _ _ S Hx) as [Ex Rx].
  assert (I : Z.b2z d = 0 \/ Z.b2z d = 1 \/ Z.b2z d = 2) by (destruct d; auto).
  eexists. split; [apply set_link_word; [by apply node_ok_word | done] |].
  eapply sim_set_word; [exact S | exact Ha | unfold link_off; destruct d; simpl; lia |].
  rewrite <- (sim_view _ _ _ S _ _ Ha).
  pose proof (Z.mod_pos_bound (word_at m (a + link_off (Z.b2z d))) 2 ltac:(lia)) as B.
  unfold view, set_lnk.
  destruct d; simpl in *; [change (link_off 1) with 8 in * | change (link_off 0) with 4 in *];
    f_equal;
    rewrite ?word_at_set_same, ?word_at_set_other by lia; try done;
    rewrite u32_small by (Z.div_mod_to_equations; lia).
  - by apply tagged_clear.
  - rewrite tagged_bit by done. done.
  - by apply tagged_clear.
Qed.

Lemma runs_set_dup H a v x :
  H !! a = Some v -> ptr_in H x -> runs (set_link a 2 x) H tt (<[a := set_dup x v]> H).
Proof.
  intros Ha Hx. apply (runs_write _ _ _ _ _ Ha). intros m0 m S.
  assert (O := sim_ok _ _ _ S _ _ Ha). destruct (ptr_in_even _ _ _ _ S Hx) as [Ex Rx].
  eexists. split; [apply set_link_word; [by apply (node_ok_word _ _ 2); auto | done] |].
  eapply sim_set_word; [exact S | exact Ha | unfold link_off; lia |].
  rewrite <- (sim_view _ _ _ S _ _ Ha).
  pose proof (Z.mod_pos_bound (word_at m (a + link_off 2)) 2 ltac:(lia)) as B.
  change (link_off 2) with 12 in *. unfold view, set_dup. simpl.
  f_equal; rewrite ?word_at_set_same, ?word_at_set_other by lia; try done.
  rewrite u32_small by (Z.div_mod_to_equations; lia). by apply tagged_clear.
Qed.

(** Painting writes link 0 with the tag bit replaced. *)
Lemma sim_paint m0 m H a v c w :
  sim m0 m H -> H !! a = Some v ->
  w = clear_bit0 (word_at m (a + link_off 0)) + Z.b2z c ->
  sim m0 (set_word (a + link_off 0) w m) (<[a := set_red c v]> H).
Proof.
  intros S Ha ->. eapply sim_set_word; [exact S | exact Ha | unfold link_off; lia |]. rewrite <- (sim_view _ _ _ S _ _ Ha).
  pose proof (word_at_range m (a + link_off 0)) as R.
  pose proof (clear_bit0_even (word_at m (a + link_off 0))) as E.
  assert (B : 0 <= Z.b2z c < 2) by (destruct c; simpl; lia).
  change (link_off 0) with 4 in *. unfold view, set_red. simpl.
  rewrite word_at_set_same, !word_at_set_other by lia.
  assert (R' : 0 <= clear_bit0 (word_at m (a + 4)) + Z.b2z c < 2 ^ 32).
  { clear - R B. revert R. generalize (word_at m (a + 4)) as w. intros w R.
    unfold clear_bit0. Z.div_mod_to_equations. lia. }
  rewrite u32_small by done. rewrite tagged_bit, tagged_clear by done.
  by destruct c.
Qed.

Lemma runs_paint_red H a v : H !! a = Some v -> runs (paint_red a) H tt (<[a := set_red true v]> H).
Proof.
  intros Ha. apply (runs_write _ _ _ _ _ Ha). intros m0 m S. assert (O := sim_ok _ _ _ S _ _ Ha). unfold paint_red.
  pose proof (node_ok_word _ _ 0 O ltac:(auto)) as P.
  eexists. split.
  { rewrite (bind_ok _ _ _ _ _ (load32_ok _ _ P)). by apply store32_ok. }
  eapply sim_paint; eauto. simpl.
  generalize (word_at m (a + link_off 0)) as w. intros w.
  rewrite (Z.lor_comm w 1).
  replace (Z.lor 1 w) with (Z.lor 1 (clear_bit0 w)).
  { apply lor_low_bit; [apply clear_bit0_even | lia]. }
  unfold clear_bit0. rewrite <- land_lnot_1. apply Z.bits_inj'. intros i Hi.
  rewrite !Z.lor_spec, Z.land_spec, Z.lnot_spec by lia.
  destruct (Z.testbit 1 i); simpl; [done |]. by rewrite andb_true_r.
Qed.

Lemma runs_paint_black H a v :
  H !! a = Some v -> runs (paint_black a) H tt (<[a := set_red false v]> H).
Proof.
  intros Ha. apply (runs_write _ _ _ _ _ Ha). intros m0 m S. assert (O := sim_ok _ _ _ S _ _ Ha). unfold paint_black.
  pose proof (node_ok_word _ _ 0 O ltac:(auto)) as P.
  eexists. split.
  { rewrite (bind_ok _ _ _ _ _ (load32_ok _ _ P)). by apply store32_ok. }
  eapply sim_paint; eauto. simpl. rewrite land_lnot_1. unfold clear_bit0. lia.
Qed.

Lemma runs_copy_color H a va b vb :
  H !! a = Some va -> H !! b = Some vb ->
  runs (copy_color a b) H tt (<[b := set_red (v_red va) vb]> H).
Proof.
  intros Ha Hb. apply (runs_write _ _ _ _ _ Hb). intros m0 m S. unfold copy_color.
  pose proof (node_ok_word _ _ 0 (sim_ok _ _ _ S _ _ Ha) ltac:(auto)) as Pa.
  pose proof (node_ok_word _ _ 0 (sim_ok _ _ _ S _ _ Hb) ltac:(auto)) as Pb.
  eexists. split.
  { rewrite (bind_ok _ _ _ _ _ (load32_ok _ _ Pb)), (bind_ok _ _ _ _ _ (load32_ok _ _ Pa)).
    by apply store32_ok. }
  eapply sim_paint; eauto. rewrite land_lnot_1, land_1.
  assert (E : Z.b2z (v_red va) = word_at m (a + link_off 0) mod 2).
  { rewrite <- (sim_view _ _ _ S _ _ Ha). simpl. unfold bit0. change (link_off 0) with 4.
    pose proof (Z.mod_pos_bound (word_at m (a + 4)) 2 ltac:(lia)).
    destruct (Z.eqb_spec (word_at m (a + 4) mod 2) 0); simpl; lia. }
  rewrite E, Z.lor_comm. fold (clear_bit0 (word_at m (b + link_off 0))).
  apply lor_low_bit; [apply clear_bit0_even | apply Z.mod_pos_bound; lia].
Qed.

(** [rb_node_t head = { 0 }] *)
Lemma runs_zero_node H a v : H !! a = Some v -> runs (zero_node a) H tt (<[a := NView 0 false 0 0 0]> H).
Proof.
  intros Ha. apply (runs_write _ _ _ _ _ Ha). intros m0 m S.
  destruct (sim_ok _ _ _ S _ _ Ha) as [_ _ _ W0 W1 W2 W3].
  unfold zero_node, data_off. change (link_off 0) with 4. change (link_off 1) with 8.
  change (link_off 2) with 12. eexists. split.
  { erewrite bind_ok by (apply store32_ok; by rewrite Z.add_0_r).
    erewrite bind_ok by (by apply store32_ok). erewrite bind_ok by (by apply store32_ok).
    by apply store32_ok. }
  assert (Hins : forall v1 v2 v3, <[a := NView 0 false 0 0 0]> H =
     <[a := NView 0 false 0 0 0]> (<[a := v3]> (<[a := v2]> (<[a := v1]> H)))).
  { intros. by rewrite !insert_insert_eq. }
  rewrite (Hins (view (set_word (a + 0) 0 m) a)
             (view (set_word (a + 4) 0 (set_word (a + 0) 0 m)) a)
             (view (set_word (a + 8) 0 (set_word (a + 4) 0 (set_word (a + 0) 0 m))) a)).
  eapply sim_set_word; [| by rewrite lookup_insert_eq | lia |].
  - eapply sim_set_word; [| by rewrite lookup_insert_eq | lia | done].
    eapply sim_set_word; [| by rewrite lookup_insert_eq | lia | done].
    eapply sim_set_word; [exact S | exact Ha | lia | done].
  - unfold view. rewrite Z.add_0_r.
    repeat first [ rewrite word_at_set_same | rewrite word_at_set_other by lia ]. reflexivity.
Qed.

(** A part of the heap, seen from the present memory. *)
Lemma sim_sub m0 m H H' : sim m0 m H -> H' ⊆ H -> sim m m H'.
Proof.
  intros S Hs. assert (Hs' : forall a v, H' !! a = Some v -> H !! a = Some v).
  { intros a v Ha. exact (lookup_weaken _ _ _ _ Ha Hs). }
  split.
  - intros a v Ha. eapply sim_ok; eauto.
  - intros a v Ha. eapply sim_view; eauto.
  - intros a b Hab [v Hv] [w Hw]. eapply sim_disj; eauto.
  - done.
  - done.
Qed.

(** One more node, disjoint from the others. *)
Lemma sim_add m H a :
  sim m m H -> node_ok m a -> (forall b, is_Some (H !! b) -> disjoint_nodes a b) ->
  sim m m (<[a := view m a]> H).
Proof.
  intros S O D. split.
  - intros b v. destruct (decide (a = b)) as [->|Hne]; [done |].
    rewrite lookup_insert_ne by done. apply S.
  - intros b v. destruct (decide (a = b)) as [->|Hne]; [rewrite lookup_insert_eq; congruence |].
    rewrite lookup_insert_ne by done. apply S.
  - intros b c Hbc Hb Hc. rewrite !lookup_insert in Hb, Hc.
    repeat case_decide; subst; try done; auto.
    + destruct (D b Hb); [right | left]; done.
    + by eapply sim_disj.
  - done.
  - done.
Qed.

(** The memory operations of the tree code are opaque from here on. *)
#[global] Opaque get_link set_link is_red paint_red paint_black node_data copy_color zero_node.
