(* ===== verification/RbModel.v ===== *)
(** Functional red-black trees: the abstract values that the nodes of rb_tree.c
    represent, their invariants, zippers, and the abstract specification of the
    tree as a sorted association list.

    A label is one tree node: its address, its key ([data]) and the list of the
    nodes with the same key that hang from its link 2. Directions are booleans:
    false is the left child (link 0), true the right one (link 1). *)

From S2P Require Import Prelude.

Record lab : Type := Lab {
  lb_addr : Z;
  lb_key : Z;
  lb_dups : list Z
}.

(** [T c l x r]: [c] is true for a red node. *)
Inductive tree : Type :=
  | E
  | T (c : bool) (l : tree) (x : lab) (r : tree).

Definition red_root (t : tree) : bool :=
  match t with E => false | T c _ _ _ => c end.

(** Child on side [d]. *)
Definition child (d : bool) (t : tree) : tree :=
  match t with E => E | T _ l _ r => if d then r else l end.

(** The node with [a] on side [d] and [b] on the other one. *)
Definition mkT (d c : bool) (a : tree) (x : lab) (b : tree) : tree :=
  if d then T c b x a else T c a x b.

Fixpoint inorder (t : tree) : list lab :=
  match t with
  | E => []
  | T _ l x r => inorder l ++ x :: inorder r
  end.

Fixpoint depth (t : tree) : nat :=
  match t with
  | E => 0
  | T _ l _ r => S (max (depth l) (depth r))
  end.

Definition lab_addrs (x : lab) : list Z := lb_addr x :: lb_dups x.

Fixpoint taddrs (t : tree) : list Z :=
  match t with
  | E => []
  | T _ l x r => lab_addrs x ++ taddrs l ++ taddrs r
  end.

Definition blacken (t : tree) : tree :=
  match t with E => E | T _ l x r => T false l x r end.

(** ** The colour invariant

    [rb t c n]: every path of [t] has [n] black nodes, no red node has a red
    child, and the root of [t] is not red when its parent is ([c]). *)
Fixpoint rb (t : tree) (c : bool) (n : nat) : Prop :=
  match t with
  | E => n = 0%nat
  | T true l _ r => c = false /\ rb l true n /\ rb r true n
  | T false l _ r =>
      match n with
      | O => False
      | S n' => rb l false n' /\ rb r false n'
      end
  end.

(** ** Contexts *)

(** A tree with a hole, from the hole up: [Fr d c x s] is the node [x] of
    colour [c] whose child on side [d] is the hole and whose other child is [s]. *)
Inductive frame : Type := Fr (d c : bool) (x : lab) (s : tree).

Fixpoint plug (C : list frame) (t : tree) : tree :=
  match C with
  | [] => t
  | Fr d c x s :: C' => plug C' (mkT d c t x s)
  end.

Definition topc (C : list frame) : bool :=
  match C with [] => false | Fr _ c _ _ :: _ => c end.

(** The context is well coloured for a hole of black height [n]. *)
Fixpoint rbctx (C : list frame) (n : nat) : Prop :=
  match C with
  | [] => True
  | Fr _ true _ s :: C' => rb s true n /\ topc C' = false /\ rbctx C' n
  | Fr _ false _ s :: C' => rb s false n /\ rbctx C' (S n)
  end.

Fixpoint caddrs (C : list frame) : list Z :=
  match C with
  | [] => []
  | Fr _ _ x s :: C' => lab_addrs x ++ taddrs s ++ caddrs C'
  end.

(** The labels before and after the hole, in order. *)
Fixpoint pre (C : list frame) : list lab :=
  match C with
  | [] => []
  | Fr d _ x s :: C' => pre C' ++ (if d then inorder s ++ [x] else [])
  end.

Fixpoint post (C : list frame) : list lab :=
  match C with
  | [] => []
  | Fr d _ x s :: C' => (if d then [] else x :: inorder s) ++ post C'
  end.

(** ** Search order and the abstract specification *)

Definition keys_lt (l : list lab) (k : Z) : Prop := Forall (fun x => lb_key x < k) l.
Definition keys_gt (l : list lab) (k : Z) : Prop := Forall (fun x => k < lb_key x) l.

(** Strictly increasing keys. *)
Fixpoint sorted (l : list lab) : Prop :=
  match l with
  | [] => True
  | x :: l' => keys_gt l' (lb_key x) /\ sorted l'
  end.

(** What insert_rbnode promises: put a new node at its place, or put it at the
    head of the duplicates of the node that already has its key. *)
Fixpoint ins_spec (a k : Z) (l : list lab) : list lab :=
  match l with
  | [] => [Lab a k []]
  | x :: l' =>
      if k <? lb_key x then Lab a k [] :: l
      else if lb_key x =? k then Lab (lb_addr x) k (a :: lb_dups x) :: l'
      else x :: ins_spec a k l'
  end.

Fixpoint has_key (k : Z) (l : list lab) : bool :=
  match l with
  | [] => false
  | x :: l' => (lb_key x =? k) || has_key k l'
  end.

Definition count_dups (l : list lab) : nat := sum_list (length ∘ lb_dups <$> l).

(** ** Lemmas: shape *)

Lemma child_mkT_same d c a x b : child d (mkT d c a x b) = a.
Proof. by destruct d. Qed.

Lemma child_mkT_other d c a x b : child (negb d) (mkT d c a x b) = b.
Proof. by destruct d. Qed.

Lemma mkT_eta d c l x r :
  T c l x r = mkT d c (child d (T c l x r)) x (child (negb d) (T c l x r)).
Proof. by destruct d. Qed.

Lemma mkT_negb d c a x b : mkT (negb d) c a x b = mkT d c b x a.
Proof. by destruct d. Qed.

Lemma red_root_mkT d c a x b : red_root (mkT d c a x b) = c.
Proof. by destruct d. Qed.

Lemma depth_mkT d c a x b : depth (mkT d c a x b) = S (max (depth a) (depth b)).
Proof. destruct d; simpl; [by rewrite Nat.max_comm | done]. Qed.

Lemma depth_child d t : t <> E -> (depth (child d t) < depth t)%nat.
Proof. destruct t as [|c l x r]; [done |]. intros _. destruct d; simpl; lia. Qed.

Lemma inorder_plug C t : inorder (plug C t) = pre C ++ inorder t ++ post C.
Proof.
  revert t. induction C as [|[d c x s] C IH]; intros t; simpl.
  - by rewrite app_nil_r.
  - rewrite IH. destruct d; simpl; repeat (rewrite <- app_assoc; simpl); [done |].
    by rewrite ?app_nil_r.
Qed.

Lemma depth_blacken t : depth (blacken t) = depth t.
Proof. by destruct t. Qed.

Lemma inorder_blacken t : inorder (blacken t) = inorder t.
Proof. by destruct t. Qed.

Lemma plug_blacken C t d c x s :
  blacken (plug (C ++ [Fr d c x s]) t) = plug (C ++ [Fr d false x s]) t.
Proof.
  revert t. induction C as [|[d' c' x' s'] C IH]; intros t; simpl; [by destruct d | apply IH].
Qed.

(** ** Lemmas: colours *)

Lemma rb_mkT d c a x b pc n : rb (mkT d c a x b) pc n <-> rb (T c a x b) pc n.
Proof. destruct d; simpl; [destruct c, n; simpl; tauto | done]. Qed.

Lemma rb_weaken t c n : rb t c n -> rb t false n.
Proof. destruct t as [|[] l x r]; simpl; tauto. Qed.

Lemma rb_not_red t c n : rb t c n -> red_root t = false -> rb t true n.
Proof. destruct t as [|[] l x r]; simpl; try tauto. Qed.

Lemma rb_under_red t n : rb t true n -> red_root t = false.
Proof. destruct t as [|[] l x r]; simpl; [done | naive_solver | done]. Qed.

Lemma rb_any t c n : red_root t = false -> rb t c n -> forall c', rb t c' n.
Proof. destruct t as [|[] l x r]; simpl; [done | done | done]. Qed.

Lemma rbctx_plug C t n : rbctx C n -> rb t (topc C) n -> exists n', rb (plug C t) false n'.
Proof.
  revert t n. induction C as [|[d c x s] C IH]; intros t n HC Ht; simpl in *.
  - eauto.
  - destruct c.
    + destruct HC as (Hs & Hc & HC). apply (IH _ n HC). apply rb_mkT. rewrite Hc. simpl. done.
    + destruct HC as (Hs & HC). apply (IH _ (S n) HC). apply rb_mkT. done.
Qed.

Lemma rb_blacken t c n : rb t c n -> exists n', rb (blacken t) false n'.
Proof.
  destruct t as [|[] l x r]; simpl.
  - eauto.
  - intros (_ & Hl & Hr). exists (S n). split; by eapply rb_weaken.
  - intros H. by exists n.
Qed.

(** The black height bounds the depth: at most one red node per black one. *)
Lemma rb_depth t c n : rb t c n -> (depth t <= 2 * n + (if c then 0 else 1))%nat.
Proof.
  revert c n. induction t as [|[] l IHl x r IHr]; intros c n H; simpl in *.
  - lia.
  - destruct H as (-> & Hl & Hr). apply IHl in Hl. apply IHr in Hr. lia.
  - destruct n as [|n]; [done |]. destruct H as (Hl & Hr).
    apply IHl in Hl. apply IHr in Hr. destruct c; lia.
Qed.

(** ... and the number of nodes is exponential in it. *)
Lemma rb_size t c n : rb t c n -> (2 ^ n <= S (length (inorder t)))%nat.
Proof.
  revert c n. induction t as [|[] l IHl x r IHr]; intros c n H; simpl in *.
  - subst n. simpl. lia.
  - destruct H as (_ & Hl & Hr). apply IHl in Hl. rewrite length_app. simpl. lia.
  - destruct n as [|n]; [done |]. destruct H as (Hl & Hr).
    apply IHl in Hl. apply IHr in Hr. rewrite length_app. simpl. lia.
Qed.

(** ** Lemmas: order *)

Lemma sorted_app l1 l2 :
  sorted (l1 ++ l2) <->
  sorted l1 /\ sorted l2 /\ Forall (fun x => keys_gt l2 (lb_key x)) l1.
Proof.
  induction l1 as [|x l1 IH]; simpl; [naive_solver |].
  rewrite IH. unfold keys_gt. rewrite Forall_app, Forall_cons. naive_solver.
Qed.

Lemma ins_spec_app_r a k l1 l2 :
  keys_lt l1 k -> ins_spec a k (l1 ++ l2) = l1 ++ ins_spec a k l2.
Proof.
  induction l1 as [|x l1 IH]; simpl; [done |]. intros H.
  apply Forall_cons in H as [Hx H]. rewrite IH by done.
  destruct (Z.ltb_spec k (lb_key x)); [lia |].
  destruct (Z.eqb_spec (lb_key x) k); [lia | done].
Qed.

Lemma ins_spec_gt a k l : keys_gt l k -> ins_spec a k l = Lab a k [] :: l.
Proof.
  destruct l as [|x l]; simpl; [done |]. intros H. apply Forall_cons in H as [Hx H].
  by destruct (Z.ltb_spec k (lb_key x)); [| lia].
Qed.

Lemma ins_spec_eq a k x l :
  lb_key x = k -> ins_spec a k (x :: l) = Lab (lb_addr x) k (a :: lb_dups x) :: l.
Proof.
  intros H. simpl. destruct (Z.ltb_spec k (lb_key x)); [lia |].
  by destruct (Z.eqb_spec (lb_key x) k); [| lia].
Qed.

Lemma keys_lt_app l1 l2 k : keys_lt (l1 ++ l2) k <-> keys_lt l1 k /\ keys_lt l2 k.
Proof. unfold keys_lt. by rewrite Forall_app. Qed.

Lemma keys_gt_app l1 l2 k : keys_gt (l1 ++ l2) k <-> keys_gt l1 k /\ keys_gt l2 k.
Proof. unfold keys_gt. by rewrite Forall_app. Qed.

Lemma ins_spec_keys_gt a k l b : b < k -> keys_gt l b -> keys_gt (ins_spec a k l) b.
Proof.
  intros Hb. unfold keys_gt. induction l as [|x l IH]; simpl; intros H.
  - by constructor.
  - apply Forall_cons in H as [Hx H].
    destruct (k <? lb_key x); [by repeat constructor |].
    destruct (lb_key x =? k); constructor; auto.
Qed.

Lemma ins_spec_sorted a k l : sorted l -> sorted (ins_spec a k l).
Proof.
  induction l as [|x l IH]; simpl; intros H; [by repeat constructor |].
  destruct H as [Hx H]. destruct (Z.ltb_spec k (lb_key x)); simpl.
  - split; [| done]. constructor; simpl; [done |]. eapply Forall_impl; [exact Hx |]. simpl. lia.
  - destruct (Z.eqb_spec (lb_key x) k); simpl; [by subst |].
    split; [| auto]. apply ins_spec_keys_gt; [lia | done].
Qed.

(** The context pins the key: everything before the hole is smaller and
    everything after it is greater. *)
Lemma ins_spec_plug a k C t :
  keys_lt (pre C) k -> keys_gt (post C) k ->
  ins_spec a k (inorder (plug C t)) =
    pre C ++ match inorder t with
             | [] => Lab a k [] :: post C
             | l => ins_spec a k (l ++ post C)
             end.
Proof.
  intros Hpre Hpost. rewrite inorder_plug, ins_spec_app_r by done.
  destruct (inorder t); [| done]. simpl. by rewrite ins_spec_gt.
Qed.

(** ** Lemmas: addresses *)

Lemma taddrs_mkT d c a x b : taddrs (mkT d c a x b) ≡ₚ lab_addrs x ++ taddrs a ++ taddrs b.
Proof. destruct d; simpl; [| done]. by rewrite (Permutation_app_comm (taddrs b)). Qed.

Lemma taddrs_plug C t : taddrs (plug C t) ≡ₚ taddrs t ++ caddrs C.
Proof.
  revert t. induction C as [|[d c x s] C IH]; intros t; simpl; [by rewrite app_nil_r |].
  rewrite IH, taddrs_mkT. solve_Permutation.
Qed.

Lemma taddrs_inorder t : taddrs t ≡ₚ concat (lab_addrs <$> inorder t).
Proof.
  induction t as [|c l IHl x r IHr]; simpl; [done |].
  rewrite fmap_app, concat_app. csimpl. rewrite <- IHl, <- IHr. solve_Permutation.
Qed.

Lemma NoDup_perm (l1 l2 : list Z) : l1 ≡ₚ l2 -> NoDup l1 -> NoDup l2.
Proof. intros P H. by rewrite <- P. Qed.

(** ** Lemmas: searching *)

Lemma has_key_app k l1 l2 : has_key k (l1 ++ l2) = has_key k l1 || has_key k l2.
Proof. induction l1 as [|x l1 IH]; simpl; [done |]. by rewrite IH, orb_assoc. Qed.

Lemma has_key_lt k l : keys_lt l k -> has_key k l = false.
Proof.
  unfold keys_lt. induction 1 as [|x l Hx Hl IH]; simpl; [done |].
  rewrite IH, orb_false_r. apply Z.eqb_neq. lia.
Qed.

Lemma has_key_gt k l : keys_gt l k -> has_key k l = false.
Proof.
  unfold keys_gt. induction 1 as [|x l Hx Hl IH]; simpl; [done |].
  rewrite IH, orb_false_r. apply Z.eqb_neq. lia.
Qed.

Lemma keys_lt_trans l k k' : keys_lt l k -> k <= k' -> keys_lt l k'.
Proof. intros H L. eapply Forall_impl; [exact H |]. simpl. lia. Qed.

Lemma keys_gt_trans l k k' : keys_gt l k -> k' <= k -> keys_gt l k'.
Proof. intros H L. eapply Forall_impl; [exact H |]. simpl. lia. Qed.

(** In a sorted tree the left subtree is below the node and the right one above. *)
Lemma sorted_node C c l x r :
  sorted (inorder (plug C (T c l x r))) ->
  keys_lt (inorder l) (lb_key x) /\ keys_gt (inorder r) (lb_key x).
Proof.
  rewrite inorder_plug. simpl. rewrite !sorted_app. intros (_ & ((_ & [Hr _] & Hl) & _) & _).
  split; [| done].
  unfold keys_lt. eapply Forall_impl; [exact Hl |]. intros y Hy. simpl in Hy.
  by apply Forall_cons in Hy as [Hy _].
Qed.

(** Everything above the hole is on the proper side of the key. *)
Definition around (C : list frame) (k : Z) : Prop := keys_lt (pre C) k /\ keys_gt (post C) k.

Lemma around_tail f C k : around (f :: C) k -> around C k.
Proof.
  destruct f as [d c x s]. intros [Hl Hg]. simpl in *.
  apply keys_lt_app in Hl as [Hl _]. apply keys_gt_app in Hg as [_ Hg]. done.
Qed.

(** The direction of a frame is the result of comparing its key. *)
Lemma around_frame d c x s C k : around (Fr d c x s :: C) k -> (lb_key x <? k) = d /\ lb_key x <> k.
Proof.
  intros [Hl Hg]. simpl in *. destruct d.
  - rewrite !keys_lt_app in Hl. destruct Hl as (_ & _ & Hx). apply Forall_cons in Hx as [Hx _].
    split; [by apply Z.ltb_lt | lia].
  - apply Forall_cons in Hg as [Hx _]. split; [apply Z.ltb_ge; lia | lia].
Qed.

Lemma around_down C c l x r k :
  sorted (inorder (plug C (T c l x r))) -> around C k -> lb_key x <> k ->
  around (Fr (lb_key x <? k) c x (child (negb (lb_key x <? k)) (T c l x r)) :: C) k.
Proof.
  intros S [Hl Hg] Hne. destruct (sorted_node _ _ _ _ _ S) as [Sl Sr].
  unfold around. simpl. destruct (Z.ltb_spec (lb_key x) k) as [L|L]; simpl.
  - rewrite !keys_lt_app. split_and!; try done.
    + eapply keys_lt_trans; [done | lia].
    + by repeat constructor.
  - split; [by rewrite app_nil_r |]. constructor; [lia |]. apply keys_gt_app. split; [| done].
    eapply keys_gt_trans; [done | lia].
Qed.

(** The key is absent from the tree when the search ends at a leaf ... *)
Lemma ins_leaf C a k :
  around C k ->
  inorder (plug C (T true E (Lab a k []) E)) = ins_spec a k (inorder (plug C E)) /\
  has_key k (inorder (plug C E)) = false.
Proof.
  intros [Hl Hg]. rewrite !inorder_plug. simpl. rewrite ins_spec_app_r, ins_spec_gt by done.
  split; [done |]. by rewrite has_key_app, has_key_lt, has_key_gt.
Qed.

(** ... and is the one of the node where it ends otherwise. *)
Lemma ins_dup C a k c l x r :
  sorted (inorder (plug C (T c l x r))) -> around C k -> lb_key x = k ->
  inorder (plug C (T c l (Lab (lb_addr x) k (a :: lb_dups x)) r)) =
    ins_spec a k (inorder (plug C (T c l x r))) /\
  has_key k (inorder (plug C (T c l x r))) = true.
Proof.
  intros S [Hl Hg] Hk. destruct (sorted_node _ _ _ _ _ S) as [Sl Sr].
  rewrite !inorder_plug. simpl. rewrite ins_spec_app_r by done.
  rewrite <- (app_assoc _ (x :: _)), ins_spec_app_r by (by rewrite <- Hk).
  rewrite <- app_comm_cons, ins_spec_eq by done.
  split; [by rewrite <- app_assoc |].
  rewrite !has_key_app. simpl. rewrite Hk, Z.eqb_refl. simpl. by rewrite !orb_true_r.
Qed.

(** ** Lemmas: the steps of the insertion *)

(** A black node both of whose children are not red. *)
Definition calm (t : tree) : Prop :=
  match t with
  | T false l _ r => red_root l = false /\ red_root r = false
  | _ => False
  end.

Lemma flip_rb a y b x c z d pc n :
  rb (T false (T true a y b) x (T true c z d)) pc n ->
  rb (T true (T false a y b) x (T false c z d)) false n /\ calm (T false a y b) /\ calm (T false c z d).
Proof.
  simpl. destruct n as [|n]; [done |].
  intros ((_ & Ha & Hb) & (_ & Hc & Hd)). split_and!; try done;
    eauto using rb_weaken, rb_under_red.
Qed.

Lemma single_inorder d p s0 g s1 C s :
  inorder (plug (Fr d false p (mkT d true s0 g s1) :: C) s) =
  inorder (plug (Fr d true p s0 :: Fr d false g s1 :: C) s).
Proof. rewrite !inorder_plug. destruct d; simpl; repeat (rewrite <- app_assoc; simpl); done. Qed.

Lemma single_around d p s0 g s1 C k :
  around (Fr d true p s0 :: Fr d false g s1 :: C) k ->
  around (Fr d false p (mkT d true s0 g s1) :: C) k.
Proof.
  unfold around. destruct d; simpl; repeat (rewrite <- app_assoc; simpl);
    rewrite ?app_nil_r; done.
Qed.

Lemma single_rb d p s0 g s1 C n :
  rbctx (Fr d true p s0 :: Fr d false g s1 :: C) n -> red_root s1 = false ->
  rbctx (Fr d false p (mkT d true s0 g s1) :: C) n.
Proof.
  simpl. intros (H0 & _ & H1 & HC) Hs. split; [| done]. apply rb_mkT. simpl.
  split_and!; try done. by eapply rb_not_red.
Qed.

Lemma double_inorder d p s0 g s1 C a x b :
  inorder (plug C (mkT d false (mkT d true s0 p a) x (mkT d true b g s1))) =
  inorder (plug (Fr (negb d) true p s0 :: Fr d false g s1 :: C) (mkT d true a x b)).
Proof. rewrite !inorder_plug. destruct d; simpl; repeat (rewrite <- app_assoc; simpl); done. Qed.

Lemma double_rb d p s0 g s1 C a x b n :
  rbctx (Fr (negb d) true p s0 :: Fr d false g s1 :: C) n -> red_root s1 = false ->
  rb (mkT d true a x b) false n ->
  rbctx C (S n) /\ forall c, rb (mkT d false (mkT d true s0 p a) x (mkT d true b g s1)) c (S n).
Proof.
  simpl. intros (H0 & _ & H1 & HC) Hs Hx. apply rb_mkT in Hx as (_ & Ha & Hb).
  split; [done |]. intros c. apply rb_mkT. simpl. rewrite !rb_mkT. simpl.
  split_and!; try done. by eapply rb_not_red.
Qed.
