(* ===== verification/RbRep.v ===== *)
(** Which abstract tree a node heap holds: the representation predicate of
    trees, of duplicate lists and of contexts, and its frame rules. *)

From S2P Require Import Prelude Memory RbTree RbHeap RbModel.

(** ** Representation *)

(** The list of duplicates that starts at pointer [p]. *)
Fixpoint chain (H : nheap) (k p : Z) (l : list Z) : Prop :=
  match l with
  | [] => p = 0
  | a :: l' => p = a /\ a <> 0 /\ exists v, H !! a = Some v /\ v_data v = k /\ chain H k (v_d v) l'
  end.

(** The heap holds the node [x], of colour [c], with view [v]. *)
Definition node_at (H : nheap) (x : lab) (c : bool) (v : nview) : Prop :=
  H !! lb_addr x = Some v /\ lb_addr x <> 0 /\ v_red v = c /\ v_data v = lb_key x /\
  chain H (lb_key x) (v_d v) (lb_dups x).

Fixpoint rep (H : nheap) (p : Z) (t : tree) : Prop :=
  match t with
  | E => p = 0
  | T c l x r =>
      p = lb_addr x /\ exists v, node_at H x c v /\ rep H (v_l v) l /\ rep H (v_r v) r
  end.

(** The nodes above a hole; [head] is the dummy root of the tree operations,
    whose link 1 is the root. *)
Fixpoint rep_ctx (H : nheap) (head : Z) (C : list frame) (hole : Z) : Prop :=
  match C with
  | [] => exists v, H !! head = Some v /\ v_r v = hole
  | Fr d c x s :: C' =>
      exists v, node_at H x c v /\ lnk v d = hole /\ rep H (lnk v (negb d)) s /\
        rep_ctx H head C' (lb_addr x)
  end.

(** The parent of the hole, and the side the hole is on. *)
Definition hptr (head : Z) (C : list frame) : Z :=
  match C with [] => head | Fr _ _ x _ :: _ => lb_addr x end.
Definition hdir (C : list frame) : bool :=
  match C with [] => true | Fr d _ _ _ :: _ => d end.

(** A tree in focus inside its context, all nodes distinct. *)
Record zip (H : nheap) (head : Z) (C : list frame) (s : tree) (n : Z) : Prop := {
  zip_rep : rep H n s;
  zip_ctx : rep_ctx H head C n;
  zip_nodup : NoDup (head :: taddrs s ++ caddrs C)
}.

(** ** What the tree asks of its client

    The comparison callback reads the node and nothing else, and returns a
    function of the node's address and key. *)
Class Comparator {Args : Type} (compare : Z -> Z -> Args -> M mem Z)
    (cmpf : Z -> Z -> Z -> Args -> Z) : Prop :=
  comparator_runs : forall H n v k args,
    H !! n = Some v -> runs (compare n k args) H (cmpf n (v_data v) k args) H.

(** With these arguments it compares keys. *)
Class KeyOrder {Args : Type} (cmpf : Z -> Z -> Z -> Args -> Z) (args : Args) : Prop := {
  key_lt : forall n d k, (cmpf n d k args <? 0) = (d <? k);
  key_eq : forall n d k, (cmpf n d k args =? 0) = (d =? k)
}.

(** ** Agreement of heaps *)

Definition agree (H H' : nheap) (l : list Z) : Prop := forall a, a ∈ l -> H' !! a = H !! a.
Definition same_outside (H H' : nheap) (l : list Z) : Prop := forall a, a ∉ l -> H' !! a = H !! a.

Lemma agree_sub H H' l l' : agree H H' l -> (forall a, a ∈ l' -> a ∈ l) -> agree H H' l'.
Proof. intros A I a Ha. auto. Qed.

Lemma same_outside_trans H H1 H2 l : same_outside H H1 l -> same_outside H1 H2 l -> same_outside H H2 l.
Proof. intros A B a Ha. by rewrite B, A. Qed.

Lemma same_outside_mono H H' l l' :
  same_outside H H' l -> (forall a, a ∈ l -> a ∈ l') -> same_outside H H' l'.
Proof. intros A I a Ha. apply A. intros Hl. auto. Qed.

Lemma same_outside_agree H H' l l' :
  same_outside H H' l -> (forall a, a ∈ l' -> a ∉ l) -> agree H H' l'.
Proof. intros A D a Ha. apply A. auto. Qed.

Lemma chain_agree H H' k p l : agree H H' l -> chain H k p l -> chain H' k p l.
Proof.
  revert p. induction l as [|a l IH]; simpl; [done |].
  intros p A (-> & Ha & v & Hv & Hk & Hc). split; [done |]. split; [done |].
  exists v. rewrite A by set_solver. split; [done |]. split; [done |].
  apply IH; [| done]. eapply agree_sub; [exact A | set_solver].
Qed.

(** A node whose key and duplicates are kept still stands for its label. *)
Lemma node_at_update H H' x c v c' v' :
  node_at H x c v -> H' !! lb_addr x = Some v' -> v_red v' = c' ->
  v_data v' = v_data v -> v_d v' = v_d v -> agree H H' (lb_dups x) -> node_at H' x c' v'.
Proof.
  intros (Hv & H0 & Hc & Hk & Hd) Hv' Hc' Ek Ed A.
  split; [done |]. split; [done |]. split; [done |]. rewrite Ek, Ed.
  split; [done | by eapply chain_agree].
Qed.

Lemma node_at_agree H H' x c v : agree H H' (lab_addrs x) -> node_at H x c v -> node_at H' x c v.
Proof.
  intros A N. assert (N' := N). destruct N' as (Hv & _ & Hc & _).
  eapply node_at_update; eauto.
  - rewrite A; [done | unfold lab_addrs; set_solver].
  - eapply agree_sub; [exact A | unfold lab_addrs; set_solver].
Qed.

Lemma rep_agree H H' p t : agree H H' (taddrs t) -> rep H p t -> rep H' p t.
Proof.
  revert p. induction t as [|c l IHl x r IHr]; simpl; [done |].
  intros p A (-> & v & N & L & R). split; [done |]. exists v. split_and!.
  - eapply node_at_agree; [| exact N]. eapply agree_sub; [exact A | set_solver].
  - apply IHl; [| done]. eapply agree_sub; [exact A | set_solver].
  - apply IHr; [| done]. eapply agree_sub; [exact A | set_solver].
Qed.

Lemma rep_ctx_agree H H' head C hole :
  agree H H' (head :: caddrs C) -> rep_ctx H head C hole -> rep_ctx H' head C hole.
Proof.
  revert hole. induction C as [|[d c x s] C IH]; simpl; intros hole A.
  - intros (v & Hv & Hh). exists v. rewrite A by set_solver. done.
  - intros (v & N & Hh & S & R). exists v. split_and!; [| done | |].
    + eapply node_at_agree; [| exact N]. eapply agree_sub; [exact A | set_solver].
    + eapply rep_agree; [| exact S]. eapply agree_sub; [exact A | set_solver].
    + apply IH; [| done]. eapply agree_sub; [exact A | set_solver].
Qed.

(** ** Shape lemmas *)

Lemma rep_mkT H p d c a x b :
  rep H p (mkT d c a x b) <->
  p = lb_addr x /\ exists v, node_at H x c v /\ rep H (lnk v d) a /\ rep H (lnk v (negb d)) b.
Proof. destruct d; simpl; naive_solver. Qed.

Lemma rep_null H p t : rep H p t -> (p =? 0) = match t with E => true | _ => false end.
Proof.
  destruct t as [|c l x r]; simpl; [intros ->; done |].
  intros (-> & v & (_ & N & _) & _). by apply Z.eqb_neq.
Qed.

Lemma rep_nonempty H p t : rep H p t -> t <> E -> p <> 0 /\ p ∈ taddrs t /\ is_Some (H !! p).
Proof.
  destruct t as [|c l x r]; simpl; [done |].
  intros (-> & v & (Hv & N & _) & _) _. split_and!; [done | unfold lab_addrs; set_solver | eauto].
Qed.

Lemma rep_ptr_in H p t : rep H p t -> ptr_in H p.
Proof.
  destruct t as [|c l x r]; simpl; [by left |].
  intros (-> & v & (Hv & N & _) & _). right. eauto.
Qed.

Lemma rep_is_red H p t : rep H p t -> runs (is_red p) H (red_root t) H.
Proof.
  destruct t as [|c l x r]; simpl.
  - intros ->. apply runs_is_red_null.
  - intros (-> & v & (Hv & N & Hc & _) & _). rewrite <- Hc. by apply runs_is_red.
Qed.

Lemma rep_ctx_hptr H head C hole :
  rep_ctx H head C hole -> exists v, H !! hptr head C = Some v /\ lnk v (hdir C) = hole.
Proof.
  destruct C as [|[d c x s] C]; simpl; [done |].
  intros (v & (Hv & _) & Hh & _). eauto.
Qed.

(** [get_link(t, 1) == g] finds the side of the hole. *)
Lemma rep_ctx_dir H head C hole v :
  rep_ctx H head C hole -> H !! hptr head C = Some v -> hole <> 0 -> hole ∉ caddrs C ->
  (v_r v =? hole) = hdir C.
Proof.
  destruct C as [|[d c x s] C]; simpl; intros R Hv N0 NC.
  - destruct R as (v' & Hv' & <-). simplify_eq. apply Z.eqb_refl.
  - destruct R as (v' & (Hv' & _) & Hh & S & _). simplify_eq.
    destruct d; simpl in *; [apply Z.eqb_refl |].
    apply Z.eqb_neq. intros E.
    destruct s as [|c' l' x' r'].
    + simpl in S. congruence.
    + destruct (rep_nonempty _ _ _ S) as (_ & I & _); [done |]. rewrite E in I. set_solver.
Qed.

(** Writing the hole's link replaces what hangs in the hole. *)
Lemma rep_ctx_set H H' head C hole v new :
  rep_ctx H head C hole -> H !! hptr head C = Some v ->
  H' !! hptr head C = Some (set_lnk (hdir C) new v) ->
  (forall a, a ∈ head :: caddrs C -> a <> hptr head C -> H' !! a = H !! a) ->
  NoDup (head :: caddrs C) ->
  rep_ctx H' head C new.
Proof.
  destruct C as [|[d c x s] C]; simpl; intros R Hv Hv' A ND.
  - eauto.
  - destruct R as (w & N & Hh & S & R). assert (Hw := proj1 N). simplify_eq.
    unfold lab_addrs in *. simpl in *.
    apply NoDup_cons in ND as [Nh ND]. apply NoDup_cons in ND as [Nx ND].
    exists (set_lnk d new v). split_and!.
    + eapply node_at_update; [exact N | exact Hv' | | by destruct d | by destruct d |].
      { destruct N as (_ & _ & Hc & _). by destruct d. }
      intros a Ha. apply A; set_solver.
    + by destruct d.
    + replace (lnk (set_lnk d new v) (negb d)) with (lnk v (negb d)) by (by destruct d).
      eapply rep_agree; [| exact S]. intros a Ha. apply A; set_solver.
    + eapply rep_ctx_agree; [| exact R]. intros a Ha. apply A; set_solver.
Qed.

Lemma hptr_in head C : hptr head C ∈ head :: caddrs C.
Proof. destruct C as [|[d c x s] C]; simpl; unfold lab_addrs; set_solver. Qed.

(** ** Moving the focus *)

Lemma zip_down H head C c l x r n d v :
  zip H head C (T c l x r) n -> H !! n = Some v ->
  zip H head (Fr d c x (child (negb d) (T c l x r)) :: C) (child d (T c l x r)) (lnk v d).
Proof.
  intros [Z1 Z2 Z3] Hv. rewrite (mkT_eta d) in Z1, Z3.
  set (a := child d (T c l x r)) in *. set (b := child (negb d) (T c l x r)) in *.
  apply rep_mkT in Z1 as (-> & v' & N & A & B). assert (Hv' := proj1 N). simplify_eq.
  split; [done | simpl; eauto 10 |].
  eapply NoDup_perm; [| exact Z3]. f_equiv. rewrite taddrs_mkT. simpl. solve_Permutation.
Qed.

Lemma zip_plug H head C s n : zip H head C s n -> exists p, zip H head [] (plug C s) p.
Proof.
  revert s n. induction C as [|[d c x t] C IH]; intros s n Z; simpl; [eauto |].
  apply (IH _ (lb_addr x)). destruct Z as [Z1 (v & N & Hh & S & R) Z3].
  split; [| done |].
  - apply rep_mkT. split; [done |]. exists v. by subst n.
  - eapply NoDup_perm; [| exact Z3]. f_equiv. rewrite taddrs_mkT. simpl. solve_Permutation.
Qed.

(** ** Running code: one step at a time *)

Lemma runs_bind_get {A} H a v d (f : Z -> M mem A) r H' :
  H !! a = Some v -> runs (f (lnk v d)) H r H' -> runs (x ← get_link a (Z.b2z d); f x) H r H'.
Proof. intros Ha R. eapply runs_bind; [by apply runs_get_link | done]. Qed.

(** The rotation, as one update of the two nodes it touches. *)
Lemma runs_rotate H r d vr s vs :
  H !! r = Some vr -> lnk vr (negb d) = s -> H !! s = Some vs -> r <> s -> ptr_in H (lnk vs d) ->
  runs (rotate r d) H s
    (<[s := set_red false (set_lnk d r vs)]>
       (<[r := set_red true (set_lnk (negb d) (lnk vs d) vr)]> H)).
Proof.
  intros Hr <- Hs Hne Hp. set (s := lnk vr (negb d)) in *. unfold rotate.
  eapply runs_bind_get; [exact Hr |]. fold s.
  eapply runs_bind_get; [exact Hs |].
  eapply runs_bind; [apply runs_set_link; [exact Hr | done] |].
  eapply runs_bind.
  { apply (runs_set_link _ s vs); [by rewrite lookup_insert_ne | right; rewrite lookup_insert_eq; eauto]. }
  eapply runs_bind.
  { apply (runs_paint_red _ r (set_lnk (negb d) (lnk vs d) vr)).
    by rewrite lookup_insert_ne, lookup_insert_eq by done. }
  eapply runs_bind.
  { apply (runs_paint_black _ s (set_lnk d r vs)).
    by rewrite lookup_insert_ne, lookup_insert_eq by done. }
  match goal with |- runs _ ?A _ ?B => replace A with B; [apply runs_ret |] end.
  apply map_eq. intros a. rewrite !lookup_insert. repeat case_decide; subst; done.
Qed.

#[global] Opaque rotate.

(** ** Reasoning on distinct addresses *)

(** [nd_split] turns a hypothesis on distinct addresses into its elementary
    facts; [nd] uses them to show that two addresses differ or that an address
    is not among others. *)
Ltac nd_norm H :=
  repeat first [ progress (unfold lab_addrs in H)
               | progress (cbn [taddrs caddrs lab_addrs app] in H)
               | rewrite <- app_assoc in H
               | rewrite <- app_comm_cons in H ].

Ltac nd_split :=
  repeat match goal with
  | H : NoDup (_ :: _) |- _ => apply NoDup_cons in H; destruct H
  | H : NoDup (_ ++ _) |- _ => apply NoDup_app in H; destruct H as (? & ? & ?)
  | H : _ ∉ _ :: _ |- _ => apply not_elem_of_cons in H; destruct H
  | H : _ ∉ _ ++ _ |- _ => apply not_elem_of_app in H; destruct H
  end.

(** Split a copy of [H]; [H] itself is kept under a name the splitting does
    not see. *)
Definition kept (P : Prop) : Prop := P.
Ltac nd_prepare H :=
  let H' := fresh "ND" in
  assert (H' := H);
  match type of H with ?P => change (kept P) in H end;
  nd_norm H'; nd_split.

Ltac nd_elem :=
  repeat match goal with
  | H : _ ∈ _ :: _ |- _ => apply elem_of_cons in H; destruct H
  | H : _ ∈ _ ++ _ |- _ => apply elem_of_app in H; destruct H
  | H : _ ∈ [] |- _ => apply not_elem_of_nil in H; contradiction
  end.

Ltac nd_close :=
  subst; try congruence;
  repeat match goal with
  | F : forall x, x ∈ ?l -> x ∉ _, H : ?q ∈ ?l |- _ => specialize (F q H)
  end;
  nd_split; first [ contradiction | congruence ].

Ltac nd := intros ?; nd_elem; nd_close.
