(* ===== verification/RbInsert.v ===== *)
(** insert_rbnode refines the insertion into a sorted association list.

    The loop of the C code keeps four pointers (great-grandparent, grandparent,
    parent, node) and does not update them after a rotation. The proof follows
    the loop with a context and a focus, and three kinds of states: the pointers
    are the ones of the context; or the node in focus is about to be passed
    without any change ("calm"), and only the great-grandparent may be out of
    date; or a double rotation has just put the old parent or grandparent below
    the node, and the search is about to walk through it. *)

From S2P Require Import Prelude Memory RbTree RbHeap RbModel RbRep.

Section fixes.
Context (head : Z).
Implicit Types (H : nheap) (C : list frame) (s : tree).

(** The colour flip of a black node with two red children. *)
Lemma flip_runs H C a y b x c z d n :
  zip H head C (T false (T true a y b) x (T true c z d)) n ->
  exists H', runs (paint_red n;;
                   l ← get_link n 0; paint_black l;;
                   r ← get_link n 1; paint_black r) H tt H' /\
    zip H' head C (T true (T false a y b) x (T false c z d)) n /\
    same_outside H H' (taddrs (T false (T true a y b) x (T true c z d))).
Proof.
  intros [Z1 Z2 Z3]. simpl in Z1, Z3.
  destruct Z1 as (-> & v & N & (Ey & vy & Ny & Ra & Rb) & (Ez & vz & Nz & Rc & Rd)).
  set (n := lb_addr x) in *.
  assert (Hv := proj1 N). assert (Hy := proj1 Ny). assert (Hz := proj1 Nz). fold n in Hv.
  nd_prepare Z3.
  assert (ny : n <> lb_addr y) by (unfold n; nd).
  assert (nz : n <> lb_addr z) by (unfold n; nd).
  assert (yz : lb_addr y <> lb_addr z) by nd.
  set (H' := <[lb_addr z := set_red false vz]>
               (<[lb_addr y := set_red false vy]> (<[n := set_red true v]> H))).
  assert (O : forall q, q <> n -> q <> lb_addr y -> q <> lb_addr z -> H' !! q = H !! q).
  { intros q ???. unfold H'. by rewrite !lookup_insert_ne by congruence. }
  exists H'. split_and!.
  - eapply runs_bind; [by apply runs_paint_red |].
    eapply (runs_bind_get _ n (set_red true v) false); [by rewrite lookup_insert_eq |].
    simpl. rewrite Ey. eapply runs_bind; [apply runs_paint_black; by rewrite lookup_insert_ne |].
    eapply (runs_bind_get _ n (set_red true v) true);
      [by rewrite lookup_insert_ne, lookup_insert_eq by done |].
    simpl. rewrite Ez. apply runs_paint_black. by rewrite !lookup_insert_ne by done.
  - split.
    + simpl. split; [done |]. exists (set_red true v). split_and!.
      * eapply node_at_update; [exact N | | done | done | done |].
        { unfold H'. by rewrite !lookup_insert_ne, lookup_insert_eq by done. }
        intros q Hq. apply O; unfold n; nd.
      * done.
      * exists (set_red false vy). split_and!.
        -- eapply node_at_update; [exact Ny | | done | done | done |].
           { unfold H'. by rewrite lookup_insert_ne, lookup_insert_eq by done. }
           intros q Hq. apply O; unfold n; nd.
        -- eapply rep_agree; [| exact Ra]. intros q Hq. apply O; unfold n; nd.
        -- eapply rep_agree; [| exact Rb]. intros q Hq. apply O; unfold n; nd.
      * done.
      * exists (set_red false vz). split_and!.
        -- eapply node_at_update; [exact Nz | | done | done | done |].
           { unfold H'. by rewrite lookup_insert_eq. }
           intros q Hq. apply O; unfold n; nd.
        -- eapply rep_agree; [| exact Rc]. intros q Hq. apply O; unfold n; nd.
        -- eapply rep_agree; [| exact Rd]. intros q Hq. apply O; unfold n; nd.
    + eapply rep_ctx_agree; [| exact Z2].
      intros q Hq. apply O; unfold n; nd.
    + exact Z3.
  - intros q Hq. nd_norm Hq. nd_split. by apply O.
Qed.

(** The single rotation: parent and grandparent lean to the same side. *)
Lemma single_runs H C d p s0 g s1 s n :
  zip H head (Fr d true p s0 :: Fr d false g s1 :: C) s n ->
  exists H', runs (top ← rotate (lb_addr g) (negb d);
                   set_link (hptr head C) (Z.b2z (hdir C)) top) H tt H' /\
    zip H' head (Fr d false p (mkT d true s0 g s1) :: C) s n /\
    same_outside H H' (lb_addr p :: lb_addr g :: head :: caddrs C).
Proof.
  intros [Z1 Z2 Z3]. destruct Z2 as (vp & Np & Ep & Rs0 & vg & Ng & Eg & Rs1 & RC).
  destruct (rep_ctx_hptr _ _ _ _ RC) as (vt & Ht & Et). assert (It := hptr_in head C).
  assert (Hp := proj1 Np). assert (Hg := proj1 Ng).
  nd_prepare Z3. remember (hptr head C) as t eqn:Dt.
  assert (pg : lb_addr p <> lb_addr g) by nd.
  assert (tp : t <> lb_addr p) by nd. assert (tg : t <> lb_addr g) by nd.
  set (vp' := set_red false (set_lnk (negb d) (lb_addr g) vp)).
  set (vg' := set_red true (set_lnk d (lnk vp (negb d)) vg)).
  set (H' := <[t := set_lnk (hdir C) (lb_addr p) vt]> (<[lb_addr p := vp']> (<[lb_addr g := vg']> H))).
  assert (O : forall q, q <> t -> q <> lb_addr p -> q <> lb_addr g -> H' !! q = H !! q).
  { intros q ???. unfold H'. by rewrite !lookup_insert_ne by congruence. }
  assert (Hp' : H' !! lb_addr p = Some vp').
  { unfold H'. by rewrite lookup_insert_ne, lookup_insert_eq by done. }
  assert (Hg' : H' !! lb_addr g = Some vg').
  { unfold H'. by rewrite !lookup_insert_ne, lookup_insert_eq by done. }
  exists H'. split_and!.
  - eapply runs_bind.
    + apply (runs_rotate _ _ _ vg (lb_addr p) vp);
        [done | by rewrite negb_involutive | done | done | by eapply rep_ptr_in].
    + rewrite negb_involutive. apply runs_set_link.
      * by rewrite !lookup_insert_ne by done.
      * right. rewrite lookup_insert_eq. eauto.
  - split.
    + eapply rep_agree; [| exact Z1]. intros q Hq. apply O; nd.
    + exists vp'. split_and!.
      * eapply node_at_update; [exact Np | exact Hp' | done | | |]; unfold vp';
          autorewrite with nview; try done. intros q Hq. apply O; nd.
      * unfold vp'. by autorewrite with nview.
      * unfold vp'. autorewrite with nview. apply rep_mkT. split; [done |]. exists vg'. split_and!.
        -- eapply node_at_update; [exact Ng | exact Hg' | done | | |]; unfold vg';
             autorewrite with nview; try done. intros q Hq. apply O; nd.
        -- unfold vg'. autorewrite with nview. eapply rep_agree; [| exact Rs0].
           intros q Hq. apply O; nd.
        -- unfold vg'. autorewrite with nview. eapply rep_agree; [| exact Rs1].
           intros q Hq. apply O; nd.
      * subst t. eapply rep_ctx_set; [exact RC | exact Ht | | |].
        -- unfold H'. by rewrite lookup_insert_eq.
        -- intros q Hq Hne. apply O; [done | nd | nd].
        -- by apply NoDup_cons.
    + eapply NoDup_perm; [| exact Z3]. f_equiv. simpl. rewrite taddrs_mkT. simpl. solve_Permutation.
  - intros q Hq. nd_split. apply O; [intros ->; nd_elem; congruence || done | done | done].
Qed.

(** The double rotation: the node and its parent lean to opposite sides. *)
Lemma double_runs H C d p s0 g s1 a x b n :
  zip H head (Fr (negb d) true p s0 :: Fr d false g s1 :: C) (mkT d true a x b) n ->
  exists H', runs (gl ← get_link (lb_addr g) (Z.b2z d);
                   sub ← rotate gl d;
                   set_link (lb_addr g) (Z.b2z d) sub;;
                   top ← rotate (lb_addr g) (negb d);
                   set_link (hptr head C) (Z.b2z (hdir C)) top) H tt H' /\
    zip H' head C (mkT d false (mkT d true s0 p a) x (mkT d true b g s1)) n /\
    same_outside H H' (lb_addr x :: lb_addr p :: lb_addr g :: head :: caddrs C).
Proof.
  intros [Z1 Z2 Z3]. destruct Z2 as (vp & Np & Ep & Rs0 & vg & Ng & Eg & Rs1 & RC).
  destruct (rep_ctx_hptr _ _ _ _ RC) as (vt & Ht & Et). assert (It := hptr_in head C).
  apply rep_mkT in Z1 as (-> & vx & Nx & Ra & Rb). rewrite negb_involutive in Rs0.
  assert (Hp := proj1 Np). assert (Hg := proj1 Ng). assert (Hx := proj1 Nx).
  assert (Z3' : NoDup (head :: lab_addrs x ++ taddrs a ++ taddrs b ++ lab_addrs p ++ taddrs s0 ++
                         lab_addrs g ++ taddrs s1 ++ caddrs C)).
  { eapply NoDup_perm; [| exact Z3]. f_equiv. rewrite taddrs_mkT. simpl. solve_Permutation. }
  nd_prepare Z3'. remember (hptr head C) as t eqn:Dt.
  assert (pg : lb_addr p <> lb_addr g) by nd. assert (xp : lb_addr x <> lb_addr p) by nd.
  assert (xg : lb_addr x <> lb_addr g) by nd.
  assert (tp : t <> lb_addr p) by nd. assert (tg : t <> lb_addr g) by nd.
  assert (tx : t <> lb_addr x) by nd.
  set (vx' := set_red false (set_lnk (negb d) (lb_addr g) (set_red false (set_lnk d (lb_addr p) vx)))).
  set (vp' := set_red true (set_lnk (negb d) (lnk vx d) vp)).
  set (vg' := set_red true (set_lnk d (lnk vx (negb d)) (set_lnk d (lb_addr x) vg))).
  set (H' := <[t := set_lnk (hdir C) (lb_addr x) vt]>
               (<[lb_addr x := vx']> (<[lb_addr g := vg']> (<[lb_addr p := vp']> H)))).
  assert (O : forall q, q <> t -> q <> lb_addr x -> q <> lb_addr p -> q <> lb_addr g -> H' !! q = H !! q).
  { intros q ????. unfold H'. by rewrite !lookup_insert_ne by congruence. }
  assert (Hx' : H' !! lb_addr x = Some vx').
  { unfold H'. by rewrite lookup_insert_ne, lookup_insert_eq by done. }
  assert (Hg' : H' !! lb_addr g = Some vg').
  { unfold H'. by rewrite !lookup_insert_ne, lookup_insert_eq by done. }
  assert (Hp' : H' !! lb_addr p = Some vp').
  { unfold H'. by rewrite !lookup_insert_ne, lookup_insert_eq by done. }
  exists H'. split_and!.
  - eapply runs_bind_get; [exact Hg |]. rewrite Eg. eapply runs_bind.
    { eapply runs_rotate; [exact Hp | exact Ep | exact Hx | done | by eapply rep_ptr_in]. }
    eapply runs_bind.
    { apply runs_set_link; [rewrite !lookup_insert_ne by done; exact Hg |].
      right. rewrite lookup_insert_eq. eauto. }
    eapply runs_bind.
    { eapply (runs_rotate _ _ _ _ (lb_addr x)); [by rewrite lookup_insert_eq | | | exact (not_eq_sym xg) |].
      - rewrite negb_involutive. by autorewrite with nview.
      - by rewrite lookup_insert_ne, lookup_insert_eq by done.
      - autorewrite with nview. destruct (rep_ptr_in _ _ _ Rb) as [-> | [w Hw]]; [by left |].
        right. rewrite !lookup_insert. repeat case_decide; eauto. }
    match goal with |- runs _ ?A _ _ => replace A with (<[lb_addr x := vx']> (<[lb_addr g := vg']> (<[lb_addr p := vp']> H))) end.
    { apply runs_set_link; [by rewrite !lookup_insert_ne by done |]. right. rewrite lookup_insert_eq. eauto. }
    apply map_eq. intros q. unfold vx', vg', vp'. rewrite !lookup_insert, ?negb_involutive.
    repeat case_decide; subst; try done. by autorewrite with nview.
  - split.
    + apply rep_mkT. split; [done |]. exists vx'. split_and!.
      * eapply node_at_update; [exact Nx | exact Hx' | done | | |]; unfold vx';
          autorewrite with nview; try done. intros q Hq. apply O; nd.
      * unfold vx'. autorewrite with nview. apply rep_mkT. split; [done |]. exists vp'.
        unfold vp'. autorewrite with nview. split_and!.
        -- eapply node_at_update; [exact Np | exact Hp' | done | | |]; unfold vp';
             autorewrite with nview; try done. intros q Hq. apply O; nd.
        -- eapply rep_agree; [| exact Rs0]. intros q Hq. apply O; nd.
        -- eapply rep_agree; [| exact Ra]. intros q Hq. apply O; nd.
      * unfold vx'. autorewrite with nview. apply rep_mkT. split; [done |]. exists vg'.
        unfold vg'. autorewrite with nview. split_and!.
        -- eapply node_at_update; [exact Ng | exact Hg' | done | | |]; unfold vg';
             autorewrite with nview; try done. intros q Hq. apply O; nd.
        -- eapply rep_agree; [| exact Rb]. intros q Hq. apply O; nd.
        -- eapply rep_agree; [| exact Rs1]. intros q Hq. apply O; nd.
    + subst t. eapply rep_ctx_set; [exact RC | exact Ht | | |].
      * unfold H'. by rewrite lookup_insert_eq.
      * intros q Hq Hne. apply O; [done | nd | nd | nd].
      * by apply NoDup_cons.
    + eapply NoDup_perm; [| exact Z3']. f_equiv. rewrite !taddrs_mkT. solve_Permutation.
  - intros q Hq. nd_split. apply O; [intros ->; nd_elem; congruence || done | done | done | done].
Qed.

(** "hard red violation", when there is none. *)
Lemma rotate_none H C s n t g p last :
  zip H head C s n -> p = match C with [] => 0 | Fr _ _ x _ :: _ => lb_addr x end ->
  red_root s && topc C = false ->
  runs (insert_rotate t g p n last) H tt H.
Proof.
  intros [Z1 Z2 _] -> Hr. unfold insert_rotate. eapply (runs_bind _ _ _ false); [| apply runs_ret].
  rewrite <- Hr. eapply runs_andM; [by apply rep_is_red | | by intros ->].
  intros ->. simpl. destruct C as [|[d c x s'] C]; simpl in *; [apply runs_is_red_null |].
  destruct Z2 as (v & (Hv & _ & Hc & _) & _). rewrite <- Hc. by apply runs_is_red.
Qed.

(** ... and when there is one. *)
Lemma rotate_violation H C d0 p s0 d1 c1 g s1 s n :
  zip H head (Fr d0 true p s0 :: Fr d1 c1 g s1 :: C) s n -> red_root s = true ->
  forall r H',
  runs (if bool_decide (d0 = d1) then
          top ← rotate (lb_addr g) (negb d1);
          set_link (hptr head C) (Z.b2z (hdir C)) top
        else
          gl ← get_link (lb_addr g) (Z.b2z d1);
          sub ← rotate gl d1;
          set_link (lb_addr g) (Z.b2z d1) sub;;
          top ← rotate (lb_addr g) (negb d1);
          set_link (hptr head C) (Z.b2z (hdir C)) top) H r H' ->
  runs (insert_rotate (hptr head C) (lb_addr g) (lb_addr p) n d1) H r H'.
Proof.
  intros [Z1 Z2 Z3] Hs r H' R. destruct Z2 as (vp & Np & Ep & Rs0 & vg & Ng & Eg & Rs1 & RC).
  destruct (rep_ctx_hptr _ _ _ _ RC) as (vt & Ht & Et).
  destruct (rep_nonempty _ _ _ Z1) as (N0 & In & _); [by destruct s |].
  destruct Np as (Hp & P0 & Rp & _). destruct Ng as (Hg & G0 & _).
  nd_prepare Z3.
  assert (Hdir : (v_r vt =? lb_addr g) = hdir C) by (eapply rep_ctx_dir; eauto).
  assert (Hside : (n =? lnk vp d1) = bool_decide (d0 = d1)).
  { case_bool_decide as E; [subst; apply Z.eqb_refl |]. apply Z.eqb_neq. intros En.
    replace (lnk vp d1) with (lnk vp (negb d0)) in En by (by destruct d0, d1).
    rewrite <- En in Rs0. destruct s0 as [|c' l' x' r']; [done |].
    destruct (rep_nonempty _ _ _ Rs0) as (_ & I & _); [done |]. revert I. nd. }
  unfold insert_rotate. eapply (runs_bind _ _ _ true).
  { eapply runs_andM; [by apply rep_is_red | | by rewrite Hs].
    intros _. rewrite <- Rp. by apply runs_is_red. }
  apply (runs_bind_get _ _ _ true _ _ _ Ht). simpl. rewrite Hdir.
  apply (runs_bind_get _ _ _ d1 _ _ _ Hp). rewrite Hside.
  case_bool_decide; exact R.
Qed.

(** A new leaf below the last node of the search. *)
Lemma leaf_runs H d c p s0 C node k dup nodes :
  zip H head (Fr d c p s0 :: C) E 0 ->
  H !! node = Some (NView k true 0 0 0) -> node <> 0 ->
  kept (node ∉ head :: caddrs (Fr d c p s0 :: C)) ->
  exists H', runs (insert_grow node (lb_addr p) 0 d dup nodes) H (node, false, u32 (nodes + 1)) H' /\
    zip H' head (Fr d c p s0 :: C) (T true E (Lab node k []) E) node /\
    H' !! node = Some (NView k true 0 0 0).
Proof.
  intros [Z1 Z2 Z3] Hn N0 NI. assert (NI' := NI). unfold kept in NI'. nd_norm NI'. nd_prepare Z3.
  destruct (rep_ctx_hptr _ _ _ _ Z2) as (vt & Ht & Et). simpl in Ht.
  set (H' := <[lb_addr p := set_lnk d node vt]> H).
  assert (Hn' : H' !! node = Some (NView k true 0 0 0)) by (unfold H'; by rewrite lookup_insert_ne).
  exists H'. split_and!; [| | done].
  - unfold insert_grow. simpl. eapply runs_bind; [| apply runs_ret].
    apply runs_set_link; [done | right; eauto].
  - split.
    + simpl. split; [done |]. exists (NView k true 0 0 0). unfold node_at. simpl. done.
    + eapply rep_ctx_set; [exact Z2 | exact Ht | unfold H'; by rewrite lookup_insert_eq | |].
      * intros q _ Hq. unfold H'. by rewrite lookup_insert_ne.
      * exact Z3.
    + eapply (NoDup_perm (node :: head :: caddrs (Fr d c p s0 :: C))).
      * simpl. solve_Permutation.
      * apply NoDup_cons. split; [exact NI | exact Z3].
Qed.

(** The children of the node in focus are not both red: nothing to do. *)
Lemma grow_none H C c l x r n node p dir dup nodes :
  zip H head C (T c l x r) n -> red_root l && red_root r = false ->
  runs (insert_grow node p n dir dup nodes) H (n, dup, nodes) H.
Proof.
  intros [Z1 _ _] Hr. unfold insert_grow. rewrite (rep_null _ _ _ Z1).
  destruct Z1 as (-> & v & (Hv & _) & L & R). eapply (runs_bind _ _ _ false).
  - rewrite <- Hr. eapply runs_andM.
    + apply (runs_bind_get _ _ _ false _ _ _ Hv). by apply rep_is_red.
    + intros ->. apply (runs_bind_get _ _ _ true _ _ _ Hv). by apply rep_is_red.
    + by intros ->.
  - simpl. eapply runs_bind; apply runs_ret.
Qed.

(** They are both red: the flip. *)
Lemma grow_flip H C a y b x c z d n node p dir dup nodes :
  zip H head C (T false (T true a y b) x (T true c z d)) n ->
  exists H', runs (insert_grow node p n dir dup nodes) H (n, dup, nodes) H' /\
    zip H' head C (T true (T false a y b) x (T false c z d)) n /\
    same_outside H H' (taddrs (T false (T true a y b) x (T true c z d))).
Proof.
  intros Z. destruct (flip_runs _ _ _ _ _ _ _ _ _ _ Z) as (H' & R & Z' & O).
  exists H'. split_and!; [| done | done].
  destruct Z as [Z1 _ _]. unfold insert_grow. rewrite (rep_null _ _ _ Z1).
  destruct Z1 as (-> & v & (Hv & _) & L & Rr). eapply (runs_bind _ _ _ true).
  - eapply runs_andM; [apply (runs_bind_get _ _ _ false _ _ _ Hv); by apply (rep_is_red _ _ _ L) | | done].
    intros _. apply (runs_bind_get _ _ _ true _ _ _ Hv). by apply (rep_is_red _ _ _ Rr).
  - eapply runs_bind; [exact R | apply runs_ret].
Qed.

(** "prepend a duplicate" *)
Lemma dup_runs H C c l x r n node k :
  zip H head C (T c l x r) n -> lb_key x = k ->
  H !! node = Some (NView k true 0 0 0) -> node <> 0 ->
  kept (node ∉ head :: taddrs (T c l x r) ++ caddrs C) ->
  exists H', runs (d ← get_link n 2; set_link node 2 d;; set_link n 2 node) H tt H' /\
    zip H' head C (T c l (Lab (lb_addr x) k (node :: lb_dups x)) r) n.
Proof.
  intros [Z1 Z2 Z3] Hk Hn N0 NI. assert (NI' := NI). unfold kept in NI'. nd_norm NI'. nd_prepare Z3.
  destruct Z1 as (-> & v & N & L & R). destruct N as (Hv & X0 & Hc & Hd & Hch).
  assert (Pd : ptr_in H (v_d v)).
  { destruct (lb_dups x) as [|q qs]; simpl in Hch; [by left |].
    destruct Hch as (-> & _ & w & Hw & _). right. eauto. }
  set (H' := <[lb_addr x := set_dup node v]> (<[node := NView k true 0 0 (v_d v)]> H)).
  assert (O : forall q, q <> node -> q <> lb_addr x -> H' !! q = H !! q).
  { intros q ??. unfold H'. by rewrite !lookup_insert_ne. }
  exists H'. split.
  - eapply runs_bind; [by apply runs_get_dup |].
    eapply runs_bind; [by apply (runs_set_dup _ _ _ _ Hn) |].
    apply runs_set_dup; [by rewrite lookup_insert_ne | right; rewrite lookup_insert_eq; eauto].
  - split.
    + simpl. split; [done |]. exists (set_dup node v). split_and!.
      * unfold node_at. simpl. split_and!; try done; [unfold H'; by rewrite lookup_insert_eq | congruence |].
        exists (NView k true 0 0 (v_d v)). split_and!; [| done |].
        { unfold H'. by rewrite lookup_insert_ne, lookup_insert_eq by congruence. }
        simpl. rewrite Hk in Hch. eapply chain_agree; [| exact Hch]. intros q Hq. apply O; nd.
      * eapply rep_agree; [| exact L]. intros q Hq. apply O; nd.
      * eapply rep_agree; [| exact R]. intros q Hq. apply O; nd.
    + eapply rep_ctx_agree; [| exact Z2]. intros q Hq. apply O; nd.
    + eapply (NoDup_perm (node :: head :: taddrs (T c l x r) ++ caddrs C)).
      * simpl. unfold lab_addrs. simpl. solve_Permutation.
      * apply NoDup_cons. split; [exact NI | exact Z3].
Qed.
End fixes.

(** ** The loop *)

Section loop.
Context {Args : Type} (compare : Z -> Z -> Args -> M mem Z) (cmpf : Z -> Z -> Z -> Args -> Z).
Context `{!Comparator compare cmpf}.
Context (args : Args) `{!KeyOrder cmpf args}.
(** The dummy root, the new node and its key. *)
Context (head node k : Z) (node_nonnull : node <> 0).
(** The labels of the tree before the insertion. *)
Context (L : list lab) (L_sorted : sorted L).
Context (node_out : kept (node ∉ head :: concat (lab_addrs <$> L))).

Implicit Types (H : nheap) (C : list frame) (s : tree).

Definition paddr C : Z := match C with [] => 0 | Fr _ _ x _ :: _ => lb_addr x end.
Definition gaddr C : Z := match C with _ :: C' => paddr C' | [] => 0 end.
Definition taddr C : Z := match C with _ :: _ :: C' => hptr head C' | _ => head end.
Definition pdir C : bool := match C with [] => false | Fr d _ _ _ :: _ => d end.
Definition gdir C : bool := match C with _ :: C' => pdir C' | [] => false end.

(** No two red siblings above the focus, and a red parent has a black parent
    and a sibling that is not red. *)
Definition okctx C s : Prop :=
  match C with
  | [] => red_root s = false /\ s <> E
  | Fr _ true _ _ :: C' => exists d g s1 C'', C' = Fr d false g s1 :: C'' /\ red_root s1 = false
  | Fr _ false _ s' :: _ => red_root s && red_root s' = false
  end.

(** What every state of the loop satisfies. *)
Record linv H C s (n : Z) (h : nat) : Prop := {
  l_zip : zip H head C s n;
  l_new : H !! node = Some (NView k true 0 0 0);
  l_ctx : rbctx C h;
  l_rb : rb s (topc C) h;
  l_around : around C k;
  l_inorder : inorder (plug C s) = L
}.

Lemma linv_out H C s n h : linv H C s n h -> kept (node ∉ head :: taddrs s ++ caddrs C).
Proof.
  intros I. unfold kept. rewrite <- taddrs_plug, taddrs_inorder, (l_inorder _ _ _ _ _ I). exact node_out.
Qed.

(** The three kinds of states. *)
Definition fresh C s (t g : Z) (last : bool) : Prop :=
  g = gaddr C /\ t = taddr C /\ last = gdir C /\ okctx C s.
Definition passing_calm C s (t g : Z) (last : bool) : Prop :=
  g = gaddr C /\ last = gdir C /\ calm s /\ ((2 <= length C)%nat \/ t = head).
Definition passing_red C s (g : Z) (b : nat) : Prop :=
  g <> 0 /\ topc C = false /\ C <> [] /\
  exists l x r, s = T true l x r /\ red_root l = false /\ red_root r = false /\
    calm (child (lb_key x <? k) s) /\ (depth (child (lb_key x <? k)%Z s) <= b)%nat.

(** ... with enough iterations left: a double rotation costs one more. *)
Definition ready (fuel : nat) C s (t g : Z) (last : bool) : Prop :=
  (fresh C s t g last /\ (2 * depth s + 1 <= fuel)%nat) \/
  (passing_calm C s t g last /\ (2 * depth s + 1 <= fuel)%nat) \/
  (exists b, passing_red C s g b /\ (2 * b + 2 <= fuel)%nat).

(** What the loop returns: the counters and the new tree. *)
Definition inserted (nodes dups : Z) (r : Z * Z) (H' : nheap) : Prop :=
  exists t' p' h', zip H' head [] t' p' /\ inorder t' = ins_spec node k L /\ rb t' false h' /\
    r = if has_key k L then (nodes, u32 (dups + 1)) else (u32 (nodes + 1), dups).

Lemma linv_key H C c l x r n h v :
  linv H C (T c l x r) n h -> H !! n = Some v -> v_data v = lb_key x /\ n = lb_addr x.
Proof.
  intros I Hv. destruct (zip_rep _ _ _ _ _ (l_zip _ _ _ _ _ I)) as (-> & w & (Hw & _ & _ & Hk & _) & _).
  simplify_eq. done.
Qed.

(** Going down one step keeps the invariant. *)
Lemma linv_down H C c l x r n h v :
  linv H C (T c l x r) n h -> H !! n = Some v -> lb_key x <> k ->
  exists h', linv H (Fr (lb_key x <? k) c x (child (negb (lb_key x <? k)) (T c l x r)) :: C)
               (child (lb_key x <? k) (T c l x r)) (lnk v (lb_key x <? k)) h'.
Proof.
  intros [Z New Ctx Rb Ar In] Hv Hk. set (d := lb_key x <? k).
  exists (if c then h else pred h). split.
  - by eapply zip_down.
  - done.
  - simpl. destruct c; simpl in Rb.
    + destruct Rb as (Tc & Rl & Rr). split_and!; [by destruct d | done | done].
    + destruct h as [|h]; [done |]. destruct Rb as [Rl Rr]. split; [by destruct d | done].
  - simpl. destruct c; simpl in Rb.
    + destruct Rb as (_ & Rl & Rr). by destruct d.
    + destruct h as [|h]; [done |]. destruct Rb as [Rl Rr]. by destruct d.
  - apply around_down; [by rewrite In | done | done].
  - cbn [plug]. by rewrite <- (mkT_eta d c l x r).
Qed.

(** The end of an iteration when the node in focus has the key. *)
Lemma found_dup H C c l x r n h nodes dups :
  linv H C (T c l x r) n h -> lb_key x = k ->
  exists H' res, inserted nodes dups res H' /\
    runs (d ← get_link n 2; set_link node 2 d;; set_link n 2 node;; mret (nodes, u32 (dups + 1)))
      H res H'.
Proof.
  intros I Hk. assert (Out := linv_out _ _ _ _ _ I). destruct I as [Z New Ctx Rb Ar In].
  destruct (dup_runs _ _ _ _ _ _ _ _ _ _ Z Hk New node_nonnull Out) as (H' & R & Z').
  exists H', (nodes, u32 (dups + 1)).
  assert (Hs : sorted (inorder (plug C (T c l x r)))) by (by rewrite In).
  destruct (ins_dup _ node _ _ _ _ _ Hs Ar Hk) as [I1 I2]. rewrite In in I1, I2. split.
  - destruct (zip_plug _ _ _ _ _ Z') as [p' Zp].
    destruct (rbctx_plug C (T c l (Lab (lb_addr x) k (node :: lb_dups x)) r) h Ctx) as [h' Rh].
    { by destruct c. }
    eexists _, p', h'. split_and!; [exact Zp | done | done | by rewrite I2].
  - destruct R as [D R]. split; [done |].
    intros m0 m S. destruct (R m0 m S) as (m' & E & S'). exists m'. split; [| done].
    revert E. unfold mbind, M_bind. destruct (get_link n 2 m) as [[d m1]|]; [| done].
    destruct (set_link node 2 d m1) as [[[] m2]|]; [| done]. by intros ->.
Qed.

(** The end of the iteration that has put the leaf in place. *)
Lemma inserted_leaf H C s n h nodes dups :
  zip H head C s n -> rbctx C h -> rb s (topc C) h ->
  inorder (plug C s) = ins_spec node k L -> has_key k L = false ->
  inserted nodes dups (u32 (nodes + 1), dups) H.
Proof.
  intros Z Ctx Rb In Hk. destruct (zip_plug _ _ _ _ _ Z) as [p' Zp].
  destruct (rbctx_plug _ _ _ Ctx Rb) as [h' Rh].
  eexists _, p', h'. split_and!; [exact Zp | done | done | by rewrite Hk].
Qed.

(** The iteration from the comparison on, when it has inserted the leaf. *)
Lemma tail_leaf fuel H v t g p last dir nodes dups :
  H !! node = Some v ->
  runs (key ← node_data node;
        cmp ← compare node key args;
        if cmp =? 0 then
          if false && negb (node =? node) then
            d ← get_link node 2; set_link node 2 d;; set_link node 2 node;; mret (nodes, u32 (dups + 1))
          else mret (nodes, dups)
        else
          n ← get_link node (Z.b2z (cmp <? 0));
          insert_loop compare fuel args node (if g =? 0 then t else g) p node n
            (cmp <? 0) dir last nodes dups) H (nodes, dups) H.
Proof.
  intros Hn. eapply runs_bind; [by apply runs_node_data |].
  eapply runs_bind; [by apply comparator_runs |]. simpl.
  rewrite key_eq, Z.eqb_refl. simpl. apply runs_ret.
Qed.

(** The iteration from the comparison on, when the focus is an old node. *)
Lemma tail_node fuel H C c l x r n h v t g p dir nodes dups :
  linv H C (T c l x r) n h -> H !! n = Some v ->
  (lb_key x <> k ->
   exists H' res, inserted nodes dups res H' /\
     runs (insert_loop compare fuel args node (if g =? 0 then t else g) p n
             (lnk v (lb_key x <? k)) (lb_key x <? k) dir true nodes dups) H res H') ->
  exists H' res, inserted nodes dups res H' /\
  runs (key ← node_data node;
        cmp ← compare n key args;
        if cmp =? 0 then
          if true && negb (n =? node) then
            d ← get_link n 2; set_link node 2 d;; set_link n 2 node;; mret (nodes, u32 (dups + 1))
          else mret (nodes, dups)
        else
          n' ← get_link n (Z.b2z (cmp <? 0));
          insert_loop compare fuel args node (if g =? 0 then t else g) p n n'
            (cmp <? 0) dir true nodes dups) H res H'.
Proof.
  intros I Hv Hgo. destruct (linv_key _ _ _ _ _ _ _ _ _ I Hv) as [Hk Hn].
  assert (Hne : (n =? node) = false).
  { apply Z.eqb_neq. intros ->. apply (linv_out _ _ _ _ _ I). simpl. unfold lab_addrs.
    rewrite <- Hn. set_solver. }
  assert (Hcase : exists H' res, inserted nodes dups res H' /\
    runs (if lb_key x =? k then
            d ← get_link n 2; set_link node 2 d;; set_link n 2 node;; mret (nodes, u32 (dups + 1))
          else
            n' ← get_link n (Z.b2z (lb_key x <? k));
            insert_loop compare fuel args node (if g =? 0 then t else g) p n n'
              (lb_key x <? k) dir true nodes dups) H res H').
  { destruct (Z.eqb_spec (lb_key x) k) as [E|E].
    - by eapply found_dup.
    - destruct (Hgo E) as (H' & res & Ins & R). exists H', res. split; [done |].
      by apply (runs_bind_get _ _ _ _ _ _ _ Hv). }
  destruct Hcase as (H' & res & Ins & R). exists H', res. split; [done |].
  eapply runs_bind; [by apply (runs_node_data _ _ _ (l_new _ _ _ _ _ I)) |].
  eapply runs_bind; [by apply comparator_runs |]. simpl.
  rewrite key_eq, key_lt, Hk, Hne. simpl. exact R.
Qed.
(** The three outcomes of the rotation step on a red node. *)
Inductive rotated : list frame -> tree -> list frame -> tree -> Prop :=
  | rotated_none C s : topc C = false -> rotated C s C s
  | rotated_single d p s0 g s1 C s :
      rotated (Fr d true p s0 :: Fr d false g s1 :: C) s
        (Fr d false p (mkT d true s0 g s1) :: C) s
  | rotated_double d p s0 g s1 C a x b :
      rotated (Fr (negb d) true p s0 :: Fr d false g s1 :: C) (mkT d true a x b)
        C (mkT d false (mkT d true s0 p a) x (mkT d true b g s1)).

Lemma rotated_inorder C s C' s' : rotated C s C' s' -> inorder (plug C' s') = inorder (plug C s).
Proof. destruct 1; [done | apply single_inorder | apply double_inorder]. Qed.

(** The node in focus stays the same node. *)
Definition root_lab (t : tree) : option lab :=
  match t with E => None | T _ _ x _ => Some x end.

Lemma rotated_root C s C' s' : rotated C s C' s' -> root_lab s' = root_lab s.
Proof. destruct 1 as [| | d]; try done. by destruct d. Qed.

Lemma rep_root H p t x :
  rep H p t -> root_lab t = Some x -> p = lb_addr x /\ exists v, H !! p = Some v /\ v_data v = lb_key x.
Proof.
  destruct t as [|c l y r]; simpl; [done |]. intros (-> & v & (Hv & _ & _ & Hk & _) & _) [= <-]. eauto.
Qed.

Lemma rotated_around C s C' s' : rotated C s C' s' -> around C k -> around C' k.
Proof.
  destruct 1; [done | apply single_around |]. intros A. by apply around_tail, around_tail in A.
Qed.

Lemma fix_red H C s n h :
  zip H head C s n -> red_root s = true -> rbctx C h -> rb s false h ->
  (topc C = true -> okctx C s) ->
  exists H' C' s' h', rotated C s C' s' /\
    runs (insert_rotate (taddr C) (gaddr C) (paddr C) n (gdir C)) H tt H' /\
    zip H' head C' s' n /\ rbctx C' h' /\ rb s' (topc C') h' /\
    same_outside H H' (head :: taddrs s ++ caddrs C).
Proof.
  intros Z Rs Ctx Rb Ok. destruct (topc C) eqn:Tc.
  2:{ exists H, C, s, h. split_and!; [by constructor | | done | done | by rewrite Tc | by intros a _].
      eapply rotate_none; [exact Z | done | by rewrite Tc, andb_false_r]. }
  destruct C as [|[d0 [] p s0] C]; try done. simpl in Ok.
  destruct (Ok eq_refl) as (d1 & g & s1 & C2 & -> & Bs1).
  destruct (decide (d0 = d1)) as [->|Hd].
  - destruct (single_runs _ _ _ _ _ _ _ _ _ _ Z) as (H' & R & Z' & O).
    exists H', (Fr d1 false p (mkT d1 true s0 g s1) :: C2), s, h.
    split_and!; [constructor | | done | by apply single_rb | done |].
    + eapply rotate_violation; [exact Z | done |]. by rewrite bool_decide_true.
    + eapply same_outside_mono; [exact O |]. clear. simpl. unfold lab_addrs. set_solver.
  - assert (d0 = negb d1) as -> by (by destruct d0, d1).
    destruct s as [|c l x r]; [done |]. simpl in Rs. subst c.
    rewrite (mkT_eta d1) in Z, Rb |- *.
    set (a := child d1 (T true l x r)) in *. set (b := child (negb d1) (T true l x r)) in *.
    destruct (double_runs _ _ _ _ _ _ _ _ _ _ _ _ Z) as (H' & R & Z' & O).
    destruct (double_rb _ _ _ _ _ _ _ _ _ _ Ctx Bs1 Rb) as [Ctx' Rb'].
    exists H', C2, (mkT d1 false (mkT d1 true s0 p a) x (mkT d1 true b g s1)), (S h).
    split_and!; [constructor | | done | done | apply Rb' |].
    + eapply rotate_violation; [exact Z | by rewrite red_root_mkT |].
      rewrite bool_decide_false; [exact R | by destruct d1].
    + eapply same_outside_mono; [exact O |]. clear. intros q.
      rewrite !elem_of_cons, !elem_of_app, taddrs_mkT. simpl. unfold lab_addrs. set_solver.
Qed.

Abbreviation loop fuel t g p n dir last nodes dups :=
  (insert_loop compare fuel args node t g p n dir last true nodes dups).

(** The loop succeeds from every state that is [ready] with this many iterations. *)
Definition loops (fuel : nat) : Prop :=
  forall H C s n h t g last nodes dups,
    linv H C s n h -> ready fuel C s t g last ->
    exists H' res, inserted nodes dups res H' /\
      runs (loop fuel t g (paddr C) n (pdir C) last nodes dups) H res H'.

(** An iteration that changes nothing. *)
Lemma step_quiet fuel H C c l x r n h t g last nodes dups :
  loops fuel -> linv H C (T c l x r) n h -> red_root l && red_root r = false ->
  let d := lb_key x <? k in
  (lb_key x <> k ->
   ready fuel (Fr d c x (child (negb d) (T c l x r)) :: C) (child d (T c l x r))
     (if g =? 0 then t else g) (paddr C) (pdir C)) ->
  exists H' res, inserted nodes dups res H' /\
    runs (loop (S fuel) t g (paddr C) n (pdir C) last nodes dups) H res H'.
Proof.
  intros IH I Hlr d Hgo.
  destruct (rep_nonempty _ _ _ (zip_rep _ _ _ _ _ (l_zip _ _ _ _ _ I))) as (_ & _ & v & Hv); [done |].
  assert (Hc : c && topc C = false).
  { pose proof (l_rb _ _ _ _ _ I) as Rb. destruct c; simpl in *; [tauto | done]. }
  edestruct (tail_node fuel H C c l x r n h v t g (paddr C) (pdir C) nodes dups I Hv)
    as (H' & res & Ins & R).
  { intros Hk. destruct (linv_down _ _ _ _ _ _ _ _ _ I Hv Hk) as (h' & I').
    destruct (linv_key _ _ _ _ _ _ _ _ _ I Hv) as [_ ->].
    exact (IH _ _ _ _ _ _ _ _ nodes dups I' (Hgo Hk)). }
  exists H', res. split; [done |]. cbn [insert_loop].
  eapply runs_bind; [eapply grow_none; [exact (l_zip _ _ _ _ _ I) | done] |].
  eapply runs_bind; [eapply rotate_none; [exact (l_zip _ _ _ _ _ I) | done | done] |].
  exact R.
Qed.

(** The iteration that puts the new leaf in place. *)
Lemma step_leaf fuel H C n h t g last nodes dups :
  linv H C E n h -> fresh C E t g last ->
  exists H' res, inserted nodes dups res H' /\
    runs (loop (S fuel) t g (paddr C) n (pdir C) last nodes dups) H res H'.
Proof.
  intros I (-> & -> & -> & Ok). assert (Out := linv_out _ _ _ _ _ I).
  destruct I as [Z New Ctx Rb Ar In].
  assert (n = 0) as -> by apply (zip_rep _ _ _ _ _ Z).
  destruct C as [|[d c p s0] C]; [by destruct Ok |].
  destruct (leaf_runs _ _ _ _ _ _ _ _ _ true nodes Z New node_nonnull Out) as (H1 & R1 & Z1 & N1).
  simpl in Rb. subst h.
  destruct (fix_red _ _ _ _ 0%nat Z1 eq_refl Ctx) as (H2 & C2 & s2 & h2 & Ro & R2 & Z2 & Ctx2 & Rb2 & O2).
  { simpl. done. }
  { intros Tc. destruct c; [exact Ok | done]. }
  destruct (ins_leaf (Fr d c p s0 :: C) node k Ar) as [L1 L2]. rewrite In in L1, L2.
  exists H2, (u32 (nodes + 1), dups). split.
  { eapply inserted_leaf; [exact Z2 | exact Ctx2 | exact Rb2 | | done].
    by rewrite (rotated_inorder _ _ _ _ Ro). }
  cbn [insert_loop]. eapply runs_bind; [exact R1 |]. cbn beta iota.
  eapply runs_bind; [exact R2 |].
  destruct (rep_root _ _ _ (Lab node k []) (zip_rep _ _ _ _ _ Z2)) as (_ & v & Hv & _).
  { by rewrite (rotated_root _ _ _ _ Ro). }
  by eapply tail_leaf.
Qed.

(** After a flip the search goes to a calm child, or through a node that the
    double rotation has moved down. *)
Lemma flip_ready fuel H C l x r C2 c2 l2 r2 n pc h :
  rotated C (T true l x r) C2 (T c2 l2 x r2) -> rb (T c2 l2 x r2) pc h -> calm l -> calm r ->
  rep_ctx H head C n -> around C k -> (2 * depth (T true l x r) <= fuel)%nat ->
  let d := lb_key x <? k in
  ready fuel (Fr d c2 x (child (negb d) (T c2 l2 x r2)) :: C2) (child d (T c2 l2 x r2))
    (if gaddr C =? 0 then taddr C else gaddr C) (paddr C) (pdir C).
Proof.
  intros Ro Rb Cl Cr RC Ar Hf d.
  assert (Cd : calm (child d (T true l x r))) by (by destruct d).
  assert (Dd := depth_child d (T true l x r) ltac:(done)).
  inversion Ro as [? ? Tc | d' p s0 g s1 C' s | d' p s0 g s1 C' a x' b]; subst; clear Ro.
  - right; left. split; [| lia]. split_and!; [done | done | done |].
    destruct C2; [right; done | left; simpl; lia].
  - right; left. split; [| lia]. split_and!; [done | done | done | left; simpl; lia].
  - right; right. exists (max (depth l) (depth r)). split; [| simpl in Hf; lia].
    destruct RC as (vp & (_ & P0 & _) & _).
    destruct (around_frame _ _ _ _ _ _ Ar) as [Kp _].
    destruct (around_frame _ _ _ _ _ _ (around_tail _ _ _ Ar)) as [Kg _].
    assert (x' = x) as -> by (destruct d'; simpl in *; by simplify_eq).
    assert (c2 = false) as -> by (destruct d'; simpl in *; by simplify_eq).
    split_and!; [done | done | done |].
    assert (Rbs : exists h', rb s0 true h' /\ rb a true h' /\ rb b true h' /\ rb s1 true h').
    { destruct d'; simpl in *; simplify_eq; simpl in Rb; (destruct h; [done |]); exists h; tauto. }
    destruct Rbs as (h' & B0 & Ba & Bb & B1).
    apply rb_under_red in B0, Ba, Bb, B1. clearbody d.
    destruct d', d; simpl in *; simplify_eq; simpl in *; eexists _, _, _; (split; [reflexivity |]);
      rewrite ?Kp, ?Kg; split_and!; try done; lia.
Qed.

(** The iteration that flips the colours of a black node with two red children. *)
Lemma step_flip fuel H C a y b x c z d n h t g last nodes dups :
  loops fuel -> linv H C (T false (T true a y b) x (T true c z d)) n h ->
  fresh C (T false (T true a y b) x (T true c z d)) t g last ->
  (2 * depth (T false (T true a y b) x (T true c z d)) <= fuel)%nat ->
  exists H' res, inserted nodes dups res H' /\
    runs (loop (S fuel) t g (paddr C) n (pdir C) last nodes dups) H res H'.
Proof.
  intros IH I (-> & -> & -> & Ok) Hfuel. assert (Out := linv_out _ _ _ _ _ I).
  destruct I as [Z New Ctx Rb Ar In].
  destruct (grow_flip _ _ _ _ _ _ _ _ _ _ _ node (paddr C) (pdir C) true nodes Z) as (H1 & R1 & Z1 & O1).
  destruct (flip_rb _ _ _ _ _ _ _ _ _ Rb) as (Rb1 & Cl & Cr).
  destruct (fix_red _ _ _ _ h Z1 eq_refl Ctx Rb1) as (H2 & C2 & s2 & h2 & Ro & R2 & Z2 & Ctx2 & Rb2 & O2).
  { intros Tc. destruct C as [|[? [] ? ?] ?]; done. }
  assert (I2 : linv H2 C2 s2 n h2).
  { split; [done | | done | done | by eapply rotated_around |].
    - rewrite O2, O1; [done | | exact Out]. intros Hn. apply Out. set_solver.
    - rewrite (rotated_inorder _ _ _ _ Ro), <- In, !inorder_plug. done. }
  destruct (rep_root _ _ _ x (zip_rep _ _ _ _ _ Z2)) as (En & v & Hv & _).
  { by rewrite (rotated_root _ _ _ _ Ro). }
  destruct s2 as [|c2 l2 x2 r2]; [by apply rotated_root in Ro |].
  assert (x2 = x) as -> by (apply rotated_root in Ro; simpl in Ro; congruence).
  edestruct (tail_node fuel H2 C2 c2 l2 x r2 n h2 v (taddr C) (gaddr C) (paddr C) (pdir C) nodes dups I2 Hv)
    as (H' & res & Ins & R).
  { intros Hk. destruct (linv_down _ _ _ _ _ _ _ _ _ I2 Hv Hk) as (h' & I').
    rewrite En. refine (IH _ _ _ _ _ _ _ _ nodes dups I' _).
    eapply flip_ready; [exact Ro | exact Rb2 | done | done | exact (zip_ctx _ _ _ _ _ Z1) | exact Ar | done]. }
  exists H', res. split; [done |]. cbn [insert_loop].
  eapply runs_bind; [exact R1 |]. cbn beta iota. eapply runs_bind; [exact R2 | exact R].
Qed.

(** The loop ends, with the new node in the tree. *)
Lemma loop_ok fuel : loops fuel.
Proof.
  induction fuel as [|fuel IH]; intros H C s n h t g last nodes dups I Rd.
  { exfalso. destruct Rd as [[_ ?] | [[_ ?] | (b & _ & ?)]]; lia. }
  destruct Rd as [[F Hf] | [[(-> & -> & Cs & Ht) Hf] | (b & (G0 & Tc & Cn & l & x & r & -> & Rl & Rr & Cc & Hd) & Hf)]].
  - destruct s as [|c l x r]; [by eapply step_leaf |].
    destruct (red_root l && red_root r) eqn:Rlr.
    + apply andb_true_iff in Rlr as [Rl Rr].
      destruct l as [|[] a y b]; try done. destruct r as [|[] c' z d]; try done.
      assert (c = false) as ->.
      { pose proof (l_rb _ _ _ _ _ I) as Rb. destruct c; [| done]. simpl in Rb. naive_solver. }
      eapply step_flip; [done | exact I | done | lia].
    + eapply step_quiet; [done | exact I | done |]. intros Hk. left.
      split; [| pose proof (depth_child (lb_key x <? k) (T c l x r) ltac:(done)); lia].
      destruct F as (-> & -> & -> & Ok). split_and!; [done | | done |].
      * destruct C as [|[? ? p1 ?] [|[? ? g1 ?] C]]; simpl; try done.
        destruct (zip_ctx _ _ _ _ _ (l_zip _ _ _ _ _ I)) as (? & _ & _ & _ & ? & (_ & G0 & _) & _).
        by apply Z.eqb_neq in G0 as ->.
      * destruct c; simpl.
        -- destruct C as [|[d0 [] p s0] C]; simpl in Ok.
           ++ by destruct Ok.
           ++ pose proof (l_rb _ _ _ _ _ I) as Rb. simpl in Rb. by destruct Rb.
           ++ eauto 10.
        -- destruct (lb_key x <? k); simpl; [by rewrite andb_comm | done].
  - destruct s as [|[] l x r]; try done. destruct Cs as [Cl Cr].
    eapply step_quiet; [done | exact I | by rewrite Cl |]. intros Hk. left.
    split; [| pose proof (depth_child (lb_key x <? k) (T false l x r) ltac:(done)); lia].
    split_and!; [done | | done |].
    + destruct C as [|[? ? p1 ?] [|[? ? g1 ?] C]]; simpl in *; try (destruct Ht; [lia | done]).
      destruct (zip_ctx _ _ _ _ _ (l_zip _ _ _ _ _ I)) as (? & _ & _ & _ & ? & (_ & G0 & _) & _).
      by apply Z.eqb_neq in G0 as ->.
    + destruct (lb_key x <? k); simpl; by rewrite ?Cl, ?Cr.
  - eapply step_quiet; [done | exact I | by rewrite Rl |]. intros Hk. right; left.
    split; [| lia]. split_and!; [done | done | done |].
    left. destruct C; [done | simpl; lia].
Qed.
End loop.
