(* ===== verification/RbSpec.v ===== *)
(** The contract of insert_rbnode.

    [holds m tr t] says that the nodes of the tree structure [tr] stand in
    memory for the abstract tree [t]; [rb_ok] is the invariant of the tree
    (colours, search order, the two counters). The operations are proved to
    return, to keep the invariant, to implement the sorted-list specification
    of RbModel and to leave the rest of memory alone. *)

From S2P Require Import Prelude Memory RbTree RbHeap RbModel RbRep RbInsert.

(** ** Trees in memory *)

Definition holds (m : mem) (tr : rb_tree) (t : tree) : Prop :=
  exists H, sim m m H /\ rep H (root tr) t /\ NoDup (taddrs t) /\
    forall a, is_Some (H !! a) <-> a ∈ taddrs t.

Record rb_ok (tr : rb_tree) (t : tree) : Prop := {
  ok_root : red_root t = false;
  ok_rb : exists n, rb t false n;
  ok_sorted : sorted (inorder t);
  ok_nodes : t <> E -> num_nodes tr = u32 (Z.of_nat (length (inorder t)));
  ok_dups : t <> E -> num_dup tr = u32 (Z.of_nat (count_dups (inorder t)))
}.

(** The bytes outside the nodes [l] and the page tables are the same. *)
Definition untouched (m m' : mem) (l : list Z) : Prop :=
  m_pages m' = m_pages m /\
  forall b, (forall a, a ∈ l -> b < a \/ a + 16 <= b) -> byte_at m' b = byte_at m b.

(** ** The specification: counters and addresses *)

Lemma u32_succ z : u32 (u32 z + 1) = u32 (z + 1).
Proof. unfold u32. by rewrite Zplus_mod_idemp_l. Qed.

Lemma count_dups_cons x l : count_dups (x :: l) = (length (lb_dups x) + count_dups l)%nat.
Proof. done. Qed.

Lemma ins_spec_counts a k l :
  sorted l ->
  length (ins_spec a k l) = (if has_key k l then length l else S (length l)) /\
  count_dups (ins_spec a k l) = if has_key k l then S (count_dups l) else count_dups l.
Proof.
  induction l as [|x l IH]; [done |]. cbn [ins_spec has_key sorted]. intros [Hx Hl].
  destruct (IH Hl) as [I1 I2]. rewrite (count_dups_cons x l).
  destruct (Z.ltb_spec k (lb_key x)).
  - replace (lb_key x =? k) with false by (symmetry; lia). rewrite orb_false_l.
    rewrite has_key_gt; [done |]. eapply keys_gt_trans; [exact Hx | lia].
  - destruct (Z.eqb_spec (lb_key x) k); rewrite count_dups_cons; cbn [length]; [done |].
    rewrite I1, I2, orb_false_l. destruct (has_key k l); lia.
Qed.

Lemma ins_spec_addrs a k l :
  concat (lab_addrs <$> ins_spec a k l) ≡ₚ a :: concat (lab_addrs <$> l).
Proof.
  induction l as [|x l IH]; simpl; [done |]. unfold lab_addrs in *.
  destruct (k <? lb_key x); [done |]. destruct (lb_key x =? k); simpl.
  - apply Permutation_swap.
  - rewrite IH. rewrite Permutation_swap, <- Permutation_middle. done.
Qed.

(** Every node with its key. *)
Definition keyed (l : list lab) : list (Z * Z) :=
  concat ((fun x => (fun a => (a, lb_key x)) <$> lab_addrs x) <$> l).

Lemma keyed_cons x l : keyed (x :: l) = ((fun a => (a, lb_key x)) <$> lab_addrs x) ++ keyed l.
Proof. done. Qed.

Lemma keyed_app l1 l2 : keyed (l1 ++ l2) = keyed l1 ++ keyed l2.
Proof. unfold keyed. by rewrite fmap_app, concat_app. Qed.

Lemma keyed_fst l : fst <$> keyed l = concat (lab_addrs <$> l).
Proof.
  induction l as [|x l IH]; [done |]. rewrite keyed_cons, fmap_app, IH. rewrite <- list_fmap_compose.
  unfold compose. simpl fst. by rewrite list_fmap_id.
Qed.

Lemma keyed_elem a k l : (a, k) ∈ keyed l <-> exists x, x ∈ l /\ k = lb_key x /\ a ∈ lab_addrs x.
Proof.
  induction l as [|x l IH].
  - split; [by intros ?%not_elem_of_nil | by intros (x & ?%not_elem_of_nil & _)].
  - rewrite keyed_cons, elem_of_app, IH, list_elem_of_fmap. setoid_rewrite elem_of_cons. naive_solver.
Qed.

Lemma keyed_taddrs t a : a ∈ taddrs t <-> exists k, (a, k) ∈ keyed (inorder t).
Proof.
  rewrite taddrs_inorder, <- keyed_fst, list_elem_of_fmap. split.
  - intros ([b k] & -> & Hb). eauto.
  - intros (k & Hk). by exists (a, k).
Qed.

Lemma ins_spec_keyed a k l : keyed (ins_spec a k l) ≡ₚ (a, k) :: keyed l.
Proof.
  induction l as [|x l IH]; [done |]. cbn [ins_spec].
  destruct (k <? lb_key x); [done |]. destruct (Z.eqb_spec (lb_key x) k) as [E|E]; rewrite !keyed_cons.
  - unfold lab_addrs. simpl. rewrite E. solve_Permutation.
  - rewrite IH. solve_Permutation.
Qed.

Lemma rep_lab H p t x : rep H p t -> x ∈ inorder t -> exists c v, node_at H x c v.
Proof.
  revert p. induction t as [|c l IHl y r IHr]; intros p; simpl; [by intros _ ?%not_elem_of_nil |].
  intros (_ & v & N & L & R). rewrite elem_of_app, elem_of_cons. intros [Hx | [-> | Hx]]; eauto.
Qed.

Lemma chain_data H key p l a : chain H key p l -> a ∈ l -> exists v, H !! a = Some v /\ v_data v = key /\ a <> 0.
Proof.
  revert p. induction l as [|b l IH]; intros p; simpl; [by intros _ ?%not_elem_of_nil |].
  intros (-> & B0 & v & Hv & K & Ch) [-> | Ha]%elem_of_cons; [eauto |]. by eapply IH.
Qed.

(** The key of a node of the tree is its data word. *)
Lemma holds_key m tr t a k : holds m tr t -> (a, k) ∈ keyed (inorder t) -> word_at m a = k.
Proof.
  intros (H & Sm & R & _) Ha. apply keyed_elem in Ha as (x & Hx & -> & Hb).
  destruct (rep_lab _ _ _ _ R Hx) as (c & v & Hv & _ & _ & Kv & Ch).
  apply elem_of_cons in Hb as [-> | Hb].
  - rewrite <- Kv, <- (sim_view _ _ _ Sm _ _ Hv). done.
  - destruct (chain_data _ _ _ _ _ Ch Hb) as (w & Hw & Kw & _). rewrite <- Kw, <- (sim_view _ _ _ Sm _ _ Hw). done.
Qed.

(** ** From the heap back to memory *)

(** A heap with the tree, the new node and the dummy root in it. *)
Lemma holds_open m tr t l :
  holds m tr t -> (forall a, a ∈ l -> node_ok m a) ->
  (forall a b, a ∈ l -> b ∈ l -> a <> b -> disjoint_nodes a b) ->
  (forall a b, a ∈ l -> b ∈ taddrs t -> disjoint_nodes a b) ->
  exists H, sim m m H /\ rep H (root tr) t /\ NoDup (taddrs t) /\
    (forall a, is_Some (H !! a) <-> a ∈ l ++ taddrs t) /\
    (forall a, a ∈ l -> H !! a = Some (view m a)).
Proof.
  intros (H & Sm & R & ND & D) Hok Hd Hdt. induction l as [|a l IH]; simpl.
  { exists H. split_and!; try done. intros a Ha. by apply not_elem_of_nil in Ha. }
  destruct IH as (H1 & S1 & R1 & _ & D1 & V1); [set_solver.. |].
  destruct (decide (a ∈ l)) as [Ha|Ha].
  { exists H1. split_and!; try done; [| set_solver]. intros b. rewrite D1. set_solver. }
  assert (Hat : a ∉ taddrs t).
  { intros Ht. destruct (Hdt a a ltac:(set_solver) Ht); lia. }
  exists (<[a := view m a]> H1). split_and!; try done.
  - apply sim_add; [done | apply Hok; set_solver |]. intros b Hb. apply D1 in Hb.
    apply elem_of_app in Hb as [Hb|Hb]; [apply Hd | apply Hdt]; set_solver.
  - eapply rep_agree; [| exact R1]. intros b Hb. rewrite lookup_insert_ne; [done | congruence].
  - intros b. rewrite lookup_insert. case_decide; subst; [set_solver |]. rewrite D1. set_solver.
  - intros b Hb. rewrite lookup_insert. case_decide; subst; [done |]. set_solver.
Qed.

(** ... and forgotten again, but for the nodes of the tree. *)
Lemma holds_close m m' H tr t l :
  sim m m' H -> rep H (root tr) t -> NoDup (taddrs t) ->
  (forall a, is_Some (H !! a) <-> a ∈ l) -> (forall a, a ∈ taddrs t -> a ∈ l) ->
  holds m' tr t /\ untouched m m' l.
Proof.
  intros Sm R ND D I. split.
  - exists (filter (fun p => p.1 ∈ taddrs t) H).
    assert (A : agree H (filter (fun p => p.1 ∈ taddrs t) H) (taddrs t)).
    { intros a Ha. destruct (H !! a) as [v|] eqn:E.
      - by apply map_lookup_filter_Some.
      - apply map_lookup_filter_None. by left. }
    split_and!.
    + eapply sim_sub; [exact Sm | apply map_filter_subseteq].
    + by eapply rep_agree.
    + done.
    + intros a. split.
      * intros [v Hv]. by apply map_lookup_filter_Some in Hv as [_ ?].
      * intros Ha. rewrite A by done. apply D. auto.
  - split; [apply (sim_pages _ _ _ Sm) |]. intros b Hb. apply (sim_frame _ _ _ Sm).
    intros a Ha. apply Hb. by apply D.
Qed.

(** ** Insertion *)

Section insert.
Context {Args : Type} (compare : Z -> Z -> Args -> M mem Z) (cmpf : Z -> Z -> Z -> Args -> Z).
Context `{!Comparator compare cmpf}.
Context (args : Args) `{!KeyOrder cmpf args}.
Context (head : Z).

(** The new node before the search starts. *)
Lemma fresh_node_runs {A} (f : M mem A) H node v r H' :
  H !! node = Some v ->
  runs f (<[node := NView (v_data v) true 0 0 0]> H) r H' ->
  runs (set_link node 0 0;; set_link node 1 0;; set_link node 2 0;; paint_red node;; f) H r H'.
Proof.
  intros Hn R. assert (P0 : forall H, ptr_in H 0) by (by left).
  eapply runs_bind; [apply (runs_set_link _ _ v false 0); done |].
  eapply runs_bind; [eapply (runs_set_link _ _ _ true 0); [by rewrite lookup_insert_eq | done] |].
  eapply runs_bind; [eapply runs_set_dup; [by rewrite lookup_insert_eq | done] |].
  eapply runs_bind; [eapply runs_paint_red; by rewrite lookup_insert_eq |].
  by rewrite !insert_insert_eq.
Qed.

(** Painting the root black at the end. *)
Lemma blacken_runs H p t :
  rep H p t -> t <> E -> NoDup (taddrs t) ->
  exists H', runs (paint_black p) H tt H' /\ rep H' p (blacken t) /\
    forall b w, H !! b = Some w -> exists w', H' !! b = Some w' /\ v_data w' = v_data w.
Proof.
  destruct t as [|c l x r]; [done |]. intros R _ ND.
  assert (R' := R). destruct R' as (-> & v & N & Rl & Rr). assert (Hv := proj1 N).
  exists (<[lb_addr x := set_red false v]> H). split; [by apply runs_paint_black |]. split.
  2:{ intros b w Hw. rewrite lookup_insert. case_decide; [simplify_eq; eauto | eauto]. }
  nd_prepare ND. simpl. split; [done |]. exists (set_red false v).
  split; [| split].
  - eapply node_at_update; [exact N | by rewrite lookup_insert_eq | done..|].
    intros a Ha. rewrite lookup_insert_ne; [done |]. intros <-. contradiction.
  - eapply rep_agree; [| exact Rl]. intros a Ha. rewrite lookup_insert_ne; [done |].
    intros <-. contradiction.
  - eapply rep_agree; [| exact Rr]. intros a Ha. rewrite lookup_insert_ne; [done |].
    intros <-. contradiction.
Qed.

Definition insert_post (node k : Z) (t : tree) (tr' : rb_tree) (t' : tree) : Prop :=
  inorder t' = ins_spec node k (inorder t) /\ rb_ok tr' t' /\ taddrs t' ≡ₚ node :: taddrs t.

Lemma insert_post_intro node k t t' nodes dups p h tr :
  rb_ok tr t -> t <> E -> rb t' false h -> inorder t' = ins_spec node k (inorder t) ->
  (nodes, dups) = (if has_key k (inorder t) then (num_nodes tr, u32 (num_dup tr + 1))
                   else (u32 (num_nodes tr + 1), num_dup tr)) ->
  insert_post node k t (RbTree p nodes dups) (blacken t').
Proof.
  intros [Or Ob Os On Od] Ht Rb In Hc.
  destruct (ins_spec_counts node k (inorder t) Os) as [L1 L2]. split_and!.
  - by rewrite inorder_blacken.
  - split; simpl; rewrite ?inorder_blacken, ?In.
    + by destruct t'.
    + by eapply rb_blacken.
    + by apply ins_spec_sorted.
    + intros _. rewrite L1. destruct (has_key _ _); simplify_eq; [by apply On |].
      rewrite On by done. rewrite u32_succ. f_equal. lia.
    + intros _. rewrite L2. destruct (has_key _ _); simplify_eq; [| by apply Od].
      rewrite Od by done. rewrite u32_succ. f_equal. lia.
  - rewrite taddrs_inorder, inorder_blacken, In, ins_spec_addrs. by rewrite <- taddrs_inorder.
Qed.

Lemma insert_runs_empty H tr node v fuel :
  root tr = 0 -> H !! node = Some v -> node <> 0 ->
  exists H' tr', runs (insert_rbnode compare head fuel tr node args) H (1, tr') H' /\
    rep H' (root tr') (T false E (Lab node (v_data v) []) E) /\
    insert_post node (v_data v) E tr' (T false E (Lab node (v_data v) []) E).
Proof.
  intros Hr Hn Hn0. unfold insert_rbnode. apply Z.eqb_neq in Hn0 as Hb. rewrite Hb, Hr, Z.eqb_refl.
  eexists _, _. split; [| split].
  - eapply fresh_node_runs; [exact Hn |].
    eapply runs_bind; [apply runs_ret |]. cbn [root].
    eapply runs_bind; [eapply runs_paint_black; by rewrite lookup_insert_eq | apply runs_ret].
  - simpl. split; [done |]. exists (NView (v_data v) false 0 0 0).
    split; [split; [by rewrite lookup_insert_eq | done] | done].
  - split_and!; [done | | done]. split; simpl; try done; [by exists 1%nat | by repeat constructor].
Qed.

Lemma insert_runs H tr t node v fuel :
  rep H (root tr) t -> rb_ok tr t -> NoDup (head :: node :: taddrs t) ->
  H !! node = Some v -> node <> 0 -> is_Some (H !! head) -> (2 * depth t + 1 <= fuel)%nat ->
  exists H' tr' t', runs (insert_rbnode compare head fuel tr node args) H (1, tr') H' /\
    rep H' (root tr') t' /\ insert_post node (v_data v) t tr' t'.
Proof.
  intros R Ok ND Hn Hn0 [vh Hh] Hf. destruct t as [|c l x r] eqn:Et.
  { destruct (insert_runs_empty H tr node v fuel R Hn Hn0) as (H' & tr' & ?). eauto. }
  rewrite <- Et in *. assert (Hne : t <> E) by (by subst).
  destruct (rep_nonempty _ _ _ R Hne) as (Hr0 & _ & Hroot). apply Z.eqb_neq in Hr0.
  destruct (ok_rb _ _ Ok) as [h Rb].
  set (H1 := <[node := NView (v_data v) true 0 0 0]> H).
  set (H2 := <[head := NView 0 false 0 (root tr) 0]> H1).
  apply NoDup_cons in ND as [Nh [Nn ND]%NoDup_cons]. apply not_elem_of_cons in Nh as [Nhn Nht].
  assert (R2 : rep H2 (root tr) t).
  { eapply rep_agree; [| exact R]. intros a Ha. unfold H2, H1.
    rewrite !lookup_insert_ne by (intros ->; contradiction). done. }
  assert (Hn2 : H2 !! node = Some (NView (v_data v) true 0 0 0)).
  { unfold H2, H1. by rewrite lookup_insert_ne, lookup_insert_eq. }
  assert (Out : kept (node ∉ head :: concat (lab_addrs <$> inorder t))).
  { unfold kept. rewrite <- taddrs_inorder. set_solver. }
  destruct (loop_ok compare cmpf args head node (v_data v) Hn0 (inorder t) (ok_sorted _ _ Ok) Out fuel
              H2 [] t (root tr) h head 0 false (num_nodes tr) (num_dup tr))
    as (H3 & [nodes dups] & (t' & p' & h' & Z' & In' & Rb' & Hres) & RL).
  { split; [split | | | | |]; simpl; rewrite ?app_nil_r; try done; [| by apply NoDup_cons |].
    - exists (NView 0 false 0 (root tr) 0). unfold H2. by rewrite lookup_insert_eq.
    - split; constructor. }
  { left. split; [| lia]. split_and!; [done.. |]. split; [apply Ok | done]. }
  destruct Z' as [Rp [vh' [Hh' <-]] NDp]. simpl in NDp. rewrite app_nil_r in NDp.
  assert (Hne' : t' <> E).
  { intros ->. simpl in In'. clear -In'. destruct (inorder t) as [|y ys]; [done |]. simpl in In'.
    by repeat case_match. }
  destruct (blacken_runs _ _ _ Rp Hne' (proj2 (proj1 (NoDup_cons _ _) NDp))) as (H4 & RB & R4 & _).
  exists H4, (RbTree (v_r vh') nodes dups), (blacken t'). split; [| split; [done |]].
  2:{ by eapply insert_post_intro. }
  unfold insert_rbnode. apply Z.eqb_neq in Hn0 as Hb. rewrite Hb, Hr0.
  eapply fresh_node_runs; [exact Hn |]. fold H1.
  eapply runs_bind.
  - eapply runs_bind; [apply (runs_zero_node _ _ vh); unfold H1; by rewrite lookup_insert_ne |].
    eapply runs_bind.
    { eapply (runs_set_link _ _ _ true); [by rewrite lookup_insert_eq |]. right.
      unfold H1. rewrite !lookup_insert. repeat case_decide; [eauto.. | exact Hroot]. }
    rewrite insert_insert_eq. eapply runs_bind; [exact RL |]. cbn beta iota.
    eapply runs_bind; [exact (runs_get_link _ _ _ true Hh') |]. apply runs_ret.
  - cbn [root]. eapply runs_bind; [exact RB | apply runs_ret].
Qed.

(** What the caller of insert_rbnode must provide: nodes that lie apart, in
    memory that is present. *)
Record can_insert (m : mem) (node : Z) (t : tree) : Prop := {
  ci_node : node_ok m node;
  ci_head : node_ok m head;
  ci_apart : disjoint_nodes node head;
  ci_node_apart : forall a, a ∈ taddrs t -> disjoint_nodes node a;
  ci_head_apart : forall a, a ∈ taddrs t -> disjoint_nodes head a
}.

Lemma disjoint_nodes_sym a b : disjoint_nodes a b -> disjoint_nodes b a.
Proof. unfold disjoint_nodes. lia. Qed.

Lemma insert_correct m tr t node fuel :
  holds m tr t -> rb_ok tr t -> can_insert m node t -> (2 * depth t + 1 <= fuel)%nat ->
  exists tr' m' t',
    insert_rbnode compare head fuel tr node args m = Ok ((1, tr'), m') /\
    holds m' tr' t' /\ insert_post node (word_at m node) t tr' t' /\
    untouched m m' (head :: node :: taddrs t).
Proof.
  intros Hm Ok [On Oh Ap Apn Aph] Hf.
  destruct (holds_open m tr t [head; node] Hm) as (H & Sm & R & ND & D & V).
  { intros a. set_unfold. naive_solver. }
  { intros a b. set_unfold. pose proof (disjoint_nodes_sym _ _ Ap). naive_solver. }
  { intros a b. set_unfold. naive_solver. }
  assert (Hn0 : node <> 0) by (pose proof (ok_pos _ _ On); lia).
  assert (Hne : head <> node) by (unfold disjoint_nodes in Ap; lia).
  assert (Hnt : node ∉ taddrs t) by (intros Ha; destruct (Apn _ Ha); lia).
  assert (Hht : head ∉ taddrs t) by (intros Ha; destruct (Aph _ Ha); lia).
  destruct (insert_runs H tr t node (view m node) fuel R Ok) as (H' & tr' & t' & [Dom Run] & R' & Post).
  { rewrite !NoDup_cons. split; [set_solver | done]. }
  { apply V. set_solver. }
  { done. }
  { apply D. set_solver. }
  { done. }
  destruct (Run m m Sm) as (m' & E & Sm').
  assert (P := proj2 (proj2 Post)).
  destruct (holds_close m m' H' tr' t' (head :: node :: taddrs t) Sm' R') as [Hh Hu].
  { rewrite P. by apply NoDup_cons. }
  { intros a. rewrite <- elem_of_dom, Dom, elem_of_dom. apply D. }
  { intros a. rewrite P. set_solver. }
  exists tr', m', t'. done.
Qed.

(** The data words stay. *)
Lemma insert_data m m' tr t tr' t' node :
  holds m tr t -> holds m' tr' t' -> insert_post node (word_at m node) t tr' t' ->
  forall b, b ∈ node :: taddrs t -> word_at m' b = word_at m b.
Proof.
  intros Hm Hm' (In & _ & _) b. rewrite elem_of_cons. intros [-> | Hb].
  - eapply holds_key; [exact Hm' |]. rewrite In, ins_spec_keyed. by left.
  - apply keyed_taddrs in Hb as [k Hk]. rewrite (holds_key _ _ _ _ _ Hm Hk).
    eapply holds_key; [exact Hm' |]. rewrite In, ins_spec_keyed. by right.
Qed.

(** The depth of a well-coloured tree with few enough nodes. *)
Lemma depth_bound tr t h :
  rb_ok tr t -> Z.of_nat (length (inorder t)) < 2 ^ Z.of_nat h -> (depth t <= 2 * h + 1)%nat.
Proof.
  intros [_ [n Rb] _ _ _] Hl. pose proof (rb_depth _ _ _ Rb). pose proof (rb_size _ _ _ Rb).
  assert (n <= h)%nat; [| simpl in *; lia].
  apply Nat.nlt_ge. intros Hlt.
  assert (2 ^ (S h) <= 2 ^ n)%nat by (apply Nat.pow_le_mono_r; lia).
  assert (Z.of_nat (2 ^ h) = 2 ^ Z.of_nat h) by (by rewrite Nat2Z.inj_pow).
  simpl in *. lia.
Qed.
End insert.

(** C7: insert_rbnode returns for every well-formed tree, within twice the
    depth plus one iterations of its loop; the tree it leaves is a red-black
    search tree with correct counters, it holds what inserting the node into
    the sorted list of the old tree gives (a node with a key already present
    goes to the front of the duplicates of that key), and no byte outside the
    nodes and the dummy root changes. *)
Theorem insert_rbnode_ok {Args} compare cmpf (args : Args) head m tr t node fuel :
  Comparator compare cmpf -> KeyOrder cmpf args ->
  holds m tr t -> rb_ok tr t -> can_insert head m node t -> (2 * depth t + 1 <= fuel)%nat ->
  exists tr' m' t',
    insert_rbnode compare head fuel tr node args m = Ok ((1, tr'), m') /\
    holds m' tr' t' /\ rb_ok tr' t' /\
    inorder t' = ins_spec node (word_at m node) (inorder t) /\ taddrs t' ≡ₚ node :: taddrs t /\
    untouched m m' (head :: node :: taddrs t).
Proof.
  intros Cm Ko Hm Ok Ci Hf.
  destruct (insert_correct compare cmpf args head m tr t node fuel Hm Ok Ci Hf)
    as (tr' & m' & t' & Run & Hm' & (In & Ok' & Pm) & Un).
  exists tr', m', t'. split_and!; done.
Qed.
