(* ===== verification/RbRemove.v ===== *)
(** remove_rbnode on the heap of nodes: the way down.

    The loop of the C code pushes a red node down in front of the search, so
    that the node it ends at can be cut off. The proof follows it with a
    context and a focus: the context is the path from the root to the node [n]
    of the code, the focus the child it looks at next. The node [f] that the
    code remembers is the last one on the path at which the search turned
    left, if that one matches. *)

From S2P Require Import Prelude Memory RbTree RbHeap RbModel RbRep.

Section moves.
Context (head : Z).
Implicit Types (H : nheap) (C : list frame) (s : tree).

(** A focus in its context, and link 0 of the dummy root is null. *)
Record rzip H C s (n : Z) : Prop := {
  rz_zip : zip H head C s n;
  rz_left : exists v, H !! head = Some v /\ v_l v = 0
}.

(** ** Moving the focus *)

Lemma rzip_up H d c x o C s n : rzip H (Fr d c x o :: C) s n -> rzip H C (mkT d c s x o) (lb_addr x).
Proof.
  intros [[Z1 (v & N & Hh & S & R) Z3] L]. split; [| done]. split.
  - apply rep_mkT. split; [done |]. exists v. by subst n.
  - done.
  - eapply NoDup_perm; [| exact Z3]. f_equiv. rewrite taddrs_mkT. simpl. solve_Permutation.
Qed.

(** The child on side [d] of the node in focus. *)
Lemma rzip_down H C d c a x o n :
  rzip H C (mkT d c a x o) n -> exists v, n = lb_addr x /\ H !! n = Some v /\ v_red v = c /\
    rzip H (Fr d c x o :: C) a (lnk v d).
Proof.
  intros [[Z1 Z2 Z3] L]. apply rep_mkT in Z1 as (-> & v & N & A & B). exists v.
  assert (Hv := proj1 N). split_and!; [done | done | apply N |]. split; [| done]. split; [done | |].
  - simpl. exists v. split_and!; done.
  - eapply NoDup_perm; [| exact Z3]. f_equiv. rewrite taddrs_mkT. simpl. solve_Permutation.
Qed.

(** The address of a node in focus, and its two links. *)
Lemma rzip_node H C d c a x o n :
  rzip H C (mkT d c a x o) n -> exists v, n = lb_addr x /\ n <> 0 /\ H !! n = Some v /\ v_red v = c /\
    v_data v = lb_key x /\ rep H (lnk v d) a /\ rep H (lnk v (negb d)) o.
Proof.
  intros [[Z1 _ _] _]. apply rep_mkT in Z1 as (-> & v & (N1 & N2 & N3 & N4 & _) & A & B).
  exists v. split_and!; done.
Qed.

(** The parent's link to the focus. *)
Lemma rzip_parent H C s n :
  rzip H C s n -> exists v, H !! hptr head C = Some v /\ lnk v (hdir C) = n.
Proof. intros [[_ Z2 _] _]. by apply rep_ctx_hptr. Qed.

(** [link(g, 1) == p] finds the side of the focus. *)
Lemma rzip_side H C s n v :
  rzip H C s n -> s <> E -> H !! hptr head C = Some v -> (v_r v =? n) = hdir C.
Proof.
  intros [[Z1 Z2 Z3] _] Hs Hv. destruct (rep_nonempty _ _ _ Z1 Hs) as (N0 & In & _).
  eapply rep_ctx_dir; [exact Z2 | exact Hv | done |]. intros Hc.
  apply NoDup_cons in Z3 as [_ ND]. apply NoDup_app in ND as (_ & D & _). by apply (D n).
Qed.

(** ** Changing the focus *)

Lemma paint_runs H C c l x r n (b : bool) :
  rzip H C (T c l x r) n ->
  exists H', runs (if b then paint_red n else paint_black n) H tt H' /\ rzip H' C (T b l x r) n.
Proof.
  intros [[Z1 Z2 Z3] (vh & Hh & Lh)]. destruct Z1 as (-> & v & N & A & B). assert (Hv := proj1 N).
  assert (ND := Z3). nd_prepare ND.
  set (H' := <[lb_addr x := set_red b v]> H).
  assert (O : forall q, q <> lb_addr x -> H' !! q = H !! q) by (intros q Hq; unfold H'; by rewrite lookup_insert_ne).
  exists H'. split; [destruct b; [by apply runs_paint_red | by apply runs_paint_black] |]. split.
  - split; [| | done].
    + simpl. split; [done |]. exists (set_red b v). split_and!.
      * eapply node_at_update; [exact N | unfold H'; by rewrite lookup_insert_eq | done..|].
        intros q Hq. apply O. nd.
      * eapply rep_agree; [| exact A]. intros q Hq. apply O. nd.
      * eapply rep_agree; [| exact B]. intros q Hq. apply O. nd.
    + eapply rep_ctx_agree; [| exact Z2]. intros q Hq. apply O. nd.
  - exists vh. split; [| done]. rewrite O; [done | nd].
Qed.

(** A write of the link to the focus leaves link 0 of the dummy root alone. *)
Lemma head_left H H' C vp new vh :
  H !! head = Some vh -> v_l vh = 0 -> H !! hptr head C = Some vp ->
  H' !! hptr head C = Some (set_lnk (hdir C) new vp) ->
  (hptr head C <> head -> H' !! head = H !! head) -> head ∉ caddrs C ->
  exists v, H' !! head = Some v /\ v_l v = 0.
Proof.
  intros Hh Lh Hp Hp' O Nc. destruct C as [|[d c x s] C]; simpl in *.
  - eexists. split; [exact Hp' |]. assert (vp = vh) as -> by congruence. done.
  - exists vh. rewrite O; [done |]. intros E. apply Nc. rewrite <- E. unfold lab_addrs. set_solver.
Qed.

(** A rotation of the node in focus towards [d], and the new link from above. *)
Lemma rotate_runs H C d cx a x cy b y o n :
  rzip H C (mkT d cx a x (mkT d cy b y o)) n ->
  exists H', runs (top ← rotate n d; set_link (hptr head C) (Z.b2z (hdir C)) top) H tt H' /\
    rzip H' C (mkT d false (mkT d true a x b) y o) (lb_addr y).
Proof.
  intros [[Z1 Z2 Z3] (vh & Hh & Lh)]. apply rep_mkT in Z1 as (-> & vx & Nx & Ra & Ry).
  apply rep_mkT in Ry as (Ey & vy & Ny & Rb & Ro).
  destruct (rep_ctx_hptr _ _ _ _ Z2) as (vt & Ht & Et). assert (It := hptr_in head C).
  assert (Hx := proj1 Nx). assert (Hy := proj1 Ny).
  assert (Z3' : NoDup (head :: lab_addrs x ++ lab_addrs y ++ taddrs a ++ taddrs b ++ taddrs o ++ caddrs C)).
  { eapply NoDup_perm; [| exact Z3]. f_equiv. rewrite !taddrs_mkT. solve_Permutation. }
  nd_prepare Z3'. remember (hptr head C) as t eqn:Dt.
  assert (xy : lb_addr x <> lb_addr y) by nd.
  assert (tx : t <> lb_addr x) by nd. assert (ty : t <> lb_addr y) by nd.
  set (vx' := set_red true (set_lnk (negb d) (lnk vy d) vx)).
  set (vy' := set_red false (set_lnk d (lb_addr x) vy)).
  set (H' := <[t := set_lnk (hdir C) (lb_addr y) vt]> (<[lb_addr y := vy']> (<[lb_addr x := vx']> H))).
  assert (O : forall q, q <> t -> q <> lb_addr x -> q <> lb_addr y -> H' !! q = H !! q).
  { intros q ???. unfold H'. by rewrite !lookup_insert_ne by congruence. }
  assert (Hx' : H' !! lb_addr x = Some vx') by (unfold H'; by rewrite !lookup_insert_ne, lookup_insert_eq by done).
  assert (Hy' : H' !! lb_addr y = Some vy') by (unfold H'; by rewrite lookup_insert_ne, lookup_insert_eq by done).
  exists H'. split; [| split; [split |]].
  - eapply runs_bind.
    + apply (runs_rotate _ _ _ vx (lb_addr y) vy); [done | done | done | done | by eapply rep_ptr_in].
    + apply runs_set_link; [by rewrite !lookup_insert_ne by done | right; rewrite lookup_insert_eq; eauto].
  - apply rep_mkT. split; [done |]. exists vy'. unfold vy'. autorewrite with nview. split_and!.
    + eapply node_at_update; [exact Ny | exact Hy' | done | | |]; unfold vy';
        autorewrite with nview; try done. intros q Hq. apply O; nd.
    + apply rep_mkT. split; [done |]. exists vx'. unfold vx'. autorewrite with nview. split_and!.
      * eapply node_at_update; [exact Nx | exact Hx' | done | | |]; unfold vx';
          autorewrite with nview; try done. intros q Hq. apply O; nd.
      * eapply rep_agree; [| exact Ra]. intros q Hq. apply O; nd.
      * eapply rep_agree; [| exact Rb]. intros q Hq. apply O; nd.
    + eapply rep_agree; [| exact Ro]. intros q Hq. apply O; nd.
  - subst t. eapply rep_ctx_set; [exact Z2 | exact Ht | unfold H'; by rewrite lookup_insert_eq | |].
    + intros q Hq Hne. apply O; [done | nd | nd].
    + by apply NoDup_cons.
  - eapply NoDup_perm; [| exact Z3']. f_equiv. rewrite !taddrs_mkT. solve_Permutation.
  - subst t. eapply (head_left H H' C vt (lb_addr y) vh Hh Lh Ht).
    + unfold H'. by rewrite lookup_insert_eq.
    + intros Hne. apply O; [done | nd | nd].
    + nd.
Qed.

(** Two statements, grouped. *)
Lemma runs_group {A B D} (c : M mem A) (f : A -> M mem B) (g : B -> M mem D) H r H' :
  runs (y ← (x ← c; f x); g y) H r H' -> runs (x ← c; y ← f x; g y) H r H'.
Proof.
  intros [Dm R]. split; [done |]. intros m0 m S. destruct (R m0 m S) as (m' & E & S').
  exists m'. split; [| done]. revert E. unfold mbind, M_bind. by destruct (c m) as [[a m1]|].
Qed.

Lemma runs_ungroup {A B D} (c : M mem A) (f : A -> M mem B) (g : B -> M mem D) H r H' :
  runs (x ← c; y ← f x; g y) H r H' -> runs (y ← (x ← c; f x); g y) H r H'.
Proof.
  intros [Dm R]. split; [done |]. intros m0 m S. destruct (R m0 m S) as (m' & E & S').
  exists m'. split; [| done]. revert E. unfold mbind, M_bind. by destruct (c m) as [[a m1]|].
Qed.

(** The child of the focus on side [d], as a pointer, is red or not. *)
Lemma child_red_runs H C d c a x o n :
  rzip H C (mkT d c a x o) n -> runs (p ← get_link n (Z.b2z d); is_red p) H (red_root a) H.
Proof.
  intros Z. destruct (rzip_node _ _ _ _ _ _ _ _ Z) as (v & _ & _ & Hv & _ & _ & Ra & _).
  eapply runs_bind; [by apply runs_get_link | by apply rep_is_red].
Qed.

(** Painting the two children of the focus black, through the parent's link. *)
Lemma paint_children_runs H C c c1 l1 x1 r1 x c2 l2 x2 r2 n :
  rzip H C (T c (T c1 l1 x1 r1) x (T c2 l2 x2 r2)) n ->
  let g := hptr head C in
  let d := hdir C in
  exists H', runs (q ← get_link g (Z.b2z d); q0 ← get_link q 0; paint_black q0;;
                   q ← get_link g (Z.b2z d); q1 ← get_link q 1; paint_black q1) H tt H' /\
    rzip H' C (T c (T false l1 x1 r1) x (T false l2 x2 r2)) n.
Proof.
  intros Z g d. destruct (rzip_parent _ _ _ _ Z) as (vg & Hg & Eg).
  destruct (rzip_down _ _ false _ _ _ _ _ Z) as (v & En & Hv & _ & Z1).
  destruct (paint_runs _ _ _ _ _ _ _ false Z1) as (H1 & R1 & Z2).
  apply rzip_up in Z2. simpl in Z2. rewrite <- En in Z2.
  destruct (rzip_parent _ _ _ _ Z2) as (vg2 & Hg2 & Eg2).
  destruct (rzip_down _ _ true _ _ _ _ _ Z2) as (v2 & _ & Hv2 & _ & Z3).
  destruct (paint_runs _ _ _ _ _ _ _ false Z3) as (H2 & R2 & Z4).
  apply rzip_up in Z4. simpl in Z4. rewrite <- En in Z4. exists H2. split; [| done].
  eapply runs_bind_get; [exact Hg |]. fold d in Eg. rewrite Eg.
  eapply (runs_bind_get _ _ _ false); [exact Hv |].
  eapply runs_bind; [exact R1 |]. eapply runs_bind_get; [exact Hg2 |]. fold d in Eg2. rewrite Eg2.
  eapply (runs_bind_get _ _ _ true); [exact Hv2 |]. exact R2.
Qed.

(** ** The colour flip and the rotations at the parent *)

(** "color flip": parent black, sibling and node red. *)
Lemma flip_down_runs H C d cp p cs ls xs rs c l x r n sib :
  rzip H (Fr d cp p (T cs ls xs rs) :: C) (T c l x r) n -> sib = lb_addr xs ->
  exists H', runs (paint_black (lb_addr p);; paint_red sib;; paint_red n) H tt H' /\
    rzip H' (Fr d false p (T true ls xs rs) :: C) (T true l x r) n.
Proof.
  intros Z ->. assert (En : n = lb_addr x) by (destruct (zip_rep _ _ _ _ _ (rz_zip _ _ _ _ Z)); done).
  apply rzip_up in Z.
  assert (exists H1, runs (paint_black (lb_addr p)) H tt H1 /\
            rzip H1 C (mkT d false (T c l x r) p (T cs ls xs rs)) (lb_addr p)) as (H1 & R1 & Z1).
  { destruct d; [apply (paint_runs _ _ _ _ _ _ _ false Z) | apply (paint_runs _ _ _ _ _ _ _ false Z)]. }
  rewrite <- mkT_negb in Z1. destruct (rzip_down _ _ _ _ _ _ _ _ Z1) as (v1 & _ & _ & _ & Z2).
  destruct (paint_runs _ _ _ _ _ _ _ true Z2) as (H2 & R2 & Z3).
  assert (Es : lnk v1 (negb d) = lb_addr xs) by (destruct (zip_rep _ _ _ _ _ (rz_zip _ _ _ _ Z2)); done).
  apply rzip_up in Z3. rewrite mkT_negb in Z3. destruct (rzip_down _ _ _ _ _ _ _ _ Z3) as (v2 & _ & _ & _ & Z4).
  assert (En2 : lnk v2 d = lb_addr x) by (destruct (zip_rep _ _ _ _ _ (rz_zip _ _ _ _ Z4)); done).
  destruct (paint_runs _ _ _ _ _ _ _ true Z4) as (H3 & R3 & Z5).
  rewrite En2 in *. rewrite Es in *. subst n. exists H3. split; [| done].
  eapply runs_bind; [exact R1 |]. eapply runs_bind; [exact R2 | exact R3].
Qed.

(** "ensure correct coloring", after a rotation that put [y] above [p]. *)
Lemma recolor_runs H C d c l x r p i y co lo xo ro q n :
  rzip H C (mkT d false (mkT d true (T c l x r) p i) y (T co lo xo ro)) q -> n = lb_addr x ->
  let g := hptr head C in
  let e := hdir C in
  exists H', runs (paint_red n;;
                   c ← get_link g (Z.b2z e); paint_red c;;
                   c ← get_link g (Z.b2z e); c0 ← get_link c 0; paint_black c0;;
                   c ← get_link g (Z.b2z e); c1 ← get_link c 1; paint_black c1) H tt H' /\
    rzip H' C (mkT d true (mkT d false (T true l x r) p i) y (T false lo xo ro)) q.
Proof.
  intros Z -> g e.
  destruct (rzip_down _ _ _ _ _ _ _ _ Z) as (v1 & Eq & _ & _ & Z1).
  destruct (rzip_down _ _ _ _ _ _ _ _ Z1) as (v2 & Ep & _ & _ & Z2).
  assert (En : lnk v2 d = lb_addr x) by (destruct (zip_rep _ _ _ _ _ (rz_zip _ _ _ _ Z2)); done).
  destruct (paint_runs _ _ _ _ _ _ _ true Z2) as (H1 & R1 & Z3). rewrite En in R1.
  apply rzip_up, rzip_up in Z3. rewrite <- Eq in Z3.
  destruct (rzip_parent _ _ _ _ Z3) as (vg & Hg & Eg).
  assert (exists H2, runs (paint_red q) H1 tt H2 /\
            rzip H2 C (mkT d true (mkT d true (T true l x r) p i) y (T co lo xo ro)) q) as (H2 & R2 & Z4).
  { destruct d; apply (paint_runs _ _ _ _ _ _ _ true Z3). }
  assert (exists H3, runs (q ← get_link g (Z.b2z e); q0 ← get_link q 0; paint_black q0;;
                   q ← get_link g (Z.b2z e); q1 ← get_link q 1; paint_black q1) H2 tt H3 /\
            rzip H3 C (mkT d true (mkT d false (T true l x r) p i) y (T false lo xo ro)) q) as (H3 & R3 & Z5).
  { destruct d; exact (paint_children_runs _ _ _ _ _ _ _ _ _ _ _ _ _ Z4). }
  exists H3. split; [| done].
  eapply runs_bind; [exact R1 |]. eapply runs_bind_get; [exact Hg |]. fold e in Eg. rewrite Eg.
  eapply runs_bind; [exact R2 |]. exact R3.
Qed.

(** The sibling's outer child is red: one rotation. *)
Lemma push_single_runs H C d cp p cs i y co lo xo ro c l x r n :
  rzip H (Fr d cp p (mkT d cs i y (T co lo xo ro)) :: C) (T c l x r) n ->
  let g := hptr head C in
  let e := hdir C in
  exists H', runs ((top ← rotate (lb_addr p) d; set_link g (Z.b2z e) top);;
                   paint_red n;;
                   c ← get_link g (Z.b2z e); paint_red c;;
                   c ← get_link g (Z.b2z e); c0 ← get_link c 0; paint_black c0;;
                   c ← get_link g (Z.b2z e); c1 ← get_link c 1; paint_black c1) H tt H' /\
    rzip H' (Fr d false p i :: Fr d true y (T false lo xo ro) :: C) (T true l x r) n /\
    (exists vg, H' !! g = Some vg /\ lnk vg e = lb_addr y).
Proof.
  intros Z g e. assert (En : n = lb_addr x) by (destruct (zip_rep _ _ _ _ _ (rz_zip _ _ _ _ Z)); done).
  apply rzip_up in Z. destruct (rotate_runs _ _ _ _ _ _ _ _ _ _ _ Z) as (H1 & R1 & Z1).
  destruct (recolor_runs _ _ _ _ _ _ _ _ _ _ _ _ _ _ _ n Z1 En) as (H2 & R2 & Z2).
  exists H2. split; [eapply runs_bind; [exact R1 | exact R2] |].
  assert (Pg := rzip_parent _ _ _ _ Z2).
  destruct (rzip_down _ _ _ _ _ _ _ _ Z2) as (v1 & _ & _ & _ & Z3).
  destruct (rzip_down _ _ _ _ _ _ _ _ Z3) as (v2 & _ & _ & _ & Z4).
  assert (En2 : lnk v2 d = lb_addr x) by (destruct (zip_rep _ _ _ _ _ (rz_zip _ _ _ _ Z4)); done).
  split; [rewrite En, <- En2; exact Z4 | exact Pg].
Qed.

(** Only the inner child is red: two rotations. *)
Lemma push_double_runs H C d cp p cs ci a z b y o c l x r n :
  rzip H (Fr d cp p (mkT d cs (mkT d ci a z b) y o) :: C) (T c l x r) n ->
  let g := hptr head C in
  let e := hdir C in
  exists H', runs ((q ← get_link (lb_addr p) (Z.b2z (negb d));
                    sub ← rotate q (negb d);
                    set_link (lb_addr p) (Z.b2z (negb d)) sub;;
                    top ← rotate (lb_addr p) d;
                    set_link g (Z.b2z e) top);;
                   paint_red n;;
                   c ← get_link g (Z.b2z e); paint_red c;;
                   c ← get_link g (Z.b2z e); c0 ← get_link c 0; paint_black c0;;
                   c ← get_link g (Z.b2z e); c1 ← get_link c 1; paint_black c1) H tt H' /\
    rzip H' (Fr d false p a :: Fr d true z (mkT d false b y o) :: C) (T true l x r) n /\
    (exists vg, H' !! g = Some vg /\ lnk vg e = lb_addr z).
Proof.
  intros Z g e. assert (En : n = lb_addr x) by (destruct (zip_rep _ _ _ _ _ (rz_zip _ _ _ _ Z)); done).
  apply rzip_up in Z. rewrite <- mkT_negb in Z.
  destruct (rzip_down _ _ _ _ _ _ _ _ Z) as (v0 & _ & Hv0 & _ & Z0).
  assert (Ey : lnk v0 (negb d) = lb_addr y).
  { pose proof (zip_rep _ _ _ _ _ (rz_zip _ _ _ _ Z0)) as R0. apply rep_mkT in R0. by destruct R0. }
  rewrite <- mkT_negb in Z0. rewrite <- (mkT_negb d ci) in Z0.
  destruct (rotate_runs _ _ _ _ _ _ _ _ _ _ _ Z0) as (H1 & R1 & Z1).
  apply rzip_up in Z1. rewrite !mkT_negb in Z1.
  destruct (rotate_runs _ _ _ _ _ _ _ _ _ _ _ Z1) as (H2 & R2 & Z2).
  assert (Z2' : rzip H2 C (mkT d false (mkT d true (T c l x r) p a) z
      (T true (child false (mkT d true b y o)) y (child true (mkT d true b y o)))) (lb_addr z)).
  { by destruct d. }
  destruct (recolor_runs _ _ _ _ _ _ _ _ _ _ _ _ _ _ _ n Z2' En) as (H3 & R3 & Z3).
  replace (T false (child false (mkT d true b y o)) y (child true (mkT d true b y o)))
    with (mkT d false b y o) in Z3 by (by destruct d).
  exists H3. split.
  - eapply runs_bind; [| exact R3]. eapply runs_bind_get; [exact Hv0 |].
    apply runs_group. eapply runs_bind; [exact R1 | exact R2].
  - assert (Pg := rzip_parent _ _ _ _ Z3).
    destruct (rzip_down _ _ _ _ _ _ _ _ Z3) as (v1 & _ & _ & _ & Z4).
    destruct (rzip_down _ _ _ _ _ _ _ _ Z4) as (v2 & _ & _ & _ & Z5).
    assert (En2 : lnk v2 d = lb_addr x) by (destruct (zip_rep _ _ _ _ _ (rz_zip _ _ _ _ Z5)); done).
    split; [rewrite En, <- En2; exact Z5 | exact Pg].
Qed.
End moves.

(** The same statements, grouped differently. *)
Lemma runs_ext {A} (c1 c2 : M mem A) H r H' : (forall m, c1 m = c2 m) -> runs c1 H r H' -> runs c2 H r H'.
Proof. intros E [D R]. split; [done |]. intros m0 m S. rewrite <- E. by apply R. Qed.

Ltac regroup :=
  intros ?; unfold mbind, M_bind;
  repeat (match goal with
          | |- context [match ?e with Ok _ => _ | Err _ => _ end] =>
              lazymatch e with context [match _ with Ok _ => _ | Err _ => _ end] => fail | _ => idtac end;
              destruct e as [[? ?]|]
          end; try reflexivity).

(** ** The search *)

(** Below a match in the order of keys no node compares greater: the search
    for a match never turns left behind one. *)
Class Searchable {Args : Type} (cmpf : Z -> Z -> Z -> Args -> Z) (k : Z) (args : Args) : Prop :=
  searchable : forall n1 d1 n2 d2, cmpf n2 d2 k args = 0 -> d1 < d2 -> cmpf n1 d1 k args <= 0.

Section search.
Context {Args : Type} (compare : Z -> Z -> Args -> M mem Z) (cmpf : Z -> Z -> Z -> Args -> Z).
Context `{!Comparator compare cmpf}.
Context (args : Args) (k : Z) `{!Searchable cmpf k args}.
Context (head : Z).
Implicit Types (H : nheap) (C : list frame) (s : tree).

Definition ltx (x : lab) : bool := cmpf (lb_addr x) (lb_key x) k args <? 0.
Definition eqx (x : lab) : bool := cmpf (lb_addr x) (lb_key x) k args =? 0.

(** [f] and [fp]: the last left turn of the path, if it matches. *)
Fixpoint found C : Z * Z :=
  match C with
  | [] => (0, 0)
  | Fr false _ x _ :: C' => if eqx x then (lb_addr x, hptr head C') else (0, 0)
  | Fr true _ _ _ :: C' => found C'
  end.

Definition pptr C : Z := match C with [] => 0 | _ :: C' => hptr head C' end.

(** The variables of the loop when the path is [C]. *)
Definition rstate C (g : Z) : Z * Z * Z * Z * Z * bool :=
  (g, pptr C, hptr head C, (found C).1, (found C).2, hdir C).

(** The search turned right at the label before the hole and left at the one
    behind it. *)
Definition path_ok C : Prop :=
  (forall x, last (pre C) = Some x -> ltx x = true) /\ (forall x, hd_error (post C) = Some x -> ltx x = false).

(** A red node is on its way down. *)
Definition pushed C s : Prop :=
  C = [] \/ topc C = true \/ red_root s = true \/
  exists d x o, C = [Fr d false x o] /\ red_root o = false /\ red_root s = false.

Record rinv (L : list lab) H C s (n : Z) (h : nat) : Prop := {
  ri_zip : rzip head H C s n;
  ri_ctx : rbctx C h;
  ri_rb : rb s (topc C) h;
  ri_push : pushed C s;
  ri_in : inorder (plug C s) = L;
  ri_path : path_ok C
}.

(** ** Facts about the path *)

Lemma found_post C :
  found C = (0, 0) \/ exists x, hd_error (post C) = Some x /\ eqx x = true /\ (found C).1 = lb_addr x.
Proof.
  induction C as [|[[] c x o] C IH]; simpl; [by left | done |].
  destruct (eqx x) eqn:E; [right; eauto | by left].
Qed.

Lemma found_in C : (found C).1 = 0 \/ (found C).1 ∈ caddrs C.
Proof.
  induction C as [|[[] c x o] C IH]; simpl; [by left | |].
  - destruct IH as [-> | IH]; [by left |]. right. set_solver.
  - destruct (eqx x); simpl; [| by left]. right. unfold lab_addrs. set_solver.
Qed.

Lemma ltx_eqx x : ltx x = true -> eqx x = false.
Proof. unfold ltx, eqx. intros Hl. apply Z.eqb_neq. apply Z.ltb_lt in Hl. lia. Qed.

(** One more node on the path. *)
Lemma found_next L C c l x r :
  sorted L -> inorder (plug C (T c l x r)) = L -> forall c' o,
  (if eqx x then (lb_addr x, hptr head C) else found C) = found (Fr (ltx x) c' x o :: C).
Proof.
  intros Hs HL c' o. simpl. destruct (ltx x) eqn:Lx; [by rewrite (ltx_eqx _ Lx) |].
  destruct (eqx x) eqn:Ex; [done |]. destruct (found_post C) as [-> | (y & Hy & Ey & _)]; [done |].
  exfalso. rewrite inorder_plug in HL. rewrite <- HL in Hs. simpl in Hs. rewrite <- app_assoc in Hs.
  destruct (post C) as [|y' post']; [done |]. injection Hy as ->.
  rewrite !sorted_app in Hs. destruct Hs as (_ & (_ & Hx & _) & _).
  destruct Hx as (_ & _ & Hx). apply Forall_cons in Hx as [Hx _]. apply Forall_cons in Hx as [Hlt _]. unfold eqx in Ey, Ex. unfold ltx in Lx.
  apply Z.eqb_eq in Ey. apply Z.eqb_neq in Ex. apply Z.ltb_ge in Lx.
  pose proof (searchable (lb_addr x) (lb_key x) (lb_addr y) (lb_key y) Ey Hlt). lia.
Qed.

Lemma path_next C c x o : path_ok C -> path_ok (Fr (ltx x) c x o :: C).
Proof.
  intros [P1 P2]. unfold path_ok. simpl. destruct (ltx x) eqn:E; simpl.
  - split; [| done]. rewrite app_assoc, last_snoc. by intros y [= <-].
  - rewrite app_nil_r. split; [done |]. by intros y [= <-].
Qed.

Lemma path_same C C' : pre C' = pre C -> post C' = post C -> path_ok C -> path_ok C'.
Proof. unfold path_ok. by intros -> ->. Qed.

Lemma plug_same C C' s : pre C' = pre C -> post C' = post C -> inorder (plug C' s) = inorder (plug C s).
Proof. intros E1 E2. by rewrite !inorder_plug, E1, E2. Qed.

Lemma inorder_mkT d c a x o :
  inorder (mkT d c a x o) = if d then inorder o ++ x :: inorder a else inorder a ++ x :: inorder o.
Proof. by destruct d. Qed.


(** What one iteration leaves. *)
Definition stepped (L : list lab) s (c : M mem (Z * Z * Z * Z * Z * bool)) H : Prop :=
  exists g' H' C' s' n' h', runs c H (rstate C' g') H' /\ rinv L H' C' s' n' h' /\ C' <> [] /\
    (depth s' < depth s)%nat.

(** ** The cases of an iteration, after the comparison

    [s] is the tree at the node [n], [d] the side the search turns to. *)

(** The node, or the child the search turns to, is red: nothing to do. *)
Lemma step_pass L H C d c a x o n h :
  rinv L H C (mkT d c a x o) n h -> d = ltx x -> c || red_root a || bool_decide (C = []) && negb (red_root o) = true ->
  rinv L H (Fr d c x o :: C) a (match H !! n with Some v => lnk v d | None => 0 end)
    (if c then h else pred h).
Proof.
  intros [Z Ctx Rb Pu In Pa] Hd Hc. destruct (rzip_down _ _ _ _ _ _ _ _ _ Z) as (v & _ & Hv & _ & Z1).
  rewrite Hv. apply rb_mkT in Rb. split; [done | | | | | subst d; by apply path_next].
  - destruct c; simpl in *; [tauto |]. destruct h as [|h]; [done |]. simpl. tauto.
  - destruct c; simpl in *; [tauto |]. destruct h as [|h]; [done |]. simpl. tauto.
  - unfold pushed. simpl. destruct c; simpl in *; [auto |].
    destruct (red_root a) eqn:Ra; [auto |]. simpl in Hc. apply andb_true_iff in Hc as [Hc Ho].
    apply bool_decide_eq_true in Hc as ->. right. right. right. exists d, x, o.
    split_and!; [done | by apply negb_true_iff | done].
  - exact In.
Qed.

(** The other child is red: it has been rotated above the node. *)
Lemma step_rotate L H H' C d a x b y w n h :
  rinv L H C (mkT d false a x (mkT d true b y w)) n h -> d = ltx x -> red_root a = false ->
  rzip head H' C (mkT d false (mkT d true a x b) y w) (lb_addr y) ->
  exists n', rinv L H' (Fr d true x b :: Fr d false y w :: C) a n' (pred h).
Proof.
  intros [Z Ctx Rb Pu In Pa] Hd Ra Z1.
  destruct (rzip_down _ _ _ _ _ _ _ _ _ Z1) as (v1 & _ & _ & _ & Z2).
  destruct (rzip_down _ _ _ _ _ _ _ _ _ Z2) as (v2 & _ & _ & _ & Z3). exists (lnk v2 d).
  apply rb_mkT in Rb. simpl in Rb. destruct h as [|h]; [done |]. simpl. rewrite rb_mkT in Rb. simpl in Rb.
  assert (E1 : pre (Fr d true x b :: Fr d false y w :: C) = pre (Fr d false x (mkT d true b y w) :: C))
    by (destruct d; simpl; repeat (rewrite <- app_assoc; simpl); rewrite ?app_nil_r; done).
  assert (E2 : post (Fr d true x b :: Fr d false y w :: C) = post (Fr d false x (mkT d true b y w) :: C))
    by (destruct d; simpl; repeat (rewrite <- app_assoc; simpl); done).
  split; [done | | | by right; left | |].
  - simpl. split_and!; try tauto. eapply rb_weaken. apply Rb.
  - simpl. eapply rb_not_red; [apply Rb | done].
  - rewrite (plug_same _ _ _ E1 E2). exact In.
  - apply (path_same _ _ E1 E2). subst d. by apply path_next.
Qed.

(** A black node without red children, below the root: its parent is red, or
    is the root, and it has a black sibling. *)
Lemma push_parent L H C last cp p sib c d a x o n h :
  rinv L H (Fr last cp p sib :: C) (mkT d c a x o) n h -> c = false -> red_root a = false -> red_root o = false ->
  exists h', h = S h' /\ rbctx C (S h') /\ topc C = false /\ rb sib true (S h') /\ rb a true h' /\ rb o true h'.
Proof.
  intros [Z Ctx Rb Pu In Pa] -> Ra Ro. apply rb_mkT in Rb. simpl in Rb. destruct h as [|h]; [done |].
  exists h. destruct Rb as [Ba Bo]. split; [done |].
  assert (rb a true h /\ rb o true h) as [? ?] by (split; by eapply rb_not_red).
  destruct Pu as [? | [Tc | [Rs | (d0 & x0 & o0 & E & Ro0 & _)]]]; [done | | |].
  - simpl in Tc. subst cp. simpl in Ctx. destruct Ctx as (? & ? & ?). split_and!; done.
  - by rewrite red_root_mkT in Rs.
  - injection E as <- -> <- <- ->. simpl in Ctx. destruct Ctx as [Cs _].
    split_and!; try done. by eapply rb_not_red.
Qed.

(** After the colour flip. *)
Lemma step_flip_down L H H' C last cp p ls xs rs d a x o n h :
  rinv L H (Fr last cp p (T false ls xs rs) :: C) (mkT d false a x o) n h -> d = ltx x ->
  red_root a = false -> red_root o = false -> red_root ls = false -> red_root rs = false ->
  rzip head H' (Fr last false p (T true ls xs rs) :: C) (mkT d true a x o) n ->
  exists n', rinv L H' (Fr d true x o :: Fr last false p (T true ls xs rs) :: C) a n' (pred h).
Proof.
  intros I Hd Ra Ro Rls Rrs Z1.
  destruct (push_parent _ _ _ _ _ _ _ _ _ _ _ _ _ _ I eq_refl Ra Ro) as (h' & -> & Cc & Tc & Rs & Ba & Bo).
  destruct (rzip_down _ _ _ _ _ _ _ _ _ Z1) as (v1 & _ & _ & _ & Z2). exists (lnk v1 d). simpl.
  simpl in Rs. destruct Rs as [Bl Br]. split; [done | | done | by right; left | |].
  - simpl. split_and!; try done; by eapply rb_not_red.
  - rewrite <- (ri_in _ _ _ _ _ _ I). rewrite !inorder_plug. destruct last, d; simpl; repeat (rewrite <- app_assoc; simpl); rewrite ?app_nil_r; done.
  - subst d. apply path_next. apply (path_same (Fr last cp p (T false ls xs rs) :: C)); [done | done | apply I].
Qed.

(** After a rotation that put [y] above the parent: [i] is what the parent got
    from the sibling, [w] the other child of [y]. *)
Lemma step_push L H H' C last cp p sib y i w d a x o n h :
  rinv L H (Fr last cp p sib :: C) (mkT d false a x o) n h -> d = ltx x ->
  red_root a = false -> red_root o = false ->
  inorder sib = (if last then inorder w ++ y :: inorder i else inorder i ++ y :: inorder w) ->
  (forall h', h = S h' -> rb sib true (S h') -> rb i false h' /\ rb w true (S h')) ->
  rzip head H' (Fr last false p i :: Fr last true y w :: C) (mkT d true a x o) n ->
  exists n', rinv L H' (Fr d true x o :: Fr last false p i :: Fr last true y w :: C) a n' (pred h).
Proof.
  intros I Hd Ra Ro Hin Hrb Z1.
  destruct (push_parent _ _ _ _ _ _ _ _ _ _ _ _ _ _ I eq_refl Ra Ro) as (h' & -> & Cc & Tc & Rs & Ba & Bo).
  destruct (Hrb h' eq_refl Rs) as [Bi Bw].
  destruct (rzip_down _ _ _ _ _ _ _ _ _ Z1) as (v1 & _ & _ & _ & Z2). exists (lnk v1 d). simpl.
  assert (E1 : pre (Fr last false p i :: Fr last true y w :: C) = pre (Fr last cp p sib :: C)).
  { simpl. destruct last; [rewrite Hin |]; simpl; repeat (rewrite <- app_assoc; simpl); rewrite ?app_nil_r; done. }
  assert (E2 : post (Fr last false p i :: Fr last true y w :: C) = post (Fr last cp p sib :: C)).
  { simpl. destruct last; [| rewrite Hin]; simpl; repeat (rewrite <- app_assoc; simpl); done. }
  split; [done | | done | by right; left | |].
  - simpl. split_and!; done.
  - transitivity (inorder (plug (Fr last cp p sib :: C) (mkT d true a x o))).
    + rewrite <- (plug_same _ _ _ E1 E2). destruct d; done.
    + rewrite <- (ri_in _ _ _ _ _ _ I), !inorder_plug. by destruct d.
  - subst d. apply path_next. apply (path_same _ _ E1 E2), I.
Qed.

(** ** [f] and [fp] through the rotations *)

Lemma found_rotate C d x b y w c0 o0 :
  d = ltx x -> lb_addr x <> 0 -> lb_addr x ∉ caddrs C ->
  let nf := found (Fr d c0 x o0 :: C) in
  found (Fr d true x b :: Fr d false y w :: C) = (nf.1, if nf.1 =? lb_addr x then lb_addr y else nf.2).
Proof.
  intros Hd H0 Hx nf. unfold nf. simpl. destruct d.
  - destruct (found_in C) as [E|Hin].
    + rewrite E, (proj2 (Z.eqb_neq 0 _) (not_eq_sym H0)).
      destruct (found C). simpl in *. by subst.
    + replace ((found C).1 =? lb_addr x) with false; [by destruct (found C) |].
      symmetry. apply Z.eqb_neq. intros E. by rewrite E in Hin.
  - destruct (eqx x); cbn [fst snd]; [by rewrite Z.eqb_refl |].
    by rewrite (proj2 (Z.eqb_neq 0 _) (not_eq_sym H0)).
Qed.

Lemma found_push C d x o c0 last p i y w cp sib :
  lb_addr p <> 0 -> lb_addr x <> lb_addr p -> lb_addr p ∉ caddrs C ->
  let nf := found (Fr d c0 x o :: Fr last cp p sib :: C) in
  found (Fr d true x o :: Fr last false p i :: Fr last true y w :: C) =
    (nf.1, if nf.1 =? lb_addr p then lb_addr y else nf.2).
Proof.
  intros H0 Hxp Hp nf. unfold nf. simpl.
  assert (N0 : (0 =? lb_addr p) = false) by (apply Z.eqb_neq; congruence). destruct d.
  - destruct last.
    + destruct (found_in C) as [E|Hin]; [rewrite E, N0; destruct (found C); simpl in *; by subst |].
      replace ((found C).1 =? lb_addr p) with false; [by destruct (found C) |].
      symmetry. apply Z.eqb_neq. intros E. by rewrite E in Hin.
    + destruct (eqx p); cbn [fst snd]; [by rewrite Z.eqb_refl | by rewrite N0].
  - destruct (eqx x); cbn [fst snd]; [| by rewrite N0]. by rewrite (proj2 (Z.eqb_neq _ _) Hxp).
Qed.

(** ** One iteration *)

(** The iteration up to the choice of what to do. *)
Lemma step_prefix L H C d c a x o n h g r H' :
  sorted L -> rinv L H C (mkT d c a x o) n h -> d = ltx x ->
  let last := hdir C in
  let p := hptr head C in
  let nf := found (Fr d c x o :: C) in
  runs (if negb c && negb (red_root a) then
    no ← get_link n (Z.b2z (negb d));
    nor ← is_red no;
    if nor : bool then
      top ← rotate n d;
      set_link p (Z.b2z last) top;;
      p ← get_link p (Z.b2z last);
      mret (pptr C, p, n, nf.1, (if nf.1 =? n then p else nf.2), d)
    else
      s ← get_link p (Z.b2z (negb last));
      if s =? 0 then mret (pptr C, p, n, nf.1, nf.2, d)
      else
        flip ← andM (notM (c ← get_link s 0; is_red c)) (notM (c ← get_link s 1; is_red c));
        if flip : bool then
          paint_black p;;
          paint_red s;;
          paint_red n;;
          mret (pptr C, p, n, nf.1, nf.2, d)
        else
          g1 ← get_link (pptr C) 1;
          let dir2 := g1 =? p in
          so ← get_link s (Z.b2z (negb last)); sor ← is_red so;
          (if sor : bool then
             top ← rotate p last;
             set_link (pptr C) (Z.b2z dir2) top
           else
             si ← get_link s (Z.b2z last); sir ← is_red si;
             when sir
               (c ← get_link p (Z.b2z (negb last));
                sub ← rotate c (negb last);
                set_link p (Z.b2z (negb last)) sub;;
                top ← rotate p last;
                set_link (pptr C) (Z.b2z dir2) top));;
          paint_red n;;
          c ← get_link (pptr C) (Z.b2z dir2); paint_red c;;
          c ← get_link (pptr C) (Z.b2z dir2); c0 ← get_link c 0; paint_black c0;;
          c ← get_link (pptr C) (Z.b2z dir2); c1 ← get_link c 1; paint_black c1;;
          (if nf.1 =? p then
             c ← get_link (pptr C) (Z.b2z dir2); mret (pptr C, p, n, nf.1, c, d)
           else mret (pptr C, p, n, nf.1, nf.2, d))
  else mret (pptr C, p, n, nf.1, nf.2, d)) H r H' ->
  runs (remove_step compare k args (rstate C g)) H r H'.
Proof.
  intros Hs I Hd last p nf R. unfold remove_step, rstate. fold p last.
  destruct (rzip_parent _ _ _ _ _ (ri_zip _ _ _ _ _ _ I)) as (vp & Hp & Ep).
  destruct (rzip_node _ _ _ _ _ _ _ _ _ (ri_zip _ _ _ _ _ _ I)) as (v & En & N0 & Hv & Rv & Dv & Ra & Ro).
  eapply runs_bind_get; [exact Hp |]. fold last in Ep. rewrite Ep.
  eapply runs_bind; [by apply comparator_runs |]. rewrite Dv, En. fold (ltx x). rewrite <- Hd.
  rewrite En in *. fold (eqx x).
  assert (Fn : (if eqx x then (lb_addr x, p) else found C) = nf).
  { subst d. apply (found_next L C c (child false (mkT (ltx x) c a x o)) x (child true (mkT (ltx x) c a x o)));
      [done |]. rewrite <- (ri_in _ _ _ _ _ _ I). by destruct (ltx x). }
  replace (if eqx x then (lb_addr x, p) else ((found C).1, (found C).2)) with nf by (rewrite <- Fn; by destruct (found C)).
  destruct nf as [f fp] eqn:Enf. eapply (runs_bind _ _ _ (negb c && negb (red_root a))).
  { rewrite <- Rv. eapply runs_andM; [apply runs_notM; by apply runs_is_red | | by intros E; rewrite E].
    intros E. rewrite E. apply runs_notM. eapply runs_bind; [by apply runs_get_link | by apply rep_is_red]. }
  exact R.
Qed.

(** The addresses on the path differ. *)
Lemma rzip_distinct H d c a x o last cp p sib C n :
  rzip head H (Fr last cp p sib :: C) (mkT d c a x o) n ->
  lb_addr x <> lb_addr p /\ (lb_addr p ∉ caddrs C) /\ lb_addr p <> 0.
Proof.
  intros [[Z1 Z2 Z3] _]. destruct Z2 as (v & (_ & P0 & _) & _).
  assert (ND : NoDup (head :: lab_addrs x ++ taddrs a ++ taddrs o ++ lab_addrs p ++ taddrs sib ++ caddrs C)).
  { eapply NoDup_perm; [| exact Z3]. f_equiv. rewrite taddrs_mkT. simpl. solve_Permutation. }
  nd_prepare ND. split_and!; [nd | nd | done].
Qed.

Lemma rzip_fresh H d c a x o C n :
  rzip head H C (mkT d c a x o) n -> lb_addr x <> 0 /\ lb_addr x ∉ caddrs C.
Proof.
  intros [[Z1 Z2 Z3] _]. apply rep_mkT in Z1 as (_ & v & (_ & X0 & _) & _).
  assert (ND : NoDup (head :: lab_addrs x ++ taddrs a ++ taddrs o ++ caddrs C)).
  { eapply NoDup_perm; [| exact Z3]. f_equiv. rewrite taddrs_mkT. solve_Permutation. }
  nd_prepare ND. split; [done | nd].
Qed.

(** The other child is red. *)
Lemma run_rotate L H C d a x b y w n h g :
  sorted L -> rinv L H C (mkT d false a x (mkT d true b y w)) n h -> d = ltx x -> red_root a = false ->
  exists H' n', runs (remove_step compare k args (rstate C g)) H
      (rstate (Fr d true x b :: Fr d false y w :: C) (pptr C)) H' /\
    rinv L H' (Fr d true x b :: Fr d false y w :: C) a n' (pred h).
Proof.
  intros Hs I Hd Ra. assert (Z := ri_zip _ _ _ _ _ _ I).
  destruct (rotate_runs _ _ _ _ _ _ _ _ _ _ _ _ Z) as (H' & R1 & Z1).
  destruct (step_rotate _ _ _ _ _ _ _ _ _ _ _ _ I Hd Ra Z1) as (n' & I').
  exists H', n'. split; [| done]. eapply step_prefix; [exact Hs | exact I | exact Hd |].
  rewrite Ra. cbn [negb andb]. destruct (rzip_node _ _ _ _ _ _ _ _ _ Z) as (v & En & N0 & Hv & Rv & Dv & Rpa & Rpo).
  eapply runs_bind_get; [exact Hv |]. eapply runs_bind; [by apply rep_is_red |]. rewrite red_root_mkT.
  apply runs_group. eapply runs_bind; [exact R1 |].
  destruct (rzip_parent _ _ _ _ _ Z1) as (vp & Hp & Ep). eapply runs_bind_get; [exact Hp |]. rewrite Ep.
  destruct (rzip_fresh _ _ _ _ _ _ _ _ Z) as [X0 Xc].
  unfold rstate. rewrite (found_rotate C d x b y w false (mkT d true b y w) Hd X0 Xc). rewrite En. apply runs_ret.
Qed.

(** No red node around: push one down from the parent. First, how the code
    finds out what the sibling is. *)
Lemma push_prefix L H C last cp p ls xs rs d a x o n h g r H' :
  sorted L -> rinv L H (Fr last cp p (T false ls xs rs) :: C) (mkT d false a x o) n h -> d = ltx x ->
  red_root a = false -> red_root o = false ->
  let nf := found (Fr d false x o :: Fr last cp p (T false ls xs rs) :: C) in
  let g1 := hptr head C in
  runs (if negb (red_root ls) && negb (red_root rs) then
          (paint_black (lb_addr p);; paint_red (lb_addr xs);; paint_red n);;
          mret (g1, lb_addr p, n, nf.1, nf.2, d)
        else
          ((if red_root (if last then ls else rs) then
             top ← rotate (lb_addr p) last;
             set_link g1 (Z.b2z (hdir C)) top
           else when (red_root (if last then rs else ls))
             (c ← get_link (lb_addr p) (Z.b2z (negb last));
              sub ← rotate c (negb last);
              set_link (lb_addr p) (Z.b2z (negb last)) sub;;
              top ← rotate (lb_addr p) last;
              set_link g1 (Z.b2z (hdir C)) top));;
           paint_red n;;
           c ← get_link g1 (Z.b2z (hdir C)); paint_red c;;
           c ← get_link g1 (Z.b2z (hdir C)); c0 ← get_link c 0; paint_black c0;;
           c ← get_link g1 (Z.b2z (hdir C)); c1 ← get_link c 1; paint_black c1);;
          (if nf.1 =? lb_addr p then
             c ← get_link g1 (Z.b2z (hdir C)); mret (g1, lb_addr p, n, nf.1, c, d)
           else mret (g1, lb_addr p, n, nf.1, nf.2, d))) H r H' ->
  runs (remove_step compare k args (rstate (Fr last cp p (T false ls xs rs) :: C) g)) H r H'.
Proof.
  intros Hs I Hd Ra Ro nf g1 R. assert (Z := ri_zip _ _ _ _ _ _ I).
  destruct (rzip_node _ _ _ _ _ _ _ _ _ Z) as (v & En & N0 & Hv & Rv & Dv & Rpa & Rpo).
  assert (Zs := Z). apply rzip_up in Zs. rewrite <- mkT_negb in Zs.
  destruct (rzip_down _ _ _ _ _ _ _ _ _ Zs) as (vp & _ & Hp & _ & Zsib).
  assert (Es : lnk vp (negb last) = lb_addr xs) by (destruct (zip_rep _ _ _ _ _ (rz_zip _ _ _ _ _ Zsib)); done).
  destruct (rzip_node _ _ _ false _ _ _ _ _ Zsib) as (vs & _ & S0 & Hvs & _ & _ & Rls & Rrs). rewrite Es in *.
  destruct (rzip_parent _ _ _ _ _ Zs) as (vg & Hg & Eg).
  assert (Side : (v_r vg =? lb_addr p) = hdir C).
  { eapply rzip_side; [exact Zs | by destruct last | done]. }
  eapply step_prefix; [exact Hs | exact I | exact Hd |].
  rewrite Ra. cbn [negb andb]. eapply runs_bind_get; [exact Hv |]. eapply runs_bind; [by apply rep_is_red |]. rewrite Ro.
  cbn [hptr hdir pptr]. eapply runs_bind_get; [exact Hp |]. rewrite Es.
  rewrite (proj2 (Z.eqb_neq _ _) S0). fold nf. fold g1.
  eapply (runs_bind _ _ _ (negb (red_root ls) && negb (red_root rs))).
  { eapply runs_andM; [apply runs_notM; eapply runs_bind; [exact (runs_get_link _ _ _ false Hvs) | by apply rep_is_red] | | by intros ->].
    intros E. rewrite E. apply runs_notM. eapply runs_bind; [exact (runs_get_link _ _ _ true Hvs) | by apply rep_is_red]. }
  destruct (negb (red_root ls) && negb (red_root rs)).
  { eapply runs_ext; [| exact R]. regroup. }
  apply (runs_bind_get _ _ _ true _ _ _ Hg). simpl lnk. rewrite Side.
  assert (Rl : rep H (lnk vs last) (if last then rs else ls)) by (by destruct last).
  assert (Rr : rep H (lnk vs (negb last)) (if last then ls else rs)) by (by destruct last).
  eapply runs_bind_get; [exact Hvs |]. eapply runs_bind; [by apply rep_is_red |].
  destruct (red_root (if last then ls else rs)).
  { eapply runs_ext; [| exact R]. regroup. }
  apply runs_ungroup. eapply runs_bind_get; [exact Hvs |].
  apply runs_ungroup. eapply runs_bind; [by apply rep_is_red |].
  eapply runs_ext; [| exact R]. intros m. unfold mbind, M_bind.
  destruct (when _ _ m) as [[[] m1]|]; [| done]. revert m1. regroup.
Qed.

Lemma run_push L H C last cp p sib d a x o n h g :
  sorted L -> rinv L H (Fr last cp p sib :: C) (mkT d false a x o) n h -> d = ltx x ->
  red_root a = false -> red_root o = false ->
  exists C' H' n', runs (remove_step compare k args (rstate (Fr last cp p sib :: C) g)) H
      (rstate C' (hptr head C)) H' /\ rinv L H' C' a n' (pred h) /\ C' <> [].
Proof.
  intros Hs I Hd Ra Ro. assert (Z := ri_zip _ _ _ _ _ _ I).
  destruct (push_parent _ _ _ _ _ _ _ _ _ _ _ _ _ _ I eq_refl Ra Ro) as (h' & -> & Cc & Tc & Rs & Ba & Bo).
  destruct sib as [|[] ls xs rs]; [done | by destruct Rs |].
  destruct (rzip_node _ _ _ _ _ _ _ _ _ Z) as (v & En & N0 & Hv & _).
  destruct (rzip_distinct _ _ _ _ _ _ _ _ _ _ _ _ Z) as (Dxp & Pc & P0).
  assert (Zx : rzip head H (Fr last cp p (T false ls xs rs) :: C) (T false (child false (mkT d false a x o)) x (child true (mkT d false a x o))) n)
    by (by destruct d).
  assert (Ex : forall c, T c (child false (mkT d false a x o)) x (child true (mkT d false a x o)) = mkT d c a x o) by (by destruct d).
  destruct (negb (red_root ls) && negb (red_root rs)) eqn:Fl.
  - (* colour flip *)
    destruct (flip_down_runs _ _ _ _ _ _ _ _ _ _ _ _ _ _ _ (lb_addr xs) Zx eq_refl) as (H' & R & Z1).
    rewrite Ex in Z1. apply andb_true_iff in Fl as [Fl1%negb_true_iff Fl2%negb_true_iff].
    destruct (step_flip_down _ _ _ _ _ _ _ _ _ _ _ _ _ _ _ _ I Hd Ra Ro Fl1 Fl2 Z1) as (n' & I').
    eexists _, H', n'. split_and!; [| exact I' | done].
    eapply push_prefix; [exact Hs | exact I | done | done | done |]. rewrite Fl1, Fl2. cbn [negb andb].
    eapply runs_bind; [exact R |]. unfold rstate. cbn [hptr hdir pptr]. subst n.
    replace (found (Fr d true x o :: Fr last false p (T true ls xs rs) :: C))
      with (found (Fr d false x o :: Fr last cp p (T false ls xs rs) :: C)) by (by destruct d, last).
    apply runs_ret.
  - set (inner := if last then rs else ls) in *. set (outer := if last then ls else rs) in *.
    assert (Esib : T false ls xs rs = mkT last false inner xs outer) by (unfold inner, outer; by destruct last).
    assert (Fin : negb (red_root ls) && negb (red_root rs) = negb (red_root inner) && negb (red_root outer))
      by (unfold inner, outer; destruct last; [apply andb_comm | done]).
    assert (Rbs : rb inner false h' /\ rb outer false h') by (unfold inner, outer; destruct last; simpl in Rs; tauto).
    (* the end of the iteration, once [y] is above [p] *)
    assert (Fin2 : forall y i w H', (exists vg, H' !! hptr head C = Some vg /\ lnk vg (hdir C) = lb_addr y) ->
      let nf := found (Fr d false x o :: Fr last cp p (T false ls xs rs) :: C) in
      runs (if nf.1 =? lb_addr p then
             c ← get_link (hptr head C) (Z.b2z (hdir C)); mret (hptr head C, lb_addr p, n, nf.1, c, d)
           else mret (hptr head C, lb_addr p, n, nf.1, nf.2, d)) H'
        (rstate (Fr d true x o :: Fr last false p i :: Fr last true y w :: C) (hptr head C)) H').
    { intros y i w H' (vg & Hg & Eg) nf. unfold rstate.
      rewrite (found_push C d x o false last p i y w cp (T false ls xs rs) P0 Dxp Pc). fold nf.
      cbn [hptr hdir pptr]. rewrite <- En. destruct (nf.1 =? lb_addr p).
      - eapply runs_bind_get; [exact Hg |]. rewrite Eg. apply runs_ret.
      - apply runs_ret. }
    assert (Eo : outer = if last then ls else rs) by done. assert (Ei : inner = if last then rs else ls) by done.
    clearbody outer inner. destruct (red_root outer) eqn:Ou.
    + destruct outer as [|[] lo xo ro]; [done | | done]. rewrite Esib in Zx.
      destruct (push_single_runs _ _ _ _ _ _ _ _ _ _ _ _ _ _ _ _ _ _ Zx) as (H' & R & Z1 & Hg). rewrite Ex in Z1.
      assert (I2 := I). rewrite Esib in I2.
      destruct (step_push L H H' C last cp p _ xs inner (T false lo xo ro) d a x o n (S h') I2 Hd Ra Ro) as (n' & I'); [| | exact Z1 |].
      { by destruct last. }
      { intros h2 [= <-] _. destruct Rbs as [? (_ & ? & ?)]. split; [done |]. simpl. split; by eapply rb_weaken. }
      eexists _, H', n'. split_and!; [| exact I' | done].
      eapply push_prefix; [exact Hs | exact I | done | done | done |]. rewrite <- Eo, <- Ei, Fl.
      eapply runs_bind; [exact R | by apply Fin2].
    + rewrite Fin in Fl. cbn [negb] in Fl. rewrite andb_true_r in Fl. apply negb_false_iff in Fl as Ri.
      destruct inner as [|[] la z lb] eqn:Ein; [done | | done].
      set (a' := if last then lb else la). set (b' := if last then la else lb).
      assert (Einn : T true la z lb = mkT last true a' z b') by (unfold a', b'; by destruct last).
      rewrite Esib, Einn in Zx.
      destruct (push_double_runs _ _ _ _ _ _ _ _ _ _ _ _ _ _ _ _ _ _ Zx) as (H' & R & Z1 & Hg). rewrite Ex in Z1.
      assert (I2 := I). rewrite Esib, Einn in I2.
      destruct (step_push L H H' C last cp p _ z a' (mkT last false b' xs outer) d a x o n (S h') I2 Hd Ra Ro) as (n' & I'); [| | exact Z1 |].
      { destruct last; simpl; repeat (rewrite <- app_assoc; simpl); done. }
      { intros h2 [= <-] _. destruct Rbs as [(_ & B1 & B2) Bou]. rewrite rb_mkT.
        unfold a', b'. destruct last; simpl; split_and!; try done; by eapply rb_weaken. }
      eexists _, H', n'. split_and!; [| exact I' | done].
      eapply push_prefix; [exact Hs | exact I | done | done | done |]. rewrite <- Eo, <- Ei, Fin, Ou. cbn [red_root negb andb].
      eapply runs_bind; [exact R | by apply Fin2].
Qed.

(** Every iteration moves down and keeps the invariant. *)
Lemma step_ok L H C s n h g :
  sorted L -> rinv L H C s n h -> s <> E -> stepped L s (remove_step compare k args (rstate C g)) H.
Proof.
  intros Hs I Hne. destruct s as [|c l x r]; [done |]. set (d := ltx x).
  set (a := child d (T c l x r)). set (o := child (negb d) (T c l x r)).
  assert (Es : T c l x r = mkT d c a x o) by (unfold a, o; by destruct d).
  assert (Dep : (depth a < depth (T c l x r))%nat) by (by apply depth_child).
  assert (Hd : d = ltx x) by done. clearbody d a o. rewrite Es in I, Dep |- *.
  assert (Pass : forall h', rinv L H (Fr d c x o :: C) a
        (match H !! n with Some v => lnk v d | None => 0 end) h' ->
      runs (remove_step compare k args (rstate C g)) H (rstate (Fr d c x o :: C) (pptr C)) H ->
      stepped L (mkT d c a x o) (remove_step compare k args (rstate C g)) H).
  { intros h' I' R. eexists (pptr C), H, (Fr d c x o :: C), a, _, h'. split_and!; [exact R | exact I' | done | done]. }
  destruct (rzip_node _ _ _ _ _ _ _ _ _ (ri_zip _ _ _ _ _ _ I)) as (v & En & N0 & Hv & Rv & Dv & Rpa & Rpo).
  destruct (negb c && negb (red_root a)) eqn:Push.
  - apply andb_true_iff in Push as [->%negb_true_iff Ra%negb_true_iff].
    destruct (red_root o) eqn:Ro.
    + destruct o as [|[] lo y ro]; [done | | done].
      replace (T true lo y ro) with (mkT d true (if d then ro else lo) y (if d then lo else ro)) in * by (by destruct d).
      destruct (run_rotate _ _ _ _ _ _ _ _ _ _ _ g Hs I Hd Ra) as (H' & n' & R & I').
      eexists _, H', _, a, n', _. split_and!; [exact R | exact I' | done | done].
    + destruct C as [|[last cp p sib] C].
      * apply (Pass _ (step_pass _ _ _ _ _ _ _ _ _ _ I Hd ltac:(by rewrite Ra, Ro))).
        eapply step_prefix; [exact Hs | exact I | exact Hd |]. rewrite Ra. cbn [negb andb].
        eapply runs_bind_get; [exact Hv |]. eapply runs_bind; [by apply rep_is_red |]. rewrite Ro.
        destruct (rz_left _ _ _ _ _ (ri_zip _ _ _ _ _ _ I)) as (vh & Hh & Lh).
        eapply (runs_bind_get _ _ _ false); [exact Hh |]. simpl lnk. rewrite Lh.
        unfold rstate. cbn [hptr hdir]. rewrite En. apply runs_ret.
      * destruct (run_push _ _ _ _ _ _ _ _ _ _ _ _ _ g Hs I Hd Ra Ro) as (C' & H' & n' & R & I' & NC).
        eexists _, H', _, a, n', _. split_and!; [exact R | exact I' | done | done].
  - apply (Pass _ (step_pass _ _ _ _ _ _ _ _ _ _ I Hd ltac:(destruct c, (red_root a); done))).
    eapply step_prefix; [exact Hs | exact I | exact Hd |]. rewrite Push.
    unfold rstate. cbn [hptr hdir]. rewrite En. apply runs_ret.
Qed.

(** The loop ends, at a leaf. *)
Lemma remove_loop_ok L fuel : forall H C s n h g,
  sorted L -> rinv L H C s n h -> (depth s < fuel)%nat -> s <> E \/ C <> [] ->
  exists H' C' h' g', runs (remove_loop compare fuel k args (rstate C g)) H (rstate C' g') H' /\
    rinv L H' C' E 0 h' /\ C' <> [].
Proof.
  induction fuel as [|fuel IH]; intros H C s n h g Hs I Hf Hne; [lia |].
  destruct (rzip_parent _ _ _ _ _ (ri_zip _ _ _ _ _ _ I)) as (vp & Hp & Ep).
  assert (Hnull := rep_null _ _ _ (zip_rep _ _ _ _ _ (rz_zip _ _ _ _ _ (ri_zip _ _ _ _ _ _ I)))).
  cbn [remove_loop]. unfold rstate at 1. destruct s as [|c l x r].
  - exists H, C, h, g. destruct Hne as [Hne|Hne]; [by destruct Hne |]. apply Z.eqb_eq in Hnull. rewrite Hnull in I, Ep.
    split; [| split; [exact I | exact Hne]].
    eapply runs_bind_get; [exact Hp |]. rewrite Ep. simpl. apply runs_ret.
  - destruct (step_ok L H C _ n h g Hs I ltac:(done)) as (g1 & H1 & C1 & s1 & n1 & h1 & R1 & I1 & NC & Hd).
    destruct (IH H1 C1 s1 n1 h1 g1 Hs I1 ltac:(lia) ltac:(by right)) as (H2 & C2 & h2 & g2 & R2 & I2 & NC2).
    exists H2, C2, h2, g2. split_and!; [| done | done].
    eapply runs_bind_get; [exact Hp |]. rewrite Ep, Hnull. eapply runs_bind; [exact R1 | exact R2].
Qed.
End search.
