(* ===== verification/RbUnlink.v ===== *)
(** remove_rbnode on the heap of nodes: the end.

    The search has stopped at a node [n] without children, below the node [f]
    it remembers. The code takes a duplicate of [f] out of its list, or puts
    the first duplicate in the place of [f], or cuts [n] off and puts it in the
    place of [f]. *)

From S2P Require Import Prelude Memory RbTree RbHeap RbModel RbRep RbInsert RbSpec RbRemove.

(** ** What is taken from a label *)

Section take.
Context (sel : Z -> bool).

(** The first selected address of a list. *)
Fixpoint take_first (l : list Z) : option (Z * list Z) :=
  match l with
  | [] => None
  | a :: l' => if sel a then Some (a, l') else prod_map id (cons a) <$> take_first l'
  end.

(** The address that is removed, and the labels that remain. *)
Definition take_lab (x : lab) : option (Z * list lab) :=
  match lb_dups x with
  | [] => Some (lb_addr x, [])
  | d :: D =>
      match take_first (lb_dups x) with
      | Some (a, l') => Some (a, [Lab (lb_addr x) (lb_key x) l'])
      | None => if sel (lb_addr x) then Some (lb_addr x, [Lab d (lb_key x) D]) else None
      end
  end.

Lemma take_first_some l a l' :
  take_first l = Some (a, l') -> exists l1 l2, l = l1 ++ a :: l2 /\ l' = l1 ++ l2 /\ sel a = true /\
    Forall (fun b => sel b = false) l1.
Proof.
  revert l'. induction l as [|b l IH]; simpl; [done |]. intros l'. destruct (sel b) eqn:Sb.
  - intros [= -> ->]. exists [], l'. split_and!; done.
  - destruct (take_first l) as [[a0 l0]|]; [| done]. intros [= -> <-].
    destruct (IH _ eq_refl) as (l1 & l2 & -> & -> & Sa & F). exists (b :: l1), l2. split_and!; try done. by constructor.
Qed.

Lemma take_first_none l : take_first l = None -> Forall (fun b => sel b = false) l.
Proof.
  induction l as [|b l IH]; simpl; [done |]. destruct (sel b) eqn:Sb; [done |].
  destruct (take_first l); [done |]. intros _. constructor; auto.
Qed.

Lemma take_lab_addrs x a ys :
  take_lab x = Some (a, ys) -> lab_addrs x ≡ₚ a :: concat (lab_addrs <$> ys).
Proof.
  unfold take_lab, lab_addrs. destruct x as [b k [|d D]]; cbn [lb_dups lb_addr lb_key]; [by intros [= <- <-] |].
  destruct (take_first (d :: D)) as [[a' l']|] eqn:Tf.
  - intros [= <- <-]. apply take_first_some in Tf as (l1 & l2 & -> & -> & _). simpl. rewrite app_nil_r. solve_Permutation.
  - destruct (sel b); [| done]. intros [= <- <-]. simpl. by rewrite app_nil_r.
Qed.

(** One label, or none, with the key. *)
Lemma take_lab_shape x a ys :
  take_lab x = Some (a, ys) -> (ys = [] /\ lb_dups x = []) \/ exists y, ys = [y] /\ lb_key y = lb_key x /\
    length (lb_dups x) = S (length (lb_dups y)).
Proof.
  unfold take_lab. destruct x as [b k [|d D]]; cbn [lb_dups lb_addr lb_key]; [intros [= <- <-]; by left |].
  intros Ht. right. destruct (take_first (d :: D)) as [[a' l']|] eqn:Tf.
  - injection Ht as <- <-. eexists. split_and!; [done.. |]. apply take_first_some in Tf as (l1 & l2 & -> & -> & _).
    simpl. rewrite !length_app. simpl. lia.
  - destruct (sel b); [| done]. injection Ht as <- <-. eexists. split_and!; done.
Qed.
End take.

(** ** The three endings *)

Section endings.
Context (head : Z).
Implicit Types (H : nheap) (C : list frame) (s : tree).

(** The leaf [x] at the end of the path is cut off. *)
Lemma detach_runs H d c x C :
  rzip head H (Fr d c x E :: C) E 0 ->
  let n := lb_addr x in
  let p := hptr head C in
  exists H' v, runs (p1 ← get_link p 1; n0 ← get_link n 0; c ← get_link n (Z.b2z (n0 =? 0));
                     set_link p (Z.b2z (p1 =? n)) c) H tt H' /\
    rzip head H' C E 0 /\ node_at H' x c v /\ NoDup (head :: lab_addrs x ++ caddrs C).
Proof.
  intros Z. cbv zeta. assert (Zu := rzip_up _ _ _ _ _ _ _ _ _ Z).
  destruct Z as [[Z1 (v & N & Hl & Ho & R) Z3] (vh & Hh & Lh)]. assert (Hv := proj1 N).
  destruct (rzip_parent _ _ _ _ _ Zu) as (vp & Hp & Ep).
  assert (Side : (v_r vp =? lb_addr x) = hdir C) by (eapply rzip_side; [exact Zu | by destruct d | done]).
  assert (v_l v = 0 /\ v_r v = 0) as [Vl Vr] by (simpl in Ho; by destruct d).
  assert (Z3' : NoDup (head :: lab_addrs x ++ caddrs C)) by (simpl in Z3; done).
  assert (It := hptr_in head C). remember (hptr head C) as p eqn:Dp. nd_prepare Z3'.
  assert (xp : forall q, q ∈ lab_addrs x -> q <> p) by (unfold lab_addrs; intros q Hq; nd).
  set (H' := <[p := set_lnk (hdir C) 0 vp]> H).
  assert (O : forall q, q <> p -> H' !! q = H !! q) by (intros q Hq; unfold H'; by rewrite lookup_insert_ne).
  exists H', v. split_and!; [| split; [split |] | | exact Z3'].
  - apply (runs_bind_get _ _ _ true _ _ _ Hp). simpl lnk. rewrite Side.
    apply (runs_bind_get _ _ _ false _ _ _ Hv). simpl lnk. rewrite Vl. simpl (0 =? 0).
    apply (runs_bind_get _ _ _ true _ _ _ Hv). simpl lnk. rewrite Vr.
    apply runs_set_link; [done | by left].
  - done.
  - eapply rep_ctx_set; [exact R | rewrite <- Dp; exact Hp | rewrite <- Dp; unfold H'; by rewrite lookup_insert_eq | |].
    + intros q _ Hq. apply O. by rewrite Dp.
    + apply NoDup_cons. split; [nd | done].
  - simpl. apply NoDup_cons. split; [nd | done].
  - subst p. eapply (head_left head H H' C vp 0 vh Hh Lh Hp).
    + unfold H'. by rewrite lookup_insert_eq.
    + intros Hne. by apply O, not_eq_sym.
    + nd.
  - eapply node_at_agree; [| exact N]. intros q Hq. apply O. auto.
Qed.

(** The node [y] takes the place of the one in focus. *)
Lemma replace_runs H C c l r f vf y cy vy :
  H !! f = Some vf -> v_red vf = c -> rep H (v_l vf) l -> rep H (v_r vf) r -> rep_ctx H head C f ->
  node_at H y cy vy -> NoDup (head :: f :: lab_addrs y ++ taddrs l ++ taddrs r ++ caddrs C) -> f <> 0 ->
  (exists v, H !! head = Some v /\ v_l v = 0) ->
  let n := lb_addr y in
  let fp := hptr head C in
  exists H', runs (f0 ← get_link f 0; set_link n 0 f0;;
                   f1 ← get_link f 1; set_link n 1 f1;;
                   fp1 ← get_link fp 1; set_link fp (Z.b2z (fp1 =? f)) n;;
                   copy_color f n) H tt H' /\
    rzip head H' C (T c l y r) n /\ H' !! f = Some vf.
Proof.
  intros Hf Rf Rl Rr Rc Ny ND F0 (vh & Hh & Lh). cbv zeta.
  assert (Hy := proj1 Ny). assert (It := hptr_in head C).
  destruct (rep_ctx_hptr _ _ _ _ Rc) as (vp & Hp & Ep).
  assert (Fc : f ∉ caddrs C) by (assert (ND' := ND); nd_prepare ND'; nd).
  assert (Side : (v_r vp =? f) = hdir C) by (by eapply rep_ctx_dir).
  remember (hptr head C) as p eqn:Dp. remember (lb_addr y) as n eqn:Dn. nd_prepare ND.
  assert (nf : n <> f) by nd. assert (np : n <> p) by nd. assert (fp : f <> p) by nd.
  set (v1 := set_lnk false (v_l vf) vy). set (v2 := set_lnk true (v_r vf) v1). set (v3 := set_red c v2).
  set (H' := <[n := v3]> (<[p := set_lnk (hdir C) n vp]> H)).
  assert (O : forall q, q <> n -> q <> p -> H' !! q = H !! q) by (intros q ??; unfold H'; by rewrite !lookup_insert_ne by congruence).
  assert (Hn' : H' !! n = Some v3) by (unfold H'; by rewrite lookup_insert_eq).
  exists H'. split_and!; [| split; [split |] |].
  - apply (runs_bind_get _ _ _ false _ _ _ Hf). simpl lnk.
    eapply runs_bind; [apply (runs_set_link _ n vy false); [done | by eapply rep_ptr_in] |]. fold v1.
    apply (runs_bind_get _ f vf true); [by rewrite lookup_insert_ne |]. simpl lnk.
    eapply runs_bind.
    { apply (runs_set_link _ n v1 true); [by rewrite lookup_insert_eq |].
      destruct (rep_ptr_in _ _ _ Rr) as [->|[w Hw]]; [by left | right]. rewrite lookup_insert. case_decide; eauto. }
    rewrite insert_insert_eq. fold v2.
    apply (runs_bind_get _ p vp true); [by rewrite lookup_insert_ne |]. simpl lnk. rewrite Side.
    eapply runs_bind.
    { apply (runs_set_link _ p vp (hdir C)); [by rewrite lookup_insert_ne | right; rewrite lookup_insert_eq; eauto]. }
    replace H' with (<[n := set_red (v_red vf) v2]> (<[p := set_lnk (hdir C) n vp]> (<[n := v2]> H))).
    2:{ unfold H', v3. rewrite Rf, (insert_insert_ne H) by done. by rewrite insert_insert_eq. }
    apply runs_copy_color; by rewrite ?lookup_insert_ne, ?lookup_insert_eq by congruence.
  - simpl. rewrite <- Dn. split; [done |]. exists v3. split_and!.
    + eapply node_at_update; [exact Ny | by rewrite <- Dn | done..|]. intros q Hq. apply O; nd.
    + eapply rep_agree; [| exact Rl]. intros q Hq. apply O; nd.
    + eapply rep_agree; [| exact Rr]. intros q Hq. apply O; nd.
  - eapply rep_ctx_set; [exact Rc | rewrite <- Dp; exact Hp | rewrite <- Dp | |].
    + unfold H'. by rewrite lookup_insert_ne, lookup_insert_eq.
    + intros q Hq Hne. apply O; [nd | congruence].
    + apply NoDup_cons. split; [nd | done].
  - eapply NoDup_perm; [| exact (proj2 (proj1 (NoDup_cons _ _) (NoDup_perm (head :: f :: _) (f :: head :: _) (perm_swap _ _ _) ND)))].
    f_equiv. simpl. solve_Permutation.
  - subst p. eapply (head_left head H H' C vp n vh Hh Lh Hp).
    + unfold H'. by rewrite lookup_insert_ne, lookup_insert_eq.
    + intros Hne. apply O; [nd | congruence].
    + nd.
  - rewrite O; done.
Qed.

(** ** The list of duplicates *)

(** A node of the list is taken out by a write of the link before it. *)
Lemma chain_unlink H key p l1 b a l2 vb va :
  chain H key p (l1 ++ b :: a :: l2) -> NoDup (l1 ++ b :: a :: l2) -> H !! b = Some vb -> H !! a = Some va ->
  chain (<[b := set_dup (v_d va) vb]> H) key p (l1 ++ b :: l2).
Proof.
  intros Ch ND Hb Ha. revert p Ch. induction l1 as [|q l1 IH]; intros p Ch; simpl in *.
  - destruct Ch as (-> & B0 & vb' & Hb' & Kb & (Ea & A0 & va' & Ha' & Ka & Ch)).
    assert (vb' = vb) as -> by congruence. assert (va' = va) as -> by congruence.
    split_and!; [done | done |]. exists (set_dup (v_d va) vb). rewrite lookup_insert_eq. split_and!; [done | done |].
    eapply chain_agree; [| exact Ch]. intros q Hq. rewrite lookup_insert_ne; [done |]. intros <-.
    apply NoDup_cons in ND as [ND _]. set_solver.
  - destruct Ch as (-> & Q0 & vq & Hq & Kq & Ch). apply NoDup_cons in ND as [Nq ND].
    split_and!; [done | done |]. exists vq. rewrite lookup_insert_ne by (intros <-; set_solver). split_and!; [done | done |].
    by apply IH.
Qed.

Lemma chain_ptr_in H key p l : chain H key p l -> ptr_in H p.
Proof. destruct l as [|a l]; simpl; [by left |]. intros (-> & _ & v & Hv & _). right. eauto. Qed.

(** The pointer that follows [a]. *)
Lemma dup_chain_next H key p l1 a l2 va :
  chain H key p (l1 ++ a :: l2) -> H !! a = Some va -> chain H key (v_d va) l2.
Proof.
  intros Ch Ha. revert p Ch. induction l1 as [|q l1 IH]; intros p; simpl.
  - intros (-> & _ & v & Hv & _ & Ch). assert (v = va) as -> by congruence. done.
  - intros (_ & _ & v & _ & _ & Ch). by eapply IH.
Qed.

(** The node before the first one of [l2] in the list [f :: l1 ++ l2]. *)
Definition before (f : Z) (l1 : list Z) : Z := default f (last l1).

Lemma unlink_runs H C c l x r n l1 a l2 :
  rzip head H C (T c l x r) n -> lb_dups x = l1 ++ a :: l2 ->
  exists H' v, runs (t2 ← get_link a 2; set_link (before (lb_addr x) l1) 2 t2) H tt H' /\
    rzip head H' C (T c l (Lab (lb_addr x) (lb_key x) (l1 ++ l2)) r) n /\
    H' !! a = Some v /\ v_data v = lb_key x.
Proof.
  intros [[(-> & v & (Hv & X0 & Rv & Kv & Ch) & Rl & Rr) Z2 Z3] (vh & Hh & Lh)] Ed. rewrite Ed in Ch.
  destruct (chain_data _ _ _ _ a Ch ltac:(set_solver)) as (va & Ha & Ka & A0).
  assert (Cn := dup_chain_next _ _ _ _ _ _ _ Ch Ha).
  assert (Z3' : NoDup (head :: lb_addr x :: (l1 ++ a :: l2) ++ taddrs l ++ taddrs r ++ caddrs C)).
  { eapply NoDup_perm; [| exact Z3]. simpl. unfold lab_addrs. rewrite Ed. solve_Permutation. }
  assert (Z4 : kept (NoDup (head :: taddrs (T c l (Lab (lb_addr x) (lb_key x) (l1 ++ l2)) r) ++ caddrs C))).
  { unfold kept. assert (P : head :: lb_addr x :: (l1 ++ a :: l2) ++ taddrs l ++ taddrs r ++ caddrs C ≡ₚ
        a :: head :: taddrs (T c l (Lab (lb_addr x) (lb_key x) (l1 ++ l2)) r) ++ caddrs C)
      by (simpl; unfold lab_addrs; simpl; solve_Permutation).
    rewrite P in Z3'. by apply NoDup_cons in Z3' as [_ ?]. }
  assert (Out : forall b vb, (b = lb_addr x \/ b ∈ l1) -> H !! b = Some vb ->
    let H' := <[b := set_dup (v_d va) vb]> H in
    (exists v', H' !! lb_addr x = Some v' /\ v_red v' = c /\ v_data v' = lb_key x /\ v_l v' = v_l v /\ v_r v' = v_r v /\
       chain H' (lb_key x) (v_d v') (l1 ++ l2)) ->
    rzip head H' C (T c l (Lab (lb_addr x) (lb_key x) (l1 ++ l2)) r) (lb_addr x) /\ H' !! a = Some va).
  { intros b vb Ib Hb H' (v' & Hv' & Rv' & Kv' & El & Er & Ch'). nd_prepare Z3'.
    assert (O : forall q, q <> b -> H' !! q = H !! q) by (intros q Hq; unfold H'; by rewrite lookup_insert_ne).
    split; [split; [split; [| | exact Z4] |] |].
    - simpl. split; [done |]. exists v'. rewrite El, Er. split_and!; [split_and!; done | |].
      + eapply rep_agree; [| exact Rl]. intros q Hq. apply O. destruct Ib; nd.
      + eapply rep_agree; [| exact Rr]. intros q Hq. apply O. destruct Ib; nd.
    - eapply rep_ctx_agree; [| exact Z2]. intros q Hq. apply O. destruct Ib; nd.
    - exists vh. rewrite O; [done |]. destruct Ib; nd.
    - rewrite O; [done |]. destruct Ib; nd. }
  unfold before. destruct l1 as [|q l1 _] using rev_ind.
  - destruct (Out (lb_addr x) v ltac:(by left) Hv) as [Z' Ha'].
    { exists (set_dup (v_d va) v). rewrite lookup_insert_eq. split_and!; try done. simpl.
      eapply chain_agree; [| exact Cn]. intros q Hq. rewrite lookup_insert_ne; [done |]. intros <-.
      apply NoDup_cons in Z3' as [_ Z3']. apply NoDup_cons in Z3' as [Z3' _]. set_solver. }
    eexists _, va. split_and!; [| exact Z' | exact Ha' | done]. simpl.
    eapply runs_bind; [by apply runs_get_dup |]. apply runs_set_dup; [done | by eapply chain_ptr_in].
  - rewrite last_snoc. simpl default. rewrite <- app_assoc in Ch. simpl in Ch.
    destruct (chain_data _ _ _ _ q Ch ltac:(set_solver)) as (vq & Hq & Kq & Q0).
    assert (NDl : NoDup (l1 ++ q :: a :: l2)).
    { apply NoDup_cons in Z3' as [_ Z3']. apply NoDup_cons in Z3' as [_ Z3']. apply NoDup_app in Z3' as [Z3' _].
      by rewrite <- app_assoc in Z3'. }
    assert (xq : q <> lb_addr x).
    { intros ->. apply NoDup_cons in Z3' as [_ Z3']. apply NoDup_cons in Z3' as [Z3' _]. set_solver. }
    destruct (Out q vq ltac:(right; set_solver) Hq) as [Z' Ha'].
    { exists v. rewrite lookup_insert_ne by done. split_and!; try done.
      rewrite <- app_assoc. simpl. by apply (chain_unlink _ _ _ _ _ a). }
    eexists _, va. split_and!; [| exact Z' | exact Ha' | done].
    eapply runs_bind; [by apply runs_get_dup |]. apply runs_set_dup; [done | by eapply chain_ptr_in].
Qed.
End endings.

(** ** Paths *)

Definition right_turn (F : frame) : Prop := match F with Fr d _ _ _ => d = true end.

Lemma plug_app A B t : plug (A ++ B) t = plug B (plug A t).
Proof. revert t. induction A as [|[d c x s] A IH]; intros t; simpl; [done | apply IH]. Qed.

Lemma pre_app A B : pre (A ++ B) = pre B ++ pre A.
Proof. induction A as [|[d c x s] A IH]; simpl; [by rewrite app_nil_r |]. by rewrite IH, app_assoc. Qed.

Lemma post_app A B : post (A ++ B) = post A ++ post B.
Proof. induction A as [|[d c x s] A IH]; simpl; [done |]. by rewrite IH, app_assoc. Qed.

Lemma caddrs_app A B : caddrs (A ++ B) = caddrs A ++ caddrs B.
Proof. induction A as [|[d c x s] A IH]; simpl; [done |]. by rewrite IH, !app_assoc. Qed.

Lemma right_turns_post A : Forall right_turn A -> post A = [].
Proof. induction 1 as [|[d c x s] A Hd HA IH]; simpl in *; [done |]. by subst. Qed.

Lemma rzip_ups head H A B s n : rzip head H (A ++ B) s n -> exists n', rzip head H B (plug A s) n'.
Proof.
  revert s n. induction A as [|[d c x o] A IH]; intros s n Z; simpl in *; [eauto |].
  apply (IH _ (lb_addr x)). by eapply rzip_up.
Qed.

(** The colours of a tree do not depend on its labels. *)
Lemma rb_plug_congr C s s' pc n :
  (forall pc n, rb s pc n -> rb s' pc n) -> rb (plug C s) pc n -> rb (plug C s') pc n.
Proof.
  revert s s'. induction C as [|[d c x o] C IH]; intros s s' Hs; simpl; [auto |].
  apply IH. intros pc' n'. rewrite !rb_mkT. simpl. destruct c; [naive_solver |].
  destruct n'; naive_solver.
Qed.

Lemma rb_relabel C c l x y r n : rb (plug C (T c l x r)) false n -> rb (plug C (T c l y r)) false n.
Proof. apply rb_plug_congr. intros pc' n'. by destruct c. Qed.

(** ** The selection callback *)

Class Selector {Args : Type} (select_dup : Z -> Args -> M mem Z) (selz : Z -> Args -> bool) : Prop :=
  selector_runs : forall H n args, is_Some (H !! n) -> n <> 0 ->
    exists r, runs (select_dup n args) H r H /\ negb (r =? 0) = selz n args.

Section finish.
Context {Args : Type} (cmpf : Z -> Z -> Z -> Args -> Z).
Context (select_dup : Z -> Args -> M mem Z) (selz : Z -> Args -> bool).
Context `{!Selector select_dup selz}.
Context (args : Args) (k : Z) (head : Z).
Implicit Types (H : nheap) (C : list frame) (s : tree).

Abbreviation sel := (fun a => selz a args).
Abbreviation eqk := (eqx cmpf args k).

Lemma before_cons f b l : before f (b :: l) = before b l.
Proof. unfold before. destruct l as [|a l]; [done |]. simpl. by destruct (last_is_Some (a :: l)) as [_ [z ->]]. Qed.

(** The loop over the duplicates finds the first selected one ... *)
Lemma find_dup_some H key l1 : forall p prev a l2 fuel,
  chain H key p (l1 ++ a :: l2) -> Forall (fun b => sel b = false) l1 -> sel a = true -> (length l1 < fuel)%nat ->
  runs (find_dup select_dup fuel args p prev) H (a, before prev l1) H.
Proof.
  induction l1 as [|b l1 IH]; intros p prev a l2 [|fuel] Ch Fl Sa Hf; cbn [length] in Hf; try lia; simpl in Ch.
  - destruct Ch as (-> & A0 & v & Hv & _). cbn [find_dup]. rewrite (proj2 (Z.eqb_neq _ _) A0).
    destruct (selector_runs H a args ltac:(eauto) A0) as (r & R & E). simpl in Sa. rewrite Sa in E.
    eapply runs_bind; [exact R |]. apply negb_true_iff in E. rewrite E. apply runs_ret.
  - destruct Ch as (-> & B0 & v & Hv & _ & Ch). apply Forall_cons in Fl as [Sb Fl].
    cbn [find_dup]. rewrite (proj2 (Z.eqb_neq _ _) B0).
    destruct (selector_runs H b args ltac:(eauto) B0) as (r & R & E). simpl in Sb. rewrite Sb in E.
    eapply runs_bind; [exact R |]. apply negb_false_iff in E. rewrite E.
    eapply runs_bind; [by apply runs_get_dup |]. rewrite before_cons. eapply IH; [exact Ch | done | done | lia].
Qed.

(** ... or the end of the list. *)
Lemma find_dup_none H key l : forall p prev fuel,
  chain H key p l -> Forall (fun b => sel b = false) l -> (length l < fuel)%nat ->
  runs (find_dup select_dup fuel args p prev) H (0, before prev l) H.
Proof.
  induction l as [|b l IH]; intros p prev [|fuel] Ch Fl Hf; cbn [length] in Hf; try lia; simpl in Ch.
  - subst p. apply runs_ret.
  - destruct Ch as (-> & B0 & v & Hv & _ & Ch). apply Forall_cons in Fl as [Sb Fl].
    cbn [find_dup]. rewrite (proj2 (Z.eqb_neq _ _) B0).
    destruct (selector_runs H b args ltac:(eauto) B0) as (r & R & E). simpl in Sb. rewrite Sb in E.
    eapply runs_bind; [exact R |]. apply negb_false_iff in E. rewrite E.
    eapply runs_bind; [by apply runs_get_dup |]. rewrite before_cons. eapply IH; [exact Ch | done | lia].
Qed.

(** What remove_found returns and leaves, for the labels [l1] before the end of
    the search and [l2] behind it. *)
Inductive rem_result (l1 l2 : list lab) (nodes dups : Z) : Z * Z * Z -> list lab -> Prop :=
  | rem_nothing :
      (forall x l2', l2 = x :: l2' -> eqk x = true -> take_lab sel x = None) ->
      rem_result l1 l2 nodes dups (0, nodes, dups) (l1 ++ l2)
  | rem_node x l2' a :
      l2 = x :: l2' -> eqk x = true -> take_lab sel x = Some (a, []) ->
      rem_result l1 l2 nodes dups (a, u32 (nodes - 1), dups) (l1 ++ l2')
  | rem_dup x y l2' a :
      l2 = x :: l2' -> eqk x = true -> take_lab sel x = Some (a, [y]) ->
      rem_result l1 l2 nodes dups (a, nodes, u32 (dups - 1)) (l1 ++ y :: l2').

(** The removed node still holds its key. *)
Definition still_holds H (a : Z) (l2 : list lab) : Prop :=
  a <> 0 -> exists v x l2', l2 = x :: l2' /\ H !! a = Some v /\ v_data v = lb_key x.

(** The end of the operation, for a path [C]. *)
Definition finished H C (nodes dups : Z) (c : M mem (Z * Z * Z)) : Prop :=
  exists H' a nodes' dups' t' p' h', runs c H (a, nodes', dups') H' /\ rzip head H' [] t' p' /\
    rb t' false h' /\ rem_result (pre C) (post C) nodes dups (a, nodes', dups') (inorder t') /\
    still_holds H' a (post C).

(** The first left turn of the path, from below. *)
Lemma split_left C :
  (Forall right_turn C /\ found cmpf args k head C = (0, 0)) \/
  exists A c x s B, C = A ++ Fr false c x s :: B /\ Forall right_turn A /\
    found cmpf args k head C = if eqk x then (lb_addr x, hptr head B) else (0, 0).
Proof.
  induction C as [|[[] c x s] C IH]; simpl; [by left; split | |].
  - destruct IH as [[F E]|(A & c' & x' & s' & B & -> & F & E)].
    + left. split; [by constructor | done].
    + right. exists (Fr true c x s :: A), c', x', s', B. split_and!; [done | by constructor | done].
  - right. exists [], c, x, s, C. split_and!; done.
Qed.

(** Nothing is removed. *)
Lemma finish_nothing H C nodes dups n h :
  rzip head H C E n -> rbctx C h -> rb E (topc C) h ->
  (forall x l2', post C = x :: l2' -> eqk x = true -> take_lab sel x = None) ->
  finished H C nodes dups (mret (0, nodes, dups)).
Proof.
  intros Z Ctx Rb Hn. destruct (rbctx_plug C E h Ctx Rb) as [h' Rb'].
  destruct (rzip_ups head H C [] E n ltac:(by rewrite app_nil_r)) as [p' Z'].
  eexists H, 0, nodes, dups, _, p', h'. split_and!; [apply runs_ret | exact Z' | exact Rb' | | by intros ?].
  rewrite inorder_plug. by apply rem_nothing.
Qed.

(** The label of the node in focus is replaced. *)
Lemma finish_relabel H H' C A B c x y s nodes dups a nodes' dups' h n v l2 :
  C = A ++ Fr false c x s :: B -> Forall right_turn A -> rb (plug C E) false h ->
  rzip head H' B (T c (plug A E) y s) n -> rem_result (pre C) (post C) nodes dups (a, nodes', dups') (pre C ++ y :: l2) ->
  post C = x :: l2 -> H' !! a = Some v -> v_data v = lb_key x ->
  forall cmd, runs cmd H (a, nodes', dups') H' -> finished H C nodes dups cmd.
Proof.
  intros EC FA Rb Z Res Po Ha Ka cmd R.
  destruct (rzip_ups head H' B [] _ n ltac:(rewrite app_nil_r; exact Z)) as [p' Z'].
  assert (l2 = inorder s ++ post B) as ->.
  { rewrite EC, post_app, (right_turns_post _ FA) in Po. simpl in Po. congruence. }
  eexists H', a, nodes', dups', _, p', h. split_and!; [exact R | exact Z' | | |].
  - rewrite EC, plug_app in Rb. simpl in Rb. by eapply rb_relabel.
  - replace (inorder (plug B (T c (plug A E) y s))) with (pre C ++ y :: inorder s ++ post B); [done |].
    rewrite inorder_plug, EC, pre_app. simpl. rewrite inorder_plug, (right_turns_post _ FA). simpl.
    rewrite !app_nil_r. repeat (rewrite <- app_assoc; simpl). done.
  - intros _. eexists v, x, _. split_and!; done.
Qed.

(** A matching node with duplicates. *)
Lemma finish_dups H C A B c x s p n fuel nodes dups h :
  C = A ++ Fr false c x s :: B -> Forall right_turn A -> rzip head H C E 0 -> rbctx C h -> rb E (topc C) h ->
  eqk x = true -> lb_dups x <> [] -> (length (lb_dups x) < fuel)%nat ->
  finished H C nodes dups (remove_found select_dup fuel args p n (lb_addr x) (hptr head B) nodes dups).
Proof.
  intros EC FA Z Ctx Rb Ex Dx Hf. destruct (rbctx_plug C E h Ctx Rb) as [h' Rb'].
  assert (Po : post C = x :: inorder s ++ post B) by (rewrite EC, post_app, (right_turns_post _ FA); done).
  assert (ZB : rzip head H B (T c (plug A E) x s) (lb_addr x)).
  { rewrite EC in Z. destruct (rzip_ups _ _ _ _ _ _ Z) as [n' Z']. exact (rzip_up _ _ _ _ _ _ _ _ _ Z'). }
  assert (ZB' := ZB). destruct ZB' as [[(_ & v & (Hv & X0 & Rv & Kv & Ch) & Rl & Rr) Rc ND] Lh].
  destruct (lb_dups x) as [|d0 D] eqn:Ed; [done |]. assert (Ch0 := Ch). destruct Ch as (E0 & D0 & vd & Hd & Kd & Ch).
  assert (Tl : take_lab sel x = match take_first sel (d0 :: D) with
      | Some (a, l') => Some (a, [Lab (lb_addr x) (lb_key x) l'])
      | None => if sel (lb_addr x) then Some (lb_addr x, [Lab d0 (lb_key x) D]) else None
      end) by (unfold take_lab; by rewrite Ed).
  unfold remove_found. rewrite (proj2 (Z.eqb_neq _ _) X0).
  assert (Pre : forall cmd, finished H C nodes dups (cmd d0) ->
    finished H C nodes dups (f2 ← get_link (lb_addr x) 2; cmd f2)).
  { intros cmd (H' & a & nodes' & dups' & t' & p' & h2 & R & Rest). exists H', a, nodes', dups', t', p', h2.
    split; [| exact Rest]. eapply runs_bind; [by apply runs_get_dup | by rewrite E0]. }
  apply Pre. clear Pre. rewrite (proj2 (Z.eqb_neq _ _) D0). cbn [negb].
  destruct (take_first sel (d0 :: D)) as [[a l']|] eqn:Tf.
  - apply take_first_some in Tf as (l1 & l2 & El & -> & Sa & Fl).
    destruct (unlink_runs head _ _ _ _ _ _ _ l1 a l2 ZB ltac:(by rewrite Ed)) as (H' & va & R & Z' & Ha & Ka).
    eapply (finish_relabel H H' C A B c x _ s nodes dups a); [done | done | exact Rb' | exact Z' | | exact Po | exact Ha | done |].
    { eapply rem_dup; [exact Po | done | exact Tl]. }
    assert (A0 : a <> 0). { rewrite El in Ch0. by destruct (chain_data _ _ _ _ a Ch0 ltac:(set_solver)) as (_ & _ & _ & ?). }
    rewrite El in Ch0, Hf. rewrite E0 in Ch0.
    eapply runs_bind; [eapply find_dup_some; [exact Ch0 | done | done |] |].
    { rewrite length_app in Hf. lia. }
    cbn beta iota. rewrite (proj2 (Z.eqb_neq _ _) A0). apply runs_group.
    eapply runs_bind; [exact R | apply runs_ret].
  - assert (Fl := take_first_none _ _ Tf). rewrite E0 in Ch0.
    destruct (selector_runs H (lb_addr x) args ltac:(eauto) X0) as (r & Rs & Er).
    assert (Fd := find_dup_none H _ (d0 :: D) d0 (lb_addr x) fuel Ch0 Fl Hf).
    destruct (selz (lb_addr x) args) eqn:Sx.
    + set (y := Lab d0 (lb_key x) D) in *.
      assert (ND' : NoDup (head :: lb_addr x :: lab_addrs y ++ taddrs (plug A E) ++ taddrs s ++ caddrs B)).
      { eapply NoDup_perm; [| exact ND]. simpl. unfold lab_addrs. rewrite Ed. simpl. solve_Permutation. }
      destruct (replace_runs head H B c _ _ (lb_addr x) v y (v_red vd) vd Hv Rv Rl Rr Rc) as (H' & R & Z' & Hx);
        [by split_and! | exact ND' | done | exact Lh |].
      eapply (finish_relabel H H' C A B c x y s nodes dups (lb_addr x)); [done | done | exact Rb' | exact Z' | | exact Po | exact Hx | done |].
      { eapply rem_dup; [exact Po | done | exact Tl]. }
      eapply runs_bind; [exact Fd |]. cbn beta iota. rewrite Z.eqb_refl.
      eapply runs_bind; [exact Rs |]. rewrite Er. eapply runs_bind; [by apply runs_get_dup |]. rewrite E0. change (lb_addr y) with d0 in R.
      eapply (runs_ext (u ← _; mret (lb_addr x, nodes, u32 (dups - 1)))); [| eapply runs_bind; [exact R | apply runs_ret]]. regroup.
    + destruct (finish_nothing H C nodes dups 0 h Z Ctx Rb) as (H' & a & nodes' & dups' & t' & p' & h2 & R & Rest).
      { intros x' l2'. rewrite Po. intros [= <- _] _. exact Tl. }
      exists H', a, nodes', dups', t', p', h2. split; [| exact Rest].
      eapply runs_bind; [exact Fd |]. cbn beta iota. rewrite Z.eqb_refl.
      eapply runs_bind; [exact Rs |]. rewrite Er. exact R.
Qed.

(** A matching node without duplicates: the statements that remain. *)
Lemma remove_found_alone H f v p n fp fuel nodes dups r H' :
  H !! f = Some v -> f <> 0 -> v_d v = 0 ->
  runs ((p1 ← get_link p 1; n0 ← get_link n 0; c ← get_link n (Z.b2z (n0 =? 0)); set_link p (Z.b2z (p1 =? n)) c);;
        when (negb (n =? f))
          (f0 ← get_link f 0; set_link n 0 f0;;
           f1 ← get_link f 1; set_link n 1 f1;;
           fp1 ← get_link fp 1; set_link fp (Z.b2z (fp1 =? f)) n;;
           copy_color f n);;
        mret (f, u32 (nodes - 1), dups)) H r H' ->
  runs (remove_found select_dup fuel args p n f fp nodes dups) H r H'.
Proof.
  intros Hf F0 Vd R. unfold remove_found. rewrite (proj2 (Z.eqb_neq _ _) F0).
  eapply runs_bind; [by apply runs_get_dup |]. rewrite Vd. simpl (negb (0 =? 0)). cbn iota.
  eapply runs_ext; [| exact R]. intros m. unfold mbind, M_bind.
  destruct (get_link p 1 m) as [[p1 m1]|]; [| done]. destruct (get_link n 0 m1) as [[n0 m2]|]; [| done].
  destruct (get_link n _ m2) as [[c m3]|]; [| done]. by destruct (set_link p _ c m3) as [[u m4]|].
Qed.

(** A matching node without duplicates. *)
Lemma finish_tree H C A B c x s d cn xn C1 fuel nodes dups :
  C = A ++ Fr false c x s :: B -> Forall right_turn A -> C = Fr d cn xn E :: C1 -> rzip head H C E 0 ->
  rbctx C1 0 -> eqk x = true -> lb_dups x = [] ->
  finished H C nodes dups
    (remove_found select_dup fuel args (hptr head C1) (lb_addr xn) (lb_addr x) (hptr head B) nodes dups).
Proof.
  intros EC FA EC1 Z Ctx Ex Dx.
  assert (Po : post C = x :: inorder s ++ post B) by (rewrite EC, post_app, (right_turns_post _ FA); done).
  assert (Tl : take_lab sel x = Some (lb_addr x, [])) by (unfold take_lab; by rewrite Dx).
  assert (exists v, H !! lb_addr x = Some v /\ lb_addr x <> 0 /\ v_d v = 0) as (v & Hv & X0 & Vd).
  { rewrite EC in Z. destruct (rzip_ups _ _ _ _ _ _ Z) as [n' Z']. apply rzip_up in Z'. simpl in Z'.
    destruct Z' as [[(_ & v & (Hv & X0 & _ & Kv & Ch) & _) _ _] _]. exists v. rewrite Dx in Ch. done. }
  rewrite EC1 in Z. destruct (detach_runs _ _ _ _ _ _ Z) as (H1 & vn & R1 & Z1 & Nn & ND).
  destruct (rbctx_plug C1 E 0 Ctx ltac:(done)) as [h' Rb'].
  rewrite EC in EC1. destruct A as [|F A]; simpl in EC1.
  - (* the node at the end of the path is the match *)
    injection EC1 as <- <- <- -> <-. simpl in Po.
    destruct (rzip_ups head H1 B [] E 0 ltac:(by rewrite app_nil_r)) as [p' Z'].
    eexists H1, (lb_addr x), _, _, _, p', h'. split_and!; [| exact Z' | exact Rb' | |].
    + eapply remove_found_alone; [exact Hv | done | done |]. eapply runs_bind; [exact R1 |]. rewrite Z.eqb_refl.
      eapply runs_bind; [apply runs_ret | apply runs_ret].
    + rewrite inorder_plug. simpl. replace (pre B) with (pre C) by (rewrite EC; simpl; by rewrite app_nil_r).
      by eapply rem_node.
    + intros _. eexists vn, x, _. split_and!; [exact Po | apply Nn | apply Nn].
  - (* its in-order predecessor takes its place *)
    injection EC1 as -> <-. apply Forall_cons in FA as [Hd FA]. simpl in Hd. subst d.
    destruct (rzip_ups _ _ _ _ _ _ Z1) as [n' Z2]. apply rzip_up in Z2. simpl in Z2.
    destruct Z2 as [[(_ & vx & (Hx & _ & Rx & Kx & Chx) & Rl & Rr) Rc _] Lh].
    rewrite caddrs_app in ND. simpl in ND.
    assert (ND' : NoDup (head :: lb_addr x :: lab_addrs xn ++ taddrs (plug A E) ++ taddrs s ++ caddrs B)).
    { eapply NoDup_perm; [| exact ND]. rewrite taddrs_plug. unfold lab_addrs. rewrite Dx. simpl. solve_Permutation. }
    destruct (replace_runs head H1 B c _ _ (lb_addr x) vx xn cn vn Hx Rx Rl Rr Rc Nn ND' X0 Lh) as (H2 & R2 & Z3 & Hx2).
    destruct (rzip_ups head H2 B [] _ _ ltac:(rewrite app_nil_r; exact Z3)) as [p' Z'].
    assert (Nf : lb_addr xn <> lb_addr x) by (nd_prepare ND'; nd).
    eexists H2, (lb_addr x), _, _, _, p', h'. split_and!; [| exact Z' | | |].
    + eapply remove_found_alone; [exact Hv | done | done |]. eapply runs_bind; [exact R1 |].
      rewrite (proj2 (Z.eqb_neq _ _) Nf). simpl negb. unfold when.
      eapply runs_bind; [exact R2 | apply runs_ret].
    + rewrite plug_app in Rb'. simpl in Rb'. by eapply rb_relabel.
    + replace (inorder (plug B (T c (plug A E) xn s))) with (pre C ++ inorder s ++ post B); [by eapply rem_node |].
      rewrite inorder_plug, EC. simpl. rewrite pre_app, inorder_plug, (right_turns_post _ FA). simpl.
      rewrite !app_nil_r. repeat (rewrite <- app_assoc; simpl). done.
    + intros _. eexists vx, x, _. split_and!; [exact Po | exact Hx2 | exact Kx].
Qed.

(** The node at the end of the search has no child. *)
Lemma search_leaf L H C h :
  rinv cmpf args k head L H C E 0 h -> C <> [] ->
  h = 0%nat /\ exists d c x C1, C = Fr d c x E :: C1 /\ rbctx C1 0.
Proof.
  intros [_ Ctx Rb Pu _ _] NC. simpl in Rb. subst h. split; [done |].
  destruct C as [|[d c x s] C1]; [done |].
  assert (rb s true 0 /\ rbctx C1 0) as [Rs Rc].
  { destruct Pu as [? | [Tc | [Rs | (d0 & x0 & o0 & E0 & Ro & _)]]]; [done | | done |].
    - simpl in Tc. subst c. simpl in Ctx. tauto.
    - injection E0 as -> -> -> -> ->. simpl in Ctx. split; [| done]. eapply rb_not_red; [apply Ctx | done]. }
  exists d, c, x, C1. split; [| done]. destruct s as [|[] l y r]; [done | | done]. simpl in Rs. naive_solver.
Qed.

Lemma remove_found_ok L H C h nodes dups fuel :
  rinv cmpf args k head L H C E 0 h -> C <> [] ->
  (forall x, x ∈ L -> length (lb_dups x) < fuel)%nat ->
  let '(f, fp) := found cmpf args k head C in
  finished H C nodes dups (remove_found select_dup fuel args (pptr head C) (hptr head C) f fp nodes dups).
Proof.
  intros I NC Hf. destruct (search_leaf _ _ _ _ I NC) as (-> & d & cn & xn & C1 & EC1 & Ctx1).
  destruct I as [Z Ctx Rb _ In _]. rewrite inorder_plug in In. simpl in In.
  destruct (split_left C) as [[FR ->]|(A & c & x & s & B & EC & FA & ->)].
  - apply (finish_nothing H C nodes dups 0 0 Z Ctx Rb). by rewrite (right_turns_post _ FR).
  - assert (Po : post C = x :: inorder s ++ post B) by (rewrite EC, post_app, (right_turns_post _ FA); done).
    destruct (eqk x) eqn:Ex.
    + destruct (decide (lb_dups x = [])) as [Dx|Dx].
      * rewrite EC1 at 2 3. simpl. by eapply finish_tree.
      * eapply finish_dups; try done. apply Hf. rewrite <- In, Po. set_solver.
    + apply (finish_nothing H C nodes dups 0 0 Z Ctx Rb). rewrite Po. intros x' l2' [= <- _]. congruence.
Qed.
End finish.
