(* ===== verification/RbRemoveSpec.v ===== *)
(** The contract of remove_rbnode.

    The specification is a function on the sorted list of the tree: the search
    cuts the list in two, and a matching head of the second part loses a node
    (a selected duplicate, the node itself with its first duplicate in its
    place, or the only node of that key). *)

From S2P Require Import Prelude Memory RbTree RbHeap RbModel RbRep RbInsert RbSpec RbRemove RbUnlink.

(** ** Specification *)

Section spec.
Context (sel : Z -> bool) (eq : lab -> bool).

(** The address that is removed from the second part (0 for none), and what
    remains. *)
Definition remove_head (l2 : list lab) : Z * list lab :=
  match l2 with
  | [] => (0, [])
  | x :: l2' =>
      if eq x then from_option (fun '(a, ys) => (a, ys ++ l2')) (0, l2) (take_lab sel x) else (0, l2)
  end.
End spec.

(** Removal by key. *)
Fixpoint rem_spec (sel : Z -> bool) (k : Z) (l : list lab) : Z * list lab :=
  match l with
  | [] => (0, [])
  | x :: l' =>
      if lb_key x <? k then prod_map id (cons x) (rem_spec sel k l')
      else remove_head sel (fun x => lb_key x =? k) l
  end.

(** ** The counters and the order of what remains *)

Lemma u32_pred z : u32 (u32 z - 1) = u32 (z - 1).
Proof. unfold u32. by rewrite Zminus_mod_idemp_l. Qed.

Lemma count_dups_app l1 l2 : count_dups (l1 ++ l2) = (count_dups l1 + count_dups l2)%nat.
Proof. unfold count_dups. rewrite fmap_app. induction (length ∘ lb_dups <$> l1); simpl; lia. Qed.

Lemma sorted_without l1 x l2 : sorted (l1 ++ x :: l2) -> sorted (l1 ++ l2).
Proof.
  rewrite !sorted_app. intros (S1 & [_ S2] & F). split_and!; try done.
  eapply Forall_impl; [exact F |]. intros y Hy. by apply Forall_cons in Hy as [_ Hy].
Qed.

Lemma sorted_relabel l1 x y l2 : lb_key y = lb_key x -> sorted (l1 ++ x :: l2) -> sorted (l1 ++ y :: l2).
Proof.
  intros E. rewrite !sorted_app. simpl. rewrite E. intros (S1 & [S2 S3] & F). split_and!; [done | done | done |].
  eapply Forall_impl; [exact F |]. intros z Hz. apply Forall_cons in Hz as [Hz1 Hz2]. constructor; [by rewrite E | done].
Qed.

Section remove.
Context {Args : Type} (compare : Z -> Z -> Args -> M mem Z) (cmpf : Z -> Z -> Z -> Args -> Z).
Context (select_dup : Z -> Args -> M mem Z) (selz : Z -> Args -> bool).
Context `{!Comparator compare cmpf, !Selector select_dup selz}.
Context (args : Args) (k : Z) `{!Searchable cmpf k args}.
Context (head : Z).

Abbreviation sel := (fun a => selz a args).
Abbreviation eqk := (eqx cmpf args k).
Abbreviation ltk := (ltx cmpf args k).
Abbreviation result := (rem_result cmpf selz args k).

(** Where the search ends. *)
Definition cut (l1 l2 : list lab) : Prop :=
  (forall x, last l1 = Some x -> ltk x = true) /\ (forall x, hd_error l2 = Some x -> ltk x = false).

Lemma result_spec l1 l2 nodes dups a nodes' dups' L' :
  result l1 l2 nodes dups (a, nodes', dups') L' -> (a, L') = prod_map id (app l1) (remove_head sel eqk l2).
Proof.
  intros R. inversion R as [Hn|x l2' a0 -> Ex Tl|x y l2' a0 -> Ex Tl]; subst; unfold remove_head; rewrite ?Ex, ?Tl; try done.
  destruct l2 as [|x l2']; [done |]. destruct (eqk x) eqn:Ex; [| done]. by rewrite (Hn x l2' eq_refl Ex).
Qed.

Lemma result_addrs l1 l2 nodes dups a nodes' dups' L' :
  result l1 l2 nodes dups (a, nodes', dups') L' ->
  (a = 0 /\ L' = l1 ++ l2) \/ concat (lab_addrs <$> (l1 ++ l2)) ≡ₚ a :: concat (lab_addrs <$> L').
Proof.
  intros R. inversion R as [Hn|x l2' a0 -> Ex Tl|x y l2' a0 -> Ex Tl]; subst; [by left | right..];
    rewrite !fmap_app, !concat_app, !fmap_cons; cbn [concat]; rewrite (take_lab_addrs _ _ _ _ Tl), ?fmap_cons; cbn [concat];
    rewrite ?app_nil_r; solve_Permutation.
Qed.

Lemma result_ok tr l1 l2 a nodes' dups' t' p h :
  sorted (l1 ++ l2) -> num_nodes tr = u32 (Z.of_nat (length (l1 ++ l2))) ->
  num_dup tr = u32 (Z.of_nat (count_dups (l1 ++ l2))) ->
  result l1 l2 (num_nodes tr) (num_dup tr) (a, nodes', dups') (inorder t') -> rb t' false h ->
  rb_ok (RbTree p nodes' dups') (blacken t').
Proof.
  intros Hs Hn Hd R Rb. remember (inorder t') as L' eqn:EL.
  assert (sorted L' /\ nodes' = u32 (Z.of_nat (length L')) /\ dups' = u32 (Z.of_nat (count_dups L'))) as (Sl & Nl & Dl).
  { inversion R as [Hno|x l2' a0 -> Ex Tl|x y l2' a0 -> Ex Tl]; subst; [done |..];
      destruct (take_lab_shape _ _ _ _ Tl) as [[? Dx]|(y' & Ey & Ky & Len)]; try done.
    - split_and!; [by eapply sorted_without | |].
      + rewrite Hn, u32_pred. f_equal. rewrite !length_app. simpl. lia.
      + rewrite Hd, !count_dups_app, count_dups_cons, Dx. done.
    - injection Ey as <-. split_and!; [by eapply sorted_relabel | |].
      + rewrite Hn. f_equal. rewrite !length_app. simpl. lia.
      + rewrite Hd, u32_pred, !count_dups_app, !count_dups_cons, Len. f_equal. lia. }
  subst L'. split; simpl; rewrite ?inorder_blacken; try done.
  - by destruct t'.
  - by eapply rb_blacken.
Qed.

(** The root is painted black, if there is one. *)
Lemma blacken_root_runs H p t :
  rep H p t -> NoDup (taddrs t) ->
  exists H', runs (when (negb (p =? 0)) (paint_black p)) H tt H' /\ rep H' p (blacken t) /\
    forall b w, H !! b = Some w -> exists w', H' !! b = Some w' /\ v_data w' = v_data w.
Proof.
  intros R ND. rewrite (rep_null _ _ _ R). destruct t as [|c l x r]; simpl.
  - exists H. split_and!; [apply runs_ret | done | eauto].
  - by apply (blacken_runs H p (T c l x r)).
Qed.

Lemma head_keyed l2 a l2' :
  remove_head sel eqk l2 = (a, l2') -> l2' = l2 \/ exists k, keyed l2 ≡ₚ (a, k) :: keyed l2'.
Proof.
  unfold remove_head. destruct l2 as [|x l2]; [intros [= <- <-]; by left |].
  destruct (eqk x); [| intros [= <- <-]; by left].
  destruct (take_lab sel x) as [[b ys]|] eqn:Tl; simpl; [| intros [= <- <-]; by left].
  intros [= <- <-]. right. exists (lb_key x). rewrite keyed_cons, keyed_app.
  rewrite (take_lab_addrs _ _ _ _ Tl). rewrite fmap_cons.
  destruct (take_lab_shape _ _ _ _ Tl) as [[-> _]|(y & -> & Ky & _)]; [done |].
  rewrite keyed_cons, Ky, fmap_cons. cbn [concat fmap list_fmap]. change (keyed []) with (@nil (Z * Z)). by rewrite !app_nil_r.
Qed.

(** What remove_rbnode leaves. *)
Definition remove_post (t : tree) (a : Z) (tr' : rb_tree) (t' : tree) : Prop :=
  exists l1 l2, inorder t = l1 ++ l2 /\ cut l1 l2 /\
    (a, inorder t') = prod_map id (app l1) (remove_head sel eqk l2) /\ rb_ok tr' t' /\
    (a = 0 /\ taddrs t' ≡ₚ taddrs t \/ taddrs t ≡ₚ a :: taddrs t').

Definition enough (t : tree) (fuel : nat) : Prop :=
  (depth t < fuel)%nat /\ forall x, x ∈ inorder t -> (length (lb_dups x) < fuel)%nat.

(** The key of the removed node. *)
Definition key_kept (H : nheap) (a : Z) (t : tree) : Prop :=
  a <> 0 -> exists v x, H !! a = Some v /\ x ∈ inorder t /\ v_data v = lb_key x /\ eqk x = true /\ a ∈ lab_addrs x.

Lemma result_key l1 l2 nodes dups a nodes' dups' L' H t :
  result l1 l2 nodes dups (a, nodes', dups') L' -> still_holds H a l2 -> inorder t = l1 ++ l2 -> key_kept H a t.
Proof.
  intros R Sh Et A0. destruct (Sh A0) as (v & x & l2' & E & Hv & Kv). exists v, x.
  assert (exists ys, eqk x = true /\ take_lab sel x = Some (a, ys)) as (ys & Ex & Tl).
  { inversion R as [Hno|x1 l3 a0 E1 Ex Tl|x1 y l3 a0 E1 Ex Tl]; subst; [done | |]; simplify_eq; eauto. }
  split_and!; try done.
  - rewrite Et, E. set_solver.
  - rewrite (take_lab_addrs _ _ _ _ Tl). by left.
Qed.

Lemma remove_runs H tr t fuel :
  rep H (root tr) t -> rb_ok tr t -> NoDup (head :: taddrs t) -> is_Some (H !! head) -> enough t fuel ->
  exists H' a tr' t', runs (remove_rbnode compare select_dup head fuel tr k args) H (a, tr') H' /\
    rep H' (root tr') t' /\ NoDup (taddrs t') /\ remove_post t a tr' t' /\ key_kept H' a t.
Proof.
  intros R Ok ND [vh Hh] [Hf Hd]. unfold remove_rbnode. destruct t as [|c l x r] eqn:Et.
  { simpl in R. rewrite R. simpl. exists H, 0, tr, E. split_and!; [apply runs_ret | done | apply NoDup_nil_2 | | by intros ?].
    exists [], []. split_and!; try done. by left. }
  rewrite <- Et in *. assert (Hne : t <> E) by (by subst).
  destruct (rep_nonempty _ _ _ R Hne) as (Hr0 & _ & Hroot). rewrite (proj2 (Z.eqb_neq _ _) Hr0). cbn [negb].
  destruct (ok_rb _ _ Ok) as [h Rb]. apply NoDup_cons in ND as [Nh ND].
  set (H1 := <[head := NView 0 false 0 (root tr) 0]> H).
  assert (I1 : rinv cmpf args k head (inorder t) H1 [] t (root tr) h).
  { split; [split; [split |] | done | done | by left | done | split; done].
    - eapply rep_agree; [| exact R]. intros a Ha. unfold H1. rewrite lookup_insert_ne; [done | intros ->; contradiction].
    - simpl. exists (NView 0 false 0 (root tr) 0). unfold H1. by rewrite lookup_insert_eq.
    - simpl. rewrite app_nil_r. by apply NoDup_cons.
    - exists (NView 0 false 0 (root tr) 0). unfold H1. by rewrite lookup_insert_eq. }
  destruct (remove_loop_ok compare cmpf args k head (inorder t) fuel H1 [] t (root tr) h 0 (ok_sorted _ _ Ok) I1 Hf ltac:(by left))
    as (H2 & C & h2 & g2 & RL & I2 & NC).
  assert (RF := remove_found_ok cmpf select_dup selz args k head _ _ _ _ (num_nodes tr) (num_dup tr) fuel I2 NC Hd).
  destruct (found cmpf args k head C) as [f fp] eqn:Ef.
  destruct RF as (H3 & a & nodes' & dups' & t' & p' & h' & RF & [[Rp [vh' [Hh' Er]] NDp] _] & Rb' & Res & Sh).
  assert (In := ri_in _ _ _ _ _ _ _ _ _ _ I2). rewrite inorder_plug in In. simpl in In.
  destruct (blacken_root_runs H3 p' t' Rp) as (H4 & RB & R4 & K4).
  { simpl in NDp. rewrite app_nil_r in NDp. by apply NoDup_cons in NDp as [_ ?]. }
  assert (Ta : a = 0 /\ taddrs t' ≡ₚ taddrs t \/ taddrs t ≡ₚ a :: taddrs t').
  { rewrite !taddrs_inorder, <- In. destruct (result_addrs _ _ _ _ _ _ _ _ Res) as [[-> ->]|P]; [by left | by right]. }
  assert (Tb : taddrs (blacken t') = taddrs t') by (by destruct t').
  exists H4, a, (RbTree p' nodes' dups'), (blacken t'). split_and!; [| done | | |].
  - eapply runs_bind; [by apply (runs_zero_node _ _ vh) |].
    eapply runs_bind; [eapply (runs_set_link _ _ _ true); [by rewrite lookup_insert_eq | right] |].
    { rewrite lookup_insert. case_decide; [eauto | exact Hroot]. }
    rewrite insert_insert_eq. fold H1. eapply runs_bind; [exact RL |]. unfold rstate. cbn beta iota. rewrite Ef.
    cbn [fst snd]. eapply runs_bind; [exact RF |]. cbn beta iota.
    eapply runs_bind; [exact (runs_get_link _ _ _ true Hh') |]. simpl lnk. rewrite Er.
    eapply runs_bind; [exact RB | apply runs_ret].
  - rewrite Tb. simpl in NDp. rewrite app_nil_r in NDp. by apply NoDup_cons in NDp as [_ ?].
  - exists (pre C), (post C). rewrite inorder_blacken, Tb. split_and!; [done | apply I2 | by eapply result_spec | | exact Ta].
    eapply result_ok; [| | | exact Res | exact Rb']; rewrite In; [apply Ok | by apply Ok | by apply Ok].
  - intros A0. destruct (result_key _ _ _ _ _ _ _ _ H3 t Res Sh ltac:(done) A0) as (v & y & Hv & Iy & Kv & Ey & Ay).
    destruct (K4 _ _ Hv) as (v' & Hv' & Dv'). exists v', y. split_and!; try done. congruence.
Qed.

(** What the caller must provide: the dummy root lies apart from the nodes. *)
Record can_remove (m : mem) (t : tree) : Prop := {
  cr_head : node_ok m head;
  cr_apart : forall a, a ∈ taddrs t -> disjoint_nodes head a
}.

Lemma remove_correct m tr t fuel :
  holds m tr t -> rb_ok tr t -> can_remove m t -> enough t fuel ->
  exists a tr' m' t',
    remove_rbnode compare select_dup head fuel tr k args m = Ok ((a, tr'), m') /\
    holds m' tr' t' /\ remove_post t a tr' t' /\ untouched m m' (head :: taddrs t) /\
    (a <> 0 -> exists x, x ∈ inorder t /\ word_at m' a = lb_key x /\ eqk x = true /\ a ∈ lab_addrs x).
Proof.
  intros Hm Ok [Oh Ap] Hf.
  destruct (holds_open m tr t [head] Hm) as (H & Sm & R & ND & D & V).
  { intros a. set_unfold. naive_solver. }
  { intros a b. set_unfold. naive_solver. }
  { intros a b. set_unfold. naive_solver. }
  assert (Hht : head ∉ taddrs t) by (intros Ha; destruct (Ap _ Ha); lia).
  destruct (remove_runs H tr t fuel R Ok) as (H' & a & tr' & t' & [Dom Run] & R' & ND' & Post & Key).
  { by apply NoDup_cons. }
  { apply D. set_solver. }
  { done. }
  destruct (Run m m Sm) as (m' & E & Sm').
  destruct (holds_close m m' H' tr' t' (head :: taddrs t) Sm' R' ND') as [Hh Hu].
  { intros b. rewrite <- elem_of_dom, Dom, elem_of_dom. apply D. }
  { intros b Hb. destruct Post as (l1 & l2 & _ & _ & _ & _ & [[_ P]|P]).
    - rewrite P in Hb. set_solver.
    - rewrite P. set_solver. }
  exists a, tr', m', t'. split_and!; try done. intros A0.
  destruct (Key A0) as (v & x & Hv & Ix & Kv & Ex & Ax). exists x. split_and!; [done | | done | done].
  rewrite <- Kv, <- (sim_view _ _ _ Sm' _ _ Hv). done.
Qed.

(** The data words stay. *)
Lemma remove_data m m' tr t a tr' t' :
  holds m tr t -> holds m' tr' t' -> remove_post t a tr' t' ->
  (a <> 0 -> exists x, x ∈ inorder t /\ word_at m' a = lb_key x /\ eqk x = true /\ a ∈ lab_addrs x) ->
  forall b, b ∈ taddrs t -> b <> 0 -> word_at m' b = word_at m b.
Proof.
  intros Hm Hm' (l1 & l2 & El & _ & Spec & _ & Ad) Key b Hb B0.
  destruct (decide (b = a)) as [->|Hba].
  { destruct (Key B0) as (x & Ix & -> & _ & Ax). symmetry. eapply holds_key; [exact Hm |].
    apply keyed_elem. eauto. }
  apply keyed_taddrs in Hb as [kb Hk]. rewrite (holds_key _ _ _ _ _ Hm Hk).
  eapply holds_key; [exact Hm' |]. destruct (remove_head sel eqk l2) as [a' l2'] eqn:Eh.
  injection Spec as <- ->. rewrite El, keyed_app, elem_of_app in Hk. rewrite keyed_app, elem_of_app.
  destruct Hk as [Hk|Hk]; [by left | right]. destruct (head_keyed _ _ _ Eh) as [->|[k' P]]; [done |].
  rewrite P in Hk. apply elem_of_cons in Hk as [[= -> _]|Hk]; done.
Qed.
End remove.

(** ** Removal by key *)

#[export] Instance key_order_searchable {Args} (cmpf : Z -> Z -> Z -> Args -> Z) args k :
  KeyOrder cmpf args -> Searchable cmpf k args.
Proof.
  intros [Kl Ke] n1 d1 n2 d2 E L. specialize (Ke n2 d2 k). specialize (Kl n1 d1 k).
  rewrite E in Ke. simpl in Ke. symmetry in Ke. apply Z.eqb_eq in Ke. subst d2.
  rewrite (proj2 (Z.ltb_lt _ _) L) in Kl. apply Z.ltb_lt in Kl. lia.
Qed.

(** In a sorted list the cut is where the key is. *)
Lemma rem_spec_cut sel k l1 l2 (lt eq : lab -> bool) :
  sorted (l1 ++ l2) -> (forall x, lt x = (lb_key x <? k)) -> (forall x, eq x = (lb_key x =? k)) ->
  (forall x, last l1 = Some x -> lt x = true) -> (forall x, hd_error l2 = Some x -> lt x = false) ->
  rem_spec sel k (l1 ++ l2) = prod_map id (app l1) (remove_head sel eq l2).
Proof.
  intros S Lt Eq C1 C2. induction l1 as [|x l1 IH]; simpl.
  - destruct l2 as [|y l2]; simpl; [done |]. specialize (C2 y eq_refl). rewrite Lt in C2. rewrite C2, Eq.
    by destruct (lb_key y =? k), (take_lab sel y) as [[? ?]|].
  - assert (Hx : lb_key x < k).
    { destruct (last (x :: l1)) as [z|] eqn:Ez; [| by apply last_None in Ez].
      specialize (C1 z eq_refl). rewrite Lt in C1. apply Z.ltb_lt in C1.
      apply last_Some_elem_of in Ez. apply elem_of_cons in Ez as [-> | Hz]; [done |].
      destruct S as [Gt _]. unfold keys_gt in Gt. rewrite Forall_forall in Gt. specialize (Gt z). rewrite elem_of_app in Gt.
      specialize (Gt (or_introl Hz)). lia. }
    rewrite (proj2 (Z.ltb_lt _ _) Hx). rewrite IH.
    + by destruct (remove_head sel eq l2).
    + apply S.
    + intros z Hz. apply C1. destruct l1 as [|w l1]; [done |]. exact Hz.
Qed.

