(* ===== verification/MemAlloc.v ===== *)
(** The heap allocator: mem_alloc.c.

    A block is a header (magic word and tree node), the user's bytes and a
    footer (magic word and pointer to the header). Free blocks are in the
    red-black tree, ordered by size. The blocks live in raw memory; the
    allocator_t structure is a record next to it, and so are the page tables:
    expand and contract allocate and free the pages of the heap in them, and the
    memory has the pages that the processor finds there. alloc calls itself after
    an expansion, and the tree operations loop: both take a number of
    iterations. *)

From S2P Require Import Prelude Memory Frames Paging RbTree.

(** ** Layout *)

Definition MAGIC : Z := 0xa1b2c3d4.
Definition HEADER_SIZE : Z := 4 + RB_NODE_SIZE.
Definition FOOTER_SIZE : Z := 8.
Definition ALLOCATOR_SIZE : Z := 48.

Definition rounded_size (size : Z) : Z := u32 (u32 (size + 4 - 1) / 4 * 4).
Definition MIN_BLOCK_SIZE : Z := rounded_size (HEADER_SIZE + FOOTER_SIZE).
Definition USER_PTR_OFFSET : Z := 4 + 4.

Definition rbnode_to_user (node : Z) : Z := u32 (node + 4).
Definition rbnode_to_block (node : Z) : Z := u32 (node - 4).
Definition block_to_rbnode (block : Z) : Z := u32 (block + 4).
Definition block_to_user (block : Z) : Z := u32 (block + USER_PTR_OFFSET).
Definition user_to_block (ptr : Z) : Z := u32 (ptr - USER_PTR_OFFSET).

(** The macros on the magic word; headers and footers begin with it. *)
Definition set_magic (block : Z) : M mem unit :=
  w ← load32 block; store32 block (Z.lor (Z.land MAGIC (Z.lnot 1)) (Z.land w 1)).
Definition check_magic (block : Z) : M mem bool :=
  w ← load32 block; mret (Z.land w (Z.lnot 1) =? Z.land MAGIC (Z.lnot 1)).
Definition is_free (block : Z) : M mem bool := w ← load32 block; mret (negb (Z.land w 1 =? 0)).
Definition mark_free (block : Z) : M mem unit := w ← load32 block; store32 block (Z.lor w 1).
Definition mark_used (block : Z) : M mem unit := w ← load32 block; store32 block (Z.land w (Z.lnot 1)).

Definition get_size (block : Z) : M mem Z := load32 (u32 (block + 4)).
Definition set_size (block size : Z) : M mem unit := store32 (u32 (block + 4)) size.

Definition get_footer (block : Z) : M mem Z := s ← get_size block; mret (u32 (block + s - FOOTER_SIZE)).
Definition get_left_footer (block : Z) : Z := u32 (block - FOOTER_SIZE).
Definition get_next_block (block : Z) : M mem Z := s ← get_size block; mret (u32 (block + s)).
Definition footer_header (footer : Z) : M mem Z := load32 (u32 (footer + 4)).
Definition set_footer_header (footer block : Z) : M mem unit := store32 (u32 (footer + 4)) block.

Definition get_block_size (size : Z) : Z :=
  let s := rounded_size (size + USER_PTR_OFFSET + FOOTER_SIZE) in
  if s <? MIN_BLOCK_SIZE then MIN_BLOCK_SIZE else s.

(** ** The callbacks of the tree *)

(** [struct alloc_args]; a null pointer is [None]. *)
Record alloc_args : Type := AllocArgs { alignment : Z; address : Z }.

(** [while (offset && offset < MIN_BLOCK_SIZE) offset += alignment;] *)
Fixpoint skip_offset (fuel : nat) (alignment offset : Z) : Z :=
  match fuel with
  | O => offset
  | S fuel =>
      if negb (offset =? 0) && (offset <? MIN_BLOCK_SIZE) then
        skip_offset fuel alignment (u32 (offset + alignment))
      else offset
  end.

Definition best_offset (alignment user : Z) : Z :=
  skip_offset 28 alignment ((alignment - user mod alignment) mod alignment).

Definition compare (node data : Z) (args : option alloc_args) : M mem Z :=
  d ← node_data node;
  if d <? data then mret (-1)
  else
    let a := from_option alignment 0 args in
    if negb (a =? 0) then
      let offset := best_offset a (rbnode_to_user node) in
      if u32 (d - offset) <? data then mret (-1) else mret 0
    else if data <? d then mret 1 else mret 0.

Definition select_dup (node : Z) (args : option alloc_args) : M mem Z :=
  if node =? 0 then mret 0
  else
    let a := from_option address 0 args in
    if negb (a =? 0) && negb (node =? a) then mret 0 else mret 1.

(** ** The allocator *)

Record allocator_t : Type := Allocator {
  mem_tree : rb_tree;
  start_address : Z;
  end_address : Z;
  min_size : Z;
  max_size : Z;
  page_dir : Z;
  supervisor : Z;
  readonly : Z;
  mem_used_ : Z
}.

Record heap : Type := Heap { hmem : mem; al : allocator_t; hpg : pg }.

Definition with_tree (t : rb_tree) (a : allocator_t) : allocator_t :=
  Allocator t (start_address a) (end_address a) (min_size a) (max_size a) (page_dir a)
    (supervisor a) (readonly a) (mem_used_ a).
Definition with_end (e : Z) (a : allocator_t) : allocator_t :=
  Allocator (mem_tree a) (start_address a) e (min_size a) (max_size a) (page_dir a)
    (supervisor a) (readonly a) (mem_used_ a).
Definition with_used (u : Z) (a : allocator_t) : allocator_t :=
  Allocator (mem_tree a) (start_address a) (end_address a) (min_size a) (max_size a) (page_dir a)
    (supervisor a) (readonly a) u.

Definition on_mem {A} (c : M mem A) : M heap A := zoom hmem (fun m h => Heap m (al h) (hpg h)) c.
Definition on_tables {A} (c : M pg A) : M heap A := zoom hpg (fun p h => Heap (hmem h) (al h) p) c.
Definition set_end (e : Z) : M heap unit := modify (fun h => Heap (hmem h) (with_end e (al h)) (hpg h)).
Definition add_mem_used (d : Z) : M heap unit :=
  modify (fun h => Heap (hmem h) (with_used (u32 (mem_used_ (al h) + d)) (al h)) (hpg h)).

Section allocator.
(** kmalloc_ap as get_page calls it for a page table that is missing, and what
    the frame behind a new page holds. *)
Variable table_ap : Z -> M pg (Z * Z).
Variable frame_data : Z -> mem -> mem.
(** Where the compiler puts the local variable [head] of the tree operations. *)
Variable head : Z.
(** Iterations of the tree operations. *)
Variable tree_fuel : nat.

Definition tree_insert (node : Z) (args : option alloc_args) : M heap Z := fun h =>
  match insert_rbnode compare head tree_fuel (mem_tree (al h)) node args (hmem h) with
  | Ok ((r, t), m) => Ok (r, Heap m (with_tree t (al h)) (hpg h))
  | Err e => Err e
  end.

Definition tree_remove (data : Z) (args : option alloc_args) : M heap Z := fun h =>
  match remove_rbnode compare select_dup head tree_fuel (mem_tree (al h)) data args (hmem h) with
  | Ok ((r, t), m) => Ok (r, Heap m (with_tree t (al h)) (hpg h))
  | Err e => Err e
  end.

(** Address translation: the page of [a] is accessible when the current
    directory has it. *)
Definition look_up_page (a : Z) : M heap unit := modify (fun h =>
  let m := hmem h in
  Heap (if visible (hpg h) (current_directory (hpg h)) a
        then if page_present m a then m else map_page_at a (frame_data a m)
        else unmap_page_at a m) (al h) (hpg h)).

(** [while (allocator->end_address < new_end_address)]; [n] iterations are left. *)
Fixpoint expand_loop (n : nat) : M heap unit :=
  match n with
  | O => mret tt
  | S n =>
      e ← gets (fun h => end_address (al h));
      a ← gets al;
      page ← on_tables (get_page table_ap e 1 (page_dir a));
      on_tables (alloc_page page (if supervisor a =? 0 then 0 else 1) (if readonly a =? 0 then 1 else 0));;
      look_up_page e;;
      set_end (u32 (e + FRAME_SIZE));;
      expand_loop n
  end.

Definition round_to_frame (a : Z) : Z :=
  if negb (a mod FRAME_SIZE =? 0) then u32 (a - a mod FRAME_SIZE + FRAME_SIZE) else a.

Definition expand (new_end_address : Z) : M heap unit :=
  a ← gets al;
  if new_end_address <=? end_address a then mret tt
  else
    let e := round_to_frame new_end_address in
    if u32 (start_address a + max_size a) <? e then mret tt
    else expand_loop (Z.to_nat ((e - end_address a + FRAME_SIZE - 1) / FRAME_SIZE)).

Fixpoint contract_loop (n : nat) : M heap unit :=
  match n with
  | O => mret tt
  | S n =>
      e ← gets (fun h => end_address (al h));
      a ← gets al;
      page ← on_tables (get_page table_ap (u32 (e - FRAME_SIZE)) 0 (page_dir a));
      on_tables (free_page page);;
      look_up_page (u32 (e - FRAME_SIZE));;
      set_end (u32 (e - FRAME_SIZE));;
      contract_loop n
  end.

Definition contract (new_end_address : Z) : M heap Z :=
  a ← gets al;
  if end_address a <=? new_end_address then mret 0
  else
    let e := round_to_frame new_end_address in
    let e := if u32 (e - start_address a) <? min_size a then u32 (start_address a + min_size a) else e in
    contract_loop (Z.to_nat ((end_address a - e + FRAME_SIZE - 1) / FRAME_SIZE));;
    gets (fun h => end_address (al h)).

(** The tests that a neighbour is a free block of the heap. *)
Definition left_is_free (footer : Z) : M heap bool :=
  start ← gets (fun h => start_address (al h));
  on_mem
    (h ← footer_header footer;
     andM (mret (start <=? h)) (andM (check_magic footer) (andM (check_magic h) (is_free h)))).

Definition right_is_free (neighbour : Z) : M heap bool :=
  e ← gets (fun h => end_address (al h));
  on_mem
    (s ← get_size neighbour;
     andM (mret (u32 (neighbour + s) <=? e))
       (andM (check_magic neighbour)
          (andM (f ← get_footer neighbour; check_magic f) (is_free neighbour)))).

(** The block made of the space that an expansion added, merged with the free
    block before it; false when that block is not in the tree. *)
Definition add_hole (old_end_address : Z) : M heap bool :=
  e ← gets (fun h => end_address (al h));
  let hole := old_end_address in
  hole_footer ←
    on_mem
      (set_size hole (u32 (e - old_end_address));;
       set_magic hole;;
       f ← get_footer hole;
       set_footer_header f hole;;
       set_magic f;;
       mret f);
  let left_footer := get_left_footer old_end_address in
  merge ← left_is_free left_footer;
  if merge : bool then
    left ← on_mem (footer_header left_footer);
    size ← on_mem (get_size left);
    left_node ← tree_remove size (Some (AllocArgs 0 (block_to_rbnode left)));
    if left_node =? 0 then mret false
    else
      let left_block := rbnode_to_block left_node in
      on_mem
        (ls ← get_size left_block;
         hs ← get_size hole;
         set_size left_block (u32 (ls + hs));;
         set_footer_header hole_footer left_block;;
         mark_free left_block);;
      tree_insert left_node None;;
      mret true
  else
    on_mem (mark_free hole);;
    tree_insert (block_to_rbnode hole) None;;
    mret true.

(** [while (offset < MIN_BLOCK_SIZE) offset += alignment;] *)
Fixpoint grow_offset (fuel : nat) (alignment offset : Z) : Z :=
  match fuel with
  | O => offset
  | S fuel => if offset <? MIN_BLOCK_SIZE then grow_offset fuel alignment (u32 (offset + alignment)) else offset
  end.

(** "align block if required": the block that is used from now on. *)
Definition align_block (block alignment : Z) : M heap Z :=
  let user := block_to_user block in
  if negb (user mod alignment =? 0) then
    let offset := grow_offset 28 alignment (alignment - user mod alignment) in
    let new_block := u32 (block + offset) in
    on_mem
      (s ← get_size block;
       set_size new_block (u32 (s - offset));;
       f ← get_footer new_block;
       set_footer_header f new_block;;
       set_magic f);;
    assert (MIN_BLOCK_SIZE <=? offset);;
    on_mem
      (set_magic block;;
       set_size block offset;;
       f ← get_footer block;
       set_footer_header f block;;
       set_magic f;;
       mark_free block);;
    tree_insert (block_to_rbnode block) None;;
    mret new_block
  else mret block.

(** "fragment node if necessary" *)
Definition fragment_block (block requested_size : Z) : M heap unit :=
  block_size ← on_mem (get_size block);
  let frag_size := u32 (block_size - requested_size) in
  if (0 <? frag_size) && (MIN_BLOCK_SIZE <=? frag_size) then
    next_block ←
      on_mem
        (set_size block requested_size;;
         set_magic block;;
         f ← get_footer block;
         set_footer_header f block;;
         set_magic f;;
         next_block ← get_next_block block;
         set_size next_block frag_size;;
         set_magic next_block;;
         f ← get_footer next_block;
         set_footer_header f next_block;;
         set_magic f;;
         mark_free next_block;;
         mret next_block);
    tree_insert (block_to_rbnode next_block) None;;
    mret tt
  else mret tt.

Fixpoint alloc (fuel : nat) (size alignment : Z) : M heap Z :=
  match fuel with
  | O => throw Hang
  | S fuel =>
      let requested_size := get_block_size size in
      let alignment := if alignment =? 0 then 1 else alignment in
      node ← tree_remove requested_size (Some (AllocArgs alignment 0));
      if node =? 0 then
        old_end_address ← gets (fun h => end_address (al h));
        expand (u32 (old_end_address + requested_size));;
        ok ← add_hole old_end_address;
        if ok : bool then alloc fuel size alignment else mret 0
      else
        block ← align_block (rbnode_to_block node) alignment;
        fragment_block block requested_size;;
        on_mem (mark_used block);;
        s ← on_mem (get_size block);
        add_mem_used s;;
        mret (block_to_user block)
  end.

(** "right neighbour merge"; false when the neighbour is not in the tree. *)
Definition merge_right (block : Z) : M heap bool :=
  neighbour ← on_mem (get_next_block block);
  merge ← right_is_free neighbour;
  if merge : bool then
    s ← on_mem (get_size neighbour);
    r ← tree_remove s (Some (AllocArgs 0 (block_to_rbnode neighbour)));
    if r =? 0 then mret false
    else
      on_mem
        (bs ← get_size block;
         ns ← get_size neighbour;
         set_size block (u32 (bs + ns));;
         mark_free block;;
         f ← get_footer block;
         set_footer_header f block);;
      mret true
  else mret true.

(** "left neighbour merge": the merged block, 0 when the neighbour is not in
    the tree. *)
Definition merge_left (block : Z) : M heap Z :=
  let footer := get_left_footer block in
  merge ← left_is_free footer;
  if merge : bool then
    neighbour ← on_mem (footer_header footer);
    s ← on_mem (get_size neighbour);
    r ← tree_remove s (Some (AllocArgs 0 (block_to_rbnode neighbour)));
    if r =? 0 then mret 0
    else
      on_mem
        (ns ← get_size neighbour;
         bs ← get_size block;
         set_size neighbour (u32 (ns + bs));;
         mark_free neighbour;;
         f ← get_footer neighbour;
         set_footer_header f neighbour);;
      mret neighbour
  else mret block.

(** The contraction at the end of free: is the block to be inserted? *)
Definition release_end (block : Z) : M heap bool :=
  f ← on_mem (get_footer block);
  a ← gets al;
  if (u32 (f + FOOTER_SIZE) =? end_address a) && (min_size a <? u32 (end_address a - start_address a)) then
    block_size ← on_mem (get_size block);
    new_end ← contract block;
    let space_removed := u32 (end_address a - new_end) in
    if 0 <? u32 (block_size - space_removed) then
      on_mem
        (set_size block (u32 (block_size - space_removed));;
         mark_free block;;
         f ← get_footer block;
         set_magic f;;
         set_footer_header f block);;
      mret true
    else mret false
  else mret true.

Definition free (p : Z) : M heap unit :=
  if p =? 0 then mret tt
  else
    let block := user_to_block p in
    ok ← on_mem (check_magic block);
    assert ok;;
    fr ← on_mem (is_free block);
    if fr : bool then mret tt
    else
      on_mem (mark_free block);;
      ok ← on_mem (f ← get_footer block; check_magic f);
      assert ok;;
      s ← on_mem (get_size block);
      add_mem_used (- s);;
      ok ← merge_right block;
      if ok : bool then
        block ← merge_left block;
        if block =? 0 then mret tt
        else
          insert ← release_end block;
          if insert : bool then tree_insert (block_to_rbnode block) None;; mret tt
          else mret tt
      else mret tt.

(** create_mem_allocator: the fields, then the first free block. The tree
    counters keep what the memory at [start] held. *)
Definition create_mem_allocator (start end_ min max sup ro dir : Z) : M heap Z :=
  if negb (start mod FRAME_SIZE =? 0) || negb (end_ mod FRAME_SIZE =? 0) then mret 0
  else
    let s := u32 (start + ALLOCATOR_SIZE) in
    let s := if negb (s mod MIN_BLOCK_SIZE =? 0) then u32 (s - s mod MIN_BLOCK_SIZE + MIN_BLOCK_SIZE) else s in
    modify (fun h => Heap (hmem h)
      (Allocator (init_rbtree (mem_tree (al h))) s end_ min max dir sup ro 0) (hpg h));;
    on_mem
      (set_size s (u32 (end_ - s));;
       set_magic s;;
       f ← get_footer s;
       set_footer_header f s;;
       set_magic f;;
       mark_free s);;
    tree_insert (block_to_rbnode s) None;;
    mret start.

Definition mem_used : M heap Z := gets (fun h => mem_used_ (al h)).
Definition mem_free : M heap Z :=
  gets (fun h => u32 (u32 (end_address (al h) - start_address (al h)) - mem_used_ (al h))).
End allocator.
