(* ===== verification/AllocBase.v ===== *)
(** The heap allocator: its callbacks as an instance of the interface of the
    tree, block sizes, the layout of the heap and its invariant, and the writes
    of headers and footers. *)

From S2P Require Import Prelude Memory Frames RbTree RbHeap RbModel RbRep RbInsert RbSpec RbRemove RbUnlink MemAlloc.

(** ** The callbacks *)

(** What compare returns for a node of size [d]. *)
Definition compare_fn (n d k : Z) (args : option alloc_args) : Z :=
  if d <? k then -1
  else
    let a := from_option alignment 0 args in
    if negb (a =? 0) then
      if u32 (d - best_offset a (rbnode_to_user n)) <? k then -1 else 0
    else if k <? d then 1 else 0.

#[export] Instance alloc_comparator : Comparator compare compare_fn.
Proof.
  intros H n v k args Hn. unfold compare. eapply runs_bind; [by apply runs_node_data |].
  unfold compare_fn. cbv zeta. repeat (case_match; try apply runs_ret).
Qed.

(** Without an alignment the tree is searched by size. *)
Lemma alloc_key_order args : from_option alignment 0 args = 0 -> KeyOrder compare_fn args.
Proof.
  intros no_alignment. split; intros n d k; unfold compare_fn; rewrite no_alignment; simpl.
  - destruct (Z.ltb_spec d k), (Z.ltb_spec k d); try done; lia.
  - destruct (Z.ltb_spec d k), (Z.ltb_spec k d), (Z.eqb_spec d k); try done; lia.
Qed.

#[export] Instance key_order_none : KeyOrder compare_fn None.
Proof. by apply alloc_key_order. Qed.

#[export] Instance key_order_address a : KeyOrder compare_fn (Some (AllocArgs 0 a)).
Proof. by apply alloc_key_order. Qed.

(** The loop that looks for the first aligned place that leaves room for a
    block: 28 iterations are enough for every alignment. *)
Lemma min_block_size : MIN_BLOCK_SIZE = 28.
Proof. reflexivity. Qed.

Lemma skip_offset_done fuel alignment offset :
  0 < alignment -> alignment + 28 <= 2 ^ 32 -> 0 < offset < 2 ^ 32 -> 28 - offset <= Z.of_nat fuel ->
  let r := skip_offset fuel alignment offset in
  28 <= r <= Z.max offset (27 + alignment) /\ r mod alignment = offset mod alignment.
Proof.
  intros Ha Hmax. revert offset. induction fuel as [|fuel IH]; intros offset Ho Hf; cbn [skip_offset].
  - split; [lia | done].
  - rewrite min_block_size. replace (offset =? 0) with false by zbool. cbn [negb andb].
    destruct (Z.ltb_spec offset 28) as [Hlt|Hge]; [| split; [lia | done]].
    rewrite u32_small by lia. destruct (IH (offset + alignment)) as [R1 R2]; [lia | lia |].
    split; [lia |]. rewrite R2. rewrite <- (Z_mod_plus_full offset 1 alignment). f_equal. lia.
Qed.

(** The first place at or after [user] that is aligned: either [user] itself,
    or one that leaves room for a block before it. *)
Lemma best_offset_ok alignment user :
  0 < alignment -> alignment + 28 <= 2 ^ 32 ->
  let r := best_offset alignment user in
  (r = 0 \/ 28 <= r < alignment + 28) /\ (user + r) mod alignment = 0.
Proof.
  intros Ha Hmax. unfold best_offset. pose proof (Z.mod_pos_bound user alignment Ha) as Hu.
  set (o := (alignment - user mod alignment) mod alignment).
  assert (Ho : 0 <= o < alignment) by (apply Z.mod_pos_bound; lia).
  assert (Hz : (user + o) mod alignment = 0).
  { unfold o. rewrite Zplus_mod_idemp_r.
    replace (user + (alignment - user mod alignment)) with ((user - user mod alignment) + 1 * alignment) by lia.
    rewrite Z_mod_plus_full, Zminus_mod_idemp_r, Z.sub_diag. apply Z.mod_0_l. lia. }
  destruct (decide (o = 0)) as [E|E].
  - rewrite E in *. split; [by left |]. done.
  - destruct (skip_offset_done 28 alignment o) as [R1 R2]; [done | done | lia | lia |].
    split; [lia |]. rewrite Zplus_mod, R2, <- Zplus_mod. exact Hz.
Qed.

(** ** Sizes *)

Lemma rounded_size_ok s : 0 <= s -> s + 3 < 2 ^ 32 -> s <= rounded_size s < s + 4 /\ rounded_size s mod 4 = 0.
Proof.
  intros H0 H1. unfold rounded_size. rewrite (u32_small (s + 4 - 1)) by lia.
  rewrite u32_small by (Z.div_mod_to_equations; lia). split; Z.div_mod_to_equations; lia.
Qed.

Lemma get_block_size_ok size :
  0 <= size -> size + 19 < 2 ^ 32 ->
  let s := get_block_size size in
  28 <= s /\ s mod 4 = 0 /\ size + USER_PTR_OFFSET + FOOTER_SIZE <= s /\ s < Z.max 29 (size + 20).
Proof.
  intros H0 H1. unfold get_block_size. unfold USER_PTR_OFFSET, FOOTER_SIZE.
  destruct (rounded_size_ok (size + (4 + 4) + 8)) as [R1 R2]; [lia | lia |]. cbv zeta. rewrite min_block_size.
  destruct (Z.ltb_spec (rounded_size (size + (4 + 4) + 8)) 28); split_and!; try done; lia.
Qed.

(** ** The layout of the heap *)

Record block : Type := Block { b_addr : Z; b_size : Z; b_free : bool }.

(** The blocks follow one another from [a] to [e]. *)
Fixpoint tiled (a e : Z) (bl : list block) : Prop :=
  match bl with
  | [] => a = e
  | b :: bl => b_addr b = a /\ tiled (a + b_size b) e bl
  end.

(** The header and the footer of a block. *)
Record block_ok (m : mem) (b : block) : Prop := {
  bk_size : 28 <= b_size b;
  bk_align : b_addr b mod 4 = 0 /\ b_size b mod 4 = 0;
  bk_magic : Z.land (word_at m (b_addr b)) (Z.lnot 1) = Z.land MAGIC (Z.lnot 1);
  bk_free : negb (Z.land (word_at m (b_addr b)) 1 =? 0) = b_free b;
  bk_data : word_at m (b_addr b + 4) = b_size b;
  bk_footer : Z.land (word_at m (b_addr b + b_size b - 8)) (Z.lnot 1) = Z.land MAGIC (Z.lnot 1);
  bk_header : word_at m (b_addr b + b_size b - 4) = b_addr b
}.

Definition used_size (bl : list block) : Z :=
  foldr (fun b n => (if b_free b then 0 else b_size b) + n) 0 bl.

(** The state of the heap: the blocks [bl] fill the space between its bounds,
    and the nodes of the free ones, but for the addresses in [X] that an
    operation has taken out, are the nodes of the tree. *)
Record heap_inv (h : heap) (bl : list block) (t : tree) (X : list Z) : Prop := {
  hi_tiled : tiled (start_address (al h)) (end_address (al h)) bl;
  hi_range : 0 < start_address (al h) /\ end_address (al h) < 2 ^ 32;
  hi_pages : forall a, start_address (al h) <= a < end_address (al h) -> page_present (hmem h) a = true;
  hi_blocks : Forall (block_ok (hmem h)) bl;
  hi_tree : holds (hmem h) (mem_tree (al h)) t;
  hi_rb : rb_ok (mem_tree (al h)) t;
  hi_nodes : forall n, n ∈ taddrs t <-> exists b, b ∈ bl /\ b_free b = true /\ (b_addr b ∉ X) /\ n = b_addr b + 4
}.

Record heap_ok (h : heap) (bl : list block) (t : tree) : Prop := {
  ho_inv : heap_inv h bl t [];
  ho_used : mem_used_ (al h) = u32 (used_size bl)
}.

(** ** Masks of the magic word *)
(** The tag bit and the rest of a magic word. *)
Lemma lor_mask x w : Z.land (Z.lor (Z.land x (Z.lnot 1)) (Z.land w 1)) (Z.lnot 1) = Z.land x (Z.lnot 1).
Proof.
  apply Z.bits_inj'. intros i Hi. rewrite !Z.land_spec, Z.lor_spec, !Z.land_spec, Z.lnot_spec by lia.
  destruct (Z.testbit x i), (Z.testbit w i), (Z.testbit 1 i); done.
Qed.

Lemma lor_one_mask x : Z.land (Z.lor x 1) (Z.lnot 1) = Z.land x (Z.lnot 1).
Proof.
  apply Z.bits_inj'. intros i Hi. rewrite !Z.land_spec, Z.lor_spec, Z.lnot_spec by lia.
  destruct (Z.testbit x i), (Z.testbit 1 i); done.
Qed.

Lemma lor_one_bit x : Z.land (Z.lor x 1) 1 = 1.
Proof.
  apply Z.bits_inj'. intros i Hi. rewrite Z.land_spec, Z.lor_spec. by destruct (Z.testbit x i), (Z.testbit 1 i).
Qed.

Lemma magic_word_range w : 0 <= Z.lor (Z.land MAGIC (Z.lnot 1)) (Z.land w 1) < 2 ^ 32.
Proof.
  rewrite land_1. pose proof (Z.mod_pos_bound w 2 ltac:(lia)).
  assert (w mod 2 = 0 \/ w mod 2 = 1) as [-> | ->] by lia; vm_compute; split; congruence.
Qed.

Lemma lor_one_range x : 0 <= x < 2 ^ 32 -> 0 <= Z.lor x 1 < 2 ^ 32.
Proof. intros Hx. apply (set_range x 0 Hx). lia. Qed.


(** ** Headers and footers *)

Lemma region_word m a n b :
  (forall i, 0 <= i < n -> page_present m (a + i) = true) -> a <= b -> b + 4 <= a + n -> word_present m b = true.
Proof.
  intros P H1 H2. unfold word_present. replace b with (a + (b - a)) by lia. rewrite P by lia.
  replace (a + (b - a) + 3) with (a + (b - a + 3)) by lia. by rewrite P by lia.
Qed.
(** The memories differ at most between [lo] and [hi]. *)
Definition same_but (m m' : mem) (lo hi : Z) : Prop :=
  m_pages m' = m_pages m /\ forall b, b < lo \/ hi <= b -> byte_at m' b = byte_at m b.

Definition region_present (m : mem) (a n : Z) : Prop := forall i, 0 <= i < n -> page_present m (a + i) = true.

Lemma same_but_word m m' lo hi b : same_but m m' lo hi -> b + 4 <= lo \/ hi <= b -> word_at m' b = word_at m b.
Proof. intros [_ S] Hb. unfold word_at. by rewrite !S by lia. Qed.

Lemma same_but_trans m m1 m2 lo hi : same_but m m1 lo hi -> same_but m1 m2 lo hi -> same_but m m2 lo hi.
Proof. intros [P1 S1] [P2 S2]. split; [congruence |]. intros b Hb. by rewrite S2, S1. Qed.

Lemma same_but_mono m m' lo hi lo' hi' : same_but m m' lo hi -> lo' <= lo -> hi <= hi' -> same_but m m' lo' hi'.
Proof. intros [P S] L R. split; [done |]. intros b Hb. apply S. lia. Qed.

Lemma same_but_present m m' lo hi a n : same_but m m' lo hi -> region_present m a n -> region_present m' a n.
Proof. intros [P _] R i Hi. unfold page_present. rewrite P. by apply R. Qed.

Definition magic_ok (m : mem) (a : Z) : Prop := Z.land (word_at m a) (Z.lnot 1) = Z.land MAGIC (Z.lnot 1).
Definition flag (m : mem) (a : Z) : bool := negb (Z.land (word_at m a) 1 =? 0).

Lemma lor_bit x w : Z.land (Z.lor (Z.land x (Z.lnot 1)) (Z.land w 1)) 1 = Z.land w 1.
Proof.
  apply Z.bits_inj'. intros i Hi. rewrite !Z.land_spec, Z.lor_spec, !Z.land_spec, Z.lnot_spec by lia.
  destruct (Z.testbit x i), (Z.testbit w i), (Z.testbit 1 i); done.
Qed.

(** The single writes. *)
Section writes.
Context (m : mem) (a : Z).
Hypothesis present : word_present m a = true.

Lemma write_word w :
  0 <= w < 2 ^ 32 -> exists m', store32 a w m = Ok (tt, m') /\ same_but m m' a (a + 4) /\ word_at m' a = w.
Proof.
  intros Hw. exists (set_word a w m). split_and!; [by apply store32_ok | split; [done |] |].
  - intros b Hb. apply byte_at_set_word_other. lia.
  - rewrite word_at_set_same. by apply u32_small.
Qed.

Lemma set_magic_runs :
  exists m', set_magic a m = Ok (tt, m') /\ same_but m m' a (a + 4) /\ magic_ok m' a /\ flag m' a = flag m a.
Proof.
  destruct (write_word (Z.lor (Z.land MAGIC (Z.lnot 1)) (Z.land (word_at m a) 1)) (magic_word_range _)) as (m' & E & S & W).
  exists m'. split_and!; [| done | |].
  - unfold set_magic. by rewrite (bind_ok _ _ _ _ _ (load32_ok _ _ present)).
  - unfold magic_ok. rewrite W. apply lor_mask.
  - unfold flag. rewrite W. do 2 f_equal. apply lor_bit.
Qed.

Lemma mark_free_runs :
  exists m', mark_free a m = Ok (tt, m') /\ same_but m m' a (a + 4) /\ (magic_ok m a -> magic_ok m' a) /\ flag m' a = true.
Proof.
  destruct (write_word (Z.lor (word_at m a) 1)) as (m' & E & S & W); [apply lor_one_range, word_at_range |].
  exists m'. split_and!; [| done | |].
  - unfold mark_free. by rewrite (bind_ok _ _ _ _ _ (load32_ok _ _ present)).
  - unfold magic_ok. rewrite W. by rewrite lor_one_mask.
  - unfold flag. by rewrite W, lor_one_bit.
Qed.

Lemma mark_used_runs :
  exists m', mark_used a m = Ok (tt, m') /\ same_but m m' a (a + 4) /\ (magic_ok m a -> magic_ok m' a) /\ flag m' a = false.
Proof.
  pose proof (word_at_range m a) as R. set (w := word_at m a) in *.
  assert (E0 : Z.land (Z.land w (Z.lnot 1)) 1 = 0).
  { apply Z.bits_inj'. intros i Hi. rewrite !Z.land_spec, Z.lnot_spec, Z.bits_0 by lia.
    by destruct (Z.testbit w i), (Z.testbit 1 i). }
  assert (Rg : 0 <= Z.land w (Z.lnot 1) < 2 ^ 32).
  { rewrite land_lnot_1. Z.div_mod_to_equations. lia. }
  destruct (write_word _ Rg) as (m' & E & S & W). exists m'. split_and!; [| done | |].
  - unfold mark_used. by rewrite (bind_ok _ _ _ _ _ (load32_ok _ _ present)).
  - unfold magic_ok. rewrite W. fold w. intros <-. rewrite <- Z.land_assoc, Z.land_diag. done.
  - unfold flag. by rewrite W, E0.
Qed.
End writes.

(** Header and footer of the block at [s], written in the order of the code. *)
Lemma stamp_runs m s size :
  region_present m s size -> 0 < s -> s + size <= 2 ^ 32 -> 28 <= size ->
  exists m', (set_size s size;; set_magic s;; f ← get_footer s; set_footer_header f s;; set_magic f) m = Ok (tt, m') /\
    same_but m m' s (s + size) /\ magic_ok m' s /\ flag m' s = flag m s /\ word_at m' (s + 4) = size /\
    magic_ok m' (s + size - 8) /\ word_at m' (s + size - 4) = s.
Proof.
  intros P Hs He Hsz.
  assert (W : forall m' b, same_but m m' s (s + size) -> s <= b -> b + 4 <= s + size -> word_present m' b = true).
  { intros m' b S H1 H2. apply (region_word m' s size b); [by eapply same_but_present | done | done]. }
  assert (S0 : same_but m m s (s + size)) by done.
  unfold set_size, get_footer, get_size, set_footer_header, FOOTER_SIZE. rewrite (u32_small (s + 4)) by lia.
  destruct (write_word m (s + 4) (W m (s + 4) S0 ltac:(lia) ltac:(lia)) size ltac:(lia)) as (m1 & E1 & S1 & W1).
  assert (S1' := same_but_mono _ _ _ _ s (s + size) S1 ltac:(lia) ltac:(lia)).
  destruct (set_magic_runs m1 s (W m1 s S1' ltac:(lia) ltac:(lia))) as (m2 & E2 & S2 & M2 & F2).
  assert (S2' := same_but_trans _ _ _ _ _ S1' (same_but_mono _ _ _ _ s (s + size) S2 ltac:(lia) ltac:(lia))).
  assert (Sz : word_at m2 (s + 4) = size) by (rewrite (same_but_word _ _ _ _ _ S2) by lia; done).
  destruct (write_word m2 (s + size - 4) (W m2 (s + size - 4) S2' ltac:(lia) ltac:(lia)) s ltac:(lia)) as (m3 & E3 & S3 & W3).
  assert (S3' := same_but_trans _ _ _ _ _ S2' (same_but_mono _ _ _ _ s (s + size) S3 ltac:(lia) ltac:(lia))).
  destruct (set_magic_runs m3 (s + size - 8) (W m3 (s + size - 8) S3' ltac:(lia) ltac:(lia))) as (m4 & E4 & S4 & M4 & F4).
  assert (S4' := same_but_trans _ _ _ _ _ S3' (same_but_mono _ _ _ _ s (s + size) S4 ltac:(lia) ltac:(lia))).
  exists m4. split_and!; [| done | | | | done |].
  - rewrite (bind_ok _ _ _ _ _ E1), (bind_ok _ _ _ _ _ E2).
    erewrite bind_ok.
    2:{ rewrite (bind_ok _ _ _ _ _ (load32_ok _ _ (W m2 (s + 4) S2' ltac:(lia) ltac:(lia)))). apply ret_ok. }
    rewrite Sz, (u32_small (s + size - 8)) by lia. replace (s + size - 8 + 4) with (s + size - 4) by lia.
    rewrite (u32_small (s + size - 4)) by lia. by rewrite (bind_ok _ _ _ _ _ E3).
  - unfold magic_ok. rewrite (same_but_word _ _ _ _ _ S4), (same_but_word _ _ _ _ _ S3) by lia. done.
  - unfold flag. rewrite (same_but_word _ _ _ _ _ S4), (same_but_word _ _ _ _ _ S3) by lia.
    change (flag m2 s = flag m s). rewrite F2. unfold flag. by rewrite (same_but_word _ _ _ _ _ S1) by lia.
  - rewrite (same_but_word _ _ _ _ _ S4), (same_but_word _ _ _ _ _ S3) by lia. done.
  - rewrite (same_but_word _ _ _ _ _ S4) by lia. done.
Qed.

(** A new free block. *)
Lemma stamp_free_runs m s size :
  region_present m s size -> 0 < s -> s + size <= 2 ^ 32 -> 28 <= size -> s mod 4 = 0 -> size mod 4 = 0 ->
  exists m', (set_size s size;; set_magic s;; f ← get_footer s; set_footer_header f s;; set_magic f;; mark_free s) m = Ok (tt, m') /\
    same_but m m' s (s + size) /\ block_ok m' (Block s size true).
Proof.
  intros P Hs He Hsz As Asz. destruct (stamp_runs m s size P Hs He Hsz) as (m1 & E & S & M & F & Sz & Mf & Hd).
  assert (W : word_present m1 s = true) by (apply (region_word m1 s size s); [by eapply same_but_present | lia | lia]).
  destruct (mark_free_runs m1 s W) as (m2 & E2 & S2 & M2 & F2). exists m2. split_and!.
  - revert E. unfold mbind, M_bind. destruct (set_size s size m) as [[u0 n0]|]; [| done].
    destruct (set_magic s n0) as [[u1 n1]|]; [| done]. destruct (get_footer s n1) as [[f n2]|]; [| done].
    destruct (set_footer_header f s n2) as [[u2 n3]|]; [| done]. intros ->. exact E2.
  - eapply same_but_trans; [exact S | eapply same_but_mono; [exact S2 | lia | lia]].
  - split; cbn [b_addr b_size b_free]; [done | done | by apply M2 | exact F2 |..];
      rewrite (same_but_word _ _ _ _ _ S2) by lia; done.
Qed.
