(* ===== verification/AllocTree.v ===== *)
(** The tree of free blocks inside the heap: insertion and removal of a block
    keep the invariant of the heap, and the search for a request finds the best
    fit. *)

From S2P Require Import Prelude Memory RbTree RbHeap RbModel RbRep RbInsert RbSpec RbRemove RbUnlink RbRemoveSpec MemAlloc AllocBase.

(** ** Layout *)

Lemma tiled_app a e l1 l2 : tiled a e (l1 ++ l2) <-> exists c, tiled a c l1 /\ tiled c e l2.
Proof.
  revert a. induction l1 as [|b l1 IH]; intros a; simpl.
  - split; [eauto | by intros (c & -> & ?)].
  - rewrite IH. naive_solver.
Qed.

Definition sized (bl : list block) : Prop := Forall (fun b => 28 <= b_size b) bl.

Lemma blocks_sized m bl : Forall (block_ok m) bl -> sized bl.
Proof. intros F. eapply Forall_impl; [exact F |]. intros b Hb. apply Hb. Qed.

Lemma tiled_le a e bl : tiled a e bl -> sized bl -> a <= e.
Proof.
  revert a. induction bl as [|b bl IH]; intros a; simpl; [lia |]. intros [_ Ti] S.
  apply Forall_cons in S as [Sb S]. specialize (IH _ Ti S). lia.
Qed.

Lemma tiled_in a e bl b : tiled a e bl -> sized bl -> b ∈ bl -> a <= b_addr b /\ b_addr b + b_size b <= e /\ 28 <= b_size b.
Proof.
  revert a. induction bl as [|c bl IH]; intros a; simpl; [by intros _ _ ?%not_elem_of_nil |].
  intros [<- Ti] S. apply Forall_cons in S as [Sc S]. intros [-> | Hb]%elem_of_cons.
  - pose proof (tiled_le _ _ _ Ti S). lia.
  - specialize (IH _ Ti S Hb). lia.
Qed.

Lemma tiled_apart a e bl b c :
  tiled a e bl -> sized bl -> b ∈ bl -> c ∈ bl ->
  b = c \/ b_addr b + b_size b <= b_addr c \/ b_addr c + b_size c <= b_addr b.
Proof.
  revert a. induction bl as [|d bl IH]; intros a; simpl; [by intros _ _ ?%not_elem_of_nil |].
  intros [<- Ti] S. apply Forall_cons in S as [Sd S].
  intros [-> | Hb]%elem_of_cons [-> | Hc]%elem_of_cons; [by left | | |].
  - destruct (tiled_in _ _ _ _ Ti S Hc). lia.
  - destruct (tiled_in _ _ _ _ Ti S Hb). lia.
  - by eapply IH.
Qed.

Lemma tiled_same_addr a e bl b c : tiled a e bl -> sized bl -> b ∈ bl -> c ∈ bl -> b_addr b = b_addr c -> b = c.
Proof.
  intros Ti S Hb Hc E. destruct (tiled_apart _ _ _ _ _ Ti S Hb Hc) as [? | H]; [done |].
  destruct (tiled_in _ _ _ _ Ti S Hb) as (_ & _ & ?). destruct (tiled_in _ _ _ _ Ti S Hc) as (_ & _ & ?). lia.
Qed.

(** ** Memory outside the nodes *)

Lemma untouched_word m m' l b :
  untouched m m' l -> (forall a, a ∈ l -> b + 4 <= a \/ a + 16 <= b) -> word_at m' b = word_at m b.
Proof. intros [_ U] Hb. unfold word_at. rewrite !U; [done |..]; intros a Ha; specialize (Hb a Ha); lia. Qed.

Lemma block_ok_words m m' b :
  word_at m' (b_addr b) = word_at m (b_addr b) -> word_at m' (b_addr b + 4) = word_at m (b_addr b + 4) ->
  word_at m' (b_addr b + b_size b - 8) = word_at m (b_addr b + b_size b - 8) ->
  word_at m' (b_addr b + b_size b - 4) = word_at m (b_addr b + b_size b - 4) -> block_ok m b -> block_ok m' b.
Proof. intros E1 E2 E3 E4 [? ? ? ? ? ? ?]. split; rewrite ?E1, ?E2, ?E3, ?E4; done. Qed.

(** The local variable of the tree operations, on a stack outside the heap. *)
Record stack_ok (head : Z) (h : heap) : Prop := {
  st_node : node_ok (hmem h) head;
  st_apart : head + 16 <= start_address (al h) \/ end_address (al h) <= head
}.

Lemma node_ok_pages m m' a : m_pages m' = m_pages m -> node_ok m a -> node_ok m' a.
Proof. intros E [? ? ? ? ? ? ?]. split; try done; unfold word_present, page_present in *; by rewrite E. Qed.

(** Same bounds and options, another tree. *)
Definition al_tree (a a' : allocator_t) : Prop := exists tr, a' = with_tree tr a.

Section inv.
Context (h : heap) (bl : list block) (t : tree) (X : list Z).
Hypothesis inv : heap_inv h bl t X.
Let m := hmem h.

Lemma inv_sized : sized bl.
Proof. exact (blocks_sized _ _ (hi_blocks _ _ _ _ inv)). Qed.

Lemma inv_in b : b ∈ bl -> start_address (al h) <= b_addr b /\ b_addr b + b_size b <= end_address (al h) /\ 28 <= b_size b.
Proof. apply (tiled_in _ _ _ _ (hi_tiled _ _ _ _ inv) inv_sized). Qed.

Lemma inv_apart b c : b ∈ bl -> c ∈ bl -> b = c \/ b_addr b + b_size b <= b_addr c \/ b_addr c + b_size c <= b_addr b.
Proof. apply (tiled_apart _ _ _ _ _ (hi_tiled _ _ _ _ inv) inv_sized). Qed.

Lemma inv_region b : b ∈ bl -> region_present m (b_addr b) (b_size b).
Proof. intros Hb i Hi. destruct (inv_in b Hb) as (? & ? & ?). apply (hi_pages _ _ _ _ inv). lia. Qed.

Lemma inv_block b : b ∈ bl -> block_ok m b.
Proof. intros Hb. assert (F := hi_blocks _ _ _ _ inv). rewrite Forall_forall in F. by apply F. Qed.

Lemma inv_bounds b : b ∈ bl -> 0 < b_addr b /\ b_addr b + b_size b < 2 ^ 32 /\ b_addr b mod 4 = 0 /\ b_size b mod 4 = 0.
Proof.
  intros Hb. destruct (inv_in b Hb) as (? & ? & ?). destruct (hi_range _ _ _ _ inv).
  destruct (bk_align _ _ (inv_block b Hb)). lia.
Qed.

Lemma inv_node b : b ∈ bl -> node_ok m (b_addr b + 4).
Proof.
  intros Hb. destruct (inv_bounds b Hb) as (? & ? & ? & ?). destruct (inv_in b Hb) as (_ & _ & ?).
  assert (W : forall c, b_addr b <= c -> c + 4 <= b_addr b + b_size b -> word_present m c = true).
  { intros c ? ?. by apply (region_word _ _ _ _ (inv_region b Hb)). }
  split; [lia | Z.div_mod_to_equations; lia | lia |..]; apply W; lia.
Qed.

(** Nodes of blocks lie apart from each other and from the stack. *)
Lemma inv_nodes_apart b c : b ∈ bl -> c ∈ bl -> b_addr b <> b_addr c -> disjoint_nodes (b_addr b + 4) (b_addr c + 4).
Proof.
  intros Hb Hc Ne. destruct (inv_apart b c Hb Hc) as [-> | ?]; [done |].
  destruct (inv_in b Hb) as (_ & _ & ?). destruct (inv_in c Hc) as (_ & _ & ?). unfold disjoint_nodes. lia.
Qed.

Lemma inv_tree_node n : n ∈ taddrs t -> exists b, b ∈ bl /\ b_free b = true /\ (b_addr b ∉ X) /\ n = b_addr b + 4.
Proof. apply (hi_nodes _ _ _ _ inv). Qed.

(** ** Numbers of iterations *)

Lemma depth_length u : (depth u <= length (inorder u))%nat.
Proof. induction u; simpl; [lia |]. rewrite length_app. simpl. lia. Qed.

Lemma dups_length u x : x ∈ inorder u -> (length (inorder u) <= length (taddrs u) /\ length (lb_dups x) < length (taddrs u))%nat.
Proof.
  induction u as [|c l IHl y r IHr]; simpl; [by intros ?%not_elem_of_nil |].
  assert (Ge : forall v, (length (inorder v) <= length (taddrs v))%nat).
  { induction v as [|cv lv IHlv yv rv IHrv]; simpl; [lia |]. rewrite !length_app. simpl. lia. }
  pose proof (Ge l). pose proof (Ge r).
  rewrite elem_of_app, elem_of_cons. intros [Hx | [-> | Hx]]; rewrite !length_app; simpl;
    [destruct (IHl Hx) | | destruct (IHr Hx)]; lia.
Qed.

Lemma inv_count : (length (taddrs t) <= length bl)%nat.
Proof.
  destruct (hi_tree _ _ _ _ inv) as (H & _ & _ & ND & _).
  rewrite <- (length_fmap (fun b => b_addr b + 4) bl). apply submseteq_length, NoDup_submseteq; [done |].
  intros n Hn. destruct (inv_tree_node n Hn) as (b & Hb & _ & _ & ->). apply list_elem_of_fmap. eauto.
Qed.

Lemma inv_depth : (depth t <= length bl)%nat.
Proof.
  pose proof inv_count. pose proof (depth_length t). destruct (inorder t) as [|x l] eqn:E; [simpl in *; lia |].
  destruct (dups_length t x) as [? _]; [rewrite E; set_solver |]. rewrite E in *. lia.
Qed.

Lemma inv_enough fuel : (length bl < fuel)%nat -> enough t fuel.
Proof.
  intros Hf. pose proof inv_depth. pose proof inv_count. split; [lia |]. intros x Hx.
  destruct (dups_length t x Hx). lia.
Qed.
End inv.

Section inv_stack.
Context (head : Z) (h : heap) (bl : list block) (t : tree) (X : list Z).
Hypothesis inv : heap_inv h bl t X.
Hypothesis stack : stack_ok head h.
Let m := hmem h.

Lemma inv_stack_apart b : b ∈ bl -> disjoint_nodes head (b_addr b + 4).
Proof.
  intros Hb. destruct (inv_in _ _ _ _ inv b Hb) as (? & ? & ?). destruct (st_apart _ _ stack); unfold disjoint_nodes; lia.
Qed.

(** A change of the tree's nodes that keeps the data words leaves the blocks in order. *)
Lemma inv_blocks_kept m' l :
  untouched m m' (head :: l) ->
  (forall a, a ∈ l -> exists b, b ∈ bl /\ a = b_addr b + 4) -> (forall a, a ∈ l -> word_at m' a = word_at m a) ->
  Forall (block_ok m') bl.
Proof.
  intros U Nl Dl. apply Forall_forall. intros b Hb. destruct (inv_in _ _ _ _ inv b Hb) as (B1 & B2 & B3).
  assert (Out : forall c, b_addr b <= c -> c + 4 <= b_addr b + b_size b -> c + 4 <= b_addr b + 4 \/ b_addr b + 20 <= c ->
    word_at m' c = word_at m c).
  { intros c H1 H2 H3. eapply untouched_word; [exact U |]. intros a [-> | Ha]%elem_of_cons.
    - destruct (st_apart _ _ stack); lia.
    - destruct (Nl a Ha) as (d & Hd & ->). destruct (inv_in _ _ _ _ inv d Hd) as (_ & _ & ?).
      destruct (inv_apart _ _ _ _ inv b d Hb Hd) as [-> | ?]; lia. }
  apply (block_ok_words m); try (apply Out; lia); [| by apply (inv_block _ _ _ _ inv)].
  destruct (decide (b_addr b + 4 ∈ l)) as [Hin|Hin]; [by apply Dl |].
  eapply untouched_word; [exact U |]. intros a [-> | Ha]%elem_of_cons.
  - destruct (st_apart _ _ stack); lia.
  - destruct (Nl a Ha) as (d & Hd & ->). destruct (inv_in _ _ _ _ inv d Hd) as (_ & _ & ?).
    destruct (inv_apart _ _ _ _ inv b d Hb Hd) as [-> | ?]; [done | lia].
Qed.
End inv_stack.

(** The bytes of a block are the same. *)
Definition keeps_block (m m' : mem) (c : block) : Prop :=
  forall i, b_addr c <= i < b_addr c + b_size c -> byte_at m' i = byte_at m i.

Lemma keeps_trans m m1 m2 c : keeps_block m m1 c -> keeps_block m1 m2 c -> keeps_block m m2 c.
Proof. intros K1 K2 i Hi. by rewrite K2, K1. Qed.

(** The nodes of other blocks may change. *)
Lemma inv_keeps head h bl t X m' l c :
  heap_inv h bl t X -> stack_ok head h -> c ∈ bl -> untouched (hmem h) m' (head :: l) ->
  (forall a, a ∈ l -> exists b, b ∈ bl /\ b <> c /\ a = b_addr b + 4) -> keeps_block (hmem h) m' c.
Proof.
  intros I St Hc [_ U] Nl i Hi. destruct (inv_in _ _ _ _ I c Hc) as (? & ? & ?). apply U.
  intros a [-> | Ha]%elem_of_cons; [destruct (st_apart _ _ St); lia |].
  destruct (Nl a Ha) as (b & Hb & Ne & ->). destruct (inv_in _ _ _ _ I b Hb) as (_ & _ & ?).
  destruct (inv_apart _ _ _ _ I b c Hb Hc); [done | lia].
Qed.

(** The memory outside the heap and the stack variable is the same. *)
Definition outside_same (head : Z) (h h' : heap) : Prop :=
  forall i, i < start_address (al h) \/ end_address (al h) <= i -> i < head \/ head + 16 <= i ->
    byte_at (hmem h') i = byte_at (hmem h) i.

(** What a tree operation leaves: the blocks out of the tree are not written. *)
Definition tree_frame (head : Z) (h h' : heap) (bl : list block) (X : list Z) : Prop :=
  m_pages (hmem h') = m_pages (hmem h) /\ (al_tree (al h) (al h') /\ hpg h' = hpg h) /\ outside_same head h h' /\
  forall c, c ∈ bl -> b_free c = false \/ b_addr c ∈ X -> keeps_block (hmem h) (hmem h') c.

Lemma inv_outside head h bl t X m' a' p' l :
  heap_inv h bl t X -> untouched (hmem h) m' (head :: l) -> (forall a, a ∈ l -> exists b, b ∈ bl /\ a = b_addr b + 4) ->
  outside_same head h (Heap m' a' p').
Proof.
  intros I [_ U] Nl i Hi Hh. apply U. intros a [-> | Ha]%elem_of_cons; [done |].
  destruct (Nl a Ha) as (b & Hb & ->). destruct (inv_in _ _ _ _ I b Hb) as (? & ? & ?). lia.
Qed.

Section operations.
Context (head : Z) (fuel : nat) (h : heap) (bl : list block) (t : tree).
Let m := hmem h.

(** The invariant after the tree changed from [t] to [t']. *)
Lemma inv_new_tree X X' tr' m' t' l :
  heap_inv h bl t X -> stack_ok head h -> holds m' tr' t' -> rb_ok tr' t' -> untouched m m' (head :: l) ->
  (forall a, a ∈ l -> exists b, b ∈ bl /\ b_free b = true /\ a = b_addr b + 4) -> (forall a, a ∈ l -> word_at m' a = word_at m a) ->
  (forall n, n ∈ taddrs t' <-> exists b, b ∈ bl /\ b_free b = true /\ (b_addr b ∉ X') /\ n = b_addr b + 4) ->
  heap_inv (Heap m' (with_tree tr' (al h)) (hpg h)) bl t' X'.
Proof.
  intros I St Hm' Ok' U Nl Dl Nodes. split; cbn [al hmem with_tree mem_tree start_address end_address]; try done.
  - apply I.
  - apply I.
  - intros a Ha. unfold page_present. rewrite (proj1 U). by apply (hi_pages _ _ _ _ I).
  - eapply inv_blocks_kept; [exact I | exact St | exact U | | done].
    intros a Ha. destruct (Nl a Ha) as (b & ? & _ & ?). eauto.
Qed.

(** A free block that is not in the tree can be inserted. *)
Lemma inv_can_insert X b :
  heap_inv h bl t (b_addr b :: X) -> stack_ok head h -> b ∈ bl -> can_insert head m (b_addr b + 4) t.
Proof.
  intros I St Hb.
  assert (Nn : forall n, n ∈ taddrs t -> exists c, c ∈ bl /\ b_addr c <> b_addr b /\ n = b_addr c + 4).
  { intros n Hn. destruct (inv_tree_node _ _ _ _ I n Hn) as (c & ? & ? & NXc & ->). apply not_elem_of_cons in NXc as [? ?]. by exists c. }
  split.
  - by apply (inv_node _ _ _ _ I).
  - apply St.
  - by apply disjoint_nodes_sym, (inv_stack_apart head _ _ _ _ I St).
  - intros a Ha. destruct (Nn a Ha) as (c & ? & ? & ->). apply (inv_nodes_apart _ _ _ _ I); done.
  - intros a Ha. destruct (Nn a Ha) as (c & ? & ? & ->). by apply (inv_stack_apart head _ _ _ _ I St).
Qed.

(** The nodes that an insertion touches. *)
Lemma inv_insert_nodes X b a :
  heap_inv h bl t (b_addr b :: X) -> b_addr b ∉ X -> b ∈ bl -> b_free b = true -> a ∈ (b_addr b + 4) :: taddrs t ->
  exists c, c ∈ bl /\ b_free c = true /\ (b_addr c ∉ X) /\ a = b_addr c + 4.
Proof.
  intros I NX Hb Fb [-> | Ha]%elem_of_cons; [by exists b |].
  destruct (inv_tree_node _ _ _ _ I a Ha) as (c & ? & ? & NXc & ->). apply not_elem_of_cons in NXc as [_ ?]. by exists c.
Qed.

(** The nodes of the tree after it. *)
Lemma inv_inserted X b (t' : tree) n :
  heap_inv h bl t (b_addr b :: X) -> b_addr b ∉ X -> b ∈ bl -> b_free b = true -> taddrs t' ≡ₚ (b_addr b + 4) :: taddrs t ->
  n ∈ taddrs t' <-> exists c, c ∈ bl /\ b_free c = true /\ (b_addr c ∉ X) /\ n = b_addr c + 4.
Proof.
  intros I NX Hb Fb Ad. rewrite Ad. split; [by apply inv_insert_nodes |].
  rewrite elem_of_cons, (hi_nodes _ _ _ _ I). intros (c & Hc & Fc & NXc & ->).
  destruct (decide (b_addr c = b_addr b)) as [E|E]; [rewrite E; by left | right].
  exists c. split_and!; try done. apply not_elem_of_cons. done.
Qed.

(** Blocks that are not free, or still out of the tree, are not touched. *)
Lemma inv_insert_keeps X b m' c :
  heap_inv h bl t (b_addr b :: X) -> b_addr b ∉ X -> stack_ok head h -> b ∈ bl -> b_free b = true ->
  untouched m m' (head :: (b_addr b + 4) :: taddrs t) -> c ∈ bl -> b_free c = false \/ b_addr c ∈ X -> keeps_block m m' c.
Proof.
  intros I NX St Hb Fb Un Hc Out. eapply inv_keeps; [exact I | exact St | done | exact Un |].
  intros a Ha. destruct (inv_insert_nodes X b a I NX Hb Fb Ha) as (d & ? & ? & ? & ->). exists d. split_and!; try done. intros ->.
  destruct Out; [congruence | done].
Qed.

Lemma tree_insert_inv X b :
  heap_inv h bl t (b_addr b :: X) -> b_addr b ∉ X -> stack_ok head h -> b ∈ bl -> b_free b = true ->
  (2 * length bl + 1 <= fuel)%nat ->
  exists h' t', tree_insert head fuel (b_addr b + 4) None h = Ok (1, h') /\ heap_inv h' bl t' X /\ tree_frame head h h' bl X.
Proof.
  intros I NX St Hb Fb Hf.
  destruct (insert_correct compare compare_fn None head m (mem_tree (al h)) t (b_addr b + 4) fuel
              (hi_tree _ _ _ _ I) (hi_rb _ _ _ _ I) (inv_can_insert X b I St Hb)) as (tr' & m' & t' & Run & Hm' & Post & Un).
  { pose proof (inv_depth _ _ _ _ I). lia. }
  assert (Dl := insert_data _ _ _ _ _ _ _ (hi_tree _ _ _ _ I) Hm' Post). destruct Post as (_ & Ok' & Ad).
  assert (Nl : forall a, a ∈ (b_addr b + 4) :: taddrs t -> exists c, c ∈ bl /\ b_free c = true /\ a = b_addr c + 4).
  { intros a Ha. destruct (inv_insert_nodes X b a I NX Hb Fb Ha) as (c & ? & ? & _ & ->). by exists c. }
  exists (Heap m' (with_tree tr' (al h)) (hpg h)), t'. split_and!.
  - unfold tree_insert. fold m. by rewrite Run.
  - eapply inv_new_tree; [exact I | exact St | done | done | exact Un | exact Nl | exact Dl |].
    intros n. by apply inv_inserted with b.
  - split_and!; [apply Un | by exists tr' | done | | intros c; by apply (inv_insert_keeps X b m' c)].
    eapply inv_outside; [exact I | exact Un |]. intros a Ha. destruct (Nl a Ha) as (c & ? & _ & ->). eauto.
Qed.
End operations.

(** ** Removal *)

(** What select_dup answers. *)
Definition selects (n : Z) (args : option alloc_args) : bool :=
  negb (n =? 0) && ((from_option address 0 args =? 0) || (n =? from_option address 0 args)).

#[export] Instance alloc_selector : Selector select_dup selects.
Proof.
  intros H n args _ N0. unfold select_dup, selects. rewrite (proj2 (Z.eqb_neq _ _) N0). cbv zeta.
  destruct (from_option address 0 args =? 0); cbn [negb andb orb]; [exists 1; split; [apply runs_ret | done] |].
  destruct (n =? from_option address 0 args); cbn [negb andb orb];
    [exists 1 | exists 0]; (split; [apply runs_ret | done]).
Qed.

(** An aligned search never turns left. *)
#[export] Instance aligned_searchable a k : a <> 0 -> Searchable compare_fn k (Some (AllocArgs a 0)).
Proof.
  intros Ha n1 d1 n2 d2 _ _. unfold compare_fn. simpl. rewrite (proj2 (Z.eqb_neq _ _) Ha). cbn [negb].
  repeat case_match; lia.
Qed.

Section take_address.
Context (sel : Z -> bool) (n : Z).

Lemma take_first_at l : (forall a, a ∈ l -> sel a = (a =? n)) -> n ∈ l -> exists l', take_first sel l = Some (n, l').
Proof.
  intros Hs. induction l as [|a l IH]; [by intros ?%not_elem_of_nil |]. intros Hn. simpl.
  rewrite Hs by set_solver. destruct (Z.eqb_spec a n) as [->|Ne]; [eauto |].
  destruct IH as [l' ->]; [set_solver | set_solver |]. simpl. eauto.
Qed.

Lemma take_first_absent l : (forall a, a ∈ l -> sel a = (a =? n)) -> n ∉ l -> take_first sel l = None.
Proof.
  intros Hs. induction l as [|a l IH]; [done |]. intros Hn. simpl. rewrite Hs by set_solver.
  apply not_elem_of_cons in Hn as [Ne Hn]. rewrite (proj2 (Z.eqb_neq a n) ltac:(congruence)). rewrite IH; [done | set_solver | done].
Qed.

Lemma take_lab_at x :
  (forall a, a ∈ lab_addrs x -> sel a = (a =? n)) -> NoDup (lab_addrs x) -> n ∈ lab_addrs x -> exists ys, take_lab sel x = Some (n, ys).
Proof.
  destruct x as [b k [|d D]]; unfold take_lab, lab_addrs; cbn [lb_addr lb_dups lb_key]; intros Hs ND Hn.
  - apply list_elem_of_singleton in Hn as <-. eauto.
  - apply NoDup_cons in ND as [Nb ND]. apply elem_of_cons in Hn as [<- | Hn].
    + rewrite take_first_absent; [| set_solver | done]. rewrite Hs, Z.eqb_refl by set_solver. eauto.
    + destruct (take_first_at (d :: D)) as [l' ->]; [set_solver | done |]. eauto.
Qed.

Lemma rem_spec_at k L :
  sorted L -> NoDup (concat (lab_addrs <$> L)) -> (forall a, a ∈ concat (lab_addrs <$> L) -> sel a = (a =? n)) ->
  (n, k) ∈ keyed L -> exists L', rem_spec sel k L = (n, L').
Proof.
  induction L as [|x L IH]; [by intros _ _ _ ?%not_elem_of_nil |].
  intros [Gt S]. rewrite fmap_cons. cbn [concat]. rewrite NoDup_app. intros (ND1 & _ & ND2) Hs Hn.
  rewrite keyed_cons, elem_of_app, list_elem_of_fmap in Hn. cbn [rem_spec].
  assert (Hk : forall y, y ∈ L -> lb_key x < lb_key y).
  { intros y Hy. unfold keys_gt in Gt. rewrite Forall_forall in Gt. by apply Gt. }
  destruct Hn as [(a & [= <- ->] & Ha)|Hn].
  - rewrite Z.ltb_irrefl. unfold remove_head. rewrite Z.eqb_refl.
    destruct (take_lab_at x) as [ys Ty]; [intros b Hb; apply Hs; set_solver | done | done |]. rewrite Ty. simpl. eauto.
  - assert (Lt : lb_key x < k) by (apply keyed_elem in Hn as (y & Hy & -> & _); auto).
    rewrite (proj2 (Z.ltb_lt _ _) Lt). destruct IH as [L' ->]; [done | done | intros b Hb; apply Hs; set_solver | done |].
    simpl. eauto.
Qed.
End take_address.

Lemma take_lab_some sel x : (forall a, a ∈ lab_addrs x -> sel a = true) -> exists a ys, take_lab sel x = Some (a, ys).
Proof.
  destruct x as [b k [|d D]]; unfold take_lab, lab_addrs; cbn [lb_addr lb_dups lb_key]; intros Hs; [eauto |].
  simpl. rewrite Hs by set_solver. eauto.
Qed.

Section removal.
Context (head : Z) (fuel : nat) (h : heap) (bl : list block) (t : tree) (X : list Z).
Hypothesis inv : heap_inv h bl t X.
Hypothesis stack : stack_ok head h.
Hypothesis iterations : (length bl < fuel)%nat.
Let m := hmem h.

Lemma inv_can_remove : can_remove head m t.
Proof.
  split; [apply stack |]. intros a Ha. destruct (inv_tree_node _ _ _ _ inv a Ha) as (b & Hb & _ & _ & ->).
  by apply (inv_stack_apart head _ _ _ _ inv stack).
Qed.

Lemma inv_positive a : a ∈ taddrs t -> a <> 0.
Proof.
  intros Ha. destruct (inv_tree_node _ _ _ _ inv a Ha) as (b & Hb & _ & _ & ->).
  destruct (inv_bounds _ _ _ _ inv b Hb). lia.
Qed.

(** The size of a block is its key in the tree. *)
Lemma inv_key b : b ∈ bl -> b_free b = true -> b_addr b ∉ X -> (b_addr b + 4, b_size b) ∈ keyed (inorder t).
Proof.
  intros Hb Fb NX. assert (Hn : b_addr b + 4 ∈ taddrs t) by (apply (hi_nodes _ _ _ _ inv); eauto).
  apply keyed_taddrs in Hn as [k Hk]. assert (E := holds_key _ _ _ _ _ (hi_tree _ _ _ _ inv) Hk).
  rewrite (bk_data _ _ (inv_block _ _ _ _ inv b Hb)) in E. by subst k.
Qed.

Lemma inv_key_block n k : (n, k) ∈ keyed (inorder t) -> exists b, b ∈ bl /\ b_free b = true /\ (b_addr b ∉ X) /\ n = b_addr b + 4 /\ k = b_size b.
Proof.
  intros Hk. assert (Hn : n ∈ taddrs t) by (apply keyed_taddrs; eauto).
  destruct (inv_tree_node _ _ _ _ inv n Hn) as (b & Hb & Fb & NX & ->). exists b. split_and!; try done.
  rewrite <- (holds_key _ _ _ _ _ (hi_tree _ _ _ _ inv) Hk). apply (bk_data _ _ (inv_block _ _ _ _ inv b Hb)).
Qed.

(** The heap after remove_rbnode took the node of [b], or nothing. *)
Lemma removed_inv args k a tr' m' t' :
  holds m' tr' t' -> remove_post compare_fn selects args k t a tr' t' -> untouched m m' (head :: taddrs t) ->
  (a <> 0 -> exists x, x ∈ inorder t /\ word_at m' a = lb_key x /\ eqx compare_fn args k x = true /\ a ∈ lab_addrs x) ->
  let h' := Heap m' (with_tree tr' (al h)) (hpg h) in
  tree_frame head h h' bl X /\
  (a = 0 /\ heap_inv h' bl t' X \/
   exists b, b ∈ bl /\ b_free b = true /\ (b_addr b ∉ X) /\ a = b_addr b + 4 /\ heap_inv h' bl t' (b_addr b :: X)).
Proof.
  intros Hm' Post Un Key h'.
  assert (Dl : forall b, b ∈ taddrs t -> word_at m' b = word_at m b).
  { intros b Hb. eapply remove_data; [apply (hi_tree _ _ _ _ inv) | exact Hm' | exact Post | exact Key | done | by apply inv_positive]. }
  assert (Nl : forall n, n ∈ taddrs t -> exists b, b ∈ bl /\ b_free b = true /\ n = b_addr b + 4).
  { intros n Hn. destruct (inv_tree_node _ _ _ _ inv n Hn) as (b & ? & ? & _ & ->). by exists b. }
  destruct Post as (l1 & l2 & _ & _ & _ & Ok' & Ad). split.
  { split_and!; [apply Un | by exists tr' | done | |].
    { eapply inv_outside; [exact inv | exact Un |]. intros n Hn. destruct (Nl n Hn) as (b & ? & _ & ->). eauto. }
    intros c Hc Out. eapply inv_keeps; [exact inv | exact stack | done | exact Un |].
    intros n Hn. destruct (inv_tree_node _ _ _ _ inv n Hn) as (b & ? & ? & ? & ->). exists b. split_and!; try done.
    intros ->. destruct Out; [congruence | done]. }
  destruct Ad as [[-> P]|P]; [left; split; [done |] | right].
  - eapply inv_new_tree; [exact inv | exact stack | done | done | exact Un | exact Nl | exact Dl |].
    intros n. rewrite P. apply (hi_nodes _ _ _ _ inv).
  - assert (Ha : a ∈ taddrs t) by (rewrite P; by left).
    destruct (inv_tree_node _ _ _ _ inv a Ha) as (b & Hb & Fb & NX & ->). exists b. split_and!; try done.
    eapply inv_new_tree; [exact inv | exact stack | done | done | exact Un | exact Nl | exact Dl |].
    assert (ND : NoDup (taddrs t)) by (by destruct (hi_tree _ _ _ _ inv) as (? & _ & _ & ? & _)).
    rewrite P in ND. apply NoDup_cons in ND as [Nt ND]. intros n. split.
    + intros Hn. destruct (inv_tree_node _ _ _ _ inv n) as (c & ? & ? & ? & ->); [rewrite P; by right |].
      exists c. split_and!; try done. apply not_elem_of_cons. split; [intros E | done]. apply Nt. by rewrite <- E.
    + intros (c & Hc & Fc & NXc & ->). apply not_elem_of_cons in NXc as [Ne NXc].
      assert (Hn : b_addr c + 4 ∈ taddrs t) by (apply (hi_nodes _ _ _ _ inv); eauto).
      rewrite P in Hn. apply elem_of_cons in Hn as [? | ?]; [lia | done].
Qed.

(** The removal of a given block finds it, whatever duplicates it has. *)
Lemma tree_remove_inv b :
  b ∈ bl -> b_free b = true -> b_addr b ∉ X ->
  exists h' t', tree_remove head fuel (b_size b) (Some (AllocArgs 0 (b_addr b + 4))) h = Ok (b_addr b + 4, h') /\
    heap_inv h' bl t' (b_addr b :: X) /\ tree_frame head h h' bl X.
Proof.
  intros Hb Fb NX. set (args := Some (AllocArgs 0 (b_addr b + 4))).
  destruct (remove_correct compare compare_fn select_dup selects args (b_size b) head m (mem_tree (al h)) t fuel
    (hi_tree _ _ _ _ inv) (hi_rb _ _ _ _ inv) inv_can_remove (inv_enough _ _ _ _ inv fuel iterations))
    as (a & tr' & m' & t' & Run & Hm' & Post & Un & Key).
  destruct (removed_inv args _ _ _ _ _ Hm' Post Un Key) as [Fr Cases].
  assert (a = b_addr b + 4) as ->.
  { destruct Post as (l1 & l2 & El & [C1 C2] & Spec & _ & _). assert (Ko : KeyOrder compare_fn args) by (by apply key_order_address).
    rewrite <- (rem_spec_cut (fun n => selects n args) (b_size b) l1 l2 (ltx compare_fn args (b_size b))) in Spec;
      [| rewrite <- El; apply inv | intros x; apply key_lt | intros x; apply key_eq | done | done].
    rewrite <- El in Spec. destruct (rem_spec_at (fun n => selects n args) (b_addr b + 4) (b_size b) (inorder t)) as [L' E].
    - apply inv.
    - rewrite <- taddrs_inorder. by destruct (hi_tree _ _ _ _ inv) as (? & _ & _ & ? & _).
    - intros n Hn. rewrite <- taddrs_inorder in Hn. unfold selects, args. simpl.
      rewrite (proj2 (Z.eqb_neq _ _) (inv_positive n Hn)). simpl.
      destruct (inv_bounds _ _ _ _ inv b Hb). by rewrite (proj2 (Z.eqb_neq (b_addr b + 4) 0)) by lia.
    - by apply inv_key.
    - congruence. }
  destruct (inv_bounds _ _ _ _ inv b Hb) as [? _].
  destruct Cases as [[? _]|(c & Hc & _ & _ & Ec & I')]; [lia |].
  exists (Heap m' (with_tree tr' (al h)) (hpg h)), t'. split_and!; [| | done].
  - unfold tree_remove. fold m. by rewrite Run.
  - replace (b_addr b) with (b_addr c) by lia. done.
Qed.

(** ** The best fit *)

Lemma fit_fn n d k :
  0 <= d < 2 ^ 32 -> compare_fn n d k (Some (AllocArgs 1 0)) = if d <? k then -1 else 0.
Proof.
  intros Hd. unfold compare_fn. simpl from_option. change (negb (1 =? 0)) with true. cbn iota. cbv zeta.
  unfold best_offset. rewrite Z.mod_1_r. change (skip_offset 28 1 0) with 0.
  rewrite Z.sub_0_r, u32_small by done. by destruct (d <? k).
Qed.

(** The labels before the cut are too small, the others fit. *)
Lemma cut_sizes k l1 l2 :
  inorder t = l1 ++ l2 -> cut compare_fn (Some (AllocArgs 1 0)) k l1 l2 ->
  (forall x, x ∈ l1 -> lb_key x < k) /\ (forall x, x ∈ l2 -> k <= lb_key x) /\
  (forall x l2', l2 = x :: l2' -> eqx compare_fn (Some (AllocArgs 1 0)) k x = true /\ forall y, y ∈ l2 -> lb_key x <= lb_key y).
Proof.
  intros El [C1 C2].
  assert (Rg : forall x, x ∈ l1 ++ l2 -> 0 <= lb_key x < 2 ^ 32).
  { intros x Hx. rewrite <- El in Hx. rewrite <- (holds_key m _ t (lb_addr x) (lb_key x) (hi_tree _ _ _ _ inv)).
    - apply word_at_range.
    - apply keyed_elem. exists x. split_and!; [done | done | by left]. }
  assert (Lt : forall x, x ∈ l1 ++ l2 -> ltx compare_fn (Some (AllocArgs 1 0)) k x = (lb_key x <? k)).
  { intros x Hx. unfold ltx. rewrite fit_fn by auto. by destruct (lb_key x <? k). }
  assert (S := ok_sorted _ _ (hi_rb _ _ _ _ inv)). rewrite El in S. apply sorted_app in S as (S1 & S2 & _).
  assert (Up : forall x l2', l2 = x :: l2' -> forall y, y ∈ l2 -> lb_key x <= lb_key y).
  { intros x l2' -> y [-> | Hy]%elem_of_cons; [lia |]. destruct S2 as [Gt _]. unfold keys_gt in Gt. rewrite Forall_forall in Gt.
    specialize (Gt y Hy). lia. }
  assert (Hd : forall x l2', l2 = x :: l2' -> k <= lb_key x).
  { intros x l2' E. subst l2. specialize (C2 x eq_refl). rewrite Lt in C2 by set_solver. by apply Z.ltb_ge in C2. }
  split_and!.
  - destruct l1 as [|z l1 _] using rev_ind; [by intros x ?%not_elem_of_nil |].
    specialize (C1 z (last_snoc _ _)). rewrite Lt in C1 by set_solver. apply Z.ltb_lt in C1.
    apply sorted_app in S1 as (_ & _ & F). rewrite Forall_forall in F.
    intros x [Hx | ->%list_elem_of_singleton]%elem_of_app; [| done].
    specialize (F x Hx). apply Forall_cons in F as [F _]. lia.
  - intros x Hx. destruct l2 as [|y l2']; [by apply not_elem_of_nil in Hx |].
    specialize (Hd y l2' eq_refl). specialize (Up y l2' eq_refl x Hx). lia.
  - intros x l2' E. split; [| by eapply Up]. unfold eqx. rewrite fit_fn by (apply Rg; subst; set_solver).
    specialize (Hd x l2' E). by rewrite (proj2 (Z.ltb_ge _ _) Hd).
Qed.

Lemma tree_remove_fit k :
  exists n h' t', tree_remove head fuel k (Some (AllocArgs 1 0)) h = Ok (n, h') /\ tree_frame head h h' bl X /\
    (n = 0 /\ heap_inv h' bl t' X /\ (forall b, b ∈ bl -> b_free b = true -> b_addr b ∉ X -> b_size b < k) \/
     exists b, b ∈ bl /\ b_free b = true /\ (b_addr b ∉ X) /\ n = b_addr b + 4 /\ k <= b_size b /\
       (forall c, c ∈ bl -> b_free c = true -> b_addr c ∉ X -> k <= b_size c -> b_size b <= b_size c) /\
       heap_inv h' bl t' (b_addr b :: X)).
Proof.
  set (args := Some (AllocArgs 1 0)). assert (Se : Searchable compare_fn k args) by (by apply aligned_searchable).
  destruct (remove_correct compare compare_fn select_dup selects args k head m (mem_tree (al h)) t fuel
    (hi_tree _ _ _ _ inv) (hi_rb _ _ _ _ inv) inv_can_remove (inv_enough _ _ _ _ inv fuel iterations))
    as (a & tr' & m' & t' & Run & Hm' & Post & Un & Key).
  destruct (removed_inv args _ _ _ _ _ Hm' Post Un Key) as [Fr Cases].
  exists a, (Heap m' (with_tree tr' (al h)) (hpg h)), t'. split_and!; [unfold tree_remove; fold m; by rewrite Run | done |].
  destruct Post as (l1 & l2 & El & Cu & Spec & _ & _). destruct (cut_sizes k l1 l2 El Cu) as (Low & High & First).
  assert (Blocks : forall c, c ∈ bl -> b_free c = true -> b_addr c ∉ X -> exists x, (x ∈ l1 \/ x ∈ l2) /\ b_size c = lb_key x).
  { intros c Hc Fc NX. pose proof (inv_key c Hc Fc NX) as Hk. apply keyed_elem in Hk as (x & Hx & -> & _).
    rewrite El, elem_of_app in Hx. eauto. }
  destruct l2 as [|x l2'] eqn:E2.
  - simpl in Spec. injection Spec as -> _. left. destruct Cases as [[_ I']|(b & Hb & _ & _ & E & _)].
    + split_and!; try done. intros c Hc Fc NX. destruct (Blocks c Hc Fc NX) as (x & [Hx | Hx] & ->); [auto | by apply not_elem_of_nil in Hx].
    + destruct (inv_bounds _ _ _ _ inv b Hb). lia.
  - destruct (First x l2' eq_refl) as [Ex Min]. destruct (take_lab_some (fun n => selects n args) x) as (a' & ys & Ty).
    { intros n Hn. unfold selects. assert (n ∈ taddrs t).
      { apply keyed_taddrs. exists (lb_key x). rewrite El. apply keyed_elem. exists x. split_and!; [set_solver | done | done]. }
      by rewrite (proj2 (Z.eqb_neq _ _) (inv_positive n ltac:(done))). }
    unfold remove_head in Spec. fold args in Ex. rewrite Ex, Ty in Spec. simpl in Spec. injection Spec as -> _.
    assert (Ka : (a', lb_key x) ∈ keyed (inorder t)).
    { rewrite El. apply keyed_elem. exists x. split_and!; [set_solver | done |]. rewrite (take_lab_addrs _ _ _ _ Ty). by left. }
    destruct (inv_key_block _ _ Ka) as (b & Hb & Fb & NXb & Ea & Ek). right.
    destruct (inv_bounds _ _ _ _ inv b Hb) as [? _]. destruct Cases as [[? _]|(c & Hc & Fc & NXc & Ec & I')]; [lia |].
    assert (c = b) as ->.
    { apply (tiled_same_addr _ _ bl c b (hi_tiled _ _ _ _ inv) (inv_sized _ _ _ _ inv)); [done | done | lia]. }
    exists b. split_and!; try done.
    + rewrite <- Ek. apply High. by left.
    + intros d Hd Fd NXd Hkd. destruct (Blocks d Hd Fd NXd) as (y & [Hy | Hy] & Ey).
      * specialize (Low y Hy). lia.
      * rewrite Ey, <- Ek. by apply Min.
Qed.
End removal.
