(* ===== verification/AllocSpec.v ===== *)
(** Creation of the heap, a failed expansion, and the size of a block. *)

From S2P Require Import Prelude Memory Frames Paging RbTree RbHeap RbModel RbRep RbInsert RbSpec MemAlloc AllocBase AllocTree.

(** ** Creation *)

(** The address of the first block. *)
Definition heap_start (start : Z) : Z :=
  let s := u32 (start + ALLOCATOR_SIZE) in
  if negb (s mod MIN_BLOCK_SIZE =? 0) then u32 (s - s mod MIN_BLOCK_SIZE + MIN_BLOCK_SIZE) else s.

Lemma heap_start_ok start :
  0 <= start -> start + 128 < 2 ^ 32 ->
  start + 48 <= heap_start start < start + 76 /\ heap_start start mod 4 = 0.
Proof.
  intros H0 H1. unfold heap_start. rewrite min_block_size. unfold ALLOCATOR_SIZE.
  rewrite (u32_small (start + 48)) by lia.
  destruct (Z.eqb_spec ((start + 48) mod 28) 0); cbn [negb].
  - split; [lia |]. Z.div_mod_to_equations. lia.
  - rewrite u32_small by (Z.div_mod_to_equations; lia). split; Z.div_mod_to_equations; lia.
Qed.

Lemma holds_empty m n d : holds m (RbTree 0 n d) E.
Proof.
  exists ∅. split_and!.
  - split; try done. intros a b _ [v Hv]. done.
  - done.
  - constructor.
  - intros a. rewrite lookup_empty. split; [by intros [] | by intros ?%not_elem_of_nil].
Qed.

Lemma rb_ok_empty tr : rb_ok tr E.
Proof. split; try done. by exists 0%nat. Qed.

(** What the caller of create_mem_allocator must provide: the pages of the
    heap, and a stack outside it. *)
Record can_create (head : Z) (m : mem) (start end_ : Z) : Prop := {
  cc_start : 0 <= start /\ start mod 4096 = 0;
  cc_end : start + 4096 <= end_ /\ end_ < 2 ^ 32 /\ end_ mod 4096 = 0;
  cc_pages : forall i, 0 <= i < end_ - start -> page_present m (start + i) = true;
  cc_head : node_ok m head;
  cc_apart : head + 16 <= start \/ end_ <= head
}.

Lemma create_ok head fuel h start end_ mn mx sup ro dir :
  can_create head (hmem h) start end_ -> (3 <= fuel)%nat ->
  let s := heap_start start in
  exists h' t, create_mem_allocator head fuel start end_ mn mx sup ro dir h = Ok (start, h') /\
    heap_ok h' [Block s (end_ - s) true] t /\ start_address (al h') = s /\ end_address (al h') = end_ /\
    mem_used_ (al h') = 0 /\ min_size (al h') = mn /\ max_size (al h') = mx /\ m_pages (hmem h') = m_pages (hmem h) /\
    (forall x, x < s \/ end_ <= x -> x < head \/ head + 16 <= x -> byte_at (hmem h') x = byte_at (hmem h) x) /\
    page_dir (al h') = dir /\ hpg h' = hpg h.
Proof.
  intros [[C0 C1] [C2 [C3 C4]] Pg Oh Ap] Hf s.
  destruct (heap_start_ok start) as [Hs As]; [lia | lia |]. fold s in Hs, As.
  set (size := end_ - s). set (m := hmem h).
  assert (Asz : size mod 4 = 0) by (unfold size; Z.div_mod_to_equations; lia).
  assert (Pm : region_present m s size).
  { intros i Hi. replace (s + i) with (start + (s - start + i)) by lia. apply Pg. unfold size in Hi. lia. }
  destruct (stamp_free_runs m s size Pm) as (m1 & Run1 & Sb & Bk); [lia | unfold size; lia | unfold size; lia | done | done |].
  set (a1 := Allocator (init_rbtree (mem_tree (al h))) s end_ mn mx dir sup ro 0).
  assert (I1 : heap_inv (Heap m1 a1 (hpg h)) [Block s size true] E [s]).
  { split; cbn [al hmem mem_tree start_address end_address a1].
    - simpl. unfold size. lia.
    - lia.
    - intros x Hx. unfold page_present. rewrite (proj1 Sb). replace x with (s + (x - s)) by lia. apply Pm. unfold size. lia.
    - by apply Forall_singleton.
    - apply holds_empty.
    - apply rb_ok_empty.
    - intros n. split; [by intros ?%not_elem_of_nil |]. intros (b & ->%list_elem_of_singleton & _ & NX & _). set_solver. }
  destruct (tree_insert_inv head fuel (Heap m1 a1 (hpg h)) [Block s size true] E [] (Block s size true) I1) as (h' & t & Run2 & I2 & Pg2 & [(tr' & Ea) Ep] & Out & _).
  { apply not_elem_of_nil. }
  { split; cbn [hmem al a1 start_address end_address]; [| lia].
    destruct Oh as [? ? ? P0 P1 P2 P3]. split; try done; unfold word_present, page_present in *; by rewrite (proj1 Sb). }
  { by left. }
  { done. }
  { simpl. lia. }
  cbn [b_addr al] in Run2, Ea. exists h', t. split_and!; try (by rewrite Ea); [| | rewrite Pg2; apply Sb | | done].
  - unfold create_mem_allocator. unfold FRAME_SIZE. rewrite C1, C4. cbn [Z.eqb negb orb].
    fold (heap_start start). fold s. rewrite (bind_ok _ _ h tt (Heap m a1 (hpg h))) by done.
    rewrite (u32_small (end_ - s)) by (unfold size in *; lia). fold size.
    rewrite (bind_ok _ _ _ tt (Heap m1 a1 (hpg h))) by (unfold on_mem, zoom; cbn [hmem]; by rewrite Run1).
    unfold block_to_rbnode. rewrite u32_small by (unfold size in *; lia).
    by rewrite (bind_ok _ _ _ _ _ Run2).
  - split; [done |]. by rewrite Ea.
  - intros x Hx Hh. rewrite (Out x Hx Hh). apply Sb. unfold size. cbn [al start_address end_address a1] in *. lia.
Qed.

(** ** A failed expansion *)

Section expansion.
Context (table_ap : Z -> M pg (Z * Z)) (frame_data : Z -> mem -> mem) (head : Z) (tree_fuel : nat).

Lemma expand_refused h new_end :
  u32 (start_address (al h) + max_size (al h)) < round_to_frame new_end ->
  expand table_ap frame_data new_end h = Ok (tt, h).
Proof.
  intros Hm. unfold expand. rewrite (bind_ok _ _ h (al h) h) by done.
  destruct (new_end <=? end_address (al h)); [done |].
  rewrite (proj2 (Z.ltb_lt _ _) Hm). done.
Qed.

(** When no free block fits and the heap may not grow, the block that should
    hold the new space is written behind the end of the heap. *)
Lemma alloc_refused fuel size alignment h h1 :
  let a := if alignment =? 0 then 1 else alignment in
  let e := end_address (al h1) in
  tree_remove head tree_fuel (get_block_size size) (Some (AllocArgs a 0)) h = Ok (0, h1) ->
  u32 (start_address (al h1) + max_size (al h1)) < round_to_frame (u32 (e + get_block_size size)) ->
  0 <= e -> e + 4 < 2 ^ 32 -> word_present (hmem h1) (e + 4) = false ->
  alloc table_ap frame_data head tree_fuel (S fuel) size alignment h = Err (Fault (e + 4)).
Proof.
  intros a e Hr Hm He0 He Hp. cbn [alloc]. fold a. rewrite (bind_ok _ _ _ _ _ Hr). cbn [Z.eqb].
  rewrite (bind_ok _ _ h1 e h1) by done. rewrite (bind_ok _ _ _ _ _ (expand_refused h1 _ Hm)).
  apply bind_err. unfold add_hole. rewrite (bind_ok _ _ h1 e h1) by done. apply bind_err.
  unfold on_mem, zoom. rewrite (bind_err _ _ _ (Fault (e + 4))); [done |].
  unfold set_size, store32. rewrite u32_small by lia. by rewrite Hp.
Qed.
End expansion.

(** The size computation wraps around: the largest requests get the smallest
    block. *)
Lemma get_block_size_overflow size : 2 ^ 32 - 19 <= size < 2 ^ 32 -> get_block_size size = 28.
Proof.
  intros Hs. unfold get_block_size, rounded_size, USER_PTR_OFFSET, FOOTER_SIZE. rewrite min_block_size.
  assert (E : u32 (size + (4 + 4) + 8 + 4 - 1) < 19) by (unfold u32; Z.div_mod_to_equations; lia).
  pose proof (u32_range (size + (4 + 4) + 8 + 4 - 1)). set (x := u32 (size + _ + _ + _ - _)) in *. clearbody x.
  rewrite u32_small by (Z.div_mod_to_equations; lia). cbv zeta.
  rewrite (proj2 (Z.ltb_lt _ _)) by (Z.div_mod_to_equations; lia). done.
Qed.

(** ** Properties of the allocator *)

(** Two pages of heap, and a stack, without page tables: a missing table cannot
    be allocated, and a page keeps the bytes it had. *)
Definition no_table (size : Z) : M pg (Z * Z) := throw Hang.
Definition old_data (a : Z) (m : mem) : mem := m.
Definition no_tables : pg := Pg (Bitmap [] 0 0) ∅ ∅ 0 0 0 0.
Definition two_pages : mem := mem_with_pages 3 0x1000.

Lemma two_pages_node a : 0x1000 <= a -> a + 16 <= 0x4000 -> a mod 4 = 0 -> node_ok two_pages a.
Proof.
  intros H1 H2 H3.
  assert (P : forall x, 0x1000 <= x < 0x4000 -> page_present two_pages x = true).
  { intros x Hx. unfold page_present. apply bool_decide_eq_true. unfold two_pages. cbn [mem_with_pages map_page_at m_pages].
    unfold PAGE, no_mem. cbn [m_pages]. rewrite !elem_of_union, !elem_of_singleton.
    clear -Hx. Z.div_mod_to_equations. lia. }
  split; unfold word_present; rewrite ?P by lia; try done; lia.
Qed.

Lemma insert_rbnode_ok_witness :
  exists tr' m' t',
    insert_rbnode compare 0x1000 1 (RbTree 0 0 0) 0x2004 None two_pages = Ok ((1, tr'), m') /\
    holds m' tr' t' /\ rb_ok tr' t' /\
    inorder t' = ins_spec 0x2004 (word_at two_pages 0x2004) (inorder E) /\ taddrs t' ≡ₚ 0x2004 :: taddrs E /\
    untouched two_pages m' (0x1000 :: 0x2004 :: taddrs E).
Proof.
  apply (insert_rbnode_ok compare compare_fn None 0x1000 two_pages (RbTree 0 0 0) E 0x2004 1
           alloc_comparator key_order_none (holds_empty _ _ _) (rb_ok_empty _)); [| simpl; lia].
  split; try (apply two_pages_node; (done || lia)); try (by intros a ?%not_elem_of_nil). unfold disjoint_nodes. lia.
Defined.

(** C29: create_mem_allocator on page-aligned bounds over present memory
    returns a heap in order: one free block fills the space from behind the
    allocator's own data to the end, with its header and footer in place; the
    tree of free blocks is a red-black tree that holds exactly that block; no
    memory is in use, and no byte outside the heap and the stack frame changes,
    nor do the page tables. *)
Theorem create_mem_allocator_ok head fuel h start end_ mn mx sup ro dir :
  can_create head (hmem h) start end_ -> (3 <= fuel)%nat ->
  let s := heap_start start in
  exists h' t, create_mem_allocator head fuel start end_ mn mx sup ro dir h = Ok (start, h') /\
    heap_ok h' [Block s (end_ - s) true] t /\ start_address (al h') = s /\ end_address (al h') = end_ /\
    mem_used_ (al h') = 0 /\ min_size (al h') = mn /\ max_size (al h') = mx /\ m_pages (hmem h') = m_pages (hmem h) /\
    (forall x, x < s \/ end_ <= x -> x < head \/ head + 16 <= x -> byte_at (hmem h') x = byte_at (hmem h) x) /\
    page_dir (al h') = dir /\ hpg h' = hpg h.
Proof. apply create_ok. Qed.

Lemma create_mem_allocator_ok_witness :
  let h := Heap two_pages (Allocator (RbTree 0 0 0) 0 0 0 0 0 0 0 0) no_tables in
  exists h' t, create_mem_allocator 0x1000 3 0x2000 0x4000 0x1000 0x8000 0 0 0 h = Ok (0x2000, h') /\
    heap_ok h' [Block (heap_start 0x2000) (0x4000 - heap_start 0x2000) true] t /\
    start_address (al h') = heap_start 0x2000 /\ end_address (al h') = 0x4000 /\
    mem_used_ (al h') = 0 /\ min_size (al h') = 0x1000 /\ max_size (al h') = 0x8000 /\ m_pages (hmem h') = m_pages (hmem h) /\
    (forall x, x < heap_start 0x2000 \/ 0x4000 <= x -> x < 0x1000 \/ 0x1000 + 16 <= x -> byte_at (hmem h') x = byte_at (hmem h) x) /\
    page_dir (al h') = 0 /\ hpg h' = hpg h.
Proof.
  apply (create_mem_allocator_ok 0x1000 3 (Heap two_pages (Allocator (RbTree 0 0 0) 0 0 0 0 0 0 0 0) no_tables)); [| lia].
  split; cbn [hmem]; try (apply two_pages_node; (done || lia)); try done.
  - intros i Hi. unfold page_present. apply bool_decide_eq_true. unfold two_pages. cbn [mem_with_pages map_page_at m_pages].
    unfold PAGE, no_mem. cbn [m_pages]. rewrite !elem_of_union, !elem_of_singleton.
    clear -Hi. Z.div_mod_to_equations. lia.
  - left. lia.
Defined.

(** when no free block fits and the heap may not grow any more, alloc does
    not return a null pointer: it writes the header of the block it did not
    get behind the end of the heap, and faults when that page is absent. *)
Theorem alloc_faults_when_full table_ap frame_data head tree_fuel fuel size alignment h h1 :
  let a := if alignment =? 0 then 1 else alignment in
  let e := end_address (al h1) in
  tree_remove head tree_fuel (get_block_size size) (Some (AllocArgs a 0)) h = Ok (0, h1) ->
  u32 (start_address (al h1) + max_size (al h1)) < round_to_frame (u32 (e + get_block_size size)) ->
  0 <= e -> e + 4 < 2 ^ 32 -> word_present (hmem h1) (e + 4) = false ->
  alloc table_ap frame_data head tree_fuel (S fuel) size alignment h = Err (Fault (e + 4)).
Proof. apply alloc_refused. Qed.

(** A heap that may not grow, all of it in use. *)
Definition full_heap : heap := Heap two_pages (Allocator (RbTree 0 0 0) 0x2038 0x4000 0x1000 0x1fc8 0 0 0 0x1fc8) no_tables.

Lemma alloc_faults_when_full_witness :
  alloc no_table old_data 0x1000 10 2 100 0 full_heap = Err (Fault 0x4004).
Proof.
  apply (alloc_faults_when_full no_table old_data 0x1000 10 1 100 0 full_heap full_heap); [done | done | done | done |].
  vm_compute. reflexivity.
Defined.

(** C36: the block for a request of up to 4294967276 bytes holds the request
    between header and footer and wastes less than 4 bytes (or is the smallest
    block); for the 19 largest sizes the computation wraps around and the
    smallest block is used. *)
Theorem get_block_size_range size :
  0 <= size < 2 ^ 32 ->
  let s := get_block_size size in
  if size + 19 <? 2 ^ 32
  then 28 <= s /\ s mod 4 = 0 /\ size + USER_PTR_OFFSET + FOOTER_SIZE <= s /\ s < Z.max 29 (size + 20)
  else s = 28.
Proof.
  intros Hs. destruct (Z.ltb_spec (size + 19) (2 ^ 32)).
  - apply get_block_size_ok; lia.
  - apply get_block_size_overflow. lia.
Qed.

Lemma get_block_size_range_witness : get_block_size (2 ^ 32 - 1) = 28.
Proof. apply (get_block_size_range (2 ^ 32 - 1)). lia. Defined.
