(* ===== verification/AllocOps.v ===== *)
(** alloc and free on a heap in order.

    An allocation without an alignment takes the best fit out of the tree,
    splits it when the rest is large enough for a block, and leaves a heap in
    order; free gives the block back and merges it with its free neighbours.
    Neither writes to a block that is in use. *)

From S2P Require Import Prelude Memory Frames Paging RbTree RbHeap RbModel RbRep RbInsert RbSpec RbRemove RbUnlink RbRemoveSpec MemAlloc AllocBase AllocTree AllocSpec.

(** ** Replacing blocks in place *)

Lemma holds_moved m m' tr t :
  holds m tr t -> (forall a, a ∈ taddrs t -> node_ok m a -> node_ok m' a) ->
  (forall a, a ∈ taddrs t -> forall i, a <= i < a + 16 -> byte_at m' i = byte_at m i) -> holds m' tr t.
Proof.
  intros (H & Sm & R & ND & D) P Same. exists H. split_and!; try done.
  assert (In : forall a v, H !! a = Some v -> a ∈ taddrs t) by (intros a v Ha; apply D; eauto).
  split; try done.
  - intros a v Ha. eapply P; [by eapply In | by eapply sim_ok].
  - intros a v Ha. rewrite <- (sim_view _ _ _ Sm _ _ Ha). specialize (Same a (In a v Ha)).
    assert (W : forall o, 0 <= o <= 12 -> word_at m' (a + o) = word_at m (a + o)).
    { intros o Ho. unfold word_at. by rewrite !Same by lia. }
    pose proof (W 0 ltac:(lia)) as W0. rewrite !Z.add_0_r in W0. unfold view. by rewrite W0, !W by lia.
  - apply Sm.
Qed.

Lemma holds_frame m m' tr t :
  holds m tr t -> m_pages m' = m_pages m ->
  (forall a, a ∈ taddrs t -> forall i, a <= i < a + 16 -> byte_at m' i = byte_at m i) -> holds m' tr t.
Proof. intros H P Same. apply (holds_moved m); [done | | done]. intros a _. by apply node_ok_pages. Qed.

Lemma tiled_det a e a' e' bl : bl <> [] -> tiled a e bl -> tiled a' e' bl -> a = a' /\ e = e'.
Proof.
  revert a a'. induction bl as [|b bl IH]; [done |]. intros a a' _ [Ha Ti] [Ha' Ti'].
  destruct bl as [|c bl]; [simpl in *; lia |]. destruct (IH _ _ ltac:(done) Ti Ti'). lia.
Qed.

Section rewrite_blocks.
Context (h : heap) (l1 bs l2 : list block) (t : tree) (X : list Z) (lo hi : Z) (m' : mem).
Hypothesis inv : heap_inv h (l1 ++ bs ++ l2) t X.
Hypothesis nonempty : bs <> [].
Hypothesis span : tiled lo hi bs.
Hypothesis same : same_but (hmem h) m' lo hi.

Lemma outside_span c : c ∈ l1 ++ l2 -> b_addr c + b_size c <= lo \/ hi <= b_addr c.
Proof.
  assert (S := inv_sized _ _ _ _ inv). assert (Ti := hi_tiled _ _ _ _ inv).
  apply tiled_app in Ti as (p & T1 & Ti). apply tiled_app in Ti as (q & T2 & T3).
  destruct (tiled_det _ _ _ _ _ nonempty T2 span) as [-> ->].
  apply Forall_app in S as [S1 S]. apply Forall_app in S as [_ S3].
  intros [Hc | Hc]%elem_of_app.
  - left. by destruct (tiled_in _ _ _ _ T1 S1 Hc) as (_ & ? & _).
  - right. by destruct (tiled_in _ _ _ _ T3 S3 Hc) as (? & _ & _).
Qed.

Lemma rewrite_keeps c : c ∈ l1 ++ l2 -> keeps_block (hmem h) m' c.
Proof. intros Hc i Hi. apply same. destruct (outside_span c Hc); lia. Qed.

Lemma inv_rewrite bs' X' :
  tiled lo hi bs' -> Forall (block_ok m') bs' ->
  (forall b, b ∈ bs -> b_free b = true -> b_addr b ∈ X) -> (forall b, b ∈ bs' -> b_free b = true -> b_addr b ∈ X') ->
  (forall c, c ∈ l1 ++ l2 -> b_addr c ∈ X' <-> b_addr c ∈ X) ->
  heap_inv (Heap m' (al h) (hpg h)) (l1 ++ bs' ++ l2) t X'.
Proof.
  intros Ti' Bk HX HX' HXX.
  assert (Kept : forall c, c ∈ l1 ++ l2 -> block_ok m' c).
  { intros c Hc. assert (O := outside_span c Hc).
    assert (Hin : c ∈ l1 ++ bs ++ l2) by set_solver. destruct (inv_in _ _ _ _ inv c Hin) as (_ & _ & ?).
    apply (block_ok_words (hmem h)); try (apply (same_but_word _ _ _ _ _ same); lia). by apply (inv_block _ _ _ _ inv). }
  split; cbn [al hmem].
  - assert (Ti := hi_tiled _ _ _ _ inv). apply tiled_app in Ti as (p & T1 & Ti). apply tiled_app in Ti as (q & T2 & T3).
    destruct (tiled_det _ _ _ _ _ nonempty T2 span) as [-> ->]. apply tiled_app. exists lo. split; [done |].
    apply tiled_app. by exists hi.
  - apply inv.
  - intros a Ha. unfold page_present. rewrite (proj1 same). by apply (hi_pages _ _ _ _ inv).
  - apply Forall_app. split; [| apply Forall_app; split; [done |]]; apply Forall_forall; intros c Hc; apply Kept; set_solver.
  - eapply holds_frame; [apply inv | apply same |]. intros a Ha i Hi.
    destruct (inv_tree_node _ _ _ _ inv a Ha) as (c & Hc & Fc & NX & ->).
    assert (Hc' : c ∈ l1 ++ l2).
    { rewrite !elem_of_app in Hc. rewrite elem_of_app. destruct Hc as [? | [Hb | ?]]; [by left | | by right].
      by destruct NX; auto. }
    destruct (inv_in _ _ _ _ inv c Hc) as (_ & _ & ?). apply same. destruct (outside_span c Hc'); lia.
  - apply inv.
  - intros n. rewrite (hi_nodes _ _ _ _ inv). split.
    + intros (c & Hc & Fc & NX & ->). exists c. rewrite !elem_of_app in Hc |- *.
      assert (Hc' : c ∈ l1 ++ l2) by (rewrite elem_of_app; destruct Hc as [? | [Hb | ?]]; [by left | by destruct NX; auto | by right]).
      split_and!; try done; [rewrite elem_of_app in Hc'; tauto | by rewrite HXX].
    + intros (c & Hc & Fc & NX & ->). exists c. rewrite !elem_of_app in Hc |- *.
      assert (Hc' : c ∈ l1 ++ l2) by (rewrite elem_of_app; destruct Hc as [? | [Hb | ?]]; [by left | by destruct NX; auto | by right]).
      split_and!; try done; [rewrite elem_of_app in Hc'; tauto | by rewrite <- HXX].
Qed.
End rewrite_blocks.

(** ** Splitting and merging in memory *)

Lemma region_sub m a n b k : region_present m a n -> a <= b -> b + k <= a + n -> region_present m b k.
Proof. intros R H1 H2 i Hi. replace (b + i) with (a + (b - a + i)) by lia. apply R. lia. Qed.

Lemma block_ok_same m m' lo hi b :
  same_but m m' lo hi -> b_addr b + b_size b <= lo \/ hi <= b_addr b -> block_ok m b -> block_ok m' b.
Proof.
  intros S O B. pose proof (bk_size _ _ B).
  apply (block_ok_words m); try (apply (same_but_word _ _ _ _ _ S); lia). done.
Qed.

Lemma get_size_runs m b :
  region_present m (b_addr b) (b_size b) -> block_ok m b -> 0 < b_addr b -> b_addr b + b_size b < 2 ^ 32 ->
  get_size (b_addr b) m = Ok (b_size b, m).
Proof.
  intros R B H0 H1. pose proof (bk_size _ _ B). unfold get_size. rewrite u32_small by lia.
  rewrite load32_ok by (apply (region_word _ _ _ _ R); lia). by rewrite (bk_data _ _ B).
Qed.

Definition split_block (block requested_size frag_size : Z) : M mem Z :=
  set_size block requested_size;;
  set_magic block;;
  f ← get_footer block;
  set_footer_header f block;;
  set_magic f;;
  next_block ← get_next_block block;
  set_size next_block frag_size;;
  set_magic next_block;;
  f ← get_footer next_block;
  set_footer_header f next_block;;
  set_magic f;;
  mark_free next_block;;
  mret next_block.

Lemma split_runs m b req :
  region_present m (b_addr b) (b_size b) -> block_ok m b -> 0 < b_addr b -> b_addr b + b_size b < 2 ^ 32 ->
  28 <= req -> req mod 4 = 0 -> 28 <= b_size b - req ->
  exists m', split_block (b_addr b) req (b_size b - req) m = Ok (b_addr b + req, m') /\
    same_but m m' (b_addr b) (b_addr b + b_size b) /\ block_ok m' (Block (b_addr b) req (b_free b)) /\
    block_ok m' (Block (b_addr b + req) (b_size b - req) true).
Proof.
  intros R B H0 H1 Hr Ar Hf. destruct (bk_align _ _ B) as [Aa As].
  destruct (stamp_runs m (b_addr b) req) as (m1 & E1 & S1 & M1 & F1 & Z1 & Mf1 & Hd1);
    [by eapply region_sub; [exact R | lia | lia] | done | lia | done |].
  assert (R1 : region_present m1 (b_addr b) (b_size b)) by (by eapply same_but_present).
  set (b1 := Block (b_addr b) req (b_free b)).
  assert (B1 : block_ok m1 b1).
  { split; cbn [b1 b_addr b_size b_free]; try done. change (flag m1 (b_addr b) = b_free b). rewrite F1. apply B. }
  destruct (stamp_free_runs m1 (b_addr b + req) (b_size b - req)) as (m2 & E2 & S2 & B2);
    [eapply region_sub; [exact R1 | lia | lia] | lia | lia | done | Z.div_mod_to_equations; lia | Z.div_mod_to_equations; lia |].
  exists m2. split_and!; [| | | done].
  - unfold split_block. revert E1 E2. unfold mbind, M_bind. destruct (set_size (b_addr b) req m) as [[u0 n0]|]; [| done].
    destruct (set_magic (b_addr b) n0) as [[u1 n1]|]; [| done]. destruct (get_footer (b_addr b) n1) as [[f n2]|]; [| done].
    destruct (set_footer_header f (b_addr b) n2) as [[u2 n3]|]; [| done]. intros ->.
    assert (Gn : get_next_block (b_addr b) m1 = Ok (b_addr b + req, m1)).
    { unfold get_next_block. rewrite (bind_ok _ _ _ _ _ (get_size_runs m1 b1 ltac:(by eapply region_sub; [exact R1 | cbn; lia | cbn; lia]) B1 ltac:(cbn; lia) ltac:(cbn; lia))).
      cbn [b1 b_size]. rewrite u32_small by lia. done. }
    rewrite Gn. intros E2. revert E2.
    destruct (set_size (b_addr b + req) _ m1) as [[u3 n4]|]; [| done]. destruct (set_magic (b_addr b + req) n4) as [[u4 n5]|]; [| done].
    destruct (get_footer (b_addr b + req) n5) as [[f2 n6]|]; [| done].
    destruct (set_footer_header f2 (b_addr b + req) n6) as [[u5 n7]|]; [| done]. destruct (set_magic f2 n7) as [[u6 n8]|]; [| done].
    by intros ->.
  - eapply same_but_trans; [eapply same_but_mono; [exact S1 | lia | lia] | eapply same_but_mono; [exact S2 | lia | lia]].
  - eapply block_ok_same; [exact S2 | cbn; lia | done].
Qed.

Lemma footer_runs m b :
  region_present m (b_addr b) (b_size b) -> block_ok m b -> 0 < b_addr b -> b_addr b + b_size b < 2 ^ 32 ->
  get_footer (b_addr b) m = Ok (b_addr b + b_size b - 8, m).
Proof.
  intros R B H0 H1. pose proof (bk_size _ _ B). unfold get_footer, FOOTER_SIZE.
  rewrite (bind_ok _ _ _ _ _ (get_size_runs m b R B H0 H1)). by rewrite u32_small by lia.
Qed.

(** The writes of merge_right and merge_left: [c] follows [b]. *)
Lemma merge_runs m b c :
  region_present m (b_addr b) (b_size b + b_size c) -> block_ok m b -> block_ok m c -> b_addr c = b_addr b + b_size b ->
  0 < b_addr b -> b_addr c + b_size c < 2 ^ 32 ->
  exists m', (bs ← get_size (b_addr b); cs ← get_size (b_addr c); set_size (b_addr b) (u32 (bs + cs));; mark_free (b_addr b);;
              f ← get_footer (b_addr b); set_footer_header f (b_addr b)) m = Ok (tt, m') /\
    same_but m m' (b_addr b) (b_addr c + b_size c) /\ block_ok m' (Block (b_addr b) (b_size b + b_size c) true).
Proof.
  intros R B C Ec H0 H1. destruct (bk_align _ _ B) as [Ab Sb]. destruct (bk_align _ _ C) as [_ Sc].
  pose proof (bk_size _ _ B) as Zb. pose proof (bk_size _ _ C) as Zc.
  set (lo := b_addr b) in *. set (sz := b_size b + b_size c) in *.
  assert (W : forall m' a, same_but m m' lo (lo + sz) -> lo <= a -> a + 4 <= lo + sz -> word_present m' a = true).
  { intros m' a S Ha1 Ha2. apply (region_word m' lo sz a); [by eapply same_but_present | done | done]. }
  destruct (write_word m (lo + 4) (W m (lo + 4) ltac:(done) ltac:(lia) ltac:(unfold sz; lia)) sz ltac:(unfold sz; lia)) as (m1 & E1 & S1 & W1).
  assert (S1' := same_but_mono _ _ _ _ lo (lo + sz) S1 ltac:(lia) ltac:(unfold sz; lia)).
  destruct (mark_free_runs m1 lo (W m1 lo S1' ltac:(lia) ltac:(unfold sz; lia))) as (m2 & E2 & S2 & M2 & F2).
  assert (S2' := same_but_trans _ _ _ _ _ S1' (same_but_mono _ _ _ _ lo (lo + sz) S2 ltac:(lia) ltac:(unfold sz; lia))).
  destruct (write_word m2 (lo + sz - 4) (W m2 (lo + sz - 4) S2' ltac:(unfold sz; lia) ltac:(lia)) lo ltac:(lia)) as (m3 & E3 & S3 & W3).
  assert (S3' := same_but_trans _ _ _ _ _ S2' (same_but_mono _ _ _ _ lo (lo + sz) S3 ltac:(unfold sz; lia) ltac:(lia))).
  assert (Sz2 : word_at m2 (lo + 4) = sz) by (rewrite (same_but_word _ _ _ _ _ S2) by lia; done).
  exists m3. split_and!.
  - rewrite (bind_ok _ _ _ _ _ (get_size_runs m b ltac:(eapply region_sub; [exact R | unfold lo; lia | unfold sz, lo; lia]) B H0 ltac:(fold lo; lia))).
    rewrite (bind_ok _ _ _ _ _ (get_size_runs m c ltac:(eapply region_sub; [exact R | lia | unfold sz; lia]) C ltac:(lia) H1)).
    fold sz. rewrite (u32_small sz) by (unfold sz; lia). unfold set_size. rewrite (u32_small (lo + 4)) by lia.
    rewrite (bind_ok _ _ _ _ _ E1), (bind_ok _ _ _ _ _ E2). unfold get_footer, get_size, FOOTER_SIZE. rewrite (u32_small (lo + 4)) by lia.
    erewrite bind_ok.
    2:{ rewrite (bind_ok _ _ _ _ _ (load32_ok _ _ (W m2 (lo + 4) S2' ltac:(lia) ltac:(unfold sz; lia)))). apply ret_ok. }
    rewrite Sz2, (u32_small (lo + sz - 8)) by (unfold sz; lia). unfold set_footer_header.
    replace (lo + sz - 8 + 4) with (lo + sz - 4) by lia. by rewrite (u32_small (lo + sz - 4)) by (unfold sz; lia).
  - replace (b_addr c + b_size c) with (lo + sz) by (unfold sz; lia). done.
  - assert (K : forall a, a + 4 <= lo + 4 -> lo <= a -> word_at m3 a = word_at m2 a) by (intros a ??; apply (same_but_word _ _ _ _ _ S3); unfold sz; lia).
    split; cbn [b_addr b_size b_free]; fold lo sz.
    + unfold sz. lia.
    + split; [done |]. unfold sz. Z.div_mod_to_equations. lia.
    + rewrite K by lia. apply M2. unfold magic_ok. rewrite (same_but_word _ _ _ _ _ S1) by lia. apply B.
    + rewrite K by lia. exact F2.
    + rewrite (same_but_word _ _ _ _ _ S3) by (unfold sz; lia). done.
    + rewrite (same_but_word _ _ _ _ _ S3), (same_but_word _ _ _ _ _ S2), (same_but_word _ _ _ _ _ S1) by (unfold sz; lia).
      replace (lo + sz - 8) with (b_addr c + b_size c - 8) by (unfold sz; lia). apply C.
    + done.
Qed.

(** ** alloc *)

(** The blocks that take the place of [b] when [req] bytes of it are used. *)
Definition carve (b : block) (req : Z) : list block :=
  if 28 <=? b_size b - req
  then [Block (b_addr b) req false; Block (b_addr b + req) (b_size b - req) true]
  else [Block (b_addr b) (b_size b) false].

Lemma on_mem_ok {A} (c : M mem A) h r m' : c (hmem h) = Ok (r, m') -> on_mem c h = Ok (r, Heap m' (al h) (hpg h)).
Proof. intros E. unfold on_mem, zoom. by rewrite E. Qed.

Lemma on_mem_read {A} (c : M mem A) h r : c (hmem h) = Ok (r, hmem h) -> on_mem c h = Ok (r, h).
Proof. intros E. unfold on_mem, zoom. rewrite E. by destruct h. Qed.

Lemma inv_used h bl t X u : heap_inv h bl t X -> heap_inv (Heap (hmem h) (with_used u (al h)) (hpg h)) bl t X.
Proof. intros [? ? ? ? ? ? ?]. by split. Qed.

Lemma used_size_app l1 l2 : used_size (l1 ++ l2) = used_size l1 + used_size l2.
Proof. induction l1 as [|b l1 IH]; simpl; [done |]. rewrite IH. lia. Qed.

(** What no operation between two changes of the end touches: the largest size,
    the directory of the heap and the page tables. *)
Definition same_setup (h h' : heap) : Prop :=
  max_size (al h') = max_size (al h) /\ page_dir (al h') = page_dir (al h) /\ hpg h' = hpg h.

#[export] Instance same_setup_preorder : PreOrder same_setup.
Proof.
  split; [done |]. intros h h1 h2 (A1 & A2 & A3) (B1 & B2 & B3). split_and!; congruence.
Qed.

(** What one operation leaves to the next: the bounds, the pages and the memory around. *)
Definition same_bounds (head : Z) (h h' : heap) : Prop :=
  outside_same head h h' /\
  start_address (al h') = start_address (al h) /\ end_address (al h') = end_address (al h) /\
  min_size (al h') = min_size (al h) /\ same_setup h h' /\
  mem_used_ (al h') = mem_used_ (al h) /\ m_pages (hmem h') = m_pages (hmem h).

Lemma frame_bounds head h h' bl X : tree_frame head h h' bl X -> same_bounds head h h'.
Proof. intros (P & [(tr & E) Ep] & O & _). unfold same_bounds, same_setup. rewrite E. by split_and!. Qed.

Lemma same_bounds_trans head h h1 h2 : same_bounds head h h1 -> same_bounds head h1 h2 -> same_bounds head h h2.
Proof.
  intros (O1 & E1 & E2 & ? & S1 & ? & ?) (O2 & ? & ? & ? & S2 & ? & ?). split_and!; try congruence; [| by etrans].
  intros i Hi Hh. rewrite O2, O1; [done | done | done | by rewrite E1, E2 | done].
Qed.

Lemma stack_bounds head h h' : stack_ok head h -> same_bounds head h h' -> stack_ok head h'.
Proof.
  intros [N A] (_ & E1 & E2 & _ & _ & _ & P). split; [by eapply node_ok_pages | by rewrite E1, E2].
Qed.

(** The same, while the bytes in use are counted. *)
Definition same_limits (head : Z) (h h' : heap) : Prop :=
  outside_same head h h' /\
  start_address (al h') = start_address (al h) /\ end_address (al h') = end_address (al h) /\
  min_size (al h') = min_size (al h) /\ same_setup h h' /\ m_pages (hmem h') = m_pages (hmem h).

Lemma bounds_limits head h h' : same_bounds head h h' -> same_limits head h h'.
Proof. intros (? & ? & ? & ? & ? & _ & ?). by split_and!. Qed.

Lemma limits_trans head h h1 h2 : same_limits head h h1 -> same_limits head h1 h2 -> same_limits head h h2.
Proof.
  intros (O1 & E1 & E2 & ? & S1 & ?) (O2 & ? & ? & ? & S2 & ?). split_and!; try congruence; [| by etrans].
  intros i Hi Hh. rewrite O2, O1; [done | done | done | by rewrite E1, E2 | done].
Qed.

Lemma stack_limits head h h' : stack_ok head h -> same_limits head h h' -> stack_ok head h'.
Proof. intros [N A] (_ & E1 & E2 & _ & _ & P). split; [by eapply node_ok_pages | by rewrite E1, E2]. Qed.

(** A change inside the heap. *)
Lemma inside_bounds head h m' lo hi :
  same_but (hmem h) m' lo hi -> start_address (al h) <= lo -> hi <= end_address (al h) -> same_bounds head h (Heap m' (al h) (hpg h)).
Proof. intros [P S] L R. split_and!; try done. intros i Hi _. apply S. lia. Qed.

Section alloc.
Context (table_ap : Z -> M pg (Z * Z)) (frame_data : Z -> mem -> mem) (head : Z) (tree_fuel : nat).

(** The block [b], already out of the tree, is cut to size. *)
Lemma fragment_ok h l1 b l2 t req :
  heap_inv h (l1 ++ b :: l2) t [b_addr b] -> stack_ok head h ->
  28 <= req <= b_size b -> req mod 4 = 0 -> (2 * length (l1 ++ b :: l2) + 3 <= tree_fuel)%nat ->
  exists h' t' c rest, fragment_block head tree_fuel (b_addr b) req h = Ok (tt, h') /\
    Block (b_addr c) (b_size c) false :: rest = carve b req /\ b_addr c = b_addr b /\ b_free c = b_free b /\
    heap_inv h' (l1 ++ (c :: rest) ++ l2) t' [b_addr b] /\ same_bounds head h h' /\
    forall d, d ∈ l1 ++ l2 -> b_free d = false -> keeps_block (hmem h) (hmem h') d.
Proof.
  intros I St Hr Ar Hf. assert (Hb : b ∈ l1 ++ b :: l2) by set_solver.
  destruct (inv_bounds _ _ _ _ I b Hb) as (B0 & B1 & _ & _). assert (Bk := inv_block _ _ _ _ I b Hb).
  assert (Rg := inv_region _ _ _ _ I b Hb). unfold fragment_block.
  rewrite (bind_ok _ _ _ _ _ (on_mem_read _ _ _ (get_size_runs _ _ Rg Bk B0 B1))).
  rewrite u32_small by lia. rewrite min_block_size. unfold carve. destruct (Z.leb_spec 28 (b_size b - req)) as [Hs|Hs].
  - rewrite (proj2 (Z.ltb_lt 0 (b_size b - req))) by lia. cbn [andb].
    destruct (split_runs (hmem h) b req Rg Bk B0 B1 ltac:(lia) Ar Hs) as (m1 & E1 & S1 & Bk1 & Bk2).
    set (c := Block (b_addr b) req (b_free b)) in *. set (r := Block (b_addr b + req) (b_size b - req) true) in *.
    change (l1 ++ b :: l2) with (l1 ++ [b] ++ l2) in I.
    assert (Addr : forall d, d ∈ l1 ++ l2 -> b_addr d <> b_addr b + req).
    { intros d Hd. destruct (outside_span _ _ [b] _ _ _ (b_addr b) (b_addr b + b_size b) I ltac:(done) ltac:(by simpl) d Hd); [| lia].
      destruct (inv_in _ _ _ _ I d ltac:(set_solver)) as (_ & _ & ?). lia. }
    assert (Sb1 : same_bounds head h (Heap m1 (al h) (hpg h))) by (destruct (inv_in _ _ _ _ I b Hb) as (? & ? & _); by eapply inside_bounds).
    assert (I1 : heap_inv (Heap m1 (al h) (hpg h)) (l1 ++ [c; r] ++ l2) t [b_addr r; b_addr b]).
    { eapply (inv_rewrite h l1 [b] l2 t [b_addr b] (b_addr b) (b_addr b + b_size b)); [exact I | done | by simpl | exact S1 | | | | |].
      - simpl. lia.
      - apply Forall_cons. split; [done | by apply Forall_singleton].
      - intros d ->%list_elem_of_singleton _. set_solver.
      - intros d. rewrite !elem_of_cons. intros [-> | [-> | ?%not_elem_of_nil]] _; [right; by left | by left | done].
      - intros d Hd. rewrite elem_of_cons. cbn [r b_addr]. specialize (Addr d Hd). naive_solver. }
    destruct (tree_insert_inv head tree_fuel (Heap m1 (al h) (hpg h)) _ t [b_addr b] r I1) as (h2 & t2 & Run & I2 & Fr).
    { cbn [r b_addr]. rewrite list_elem_of_singleton. lia. }
    { by eapply stack_bounds. }
    { set_solver. }
    { done. }
    { rewrite !length_app in Hf |- *. simpl in Hf |- *. lia. }
    exists h2, t2, c, [r]. split_and!; try done.
    + unfold split_block in E1. rewrite (bind_ok _ _ _ _ _ (on_mem_ok _ _ _ _ E1)). unfold block_to_rbnode.
      rewrite u32_small by lia. cbn [r b_addr] in Run. by rewrite (bind_ok _ _ _ _ _ Run).
    + eapply same_bounds_trans; [exact Sb1 | by eapply frame_bounds].
    + intros d Hd Fd. eapply keeps_trans.
      * apply (rewrite_keeps h l1 [b] l2 t [b_addr b] _ _ m1 I ltac:(done) ltac:(by simpl) S1 d Hd).
      * apply Fr; [set_solver | by left].
  - rewrite andb_false_r.
    exists h, t, b, []. split_and!; try done.
Qed.

(** The header of a block is marked. *)
Lemma mark_used_ok m b :
  region_present m (b_addr b) (b_size b) -> block_ok m b ->
  exists m', mark_used (b_addr b) m = Ok (tt, m') /\ same_but m m' (b_addr b) (b_addr b + b_size b) /\
    block_ok m' (Block (b_addr b) (b_size b) false).
Proof.
  intros R B. pose proof (bk_size _ _ B).
  destruct (mark_used_runs m (b_addr b)) as (m' & E & S & M & F); [apply (region_word _ _ _ _ R); lia |].
  exists m'. split_and!; [done | eapply same_but_mono; [exact S | lia | lia] |].
  split; cbn [b_addr b_size b_free]; try (rewrite (same_but_word _ _ _ _ _ S) by lia); try apply B; [apply M, B | exact F].
Qed.

Lemma mark_free_ok m b :
  region_present m (b_addr b) (b_size b) -> block_ok m b ->
  exists m', mark_free (b_addr b) m = Ok (tt, m') /\ same_but m m' (b_addr b) (b_addr b + b_size b) /\
    block_ok m' (Block (b_addr b) (b_size b) true).
Proof.
  intros R B. pose proof (bk_size _ _ B).
  destruct (mark_free_runs m (b_addr b)) as (m' & E & S & M & F); [apply (region_word _ _ _ _ R); lia |].
  exists m'. split_and!; [done | eapply same_but_mono; [exact S | lia | lia] |].
  split; cbn [b_addr b_size b_free]; try (rewrite (same_but_word _ _ _ _ _ S) by lia); try apply B; [apply M, B | exact F].
Qed.

(** The block is marked used and counted. *)
Lemma take_block_ok h l1 c l2 t :
  heap_inv h (l1 ++ c :: l2) t [b_addr c] ->
  exists h', (on_mem (mark_used (b_addr c));; s ← on_mem (get_size (b_addr c)); add_mem_used s;;
              mret (block_to_user (b_addr c))) h = Ok (b_addr c + 8, h') /\
    heap_inv h' (l1 ++ Block (b_addr c) (b_size c) false :: l2) t [] /\
    mem_used_ (al h') = u32 (mem_used_ (al h) + b_size c) /\ same_limits head h h' /\
    (forall d, d ∈ l1 ++ l2 -> keeps_block (hmem h) (hmem h') d).
Proof.
  intros I. assert (Hc : c ∈ l1 ++ c :: l2) by set_solver.
  destruct (inv_bounds _ _ _ _ I c Hc) as (B0 & B1 & _ & _). assert (Bk := inv_block _ _ _ _ I c Hc).
  assert (Rg := inv_region _ _ _ _ I c Hc). pose proof (bk_size _ _ Bk) as Sz.
  destruct (mark_used_ok (hmem h) c Rg Bk) as (m1 & E1 & S1 & Bk1). set (c' := Block (b_addr c) (b_size c) false) in *.
  change (l1 ++ c :: l2) with (l1 ++ [c] ++ l2) in I.
  assert (I1 : heap_inv (Heap m1 (al h) (hpg h)) (l1 ++ [c'] ++ l2) t []).
  { eapply (inv_rewrite h l1 [c] l2 t [b_addr c] (b_addr c) (b_addr c + b_size c)); [exact I | done | by simpl | exact S1 | by simpl | | | |].
    - by apply Forall_singleton.
    - intros d ->%list_elem_of_singleton _. set_solver.
    - intros d ->%list_elem_of_singleton. done.
    - intros d Hd. rewrite elem_of_nil, list_elem_of_singleton. split; [done |]. intros E.
      destruct (outside_span _ _ [c] _ _ _ (b_addr c) (b_addr c + b_size c) I ltac:(done) ltac:(by simpl) d Hd); [| lia].
      destruct (inv_in _ _ _ _ I d ltac:(set_solver)) as (_ & _ & ?). lia. }
  eexists. split_and!.
  - rewrite (bind_ok _ _ _ _ _ (on_mem_ok _ _ _ _ E1)).
    rewrite (bind_ok _ _ _ _ _ (on_mem_read _ (Heap m1 (al h) (hpg h)) _ (get_size_runs m1 c' (same_but_present _ _ _ _ _ _ S1 Rg) Bk1 B0 B1))).
    rewrite (bind_ok _ _ (Heap m1 (al h) (hpg h)) tt _ eq_refl). unfold block_to_user, USER_PTR_OFFSET. by rewrite u32_small by lia.
  - apply (inv_used _ _ _ _ _ I1).
  - done.
  - split_and!; try done; [| apply S1]. destruct (inv_in _ _ _ _ I c Hc) as (? & ? & _). intros i Hi _. apply S1. lia.
  - intros d Hd. exact (rewrite_keeps h l1 [c] l2 t [b_addr c] _ _ m1 I ltac:(done) ltac:(by simpl) S1 d Hd).
Qed.

(** The block [b] is out of the tree: it is cut to size and used. *)
Lemma cut_block_ok h l1 b l2 t req :
  heap_inv h (l1 ++ b :: l2) t [b_addr b] -> stack_ok head h -> 28 <= req <= b_size b -> req mod 4 = 0 ->
  (2 * length (l1 ++ b :: l2) + 3 <= tree_fuel)%nat ->
  exists h' t', (fragment_block head tree_fuel (b_addr b) req;; on_mem (mark_used (b_addr b));;
      s ← on_mem (get_size (b_addr b)); add_mem_used s;; mret (block_to_user (b_addr b))) h = Ok (b_addr b + 8, h') /\
    heap_inv h' (l1 ++ carve b req ++ l2) t' [] /\ mem_used_ (al h') = u32 (mem_used_ (al h) + used_size (carve b req)) /\
    same_limits head h h' /\ (forall d, d ∈ l1 ++ l2 -> b_free d = false -> keeps_block (hmem h) (hmem h') d).
Proof.
  intros I St Hr R2 Hf.
  destruct (fragment_ok h l1 b l2 t req I St Hr R2 Hf) as (h2 & t2 & c & rest & Run2 & Ec & Ac & Fc & I2 & Sb & K2).
  rewrite <- Ac in I2. destruct (take_block_ok h2 l1 c (rest ++ l2) t2 I2) as (h3 & Run3 & I3 & Us3 & Li3 & K3).
  assert (Rest : used_size rest = 0) by (revert Ec; unfold carve; case_match; intros Er; by simplify_eq).
  exists h3, t2. rewrite <- Ec. cbn [used_size foldr b_free b_size]. fold (used_size rest). rewrite Rest, Z.add_0_r. split_and!.
  - rewrite (bind_ok _ _ _ _ _ Run2). rewrite <- Ac. exact Run3.
  - exact I3.
  - rewrite Us3. by destruct Sb as (_ & _ & _ & _ & _ & -> & _).
  - eapply limits_trans; [eapply bounds_limits; eassumption | done].
  - intros d Hd Fd. eapply keeps_trans; [by apply K2 |]. apply K3. rewrite !elem_of_app in *. naive_solver.
Qed.

(** The bytes in use, when a free block was replaced. *)
Lemma used_replaced u l1 b l2 bs :
  b_free b = true -> u = u32 (used_size (l1 ++ b :: l2)) -> u32 (u + used_size bs) = u32 (used_size (l1 ++ bs ++ l2)).
Proof.
  intros Fb ->. unfold u32. rewrite Zplus_mod_idemp_l. f_equal. rewrite !used_size_app. simpl. rewrite Fb. lia.
Qed.

Lemma used_elsewhere l1 b l2 d : b_free b = true -> d ∈ l1 ++ b :: l2 -> b_free d = false -> d ∈ l1 ++ l2.
Proof. intros Fb Hd Fd. rewrite elem_of_app, elem_of_cons in Hd. rewrite elem_of_app. destruct Hd as [? | [-> | ?]]; [by left | congruence | by right]. Qed.

Lemma alloc_fit h bl t fuel size al_ :
  heap_ok h bl t -> stack_ok head h -> al_ = 0 \/ al_ = 1 -> 0 <= size -> size + 19 < 2 ^ 32 ->
  (exists c, c ∈ bl /\ b_free c = true /\ get_block_size size <= b_size c) ->
  (2 * length bl + 3 <= tree_fuel)%nat ->
  let req := get_block_size size in
  exists l1 b l2 h' t', bl = l1 ++ b :: l2 /\ b_free b = true /\ req <= b_size b /\
    (forall c, c ∈ bl -> b_free c = true -> req <= b_size c -> b_size b <= b_size c) /\
    alloc table_ap frame_data head tree_fuel (S fuel) size al_ h = Ok (b_addr b + 8, h') /\
    heap_ok h' (l1 ++ carve b req ++ l2) t' /\ same_limits head h h' /\
    (forall d, d ∈ bl -> b_free d = false -> keeps_block (hmem h) (hmem h') d).
Proof.
  intros [I Us] St Ha H0 H1 (c0 & Hc0 & Fc0 & Fit0) Hf req. destruct (get_block_size_ok size H0 H1) as (R1 & R2 & _). fold req in R1, R2.
  destruct (tree_remove_fit head tree_fuel h bl t [] I St ltac:(lia) req) as (n & h1 & t1 & Run & Fr & Cases).
  destruct Cases as [(_ & _ & None_)|(b & Hb & Fb & _ & -> & Fit & Best & I1)].
  { specialize (None_ c0 Hc0 Fc0 ltac:(apply not_elem_of_nil)). fold req in Fit0. lia. }
  apply list_elem_of_split in Hb as (l1 & l2 & ->).
  assert (Hb : b ∈ l1 ++ b :: l2) by set_solver. destruct (inv_bounds _ _ _ _ I b Hb) as (B0 & B1 & _ & _).
  assert (Sb := frame_bounds _ _ _ _ _ Fr).
  destruct (cut_block_ok h1 l1 b l2 t1 req I1 (stack_bounds _ _ _ St Sb) ltac:(lia) R2 Hf) as (h2 & t2 & Run2 & I2 & Us2 & Li2 & K2).
  exists l1, b, l2, h2, t2. split_and!; try done.
  - intros d Hd Fd. apply Best; [done | done | apply not_elem_of_nil].
  - cbn [alloc]. fold req. replace (if al_ =? 0 then 1 else al_) with 1 by (by destruct Ha as [-> | ->]).
    rewrite (bind_ok _ _ _ _ _ Run). rewrite (proj2 (Z.eqb_neq (b_addr b + 4) 0)) by lia.
    unfold rbnode_to_block. replace (b_addr b + 4 - 4) with (b_addr b) by lia. rewrite u32_small by (pose proof (bk_size _ _ (inv_block _ _ _ _ I b Hb)); lia).
    rewrite (bind_ok _ _ h1 (b_addr b) h1) by (unfold align_block; by rewrite Z.mod_1_r). exact Run2.
  - split; [exact I2 |]. rewrite Us2. destruct Sb as (_ & _ & _ & _ & _ & -> & _). by eapply used_replaced.
  - eapply limits_trans; [eapply bounds_limits, Sb | done].
  - intros d Hd Fd. eapply keeps_trans; [apply Fr; [done | by left] |]. apply K2; [by eapply used_elsewhere | done].
Qed.
End alloc.

(** ** free *)

(** The block [b], free now, merged with the block behind it, and what follows. *)
Definition free_right (b : block) (l2 : list block) : block * list block :=
  match l2 with
  | r :: l2' =>
      if b_free r then (Block (b_addr b) (b_size b + b_size r) true, l2')
      else (Block (b_addr b) (b_size b) true, l2)
  | [] => (Block (b_addr b) (b_size b) true, [])
  end.

(** The blocks up to [b], merged with the block before it. *)
Definition free_left (l1 : list block) (b : block) : list block :=
  match last l1 with
  | Some l => if b_free l then removelast l1 ++ [Block (b_addr l) (b_size l + b_size b) true] else l1 ++ [b]
  | None => [b]
  end.

Definition freed (l1 : list block) (b : block) (l2 : list block) : list block :=
  let '(c, l2') := free_right b l2 in free_left l1 c ++ l2'.

Lemma check_magic_runs m a : word_present m a = true -> magic_ok m a -> check_magic a m = Ok (true, m).
Proof.
  intros W M. unfold check_magic. rewrite (bind_ok _ _ _ _ _ (load32_ok _ _ W)). unfold magic_ok in M. by rewrite M, Z.eqb_refl.
Qed.

Lemma is_free_runs m a : word_present m a = true -> is_free a m = Ok (flag m a, m).
Proof. intros W. unfold is_free. by rewrite (bind_ok _ _ _ _ _ (load32_ok _ _ W)). Qed.

Lemma andM_true {A} (c : M A bool) s : andM (mret true) c s = c s.
Proof. done. Qed.

Lemma andM_ok {A} (c1 c2 : M A bool) s : c1 s = Ok (true, s) -> andM c1 c2 s = c2 s.
Proof. intros E. unfold andM. by rewrite (bind_ok _ _ _ _ _ E). Qed.

Section free.
Context (table_ap : Z -> M pg (Z * Z)) (frame_data : Z -> mem -> mem) (head : Z) (tree_fuel : nat).

Section neighbours.
Context (h : heap) (bl : list block) (t : tree) (X : list Z).
Hypothesis inv : heap_inv h bl t X.

(** The tests on a neighbour see its header. *)
Lemma right_is_free_ok r : r ∈ bl -> right_is_free (b_addr r) h = Ok (b_free r, h).
Proof.
  intros Hr. destruct (inv_bounds _ _ _ _ inv r Hr) as (B0 & B1 & _ & _). assert (Bk := inv_block _ _ _ _ inv r Hr).
  assert (Rg := inv_region _ _ _ _ inv r Hr). pose proof (bk_size _ _ Bk) as Sz. destruct (inv_in _ _ _ _ inv r Hr) as (_ & Le & _).
  unfold right_is_free. rewrite (bind_ok _ _ h (end_address (al h)) h) by done. apply on_mem_read.
  rewrite (bind_ok _ _ _ _ _ (get_size_runs _ _ Rg Bk B0 B1)). rewrite u32_small by lia.
  rewrite (proj2 (Z.leb_le _ _) Le), andM_true.
  rewrite andM_ok by (apply check_magic_runs; [apply (region_word _ _ _ _ Rg); lia | apply Bk]).
  rewrite andM_ok.
  - rewrite is_free_runs by (apply (region_word _ _ _ _ Rg); lia). unfold flag. by rewrite (bk_free _ _ Bk).
  - rewrite (bind_ok _ _ _ _ _ (footer_runs _ _ Rg Bk B0 B1)). apply check_magic_runs; [apply (region_word _ _ _ _ Rg); lia | apply Bk].
Qed.

Lemma left_is_free_ok l : l ∈ bl -> left_is_free (b_addr l + b_size l - 8) h = Ok (b_free l, h).
Proof.
  intros Hl. destruct (inv_bounds _ _ _ _ inv l Hl) as (B0 & B1 & _ & _). assert (Bk := inv_block _ _ _ _ inv l Hl).
  assert (Rg := inv_region _ _ _ _ inv l Hl). pose proof (bk_size _ _ Bk) as Sz. destruct (inv_in _ _ _ _ inv l Hl) as (Ge & _ & _).
  unfold left_is_free. rewrite (bind_ok _ _ h (start_address (al h)) h) by done. apply on_mem_read.
  unfold footer_header. replace (b_addr l + b_size l - 8 + 4) with (b_addr l + b_size l - 4) by lia. rewrite u32_small by lia.
  rewrite (bind_ok _ _ _ _ _ (load32_ok _ _ (region_word _ _ _ (b_addr l + b_size l - 4) Rg ltac:(lia) ltac:(lia)))).
  rewrite (bk_header _ _ Bk), (proj2 (Z.leb_le _ _) Ge), andM_true.
  rewrite andM_ok by (apply check_magic_runs; [apply (region_word _ _ _ _ Rg); lia | apply Bk]).
  rewrite andM_ok by (apply check_magic_runs; [apply (region_word _ _ _ _ Rg); lia | apply Bk]).
  rewrite is_free_runs by (apply (region_word _ _ _ _ Rg); lia). unfold flag. by rewrite (bk_free _ _ Bk).
Qed.

(** Blocks that follow one another. *)
Lemma inv_next l1 b c l2 : bl = l1 ++ b :: c :: l2 -> b_addr c = b_addr b + b_size b.
Proof.
  intros E. assert (Ti := hi_tiled _ _ _ _ inv). rewrite E in Ti. apply tiled_app in Ti as (p & _ & Eb & Ec & _). lia.
Qed.
End neighbours.

(** The block [c] swallows the free block [r] behind it: [a] is the one that
    was taken out of the tree first. *)
Lemma swallow_ok h l1 b c l2 t X a :
  heap_inv h (l1 ++ b :: c :: l2) t X -> X ≡ₚ [b_addr b; b_addr c] -> a = b_addr b ->
  exists m', (bs ← get_size (b_addr b); cs ← get_size (b_addr c); set_size (b_addr b) (u32 (bs + cs));; mark_free (b_addr b);;
              f ← get_footer (b_addr b); set_footer_header f (b_addr b)) (hmem h) = Ok (tt, m') /\
    heap_inv (Heap m' (al h) (hpg h)) (l1 ++ Block (b_addr b) (b_size b + b_size c) true :: l2) t [a] /\
    same_bounds head h (Heap m' (al h) (hpg h)) /\
    (forall d, d ∈ l1 ++ l2 -> keeps_block (hmem h) m' d).
Proof.
  intros I HX ->. assert (Hb : b ∈ l1 ++ b :: c :: l2) by set_solver. assert (Hc : c ∈ l1 ++ b :: c :: l2) by set_solver.
  assert (Ec := inv_next _ _ _ _ I _ _ _ _ eq_refl).
  destruct (inv_bounds _ _ _ _ I b Hb) as (B0 & B1 & _ & _). destruct (inv_bounds _ _ _ _ I c Hc) as (C0 & C1 & _ & _).
  assert (Bb := inv_block _ _ _ _ I b Hb). assert (Bc := inv_block _ _ _ _ I c Hc).
  assert (Rb := inv_region _ _ _ _ I b Hb). assert (Rc := inv_region _ _ _ _ I c Hc).
  pose proof (bk_size _ _ Bb). pose proof (bk_size _ _ Bc).
  destruct (merge_runs (hmem h) b c) as (m' & E & S & Bk); try done.
  { intros i Hi. destruct (decide (i < b_size b)); [apply Rb; lia |].
    replace (b_addr b + i) with (b_addr c + (i - b_size b)) by lia. apply Rc. lia. }
  change (l1 ++ b :: c :: l2) with (l1 ++ [b; c] ++ l2) in I.
  assert (Span : tiled (b_addr b) (b_addr c + b_size c) [b; c]) by (simpl; lia).
  exists m'. split_and!; [done | | | intros d Hd; exact (rewrite_keeps _ _ _ _ _ _ _ _ _ I ltac:(done) Span S d Hd)].
  { apply (inv_rewrite h l1 [b; c] l2 t X (b_addr b) (b_addr c + b_size c) m' I ltac:(done) Span S [Block (b_addr b) (b_size b + b_size c) true]).
  - simpl. lia.
  - by apply Forall_singleton.
  - intros d Hd _. rewrite HX. set_solver.
  - intros d ->%list_elem_of_singleton _. cbn [b_addr]. set_solver.
  - intros d Hd. rewrite HX, !elem_of_cons. split; [tauto |]. intros [? | [? | ?]]; [by left | | by right].
    exfalso. destruct (outside_span _ _ _ _ _ _ _ _ I ltac:(done) Span d Hd); [| lia].
    destruct (inv_in _ _ _ _ I d ltac:(set_solver)) as (_ & _ & ?). lia. }
  destruct (inv_in _ _ _ _ I b ltac:(set_solver)) as (? & _ & _). destruct (inv_in _ _ _ _ I c ltac:(set_solver)) as (_ & ? & _).
  by eapply inside_bounds.
Qed.

Lemma merge_right_ok h l1 c r l2 t :
  heap_inv h (l1 ++ c :: r :: l2) t [b_addr c] -> b_free c = true -> stack_ok head h ->
  (length (l1 ++ c :: r :: l2) < tree_fuel)%nat ->
  let '(c', l2') := free_right c (r :: l2) in
  exists h' t', merge_right head tree_fuel (b_addr c) h = Ok (true, h') /\
    heap_inv h' (l1 ++ c' :: l2') t' [b_addr c'] /\ same_bounds head h h' /\
    forall d, d ∈ l1 ++ r :: l2 -> b_free d = false -> keeps_block (hmem h) (hmem h') d.
Proof.
  intros I Fc St Hf. assert (Hc : c ∈ l1 ++ c :: r :: l2) by set_solver. assert (Hr : r ∈ l1 ++ c :: r :: l2) by set_solver.
  assert (Er := inv_next _ _ _ _ I _ _ _ _ eq_refl).
  destruct (inv_bounds _ _ _ _ I c Hc) as (C0 & C1 & _ & _). destruct (inv_bounds _ _ _ _ I r Hr) as (R0 & R1 & _ & _).
  assert (Bc := inv_block _ _ _ _ I c Hc). assert (Rc := inv_region _ _ _ _ I c Hc).
  pose proof (bk_size _ _ Bc) as Zc. pose proof (bk_size _ _ (inv_block _ _ _ _ I r Hr)) as Zr.
  assert (Gs := get_size_runs _ _ (inv_region _ _ _ _ I r Hr) (inv_block _ _ _ _ I r Hr) R0 R1).
  unfold merge_right, get_next_block.
  assert (Nx : on_mem (s ← get_size (b_addr c); mret (u32 (b_addr c + s))) h = Ok (b_addr r, h)).
  { apply on_mem_read. rewrite (bind_ok _ _ _ _ _ (get_size_runs _ _ Rc Bc C0 C1)). rewrite u32_small by lia. by rewrite Er. }
  unfold free_right. destruct (b_free r) eqn:Fr.
  - destruct (tree_remove_inv head tree_fuel h _ t [b_addr c] I St Hf r Hr Fr) as (h1 & t1 & Run & I1 & Frm).
    { rewrite list_elem_of_singleton. lia. }
    destruct (swallow_ok h1 l1 c r l2 t1 [b_addr r; b_addr c] (b_addr c) I1 ltac:(apply Permutation_swap) eq_refl) as (m2 & E2 & I2 & P2 & K2).
    exists (Heap m2 (al h1) (hpg h1)), t1. split_and!.
    + rewrite (bind_ok _ _ _ _ _ Nx), (bind_ok _ _ _ _ _ (right_is_free_ok _ _ _ _ I r Hr)), Fr.
      rewrite (bind_ok _ _ _ _ _ (on_mem_read _ _ _ Gs)). unfold block_to_rbnode. rewrite (u32_small (b_addr r + 4)) by lia.
      rewrite (bind_ok _ _ _ _ _ Run), (proj2 (Z.eqb_neq (b_addr r + 4) 0)) by lia.
      by rewrite (bind_ok _ _ _ _ _ (on_mem_ok _ _ _ _ E2)).
    + exact I2.
    + eapply same_bounds_trans; [by eapply frame_bounds | exact P2].
    + intros d Hd Fd. assert (Hd' : d ∈ l1 ++ l2).
      { rewrite elem_of_app, elem_of_cons in Hd. rewrite elem_of_app. destruct Hd as [? | [-> | ?]]; [by left | congruence | by right]. }
      eapply keeps_trans; [apply Frm; [set_solver | by left] | by apply K2].
  - exists h, t. split_and!; try done.
    + by rewrite (bind_ok _ _ _ _ _ Nx), (bind_ok _ _ _ _ _ (right_is_free_ok _ _ _ _ I r Hr)), Fr.
    + destruct c as [ca cs cf]. simpl in Fc |- *. by subst cf.
Qed.

(** What lies before the first block is not taken for a footer of the heap. *)
Definition left_guard (h : heap) : Prop :=
  8 <= start_address (al h) /\ (head + 16 <= start_address (al h) - 4 \/ start_address (al h) <= head) /\ word_present (hmem h) (start_address (al h) - 4) = true /\
  word_at (hmem h) (start_address (al h) - 4) < start_address (al h).

Lemma guard_kept h h' :
  left_guard h -> start_address (al h') = start_address (al h) -> m_pages (hmem h') = m_pages (hmem h) ->
  (forall i, start_address (al h) - 4 <= i < start_address (al h) -> byte_at (hmem h') i = byte_at (hmem h) i) -> left_guard h'.
Proof.
  intros (G0 & Gh & G1 & G2) E P S. unfold left_guard. rewrite E. split_and!; [done | done | |].
  - unfold word_present, page_present in *. by rewrite P.
  - unfold word_at in *. by rewrite !S by lia.
Qed.

Lemma merge_left_ok h l1 c l2 t :
  heap_inv h (l1 ++ c :: l2) t [b_addr c] -> b_free c = true -> stack_ok head h -> (l1 = [] -> left_guard h) ->
  (length (l1 ++ c :: l2) < tree_fuel)%nat ->
  exists h' t' l1' c', merge_left head tree_fuel (b_addr c) h = Ok (b_addr c', h') /\
    free_left l1 c = l1' ++ [c'] /\ b_free c' = true /\ b_addr c' + b_size c' = b_addr c + b_size c /\
    heap_inv h' (l1' ++ c' :: l2) t' [b_addr c'] /\ same_bounds head h h' /\
    forall d, d ∈ l1 ++ l2 -> b_free d = false -> keeps_block (hmem h) (hmem h') d.
Proof.
  intros I Fc St Lg Hf. assert (Hc : c ∈ l1 ++ c :: l2) by set_solver.
  destruct (inv_bounds _ _ _ _ I c Hc) as (C0 & C1 & _ & _). pose proof (bk_size _ _ (inv_block _ _ _ _ I c Hc)) as Zc.
  unfold merge_left, get_left_footer, FOOTER_SIZE. unfold free_left. destruct l1 as [|l l1 _] using rev_ind.
  - destruct (Lg eq_refl) as (G0 & _ & G1 & G2). assert (Ec : b_addr c = start_address (al h)) by (destruct (hi_tiled _ _ _ _ I); done).
    exists h, t, [], c. split_and!; try done. rewrite (bind_ok _ _ h false h); [done |].
    unfold left_is_free. rewrite (bind_ok _ _ h (start_address (al h)) h) by done. apply on_mem_read.
    unfold footer_header. rewrite Ec, (u32_small (start_address (al h) - 8)) by lia.
    replace (start_address (al h) - 8 + 4) with (start_address (al h) - 4) by lia. rewrite u32_small by lia.
    rewrite (bind_ok _ _ _ _ _ (load32_ok _ _ G1)). rewrite (proj2 (Z.leb_gt _ _) G2). done.
  - rewrite last_snoc. rewrite <- app_assoc in I, Hf, Hc. simpl in I, Hf, Hc.
    assert (Hl : l ∈ l1 ++ l :: c :: l2) by set_solver. assert (Ec := inv_next _ _ _ _ I _ _ _ _ eq_refl).
    destruct (inv_bounds _ _ _ _ I l Hl) as (L0 & L1 & _ & _). assert (Bl := inv_block _ _ _ _ I l Hl).
    assert (Rl := inv_region _ _ _ _ I l Hl). pose proof (bk_size _ _ Bl) as Zl.
    assert (Tst := left_is_free_ok _ _ _ _ I l Hl). rewrite <- Ec in Tst. rewrite (u32_small (b_addr c - 8)) by lia.
    destruct (b_free l) eqn:Fl.
    + destruct (tree_remove_inv head tree_fuel h _ t [b_addr c] I St Hf l Hl Fl) as (h1 & t1 & Run & I1 & Frm).
      { rewrite list_elem_of_singleton. lia. }
      destruct (swallow_ok h1 l1 l c l2 t1 [b_addr l; b_addr c] (b_addr l) I1 ltac:(done) eq_refl) as (m2 & E2 & I2 & P2 & K2).
      exists (Heap m2 (al h1) (hpg h1)), t1, l1, (Block (b_addr l) (b_size l + b_size c) true). cbn [b_addr b_size b_free].
      rewrite removelast_last. split_and!; try done; [| lia | |].
      * rewrite (bind_ok _ _ _ _ _ Tst).
        assert (Fh : footer_header (b_addr c - 8) (hmem h) = Ok (b_addr l, hmem h)).
        { unfold footer_header. replace (b_addr c - 8 + 4) with (b_addr l + b_size l - 4) by lia. rewrite u32_small by lia.
          rewrite load32_ok by (apply (region_word _ _ _ _ Rl); lia). by rewrite (bk_header _ _ Bl). }
        rewrite (bind_ok _ _ _ _ _ (on_mem_read _ _ _ Fh)).
        rewrite (bind_ok _ _ _ _ _ (on_mem_read _ _ _ (get_size_runs _ _ Rl Bl L0 L1))).
        unfold block_to_rbnode. rewrite (u32_small (b_addr l + 4)) by lia.
        rewrite (bind_ok _ _ _ _ _ Run), (proj2 (Z.eqb_neq (b_addr l + 4) 0)) by lia.
        by rewrite (bind_ok _ _ _ _ _ (on_mem_ok _ _ _ _ E2)).
      * eapply same_bounds_trans; [by eapply frame_bounds | exact P2].
      * intros d Hd Fd. rewrite <- app_assoc in Hd. simpl in Hd. assert (Hd' : d ∈ l1 ++ l2).
        { rewrite elem_of_app, elem_of_cons in Hd. rewrite elem_of_app. destruct Hd as [? | [-> | ?]]; [by left | congruence | by right]. }
        eapply keeps_trans; [apply Frm; [set_solver | by left] | by apply K2].
    + exists h, t, (l1 ++ [l]), c. split_and!; try done.
      * by rewrite (bind_ok _ _ _ _ _ Tst).
      * by rewrite <- app_assoc.
Qed.

Lemma used_free_left l1 c : b_free c = true -> used_size (free_left l1 c) = used_size l1.
Proof.
  intros Fc. unfold free_left. destruct l1 as [|l l1 _] using rev_ind; [simpl; by rewrite Fc |].
  rewrite last_snoc. destruct (b_free l) eqn:Fl.
  - rewrite removelast_last, !used_size_app. simpl. rewrite Fl. lia.
  - rewrite used_size_app. simpl. rewrite Fc. lia.
Qed.

Lemma used_freed l1 b l2 : used_size (freed l1 b l2) = used_size l1 + used_size l2.
Proof.
  unfold freed, free_right. destruct l2 as [|r l2]; [| destruct (b_free r) eqn:Fr];
    rewrite used_size_app, used_free_left by done; simpl; rewrite ?Fr; lia.
Qed.

Lemma used_in_freed l1 b l2 d : d ∈ l1 ++ l2 -> b_free d = false -> d ∈ freed l1 b l2.
Proof.
  intros Hd Fd. assert (Left : forall c, d ∈ l1 -> d ∈ free_left l1 c).
  { intros c Hl. unfold free_left. destruct l1 as [|l l1 _] using rev_ind; [by apply not_elem_of_nil in Hl |].
    rewrite last_snoc. destruct (b_free l) eqn:Fl; [| rewrite elem_of_app; by left].
    rewrite removelast_last. apply elem_of_app in Hl as [Hl | ->%list_elem_of_singleton]; [rewrite elem_of_app; by left | congruence]. }
  unfold freed, free_right. apply elem_of_app in Hd as [Hd | Hd].
  - destruct l2 as [|r l2]; [| destruct (b_free r)]; rewrite elem_of_app; left; by apply Left.
  - destruct l2 as [|r l2]; [by apply not_elem_of_nil in Hd |]. destruct (b_free r) eqn:Fr; rewrite elem_of_app; right; [| done].
    apply elem_of_cons in Hd as [-> | Hd]; [congruence | done].
Qed.

(** The freed block does not end the heap, or the heap is as small as it may be. *)
Definition no_contraction (h : heap) (l2 : list block) : Prop :=
  match l2 with
  | [] => False
  | r :: l2' => end_address (al h) - start_address (al h) <= min_size (al h) \/ l2' <> [] \/ b_free r = false
  end.

Lemma release_end_no h bl t X c :
  heap_inv h bl t X -> c ∈ bl ->
  b_addr c + b_size c <> end_address (al h) \/ end_address (al h) - start_address (al h) <= min_size (al h) ->
  release_end table_ap frame_data (b_addr c) h = Ok (true, h).
Proof.
  intros I Hc Hn. destruct (inv_bounds _ _ _ _ I c Hc) as (C0 & C1 & _ & _). assert (Bc := inv_block _ _ _ _ I c Hc).
  pose proof (bk_size _ _ Bc) as Zc. destruct (inv_in _ _ _ _ I c Hc) as (Lo & Hi & _). destruct (hi_range _ _ _ _ I) as [G0 G1].
  unfold release_end. rewrite (bind_ok _ _ _ _ _ (on_mem_read _ _ _ (footer_runs _ _ (inv_region _ _ _ _ I c Hc) Bc C0 C1))).
  rewrite (bind_ok _ _ h (al h) h) by done. unfold FOOTER_SIZE.
  replace (b_addr c + b_size c - 8 + 8) with (b_addr c + b_size c) by lia. rewrite u32_small by lia.
  rewrite (u32_small (end_address (al h) - start_address (al h))) by lia.
  destruct Hn as [Hn | Hn]; [rewrite (proj2 (Z.eqb_neq _ _) Hn) | rewrite (proj2 (Z.ltb_ge _ _) Hn), andb_false_r]; done.
Qed.

(** The end of the block after the merge on the right. *)
Lemma free_right_end h l1 b l2 t X :
  heap_inv h (l1 ++ b :: l2) t X -> no_contraction h l2 ->
  let '(c, l2') := free_right b l2 in
  b_addr c + b_size c <> end_address (al h) \/ end_address (al h) - start_address (al h) <= min_size (al h).
Proof.
  intros I Hn. destruct l2 as [|r l2]; [done |]. assert (Er := inv_next _ _ _ _ I _ _ _ _ eq_refl).
  destruct (inv_in _ _ _ _ I r ltac:(set_solver)) as (_ & Hr & Zr).
  unfold free_right. destruct Hn as [Hn | [Hn | Hn]]; [destruct (b_free r); by right | |].
  - destruct l2 as [|q l2]; [done |]. assert (Eq := inv_next _ _ _ _ I (l1 ++ [b]) r q l2 ltac:(by rewrite <- app_assoc)).
    destruct (inv_in _ _ _ _ I q ltac:(set_solver)) as (_ & Hq & Zq). destruct (b_free r); left; cbn [b_addr b_size]; lia.
  - rewrite Hn. left. cbn [b_addr b_size]. lia.
Qed.

(** The block is marked free. *)
Lemma unuse_ok h l1 b l2 t :
  heap_inv h (l1 ++ b :: l2) t [] -> b_free b = false ->
  let b1 := Block (b_addr b) (b_size b) true in
  exists m1, check_magic (b_addr b) (hmem h) = Ok (true, hmem h) /\ is_free (b_addr b) (hmem h) = Ok (false, hmem h) /\
    mark_free (b_addr b) (hmem h) = Ok (tt, m1) /\ (f ← get_footer (b_addr b); check_magic f) m1 = Ok (true, m1) /\
    get_size (b_addr b) m1 = Ok (b_size b, m1) /\ m_pages m1 = m_pages (hmem h) /\
    heap_inv (Heap m1 (al h) (hpg h)) (l1 ++ b1 :: l2) t [b_addr b] /\
    (forall i, i < b_addr b \/ b_addr b + b_size b <= i -> byte_at m1 i = byte_at (hmem h) i) /\
    forall d, d ∈ l1 ++ l2 -> keeps_block (hmem h) m1 d.
Proof.
  intros I Fb b1. assert (Hb : b ∈ l1 ++ b :: l2) by set_solver.
  destruct (inv_bounds _ _ _ _ I b Hb) as (B0 & B1 & _ & _). assert (Bk := inv_block _ _ _ _ I b Hb).
  assert (Rg := inv_region _ _ _ _ I b Hb). pose proof (bk_size _ _ Bk) as Sz.
  destruct (mark_free_ok (hmem h) b Rg Bk) as (m1 & E1 & S1 & Bk1). fold b1 in Bk1.
  assert (Rg1 := same_but_present _ _ _ _ _ _ S1 Rg).
  change (l1 ++ b :: l2) with (l1 ++ [b] ++ l2) in I.
  exists m1. split_and!; [| | exact E1 | | | apply S1 | | apply S1 |].
  - apply check_magic_runs; [apply (region_word _ _ _ _ Rg); lia | apply Bk].
  - rewrite is_free_runs by (apply (region_word _ _ _ _ Rg); lia). unfold flag. by rewrite (bk_free _ _ Bk), Fb.
  - rewrite (bind_ok _ _ _ _ _ (footer_runs m1 b1 Rg1 Bk1 B0 B1)).
    apply check_magic_runs; [apply (region_word _ _ _ _ Rg1); cbn; lia | apply Bk1].
  - apply (get_size_runs m1 b1 Rg1 Bk1 B0 B1).
  - apply (inv_rewrite h l1 [b] l2 t [] (b_addr b) (b_addr b + b_size b) m1 I ltac:(done) ltac:(by simpl) S1 [b1]).
    + by simpl.
    + by apply Forall_singleton.
    + intros d ->%list_elem_of_singleton. congruence.
    + intros d ->%list_elem_of_singleton _. cbn. set_solver.
    + intros d Hd. rewrite elem_of_nil, list_elem_of_singleton. split; [| done]. intros E.
      destruct (outside_span _ _ [b] _ _ _ (b_addr b) (b_addr b + b_size b) I ltac:(done) ltac:(by simpl) d Hd); [| lia].
      destruct (inv_in _ _ _ _ I d ltac:(set_solver)) as (_ & _ & ?). lia.
  - intros d Hd. exact (rewrite_keeps h l1 [b] l2 t [] _ _ m1 I ltac:(done) ltac:(by simpl) S1 d Hd).
Qed.

(** free up to the question whether the heap can end earlier: the block and its
    free neighbours are one free block [c], out of the tree. *)
Lemma free_merged h l1 b r l2 t :
  heap_ok h (l1 ++ b :: r :: l2) t -> b_free b = false -> stack_ok head h -> (l1 = [] -> left_guard h) ->
  (length (l1 ++ b :: r :: l2) < tree_fuel)%nat ->
  exists h' t' l1' c l2', freed l1 b (r :: l2) = l1' ++ c :: l2' /\
    MemAlloc.free table_ap frame_data head tree_fuel (b_addr b + 8) h =
      (insert ← release_end table_ap frame_data (b_addr c);
       if insert : bool then tree_insert head tree_fuel (block_to_rbnode (b_addr c)) None;; mret tt else mret tt) h' /\
    (b_free c = true /\ snd (free_right b (r :: l2)) = l2' /\
     b_addr c + b_size c = b_addr (fst (free_right b (r :: l2))) + b_size (fst (free_right b (r :: l2)))) /\
    heap_inv h' (l1' ++ c :: l2') t' [b_addr c] /\ mem_used_ (al h') = u32 (used_size (freed l1 b (r :: l2))) /\
    same_limits head h h' /\ (length (l1' ++ c :: l2') <= length (l1 ++ b :: r :: l2))%nat /\
    (forall d, d ∈ l1 ++ r :: l2 -> b_free d = false -> keeps_block (hmem h) (hmem h') d).
Proof.
  intros [I Us] Fb St Lg Hf. assert (Hb : b ∈ l1 ++ b :: r :: l2) by set_solver.
  destruct (inv_bounds _ _ _ _ I b Hb) as (B0 & B1 & _ & _). pose proof (bk_size _ _ (inv_block _ _ _ _ I b Hb)) as Zb.
  destruct (unuse_ok h l1 b (r :: l2) t I Fb) as (m1 & Cm & If & Mf & Cf & Gs & P1 & I1 & K0 & K1).
  set (b1 := Block (b_addr b) (b_size b) true) in *.
  set (h1 := Heap m1 (with_used (u32 (mem_used_ (al h) + - b_size b)) (al h)) (hpg h)).
  apply (inv_used _ _ _ _ (u32 (mem_used_ (al h) + - b_size b))) in I1. cbn [hmem al] in I1. fold h1 in I1.
  assert (St1 : stack_ok head h1) by (destruct St; split; [by eapply node_ok_pages | done]).
  assert (Len : length (l1 ++ b1 :: r :: l2) = length (l1 ++ b :: r :: l2)) by (by rewrite !length_app).
  assert (MR := merge_right_ok h1 l1 b1 r l2 t I1 eq_refl St1 ltac:(rewrite Len; lia)).
  change (free_right b (r :: l2)) with (free_right b1 (r :: l2)).
  destruct (free_right b1 (r :: l2)) as [c l2'] eqn:Er. destruct MR as (h2 & t2 & Run2 & I2 & Sb2 & K2).
  assert (Fc : b_free c = true) by (unfold free_right in Er; case_match; by injection Er as <- _).
  assert (Lc : (length (l1 ++ c :: l2') <= length (l1 ++ b :: r :: l2))%nat).
  { rewrite !length_app. unfold free_right in Er. case_match; injection Er as <- <-; simpl; lia. }
  assert (Ac : b_addr c = b_addr b) by (unfold free_right in Er; case_match; by injection Er as <- _).
  destruct (merge_left_ok h2 l1 c l2' t2 I2 Fc (stack_bounds _ _ _ St1 Sb2)) as (h3 & t3 & l1' & c' & Run3 & El & Fc' & End' & I3 & Sb3 & K3).
  { intros ->. assert (G1 : left_guard h1).
    { eapply guard_kept; [by apply Lg | done | done |]. intros i Hi. cbn [h1 hmem]. apply K0.
      assert (b_addr b = start_address (al h)) by (destruct (hi_tiled _ _ _ _ I); done). lia. }
    assert (Sb := Sb2). destruct Sb as (O2 & E1 & _ & _ & _ & _ & P2). eapply guard_kept; [exact G1 | done | done |].
    intros i Hi. destruct G1 as (_ & Gh & _). destruct (inv_in _ _ _ _ I1 b1 ltac:(set_solver)) as (? & ? & ?). apply O2; lia. }
  { lia. }
  assert (Hc' : c' ∈ l1' ++ c' :: l2') by set_solver. destruct (inv_bounds _ _ _ _ I3 c' Hc') as (C0 & C1 & _ & _).
  assert (Sb13 := same_bounds_trans _ _ _ _ Sb2 Sb3). assert (Sb := Sb13). destruct Sb as (_ & _ & _ & _ & _ & Eu & _).
  assert (Efr : freed l1 b (r :: l2) = l1' ++ c' :: l2').
  { unfold freed. change (free_right b (r :: l2)) with (free_right b1 (r :: l2)). rewrite Er, El, <- app_assoc. done. }
  exists h3, t3, l1', c', l2'. split_and!; try done.
  - unfold MemAlloc.free. rewrite (proj2 (Z.eqb_neq (b_addr b + 8) 0)) by lia. unfold user_to_block, USER_PTR_OFFSET.
    replace (b_addr b + 8 - (4 + 4)) with (b_addr b) by lia. rewrite (u32_small (b_addr b)) by lia.
    rewrite (bind_ok _ _ _ _ _ (on_mem_read _ _ _ Cm)). rewrite (bind_ok (assert true) _ h tt h) by done.
    rewrite (bind_ok _ _ _ _ _ (on_mem_read _ _ _ If)). rewrite (bind_ok _ _ _ _ _ (on_mem_ok _ _ _ _ Mf)).
    rewrite (bind_ok _ _ _ _ _ (on_mem_read _ (Heap m1 (al h) (hpg h)) _ Cf)). rewrite (bind_ok (assert true) _ (Heap m1 (al h) (hpg h)) tt (Heap m1 (al h) (hpg h))) by done.
    rewrite (bind_ok _ _ _ _ _ (on_mem_read _ (Heap m1 (al h) (hpg h)) _ Gs)). rewrite (bind_ok _ _ (Heap m1 (al h) (hpg h)) tt h1) by done.
    change (b_addr b) with (b_addr b1). rewrite (bind_ok _ _ _ _ _ Run2). change (b_addr b1) with (b_addr b). rewrite <- Ac.
    rewrite (bind_ok _ _ _ _ _ Run3). by rewrite (proj2 (Z.eqb_neq (b_addr c') 0)) by lia.
  - rewrite Eu. cbn [h1 al with_used mem_used_]. rewrite Us.
    rewrite used_freed, !used_size_app. simpl used_size. rewrite Fb. unfold u32. rewrite Zplus_mod_idemp_l. f_equal. lia.
  - eapply limits_trans; [| exact (bounds_limits _ _ _ Sb13)].
    split_and!; try done. intros i Hi _. cbn [h1 hmem]. apply K0. destruct (inv_in _ _ _ _ I b Hb) as (? & ? & _). lia.
  - assert (Ll : (length (l1' ++ [c']) <= S (length l1))%nat).
    { rewrite <- El. unfold free_left. destruct l1 as [|l l0 _] using rev_ind; [done |]. rewrite last_snoc.
      destruct (b_free l); rewrite ?removelast_last, !length_app; simpl; lia. }
    rewrite length_app in Ll. rewrite !length_app in Lc |- *. simpl in Ll, Lc |- *. lia.
  - intros d Hd Fd. eapply keeps_trans; [by apply K1 |]. cbn [h1 hmem] in *.
    eapply keeps_trans; [by apply K2 |]. apply K3; [| done]. unfold free_right in Er. rewrite elem_of_app in *.
    destruct Hd as [Hd | Hd]; [by left | right].
    case_match; injection Er as <- <-; [| done]. apply elem_of_cons in Hd as [-> | Hd]; [congruence | done].
Qed.

Lemma free_block_ok h l1 b l2 t :
  heap_ok h (l1 ++ b :: l2) t -> b_free b = false -> stack_ok head h -> no_contraction h l2 -> (l1 = [] -> left_guard h) ->
  (2 * length (l1 ++ b :: l2) + 1 <= tree_fuel)%nat ->
  exists h' t', MemAlloc.free table_ap frame_data head tree_fuel (b_addr b + 8) h = Ok (tt, h') /\
    heap_ok h' (freed l1 b l2) t' /\ same_limits head h h' /\
    (forall d, d ∈ l1 ++ l2 -> b_free d = false -> keeps_block (hmem h) (hmem h') d).
Proof.
  intros Hk Fb St Nc Lg Hf. destruct l2 as [|r l2]; [done |]. assert (Hk' := Hk). destruct Hk' as [I _].
  assert (Nc1 := free_right_end h l1 b (r :: l2) t _ I Nc).
  destruct (free_merged h l1 b r l2 t Hk Fb St Lg ltac:(lia)) as (h3 & t3 & l1' & c & l2' & Efr & Run & (Fc & _ & Ec) & I3 & Us & Li & Len & K).
  assert (Hc : c ∈ l1' ++ c :: l2') by set_solver. destruct (inv_bounds _ _ _ _ I3 c Hc) as (C0 & C1 & _ & _).
  assert (Li' := Li). destruct Li' as (_ & Es & Ee & Em & _).
  assert (Re : release_end table_ap frame_data (b_addr c) h3 = Ok (true, h3)).
  { apply (release_end_no h3 _ t3 _ c I3 Hc). rewrite Es, Ee, Em, Ec. by destruct (free_right b (r :: l2)). }
  destruct (tree_insert_inv head tree_fuel h3 (l1' ++ c :: l2') t3 [] c I3) as (h4 & t4 & Run4 & I4 & Fr4).
  { apply not_elem_of_nil. }
  { by eapply stack_limits. }
  { done. }
  { done. }
  { lia. }
  assert (Eu4 := frame_bounds _ _ _ _ _ Fr4). destruct Eu4 as (_ & _ & _ & _ & _ & Eu4 & _).
  exists h4, t4. split_and!.
  - rewrite Run, (bind_ok _ _ _ _ _ Re). unfold block_to_rbnode.
    rewrite u32_small by (pose proof (bk_size _ _ (inv_block _ _ _ _ I3 c Hc)); lia). by rewrite (bind_ok _ _ _ _ _ Run4).
  - rewrite Efr. split; [done |]. by rewrite Eu4, Us, Efr.
  - eapply limits_trans; [exact Li | eapply bounds_limits, frame_bounds, Fr4].
  - intros d Hd Fd. eapply keeps_trans; [by apply K |]. apply Fr4; [| by left]. rewrite <- Efr. by apply used_in_freed.
Qed.
End free.
