(* ===== verification/HeapPages.v ===== *)
(** What expand and contract do with get_page, alloc_page and free_page when the
    tables of the heap exist: the memory has one page more, or one less. *)

From S2P Require Import Prelude Memory Frames Paging PagingSpec HeapTables MemAlloc.

(** What the frame behind a new page holds: any bytes in that page. *)
Class FrameData (frame_data : Z -> mem -> mem) : Prop :=
  frame_data_ok a m : m_pages (frame_data a m) = m_pages m /\
    forall x, x / PAGE <> a / PAGE -> byte_at (frame_data a m) x = byte_at m x.

Section operations.
Context (table_ap : Z -> M pg (Z * Z)) (frame_data : Z -> mem -> mem) `{!FrameData frame_data}.

Lemma on_tables_ok {A} (c : M pg A) h r s : c (hpg h) = Ok (r, s) -> on_tables c h = Ok (r, Heap (hmem h) (al h) s).
Proof. intros E. unfold on_tables, zoom. by rewrite E. Qed.

(** A page of the heap becomes accessible: get_page, alloc_page, translation. *)
Lemma add_page_ok h a dir lo hi k w :
  heap_pages (hpg h) dir lo hi -> lo <= a < hi -> a mod 4096 = 0 -> 0 < frames_left (hpg h) ->
  exists m' s', (page ← on_tables (get_page table_ap a 1 dir); on_tables (alloc_page page k w);; look_up_page frame_data a) h =
      Ok (tt, Heap m' (al h) s') /\
    m_pages m' = {[a / PAGE]} ∪ m_pages (hmem h) /\ (forall x, x / PAGE <> a / PAGE -> byte_at m' x = byte_at (hmem h) x) /\
    heap_pages s' dir lo hi /\ frames_left (hpg h) - 1 <= frames_left s'.
Proof.
  intros Hp Ha Aa Fr. destruct (hp_ok _ _ _ _ Hp) as [phys_of Ok]. destruct (hp_entry _ _ _ _ Hp a Ha Aa) as (p & e & W1 & W2 & He).
  destruct (alloc_page_runs phys_of (hpg h) p e k w Ok (hp_zero _ _ _ _ Hp) He) as (s' & e' & Run & Ok' & O & Pr & Z' & N & U & New);
    [unfold frames_left in *; lia |].
  assert (V : visible s' (current_directory s') a = true).
  { unfold visible. rewrite (proj1 (oe_current _ _ _ _ O)), (walk_only_entry _ _ _ _ _ _ O), W2, (oe_pte _ _ _ _ O), decide_True by done.
    by rewrite Pr. }
  rewrite (bind_ok _ _ _ _ _ (on_tables_ok _ h _ _ (get_page_walk table_ap _ a 1 dir p (hp_dir _ _ _ _ Hp) W1))).
  rewrite (bind_ok _ _ _ _ _ (on_tables_ok _ (Heap (hmem h) (al h) (hpg h)) _ _ Run)). cbn [hmem al].
  unfold look_up_page, modify. cbn [hmem al hpg]. rewrite V.
  eexists _, s'. split; [reflexivity |]. split_and!.
  - destruct (page_present (hmem h) a) eqn:Pm.
    + apply bool_decide_eq_true in Pm. set_solver.
    + cbn [m_pages map_page_at]. by rewrite (proj1 (frame_data_ok a (hmem h))).
  - intros x Hx. destruct (page_present (hmem h) a); [done |]. by apply (proj2 (frame_data_ok a (hmem h))).
  - eapply heap_pages_entry; [exact Hp | exact Ok' | exact O | done | done |]. by eapply heap_pages_new.
  - unfold frames_left in *. lia.
Qed.

(** A page of the heap goes: get_page, free_page, translation. *)
Lemma remove_page_ok h a dir lo hi :
  heap_pages (hpg h) dir lo hi -> lo <= a < hi -> a mod 4096 = 0 ->
  exists m' s', (page ← on_tables (get_page table_ap a 0 dir); on_tables (free_page page);; look_up_page frame_data a) h =
      Ok (tt, Heap m' (al h) s') /\
    m_pages m' = m_pages (hmem h) ∖ {[a / PAGE]} /\ (forall x, byte_at m' x = byte_at (hmem h) x) /\
    heap_pages s' dir lo hi /\ frames_left (hpg h) <= frames_left s'.
Proof.
  intros Hp Ha Aa. destruct (hp_ok _ _ _ _ Hp) as [phys_of Ok]. destruct (hp_entry _ _ _ _ Hp a Ha Aa) as (p & e & W1 & W2 & He).
  destruct (free_page_runs phys_of (hpg h) p e Ok (hp_zero _ _ _ _ Hp) He) as (s' & Run & Ok' & O & Z' & N & U);
    [intros F0; by eapply (hp_own _ _ _ _ Hp) |].
  assert (V : visible s' (current_directory s') a = false).
  { unfold visible. by rewrite (proj1 (oe_current _ _ _ _ O)), (walk_only_entry _ _ _ _ _ _ O), W2, (oe_pte _ _ _ _ O), decide_True by done. }
  rewrite (bind_ok _ _ _ _ _ (on_tables_ok _ h _ _ (get_page_walk table_ap _ a 0 dir p (hp_dir _ _ _ _ Hp) W1))).
  rewrite (bind_ok _ _ _ _ _ (on_tables_ok _ (Heap (hmem h) (al h) (hpg h)) _ _ Run)). cbn [hmem al].
  unfold look_up_page, modify. cbn [hmem al hpg]. rewrite V.
  eexists _, s'. split; [reflexivity |]. split_and!; [done | done | | unfold frames_left in *; lia].
  eapply heap_pages_entry; [exact Hp | exact Ok' | exact O | done | done |]. done.
Qed.
End operations.
