(* ===== verification/AllocGrow.v ===== *)
(** The heap that grows: expand and the block that alloc makes of the new space.
    The pages come from the page tables; [paged] says that they can be had. *)

From S2P Require Import Prelude Memory Frames Paging RbTree RbHeap RbModel RbRep RbInsert RbSpec RbRemove RbUnlink RbRemoveSpec MemAlloc AllocBase AllocTree AllocSpec AllocOps HeapTables HeapPages.

(** The page tables have every page up to the largest size of the heap, and [n]
    frames are free. *)
Definition paged (h : heap) (n : Z) : Prop :=
  heap_pages (hpg h) (page_dir (al h)) (start_address (al h)) (start_address (al h) + max_size (al h)) /\
  end_address (al h) <= start_address (al h) + max_size (al h) /\ n <= frames_left (hpg h).

Lemma paged_limits head h h' n : paged h n -> same_limits head h h' -> paged h' n.
Proof. intros P (_ & Es & Ee & _ & (Ex & Ed & Ep) & _). unfold paged. by rewrite Ep, Ed, Es, Ee, Ex. Qed.

Lemma paged_mono h n n' : paged h n -> n' <= n -> paged h n'.
Proof. intros (? & ? & ?) ?. split_and!; [done | done | lia]. Qed.

Lemma paged_left h n : paged h n -> paged h (frames_left (hpg h)).
Proof. intros (? & ? & ?). by split_and!. Qed.

(** ** Another end of the heap *)

(** The blocks from [x] on, [bs], are replaced by [bs'], which fill the space up
    to another end; the memory before [x] is the same. *)
Lemma inv_resize h h' l bs bs' t X X' x :
  heap_inv h (l ++ bs) t X -> tiled (start_address (al h)) x l ->
  start_address (al h') = start_address (al h) -> mem_tree (al h') = mem_tree (al h) ->
  tiled x (end_address (al h')) bs' -> end_address (al h') < 2 ^ 32 ->
  (forall a, start_address (al h) <= a < end_address (al h') -> page_present (hmem h') a = true) ->
  (forall a, start_address (al h) <= a < x -> byte_at (hmem h') a = byte_at (hmem h) a) ->
  Forall (block_ok (hmem h')) bs' ->
  (forall b, b ∈ bs -> b_free b = true -> b_addr b ∈ X) -> (forall b, b ∈ bs' -> b_free b = true -> b_addr b ∈ X') ->
  (forall b, b ∈ l -> b_addr b ∈ X' <-> b_addr b ∈ X) ->
  heap_inv h' (l ++ bs') t X'.
Proof.
  intros I Tl Es Et Tb He Pg Same Bk HX HX' HXX.
  assert (Sz := inv_sized _ _ _ _ I). apply Forall_app in Sz as [Sl _].
  assert (Zb : sized bs') by (eapply blocks_sized; exact Bk).
  assert (In : forall c, c ∈ l -> start_address (al h) <= b_addr c /\ b_addr c + b_size c <= x /\ 28 <= b_size c).
  { intros c Hc. by apply (tiled_in _ _ _ _ Tl Sl). }
  assert (Le := tiled_le _ _ _ Tb Zb).
  assert (Wd : forall a, start_address (al h) <= a -> a + 4 <= x -> word_at (hmem h') a = word_at (hmem h) a).
  { intros a A1 A2. unfold word_at. by rewrite !Same by lia. }
  assert (Node : forall n, n ∈ taddrs t -> exists c, c ∈ l /\ b_free c = true /\ n = b_addr c + 4 /\ (b_addr c ∉ X)).
  { intros n Hn. destruct (inv_tree_node _ _ _ _ I n Hn) as (c & Hc & Fc & NX & ->). exists c. split_and!; try done.
    apply elem_of_app in Hc as [Hc | Hc]; [done | by destruct NX; auto]. }
  split.
  - rewrite Es. apply tiled_app. by exists x.
  - rewrite Es. split; [apply I | done].
  - rewrite Es. exact Pg.
  - apply Forall_app. split; [| done]. apply Forall_forall. intros c Hc. destruct (In c Hc) as (? & ? & ?).
    apply (block_ok_words (hmem h)); try (apply Wd; lia). apply (inv_block _ _ _ _ I). set_solver.
  - rewrite Et. eapply holds_moved; [apply I | |].
    + intros n Hn [? ? ? _ _ _ _]. destruct (Node n Hn) as (c & Hc & _ & -> & _). destruct (In c Hc) as (? & ? & ?).
      assert (W : forall a, start_address (al h) <= a -> a + 4 <= x -> word_present (hmem h') a = true).
      { intros a A1 A2. unfold word_present. by rewrite !Pg by lia. }
      split; try done; apply W; lia.
    + intros n Hn i Hi. destruct (Node n Hn) as (c & Hc & _ & -> & _). destruct (In c Hc) as (? & ? & ?). apply Same. lia.
  - rewrite Et. apply I.
  - intros n. split.
    + intros Hn. destruct (Node n Hn) as (c & Hc & Fc & -> & NX). exists c. split_and!; [set_solver | done | by rewrite HXX | done].
    + intros (c & Hc & Fc & NX & ->). apply elem_of_app in Hc as [Hc | Hc]; [| by destruct NX; auto].
      apply (hi_nodes _ _ _ _ I). exists c. split_and!; [set_solver | done | by rewrite <- HXX | done].
Qed.

(** ** expand *)

(** The pages from [e] to [e'] are there now, nothing before and behind them changed. *)
Definition grown (m m' : mem) (e e' : Z) : Prop :=
  (forall x, page_present m' x = page_present m x || ((e <=? x) && (x <? e'))) /\
  forall x, x < e \/ e' <= x -> byte_at m' x = byte_at m x.

Lemma in_page a x : a mod PAGE = 0 -> x / PAGE = a / PAGE <-> a <= x < a + PAGE.
Proof. unfold PAGE. intros. split; intros; Z.div_mod_to_equations; lia. Qed.

(** Memory with one more page. *)
Lemma page_grown a m m' :
  a mod PAGE = 0 -> m_pages m' = {[a / PAGE]} ∪ m_pages m -> (forall x, x / PAGE <> a / PAGE -> byte_at m' x = byte_at m x) ->
  grown m m' a (a + PAGE).
Proof.
  intros A P B. split.
  - intros x. unfold page_present. rewrite P. pose proof (in_page a x A) as Ix.
    destruct (decide (x / PAGE = a / PAGE)) as [Ep|Ep].
    + rewrite bool_decide_eq_true_2 by set_solver. apply Ix in Ep.
      by rewrite (proj2 (Z.leb_le _ _)), (proj2 (Z.ltb_lt _ _)), orb_true_r by lia.
    + replace ((a <=? x) && (x <? a + PAGE)) with false; [| symmetry; apply not_true_iff_false; rewrite andb_true_iff, Z.leb_le, Z.ltb_lt; tauto].
      rewrite orb_false_r. apply bool_decide_ext. set_solver.
  - intros x Hx. apply B. rewrite (in_page a x A). lia.
Qed.

Lemma grown_trans m m1 m2 e e1 e2 : e <= e1 <= e2 -> grown m m1 e e1 -> grown m1 m2 e1 e2 -> grown m m2 e e2.
Proof.
  intros He [P1 B1] [P2 B2]. split.
  - intros x. rewrite P2, P1. destruct (page_present m x); [done |]. simpl.
    destruct (Z.leb_spec e x), (Z.ltb_spec x e1), (Z.leb_spec e1 x), (Z.ltb_spec x e2); done || lia.
  - intros x Hx. rewrite B2, B1; [done | lia | lia].
Qed.

Lemma round_to_frame_ok a :
  0 <= a -> a + PAGE < 2 ^ 32 -> a <= round_to_frame a < a + PAGE /\ round_to_frame a mod PAGE = 0.
Proof.
  intros H0 H1. unfold round_to_frame, FRAME_SIZE, PAGE in *. destruct (Z.eqb_spec (a mod 4096) 0); cbn [negb]; [lia |].
  rewrite u32_small by (Z.div_mod_to_equations; lia). split; Z.div_mod_to_equations; lia.
Qed.

Section growth.
Context (table_ap : Z -> M pg (Z * Z)) (frame_data : Z -> mem -> mem) `{!FrameData frame_data} (head : Z) (tree_fuel : nat).

Lemma expand_loop_ok n h lo hi :
  let e := end_address (al h) in let e' := e + PAGE * Z.of_nat n in
  e mod PAGE = 0 -> 0 <= e -> e' < 2 ^ 32 -> lo <= e -> e' <= hi ->
  heap_pages (hpg h) (page_dir (al h)) lo hi -> Z.of_nat n <= frames_left (hpg h) ->
  exists m' s', expand_loop table_ap frame_data n h = Ok (tt, Heap m' (with_end e' (al h)) s') /\ grown (hmem h) m' e e' /\
    heap_pages s' (page_dir (al h)) lo hi /\ frames_left (hpg h) - Z.of_nat n <= frames_left s'.
Proof.
  revert h. induction n as [|n IH]; intros [m a s] e e' A He Hn Lo Hi Hp Fr; cbn [expand_loop]; cbn [al hmem hpg] in *.
  - exists m, s. unfold e'. rewrite Z.mul_0_r, Z.add_0_r. split_and!; [by destruct a | | done | lia]. split; [| done].
    intros x. destruct (page_present m x); [done |]. destruct (Z.leb_spec e x), (Z.ltb_spec x e); done || lia.
  - unfold PAGE in e', A. set (k := if supervisor a =? 0 then 0 else 1). set (w := if readonly a =? 0 then 1 else 0).
    destruct (add_page_ok table_ap frame_data (Heap m a s) e (page_dir a) lo hi k w Hp) as (m1 & s1 & E1 & P1 & B1 & Hp1 & F1); cbn [hpg hmem al] in *; [lia | done | lia |].
    assert (G1 := page_grown e m m1 A P1 B1). unfold PAGE in *.
    destruct (IH (Heap m1 (with_end (e + 4096) a) s1)) as (m2 & s2 & E2 & G2 & Hp2 & F2); cbn [al hmem hpg with_end end_address page_dir];
      [Z.div_mod_to_equations; lia | lia | lia | lia | lia | done | lia |].
    cbn [al with_end end_address page_dir hmem hpg] in *. replace (e + 4096 + 4096 * Z.of_nat n) with e' in * by lia.
    exists m2, s2. split_and!; [| eapply grown_trans; [| exact G1 | exact G2]; lia | done | lia].
    rewrite (bind_ok _ _ (Heap m a s) e (Heap m a s)), (bind_ok _ _ (Heap m a s) a (Heap m a s)) by done.
    fold k w. unfold mbind, M_bind in E1 |- *. destruct (on_tables (get_page table_ap e 1 (page_dir a)) (Heap m a s)) as [[page h1]|]; [| done].
    destruct (on_tables (alloc_page page k w) h1) as [[u2 h2]|]; [| done]. rewrite E1.
    unfold FRAME_SIZE. rewrite u32_small by lia. cbn [set_end modify al hmem hpg]. rewrite E2. by destruct a.
Qed.

(** The end that the heap gets for a request of [req] bytes. *)
Definition grown_end (h : heap) (req : Z) : Z := round_to_frame (end_address (al h) + req).

Lemma expand_ok h req :
  let e := end_address (al h) in let e' := grown_end h req in
  e mod PAGE = 0 -> 0 <= start_address (al h) <= e -> 0 < req -> e + req + PAGE < 2 ^ 32 ->
  e' <= start_address (al h) + max_size (al h) < 2 ^ 32 -> paged h ((e' - e) / PAGE) ->
  exists m' s', expand table_ap frame_data (u32 (e + req)) h = Ok (tt, Heap m' (with_end e' (al h)) s') /\ grown (hmem h) m' e e' /\
    heap_pages s' (page_dir (al h)) (start_address (al h)) (start_address (al h) + max_size (al h)) /\
    frames_left (hpg h) - (e' - e) / PAGE <= frames_left s'.
Proof.
  intros e e' A He Hr Hm Hx (Hp & _ & Fr). unfold expand. rewrite (bind_ok _ _ h (al h) h) by done. fold e.
  rewrite u32_small by (unfold PAGE in *; lia). rewrite (proj2 (Z.leb_gt (e + req) e)) by lia.
  fold (grown_end h req) e e'. change (round_to_frame (e + req)) with e'. cbv zeta.
  destruct (round_to_frame_ok (e + req)) as [R1 R2]; [lia | lia |]. change (round_to_frame (e + req)) with e' in R1, R2.
  rewrite (u32_small (start_address (al h) + max_size (al h))) by lia. rewrite (proj2 (Z.ltb_ge _ _) (proj1 Hx)).
  assert (En : e' = e + PAGE * Z.of_nat (Z.to_nat ((e' - e + FRAME_SIZE - 1) / FRAME_SIZE))).
  { rewrite Z2Nat.id by (apply Z.div_pos; [unfold FRAME_SIZE; lia | done]). unfold FRAME_SIZE, PAGE in *. Z.div_mod_to_equations. lia. }
  assert (Ek : Z.of_nat (Z.to_nat ((e' - e + FRAME_SIZE - 1) / FRAME_SIZE)) = (e' - e) / PAGE).
  { unfold PAGE in En. unfold PAGE. rewrite En at 2. rewrite Z.add_simpl_l, Z.mul_comm, Z.div_mul by lia. done. }
  destruct (expand_loop_ok (Z.to_nat ((e' - e + FRAME_SIZE - 1) / FRAME_SIZE)) h (start_address (al h)) (start_address (al h) + max_size (al h)) A)
    as (m' & s' & E & G & Hp' & F'); fold e; rewrite <- ?En, ?Ek; try done; [lia | unfold PAGE in *; lia | lia | lia |].
  fold e in E, G. rewrite <- En in E, G. rewrite Ek in F'. by exists m', s'.
Qed.

(** ** The block of the new space *)

Lemma hole_runs m s size :
  region_present m s size -> 0 < s -> s + size < 2 ^ 32 -> 28 <= size -> s mod 4 = 0 -> size mod 4 = 0 ->
  exists m', (set_size s size;; set_magic s;; f ← get_footer s; set_footer_header f s;; set_magic f;; mret f) m = Ok (s + size - 8, m') /\
    same_but m m' s (s + size) /\ block_ok m' (Block s size (flag m' s)).
Proof.
  intros P Hs He Hsz As Asz. destruct (stamp_runs m s size P Hs ltac:(lia) Hsz) as (m' & E & S & M & F & Sz & Mf & Hd).
  exists m'. split_and!; [| done | by split].
  assert (W : forall m' b, m_pages m' = m_pages m -> s <= b -> b + 4 <= s + size -> word_present m' b = true).
  { intros m1 b Pm H1 H2. apply (region_word m1 s size b); [| done | done]. intros i Hi. unfold page_present. rewrite Pm. by apply P. }
  unfold set_size in *. rewrite (u32_small (s + 4)) in * by lia.
  destruct (write_word m (s + 4) (W m (s + 4) eq_refl ltac:(lia) ltac:(lia)) size ltac:(lia)) as (m1 & E1 & S1 & W1).
  destruct (set_magic_runs m1 s (W m1 s (proj1 S1) ltac:(lia) ltac:(lia))) as (m2 & E2 & S2 & _).
  assert (Gf : get_footer s m2 = Ok (s + size - 8, m2)).
  { unfold get_footer, get_size, FOOTER_SIZE. rewrite (u32_small (s + 4)) by lia.
    rewrite (bind_ok _ _ _ _ _ (load32_ok _ _ (W m2 (s + 4) ltac:(rewrite (proj1 S2); apply S1) ltac:(lia) ltac:(lia)))).
    rewrite (same_but_word _ _ _ _ _ S2) by lia. rewrite W1, u32_small by lia. done. }
  rewrite (bind_ok _ _ _ _ _ E1), (bind_ok _ _ _ _ _ E2), (bind_ok _ _ _ _ _ Gf) in E.
  rewrite (bind_ok _ _ _ _ _ E1), (bind_ok _ _ _ _ _ E2), (bind_ok _ _ _ _ _ Gf).
  revert E. unfold mbind, M_bind. destruct (set_footer_header _ s m2) as [[u3 n3]|]; [| done]. by intros ->.
Qed.

(** The free block before the hole takes it in. *)
Lemma widen_runs m b c :
  region_present m (b_addr b) (b_size b + b_size c) -> block_ok m b -> block_ok m c -> b_addr c = b_addr b + b_size b ->
  0 < b_addr b -> b_addr c + b_size c < 2 ^ 32 ->
  exists m', (bs ← get_size (b_addr b); cs ← get_size (b_addr c); set_size (b_addr b) (u32 (bs + cs));;
              set_footer_header (b_addr c + b_size c - 8) (b_addr b);; mark_free (b_addr b)) m = Ok (tt, m') /\
    same_but m m' (b_addr b) (b_addr c + b_size c) /\ block_ok m' (Block (b_addr b) (b_size b + b_size c) true).
Proof.
  intros R B C Ec H0 H1. destruct (bk_align _ _ B) as [Ab Sb]. destruct (bk_align _ _ C) as [_ Sc].
  pose proof (bk_size _ _ B) as Zb. pose proof (bk_size _ _ C) as Zc.
  set (lo := b_addr b) in *. set (hi := b_addr c + b_size c) in *.
  assert (W : forall m' a, same_but m m' lo hi -> lo <= a -> a + 4 <= hi -> word_present m' a = true).
  { intros m' a S Ha1 Ha2. apply (region_word m' lo (b_size b + b_size c) a); [by eapply same_but_present | done | unfold hi in *; lia]. }
  assert (Hi : hi = lo + (b_size b + b_size c)) by (unfold hi; lia).
  destruct (write_word m (lo + 4) (W m (lo + 4) ltac:(done) ltac:(lia) ltac:(lia)) (b_size b + b_size c) ltac:(lia)) as (m1 & E1 & S1 & W1).
  assert (S1' := same_but_mono _ _ _ _ lo hi S1 ltac:(lia) ltac:(lia)).
  destruct (write_word m1 (hi - 4) (W m1 (hi - 4) S1' ltac:(lia) ltac:(lia)) lo ltac:(lia)) as (m2 & E2 & S2 & W2).
  assert (S2' := same_but_trans _ _ _ _ _ S1' (same_but_mono _ _ _ _ lo hi S2 ltac:(lia) ltac:(lia))).
  destruct (mark_free_runs m2 lo (W m2 lo S2' ltac:(lia) ltac:(lia))) as (m3 & E3 & S3 & M3 & F3).
  exists m3. split_and!.
  - rewrite (bind_ok _ _ _ _ _ (get_size_runs m b ltac:(eapply region_sub; [exact R | unfold lo; lia | unfold lo; lia]) B H0 ltac:(fold lo; lia))).
    rewrite (bind_ok _ _ _ _ _ (get_size_runs m c ltac:(eapply region_sub; [exact R | lia | lia]) C ltac:(lia) H1)).
    rewrite (u32_small (b_size b + b_size c)) by lia. unfold set_size. rewrite (u32_small (lo + 4)) by lia.
    rewrite (bind_ok _ _ _ _ _ E1). unfold set_footer_header. replace (hi - 8 + 4) with (hi - 4) by lia.
    rewrite (u32_small (hi - 4)) by lia. by rewrite (bind_ok _ _ _ _ _ E2).
  - eapply same_but_trans; [exact S2' | eapply same_but_mono; [exact S3 | lia | lia]].
  - split; cbn [b_addr b_size b_free]; fold lo; rewrite <- ?Hi.
    + lia.
    + split; [done |]. Z.div_mod_to_equations. lia.
    + apply M3. unfold magic_ok. rewrite (same_but_word _ _ _ _ _ S2), (same_but_word _ _ _ _ _ S1) by lia. apply B.
    + exact F3.
    + rewrite (same_but_word _ _ _ _ _ S3), (same_but_word _ _ _ _ _ S2) by lia. done.
    + replace (lo + (b_size b + b_size c) - 8) with (b_addr c + b_size c - 8) by lia.
      rewrite (same_but_word _ _ _ _ _ S3), (same_but_word _ _ _ _ _ S2), (same_but_word _ _ _ _ _ S1) by (unfold hi; lia). apply C.
    + replace (lo + (b_size b + b_size c) - 4) with (hi - 4) by lia. rewrite (same_but_word _ _ _ _ _ S3) by lia. done.
Qed.

(** The pages of the new space, and the stack. *)
Lemma grown_word m m' e e' a : grown m m' e e' -> word_present m a = true -> word_present m' a = true.
Proof. intros [Gp _]. unfold word_present. rewrite !Gp, !andb_true_iff. by intros [-> ->]. Qed.

Lemma grown_region m m' e e' : grown m m' e e' -> region_present m' e (e' - e).
Proof. intros [Gp _] i Hi. rewrite Gp. replace ((e <=? e + i) && (e + i <? e')) with true by zbool. apply orb_true_r. Qed.

Lemma grown_stack h m' e' s' :
  stack_ok head h -> grown (hmem h) m' (end_address (al h)) e' -> start_address (al h) <= end_address (al h) ->
  head + 16 <= end_address (al h) \/ e' <= head -> stack_ok head (Heap m' (with_end e' (al h)) s').
Proof.
  intros [N A] G Le Ap. split; cbn [hmem al with_end start_address end_address]; [| lia].
  destruct N. split; try done; by eapply grown_word.
Qed.

Lemma end_after_start h bl t X : heap_inv h bl t X -> start_address (al h) <= end_address (al h).
Proof. intros I. eapply tiled_le; [apply I | by eapply inv_sized]. Qed.

Section hole.
Context (h : heap) (bl : list block) (t : tree) (m1 : mem) (e' : Z) (s1 : pg).
Let e := end_address (al h).
Hypothesis inv : heap_inv h bl t [].
Hypothesis more : grown (hmem h) m1 e e'.
Hypothesis aligned : e mod 4 = 0 /\ (e' - e) mod 4 = 0.
Hypothesis space : 28 <= e' - e /\ e' < 2 ^ 32.

(** The hole is stamped. *)
Lemma hole_inv :
  exists m2, (set_size e (e' - e);; set_magic e;; f ← get_footer e; set_footer_header f e;; set_magic f;; mret f) m1 = Ok (e' - 8, m2) /\
    same_but m1 m2 e e' /\ heap_inv (Heap m2 (with_end e' (al h)) s1) (bl ++ [Block e (e' - e) (flag m2 e)]) t [e].
Proof.
  destruct aligned as [Ae An]. destruct space as [Zn He]. pose proof (end_after_start _ _ _ _ inv) as Se. fold e in Se. destruct (hi_range _ _ _ _ inv) as [G0 _].
  destruct (hole_runs m1 e (e' - e) (grown_region _ _ _ _ more)) as (m2 & E2 & S2 & B2); [lia | lia | done | done | done |].
  replace (e + (e' - e)) with e' in * by lia. exists m2. split_and!; [done | done |].
  destruct more as [Gp Gb].
  apply (inv_resize h _ bl [] _ t [] [e] e); cbn [al with_end end_address start_address mem_tree hmem]; [..|].
  - by rewrite app_nil_r.
  - apply inv.
  - done.
  - done.
  - simpl. lia.
  - done.
  - intros a Ha. unfold page_present. rewrite (proj1 S2). change (page_present m1 a = true). rewrite Gp.
    destruct (Z.ltb_spec a e') as [_|?]; [| lia]. destruct (Z.leb_spec e a); [apply orb_true_r |]. by rewrite (hi_pages _ _ _ _ inv) by (fold e; lia).
  - intros a Ha. rewrite (proj2 S2) by lia. apply Gb. lia.
  - by apply Forall_singleton.
  - by intros b ?%not_elem_of_nil.
  - intros b ->%list_elem_of_singleton _. by left.
  - intros b Hb. rewrite elem_of_nil, list_elem_of_singleton. split; [| done]. intros Eb.
    destruct (inv_in _ _ _ _ inv b Hb) as (_ & L & ?). fold e in L. lia.
Qed.
End hole.

(** The end of add_hole: [hole] is the last block, its footer [f]. *)
Definition join_hole (hole f : Z) : M heap bool :=
  merge ← left_is_free (get_left_footer hole);
  if merge : bool then
    left ← on_mem (footer_header (get_left_footer hole));
    size ← on_mem (get_size left);
    left_node ← tree_remove head tree_fuel size (Some (AllocArgs 0 (block_to_rbnode left)));
    if left_node =? 0 then mret false
    else
      let left_block := rbnode_to_block left_node in
      on_mem (ls ← get_size left_block; hs ← get_size hole; set_size left_block (u32 (ls + hs));;
              set_footer_header f left_block;; mark_free left_block);;
      tree_insert head tree_fuel left_node None;; mret true
  else on_mem (mark_free hole);; tree_insert head tree_fuel (block_to_rbnode hole) None;; mret true.

(** The block before it is in use. *)
Lemma hole_alone h l1 l c t :
  heap_inv h (l1 ++ [l; c]) t [b_addr c] -> b_free l = false -> stack_ok head h -> (2 * length l1 + 5 <= tree_fuel)%nat ->
  exists h' t', join_hole (b_addr c) (b_addr c + b_size c - 8) h = Ok (true, h') /\
    heap_inv h' (l1 ++ [l; Block (b_addr c) (b_size c) true]) t' [] /\ same_bounds head h h' /\
    forall d, d ∈ l1 ++ [l] -> b_free d = false -> keeps_block (hmem h) (hmem h') d.
Proof.
  intros I Fl St Hf. assert (Hc : c ∈ l1 ++ [l; c]) by set_solver. assert (Hl : l ∈ l1 ++ [l; c]) by set_solver.
  assert (Ec := inv_next _ _ _ _ I _ _ _ _ eq_refl). destruct (inv_bounds _ _ _ _ I c Hc) as (C0 & C1 & _ & _).
  destruct (inv_bounds _ _ _ _ I l Hl) as (L0 & _). pose proof (bk_size _ _ (inv_block _ _ _ _ I c Hc)) as Zc.
  pose proof (bk_size _ _ (inv_block _ _ _ _ I l Hl)) as Zl. destruct (inv_in _ _ _ _ I c Hc) as (Lo & Hi & _).
  destruct (mark_free_ok (hmem h) c (inv_region _ _ _ _ I c Hc) (inv_block _ _ _ _ I c Hc)) as (m1 & E1 & S1 & B1).
  set (c' := Block (b_addr c) (b_size c) true) in *. assert (Sb1 := inside_bounds head h m1 _ _ S1 Lo Hi).
  change (l1 ++ [l; c]) with (l1 ++ [l] ++ [c] ++ []) in I. rewrite (app_assoc l1) in I.
  assert (Sp : tiled (b_addr c) (b_addr c + b_size c) [c]) by (by simpl).
  assert (I1 : heap_inv (Heap m1 (al h) (hpg h)) ((l1 ++ [l]) ++ [c'] ++ []) t [b_addr c]).
  { eapply (inv_rewrite h (l1 ++ [l]) [c] [] t [b_addr c] _ _ m1 I ltac:(done) Sp S1 [c']).
    - by simpl.
    - by apply Forall_singleton.
    - intros d ->%list_elem_of_singleton _. by left.
    - intros d ->%list_elem_of_singleton _. by left.
    - done. }
  assert (K1 := rewrite_keeps h (l1 ++ [l]) [c] [] t [b_addr c] _ _ m1 I ltac:(done) Sp S1).
  rewrite <- app_assoc in I1. destruct (tree_insert_inv head tree_fuel (Heap m1 (al h) (hpg h)) (l1 ++ [l; c']) t [] c' I1) as (h2 & t2 & Run & I2 & Fr).
  { apply not_elem_of_nil. }
  { by eapply stack_bounds. }
  { set_solver. }
  { done. }
  { rewrite length_app. simpl. lia. }
  exists h2, t2. split_and!; [| exact I2 | eapply same_bounds_trans; [exact Sb1 | by eapply frame_bounds] |].
  - unfold join_hole, get_left_footer, FOOTER_SIZE. rewrite (u32_small (b_addr c - 8)) by lia.
    rewrite <- app_assoc in I. assert (Ts := left_is_free_ok _ _ _ _ I l Hl). rewrite <- Ec in Ts.
    rewrite (bind_ok _ _ _ _ _ Ts), Fl. rewrite (bind_ok _ _ _ _ _ (on_mem_ok _ _ _ _ E1)).
    unfold block_to_rbnode. rewrite u32_small by lia. by rewrite (bind_ok _ _ _ _ _ Run).
  - intros d Hd Fd. eapply keeps_trans; [apply K1; set_solver |]. apply Fr; [set_solver | by left].
Qed.

(** The block before it is free and takes it in. *)
Lemma hole_joined h l1 l c t :
  heap_inv h (l1 ++ [l; c]) t [b_addr c] -> b_free l = true -> stack_ok head h -> (2 * length l1 + 5 <= tree_fuel)%nat ->
  exists h' t', join_hole (b_addr c) (b_addr c + b_size c - 8) h = Ok (true, h') /\
    heap_inv h' (l1 ++ [Block (b_addr l) (b_size l + b_size c) true]) t' [] /\ same_bounds head h h' /\
    forall d, d ∈ l1 -> b_free d = false -> keeps_block (hmem h) (hmem h') d.
Proof.
  intros I Fl St Hf. assert (Hc : c ∈ l1 ++ [l; c]) by set_solver. assert (Hl : l ∈ l1 ++ [l; c]) by set_solver.
  assert (Ec := inv_next _ _ _ _ I _ _ _ _ eq_refl). destruct (inv_bounds _ _ _ _ I c Hc) as (C0 & C1 & _ & _).
  destruct (inv_bounds _ _ _ _ I l Hl) as (L0 & L1 & _). pose proof (bk_size _ _ (inv_block _ _ _ _ I c Hc)) as Zc.
  assert (Bl := inv_block _ _ _ _ I l Hl). assert (Rl := inv_region _ _ _ _ I l Hl). pose proof (bk_size _ _ Bl) as Zl.
  assert (Ln : length (l1 ++ [l; c]) = S (S (length l1))) by (rewrite length_app; simpl; lia).
  assert (Ts := left_is_free_ok _ _ _ _ I l Hl). rewrite <- Ec in Ts.
  destruct (tree_remove_inv head tree_fuel h _ t [b_addr c] I St ltac:(lia) l Hl Fl) as (h1 & t1 & Run1 & I1 & Fr1).
  { rewrite list_elem_of_singleton. lia. }
  destruct (inv_in _ _ _ _ I1 l Hl) as (Lo & _). destruct (inv_in _ _ _ _ I1 c Hc) as (_ & Hi & _).
  destruct (widen_runs (hmem h1) l c) as (m2 & E2 & S2 & B2); [| by apply (inv_block _ _ _ _ I1) | by apply (inv_block _ _ _ _ I1) | done | done | done |].
  { intros i Hi'. apply (hi_pages _ _ _ _ I1). lia. }
  set (j := Block (b_addr l) (b_size l + b_size c) true) in *. assert (Sb2 := inside_bounds head h1 m2 _ _ S2 Lo Hi).
  assert (Sb1 := frame_bounds _ _ _ _ _ Fr1).
  assert (Sp : tiled (b_addr l) (b_addr c + b_size c) [l; c]) by (simpl; lia).
  change (l1 ++ [l; c]) with (l1 ++ [l; c] ++ []) in I1.
  assert (I2 : heap_inv (Heap m2 (al h1) (hpg h1)) (l1 ++ [j] ++ []) t1 [b_addr j]).
  { apply (inv_rewrite h1 l1 [l; c] [] t1 [b_addr l; b_addr c] _ _ m2 I1 ltac:(done) Sp S2 [j]).
    - simpl. lia.
    - by apply Forall_singleton.
    - intros d Hd _. set_solver.
    - intros d ->%list_elem_of_singleton _. by left.
    - intros d Hd. cbn [j b_addr]. rewrite !elem_of_cons. rewrite app_nil_r in Hd.
      assert (O := outside_span _ _ _ _ _ _ _ _ I1 ltac:(done) Sp d ltac:(set_solver)).
      destruct (inv_in _ _ _ _ I d ltac:(set_solver)) as (_ & _ & ?).
      split; [tauto |]. intros [? | [? | ?]]; [by left | lia | by right]. }
  destruct (tree_insert_inv head tree_fuel (Heap m2 (al h1) (hpg h1)) (l1 ++ [j]) t1 [] j I2) as (h3 & t3 & Run3 & I3 & Fr3).
  { apply not_elem_of_nil. }
  { eapply stack_bounds; [| exact Sb2]. by eapply stack_bounds. }
  { set_solver. }
  { done. }
  { rewrite length_app. simpl. lia. }
  exists h3, t3. split_and!; [| exact I3 | |].
  - unfold join_hole, get_left_footer, FOOTER_SIZE. rewrite (u32_small (b_addr c - 8)) by lia. rewrite (bind_ok _ _ _ _ _ Ts), Fl.
    assert (Fh : footer_header (b_addr c - 8) (hmem h) = Ok (b_addr l, hmem h)).
    { unfold footer_header. replace (b_addr c - 8 + 4) with (b_addr l + b_size l - 4) by lia. rewrite u32_small by lia.
      rewrite load32_ok by (apply (region_word _ _ _ _ Rl); lia). by rewrite (bk_header _ _ Bl). }
    rewrite (bind_ok _ _ _ _ _ (on_mem_read _ _ _ Fh)), (bind_ok _ _ _ _ _ (on_mem_read _ _ _ (get_size_runs _ _ Rl Bl L0 L1))).
    unfold block_to_rbnode. rewrite (u32_small (b_addr l + 4)) by lia.
    rewrite (bind_ok _ _ _ _ _ Run1), (proj2 (Z.eqb_neq (b_addr l + 4) 0)) by lia.
    unfold rbnode_to_block. replace (b_addr l + 4 - 4) with (b_addr l) by lia. rewrite (u32_small (b_addr l)) by lia.
    cbv zeta. rewrite (bind_ok _ _ _ _ _ (on_mem_ok _ _ _ _ E2)). by rewrite (bind_ok _ _ _ _ _ Run3).
  - eapply same_bounds_trans; [exact Sb1 |]. eapply same_bounds_trans; [exact Sb2 | by eapply frame_bounds].
  - intros d Hd Fd. eapply keeps_trans; [apply Fr1; [set_solver | by left] |].
    eapply keeps_trans; [apply (rewrite_keeps h1 l1 [l; c] [] t1 _ _ _ m2 I1 ltac:(done) Sp S2); set_solver |].
    apply Fr3; [set_solver | by left].
Qed.

(** The space between the old end [e] and the new one is a free block, joined
    with the last block when that is free. *)
Lemma add_hole_ok h bl t m1 e' s1 :
  let e := end_address (al h) in
  heap_inv h bl t [] -> bl <> [] -> stack_ok head h -> head + 16 <= e \/ e' <= head -> grown (hmem h) m1 e e' ->
  e mod 4 = 0 /\ (e' - e) mod 4 = 0 -> 28 <= e' - e /\ e' < 2 ^ 32 -> (2 * length bl + 3 <= tree_fuel)%nat ->
  exists h' t', add_hole head tree_fuel e (Heap m1 (with_end e' (al h)) s1) = Ok (true, h') /\
    heap_inv h' (free_left bl (Block e (e' - e) true)) t' [] /\ same_bounds head (Heap m1 (with_end e' (al h)) s1) h' /\
    forall d, d ∈ bl -> b_free d = false -> keeps_block (hmem h) (hmem h') d.
Proof.
  intros e I Ne St Ap G Al Sp Hf. set (h1 := Heap m1 (with_end e' (al h)) s1).
  assert (Se := end_after_start h bl t [] I). fold e in Se.
  destruct (hole_inv h bl t m1 e' s1 I G Al Sp) as (m2 & E2 & S2 & I2). fold e in E2, S2, I2.
  set (h2 := Heap m2 (with_end e' (al h)) s1) in *. set (c := Block e (e' - e) (flag m2 e)) in *.
  assert (Sb2 : same_bounds head h1 h2) by (eapply inside_bounds; [exact S2 | exact Se | done]).
  assert (St2 : stack_ok head h2) by (eapply stack_bounds; [by eapply grown_stack | exact Sb2]).
  assert (K2 : forall d, d ∈ bl -> keeps_block (hmem h) m2 d).
  { intros d Hd i Hi. destruct (inv_in _ _ _ _ I d Hd) as (? & L & ?). fold e in L. rewrite (proj2 S2) by lia. apply G. lia. }
  assert (Run0 : add_hole head tree_fuel e h1 = join_hole (b_addr c) (b_addr c + b_size c - 8) h2).
  { unfold add_hole. rewrite (bind_ok _ _ h1 e' h1) by done. pose proof (hi_range _ _ _ _ I). rewrite (u32_small (e' - e)) by lia.
    rewrite (bind_ok _ _ _ _ _ (on_mem_ok _ h1 _ _ E2)). cbn [c b_addr b_size]. by replace (e + (e' - e) - 8) with (e' - 8) by lia. }
  rewrite Run0. destruct bl as [|l l1 _] using rev_ind; [done |]. unfold free_left. rewrite last_snoc, removelast_last.
  rewrite <- app_assoc in I2. rewrite length_app in Hf. simpl in Hf. destruct (b_free l) eqn:Fl.
  - destruct (hole_joined h2 l1 l c t I2 Fl St2 ltac:(lia)) as (h3 & t3 & Run & I3 & Sb3 & K3). exists h3, t3.
    split_and!; [done | done | by eapply same_bounds_trans |]. intros d Hd Fd.
    eapply keeps_trans; [by apply K2 | apply K3; [| done]]. apply elem_of_app in Hd as [? | ->%list_elem_of_singleton]; [done | congruence].
  - destruct (hole_alone h2 l1 l c t I2 Fl St2 ltac:(lia)) as (h3 & t3 & Run & I3 & Sb3 & K3). exists h3, t3.
    split_and!; [done | by rewrite <- app_assoc | by eapply same_bounds_trans |]. intros d Hd Fd.
    eapply keeps_trans; [by apply K2 | by apply K3].
Qed.

(** ** alloc on a heap without a block that fits *)

(** The heap has another end: around it and the stack variable nothing changed. *)
Definition resized (h h' : heap) : Prop :=
  let top := Z.max (end_address (al h)) (end_address (al h')) in
  start_address (al h') = start_address (al h) /\ min_size (al h') = min_size (al h) /\
  (max_size (al h') = max_size (al h) /\ page_dir (al h') = page_dir (al h)) /\
  (forall x, x < start_address (al h) \/ top <= x -> page_present (hmem h') x = page_present (hmem h) x) /\
  (forall x, x < start_address (al h) \/ top <= x -> x < head \/ head + 16 <= x -> byte_at (hmem h') x = byte_at (hmem h) x).

Lemma resized_limits h h' h2 : resized h h' -> same_limits head h' h2 -> resized h h2.
Proof.
  intros (E1 & E2 & [E3 E4] & P & B) (O & F1 & F2 & F3 & (F4 & F6 & _) & F5). unfold resized. rewrite F2. split_and!; try congruence.
  - intros x Hx. unfold page_present. rewrite F5. by apply P.
  - intros x Hx Hh. rewrite O; [by apply B | rewrite E1; lia | done].
Qed.

Lemma limits_resized h h' h2 : same_limits head h h' -> resized h' h2 -> resized h h2.
Proof.
  intros (O & F1 & F2 & F3 & (F4 & F6 & _) & F5) (E1 & E2 & [E3 E4] & P & B). unfold resized. rewrite F1, F2 in *. split_and!; try congruence.
  - intros x Hx. rewrite P by done. unfold page_present. by rewrite F5.
  - intros x Hx Hh. rewrite B by done. apply O; [lia | done].
Qed.

(** The stack variable lies below the heap or above the new end. *)
Definition stack_clear (h : heap) (e : Z) : Prop := head + 16 <= start_address (al h) \/ Z.max (end_address (al h)) e <= head.

Lemma resized_word h h' a :
  resized h h' -> a + 4 <= start_address (al h) \/ Z.max (end_address (al h)) (end_address (al h')) <= a ->
  word_present (hmem h') a = word_present (hmem h) a.
Proof. intros (_ & _ & _ & P & _) Ha. unfold word_present. by rewrite !P by lia. Qed.

Lemma resized_stack h h' :
  start_address (al h') <= end_address (al h') -> stack_ok head h -> resized h h' -> stack_clear h (end_address (al h')) -> stack_ok head h'.
Proof.
  intros Le [N _] R C. assert (R' := R). destruct R' as (E1 & _). unfold stack_clear in C. split; [| rewrite E1 in *; lia].
  destruct N. split; try done; rewrite (resized_word _ _ _ R) by lia; done.
Qed.

Lemma resized_guard h h' : left_guard head h -> resized h h' -> left_guard head h'.
Proof.
  intros (G0 & Gh & G1 & G2) R. assert (R' := R). destruct R' as (E1 & _ & _ & P & B). unfold left_guard. rewrite E1. split_and!; try done.
  - rewrite (resized_word _ _ _ R) by lia. done.
  - unfold word_at in *. by rewrite !B by lia.
Qed.

Lemma grown_resized h m' e' s' :
  end_address (al h) <= e' -> grown (hmem h) m' (end_address (al h)) e' -> start_address (al h) <= end_address (al h) ->
  resized h (Heap m' (with_end e' (al h)) s').
Proof.
  intros Le [Gp Gb] Se. unfold resized. cbn [al with_end start_address end_address min_size max_size hmem]. split_and!; try done.
  - intros x Hx. rewrite Gp. replace ((end_address (al h) <=? x) && (x <? e')) with false; [apply orb_false_r |].
    symmetry. apply not_true_iff_false. rewrite andb_true_iff, Z.leb_le, Z.ltb_lt. lia.
  - intros x Hx _. apply Gb. lia.
Qed.

(** What an allocation of [req] bytes needs to enlarge the heap. *)
Record can_grow (h : heap) (req : Z) : Prop := {
  cg_page : end_address (al h) mod PAGE = 0;
  cg_top : end_address (al h) + req + PAGE < 2 ^ 32;
  cg_max : grown_end h req <= start_address (al h) + max_size (al h) < 2 ^ 32;
  cg_pages : paged h ((grown_end h req - end_address (al h)) / PAGE);
  cg_stack : stack_clear h (grown_end h req)
}.

(** The search found nothing: the heap grows and the search starts again. *)
Lemma alloc_expands fuel size al_ h bl t h0 t0 :
  let req := get_block_size size in let a := if al_ =? 0 then 1 else al_ in
  let e := end_address (al h) in let e' := grown_end h req in
  heap_ok h bl t -> bl <> [] -> stack_ok head h -> 28 <= req -> can_grow h req -> (2 * length bl + 3 <= tree_fuel)%nat ->
  tree_remove head tree_fuel req (Some (AllocArgs a 0)) h = Ok (0, h0) -> heap_inv h0 bl t0 [] -> tree_frame head h h0 bl [] ->
  exists h' t', alloc table_ap frame_data head tree_fuel (S fuel) size al_ h = alloc table_ap frame_data head tree_fuel fuel size a h' /\
    heap_ok h' (free_left bl (Block e (e' - e) true)) t' /\ end_address (al h') = e' /\ e + req <= e' /\ resized h h' /\ paged h' (frames_left (hpg h) - (e' - e) / PAGE) /\
    forall d, d ∈ bl -> b_free d = false -> keeps_block (hmem h) (hmem h') d.
Proof.
  intros req a e e' [I Us] Ne St Hr [Cp Ct Cm Cg Cs] Hf Run I0 Fr. assert (Sb := frame_bounds _ _ _ _ _ Fr). assert (Sb' := Sb).
  destruct Sb' as (_ & Es & Ee & Em & (Ex & Ed & Ep) & Eu & _). assert (Se := end_after_start h bl t [] I). fold e in Se, Cp, Ct.
  assert (Ege : grown_end h0 req = e') by (unfold e', grown_end; by rewrite Ee).
  destruct (round_to_frame_ok (e + req)) as [R1 R2]; [destruct (hi_range _ _ _ _ I); lia | lia |]. fold e' in R1, R2.
  change (round_to_frame (e + req)) with e' in R1, R2.
  destruct (expand_ok h0 req) as (m1 & s1 & E1 & G1 & Hp1 & Fr1); rewrite ?Ege, ?Ee, ?Es, ?Ex; fold e; try done; try lia;
    [destruct (hi_range _ _ _ _ I); lia | by eapply paged_limits; [exact Cg | eapply bounds_limits, Sb] |].
  rewrite Ege, Ee in E1, G1, Fr1. rewrite Es, Ex, Ed in Hp1. rewrite Ep in Fr1. fold e in E1, G1, Fr1.
  destruct (add_hole_ok h0 bl t0 m1 e' s1 I0 Ne) as (h2 & t2 & E2 & I2 & Sb2 & K2); rewrite ?Ee; fold e; try done.
  { by eapply stack_bounds. }
  { unfold stack_clear in Cs. fold e e' in Cs. lia. }
  { unfold PAGE in *. Z.div_mod_to_equations. lia. }
  { unfold PAGE in *. lia. }
  rewrite Ee in E2, I2. fold e in E2, I2. assert (Sb2' := Sb2). destruct Sb2' as (_ & _ & Ee2 & _ & _ & Eu2 & _).
  exists h2, t2. split_and!; [| split; [done |] | | lia | | |].
  - cbn [alloc]. fold req a. rewrite (bind_ok _ _ _ _ _ Run). change (0 =? 0) with true. cbn iota.
    rewrite (bind_ok _ _ h0 e h0) by (unfold e; by rewrite <- Ee). rewrite (bind_ok _ _ _ _ _ E1).
    by rewrite (bind_ok _ _ _ _ _ E2).
  - rewrite Eu2. cbn [al with_end mem_used_]. rewrite Eu, Us. by rewrite used_free_left.
  - by rewrite Ee2.
  - eapply resized_limits; [| eapply bounds_limits, Sb2]. eapply limits_resized; [eapply bounds_limits, Sb |].
    apply grown_resized; rewrite ?Ee, ?Es; fold e; [lia | done | done].
  - eapply paged_limits; [| eapply bounds_limits, Sb2]. unfold paged. cbn [hpg al with_end page_dir start_address end_address max_size]. rewrite Es, Ex, Ed. split_and!; [done | lia | done].
  - intros d Hd Fd. eapply keeps_trans; [apply Fr; [done | by left] | by apply K2].
Qed.
End growth.
