(* ===== verification/AllocShrink.v ===== *)
(** The end of free: a heap that is larger than it must be gives the pages of its
    last free block back. *)

From S2P Require Import Prelude Memory Frames Paging RbTree RbHeap RbModel RbRep RbInsert RbSpec RbRemove RbUnlink RbRemoveSpec MemAlloc AllocBase AllocTree AllocSpec AllocOps HeapTables HeapPages AllocGrow.

(** ** contract *)

(** The end of the heap after a contraction to the address [a]. *)
Definition contracted_end (h : heap) (a : Z) : Z :=
  let e := end_address (al h) in
  let e1 := round_to_frame a in
  let e2 := if u32 (e1 - start_address (al h)) <? min_size (al h) then u32 (start_address (al h) + min_size (al h)) else e1 in
  e - PAGE * ((e - e2 + PAGE - 1) / PAGE).

(** The pages from [e] to [e'] are gone, nothing before and behind them changed. *)
Definition shrunk (m m' : mem) (e e' : Z) : Prop :=
  (forall x, page_present m' x = page_present m x && negb ((e <=? x) && (x <? e'))) /\
  forall x, x < e \/ e' <= x -> byte_at m' x = byte_at m x.

(** Memory with one page less. *)
Lemma page_shrunk a m m' :
  a mod PAGE = 0 -> m_pages m' = m_pages m ∖ {[a / PAGE]} -> (forall x, byte_at m' x = byte_at m x) -> shrunk m m' a (a + PAGE).
Proof.
  intros A P B. split; [| done].
  - intros x. unfold page_present. rewrite P. pose proof (in_page a x A) as Ix.
    destruct (decide (x / PAGE = a / PAGE)) as [Ep|Ep].
    + rewrite bool_decide_eq_false_2 by set_solver. apply Ix in Ep.
      by rewrite (proj2 (Z.leb_le _ _)), (proj2 (Z.ltb_lt _ _)), andb_false_r by lia.
    + replace ((a <=? x) && (x <? a + PAGE)) with false; [| symmetry; apply not_true_iff_false; rewrite andb_true_iff, Z.leb_le, Z.ltb_lt; tauto].
      rewrite andb_true_r. apply bool_decide_ext. set_solver.
Qed.

Lemma shrunk_trans m m1 m2 e e1 e2 : e <= e1 <= e2 -> shrunk m m1 e1 e2 -> shrunk m1 m2 e e1 -> shrunk m m2 e e2.
Proof.
  intros He [P1 B1] [P2 B2]. split.
  - intros x. rewrite P2, P1. destruct (page_present m x); [| done]. simpl.
    destruct (Z.leb_spec e x), (Z.ltb_spec x e1), (Z.leb_spec e1 x), (Z.ltb_spec x e2); done || lia.
  - intros x Hx. rewrite B2, B1; [done | lia | lia].
Qed.

Lemma contracted_end_ok h a :
  let e := end_address (al h) in
  e mod PAGE = 0 -> e < 2 ^ 32 -> 0 < start_address (al h) -> start_address (al h) <= a < e ->
  0 <= min_size (al h) < e - start_address (al h) ->
  a <= contracted_end h a <= e /\ contracted_end h a mod PAGE = 0.
Proof.
  intros e A He Hs Ha Hm. unfold contracted_end. fold e. destruct (round_to_frame_ok a) as [R1 R2]; [lia | unfold PAGE in *; Z.div_mod_to_equations; lia |].
  unfold PAGE in *. set (e1 := round_to_frame a) in *. assert (e1 <= e) by (Z.div_mod_to_equations; lia).
  rewrite (u32_small (e1 - _)), (u32_small (_ + min_size _)) by lia. cbv zeta.
  destruct (Z.ltb_spec (e1 - start_address (al h)) (min_size (al h))); split; Z.div_mod_to_equations; lia.
Qed.

Section shrinking.
Context (table_ap : Z -> M pg (Z * Z)) (frame_data : Z -> mem -> mem) `{!FrameData frame_data} (head : Z) (tree_fuel : nat).

Lemma contract_loop_ok n h lo hi :
  let e := end_address (al h) in let e' := e - PAGE * Z.of_nat n in
  e mod PAGE = 0 -> e < 2 ^ 32 -> 0 <= lo <= e' -> e <= hi -> heap_pages (hpg h) (page_dir (al h)) lo hi ->
  exists m' s', contract_loop table_ap frame_data n h = Ok (tt, Heap m' (with_end e' (al h)) s') /\ shrunk (hmem h) m' e' e /\
    heap_pages s' (page_dir (al h)) lo hi /\ frames_left (hpg h) <= frames_left s'.
Proof.
  revert h. induction n as [|n IH]; intros [m a s] e e' A He Lo Hi Hp; cbn [contract_loop]; cbn [al hmem hpg] in *.
  - exists m, s. unfold e'. rewrite Z.mul_0_r, Z.sub_0_r. split_and!; [by destruct a | | done | lia]. split; [| done].
    intros x. destruct (page_present m x); [| done]. destruct (Z.leb_spec e x), (Z.ltb_spec x e); done || lia.
  - unfold PAGE in *.
    destruct (remove_page_ok table_ap frame_data (Heap m a s) (e - 4096) (page_dir a) lo hi Hp) as (m1 & s1 & E1 & P1 & B1 & Hp1 & F1);
      cbn [hpg hmem al] in *; [lia | Z.div_mod_to_equations; lia |].
    assert (G1 := page_shrunk (e - 4096) m m1 ltac:(unfold PAGE; Z.div_mod_to_equations; lia) P1 B1).
    unfold PAGE in G1. replace (e - 4096 + 4096) with e in G1 by lia.
    destruct (IH (Heap m1 (with_end (e - 4096) a) s1)) as (m2 & s2 & E2 & G2 & Hp2 & F2); cbn [al hmem hpg with_end end_address page_dir];
      [Z.div_mod_to_equations; lia | lia | lia | lia | done |]. cbn [al hmem hpg with_end end_address page_dir] in *.
    replace (e - 4096 - 4096 * Z.of_nat n) with e' in * by lia.
    exists m2, s2. split_and!; [| eapply shrunk_trans; [| exact G1 | exact G2]; lia | done | lia].
    rewrite (bind_ok _ _ (Heap m a s) e (Heap m a s)), (bind_ok _ _ (Heap m a s) a (Heap m a s)) by done.
    unfold FRAME_SIZE. rewrite u32_small by lia.
    unfold mbind, M_bind in E1 |- *. destruct (on_tables (get_page table_ap (e - 4096) 0 (page_dir a)) (Heap m a s)) as [[page h1]|]; [| done].
    destruct (on_tables (free_page page) h1) as [[u2 h2]|]; [| done]. rewrite E1. cbn [set_end modify al hmem hpg]. rewrite E2. by destruct a.
Qed.

Lemma contract_ok h a :
  let e := end_address (al h) in let e' := contracted_end h a in
  e mod PAGE = 0 -> e < 2 ^ 32 -> 0 < start_address (al h) -> start_address (al h) <= a < e ->
  0 <= min_size (al h) < e - start_address (al h) -> paged h (frames_left (hpg h)) ->
  exists m' s', contract table_ap frame_data a h = Ok (e', Heap m' (with_end e' (al h)) s') /\ shrunk (hmem h) m' e' e /\
    heap_pages s' (page_dir (al h)) (start_address (al h)) (start_address (al h) + max_size (al h)) /\ frames_left (hpg h) <= frames_left s'.
Proof.
  intros e e' A He Hs Ha Hm (Hp & Hx & _). destruct (contracted_end_ok h a A He Hs Ha Hm) as [[L1 L2] _]. fold e e' in L1, L2.
  unfold contract. rewrite (bind_ok _ _ h (al h) h) by done. fold e. rewrite (proj2 (Z.leb_gt e a)) by lia. cbv zeta.
  set (e2 := if u32 (round_to_frame a - start_address (al h)) <? min_size (al h) then u32 (start_address (al h) + min_size (al h)) else round_to_frame a).
  assert (Ee : e' = e - PAGE * ((e - e2 + PAGE - 1) / PAGE)) by done.
  assert (En : e' = e - PAGE * Z.of_nat (Z.to_nat ((e - e2 + FRAME_SIZE - 1) / FRAME_SIZE))).
  { rewrite Z2Nat.id; [done |]. change FRAME_SIZE with PAGE. unfold PAGE in *. lia. }
  destruct (contract_loop_ok (Z.to_nat ((e - e2 + FRAME_SIZE - 1) / FRAME_SIZE)) h (start_address (al h)) (start_address (al h) + max_size (al h)) A He)
    as (m' & s' & E & G & Hp' & F'); fold e; rewrite <- ?En; [lia | done | done |].
  fold e in E, G. rewrite <- En in E, G. exists m', s'. split; [| done]. by rewrite (bind_ok _ _ _ _ _ E).
Qed.

(** ** The last block *)

(** The block at [a] is cut to [r] bytes. *)
Lemma shrink_runs m a r :
  region_present m a r -> 0 < a -> a + r < 2 ^ 32 -> 28 <= r -> a mod 4 = 0 -> r mod 4 = 0 -> magic_ok m a ->
  exists m', (set_size a r;; mark_free a;; f ← get_footer a; set_magic f;; set_footer_header f a) m = Ok (tt, m') /\
    same_but m m' a (a + r) /\ block_ok m' (Block a r true).
Proof.
  intros P H0 H1 Hr Aa Ar Mg.
  assert (W : forall m' b, same_but m m' a (a + r) -> a <= b -> b + 4 <= a + r -> word_present m' b = true).
  { intros m' b S B1 B2. apply (region_word m' a r b); [by eapply same_but_present | done | done]. }
  destruct (write_word m (a + 4) (W m (a + 4) ltac:(done) ltac:(lia) ltac:(lia)) r ltac:(lia)) as (m1 & E1 & S1 & W1).
  assert (S1' := same_but_mono _ _ _ _ a (a + r) S1 ltac:(lia) ltac:(lia)).
  destruct (mark_free_runs m1 a (W m1 a S1' ltac:(lia) ltac:(lia))) as (m2 & E2 & S2 & M2 & F2).
  assert (S2' := same_but_trans _ _ _ _ _ S1' (same_but_mono _ _ _ _ a (a + r) S2 ltac:(lia) ltac:(lia))).
  destruct (set_magic_runs m2 (a + r - 8) (W m2 (a + r - 8) S2' ltac:(lia) ltac:(lia))) as (m3 & E3 & S3 & M3 & _).
  assert (S3' := same_but_trans _ _ _ _ _ S2' (same_but_mono _ _ _ _ a (a + r) S3 ltac:(lia) ltac:(lia))).
  destruct (write_word m3 (a + r - 4) (W m3 (a + r - 4) S3' ltac:(lia) ltac:(lia)) a ltac:(lia)) as (m4 & E4 & S4 & W4).
  assert (Z2 : word_at m2 (a + 4) = r) by (by rewrite (same_but_word _ _ _ _ _ S2) by lia).
  assert (M1 : magic_ok m1 a) by (unfold magic_ok; by rewrite (same_but_word _ _ _ _ _ S1) by lia).
  exists m4. split_and!.
  - unfold set_size. rewrite (u32_small (a + 4)) by lia. rewrite (bind_ok _ _ _ _ _ E1), (bind_ok _ _ _ _ _ E2).
    assert (Gf : get_footer a m2 = Ok (a + r - 8, m2)).
    { unfold get_footer, get_size, FOOTER_SIZE. rewrite (u32_small (a + 4)) by lia.
      rewrite (bind_ok _ _ _ _ _ (load32_ok _ _ (W m2 (a + 4) S2' ltac:(lia) ltac:(lia)))). rewrite Z2, u32_small by lia. done. }
    rewrite (bind_ok _ _ _ _ _ Gf), (bind_ok _ _ _ _ _ E3). unfold set_footer_header.
    replace (a + r - 8 + 4) with (a + r - 4) by lia. by rewrite (u32_small (a + r - 4)) by lia.
  - eapply same_but_trans; [exact S3' | eapply same_but_mono; [exact S4 | lia | lia]].
  - split; cbn [b_addr b_size b_free]; try done.
    + rewrite (same_but_word _ _ _ _ _ S4), (same_but_word _ _ _ _ _ S3) by lia. by apply M2.
    + rewrite (same_but_word _ _ _ _ _ S4), (same_but_word _ _ _ _ _ S3) by lia. exact F2.
    + rewrite (same_but_word _ _ _ _ _ S4), (same_but_word _ _ _ _ _ S3) by lia. done.
    + rewrite (same_but_word _ _ _ _ _ S4) by lia. done.
Qed.

(** What remains of the last block [c] when the heap ends at [e]. *)
Definition cut_last (c : block) (e : Z) : list block :=
  if e =? b_addr c then [] else [Block (b_addr c) (e - b_addr c) true].

Lemma shrunk_resized h m' e' s' :
  shrunk (hmem h) m' e' (end_address (al h)) -> start_address (al h) <= e' <= end_address (al h) ->
  resized head h (Heap m' (with_end e' (al h)) s').
Proof.
  intros [Gp Gb] Se. unfold resized. cbn [al with_end start_address end_address min_size max_size hmem]. split_and!; try done.
  - intros x Hx. rewrite Gp. replace ((e' <=? x) && (x <? end_address (al h))) with false; [apply andb_true_r |].
    symmetry. apply not_true_iff_false. rewrite andb_true_iff, Z.leb_le, Z.ltb_lt. lia.
  - intros x Hx _. apply Gb. lia.
Qed.

(** What free needs to shrink the heap when [c] is its last block: either
    nothing of [c] remains, or enough for a block. *)
Record can_shrink (h : heap) (c : block) : Prop := {
  cs_page : end_address (al h) mod PAGE = 0;
  cs_min : 0 <= min_size (al h) < end_address (al h) - start_address (al h);
  cs_pages : paged h (frames_left (hpg h));
  cs_rest : contracted_end h (b_addr c) = b_addr c \/ b_addr c + 28 <= contracted_end h (b_addr c)
}.

Section release.
Context (h : heap) (l : list block) (c : block) (t : tree).
Let e := end_address (al h).
Let e' := contracted_end h (b_addr c).
Hypothesis inv : heap_inv h (l ++ [c]) t [b_addr c].
Hypothesis ready : can_shrink h c.

Lemma release_bounds :
  tiled (start_address (al h)) (b_addr c) l /\ b_addr c + b_size c = e /\ b_addr c <= e' <= e /\ e' mod PAGE = 0 /\
  0 < start_address (al h) <= b_addr c /\ e < 2 ^ 32.
Proof.
  assert (Hc : c ∈ l ++ [c]) by set_solver. pose proof (bk_size _ _ (inv_block _ _ _ _ inv c Hc)) as Zc.
  assert (Ti := hi_tiled _ _ _ _ inv). apply tiled_app in Ti as (x & Tl & Ex & Ec). simpl in Ec. rewrite <- Ex in Tl, Ec.
  destruct (hi_range _ _ _ _ inv) as [G0 G1]. destruct (inv_in _ _ _ _ inv c Hc) as (Lo & _). fold e in Ec, G1.
  destruct (contracted_end_ok h (b_addr c)) as [[L1 L2] Ae]; fold e; [apply ready | done | done | lia | apply ready |]. by split_and!.
Qed.

Lemma release_before d i : d ∈ l -> b_addr d <= i < b_addr d + b_size d -> start_address (al h) <= i < b_addr c.
Proof.
  intros Hd Hi. destruct release_bounds as (Tl & _). assert (Sl := inv_sized _ _ _ _ inv). apply Forall_app in Sl as [Sl _].
  destruct (tiled_in _ _ _ _ Tl Sl Hd) as (? & ? & _). lia.
Qed.

(** The blocks before [c] stay when the heap ends at [e']. *)
Lemma shrunk_inv m1 m2 bs' s1 :
  shrunk (hmem h) m1 e' e -> same_but m1 m2 (b_addr c) e' -> tiled (b_addr c) e' bs' -> Forall (block_ok m2) bs' ->
  heap_inv (Heap m2 (with_end e' (al h)) s1) (l ++ bs') t (b_addr <$> bs').
Proof.
  intros [Sp Sm] [Pm Bm] Tb Bk. destruct release_bounds as (Tl & Ec & [L1 L2] & _ & [G0 Lo] & G1).
  assert (Zb := blocks_sized _ _ Bk).
  apply (inv_resize h _ l [c] bs' t [b_addr c] (b_addr <$> bs') (b_addr c) inv Tl); cbn [al with_end end_address start_address mem_tree hmem]; try done.
  - lia.
  - intros a Ha. unfold page_present. rewrite Pm. change (page_present m1 a = true). rewrite Sp, (hi_pages _ _ _ _ inv) by (fold e; lia).
    replace (e' <=? a) with false by zbool. done.
  - intros a Ha. rewrite Bm by lia. apply Sm. lia.
  - intros b ->%list_elem_of_singleton _. by left.
  - intros b Hb _. by apply list_elem_of_fmap_2.
  - intros b Hb. rewrite list_elem_of_singleton. assert (Hl := inv_in _ _ _ _ inv b ltac:(set_solver)).
    pose proof (release_before b (b_addr b) Hb ltac:(lia)).
    split; [| lia]. intros (d & Ed & Hd)%list_elem_of_fmap. destruct (tiled_in _ _ _ _ Tb Zb Hd). lia.
Qed.

Lemma release_runs :
  exists m1 s1, shrunk (hmem h) m1 e' e /\
    (heap_pages s1 (page_dir (al h)) (start_address (al h)) (start_address (al h) + max_size (al h)) /\ frames_left (hpg h) <= frames_left s1) /\
    release_end table_ap frame_data (b_addr c) h =
    (if 0 <? e' - b_addr c then
       on_mem (set_size (b_addr c) (e' - b_addr c);; mark_free (b_addr c);; f ← get_footer (b_addr c); set_magic f;; set_footer_header f (b_addr c));;
       mret true
     else mret false) (Heap m1 (with_end e' (al h)) s1).
Proof.
  assert (Hc : c ∈ l ++ [c]) by set_solver. destruct (inv_bounds _ _ _ _ inv c Hc) as (C0 & C1 & _).
  assert (Bc := inv_block _ _ _ _ inv c Hc). assert (Rc := inv_region _ _ _ _ inv c Hc). pose proof (bk_size _ _ Bc) as Zc.
  destruct release_bounds as (_ & Ec & [L1 L2] & _ & [G0 Lo] & G1). destruct ready as [Cp Cm Cg _]. fold e in Cp, Cm.
  destruct (contract_ok h (b_addr c)) as (m1 & s1 & E1 & S1 & Hp1); fold e; [done | done | done | lia | lia | done |]. fold e e' in E1, S1.
  exists m1, s1. split_and!; [done | apply Hp1 | apply Hp1 |].
  unfold release_end. rewrite (bind_ok _ _ _ _ _ (on_mem_read _ _ _ (footer_runs _ _ Rc Bc C0 C1))).
  rewrite (bind_ok _ _ h (al h) h) by done. unfold FOOTER_SIZE. replace (b_addr c + b_size c - 8 + 8) with e by lia.
  fold e. rewrite (u32_small e), (u32_small (e - start_address (al h))), Z.eqb_refl, (proj2 (Z.ltb_lt _ _)) by lia. cbn [andb].
  rewrite (bind_ok _ _ _ _ _ (on_mem_read _ _ _ (get_size_runs _ _ Rc Bc C0 C1))), (bind_ok _ _ _ _ _ E1).
  rewrite (u32_small (e - e')) by lia. replace (b_size c - (e - e')) with (e' - b_addr c) by lia. by rewrite u32_small by lia.
Qed.

Lemma release_end_ok :
  exists h', release_end table_ap frame_data (b_addr c) h = Ok (negb (e' =? b_addr c), h') /\
    heap_inv h' (l ++ cut_last c e') t (b_addr <$> cut_last c e') /\ end_address (al h') = e' /\
    mem_used_ (al h') = mem_used_ (al h) /\ resized head h h' /\ paged h' (frames_left (hpg h)) /\ forall d, d ∈ l -> keeps_block (hmem h) (hmem h') d.
Proof.
  assert (Hc : c ∈ l ++ [c]) by set_solver. assert (Bc := inv_block _ _ _ _ inv c Hc).
  destruct release_bounds as (_ & Ec & [L1 L2] & Ae & [G0 Lo] & G1). destruct release_runs as (m1 & s1 & S1 & [Hp1 F1] & Run).
  assert (Pg : forall m2, paged (Heap m2 (with_end e' (al h)) s1) (frames_left (hpg h))).
  { intros m2. destruct (cs_pages _ _ ready) as (_ & Hx & _). fold e in Hx. unfold paged. cbn [hpg al with_end page_dir start_address end_address max_size]. split_and!; [done | lia | done]. }
  assert (Rz : resized head h (Heap m1 (with_end e' (al h)) s1)) by (apply shrunk_resized; [done | fold e; lia]).
  assert (Kl : forall m2, same_but m1 m2 (b_addr c) e' -> forall d, d ∈ l -> keeps_block (hmem h) m2 d).
  { intros m2 S2 d Hd i Hi. pose proof (release_before d i Hd Hi). rewrite (proj2 S2) by lia. apply S1. lia. }
  rewrite Run. unfold cut_last. destruct (Z.eqb_spec e' (b_addr c)) as [E0|E0].
  - eexists. rewrite (proj2 (Z.ltb_ge 0 (e' - b_addr c))) by lia. split_and!; [done | by eapply shrunk_inv | done | done | done | apply Pg | by apply Kl].
  - destruct (cs_rest _ _ ready) as [Cr|Cr]; fold e' in Cr; [done |]. rewrite (proj2 (Z.ltb_lt 0 (e' - b_addr c))) by lia.
    destruct (shrink_runs m1 (b_addr c) (e' - b_addr c)) as (m2 & E2 & S2 & B2); [| lia | lia | lia | by apply Bc | | |].
    { intros i Hi. rewrite (proj1 S1), (hi_pages _ _ _ _ inv) by (fold e; lia). by replace (e' <=? b_addr c + i) with false by zbool. }
    { destruct (bk_align _ _ Bc). unfold PAGE in Ae. Z.div_mod_to_equations. lia. }
    { unfold magic_ok, word_at. rewrite !(proj2 S1) by lia. apply Bc. }
    replace (b_addr c + (e' - b_addr c)) with e' in S2 by lia.
    exists (Heap m2 (with_end e' (al h)) s1). split_and!; try done.
    + by rewrite (bind_ok _ _ _ _ _ (on_mem_ok _ (Heap m1 (with_end e' (al h)) s1) _ _ E2)).
    + eapply shrunk_inv; [done | done | simpl; lia | by apply Forall_singleton].
    + eapply resized_limits; [exact Rz |]. split_and!; try done; [| apply S2]. intros i Hi _. apply S2. cbn [al with_end start_address end_address] in Hi. lia.
    + by apply Kl.
Qed.
End release.

Lemma contracted_limits h h' a : same_limits head h h' -> contracted_end h' a = contracted_end h a.
Proof. intros (_ & E1 & E2 & E3 & _). unfold contracted_end. by rewrite E1, E2, E3. Qed.

(** free of a used block before the last one, which is free. *)
Lemma free_shrinks h l1 b r t l c :
  let e' := contracted_end h (b_addr c) in
  heap_ok h (l1 ++ [b; r]) t -> b_free b = false -> b_free r = true -> stack_ok head h -> (l1 = [] -> left_guard head h) ->
  (2 * length (l1 ++ [b; r]) + 1 <= tree_fuel)%nat -> freed l1 b [r] = l ++ [c] -> can_shrink h c ->
  exists h' t', MemAlloc.free table_ap frame_data head tree_fuel (b_addr b + 8) h = Ok (tt, h') /\
    heap_ok h' (l ++ cut_last c e') t' /\ end_address (al h') = e' /\ resized head h h' /\ stack_ok head h' /\ paged h' (frames_left (hpg h)) /\
    (forall d, d ∈ l1 -> b_free d = false -> keeps_block (hmem h) (hmem h') d).
Proof.
  intros e' Hk Fb Fr St Lg Hf Efr Cs.
  destruct (free_merged table_ap frame_data head tree_fuel h l1 b r [] t Hk Fb St Lg ltac:(lia))
    as (h1 & t1 & l1' & c1 & l2' & Efr1 & Run & (Fc & El2 & Ec) & I1 & Us & Li & Len & K).
  simpl in El2. rewrite Fr in El2. simpl in El2. subst l2'. rewrite Efr in Efr1. apply app_inj_tail in Efr1 as [<- <-].
  assert (Ce := contracted_limits h h1 (b_addr c) Li). fold e' in Ce.
  assert (Cs1 : can_shrink h1 c).
  { destruct Cs as [Cp Cm Cg Cr]. assert (Li' := Li). destruct Li' as (_ & E1 & E2 & E3 & _). split; rewrite ?Ce, ?E1, ?E2, ?E3; try done. eapply paged_left. by eapply paged_limits. }
  destruct (release_end_ok h1 l c t1 I1 Cs1) as (h2 & Re & I2 & Ee2 & Eu2 & Rz & Pg2 & K2). rewrite Ce in Re, I2, Ee2.
  assert (Ehp : hpg h1 = hpg h) by apply Li. rewrite Ehp in Pg2.
  assert (Hcl : c ∈ l ++ [c]) by set_solver. destruct (inv_bounds _ _ _ _ I1 c Hcl) as (C0 & C1 & _). pose proof (bk_size _ _ (inv_block _ _ _ _ I1 c Hcl)).
  destruct (release_bounds h1 l c t1 I1 Cs1) as (_ & _ & Bd & _). rewrite Ce in Bd.
  assert (Rz' : resized head h h2) by (by eapply limits_resized).
  assert (St2 : stack_ok head h2).
  { eapply resized_stack; [by eapply end_after_start | exact St | done |]. destruct St as [_ Ap]. unfold stack_clear.
    rewrite Ee2. destruct Li as (_ & _ & -> & _) in Bd. lia. }
  assert (Ku : forall d, d ∈ l1 -> b_free d = false -> d ∈ l).
  { intros d Hd Fd. assert (Hd' : d ∈ freed l1 b [r]) by (apply used_in_freed; [set_solver | done]).
    rewrite Efr in Hd'. apply elem_of_app in Hd' as [? | ->%list_elem_of_singleton]; [done | congruence]. }
  assert (U2 : used_size (freed l1 b [r]) = used_size (l ++ cut_last c e')).
  { rewrite Efr, !used_size_app. simpl. rewrite Fc. unfold cut_last. case_match; done. }
  rewrite Run. revert I2. unfold cut_last in *. destruct (Z.eqb_spec e' (b_addr c)) as [E0|E0]; cbn [negb] in Re; intros I2.
  - exists h2, t1. rewrite (bind_ok _ _ _ _ _ Re). split_and!; try done; [split; [done |]; by rewrite Eu2, Us, U2 |].
    intros d Hd Fd. eapply keeps_trans; [apply K; [set_solver | done] |]. apply K2. auto.
  - destruct (tree_insert_inv head tree_fuel h2 _ t1 [] (Block (b_addr c) (e' - b_addr c) true) I2) as (h3 & t3 & Run3 & I3 & Fr3).
    { apply not_elem_of_nil. }
    { done. }
    { set_solver. }
    { done. }
    { assert (El : length (l ++ [Block (b_addr c) (e' - b_addr c) true]) = length (l ++ [c])) by (by rewrite !length_app). lia. }
    assert (Sb := frame_bounds _ _ _ _ _ Fr3). assert (Li3 := bounds_limits _ _ _ Sb). destruct Sb as (_ & _ & Ee3 & _ & _ & Eu3 & _).
    exists h3, t3. split_and!.
    + rewrite (bind_ok _ _ _ _ _ Re). unfold block_to_rbnode. rewrite u32_small by lia. by rewrite (bind_ok _ _ _ _ _ Run3).
    + split; [done |]. by rewrite Eu3, Eu2, Us, U2.
    + by rewrite Ee3.
    + by eapply resized_limits.
    + by eapply stack_limits.
    + by eapply paged_limits.
    + intros d Hd Fd. eapply keeps_trans; [apply K; [set_solver | done] |]. eapply keeps_trans; [apply K2; auto |].
      apply Fr3; [rewrite elem_of_app; left; auto | by left].
Qed.
End shrinking.
