(* ===== verification/AllocAlign.v ===== *)
(** alloc with an alignment.

    The search compares the size of a free block less the bytes before its first
    aligned place with the request. It is right under three conditions, which the
    code does not establish: no two free blocks have the same size, no free
    block is smaller than the bytes before its first aligned place, and the
    block that is used is split at its end as well. *)

From S2P Require Import Prelude Memory Frames Paging RbTree RbHeap RbModel RbRep RbInsert RbSpec RbRemove RbUnlink RbRemoveSpec MemAlloc AllocBase AllocTree AllocSpec AllocOps AllocGrow.

(** The bytes before the first aligned place of a block. *)
Definition aligned_offset (a : Z) (b : block) : Z := best_offset a (b_addr b + 8).

(** The answer of compare for the node of a free block. *)
Definition fits (a req : Z) (b : block) : Prop := req <= b_size b /\ req <= u32 (b_size b - aligned_offset a b).

(** No two free blocks have the same size. *)
Definition unique_sizes (bl : list block) : Prop :=
  forall b c, b ∈ bl -> c ∈ bl -> b_free b = true -> b_free c = true -> b_size b = b_size c -> b = c.

(** ** The search *)

Section search.
Context (head : Z) (fuel : nat) (h : heap) (bl : list block) (t : tree).
Hypothesis inv : heap_inv h bl t [].
Hypothesis stack : stack_ok head h.
Hypothesis iterations : (length bl < fuel)%nat.
Hypothesis unique : unique_sizes bl.
Context (a req : Z).
Hypothesis positive : 0 < a.
Let args := Some (AllocArgs a 0).

Lemma aligned_fn b :
  b ∈ bl -> compare_fn (b_addr b + 4) (b_size b) req args = if decide (fits a req b) then 0 else -1.
Proof.
  intros Hb. destruct (inv_bounds _ _ _ _ inv b Hb) as (B0 & B1 & _). pose proof (bk_size _ _ (inv_block _ _ _ _ inv b Hb)).
  unfold compare_fn, rbnode_to_user, args. replace (b_addr b + 4 + 4) with (b_addr b + 8) by lia. rewrite (u32_small (b_addr b + 8)) by lia.
  simpl from_option. rewrite (proj2 (Z.eqb_neq a 0)) by lia. cbn [negb]. fold (aligned_offset a b). unfold fits.
  set (u := u32 (b_size b - aligned_offset a b)). clearbody u.
  destruct (Z.ltb_spec (b_size b) req), (Z.ltb_spec u req); case_decide; done || lia.
Qed.

(** A label of the tree is one free block. *)
Lemma label_block x : x ∈ inorder t -> exists b, b ∈ bl /\ b_free b = true /\ lb_addr x = b_addr b + 4 /\ lb_key x = b_size b /\
  (forall n, n ∈ lab_addrs x -> n = b_addr b + 4) /\ (ltx compare_fn args req x = true <-> ~ fits a req b).
Proof.
  intros Hx. assert (Hk : forall n, n ∈ lab_addrs x -> (n, lb_key x) ∈ keyed (inorder t)) by (intros n Hn; apply keyed_elem; eauto).
  destruct (inv_key_block h bl t [] inv _ _ (Hk (lb_addr x) ltac:(by left))) as (b & Hb & Fb & _ & Ea & Ek).
  exists b. split_and!; try done.
  - intros n Hn. destruct (inv_key_block h bl t [] inv _ _ (Hk n Hn)) as (c & Hc & Fc & _ & -> & Ec).
    rewrite (unique c b); [done | done | done | done | done | congruence].
  - unfold ltx. rewrite Ea, Ek, aligned_fn by done. case_decide; [by split |]. done.
Qed.

Lemma tree_remove_aligned :
  exists n h' t', tree_remove head fuel req args h = Ok (n, h') /\ tree_frame head h h' bl [] /\
    (n = 0 /\ heap_inv h' bl t' [] /\
       (forall b, b ∈ bl -> b_free b = true -> (forall c, c ∈ bl -> b_free c = true -> b_size c <= b_size b) -> ~ fits a req b) \/
     exists b, b ∈ bl /\ b_free b = true /\ n = b_addr b + 4 /\ fits a req b /\ heap_inv h' bl t' [b_addr b]).
Proof.
  assert (Se : Searchable compare_fn req args) by (apply aligned_searchable; lia).
  destruct (remove_correct compare compare_fn select_dup selects args req head (hmem h) (mem_tree (al h)) t fuel
    (hi_tree _ _ _ _ inv) (hi_rb _ _ _ _ inv) (inv_can_remove _ _ _ _ _ inv stack) (inv_enough _ _ _ _ inv fuel iterations))
    as (n & tr' & m' & t' & Run & Hm' & Post & Un & Key).
  destruct (removed_inv head fuel h bl t [] inv stack iterations args _ _ _ _ _ Hm' Post Un Key) as [Fr Cases].
  exists n, (Heap m' (with_tree tr' (al h)) (hpg h)), t'. split_and!; [unfold tree_remove; by rewrite Run | done |].
  destruct Cases as [(-> & I')|(b & Hb & Fb & _ & En & I')]; [left | right].
  - split_and!; try done. intros b Hb Fb Max Fit. destruct Post as (l1 & l2 & El & [C1 C2] & Spec & _).
    assert (l2 = []) as ->.
    { destruct l2 as [|x l2]; [done |]. exfalso. specialize (C2 x eq_refl). assert (Hx : x ∈ inorder t) by (rewrite El; set_solver).
      destruct (label_block x Hx) as (c & Hc & Fc & Ea & Ek & Al & Lt). rewrite C2 in Lt.
      assert (Ex : eqx compare_fn args req x = true).
      { unfold eqx. rewrite Ea, Ek, aligned_fn by done. case_decide as D; [done |]. by apply Lt in D. }
      assert (Pos := inv_positive fuel h bl t [] inv iterations).
      assert (Tn : forall k, k ∈ lab_addrs x -> k <> 0).
      { intros k Hk. apply Pos. apply keyed_taddrs. exists (lb_key x). apply keyed_elem. eauto. }
      destruct (take_lab_some (fun k => selects k args) x) as (k & ys & Ty).
      { intros k Hk. unfold selects, args. simpl. by rewrite (proj2 (Z.eqb_neq _ _) (Tn k Hk)). }
      unfold remove_head in Spec. rewrite Ex, Ty in Spec. simpl in Spec. injection Spec as E0 _.
      apply (Tn k); [| done]. rewrite (take_lab_addrs _ _ _ _ Ty). by left. }
    rewrite app_nil_r in El. pose proof (inv_key h bl t [] inv b Hb Fb ltac:(apply not_elem_of_nil)) as Hk.
    apply keyed_elem in Hk as (y & Hy & Ey & Ay).
    destruct l1 as [|z l1 _] using rev_ind; [rewrite El in Hy; by apply not_elem_of_nil in Hy |].
    specialize (C1 z (last_snoc _ _)). assert (Hz : z ∈ inorder t) by (rewrite El; set_solver).
    destruct (label_block z Hz) as (c & Hc & Fc & Ea & Ek & _ & Lt). apply Lt in C1.
    assert (c = b) as ->; [| done]. apply unique; try done. apply Z.le_antisymm; [by apply Max |].
    rewrite <- Ek, Ey. assert (S := ok_sorted _ _ (hi_rb _ _ _ _ inv)). rewrite El in S, Hy. apply sorted_app in S as (_ & _ & F).
    apply elem_of_app in Hy as [Hy | ->%list_elem_of_singleton]; [| done]. rewrite Forall_forall in F. specialize (F y Hy).
    apply Forall_cons in F as [F _]. lia.
  - exists b. split_and!; try done. destruct (inv_bounds _ _ _ _ inv b Hb) as (B0 & _).
    destruct (Key ltac:(lia)) as (x & Hx & _ & Ex & Ax). destruct (label_block x Hx) as (c & Hc & Fc & Ea & Ek & Al & _).
    rewrite (Al n Ax) in En. assert (c = b) as ->.
    { apply (tiled_same_addr _ _ bl c b (hi_tiled _ _ _ _ inv) (inv_sized _ _ _ _ inv)); [done | done | lia]. }
    unfold eqx in Ex. rewrite Ea, Ek, aligned_fn in Ex by done. case_decide; done.
Qed.
End search.

(** ** Cutting off the front of a block *)

Lemma grow_offset_skip fuel a o :
  0 < a -> a + 28 <= 2 ^ 32 -> 0 < o < 2 ^ 32 -> grow_offset fuel a o = skip_offset fuel a o.
Proof.
  intros Ha Hm. revert o. induction fuel as [|fuel IH]; intros o Ho; cbn [grow_offset skip_offset]; [done |].
  rewrite (proj2 (Z.eqb_neq o 0)) by lia. cbn [negb andb]. rewrite min_block_size. destruct (Z.ltb_spec o 28); [| done].
  rewrite u32_small by lia. apply IH. lia.
Qed.

(** alloc and compare agree on the bytes before the aligned place. *)
Lemma grow_offset_best a user :
  0 < a -> a + 28 <= 2 ^ 32 -> user mod a <> 0 -> grow_offset 28 a (a - user mod a) = best_offset a user.
Proof.
  intros Ha Hm Hu. pose proof (Z.mod_pos_bound user a Ha). unfold best_offset. rewrite (Z.mod_small (a - user mod a)) by lia.
  apply grow_offset_skip; lia.
Qed.

Lemma best_offset_zero a user : 0 < a -> user mod a = 0 -> best_offset a user = 0.
Proof. intros Ha E. unfold best_offset. rewrite E, Z.sub_0_r, Z_mod_same_full. done. Qed.

(** The header word as set_magic writes it. *)
Definition magic_word (w : Z) : Z := Z.lor (Z.land MAGIC (Z.lnot 1)) (Z.land w 1).
Definition stamped (x : Z) (m : mem) : mem := set_word x (magic_word (word_at m x)) m.

Lemma stamped_same x m : same_but m (stamped x m) x (x + 4).
Proof. split; [done |]. intros b Hb. apply byte_at_set_word_other. lia. Qed.

Lemma stamped_ok x m : magic_ok (stamped x m) x /\ flag (stamped x m) x = flag m x.
Proof.
  assert (W : word_at (stamped x m) x = magic_word (word_at m x)).
  { unfold stamped. rewrite word_at_set_same. apply u32_small, magic_word_range. }
  unfold magic_ok, flag. rewrite W. split; [apply lor_mask |]. do 2 f_equal. apply lor_bit.
Qed.

(** Size and footer of the block at [s]. *)
Lemma tail_runs m s n :
  region_present m s n -> 0 < s -> s + n < 2 ^ 32 -> 28 <= n ->
  exists m', (set_size s n;; f ← get_footer s; set_footer_header f s;; set_magic f) m = Ok (tt, m') /\
    same_but m m' (s + 4) (s + n) /\ word_at m' (s + 4) = n /\ magic_ok m' (s + n - 8) /\ word_at m' (s + n - 4) = s.
Proof.
  intros P H0 H1 Hn.
  assert (W : forall m' b, same_but m m' (s + 4) (s + n) -> s <= b -> b + 4 <= s + n -> word_present m' b = true).
  { intros m' b S B1 B2. apply (region_word m' s n b); [by eapply same_but_present | done | done]. }
  destruct (write_word m (s + 4) (W m (s + 4) ltac:(done) ltac:(lia) ltac:(lia)) n ltac:(lia)) as (m1 & E1 & S1 & W1).
  assert (S1' := same_but_mono _ _ _ _ (s + 4) (s + n) S1 ltac:(lia) ltac:(lia)).
  destruct (write_word m1 (s + n - 4) (W m1 (s + n - 4) S1' ltac:(lia) ltac:(lia)) s ltac:(lia)) as (m2 & E2 & S2 & W2).
  assert (S2' := same_but_trans _ _ _ _ _ S1' (same_but_mono _ _ _ _ (s + 4) (s + n) S2 ltac:(lia) ltac:(lia))).
  destruct (set_magic_runs m2 (s + n - 8) (W m2 (s + n - 8) S2' ltac:(lia) ltac:(lia))) as (m3 & E3 & S3 & M3 & _).
  exists m3. split_and!; [| eapply same_but_trans; [exact S2' | eapply same_but_mono; [exact S3 | lia | lia]] | | done |].
  - unfold set_size. rewrite (u32_small (s + 4)) by lia. rewrite (bind_ok _ _ _ _ _ E1).
    assert (Gf : get_footer s m1 = Ok (s + n - 8, m1)).
    { unfold get_footer, get_size, FOOTER_SIZE. rewrite (u32_small (s + 4)) by lia.
      rewrite (bind_ok _ _ _ _ _ (load32_ok _ _ (W m1 (s + 4) S1' ltac:(lia) ltac:(lia)))). rewrite W1, u32_small by lia. done. }
    rewrite (bind_ok _ _ _ _ _ Gf). unfold set_footer_header. replace (s + n - 8 + 4) with (s + n - 4) by lia.
    rewrite (u32_small (s + n - 4)) by lia. by rewrite (bind_ok _ _ _ _ _ E2).
  - rewrite (same_but_word _ _ _ _ _ S3), (same_but_word _ _ _ _ _ S2) by lia. done.
  - rewrite (same_but_word _ _ _ _ _ S3) by lia. done.
Qed.

(** The front of the block becomes a free block. *)
Lemma front_runs m s n :
  region_present m s n -> 0 < s -> s + n < 2 ^ 32 -> 28 <= n -> s mod 4 = 0 -> n mod 4 = 0 ->
  exists m', (set_magic s;; set_size s n;; f ← get_footer s; set_footer_header f s;; set_magic f;; mark_free s) m = Ok (tt, m') /\
    same_but m m' s (s + n) /\ block_ok m' (Block s n true).
Proof.
  intros P H0 H1 Hn As An.
  destruct (set_magic_runs m s ltac:(apply (region_word m s n s P); lia)) as (m1 & E1 & S1 & M1 & _).
  assert (S1' := same_but_mono _ _ _ _ s (s + n) S1 ltac:(lia) ltac:(lia)).
  destruct (tail_runs m1 s n (same_but_present _ _ _ _ _ _ S1 P) H0 H1 Hn) as (m2 & E2 & S2 & Z2 & F2 & H2).
  assert (S2' := same_but_trans _ _ _ _ _ S1' (same_but_mono _ _ _ _ s (s + n) S2 ltac:(lia) ltac:(lia))).
  destruct (mark_free_runs m2 s ltac:(apply (region_word m2 s n s (same_but_present _ _ _ _ _ _ S2' P)); lia)) as (m3 & E3 & S3 & M3 & F3).
  exists m3. split_and!; [| eapply same_but_trans; [exact S2' | eapply same_but_mono; [exact S3 | lia | lia]] |].
  - rewrite (bind_ok _ _ _ _ _ E1). revert E2. unfold mbind, M_bind. destruct (set_size s n m1) as [[u0 n0]|]; [| done].
    destruct (get_footer s n0) as [[f n1]|]; [| done]. destruct (set_footer_header f s n1) as [[u2 n2]|]; [| done]. by intros ->.
  - split; cbn [b_addr b_size b_free]; try done.
    + apply M3. unfold magic_ok. by rewrite (same_but_word _ _ _ _ _ S2) by lia.
    + rewrite (same_but_word _ _ _ _ _ S3) by lia. done.
    + rewrite (same_but_word _ _ _ _ _ S3) by lia. done.
    + rewrite (same_but_word _ _ _ _ _ S3) by lia. done.
Qed.

(** Both halves; the second one still lacks the magic word of its header. *)
Lemma align_runs m b o :
  region_present m (b_addr b) (b_size b) -> block_ok m b -> 0 < b_addr b -> b_addr b + b_size b < 2 ^ 32 ->
  28 <= o -> o mod 4 = 0 -> 28 <= b_size b - o ->
  let n := b_addr b + o in
  exists m1 m2,
    (s ← get_size (b_addr b); set_size n (u32 (s - o));; f ← get_footer n; set_footer_header f n;; set_magic f) m = Ok (tt, m1) /\
    (set_magic (b_addr b);; set_size (b_addr b) o;; f ← get_footer (b_addr b); set_footer_header f (b_addr b);; set_magic f;;
     mark_free (b_addr b)) m1 = Ok (tt, m2) /\
    same_but m m2 (b_addr b) (b_addr b + b_size b) /\ block_ok m2 (Block (b_addr b) o true) /\
    block_ok (stamped n m2) (Block n (b_size b - o) (flag m2 n)).
Proof.
  intros R B H0 H1 Ho Ao Hs n. destruct (bk_align _ _ B) as [Aa As].
  destruct (tail_runs m n (b_size b - o)) as (m1 & E1 & S1 & Z1 & F1 & D1);
    [eapply region_sub; [exact R | unfold n; lia | unfold n; lia] | unfold n; lia | unfold n; lia | done |].
  assert (S1' := same_but_mono _ _ _ _ (b_addr b) (b_addr b + b_size b) S1 ltac:(unfold n; lia) ltac:(unfold n; lia)).
  destruct (front_runs m1 (b_addr b) o) as (m2 & E2 & S2 & B2); try done; [| lia |].
  { eapply same_but_present; [exact S1 |]. eapply region_sub; [exact R | lia | lia]. }
  exists m1, m2. split_and!; try done.
  - rewrite (bind_ok _ _ _ _ _ (get_size_runs _ _ R B H0 H1)). by rewrite u32_small by lia.
  - eapply same_but_trans; [exact S1' | eapply same_but_mono; [exact S2 | lia | lia]].
  - assert (K : forall a, n + 4 <= a -> word_at (stamped n m2) a = word_at m1 a).
    { intros a Ha. rewrite (same_but_word _ _ _ _ _ (stamped_same n m2)), (same_but_word _ _ _ _ _ S2) by (unfold n in *; lia). done. }
    destruct (stamped_ok n m2) as [M F]. split; cbn [b_addr b_size b_free]; try done; try (rewrite K by lia; done).
    unfold n. split; Z.div_mod_to_equations; lia.
Qed.

(** ** An insertion while a header lacks its magic word *)

Section stamped.
Context (head : Z) (fuel : nat) (h : heap) (bl : list block) (t : tree) (d : block).
Let m := hmem h.
Let x := b_addr d.
Let hs := Heap (stamped x m) (al h) (hpg h).
Hypothesis listed : d ∈ bl.

(** The header word is in no node. *)
Lemma header_apart t' X c i :
  heap_inv hs bl t' X -> c ∈ bl -> x <= i < x + 4 -> i < b_addr c + 4 \/ b_addr c + 4 + 16 <= i.
Proof.
  intros I Hc Hi. destruct (inv_in _ _ _ _ I c Hc) as (_ & _ & ?). destruct (inv_in _ _ _ _ I d listed) as (_ & _ & ?).
  destruct (inv_apart _ _ _ _ I c d Hc listed) as [-> | ?]; unfold x in *; lia.
Qed.

Lemma stamped_untouched m' l :
  untouched m m' l -> (forall a i, a ∈ l -> x <= i < x + 4 -> i < a \/ a + 16 <= i) -> untouched (stamped x m) (stamped x m') l.
Proof.
  intros [P U] Ap. split; [exact P |]. intros i Hi.
  assert (W : word_at m' x = word_at m x) by (unfold word_at; by rewrite !U by (intros a Ha; apply (Ap a); [done | lia])).
  unfold stamped. rewrite W. destruct (decide (x <= i < x + 4)) as [Hx|Hx].
  - assert (i = x \/ i = x + 1 \/ i = x + 2 \/ i = x + 3) as [-> | [-> | [-> | ->]]] by lia; unfold set_word;
      repeat (rewrite byte_at_set_same || rewrite byte_at_set_other by lia); done.
  - rewrite !byte_at_set_word_other by lia. by apply U.
Qed.

Lemma insert_stamped X b :
  heap_inv hs bl t (b_addr b :: X) -> b_addr b ∉ X -> stack_ok head h -> b ∈ bl -> b_free b = true ->
  (2 * length bl + 1 <= fuel)%nat ->
  exists h' t', tree_insert head fuel (b_addr b + 4) None h = Ok (1, h') /\
    heap_inv (Heap (stamped x (hmem h')) (al h') (hpg h')) bl t' X /\ same_bounds head h h' /\
    forall c, c ∈ bl -> b_free c = false -> c <> d -> keeps_block m (hmem h') c.
Proof.
  intros I NX St Hb Fb Hf. assert (Sts : stack_ok head hs) by (destruct St; split; [by apply (node_ok_pages m) | done]).
  assert (Nl := fun a => inv_insert_nodes hs bl t X b a I NX Hb Fb).
  assert (Ap : forall a i, a ∈ head :: b_addr b + 4 :: taddrs t -> x <= i < x + 4 -> i < a \/ a + 16 <= i).
  { intros a i [-> | Ha]%elem_of_cons Hi.
    - destruct (inv_in _ _ _ _ I d listed) as (? & ? & ?). destruct (st_apart _ _ Sts); unfold x in *; cbn [hs al] in *; lia.
    - destruct (Nl a Ha) as (c & Hc & _ & _ & ->). by eapply header_apart. }
  assert (Hm : holds m (mem_tree (al h)) t).
  { apply (holds_frame (stamped x m)); [apply I | done |]. intros a Ha i Hi. symmetry. apply stamped_same.
    destruct (decide (x <= i < x + 4)) as [Hx|]; [| lia]. destruct (Ap a i ltac:(set_solver) Hx); lia. }
  assert (Ci := inv_can_insert head hs bl t X b I Sts Hb). destruct (insert_correct compare compare_fn None head m (mem_tree (al h)) t (b_addr b + 4) fuel
              Hm (hi_rb _ _ _ _ I)) as (tr' & m' & t' & Run & Hm' & Post & Un).
  { destruct Ci. split; try done; by apply (node_ok_pages (stamped x m)). }
  { pose proof (inv_depth _ _ _ _ I). lia. }
  assert (Dl := insert_data _ _ _ _ _ _ _ Hm Hm' Post). destruct Post as (_ & Ok' & Ad).
  assert (Uns := stamped_untouched m' _ Un Ap). assert (Kw : forall m a, a ∈ b_addr b + 4 :: taddrs t -> word_at (stamped x m) a = word_at m a).
  { intros m0 a Ha. apply (same_but_word _ _ _ _ _ (stamped_same x m0)).
    pose proof (Ap a x ltac:(set_solver) ltac:(lia)). pose proof (Ap a (x + 3) ltac:(set_solver) ltac:(lia)). lia. }
  exists (Heap m' (with_tree tr' (al h)) (hpg h)), t'. split_and!.
  - unfold tree_insert. fold m. by rewrite Run.
  - apply (inv_new_tree head hs bl t (b_addr b :: X) X tr' (stamped x m') t' (b_addr b + 4 :: taddrs t)); try done.
    + apply (holds_frame m'); [done | done |]. intros a Ha i Hi. apply stamped_same.
      destruct (decide (x <= i < x + 4)) as [Hx|]; [| lia]. rewrite Ad in Ha. destruct (Ap a i ltac:(set_solver) Hx); lia.
    + intros a Ha. destruct (Nl a Ha) as (c & ? & ? & _ & ->). by exists c.
    + intros a Ha. cbn [hs hmem]. rewrite !Kw by done. by apply Dl.
    + intros n. by apply (inv_inserted hs bl t X b).
  - split_and!; try done; [| apply Un]. intros i Hi Hh. apply Un. intros a [-> | Ha]%elem_of_cons; [done |].
    destruct (Nl a Ha) as (c & Hc & _ & _ & ->). destruct (inv_in _ _ _ _ I c Hc) as (? & ? & ?). cbn [hs al] in *. lia.
  - intros c Hc Fc Nd i Hi. assert (K := inv_insert_keeps head hs bl t X b (stamped x m') c I NX Sts Hb Fb Uns Hc ltac:(by left) i Hi).
    assert (Hx : ~ x <= i < x + 4).
    { intros Hx. destruct (inv_apart _ _ _ _ I c d Hc listed) as [? | ?]; [done |]. destruct (inv_in _ _ _ _ I d listed) as (_ & _ & ?). unfold x in *. lia. }
    cbn [hs hmem] in K. rewrite (proj2 (stamped_same x m')), (proj2 (stamped_same x m)) in K by lia. exact K.
Qed.
End stamped.

(** ** The aligned block *)

Section align.
Context (table_ap : Z -> M pg (Z * Z)) (frame_data : Z -> mem -> mem) (head : Z) (tree_fuel : nat).

Lemma align_block_ok h l1 b l2 t a :
  let o := aligned_offset a b in let n := b_addr b + o in
  heap_inv h (l1 ++ b :: l2) t [b_addr b] -> stack_ok head h -> 0 < a -> a mod 4 = 0 -> a + 28 <= 2 ^ 32 ->
  o <> 0 -> 28 <= b_size b - o -> (2 * length (l1 ++ b :: l2) + 3 <= tree_fuel)%nat ->
  exists h' t' f, align_block head tree_fuel (b_addr b) a h = Ok (n, h') /\
    heap_inv (Heap (stamped n (hmem h')) (al h') (hpg h')) ((l1 ++ [Block (b_addr b) o true]) ++ Block n (b_size b - o) f :: l2) t' [n] /\
    same_bounds head h h' /\ forall c, c ∈ l1 ++ l2 -> b_free c = false -> keeps_block (hmem h) (hmem h') c.
Proof.
  intros o n I St Ha A4 Am Ho Hs Hf. assert (Hb : b ∈ l1 ++ b :: l2) by set_solver.
  destruct (inv_bounds _ _ _ _ I b Hb) as (B0 & B1 & Aa & _). assert (Bk := inv_block _ _ _ _ I b Hb). pose proof (bk_size _ _ Bk) as Zb.
  assert (Bo : (o = 0 \/ 28 <= o < a + 28) /\ (b_addr b + 8 + o) mod a = 0) by (by apply best_offset_ok).
  destruct Bo as [[O0 | O1] Om]; [done |].
  assert (Um : (b_addr b + 8) mod a <> 0) by (intros E; apply Ho; by apply best_offset_zero).
  assert (Ao : o mod 4 = 0).
  { apply Z.mod_divide in A4 as [q Eq]; [| lia]. apply Z.mod_divide in Om as [p Ep]; [| lia]. subst a. Z.div_mod_to_equations. nia. }
  destruct (align_runs (hmem h) b o (inv_region _ _ _ _ I b Hb) Bk B0 B1 ltac:(lia) Ao Hs) as (m1 & m2 & E1 & E2 & S2 & Bf & Bn). fold n in E1, Bn.
  set (fr := Block (b_addr b) o true) in *. set (nb := Block n (b_size b - o) (flag m2 n)) in *.
  assert (Sp : tiled (b_addr b) (b_addr b + b_size b) [b]) by (by simpl).
  assert (Ss : same_but (hmem h) (stamped n m2) (b_addr b) (b_addr b + b_size b)).
  { eapply same_but_trans; [exact S2 |]. eapply same_but_mono; [apply stamped_same | unfold n; lia | unfold n; lia]. }
  change (l1 ++ b :: l2) with (l1 ++ [b] ++ l2) in I.
  assert (Out := outside_span _ _ [b] _ _ _ _ _ I ltac:(done) Sp).
  assert (I1 : heap_inv (Heap (stamped n m2) (al h) (hpg h)) (l1 ++ [fr; nb] ++ l2) t [b_addr fr; n]).
  { apply (inv_rewrite h l1 [b] l2 t [b_addr b] _ _ _ I ltac:(done) Sp Ss [fr; nb]).
    - simpl. unfold n. lia.
    - apply Forall_cons. split; [| by apply Forall_singleton]. eapply block_ok_same; [apply stamped_same | | exact Bf]. left. cbn [fr b_addr b_size]. unfold n. lia.
    - intros c ->%list_elem_of_singleton _. by left.
    - intros c. rewrite !elem_of_cons. intros [-> | [-> | ?%not_elem_of_nil]] _; [by left | right; by left | done].
    - intros c Hc. destruct (inv_in _ _ _ _ I c ltac:(set_solver)) as (_ & _ & ?). specialize (Out c Hc).
      rewrite !elem_of_cons. cbn [fr b_addr]. split; [| tauto]. intros [? | [? | ?]]; [by left | unfold n in *; lia | by right]. }
  assert (Sb1 : same_bounds head h (Heap m2 (al h) (hpg h))) by (destruct (inv_in _ _ _ _ I b ltac:(set_solver)) as (? & ? & _); by eapply inside_bounds).
  assert (Hnb : nb ∈ l1 ++ [fr; nb] ++ l2) by set_solver.
  destruct (insert_stamped head tree_fuel (Heap m2 (al h) (hpg h)) (l1 ++ [fr; nb] ++ l2) t nb Hnb [n] fr I1) as (h3 & t3 & E3 & I3 & Sb3 & K3).
  { rewrite list_elem_of_singleton. cbn [fr b_addr]. unfold n. lia. }
  { by eapply stack_bounds. }
  { set_solver. }
  { done. }
  { rewrite !length_app in Hf |- *. simpl in *. lia. }
  exists h3, t3, (flag m2 n). split_and!; [| by rewrite <- app_assoc | by eapply same_bounds_trans |].
  - unfold align_block, block_to_user, USER_PTR_OFFSET. change (4 + 4) with 8. rewrite (u32_small (b_addr b + 8)) by lia.
    rewrite (proj2 (Z.eqb_neq _ _) Um). cbn [negb]. rewrite grow_offset_best by done.
    change (best_offset a (b_addr b + 8)) with o. cbv zeta. fold n. rewrite (u32_small n) by (unfold n; lia). rewrite (bind_ok _ _ _ _ _ (on_mem_ok _ h _ _ E1)).
    rewrite min_block_size, (proj2 (Z.leb_le 28 o)) by lia. rewrite (bind_ok (assert true) _ _ tt (Heap m1 (al h) (hpg h))) by done.
    rewrite (bind_ok _ _ _ _ _ (on_mem_ok _ (Heap m1 (al h) (hpg h)) _ _ E2)). unfold block_to_rbnode.
    rewrite (u32_small (b_addr b + 4)) by lia. cbn [fr b_addr] in E3. cbn [al]. by rewrite (bind_ok _ _ _ _ _ E3).
  - intros c Hc Fc. eapply keeps_trans; [apply (rewrite_keeps h l1 [b] l2 t [b_addr b] _ _ m2 I ltac:(done) Sp S2 c Hc) |].
    apply K3; [set_solver | done |]. intros ->. specialize (Out nb Hc). cbn [nb b_addr b_size] in Out. unfold n in Out. lia.
Qed.

(** Cutting the block to size writes the header anyway. *)
Lemma bind_same {S A B} (c : M S A) (f : A -> M S B) s s' : c s = c s' -> (c ≫= f) s = (c ≫= f) s'.
Proof. intros E. unfold mbind, M_bind. by rewrite E. Qed.

Lemma set_word_absorb x v r m : set_word x v (set_word (x + 4) r (set_word x v m)) = set_word x v (set_word (x + 4) r m).
Proof.
  unfold set_word, set_byte. cbn [m_bytes m_pages]. f_equal. apply map_eq. intros i. rewrite !lookup_insert.
  repeat case_decide; done || lia.
Qed.

Lemma magic_word_twice w : magic_word (magic_word w) = magic_word w.
Proof. unfold magic_word at 1. unfold magic_word at 1. rewrite lor_bit. done. Qed.

Lemma fragment_stamped h n size req :
  0 < n -> n + 8 < 2 ^ 32 -> word_present (hmem h) n = true -> word_present (hmem h) (n + 4) = true ->
  word_at (hmem h) (n + 4) = size -> 28 <= size - req -> 0 <= req ->
  fragment_block head tree_fuel n req h = fragment_block head tree_fuel n req (Heap (stamped n (hmem h)) (al h) (hpg h)).
Proof.
  intros N0 N1 P0 P4 Sz Hs Hr. set (m := hmem h) in *. set (ms := stamped n m).
  assert (Wn : word_at ms n = magic_word (word_at m n)) by (unfold ms, stamped; rewrite word_at_set_same; apply u32_small, magic_word_range).
  assert (Hz : 0 <= size < 2 ^ 32) by (rewrite <- Sz; apply word_at_range).
  assert (G : forall m', word_present m' (n + 4) = true -> word_at m' (n + 4) = size -> get_size n m' = Ok (size, m')).
  { intros m' P W. unfold get_size. rewrite u32_small by lia. rewrite load32_ok by done. by rewrite W. }
  assert (St : forall m', m_pages m' = m_pages m -> (set_size n req;; set_magic n) m' =
    Ok (tt, set_word n (magic_word (word_at m' n)) (set_word (n + 4) req m'))).
  { intros m' P. assert (W : forall q, word_present m q = true -> forall m2, m_pages m2 = m_pages m -> word_present m2 q = true).
    { intros q Hq m2 E2. unfold word_present, page_present in *. by rewrite E2. }
    unfold set_size. rewrite (u32_small (n + 4)) by lia. rewrite (bind_ok _ _ _ _ _ (store32_ok _ _ _ (W _ P4 m' P))).
    unfold set_magic. rewrite (bind_ok _ _ _ _ _ (load32_ok _ _ (W _ P0 (set_word (n + 4) req m') P))).
    rewrite store32_ok by (by apply (W n P0)). rewrite (same_but_word m' (set_word (n + 4) req m') (n + 4) (n + 8)); [done | | lia].
    split; [done |]. intros i Hi. apply byte_at_set_word_other. lia. }
  set (m2 := set_word n (magic_word (word_at m n)) (set_word (n + 4) req m)).
  assert (E2 : (set_size n req;; set_magic n) m = Ok (tt, m2)) by (by apply St).
  assert (Es : (set_size n req;; set_magic n) ms = Ok (tt, m2)).
  { rewrite St by done. rewrite Wn, magic_word_twice. unfold ms, stamped, m2. by rewrite set_word_absorb. }
  assert (Cut : forall (k : M mem Z) m', (set_size n req;; set_magic n) m' = Ok (tt, m2) -> (set_size n req;; set_magic n;; k) m' = k m2).
  { intros k m'. unfold mbind, M_bind. destruct (set_size n req m') as [[? m1]|]; [| done]. by intros ->. }
  unfold fragment_block. rewrite (bind_ok _ _ h size h) by (apply on_mem_read; by apply G).
  rewrite (bind_ok _ _ (Heap ms (al h) (hpg h)) size (Heap ms (al h) (hpg h))).
  2:{ apply on_mem_read. apply G; [done |]. cbn [hmem]. unfold ms. rewrite (same_but_word _ _ _ _ _ (stamped_same n m)) by lia. done. }
  rewrite (u32_small (size - req)) by lia. rewrite min_block_size, (proj2 (Z.ltb_lt _ _)), (proj2 (Z.leb_le _ _)) by lia. cbn [andb].
  apply bind_same. unfold on_mem, zoom. cbn [hmem al]. fold m. by rewrite (Cut _ m E2), (Cut _ ms Es).
Qed.

(** ** alloc *)

(** The blocks that take the place of [b]. *)
Definition aligned_carve (a : Z) (b : block) (req : Z) : list block :=
  let o := aligned_offset a b in
  if o =? 0 then carve b req else Block (b_addr b) o true :: carve (Block (b_addr b + o) (b_size b - o) true) req.

(** The free blocks are such that a request of [req] bytes with the alignment
    [a] is served. *)
Record can_align (bl : list block) (a req : Z) : Prop := {
  ca_unique : unique_sizes bl;
  ca_room : forall c, c ∈ bl -> b_free c = true -> req <= b_size c -> aligned_offset a c <= b_size c;
  ca_split : forall c, c ∈ bl -> b_free c = true -> fits a req c ->
    aligned_offset a c = 0 \/ req + 28 <= b_size c - aligned_offset a c
}.

(** The free block [b], out of the tree, is aligned, cut to size and used. *)
Lemma use_aligned h l1 b l2 t a req :
  let o := aligned_offset a b in
  heap_inv h (l1 ++ b :: l2) t [b_addr b] -> b_free b = true -> stack_ok head h -> 0 < a -> a mod 4 = 0 -> a + 28 <= 2 ^ 32 ->
  28 <= req <= b_size b -> req mod 4 = 0 -> o = 0 \/ req + 28 <= b_size b - o -> (2 * length (l1 ++ b :: l2) + 5 <= tree_fuel)%nat ->
  exists h' t', (n ← align_block head tree_fuel (b_addr b) a; fragment_block head tree_fuel n req;; on_mem (mark_used n);;
      s ← on_mem (get_size n); add_mem_used s;; mret (block_to_user n)) h = Ok (b_addr b + o + 8, h') /\
    heap_inv h' (l1 ++ aligned_carve a b req ++ l2) t' [] /\
    mem_used_ (al h') = u32 (mem_used_ (al h) + used_size (aligned_carve a b req)) /\
    same_limits head h h' /\ (forall d, d ∈ l1 ++ l2 -> b_free d = false -> keeps_block (hmem h) (hmem h') d).
Proof.
  intros o I Fb St Ha A4 Am Hr R4 Sp Hf. assert (Hb : b ∈ l1 ++ b :: l2) by set_solver.
  destruct (inv_bounds _ _ _ _ I b Hb) as (B0 & B1 & _). unfold aligned_carve. fold o. destruct (Z.eqb_spec o 0) as [E0|E0].
  - rewrite E0, Z.add_0_r. destruct (cut_block_ok table_ap frame_data head tree_fuel h l1 b l2 t req I St Hr R4 ltac:(lia)) as (h' & t' & Run & Res).
    exists h', t'. split; [| exact Res]. rewrite (bind_ok _ _ h (b_addr b) h); [done |].
    unfold align_block, block_to_user, USER_PTR_OFFSET. change (4 + 4) with 8. rewrite (u32_small (b_addr b + 8)) by lia.
    assert (Om : (b_addr b + 8 + o) mod a = 0) by (by apply best_offset_ok). rewrite E0, Z.add_0_r in Om. by rewrite Om.
  - destruct Sp as [?|Sp]; [done |].
    destruct (align_block_ok h l1 b l2 t a I St Ha A4 Am E0) as (h1 & t1 & f & Run1 & I1 & Sb1 & K1); [fold o; lia | lia |]. fold o in Run1, I1.
    set (n := b_addr b + o) in *. set (nb := Block n (b_size b - o) f) in *. set (hs := Heap (stamped n (hmem h1)) (al h1) (hpg h1)) in *.
    assert (St1 := stack_bounds _ _ _ St Sb1). assert (Sts : stack_ok head hs) by (destruct St1; split; [by apply (node_ok_pages (hmem h1)) | done]).
    set (l1' := l1 ++ [Block (b_addr b) o true]) in *. assert (Hn : nb ∈ l1' ++ nb :: l2) by set_solver.
    destruct (inv_bounds _ _ _ _ I1 nb Hn) as (N0 & N1 & _). assert (Bn := inv_block _ _ _ _ I1 nb Hn). assert (Rn := inv_region _ _ _ _ I1 nb Hn).
    cbn [nb b_addr b_size] in N0, N1.
    assert (Fs : fragment_block head tree_fuel n req h1 = fragment_block head tree_fuel n req hs).
    { apply (fragment_stamped h1 n (b_size b - o)); try lia.
      - apply (region_word (stamped n (hmem h1)) n (b_size b - o) n Rn); lia.
      - apply (region_word (stamped n (hmem h1)) n (b_size b - o) (n + 4) Rn); lia.
      - pose proof (bk_data _ _ Bn) as D. cbn [nb b_addr b_size] in D. cbn [hs hmem] in D.
        by rewrite (same_but_word _ _ _ _ _ (stamped_same n (hmem h1))) in D by lia. }
    destruct (cut_block_ok table_ap frame_data head tree_fuel hs l1' nb l2 t1 req I1 Sts) as (h' & t' & Run2 & I2 & Us2 & Li2 & K2); [cbn [nb b_size]; lia | done | |].
    { assert (El : length l1' = S (length l1)) by (unfold l1'; rewrite length_app; simpl; lia). rewrite !length_app in *. simpl in *. lia. }
    assert (Ec : carve nb req = carve (Block n (b_size b - o) true) req) by done. rewrite Ec in I2, Us2.
    assert (Kn : forall c, c ∈ l1 ++ l2 -> keeps_block (hmem h1) (stamped n (hmem h1)) c).
    { intros c Hc i Hi. apply stamped_same. destruct (inv_apart _ _ _ _ I1 c nb) as [-> | Ap]; [unfold l1'; set_solver | done | |].
      - exfalso. change (l1 ++ b :: l2) with (l1 ++ [b] ++ l2) in I.
        destruct (outside_span _ _ [b] _ _ _ (b_addr b) (b_addr b + b_size b) I ltac:(done) ltac:(by simpl) nb Hc); cbn [nb b_addr b_size] in *; unfold n in *; lia.
      - cbn [nb b_addr b_size] in Ap. lia. }
    exists h', t'. split_and!.
    + rewrite (bind_ok _ _ _ _ _ Run1). rewrite (bind_same (fragment_block head tree_fuel n req) _ h1 hs Fs). exact Run2.
    + unfold l1' in I2. rewrite <- app_assoc in I2. exact I2.
    + rewrite Us2. cbn [hs al]. destruct Sb1 as (_ & _ & _ & _ & _ & -> & _). done.
    + eapply limits_trans; [eapply bounds_limits, Sb1 |]. destruct Li2 as (O & L2). split; [| exact L2].
      intros i Hi Hh. rewrite (O i Hi Hh). apply stamped_same. destruct (inv_in _ _ _ _ I1 nb Hn) as (? & ? & ?). cbn [hs al nb b_addr b_size] in *. lia.
    + intros d Hd Fd. eapply keeps_trans; [by apply K1 |]. eapply keeps_trans; [by apply Kn |]. apply K2; [unfold l1'; set_solver | done].
Qed.

Lemma alloc_aligned_fit fuel h bl t size a :
  let req := get_block_size size in
  heap_ok h bl t -> stack_ok head h -> 0 < a -> a mod 4 = 0 -> a + 28 <= 2 ^ 32 -> 0 <= size -> size + 19 < 2 ^ 32 -> can_align bl a req ->
  (exists c, c ∈ bl /\ b_free c = true /\ fits a req c /\ forall d, d ∈ bl -> b_free d = true -> b_size d <= b_size c) ->
  (2 * length bl + 5 <= tree_fuel)%nat ->
  exists l1 b l2 h' t', bl = l1 ++ b :: l2 /\ b_free b = true /\ req <= b_size b - aligned_offset a b /\
    let p := b_addr b + aligned_offset a b + 8 in
    p mod a = 0 /\ alloc table_ap frame_data head tree_fuel (S fuel) size a h = Ok (p, h') /\
    heap_ok h' (l1 ++ aligned_carve a b req ++ l2) t' /\ same_limits head h h' /\
    (forall d, d ∈ bl -> b_free d = false -> keeps_block (hmem h) (hmem h') d).
Proof.
  intros req [I Us] St Ha A4 Am H0 H1 [Un Ro Sp] (c & Hc & Fc & Fit & Max) Hf.
  destruct (get_block_size_ok size H0 H1) as (R1 & R2 & _). fold req in R1, R2.
  destruct (tree_remove_aligned head tree_fuel h bl t I St ltac:(lia) Un a req Ha) as (n & h1 & t1 & Run & Fr & Cases).
  destruct Cases as [(_ & _ & No)|(b & Hb & Fb & -> & Fb' & I1)]; [by destruct (No c Hc Fc Max) |].
  assert (Sb := frame_bounds _ _ _ _ _ Fr). destruct (inv_bounds _ _ _ _ I b Hb) as (B0 & B1 & _). pose proof (bk_size _ _ (inv_block _ _ _ _ I b Hb)).
  specialize (Ro b Hb Fb (proj1 Fb')). specialize (Sp b Hb Fb Fb').
  assert (Oo : (aligned_offset a b = 0 \/ 28 <= aligned_offset a b < a + 28) /\ (b_addr b + 8 + aligned_offset a b) mod a = 0) by (by apply best_offset_ok).
  assert (Fit' : req <= b_size b - aligned_offset a b) by (destruct Fb' as [_ F]; rewrite u32_small in F; [done | lia]).
  apply list_elem_of_split in Hb as (l1 & l2 & ->).
  destruct (use_aligned h1 l1 b l2 t1 a req I1 Fb (stack_bounds _ _ _ St Sb) Ha A4 Am ltac:(lia) R2 Sp Hf) as (h2 & t2 & Run2 & I2 & Us2 & Li2 & K2).
  exists l1, b, l2, h2, t2. cbv zeta. split_and!; try done.
  - replace (b_addr b + aligned_offset a b + 8) with (b_addr b + 8 + aligned_offset a b) by lia. apply Oo.
  - cbn [alloc]. fold req. rewrite (proj2 (Z.eqb_neq a 0)) by lia. rewrite (bind_ok _ _ _ _ _ Run).
    rewrite (proj2 (Z.eqb_neq (b_addr b + 4) 0)) by lia. unfold rbnode_to_block. replace (b_addr b + 4 - 4) with (b_addr b) by lia.
    rewrite u32_small by lia. exact Run2.
  - split; [exact I2 |]. rewrite Us2. destruct Sb as (_ & _ & _ & _ & _ & -> & _). by eapply used_replaced.
  - eapply limits_trans; [eapply bounds_limits, Sb | done].
  - intros d Hd Fd. eapply keeps_trans; [apply Fr; [done | by left] |]. apply K2; [by eapply used_elsewhere | done].
Qed.
End align.
