(* ===== verification/AllocProps.v ===== *)
(** The contract of alloc and free: the properties of the heap that the two
    operations keep, and that one undoes the other. *)

From S2P Require Import Prelude Memory Frames Paging RbTree RbHeap RbModel RbSpec MemAlloc AllocBase AllocTree AllocSpec AllocOps HeapTables HeapPages.

(** No two free blocks follow one another. *)
Fixpoint coalesced (bl : list block) : bool :=
  match bl with
  | b :: (c :: _) as bl' => negb (b_free b && b_free c) && coalesced bl'
  | _ => true
  end.

(** The first block of a list is in use, if there is one. *)
Definition starts_used (bl : list block) : bool := match bl with b :: _ => negb (b_free b) | [] => true end.
Definition ends_used (bl : list block) : bool := match last bl with Some b => negb (b_free b) | None => true end.

Lemma coalesced_cons b bl : coalesced (b :: bl) = (negb (b_free b) || starts_used bl) && coalesced bl.
Proof. destruct bl as [|c bl]; simpl; [by rewrite orb_true_r |]. by destruct (b_free b), (b_free c). Qed.

Lemma ends_used_cons b bl : bl <> [] -> ends_used (b :: bl) = ends_used bl.
Proof. by destruct bl. Qed.

Lemma coalesced_app l1 l2 : coalesced (l1 ++ l2) = coalesced l1 && coalesced l2 && (ends_used l1 || starts_used l2).
Proof.
  induction l1 as [|b l1 IH]; [simpl; by rewrite andb_true_r |].
  rewrite <- app_comm_cons, !coalesced_cons, IH. destruct l1 as [|c l1].
  - simpl. unfold ends_used. simpl. by destruct (b_free b), (starts_used l2), (coalesced l2).
  - rewrite (ends_used_cons b (c :: l1)) by done. cbn [app starts_used]. by rewrite !andb_assoc.
Qed.

Lemma coalesced_around l1 b l2 :
  coalesced (l1 ++ b :: l2) = true -> b_free b = true ->
  coalesced l1 = true /\ coalesced l2 = true /\ ends_used l1 = true /\ starts_used l2 = true.
Proof.
  rewrite coalesced_app, coalesced_cons. simpl. intros C Fb. rewrite Fb in C. simpl in C. rewrite orb_false_r in C.
  apply andb_true_iff in C as [C ?]. apply andb_true_iff in C as [? C]. apply andb_true_iff in C as [? ?]. done.
Qed.

Lemma coalesced_carve l1 b l2 req :
  coalesced (l1 ++ b :: l2) = true -> b_free b = true -> coalesced (l1 ++ carve b req ++ l2) = true.
Proof.
  intros C Fb. destruct (coalesced_around _ _ _ C Fb) as (C1 & C2 & E1 & S2).
  unfold carve. destruct (28 <=? b_size b - req); rewrite coalesced_app, C1, E1; cbn [app]; rewrite !coalesced_cons; simpl;
    rewrite ?C2, ?S2; done.
Qed.

(** free makes one free block of the freed one and its neighbours. *)
Lemma coalesced_freed l1 b l2 : coalesced (l1 ++ b :: l2) = true -> b_free b = false -> coalesced (freed l1 b l2) = true.
Proof.
  intros C Fb. rewrite coalesced_app, coalesced_cons in C. simpl in C. rewrite Fb in C. simpl in C.
  apply andb_true_iff in C as [C _]. apply andb_true_iff in C as [C1 C2].
  unfold freed. assert (exists c l2', free_right b l2 = (c, l2') /\ b_free c = true /\ coalesced l2' = true /\ starts_used l2' = true) as (c & l2' & -> & Fc & C2' & S2').
  { unfold free_right. destruct l2 as [|r l2]; [by eexists _, _ |]. destruct (b_free r) eqn:Fr.
    - eexists _, _. split_and!; try done; rewrite coalesced_cons, Fr in C2; simpl in C2; by apply andb_true_iff in C2 as [? ?].
    - eexists _, _. split_and!; try done. simpl. by rewrite Fr. }
  assert (exists l1' c', free_left l1 c = l1' ++ [c'] /\ coalesced l1' = true /\ ends_used l1' = true) as (l1' & c' & -> & C1' & E1').
  { unfold free_left. destruct l1 as [|l l1 _] using rev_ind; [by exists [], c |]. rewrite last_snoc.
    rewrite coalesced_app in C1. apply andb_true_iff in C1 as [C1 E1]. apply andb_true_iff in C1 as [C1 _].
    destruct (b_free l) eqn:Fl.
    - eexists _, _. rewrite removelast_last. split_and!; try done. simpl in E1. rewrite Fl in E1. by rewrite orb_false_r in E1.
    - eexists _, _. split_and!; try done.
      + rewrite coalesced_app, C1. simpl. by rewrite Fl, orb_true_r.
      + unfold ends_used. by rewrite last_snoc, Fl. }
  rewrite <- app_assoc. cbn [app]. by rewrite coalesced_app, coalesced_cons, C1', C2', S2', E1', orb_true_r.
Qed.

(** ** Undoing an allocation *)

Lemma carve_cons b req : exists u rest, carve b req = u :: rest /\ b_free u = false /\ b_addr u = b_addr b /\
  (rest = [] /\ b_size u = b_size b \/ rest = [Block (b_addr b + b_size u) (b_size b - b_size u) true]).
Proof. unfold carve. destruct (28 <=? b_size b - req); eexists _, _; split_and!; try done; [by right | by left]. Qed.

Lemma freed_carve l1 b l2 req u rest :
  coalesced (l1 ++ b :: l2) = true -> b_free b = true -> carve b req = u :: rest -> freed l1 u (rest ++ l2) = l1 ++ b :: l2.
Proof.
  intros C Fb Ec. destruct (coalesced_around _ _ _ C Fb) as (_ & _ & E1 & S2).
  destruct (carve_cons b req) as (u' & rest' & Ec' & Fu & Au & Cases). rewrite Ec in Ec'. injection Ec' as <- <-.
  assert (free_right u (rest ++ l2) = (b, l2)) as Fr.
  { destruct b as [ba bs bf]. simpl in *. subst bf. unfold free_right. destruct Cases as [[-> Eu] | ->]; simpl.
    - rewrite Au, Eu. destruct l2 as [|r l2]; [done |]. simpl in S2. by apply negb_true_iff in S2 as ->.
    - do 2 f_equal; [done | lia]. }
  unfold freed. rewrite Fr. unfold free_left. destruct l1 as [|l l1 _] using rev_ind; [done |].
  unfold ends_used in E1. rewrite last_snoc in E1 |- *. apply negb_true_iff in E1 as ->. by rewrite <- !app_assoc.
Qed.

Section properties.
Context (table_ap : Z -> M pg (Z * Z)) (frame_data : Z -> mem -> mem) (head : Z) (tree_fuel : nat).

(** C3: on a heap in order with a free block that is large enough, an
    allocation without alignment returns the bytes behind the header of the
    smallest such block; the block is split when at least 28 bytes remain, the
    heap stays in order (blocks tile it, headers and footers agree, the tree
    holds exactly the free blocks, the bytes in use are counted), free blocks
    stay separated by used ones, and no byte of a block in use changes. *)
Theorem alloc_best_fit fuel h bl t size alignment :
  heap_ok h bl t -> stack_ok head h -> alignment = 0 \/ alignment = 1 -> 0 <= size -> size + 19 < 2 ^ 32 ->
  (exists c, c ∈ bl /\ b_free c = true /\ get_block_size size <= b_size c) ->
  (2 * length bl + 3 <= tree_fuel)%nat ->
  let req := get_block_size size in
  exists l1 b l2 h' t', bl = l1 ++ b :: l2 /\ b_free b = true /\ req <= b_size b /\
    (forall c, c ∈ bl -> b_free c = true -> req <= b_size c -> b_size b <= b_size c) /\
    alloc table_ap frame_data head tree_fuel (S fuel) size alignment h = Ok (b_addr b + 8, h') /\
    heap_ok h' (l1 ++ carve b req ++ l2) t' /\ (coalesced bl = true -> coalesced (l1 ++ carve b req ++ l2) = true) /\
    same_limits head h h' /\ (forall d, d ∈ bl -> b_free d = false -> keeps_block (hmem h) (hmem h') d).
Proof.
  intros Ok St Ha H0 H1 Ex Hf req.
  destruct (alloc_fit table_ap frame_data head tree_fuel h bl t fuel size alignment Ok St Ha H0 H1 Ex Hf)
    as (l1 & b & l2 & h' & t' & Eb & Fb & Fit & Best & Run & Ok' & Li & K).
  exists l1, b, l2, h', t'. split_and!; try done. intros C. rewrite Eb in C. by apply coalesced_carve.
Qed.

(** free of a used block, with a block behind it and no contraction of the
    heap, marks it free and merges it with the free blocks on both sides; the
    heap stays in order, no two free blocks follow one another afterwards, and
    no byte of the blocks that stay in use changes. *)
Theorem free_coalesces h l1 b l2 t :
  heap_ok h (l1 ++ b :: l2) t -> b_free b = false -> stack_ok head h -> no_contraction h l2 -> (l1 = [] -> left_guard head h) ->
  (2 * length (l1 ++ b :: l2) + 1 <= tree_fuel)%nat ->
  exists h' t', MemAlloc.free table_ap frame_data head tree_fuel (b_addr b + 8) h = Ok (tt, h') /\
    heap_ok h' (freed l1 b l2) t' /\ (coalesced (l1 ++ b :: l2) = true -> coalesced (freed l1 b l2) = true) /\
    same_limits head h h' /\ (forall d, d ∈ l1 ++ l2 -> b_free d = false -> keeps_block (hmem h) (hmem h') d).
Proof.
  intros Ok Fb St Nc Lg Hf. destruct (free_block_ok table_ap frame_data head tree_fuel h l1 b l2 t Ok Fb St Nc Lg Hf) as (h' & t' & Run & Ok' & Li & K).
  exists h', t'. split_and!; try done. intros C. by apply coalesced_freed.
Qed.

End properties.

(** ** A heap of two pages with three used blocks, and with the middle one freed *)

Definition fresh : heap := Heap two_pages (Allocator (RbTree 0 0 0) 0 0 0 0 0 0 0 0) small_tables.

Lemma fresh_created :
  exists h t, heap_ok h [Block 8260 8124 true] t /\ stack_ok 0x1000 h /\
    start_address (al h) = 8260 /\ end_address (al h) = 0x4000 /\ min_size (al h) = 0x1000 /\ max_size (al h) = 0x8000 /\
    m_pages (hmem h) = m_pages two_pages /\
    (forall x, 0x1010 <= x < 8260 -> byte_at (hmem h) x = byte_at two_pages x) /\ page_dir (al h) = 0x2000 /\ hpg h = small_tables.
Proof.
  assert (P : forall x, 0x1000 <= x < 0x4000 -> page_present two_pages x = true).
  { intros x Hx. unfold page_present. apply bool_decide_eq_true. unfold two_pages. cbn [mem_with_pages map_page_at m_pages].
    unfold PAGE, no_mem. cbn [m_pages]. rewrite !elem_of_union, !elem_of_singleton. clear -Hx. Z.div_mod_to_equations. lia. }
  assert (N : node_ok two_pages 0x1000) by (apply two_pages_node; (done || lia)).
  destruct (create_ok 0x1000 9 fresh 0x2000 0x4000 0x1000 0x8000 0 0 0x2000) as (h & t & _ & Ok & Es & Ee & _ & Em & Ex & Pg & By & Ed & Ep); [| lia |].
  { split; cbn [hmem fresh]; try done; [intros i Hi; apply P; lia | left; lia]. }
  exists h, t. split_and!; try done; [| intros x Hx; apply By; [left; replace (heap_start 0x2000) with 8260 by reflexivity; lia | right; lia]]. split; [by eapply node_ok_pages |]. rewrite Es, Ee. left. vm_compute. congruence.
Qed.

(** One more allocation, when only the last block is free. *)
Lemma alloc_last h t l a n size :
  heap_ok h (l ++ [Block a n true]) t -> forallb (negb ∘ b_free) l = true -> stack_ok 0x1000 h ->
  0 <= size -> size + 19 < 2 ^ 32 -> get_block_size size <= n -> (length l <= 3)%nat ->
  exists h' t', heap_ok h' (l ++ carve (Block a n true) (get_block_size size)) t' /\ stack_ok 0x1000 h' /\ same_limits 0x1000 h h'.
Proof.
  intros Ok Fl St H0 H1 Hn Hl.
  destruct (alloc_fit no_table old_data 0x1000 11 h _ t 0 size 0 Ok St ltac:(by left) H0 H1) as (l1 & b & l2 & h' & t' & Eb & Fb & _ & _ & _ & Ok' & Li & _).
  { exists (Block a n true). split_and!; [set_solver | done | done]. }
  { rewrite length_app. simpl. lia. }
  assert (l1 = l /\ b = Block a n true /\ l2 = []) as (-> & -> & ->).
  { clear -Eb Fb Fl. revert l1 Eb. induction l as [|c l IH]; intros l1 Eb.
    - destruct l1 as [|d l1]; [by injection Eb as <- <- |]. injection Eb as _ Eb. by destruct l1.
    - simpl in Fl. apply andb_true_iff in Fl as [Fc Fl]. apply negb_true_iff in Fc. destruct l1 as [|d l1]; simpl in Eb.
      + injection Eb as <- _. congruence.
      + injection Eb as <- Eb. by destruct (IH Fl l1 Eb) as (-> & ? & ?). }
  rewrite app_nil_r in Ok'. exists h', t'. split_and!; [done | by eapply stack_limits | done].
Qed.

(** Three blocks, all in use. *)
Lemma three_used :
  exists h t, heap_ok h [Block 8260 116 false; Block 8376 116 false; Block 8492 7892 false] t /\ stack_ok 0x1000 h /\
    end_address (al h) = 0x4000 /\ m_pages (hmem h) = m_pages two_pages.
Proof.
  destruct fresh_created as (h0 & t0 & Ok0 & St0 & _ & Ee & _ & _ & Pg & _).
  destruct (alloc_last h0 t0 [] 8260 8124 100 Ok0 eq_refl St0) as (h1 & t1 & Ok1 & St1 & L1); [lia | lia | vm_compute; congruence | simpl; lia |].
  destruct (alloc_last h1 t1 [Block 8260 116 false] 8376 8008 100 Ok1 eq_refl St1) as (h2 & t2 & Ok2 & St2 & L2);
    [lia | lia | vm_compute; congruence | simpl; lia |].
  destruct (alloc_last h2 t2 [Block 8260 116 false; Block 8376 116 false] 8492 7892 7876 Ok2 eq_refl St2) as (h3 & t3 & Ok3 & St3 & L3);
    [lia | lia | vm_compute; congruence | simpl; lia |].
  destruct (limits_trans _ _ _ _ (limits_trans _ _ _ _ L1 L2) L3) as (_ & _ & E3 & _ & _ & P3).
  exists h3, t3. split_and!; [done | done | congruence | congruence].
Qed.

Lemma middle_freed :
  exists h t, heap_ok h [Block 8260 116 false; Block 8376 116 true; Block 8492 7892 false] t /\ stack_ok 0x1000 h.
Proof.
  destruct three_used as (h & t & Ok & St & _).
  destruct (free_block_ok no_table old_data 0x1000 11 h [Block 8260 116 false] (Block 8376 116 false) [Block 8492 7892 false] t Ok eq_refl St)
    as (h' & t' & _ & Ok' & Li & _); [by right; right | done | simpl; lia |].
  exists h', t'. split; [done | by eapply stack_limits].
Qed.

Lemma alloc_best_fit_witness :
  let bl := [Block 8260 116 false; Block 8376 116 true; Block 8492 7892 false] in
  let req := get_block_size 50 in
  exists h t, heap_ok h bl t /\
    exists l1 b l2 h' t', bl = l1 ++ b :: l2 /\ b_free b = true /\ req <= b_size b /\
      (forall c, c ∈ bl -> b_free c = true -> req <= b_size c -> b_size b <= b_size c) /\
      alloc no_table old_data 0x1000 11 1 50 0 h = Ok (b_addr b + 8, h') /\
      heap_ok h' (l1 ++ carve b req ++ l2) t' /\ (coalesced bl = true -> coalesced (l1 ++ carve b req ++ l2) = true) /\
      same_limits 0x1000 h h' /\ (forall d, d ∈ bl -> b_free d = false -> keeps_block (hmem h) (hmem h') d).
Proof.
  intros bl req. destruct middle_freed as (h & t & Ok & St). exists h, t. split; [exact Ok |].
  apply (alloc_best_fit no_table old_data 0x1000 11 0 h bl t 50 0 Ok St); [by left | lia | lia | | simpl; lia].
  exists (Block 8376 116 true). split_and!; [right; by left | done | vm_compute; congruence].
Defined.

Lemma free_coalesces_witness :
  let b := Block 8376 116 false in
  let bl := [Block 8260 116 false; b; Block 8492 7892 false] in
  exists h t, heap_ok h bl t /\
    exists h' t', MemAlloc.free no_table old_data 0x1000 11 (8376 + 8) h = Ok (tt, h') /\
      heap_ok h' [Block 8260 116 false; Block 8376 116 true; Block 8492 7892 false] t' /\
      (coalesced bl = true -> coalesced (freed [Block 8260 116 false] b [Block 8492 7892 false]) = true) /\
      same_limits 0x1000 h h' /\ (forall d, d ∈ [Block 8260 116 false; Block 8492 7892 false] -> b_free d = false -> keeps_block (hmem h) (hmem h') d).
Proof.
  destruct three_used as (h & t & Ok & St & _). exists h, t. split; [exact Ok |].
  apply (free_coalesces no_table old_data 0x1000 11 h [Block 8260 116 false] (Block 8376 116 false) [Block 8492 7892 false] t Ok eq_refl St);
    [by right; right | done | simpl; lia].
Defined.



(** ** Aligned allocations and duplicates *)

(** Six blocks; the second one, which holds an address that is a multiple of
    64, and the fourth one, which does not, are freed: they have the same size.
    Then 20 bytes at a multiple of 64 are asked for. The result is the size
    word of the fifth block before and after. *)
Definition aligned_duplicates : M heap (Z * Z) :=
  create_mem_allocator 0x1000 20 0x2000 0x4000 0x1000 0x8000 0 0 0;;
  alloc no_table old_data 0x1000 20 2 100 0;;
  p2 ← alloc no_table old_data 0x1000 20 2 100 0;
  alloc no_table old_data 0x1000 20 2 100 0;;
  p4 ← alloc no_table old_data 0x1000 20 2 100 0;
  p5 ← alloc no_table old_data 0x1000 20 2 100 0;
  alloc no_table old_data 0x1000 20 2 7000 0;;
  MemAlloc.free no_table old_data 0x1000 20 p2;;
  MemAlloc.free no_table old_data 0x1000 20 p4;;
  s ← on_mem (get_size (user_to_block p5));
  alloc no_table old_data 0x1000 20 2 20 64;;
  s' ← on_mem (get_size (user_to_block p5));
  mret (s, s').

(** an aligned allocation can corrupt a block in use: compare checks that
    the first block of a size fits with its alignment, but remove_rbnode hands
    out one of its duplicates, for which that was not checked; the block that
    alloc cuts from it runs into the header of the next one. *)
Theorem aligned_alloc_overruns :
  exists h', aligned_duplicates fresh = Ok ((116, 8696), h').
Proof.
  assert (E : match aligned_duplicates fresh with Ok (r, _) => Some r | Err _ => None end = Some (116, 8696)) by (vm_compute; reflexivity).
  destruct (aligned_duplicates fresh) as [[r h']|]; [| done]. exists h'. by injection E as ->.
Qed.
