(* ===== verification/AllocLife.v ===== *)
(** The heap over its life: the allocator as an abstract machine on lists of
    blocks, and that alloc and free implement it, growth and contraction of the
    heap included; allocation with an alignment; the calls that go wrong. *)

From S2P Require Import Prelude Memory Frames Paging RbTree RbHeap RbModel RbSpec MemAlloc AllocBase AllocTree AllocSpec AllocOps HeapTables HeapPages AllocGrow AllocShrink AllocAlign AllocProps.

(** ** The abstract allocator *)

(** Its state: the blocks, the limits of the heap, and a number of frames that
    are free to let it grow. *)
Record arena : Type := Arena { blocks : list block; a_start : Z; a_end : Z; a_min : Z; a_max : Z; a_frames : Z }.

Inductive request : Type := Take (size : Z) | Give (p : Z).

(** The end after growth for [req] bytes, and after the block at [c] is released. *)
Definition grow_to (a_ : arena) (req : Z) : Z := round_to_frame (a_end a_ + req).
Definition shrink_to (a_ : arena) (c : Z) : Z :=
  let e1 := round_to_frame c in
  let e2 := if u32 (e1 - a_start a_) <? a_min a_ then u32 (a_start a_ + a_min a_) else e1 in
  a_end a_ - PAGE * ((a_end a_ - e2 + PAGE - 1) / PAGE).

(** The best fit for [req] bytes is [b]. *)
Definition best_fit (bl : list block) (req : Z) (b : block) : Prop :=
  b_free b = true /\ req <= b_size b /\ forall c, c ∈ bl -> b_free c = true -> req <= b_size c -> b_size b <= b_size c.

Definition no_fit (bl : list block) (req : Z) : Prop := forall c, c ∈ bl -> b_free c = true -> b_size c < req.

(** One call: the request, its result, and the arena afterwards. *)
Inductive serves : arena -> request -> Z -> arena -> Prop :=
  | serve_fit size l1 b l2 s e mn mx fr :
      let req := get_block_size size in
      best_fit (l1 ++ b :: l2) req b ->
      serves (Arena (l1 ++ b :: l2) s e mn mx fr) (Take size) (b_addr b + 8) (Arena (l1 ++ carve b req ++ l2) s e mn mx fr)
  | serve_grown size bl l b s e mn mx fr :
      let req := get_block_size size in let e' := grow_to (Arena bl s e mn mx fr) req in
      no_fit bl req -> free_left bl (Block e (e' - e) true) = l ++ [b] ->
      serves (Arena bl s e mn mx fr) (Take size) (b_addr b + 8) (Arena (l ++ carve b req) s e' mn mx (fr - (e' - e) / PAGE))
  | serve_merged l1 b l2 s e mn mx fr :
      b_free b = false ->
      serves (Arena (l1 ++ b :: l2) s e mn mx fr) (Give (b_addr b + 8)) 0 (Arena (freed l1 b l2) s e mn mx fr)
  | serve_shrunk l1 b r l c s e mn mx fr :
      let e' := shrink_to (Arena (l1 ++ [b; r]) s e mn mx fr) (b_addr c) in
      b_free b = false -> b_free r = true -> mn < e - s -> freed l1 b [r] = l ++ [c] ->
      serves (Arena (l1 ++ [b; r]) s e mn mx fr) (Give (b_addr b + 8)) 0 (Arena (l ++ cut_last c e') s e' mn mx fr).

(** ** The implementation *)

Section life.
Context (table_ap : Z -> M pg (Z * Z)) (frame_data : Z -> mem -> mem) `{!FrameData frame_data} (head : Z) (tree_fuel fuel : nat).

Definition call (q : request) : M heap Z :=
  match q with
  | Take size => alloc table_ap frame_data head tree_fuel (S (S fuel)) size 0
  | Give p => MemAlloc.free table_ap frame_data head tree_fuel p;; mret 0
  end.

(** A heap in order that holds the arena. *)
Record implements (h : heap) (r : arena) : Prop := {
  im_heap : exists t, heap_ok h (blocks r) t;
  im_merged : coalesced (blocks r) = true;
  im_limits : start_address (al h) = a_start r /\ end_address (al h) = a_end r /\ min_size (al h) = a_min r /\ max_size (al h) = a_max r;
  im_stack : stack_ok head h;
  im_guard : left_guard head h;
  im_pages : paged h (a_frames r)
}.

(** What a caller must respect. The last conditions are those under which the end
    of the heap can be moved: room up to the largest size, a frame for every new
    page, no page of the stack in the way, and a remainder of the last block that
    is itself a block. *)
Definition allowed (r : arena) (q : request) : Prop :=
  (2 * length (blocks r) + 7 <= tree_fuel)%nat /\ 0 <= a_min r /\ a_end r mod PAGE = 0 /\
  match q with
  | Take size =>
      let req := get_block_size size in
      0 <= size /\ size + 19 < 2 ^ 32 /\ blocks r <> [] /\
      (no_fit (blocks r) req -> a_end r + req + PAGE < 2 ^ 32 /\ grow_to r req <= a_start r + a_max r < 2 ^ 32 /\
         (grow_to r req - a_end r) / PAGE <= a_frames r /\
         (head + 16 <= a_start r \/ Z.max (a_end r) (grow_to r req) <= head))
  | Give p =>
      exists l1 b r0 l2, blocks r = l1 ++ b :: r0 :: l2 /\ b_free b = false /\ p = b_addr b + 8 /\
        (l2 = [] -> b_free r0 = true -> a_min r < a_end r - a_start r ->
         forall l c, freed l1 b [r0] = l ++ [c] -> shrink_to r (b_addr c) = b_addr c \/ b_addr c + 28 <= shrink_to r (b_addr c))
  end.

Lemma coalesced_free_left bl e n : coalesced bl = true -> coalesced (free_left bl (Block e n true)) = true.
Proof.
  intros C. rewrite <- (app_nil_r (free_left _ _)). apply (coalesced_freed bl (Block e n false) []); [| done]. rewrite coalesced_app, C. simpl. by rewrite orb_true_r.
Qed.

Lemma coalesced_cut l c e : coalesced (l ++ [c]) = true -> b_free c = true -> coalesced (l ++ cut_last c e) = true.
Proof.
  rewrite coalesced_app. intros C Fc. apply andb_true_iff in C as [C1 C2]. apply andb_true_iff in C1 as [C1 _].
  unfold cut_last. case_match; [by rewrite app_nil_r |]. rewrite coalesced_app, C1. simpl in *. by rewrite Fc in C2.
Qed.

(** The block that is made of the new space and of a free block before it. *)
Lemma free_left_last bl c :
  sized bl -> b_free c = true -> exists l b, free_left bl c = l ++ [b] /\ b_free b = true /\ b_size c <= b_size b /\ forall d, d ∈ l -> d ∈ bl.
Proof.
  intros Sz Fc. unfold free_left. destruct bl as [|l0 bl _] using rev_ind.
  - exists [], c. split_and!; try done; lia.
  - rewrite last_snoc, removelast_last. apply Forall_app in Sz as [_ Sz]. rewrite Forall_singleton in Sz. destruct (b_free l0) eqn:F.
    + exists bl, (Block (b_addr l0) (b_size l0 + b_size c) true). split_and!; [done | done | cbn [b_size]; lia | set_solver].
    + exists (bl ++ [l0]), c. split_and!; try done; lia.
Qed.

Lemma last_fit l b l1 b' l2 (P : block -> Prop) :
  l ++ [b] = l1 ++ b' :: l2 -> P b' -> (forall d, d ∈ l -> ~ P d) -> l1 = l /\ b' = b /\ l2 = [].
Proof.
  intros E Hb Hl. destruct l2 as [|x l2 _] using rev_ind.
  - by apply app_inj_tail in E as [-> ->].
  - rewrite app_comm_cons, app_assoc in E. apply app_inj_tail in E as [-> _]. destruct (Hl b'); [set_solver | done].
Qed.

Lemma implements_used h r h' bl' e' t' n :
  implements h r -> paged h' n -> heap_ok h' bl' t' -> coalesced bl' = true -> resized head h h' -> end_address (al h') = e' -> stack_ok head h' ->
  implements h' (Arena bl' (a_start r) e' (a_min r) (a_max r) n).
Proof.
  intros [_ _ (E1 & _ & E3 & E4) _ G _] Pg Hk C Rz Ee St. split; cbn [blocks a_start a_end a_min a_max a_frames]; try done.
  - eauto.
  - destruct Rz as (R1 & R3 & [R4 _] & _). split_and!; congruence.
  - by eapply resized_guard.
Qed.

Lemma limits_are_resized h h' : same_limits head h h' -> start_address (al h) <= end_address (al h) -> resized head h h'.
Proof.
  intros (O & E1 & E2 & E3 & (E4 & E5 & _) & P) Le. unfold resized. rewrite E2, Z.max_id. split_and!; try done.
  intros x _. unfold page_present. by rewrite P.
Qed.

(** ** Each request *)

Lemma take_fit h bl s e mn mx fr size c :
  let r := Arena bl s e mn mx fr in let req := get_block_size size in
  implements h r -> allowed r (Take size) -> c ∈ bl -> b_free c = true -> req <= b_size c ->
  exists l1 b l2 h', bl = l1 ++ b :: l2 /\ best_fit bl req b /\ call (Take size) h = Ok (b_addr b + 8, h') /\
    implements h' (Arena (l1 ++ carve b req ++ l2) s e mn mx fr).
Proof.
  intros r req Im (Hf & _ & _ & H0 & H1 & _) Hc Fc Fit. assert (Im' := Im). destruct Im' as [[t Hk] Co Li St _ Pgd].
  cbn [r blocks a_start a_end a_min a_max a_frames] in *.
  destruct (alloc_fit table_ap frame_data head tree_fuel h bl t (S fuel) size 0 Hk St ltac:(by left) H0 H1) as (l1 & b & l2 & h' & t' & Eb & Fb & Fit' & Best & Run & Hk' & Sl & _);
    [eauto | lia |].
  assert (Le := end_after_start h _ t [] (ho_inv _ _ _ Hk)).
  exists l1, b, l2, h'. split_and!; [done | done | exact Run |].
  eapply (implements_used h r); [exact Im | by eapply paged_limits | exact Hk' | subst bl; by apply coalesced_carve | by apply limits_are_resized | | by eapply stack_limits].
  destruct Sl as (_ & _ & -> & _). apply Li.
Qed.

(** With one best fit the outcome is determined. *)
Lemma split_unique (l1 l2 k1 k2 : list block) b : NoDup (l1 ++ b :: l2) -> l1 ++ b :: l2 = k1 ++ b :: k2 -> l1 = k1 /\ l2 = k2.
Proof.
  revert k1. induction l1 as [|x l1 IH]; intros [|y k1] ND E; simpl in *; simplify_eq; try done.
  - apply NoDup_cons in ND as [N _]. destruct N. set_solver.
  - apply NoDup_cons in ND as [N _]. destruct N. set_solver.
  - apply NoDup_cons in ND as [_ ND]. by destruct (IH k1 ND ltac:(done)) as [-> ->].
Qed.

Lemma tiled_NoDup a e bl : tiled a e bl -> sized bl -> NoDup bl.
Proof.
  revert a. induction bl as [|b bl IH]; intros a Ti Sz; [constructor |]. destruct Ti as [Ea Ti]. apply Forall_cons in Sz as [Zb Sz].
  apply NoDup_cons. split; [| by eapply IH]. intros Hb. destruct (tiled_in _ _ _ _ Ti Sz Hb). lia.
Qed.

Lemma take_best h l1 b l2 s e mn mx fr size :
  let r := Arena (l1 ++ b :: l2) s e mn mx fr in let req := get_block_size size in
  implements h r -> allowed r (Take size) -> b_free b = true -> req <= b_size b ->
  (forall c, c ∈ l1 ++ l2 -> b_free c = true -> req <= b_size c -> b_size b < b_size c) ->
  exists h', call (Take size) h = Ok (b_addr b + 8, h') /\ implements h' (Arena (l1 ++ carve b req ++ l2) s e mn mx fr).
Proof.
  intros r req Im Al Fb Fit Best. destruct (take_fit h _ s e mn mx fr size b Im Al ltac:(set_solver) Fb Fit) as (k1 & b' & k2 & h' & E & (Fb' & Fit' & Min) & Run & Im').
  assert (b' = b) as ->.
  { assert (Hb' : b' ∈ l1 ++ b :: l2) by (rewrite E; set_solver). rewrite elem_of_app, elem_of_cons in Hb'.
    destruct Hb' as [H | [H | H]]; [| done |]; specialize (Best b' ltac:(set_solver) Fb' Fit'); specialize (Min b ltac:(set_solver) Fb Fit); lia. }
  destruct Im as [[t [I _]] _ _ _ _ _]. destruct (split_unique l1 l2 k1 k2 b) as [<- <-]; [| done | eauto].
  eapply tiled_NoDup; [apply I | by eapply inv_sized].
Qed.

(** The owner of a block writes to it. *)
Lemma write_block h r b m' :
  implements h r -> b ∈ blocks r -> b_free b = false -> same_but (hmem h) m' (b_addr b + 8) (b_addr b + b_size b - 8) ->
  implements (Heap m' (al h) (hpg h)) r.
Proof.
  intros [[t [I Us]] Co Li St Gu Pgd] Hb Fb S. destruct (inv_in _ _ _ _ I b Hb) as (L1 & L2 & Zb).
  assert (S' := same_but_mono _ _ _ _ (b_addr b) (b_addr b + b_size b) S ltac:(lia) ltac:(lia)).
  apply list_elem_of_split in Hb as (l1 & l2 & Eb). rewrite Eb in I. change (l1 ++ b :: l2) with (l1 ++ [b] ++ l2) in I. split; try done.
  - exists t. split; [| done]. rewrite Eb.
    apply (inv_rewrite h l1 [b] l2 t [] _ _ m' I ltac:(done) ltac:(by simpl) S' [b]).
    + by simpl.
    + apply Forall_singleton. apply (block_ok_words (hmem h)); try (apply (same_but_word _ _ _ _ _ S); lia).
      apply (inv_block _ _ _ _ I). set_solver.
    + intros d ->%list_elem_of_singleton. congruence.
    + intros d ->%list_elem_of_singleton. congruence.
    + done.
  - destruct St as [N A]. split; [| done]. eapply node_ok_pages; [apply S' | done].
  - eapply guard_kept; [exact Gu | done | apply S' |]. intros i Hi. apply S'. lia.
Qed.

Lemma take_grown h r size :
  implements h r -> allowed r (Take size) -> no_fit (blocks r) (get_block_size size) ->
  exists p h' r', call (Take size) h = Ok (p, h') /\ serves r (Take size) p r' /\ implements h' r'.
Proof.
  intros Im (Hf & _ & Pg & H0 & H1 & Ne & Gr) No. destruct (Gr No) as (G1 & G2 & G4 & G3). clear Gr.
  assert (Im' := Im). destruct Im' as [[t Hk] Co (Ls & Le & _ & Lx) St _ Pgd]. set (req := get_block_size size) in *.
  destruct (get_block_size_ok size H0 H1) as (R1 & R2 & _). fold req in R1, R2. assert (Hk' := Hk). destruct Hk' as [I _].
  destruct (tree_remove_fit head tree_fuel h (blocks r) t [] I St ltac:(lia) req) as (n & h0 & t0 & Run & Fr & Cases).
  destruct Cases as [(-> & I0 & _)|(b & Hb & Fb & _ & _ & Fit & _)]; [| specialize (No b Hb Fb); lia].
  assert (Ege : grown_end h req = grow_to r req) by (unfold grown_end, grow_to; by rewrite Le).
  destruct (alloc_expands table_ap frame_data head tree_fuel (S fuel) size 0 h (blocks r) t h0 t0 Hk Ne St) as (h1 & t1 & Eq & Hk1 & Ee1 & Ge & Rz & Pg1 & _); try done; [| lia |].
  { fold req. split; [by rewrite Le | by rewrite Le | by rewrite Ege, Ls, Lx | rewrite Ege, Le; by eapply paged_mono | unfold stack_clear; by rewrite Ege, Ls, Le]. }
  fold req in Hk1, Ee1, Ge, Pg1. rewrite Ege, Le in *. set (hole := Block (a_end r) (grow_to r req - a_end r) true) in *.
  destruct (free_left_last (blocks r) hole (inv_sized _ _ _ _ I) eq_refl) as (l & b & El & Fb & Zb & Sub). rewrite El in Hk1.
  assert (Fit : req <= b_size b) by (cbn [hole b_size] in Zb; lia).
  assert (St1 : stack_ok head h1).
  { eapply resized_stack; [exact (end_after_start _ _ _ _ (ho_inv _ _ _ Hk1)) | exact St | exact Rz |]. unfold stack_clear. by rewrite Ls, Le, Ee1. }
  assert (Len : (length (l ++ [b]) <= length (blocks r) + 1)%nat).
  { rewrite <- El. unfold free_left. destruct (blocks r) as [|x bl _] using rev_ind; [simpl; lia |].
    rewrite last_snoc, removelast_last. destruct (b_free x); rewrite !length_app; simpl; lia. }
  destruct (alloc_fit table_ap frame_data head tree_fuel h1 _ t1 fuel size 1 Hk1 St1 ltac:(by right) H0 H1) as (l1 & b' & l2 & h' & t' & Eb & Fb' & Fit' & _ & Run' & Hk' & Sl & _).
  { exists b. split_and!; [set_solver | done | done]. }
  { lia. }
  destruct (last_fit l b l1 b' l2 (fun d => b_free d = true /\ req <= b_size d) Eb) as (-> & -> & ->).
  { done. }
  { intros d Hd [Fd ?]. specialize (No d (Sub d Hd) Fd). lia. }
  rewrite app_nil_r in Hk'. assert (Pg2 : paged h' (a_frames r - (grow_to r req - a_end r) / PAGE)).
  { eapply paged_limits; [| exact Sl]. eapply paged_mono; [exact Pg1 |]. destruct Pgd as (_ & _ & ?). lia. }
  destruct r as [bl s e mn mx fr]. cbn [blocks a_start a_end a_min a_max a_frames] in *.
  eexists _, h', _. split; [cbn [call]; rewrite Eq; exact Run' |]. split; [by apply serve_grown |].
  eapply (implements_used h (Arena bl s e mn mx fr)); [exact Im | exact Pg2 | exact Hk' | | by eapply resized_limits | | by eapply stack_limits].
  - apply (coalesced_free_left bl e (grow_to (Arena bl s e mn mx fr) req - e)) in Co. fold hole in Co. rewrite El in Co.
    pose proof (coalesced_carve l b [] req) as Cc. rewrite app_nil_r in Cc. by apply Cc.
  - destruct Sl as (_ & _ & -> & _). exact Ee1.
Qed.

(** An aligned request for which the heap has to grow. *)
Lemma take_aligned_grown h bl s e mn mx fr size a l b :
  let r := Arena bl s e mn mx fr in let req := get_block_size size in let e' := grow_to r req in
  implements h r -> allowed r (Take size) -> no_fit bl req -> unique_sizes bl -> 1 < a -> a mod 4 = 0 -> a + 28 <= 2 ^ 32 ->
  free_left bl (Block e (e' - e) true) = l ++ [b] -> can_align (l ++ [b]) a req -> fits a req b ->
  (forall d, d ∈ l ++ [b] -> b_free d = true -> b_size d <= b_size b) -> coalesced (l ++ aligned_carve a b req) = true ->
  exists h', alloc table_ap frame_data head tree_fuel (S (S fuel)) size a h = Ok (b_addr b + aligned_offset a b + 8, h') /\
    implements h' (Arena (l ++ aligned_carve a b req) s e' mn mx (fr - (e' - e) / PAGE)).
Proof.
  intros r req e' Im (Hf & _ & Pg & H0 & H1 & Ne & Gr) No Un Ha A4 Am El Ca Fit Max Co'. destruct (Gr No) as (G1 & G2 & G4 & G3). clear Gr.
  assert (Im' := Im). destruct Im' as [[t Hk] Co (Ls & Le & _ & Lx) St _ Pgd]. cbn [r blocks a_start a_end a_min a_max a_frames] in *.
  destruct (get_block_size_ok size H0 H1) as (R1 & R2 & _). fold req in R1, R2. assert (Hk' := Hk). destruct Hk' as [I _].
  destruct (tree_remove_aligned head tree_fuel h bl t I St ltac:(lia) Un a req ltac:(lia)) as (n & h0 & t0 & Run & Fr & Cases).
  destruct Cases as [(-> & I0 & _)|(c & Hc & Fc & _ & [Fitc _] & _)]; [| specialize (No c Hc Fc); lia].
  assert (Ege : grown_end h req = e') by (unfold grown_end, e', grow_to; cbn [r a_end]; by rewrite Le).
  assert (Ea : (if a =? 0 then 1 else a) = a) by (by rewrite (proj2 (Z.eqb_neq a 0)) by lia).
  destruct (alloc_expands table_ap frame_data head tree_fuel (S fuel) size a h bl t h0 t0 Hk Ne St) as (h1 & t1 & Eq & Hk1 & Ee1 & Ge & Rz & Pg1 & _); rewrite ?Ea; try done; [| lia |].
  { fold req. split; [by rewrite Le | by rewrite Le | by rewrite Ege, Ls, Lx | rewrite Ege, Le; by eapply paged_mono | unfold stack_clear; by rewrite Ege, Ls, Le]. }
  rewrite Ea in Eq. fold req in Hk1, Ee1. fold req in Pg1. rewrite Ege, Le in Hk1, Pg1. rewrite Ege in Ee1. rewrite El in Hk1.
  assert (St1 : stack_ok head h1).
  { eapply resized_stack; [exact (end_after_start _ _ _ _ (ho_inv _ _ _ Hk1)) | exact St | exact Rz |]. unfold stack_clear. by rewrite Ls, Le, Ee1. }
  destruct (free_left_last bl (Block e (e' - e) true) (inv_sized _ _ _ _ I) eq_refl) as (l' & b0 & El' & Fb & _ & Sub).
  rewrite El in El'. apply app_inj_tail in El' as [<- <-].
  assert (Len : (length (l ++ [b]) <= length bl + 1)%nat).
  { rewrite <- El. unfold free_left. destruct bl as [|x bl _] using rev_ind; [simpl; lia |].
    rewrite last_snoc, removelast_last. destruct (b_free x); rewrite !length_app; simpl; lia. }
  destruct (alloc_aligned_fit table_ap frame_data head tree_fuel fuel h1 _ t1 size a Hk1 St1 ltac:(lia) A4 Am H0 H1 Ca) as (l1 & b' & l2 & h' & t' & Eb & Fb' & Fit' & _ & Run' & Hk' & Sl & _).
  { exists b. split_and!; [set_solver | done | done | done]. }
  { lia. }
  destruct (last_fit l b l1 b' l2 (fun d => b_free d = true /\ req <= b_size d) Eb) as (-> & -> & ->).
  { split; [done |]. assert (Bo : aligned_offset a b' = 0 \/ 28 <= aligned_offset a b' < a + 28) by (apply best_offset_ok; lia). fold req in Fit'. lia. }
  { intros d Hd [Fd ?]. specialize (No d (Sub d Hd) Fd). lia. }
  rewrite app_nil_r in Hk'. exists h'. split; [by rewrite Eq |].
  eapply (implements_used h r); [exact Im | | exact Hk' | exact Co' | by eapply resized_limits | | by eapply stack_limits].
  - eapply paged_limits; [| exact Sl]. eapply paged_mono; [exact Pg1 |]. destruct Pgd as (_ & _ & ?). lia.
  - destruct Sl as (_ & _ & -> & _). exact Ee1.
Qed.

Lemma give_merged h r l1 b r0 l2 :
  implements h r -> (2 * length (blocks r) + 7 <= tree_fuel)%nat -> blocks r = l1 ++ b :: r0 :: l2 -> b_free b = false ->
  no_contraction h (r0 :: l2) ->
  exists h', call (Give (b_addr b + 8)) h = Ok (0, h') /\ implements h' (Arena (freed l1 b (r0 :: l2)) (a_start r) (a_end r) (a_min r) (a_max r) (a_frames r)).
Proof.
  intros Im Hf Eb Fb Nc. assert (Im' := Im). destruct Im' as [[t Hk] Co Li St Gu Pgd].
  destruct r as [bl s e mn mx fr]. cbn [blocks a_start a_end a_min a_max a_frames] in *. subst bl.
  destruct (free_block_ok table_ap frame_data head tree_fuel h l1 b (r0 :: l2) t Hk Fb St Nc ltac:(done) ltac:(lia)) as (h' & t' & Run & Hk' & Sl & _).
  exists h'. split; [cbn [call]; by rewrite (bind_ok _ _ _ _ _ Run) |].
  assert (Le := end_after_start h _ t [] (ho_inv _ _ _ Hk)).
  eapply (implements_used h (Arena _ s e mn mx fr)); [exact Im | by eapply paged_limits | exact Hk' | by apply coalesced_freed | by apply limits_are_resized | | by eapply stack_limits].
  destruct Sl as (_ & _ & -> & _). apply Li.
Qed.

Lemma freed_last l1 b r0 : b_free r0 = true -> exists l c, freed l1 b [r0] = l ++ [c] /\ b_free c = true.
Proof.
  intros Fr. unfold freed, free_right. rewrite Fr. unfold free_left. destruct l1 as [|x l1 _] using rev_ind; [by eexists [], _ |].
  rewrite last_snoc, removelast_last. destruct (b_free x); rewrite app_nil_r; by eexists _, _.
Qed.

Lemma give_shrunk h r l1 b r0 l c :
  implements h r -> (2 * length (blocks r) + 7 <= tree_fuel)%nat -> blocks r = l1 ++ [b; r0] -> b_free b = false -> b_free r0 = true ->
  a_end r mod PAGE = 0 -> 0 <= a_min r < a_end r - a_start r -> freed l1 b [r0] = l ++ [c] ->
  shrink_to r (b_addr c) = b_addr c \/ b_addr c + 28 <= shrink_to r (b_addr c) ->
  exists h', call (Give (b_addr b + 8)) h = Ok (0, h') /\
    implements h' (Arena (l ++ cut_last c (shrink_to r (b_addr c))) (a_start r) (shrink_to r (b_addr c)) (a_min r) (a_max r) (a_frames r)).
Proof.
  intros Im Hf Eb Fb Fr Pg Mn Efr Rest. assert (Im' := Im). destruct Im' as [[t Hk] Co (Ls & Le & Lm & Lx) St Gu Pgd].
  destruct r as [bl s e mn mx fr]. cbn [blocks a_start a_end a_min a_max a_frames] in *. subst bl.
  assert (Ece : contracted_end h (b_addr c) = shrink_to (Arena (l1 ++ [b; r0]) s e mn mx fr) (b_addr c)).
  { unfold contracted_end, shrink_to. cbn [a_start a_end a_min]. by rewrite Ls, Le, Lm. }
  destruct (free_shrinks table_ap frame_data head tree_fuel h l1 b r0 t l c Hk Fb Fr St ltac:(done) ltac:(lia) Efr) as (h' & t' & Run & Hk' & Ee & Rz & St' & Pg' & _).
  { split; [by rewrite Le | by rewrite Ls, Le, Lm | by eapply paged_left | by rewrite Ece]. }
  rewrite Ece in Hk', Ee. exists h'. split; [cbn [call]; by rewrite (bind_ok _ _ _ _ _ Run) |].
  eapply (implements_used h (Arena _ s e mn mx fr)); [exact Im | eapply paged_mono; [exact Pg' | apply Pgd] | exact Hk' | | done | done | done].
  apply coalesced_cut; [rewrite <- Efr; by apply coalesced_freed |].
  destruct (freed_last l1 b r0 Fr) as (l' & c' & E' & Fc). rewrite E' in Efr. by apply app_inj_tail in Efr as [_ <-].
Qed.

Lemma request_served h r q :
  implements h r -> allowed r q -> exists v h' r', call q h = Ok (v, h') /\ serves r q v r' /\ implements h' r'.
Proof.
  intros Im Al. destruct r as [bl s e mn mx fr] eqn:Er. destruct q as [size|p].
  - destruct (decide (Exists (fun c => b_free c = true /\ get_block_size size <= b_size c) bl)) as [Ex|No].
    + apply Exists_exists in Ex as (c & Hc & Fc & Fit).
      destruct (take_fit h bl s e mn mx fr size c Im Al Hc Fc Fit) as (l1 & b & l2 & h' & -> & Best & Run & Im').
      eexists _, h', _. split_and!; [exact Run | by constructor | exact Im'].
    + apply take_grown; [done | done |]. intros c Hc Fc. apply Z.nle_gt. intros Fit. apply No, Exists_exists. eauto.
  - destruct Al as (Hf & Mn & Pg & l1 & b & r0 & l2 & Eb & Fb & -> & Rest).
    assert (Im' := Im). destruct Im' as [_ _ (Ls & Le & Lm & _) _ _ _]. cbn [blocks a_start a_end a_min a_max a_frames] in *. subst bl.
    destruct (decide (l2 = [] /\ b_free r0 = true /\ mn < e - s)) as [(-> & Fr & Sm)|Nc].
    + destruct (freed_last l1 b r0 Fr) as (l & c & Efr & _).
      destruct (give_shrunk h _ l1 b r0 l c Im Hf eq_refl Fb Fr Pg ltac:(cbn; lia) Efr (Rest eq_refl Fr Sm l c Efr)) as (h' & Run & Im').
      eexists 0, h', _. split_and!; [exact Run | by eapply serve_shrunk | exact Im'].
    + destruct (give_merged h _ l1 b r0 l2 Im Hf eq_refl Fb) as (h' & Run & Im').
      { unfold no_contraction. rewrite Ls, Le, Lm. destruct l2; [| by right; left]. destruct (b_free r0); [| by right; right].
        left. apply Z.nlt_ge. intros ?. apply Nc. done. }
      eexists 0, h', _. split_and!; [exact Run | by constructor | exact Im'].
Qed.

(** Sequences of calls. *)
Fixpoint calls (qs : list request) : M heap (list Z) :=
  match qs with
  | [] => mret []
  | q :: qs => v ← call q; vs ← calls qs; mret (v :: vs)
  end.

Fixpoint serves_all (r : arena) (qs : list request) (vs : list Z) (r' : arena) : Prop :=
  match qs, vs with
  | [], [] => r' = r
  | q :: qs, v :: vs => exists r1, serves r q v r1 /\ serves_all r1 qs vs r'
  | _, _ => False
  end.

Fixpoint permitted (r : arena) (qs : list request) : Prop :=
  match qs with
  | [] => True
  | q :: qs => allowed r q /\ forall v r', serves r q v r' -> permitted r' qs
  end.

(** ** Properties *)


(** C2: the heap stays well formed for ever. Every sequence of permitted calls
    runs to its end, returns what the abstract machine returns, and leaves a heap
    in order: blocks that tile the space between its limits, agreeing headers and
    footers, a red-black tree of exactly the free blocks, no two of them adjacent,
    the bytes in use counted, and the guard word before the first block intact. *)
Theorem heap_stays_ok qs h r :
  implements h r -> permitted r qs -> exists vs h' r', calls qs h = Ok (vs, h') /\ serves_all r qs vs r' /\ implements h' r'.
Proof.
  revert h r. induction qs as [|q qs IH]; intros h r Im Pm; cbn [calls].
  - by exists [], h, r.
  - destruct Pm as [Al Pm]. destruct (request_served h r q Im Al) as (v & h1 & r1 & Run & Sv & Im1).
    destruct (IH h1 r1 Im1 (Pm v r1 Sv)) as (vs & h2 & r2 & Run2 & Sv2 & Im2).
    exists (v :: vs), h2, r2. rewrite (bind_ok _ _ _ _ _ Run), (bind_ok _ _ _ _ _ Run2). split_and!; [done | by exists r1 | done].
Qed.

(** C4: an allocation with an alignment. When the free blocks have different
    sizes, none of those that are large enough is smaller than the bytes before
    its first aligned place, the block can be split at its end, and the largest
    one fits, alloc returns an aligned address; the bytes before it are a free
    block, the heap stays in order, and no block in use changes. *)
Theorem alloc_aligned_ok h bl t size a :
  let req := get_block_size size in
  heap_ok h bl t -> stack_ok head h -> 0 < a -> a mod 4 = 0 -> a + 28 <= 2 ^ 32 -> 0 <= size -> size + 19 < 2 ^ 32 -> can_align bl a req ->
  (exists c, c ∈ bl /\ b_free c = true /\ fits a req c /\ forall d, d ∈ bl -> b_free d = true -> b_size d <= b_size c) ->
  (2 * length bl + 5 <= tree_fuel)%nat ->
  exists l1 b l2 h' t', bl = l1 ++ b :: l2 /\ b_free b = true /\ req <= b_size b - aligned_offset a b /\
    let p := b_addr b + aligned_offset a b + 8 in
    p mod a = 0 /\ alloc table_ap frame_data head tree_fuel (S fuel) size a h = Ok (p, h') /\
    heap_ok h' (l1 ++ aligned_carve a b req ++ l2) t' /\ same_limits head h h' /\
    (forall d, d ∈ bl -> b_free d = false -> keeps_block (hmem h) (hmem h') d).
Proof. apply alloc_aligned_fit. Qed.
End life.

(** ** A heap of two pages that may grow and shrink *)

#[export] Instance old_data_ok : FrameData old_data.
Proof. done. Qed.

Definition small_arena (bl : list block) : arena := Arena bl 8260 0x4000 0x1000 0x8000 31.
Definition whole : list block := [Block 8260 8124 true].

Lemma small_heap : exists h, implements 0x1000 h (small_arena whole).
Proof.
  destruct fresh_created as (h & t & Hk & St & Es & Ee & Em & Ex & Pg & By & Ed & Ep). exists h. split; try done.
  - eauto.
  - unfold left_guard. rewrite Es. split_and!; [lia | left; lia | |].
    + unfold word_present, page_present. rewrite Pg. vm_compute. reflexivity.
    + unfold word_at. rewrite !By by lia. vm_compute. reflexivity.
  - unfold paged. rewrite Ep, Ed, Es, Ex, Ee. split_and!; [apply small_heap_pages; lia | lia | vm_compute; congruence].
Qed.

(** A request that the two pages can serve, or the pages up to the largest size. *)
Lemma small_request size : 0 <= size <= 20000 -> allowed 0x1000 20 (small_arena whole) (Take size).
Proof.
  intros Hs. destruct (get_block_size_ok size) as (R0 & _ & _ & R); [lia | lia |].
  unfold allowed. cbv zeta. split_and!; [simpl; lia | done | done | lia | lia | done |]. intros _.
  unfold grow_to, small_arena. cbn [a_start a_end a_max a_frames].
  destruct (round_to_frame_ok (0x4000 + get_block_size size)) as [G _]; [lia | unfold PAGE; lia |]. unfold PAGE in *.
  split_and!; [lia | lia | lia | Z.div_mod_to_equations; lia | left; lia].
Qed.


Lemma heap_stays_ok_witness :
  exists h, implements 0x1000 h (small_arena whole) /\
    exists vs h' r', calls no_table old_data 0x1000 20 0 [Take 100] h = Ok (vs, h') /\
      serves_all (small_arena whole) [Take 100] vs r' /\ implements 0x1000 h' r'.
Proof.
  destruct small_heap as [h Im]. exists h. split; [exact Im |].
  apply (heap_stays_ok no_table old_data 0x1000 20 0 [Take 100] h (small_arena whole) Im). split; [by apply small_request | done].
Defined.

Lemma alloc_aligned_ok_witness :
  let req := get_block_size 20 in
  exists h t, heap_ok h whole t /\
    exists l1 b l2 h' t', whole = l1 ++ b :: l2 /\ b_free b = true /\ req <= b_size b - aligned_offset 64 b /\
      let p := b_addr b + aligned_offset 64 b + 8 in
      p mod 64 = 0 /\ alloc no_table old_data 0x1000 11 1 20 64 h = Ok (p, h') /\
      heap_ok h' (l1 ++ aligned_carve 64 b req ++ l2) t' /\ same_limits 0x1000 h h' /\
      (forall d, d ∈ whole -> b_free d = false -> keeps_block (hmem h) (hmem h') d).
Proof.
  intros req. destruct fresh_created as (h & t & Hk & St & _). exists h, t. split; [exact Hk |].
  assert (One : forall P : block -> Prop, P (Block 8260 8124 true) -> forall c, c ∈ whole -> P c) by (by intros P HP c ->%list_elem_of_singleton).
  apply (alloc_aligned_ok no_table old_data 0x1000 11 0 h whole t 20 64 Hk St); [lia | done | lia | lia | lia | | | simpl; lia].
  - split.
    + intros b c ->%list_elem_of_singleton ->%list_elem_of_singleton. done.
    + apply (One (fun c => _ -> _ -> aligned_offset 64 c <= b_size c)). intros _ _. vm_compute. congruence.
    + apply (One (fun c => _ -> _ -> aligned_offset 64 c = 0 \/ get_block_size 20 + 28 <= b_size c - aligned_offset 64 c)).
      intros _ _. right. vm_compute. congruence.
  - exists (Block 8260 8124 true). split_and!; [by left | done | split; vm_compute; congruence |].
    apply (One (fun d => _ -> b_size d <= 8124)). done.
Defined.

(** ** Calls that go wrong *)

(** The result of a call on a concrete heap. *)
Definition outcome {A} (r : res (A * heap)) : A + err := match r with Ok (x, _) => inl x | Err e => inr e end.

Lemma outcome_ok {A} (r : res (A * heap)) x : outcome r = inl x -> exists h', r = Ok (x, h').
Proof. destruct r as [[y h']|]; [intros [= ->]; by exists h' | done]. Qed.

Lemma outcome_err {A} (r : res (A * heap)) e : outcome r = inr e -> r = Err e.
Proof. destruct r as [[y h']|]; [done | by intros [= ->]]. Qed.

(** Three blocks fill the heap; the first one, of 116 bytes, is given back. Then
    20 bytes on a page boundary are asked for, which lies 4020 bytes behind it. *)
Definition aligned_underflow : M heap (Z * Z) :=
  create_mem_allocator 0x1000 20 0x2000 0x4000 0x1000 0x8000 0 0 0;;
  p1 ← alloc no_table old_data 0x1000 20 2 100 0;
  alloc no_table old_data 0x1000 20 2 100 0;;
  p3 ← alloc no_table old_data 0x1000 20 2 7876 0;
  MemAlloc.free no_table old_data 0x1000 20 p1;;
  p4 ← alloc no_table old_data 0x1000 20 2 20 4096;
  mret (p3, p4).


(** Two blocks fill the heap; the first one is given back, and what lies behind
    the aligned place in it is taken whole. *)
Definition aligned_exact : M heap Z :=
  create_mem_allocator 0x1000 20 0x2000 0x4000 0x1000 0x8000 0 0 0;;
  p1 ← alloc no_table old_data 0x1000 20 2 100 0;
  alloc no_table old_data 0x1000 20 2 7992 0;;
  MemAlloc.free no_table old_data 0x1000 20 p1;;
  alloc no_table old_data 0x1000 20 2 48 64.

(** an aligned block that is not split at its end cannot be given back: alloc
    writes the magic word of its footer but not that of its header, and free stops
    the kernel in an assertion. *)
Theorem aligned_block_not_freeable :
  exists p h', aligned_exact fresh = Ok (p, h') /\ MemAlloc.free no_table old_data 0x1000 20 p h' = Err AssertFailed.
Proof.
  assert (E : match aligned_exact fresh with Ok (p, h') => Some (p, outcome (MemAlloc.free no_table old_data 0x1000 20 p h')) | Err _ => None end
    = Some (8320, inr AssertFailed)) by (vm_compute; reflexivity).
  destruct (aligned_exact fresh) as [[p h']|]; [| done]. injection E as -> E. exists 8320, h'. split; [done | by apply outcome_err].
Qed.

(** The last block but for the free rest begins 8 bytes before a page. *)
Definition shrink_to_header : M heap unit :=
  create_mem_allocator 0x1000 20 0x2000 0x6000 0x1000 0x8000 0 0 0x2000;;
  alloc no_table old_data 0x1000 20 2 8100 0;;
  p2 ← alloc no_table old_data 0x1000 20 2 100 0;
  MemAlloc.free no_table old_data 0x1000 20 p2.

(** a contraction may leave less of the last block than a block needs: free
    then writes its footer over its header, and the insertion into the tree
    touches the page that was just released. *)
Theorem contraction_faults : shrink_to_header (Heap (mem_with_pages 5 0x1000) (al fresh) (hpg fresh)) = Err (Fault 0x4000).
Proof. apply outcome_err. vm_compute. reflexivity. Qed.

(** C39: the last block of a heap that ends at an absent page can not be freed:
    free looks at the header of the block behind it before it tests whether there
    is one, and faults. *)
Theorem free_last_faults table_ap frame_data head tree_fuel h l1 b t :
  heap_ok h (l1 ++ [b]) t -> b_free b = false -> end_address (al h) + 8 < 2 ^ 32 -> word_present (hmem h) (end_address (al h) + 4) = false ->
  MemAlloc.free table_ap frame_data head tree_fuel (b_addr b + 8) h = Err (Fault (end_address (al h) + 4)).
Proof.
  intros [I Us] Fb He Ab. assert (Hb : b ∈ l1 ++ [b]) by set_solver. destruct (inv_bounds _ _ _ _ I b Hb) as (B0 & B1 & _).
  pose proof (bk_size _ _ (inv_block _ _ _ _ I b Hb)) as Zb. destruct (unuse_ok table_ap frame_data head h l1 b [] t I Fb) as (m1 & Cm & If & Mf & Cf & Gs & P1 & _).
  assert (Ti := hi_tiled _ _ _ _ I). apply tiled_app in Ti as (x & _ & Ex & Ee). simpl in Ee. rewrite <- Ex in Ee.
  set (h1 := Heap m1 (with_used (u32 (mem_used_ (al h) + - b_size b)) (al h)) (hpg h)).
  unfold MemAlloc.free. rewrite (proj2 (Z.eqb_neq (b_addr b + 8) 0)) by lia. unfold user_to_block, USER_PTR_OFFSET.
  replace (b_addr b + 8 - (4 + 4)) with (b_addr b) by lia. rewrite (u32_small (b_addr b)) by lia.
  rewrite (bind_ok _ _ _ _ _ (on_mem_read _ _ _ Cm)). rewrite (bind_ok (assert true) _ h tt h) by done.
  rewrite (bind_ok _ _ _ _ _ (on_mem_read _ _ _ If)). rewrite (bind_ok _ _ _ _ _ (on_mem_ok _ _ _ _ Mf)).
  rewrite (bind_ok _ _ _ _ _ (on_mem_read _ (Heap m1 (al h) (hpg h)) _ Cf)). rewrite (bind_ok (assert true) _ (Heap m1 (al h) (hpg h)) tt (Heap m1 (al h) (hpg h))) by done.
  rewrite (bind_ok _ _ _ _ _ (on_mem_read _ (Heap m1 (al h) (hpg h)) _ Gs)). rewrite (bind_ok _ _ (Heap m1 (al h) (hpg h)) tt h1) by done.
  apply bind_err. unfold merge_right, get_next_block.
  assert (Nx : on_mem (s ← get_size (b_addr b); mret (u32 (b_addr b + s))) h1 = Ok (end_address (al h), h1)).
  { apply on_mem_read. cbn [h1 hmem]. rewrite (bind_ok _ _ _ _ _ Gs), u32_small by lia. by rewrite Ee. }
  rewrite (bind_ok _ _ _ _ _ Nx). apply bind_err. unfold right_is_free.
  rewrite (bind_ok _ _ h1 (end_address (al h)) h1) by done. unfold on_mem, zoom.
  rewrite (bind_err _ _ _ (Fault (end_address (al h) + 4))); [done |]. unfold get_size, load32. rewrite (u32_small (end_address (al h) + 4)) by (destruct (hi_range _ _ _ _ I); lia).
  assert (Ab1 : word_present m1 (end_address (al h) + 4) = false) by (unfold word_present, page_present in *; by rewrite P1).
  cbn [h1 hmem]. by rewrite Ab1.
Qed.

Lemma free_last_faults_witness :
  exists h t, heap_ok h [Block 8260 116 false; Block 8376 116 false; Block 8492 7892 false] t /\
    MemAlloc.free no_table old_data 0x1000 11 (8492 + 8) h = Err (Fault 0x4004).
Proof.
  destruct three_used as (h & t & Hk & _ & Ee & Pg). exists h, t. split; [exact Hk |].
  assert (E : 0x4004 = end_address (al h) + 4) by (rewrite Ee; reflexivity). rewrite E.
  apply (free_last_faults no_table old_data 0x1000 11 h [Block 8260 116 false; Block 8376 116 false] (Block 8492 7892 false) t Hk eq_refl); rewrite Ee; [done |].
  unfold word_present, page_present. rewrite Pg. vm_compute. reflexivity.
Defined.
