(* ===== verification/Dll.v ===== *)
(** Doubly linked lists: the segments that the interrupt handler chains of
    system.c and the thread ring of scheduler.c are made of.

    A pointer is an [option K]: [None] is the null pointer. [dseg p ks n] says
    that following [next] from the first node of [ks] visits [ks] in order and
    leaves through [n], that the [prev] pointers lead back the same way, and
    that the first node's [prev] is [p]. *)

From S2P Require Import Prelude.

Section dll.
Context {K : Type} `{EqDecision K}.

(** The pointer to the first node of [ks], or [n] when there is none. *)
Definition first_ptr (ks : list K) (n : option K) : option K :=
  match ks with [] => n | k :: _ => Some k end.

(** The pointer to the last node of [ks], or [p] when there is none. *)
Fixpoint last_ptr (p : option K) (ks : list K) : option K :=
  match ks with [] => p | k :: ks' => last_ptr (Some k) ks' end.

Fixpoint dseg (next prev : K -> option K) (p : option K) (ks : list K) (n : option K) : Prop :=
  match ks with
  | [] => True
  | k :: ks' => prev k = p /\ next k = first_ptr ks' n /\ dseg next prev (Some k) ks' n
  end.

Lemma last_ptr_snoc p ks k : last_ptr p (ks ++ [k]) = Some k.
Proof. revert p. induction ks; intros p; simpl; auto. Qed.

Lemma last_ptr_app p ks1 ks2 : last_ptr p (ks1 ++ ks2) = last_ptr (last_ptr p ks1) ks2.
Proof. revert p. induction ks1; intros p; simpl; auto. Qed.

Lemma first_ptr_app ks1 ks2 n : first_ptr (ks1 ++ ks2) n = first_ptr ks1 (first_ptr ks2 n).
Proof. by destruct ks1. Qed.

Lemma last_ptr_in p ks k : last_ptr p ks = Some k -> ks <> [] -> k ∈ ks.
Proof.
  revert p. induction ks as [|x ks IH]; intros p H Hne; [done|].
  simpl in H. destruct ks as [|y ks].
  - simpl in H. simplify_eq. set_solver.
  - apply elem_of_cons. right. eapply IH; eauto.
Qed.

Lemma first_ptr_in ks k : first_ptr ks None = Some k -> k ∈ ks.
Proof. destruct ks; simpl; intros; simplify_eq; set_solver. Qed.

(** A segment splits at any point. *)
Lemma dseg_app next prev p ks1 ks2 n :
  dseg next prev p (ks1 ++ ks2) n <->
  dseg next prev p ks1 (first_ptr ks2 n) /\ dseg next prev (last_ptr p ks1) ks2 n.
Proof.
  revert p. induction ks1 as [|k ks1 IH]; intros p; simpl; [tauto|].
  rewrite IH, first_ptr_app. tauto.
Qed.

(** Only the pointers of the nodes of a segment matter. *)
Lemma dseg_ext next prev next' prev' p ks n :
  (forall k, k ∈ ks -> next' k = next k /\ prev' k = prev k) ->
  dseg next prev p ks n -> dseg next' prev' p ks n.
Proof.
  revert p. induction ks as [|k ks IH]; intros p H; simpl; [done|].
  intros (H1 & H2 & H3). destruct (H k) as [-> ->]; [set_solver|].
  split_and!; auto. apply IH; auto. intros. apply H. set_solver.
Qed.

(** Changing where a segment leaves: only its last node's [next] is new. *)
Lemma dseg_exit next prev next' p ks n n' :
  NoDup ks -> dseg next prev p ks n ->
  (forall k, k ∈ ks -> next' k = if decide (last_ptr None ks = Some k) then n' else next k) ->
  dseg next' prev p ks n'.
Proof.
  intros Hnd Hs Hn. destruct ks as [|x ks _] using rev_ind; [done|].
  apply dseg_app in Hs as (H1 & H2 & H3 & _).
  apply NoDup_app in Hnd as (_ & Hd & _).
  apply dseg_app. split; [|simpl; split_and!; auto].
  - eapply dseg_ext; [|exact H1]. intros k Hk. split; [|done].
    rewrite Hn by set_solver. rewrite last_ptr_snoc.
    rewrite decide_False; [done|]. intros [= ->]. by eapply Hd; [|apply list_elem_of_singleton].
  - rewrite Hn by set_solver. rewrite last_ptr_snoc, decide_True; done.
Qed.

(** Changing where a segment is entered from: only its first node's [prev]. *)
Lemma dseg_enter next prev prev' p p' ks n :
  NoDup ks -> dseg next prev p ks n ->
  (forall k, k ∈ ks -> prev' k = if decide (first_ptr ks None = Some k) then p' else prev k) ->
  dseg next prev' p' ks n.
Proof.
  intros Hnd Hs Hp. destruct ks as [|x ks]; [done|]. simpl in *.
  destruct Hs as (H1 & H2 & H3). apply NoDup_cons in Hnd as [Hx Hnd].
  split_and!; [|done|].
  - rewrite Hp by set_solver. by rewrite decide_True.
  - eapply dseg_ext; [|exact H3]. intros k Hk. split; [done|].
    rewrite Hp by set_solver. rewrite decide_False; [done|]. congruence.
Qed.

(** Appending a node. *)
Lemma dseg_snoc next prev next' prev' p ks n n' k :
  NoDup ks -> k ∉ ks -> dseg next prev p ks n ->
  (forall x, x ∈ ks -> next' x = if decide (last_ptr None ks = Some x) then Some k else next x) ->
  (forall x, x ∈ ks -> prev' x = prev x) ->
  next' k = n' -> prev' k = last_ptr p ks ->
  dseg next' prev' p (ks ++ [k]) n'.
Proof.
  intros Hnd Hk Hs Hn Hp Hnk Hpk. apply dseg_app. simpl. split_and!; auto.
  apply (dseg_ext next' prev); [by intros; split; [|auto]|].
  by apply (dseg_exit next prev next' p ks n).
Qed.

(** Unlinking a node. *)
Lemma dseg_remove next prev next' prev' p l1 k l2 n :
  NoDup (l1 ++ k :: l2) -> dseg next prev p (l1 ++ k :: l2) n ->
  (forall x, x ∈ l1 ++ l2 ->
     next' x = if decide (last_ptr None l1 = Some x) then next k else next x) ->
  (forall x, x ∈ l1 ++ l2 ->
     prev' x = if decide (first_ptr l2 None = Some x) then prev k else prev x) ->
  dseg next' prev' p (l1 ++ l2) n.
Proof.
  intros Hnd Hs Hn Hp. apply dseg_app in Hs as (H1 & H2 & H3 & H4).
  apply NoDup_app in Hnd as (Hnd1 & Hd & Hnd2). apply NoDup_cons in Hnd2 as [Hk2 Hnd2].
  apply dseg_app. rewrite <- H2, <- H3. split.
  - apply (dseg_ext next' prev).
    { intros x Hx. split; [done|]. rewrite Hp by set_solver.
      rewrite decide_False; [done|]. intros E. apply first_ptr_in in E. set_solver. }
    eapply dseg_exit; [done|exact H1|]. intros x Hx. apply Hn. set_solver.
  - apply (dseg_ext next prev').
    { intros x Hx. split; [|done]. rewrite Hn by set_solver.
      rewrite decide_False; [done|]. intros E.
      destruct l1 as [|y l1]; [done|]. apply last_ptr_in in E; [|done]. set_solver. }
    eapply dseg_enter; [done|exact H4|]. intros x Hx. apply Hp. set_solver.
Qed.

Lemma dseg_next next prev p l1 k l2 n :
  dseg next prev p (l1 ++ k :: l2) n -> next k = first_ptr l2 n.
Proof. intros H. apply dseg_app in H as (_ & _ & ? & _). done. Qed.

Lemma dseg_prev next prev p l1 k l2 n :
  dseg next prev p (l1 ++ k :: l2) n -> prev k = last_ptr p l1.
Proof. intros H. apply dseg_app in H as (_ & ? & _). done. Qed.
End dll.
