(* ===== verification/Handlers.v ===== *)
(** The interrupt handler table of system.c.

    Each of the 256 interrupt vectors has 50 static slots and the index of the
    slot that heads its list; the slots in use are linked in both directions.
    A slot is free when its [handler] is null. A pointer to [handlers[num][i]]
    is [Some i]: attach and detach only ever link slots of one row. Functions
    are addresses, 0 the null pointer. irq_save and irq_restore around the
    updates leave the interrupt flag as it was and are left out: nothing here
    runs concurrently with the processor that executes it. *)

From S2P Require Import Prelude Dll.

Definition MAX_HANDLERS : nat := 50.
Definition IDT_NUM_ENTRIES : nat := 256.

Record handler_t : Type := Handler {
  h_handler : Z;
  h_num : Z;
  h_index : Z;
  h_next : option nat;
  h_prev : option nat
}.

(** A static slot, before any use. *)
Definition empty_slot : handler_t := Handler 0 0 0 None None.

(** Row [num] of [handlers] with [handlers_heads[num]]. *)
Record row : Type := Row { slots : list handler_t; head : nat }.

Definition init_row : row := Row (replicate MAX_HANDLERS empty_slot) 0.

(** ** Access to the slots *)

Definition slot (i : nat) : M row handler_t := fun r =>
  match slots r !! i with
  | Some s => Ok (s, r)
  | None => Err (OutOfBounds (Z.of_nat i))
  end.

Definition set_slot (i : nat) (f : handler_t -> handler_t) : M row unit := fun r =>
  match slots r !! i with
  | Some s => Ok (tt, Row (<[i := f s]> (slots r)) (head r))
  | None => Err (OutOfBounds (Z.of_nat i))
  end.

Definition set_next (n : option nat) (s : handler_t) : handler_t :=
  Handler (h_handler s) (h_num s) (h_index s) n (h_prev s).
Definition set_prev (p : option nat) (s : handler_t) : handler_t :=
  Handler (h_handler s) (h_num s) (h_index s) (h_next s) p.
Definition set_handler (f : Z) (s : handler_t) : handler_t :=
  Handler f (h_num s) (h_index s) (h_next s) (h_prev s).

(** [while (h->next) h = h->next;] *)
Fixpoint find_tail (fuel : nat) (h : nat) : M row nat :=
  s ← slot h;
  match h_next s with
  | None => mret h
  | Some n => match fuel with O => throw Hang | S fuel' => find_tail fuel' n end
  end.

(** The first slot whose handler is null, from slot [i]. *)
Fixpoint find_free (l : list handler_t) (i : nat) : option nat :=
  match l with
  | [] => None
  | s :: l' => if h_handler s =? 0 then Some i else find_free l' (S i)
  end.

(** attach_interrupt_handler, on the row of its vector. *)
Definition attach_row (num handler : Z) : M row unit :=
  hd ← gets head;
  s ← slot hd;
  h ← (if h_handler s =? 0 then mret None
       else t ← find_tail MAX_HANDLERS hd; mret (Some t));
  free ← gets (fun r => find_free (slots r) 0);
  match free with
  | None => mret tt
  | Some n =>
      set_slot n (fun s => Handler handler num (h_index s) None (h_prev s));;
      match h with
      | Some h =>
          hs ← slot h;
          set_slot n (fun s => Handler (h_handler s) (h_num s) (u32 (h_index hs + 1))
                                 (h_next s) (Some h));;
          set_slot h (set_next (Some n))
      | None =>
          set_slot n (fun s => Handler (h_handler s) (h_num s) 1 (h_next s) None)
      end
  end.

(** The body of the search in detach_interrupt_handler: unlink slot [h]. *)
Definition unlink (h : nat) : M row unit :=
  s ← slot h;
  (match h_prev s with
   | Some p => set_slot p (set_next (h_next s))
   | None => mret tt
   end);;
  s ← slot h;
  (match h_next s with
   | Some n =>
       set_slot n (set_prev (h_prev s));;
       match h_prev s with
       | None => modify (fun r => Row (slots r) n)
       | Some _ => mret tt
       end
   | None => mret tt
   end);;
  set_slot h (set_handler 0).

(** [do { ... } while ((h = h->prev) != 0);] *)
Fixpoint detach_loop (fuel : nat) (handler : Z) (h : nat) : M row unit :=
  s ← slot h;
  if h_handler s =? handler then unlink h
  else match h_prev s with
       | None => mret tt
       | Some p =>
           match fuel with O => throw Hang | S fuel' => detach_loop fuel' handler p end
       end.

Definition detach_row (handler : Z) : M row unit :=
  hd ← gets head;
  s ← slot hd;
  if h_handler s =? 0 then mret tt
  else t ← find_tail MAX_HANDLERS hd; detach_loop MAX_HANDLERS handler t.

Definition get_row : M row (option nat) :=
  hd ← gets head;
  s ← slot hd;
  mret (if h_handler s =? 0 then None else Some hd).

(** ** The table *)

Definition table : Type := list row.

Definition init_table : table := replicate IDT_NUM_ENTRIES init_row.

(** Run an operation on the row of vector [num], a [uint8_t]. *)
Definition on_row {A} (num : Z) (c : M row A) : M table A := fun t =>
  match t !! Z.to_nat (u8 num) with
  | None => Err (OutOfBounds (u8 num))
  | Some r =>
      match c r with
      | Ok (a, r') => Ok (a, <[Z.to_nat (u8 num) := r']> t)
      | Err e => Err e
      end
  end.

Definition attach_interrupt_handler (num handler : Z) : M table unit :=
  on_row num (attach_row (u8 num) handler).
Definition detach_interrupt_handler (num handler : Z) : M table unit :=
  on_row num (detach_row handler).
Definition get_interrupt_handler (num : Z) : M table (option nat) :=
  on_row num get_row.

(** ** The abstract view: each vector has a list of handlers

    [chain r l] says that the slots of row [r] in use are exactly [l], linked
    in calling order. *)

Definition next_of (sl : list handler_t) (i : nat) : option nat := sl !! i ≫= h_next.
Definition prev_of (sl : list handler_t) (i : nat) : option nat := sl !! i ≫= h_prev.
Definition handler_of (sl : list handler_t) (i : nat) : Z := from_option h_handler 0 (sl !! i).

Record chain (r : row) (l : list nat) : Prop := {
  chain_len : length (slots r) = MAX_HANDLERS;
  chain_nodup : NoDup l;
  chain_seg : dseg (next_of (slots r)) (prev_of (slots r)) None l None;
  chain_head : first_ptr l (Some (head r)) = Some (head r);
  chain_head_len : (head r < MAX_HANDLERS)%nat;
  chain_used : forall i, (i < MAX_HANDLERS)%nat -> i ∈ l <-> handler_of (slots r) i <> 0;
  chain_range : forall i, i ∈ l -> (i < MAX_HANDLERS)%nat
}.

(** The handlers of a row, in calling order. *)
Definition handlers_in (r : row) (l : list nat) : list Z := map (handler_of (slots r)) l.

Definition holds_handlers (r : row) (hs : list Z) : Prop :=
  exists l, chain r l /\ handlers_in r l = hs.

(** Detaching removes the most recently attached occurrence. *)
Fixpoint remove_first (f : Z) (hs : list Z) : list Z :=
  match hs with
  | [] => []
  | x :: hs' => if x =? f then hs' else x :: remove_first f hs'
  end.
Definition remove_last (f : Z) (hs : list Z) : list Z := rev (remove_first f (rev hs)).

(** ** Lemmas *)

Lemma slot_ok r i s : slots r !! i = Some s -> slot i r = Ok (s, r).
Proof. intros H. unfold slot. by rewrite H. Qed.

Lemma set_slot_ok r i f s :
  slots r !! i = Some s -> set_slot i f r = Ok (tt, Row (<[i := f s]> (slots r)) (head r)).
Proof. intros H. unfold set_slot. by rewrite H. Qed.

Lemma init_row_chain : chain init_row [].
Proof.
  split; [apply length_replicate | constructor | done | done | | | set_solver].
  - apply (Nat.ltb_lt 0 MAX_HANDLERS). reflexivity.
  - intros i Hi. unfold handler_of, init_row, slots. rewrite lookup_replicate_2 by done.
    set_solver.
Qed.

Lemma find_free_None l i : find_free l i = None <-> Forall (fun s => h_handler s <> 0) l.
Proof.
  revert i. induction l as [|s l IH]; intros i; simpl; [done|].
  destruct (Z.eqb_spec (h_handler s) 0) as [E|E].
  - split; [done|]. inversion 1; done.
  - rewrite IH. split; [by constructor | by inversion 1].
Qed.

Lemma find_free_Some l i n :
  find_free l i = Some n ->
  (i <= n)%nat /\ (exists s, l !! (n - i)%nat = Some s /\ h_handler s = 0) /\
  forall j s, (j < n - i)%nat -> l !! j = Some s -> h_handler s <> 0.
Proof.
  revert i. induction l as [|s l IH]; intros i; simpl; [done|].
  destruct (Z.eqb_spec (h_handler s) 0) as [E|E].
  - intros [= ->]. rewrite Nat.sub_diag. split_and!; [lia | by exists s | lia].
  - intros H. destruct (IH _ H) as (H1 & (s' & H2 & H3) & H4).
    replace (n - i)%nat with (S (n - S i)) by lia. split_and!; [lia | by exists s' |].
    intros [|j] s''; simpl; intros; simplify_eq; [done|]. eapply H4; eauto. lia.
Qed.

Section chains.
Context (r : row) (l : list nat) (Hc : chain r l).

Lemma chain_lookup i : (i < MAX_HANDLERS)%nat -> exists s, slots r !! i = Some s.
Proof. intros H. apply lookup_lt_is_Some. by rewrite (chain_len _ _ Hc). Qed.

Lemma chain_next i s : slots r !! i = Some s -> next_of (slots r) i = h_next s.
Proof. intros H. unfold next_of. by rewrite H. Qed.

Lemma chain_prev i s : slots r !! i = Some s -> prev_of (slots r) i = h_prev s.
Proof. intros H. unfold prev_of. by rewrite H. Qed.

Lemma chain_handler i s : slots r !! i = Some s -> handler_of (slots r) i = h_handler s.
Proof. intros H. unfold handler_of. by rewrite H. Qed.

(** The head slot is in use exactly when the list is not empty. *)
Lemma chain_empty s : slots r !! head r = Some s -> h_handler s = 0 <-> l = [].
Proof.
  intros H. rewrite <- (chain_handler _ _ H).
  pose proof (chain_used _ _ Hc _ (chain_head_len _ _ Hc)) as U.
  pose proof (chain_head _ _ Hc) as F.
  destruct l as [|i l']; simpl in F; simplify_eq.
  - split; [done|]. intros _. destruct (decide (handler_of (slots r) (head r) = 0)); [done|].
    exfalso. apply U in n. set_solver.
  - split; [|done]. intros E. exfalso. apply U in E; set_solver.
Qed.

Lemma find_tail_ok fuel l1 i l2 :
  l = l1 ++ i :: l2 -> (length l2 <= fuel)%nat ->
  exists t, find_tail fuel i r = Ok (t, r) /\ last_ptr None l = Some t.
Proof.
  revert l1 i l2. induction fuel as [|fuel IH]; intros l1 i l2 Hl Hf.
  all: assert (Hi : i ∈ l) by (rewrite Hl; set_solver).
  all: destruct (chain_lookup i) as [s Hs]; [by eapply chain_range|].
  all: pose proof (chain_seg _ _ Hc) as Hseg; rewrite Hl in Hseg;
       apply dseg_next in Hseg; rewrite (chain_next _ _ Hs) in Hseg.
  all: cbn [find_tail]; rewrite (bind_ok _ _ _ _ _ (slot_ok _ _ _ Hs)), Hseg.
  all: destruct l2 as [|j l2]; simpl in *; [|try lia].
  - exists i. split; [done|]. rewrite Hl. by rewrite last_ptr_snoc.
  - exists i. split; [done|]. rewrite Hl. by rewrite last_ptr_snoc.
  - apply (IH (l1 ++ [i]) j l2); [|lia]. rewrite Hl. by rewrite <- app_assoc.
Qed.

Lemma chain_length : (length l <= MAX_HANDLERS)%nat.
Proof.
  assert (length l <= length (seq 0 MAX_HANDLERS))%nat as H.
  { apply submseteq_length, NoDup_submseteq; [apply (chain_nodup _ _ Hc)|].
    intros i Hi. apply elem_of_seq. pose proof (chain_range _ _ Hc _ Hi). lia. }
  by rewrite length_seq in H.
Qed.

(** From the head of a non-empty list the search for the tail ends. *)
Lemma tail_of_head : l <> [] ->
  exists t, find_tail MAX_HANDLERS (head r) r = Ok (t, r) /\ last_ptr None l = Some t.
Proof.
  intros Hne. pose proof (chain_head _ _ Hc) as F. pose proof chain_length as L.
  assert (exists l', l = head r :: l') as [l' E].
  { destruct l as [|i l']; [done|]. injection F as ->. by exists l'. }
  rewrite E in L. apply (find_tail_ok _ [] (head r) l'); simpl in *; [done | lia].
Qed.

Lemma get_row_ok :
  get_row r = Ok (first_ptr l None, r).
Proof.
  destruct (chain_lookup (head r)) as [s Hs]; [apply (chain_head_len _ _ Hc)|].
  pose proof (chain_head _ _ Hc) as F. pose proof (chain_empty _ Hs) as E.
  unfold get_row. rewrite (bind_ok _ _ r (head r) r) by done.
  rewrite (bind_ok _ _ _ _ _ (slot_ok _ _ _ Hs)), ret_ok. do 2 f_equal.
  destruct (Z.eqb_spec (h_handler s) 0) as [Z|Z].
  - apply E in Z. by subst.
  - destruct l; simpl in *; [|done]. by exfalso; apply Z, E.
Qed.
End chains.

(** ** attach *)

Lemma chain_append r r' l n :
  chain r l -> (n < MAX_HANDLERS)%nat -> n ∉ l ->
  length (slots r') = MAX_HANDLERS -> head r' = head r -> (l = [] -> head r = n) ->
  handler_of (slots r') n <> 0 ->
  (forall i, i <> n -> handler_of (slots r') i = handler_of (slots r) i) ->
  next_of (slots r') n = None -> prev_of (slots r') n = last_ptr None l ->
  (forall i, i ∈ l -> next_of (slots r') i =
     if decide (last_ptr None l = Some i) then Some n else next_of (slots r) i) ->
  (forall i, i ∈ l -> prev_of (slots r') i = prev_of (slots r) i) ->
  chain r' (l ++ [n]).
Proof.
  intros Hc Hn Hnl Hlen Hhd Hemp Hh Hho Hnn Hpn Hnx Hpv. split.
  - done.
  - apply NoDup_app. split_and!; [apply Hc | set_solver | apply NoDup_singleton].
  - by eapply dseg_snoc; [apply Hc | done | apply (chain_seg _ _ Hc) | ..].
  - rewrite Hhd. pose proof (chain_head _ _ Hc). destruct l; simpl in *; [|done].
    by rewrite Hemp.
  - rewrite Hhd. apply Hc.
  - intros i Hi. rewrite elem_of_app, list_elem_of_singleton. destruct (decide (i = n)) as [->|Hne].
    + tauto.
    + rewrite Hho, (chain_used _ _ Hc) by done. tauto.
  - intros i Hi. rewrite elem_of_app, list_elem_of_singleton in Hi.
    destruct Hi as [Hi| ->]; [by apply Hc | done].
Qed.

(** The slot that attach takes. *)
Lemma free_slot_ok r l n :
  chain r l -> find_free (slots r) 0 = Some n ->
  (n < MAX_HANDLERS)%nat /\ (n ∉ l) /\ (exists s, slots r !! n = Some s /\ h_handler s = 0) /\
  forall j, (j < n)%nat -> handler_of (slots r) j <> 0.
Proof.
  intros Hc H. apply find_free_Some in H as (_ & (s & Hs & H0) & Hb).
  rewrite Nat.sub_0_r in *. assert (Hn : (n < MAX_HANDLERS)%nat).
  { rewrite <- (chain_len _ _ Hc). by eapply lookup_lt_Some. }
  split_and!; [done | | by exists s |].
  - intros Hl. apply (chain_used _ _ Hc _ Hn) in Hl. by rewrite (chain_handler _ _ _ Hs) in Hl.
  - intros j Hj. destruct (chain_lookup _ _ Hc j) as [s' Hs']; [lia|].
    rewrite (chain_handler _ _ _ Hs'). eapply Hb; eauto.
Qed.

(** Every slot is in use exactly when the list has [MAX_HANDLERS] members. *)
Lemma free_slot_none r l :
  chain r l -> (find_free (slots r) 0 = None <-> length l = MAX_HANDLERS).
Proof.
  intros Hc. rewrite find_free_None, Forall_lookup. split.
  - intros H. apply Nat.le_antisymm; [by eapply chain_length|].
    rewrite <- (length_seq MAX_HANDLERS 0) at 1.
    apply submseteq_length, NoDup_submseteq; [apply NoDup_seq|].
    intros i Hi. apply elem_of_seq in Hi. destruct (chain_lookup _ _ Hc i) as [s Hs]; [lia|].
    apply (chain_used _ _ Hc); [lia|]. rewrite (chain_handler _ _ _ Hs). by eapply H.
  - intros Hlen i s Hs. rewrite <- (chain_handler _ _ _ Hs).
    assert (Hi : (i < MAX_HANDLERS)%nat).
    { rewrite <- (chain_len _ _ Hc). by eapply lookup_lt_Some. }
    apply (chain_used _ _ Hc); [done|].
    destruct (decide (i ∈ l)) as [|Hni]; [done|]. exfalso.
    assert (length (i :: l) <= length (seq 0 MAX_HANDLERS))%nat as L.
    { apply submseteq_length, NoDup_submseteq; [constructor; [done | apply Hc]|].
      intros j Hj. apply elem_of_seq. apply elem_of_cons in Hj as [->|Hj]; [lia|].
      pose proof (chain_range _ _ Hc _ Hj). lia. }
    rewrite length_seq in L. cbn [length] in L. lia.
Qed.

Section views.
Context (sl : list handler_t) (i j : nat) (s s' : handler_t) (Hi : sl !! i = Some s).

Lemma next_of_insert :
  next_of (<[i := s']> sl) j = if decide (j = i) then h_next s' else next_of sl j.
Proof.
  unfold next_of. case_decide as D.
  - subst. rewrite list_lookup_insert_eq; [done|]. by eapply lookup_lt_Some.
  - by rewrite list_lookup_insert_ne.
Qed.

Lemma prev_of_insert :
  prev_of (<[i := s']> sl) j = if decide (j = i) then h_prev s' else prev_of sl j.
Proof.
  unfold prev_of. case_decide as D.
  - subst. rewrite list_lookup_insert_eq; [done|]. by eapply lookup_lt_Some.
  - by rewrite list_lookup_insert_ne.
Qed.

Lemma handler_of_insert :
  handler_of (<[i := s']> sl) j = if decide (j = i) then h_handler s' else handler_of sl j.
Proof.
  unfold handler_of. case_decide as D.
  - subst. rewrite list_lookup_insert_eq; [done|]. by eapply lookup_lt_Some.
  - by rewrite list_lookup_insert_ne.
Qed.
End views.

Lemma handlers_in_ext r r' l :
  (forall i, i ∈ l -> handler_of (slots r') i = handler_of (slots r) i) ->
  handlers_in r' l = handlers_in r l.
Proof.
  intros H. unfold handlers_in. apply map_ext_in. intros i Hi. apply H.
  by apply list_elem_of_In.
Qed.

Lemma handlers_in_snoc r r' l n f :
  n ∉ l -> (forall i, handler_of (slots r') i = if decide (i = n) then f else handler_of (slots r) i) ->
  handlers_in r' (l ++ [n]) = handlers_in r l ++ [f].
Proof.
  intros Hn H. unfold handlers_in at 1. rewrite map_app. cbn [map].
  rewrite H, decide_True by done. f_equal. apply handlers_in_ext.
  intros i Hi. by rewrite H, decide_False by (by intros ->).
Qed.

(** Linking a free slot [n] behind the tail [t]: the last writes of attach. *)
Lemma attach_behind r l n t sn st num f ix :
  chain r l -> f <> 0 -> n ∉ l -> slots r !! n = Some sn -> slots r !! t = Some st ->
  last_ptr None l = Some t -> l <> [] ->
  let r' := Row (<[t := set_next (Some n) st]>
                   (<[n := Handler f num ix None (Some t)]> (slots r))) (head r) in
  chain r' (l ++ [n]) /\ handlers_in r' (l ++ [n]) = handlers_in r l ++ [f].
Proof.
  intros Hc Hf Hnl Hsn Hst Hlast Hne r'.
  assert (Htl : t ∈ l) by (by eapply last_ptr_in). assert (Hnt : n <> t) by (by intros ->).
  set (sn2 := Handler _ _ _ _ _) in *.
  assert (Ht2 : <[n := sn2]> (slots r) !! t = Some st) by by rewrite list_lookup_insert_ne.
  assert (Vh : forall i, handler_of (slots r') i = if decide (i = n) then f else handler_of (slots r) i).
  { intros i. unfold r'; cbn [slots].
    rewrite (handler_of_insert _ _ _ _ _ Ht2), (handler_of_insert _ _ _ _ _ Hsn).
    destruct (decide (i = t)) as [->|]; [|done]. rewrite decide_False by done.
    symmetry. apply (chain_handler _ _ _ Hst). }
  assert (Vn : forall i, next_of (slots r') i = if decide (i = t) then Some n
                 else if decide (i = n) then None else next_of (slots r) i).
  { intros i. unfold r'; cbn [slots].
    by rewrite (next_of_insert _ _ _ _ _ Ht2), (next_of_insert _ _ _ _ _ Hsn). }
  assert (Vp : forall i, prev_of (slots r') i = if decide (i = n) then Some t else prev_of (slots r) i).
  { intros i. unfold r'; cbn [slots].
    rewrite (prev_of_insert _ _ _ _ _ Ht2), (prev_of_insert _ _ _ _ _ Hsn).
    destruct (decide (i = t)) as [->|]; [|done]. rewrite decide_False by done.
    symmetry. apply (chain_prev _ _ _ Hst). }
  split; [|by apply handlers_in_snoc].
  eapply chain_append; [exact Hc | | done | | done | done | .. ].
  - rewrite <- (chain_len _ _ Hc). by eapply lookup_lt_Some.
  - unfold r'; cbn [slots]. rewrite !length_insert. apply Hc.
  - by rewrite Vh, decide_True.
  - intros i Hi. by rewrite Vh, decide_False.
  - by rewrite Vn, decide_False, decide_True.
  - by rewrite Vp, decide_True.
  - intros i Hi. rewrite Vn, Hlast. destruct (decide (i = t)) as [->|]; [by rewrite decide_True|].
    rewrite decide_False by (by intros ->). by rewrite decide_False by congruence.
  - intros i Hi. by rewrite Vp, decide_False by (by intros ->).
Qed.

(** Attaching to an empty list takes the head slot. *)
Lemma attach_only r sn num f ix :
  chain r [] -> f <> 0 -> slots r !! head r = Some sn ->
  let r' := Row (<[head r := Handler f num ix None None]> (slots r)) (head r) in
  chain r' [head r] /\ handlers_in r' [head r] = [f].
Proof.
  intros Hc Hf Hsn r'.
  assert (Vh : forall i, handler_of (slots r') i = if decide (i = head r) then f else handler_of (slots r) i).
  { intros i. unfold r'; cbn [slots]. by rewrite (handler_of_insert _ _ _ _ _ Hsn). }
  split; [|apply (handlers_in_snoc r r' []); [set_solver | done]].
  apply (chain_append r r' [] (head r) Hc); [apply Hc | set_solver | | done | done | .. ].
  - unfold r'; cbn [slots]. rewrite length_insert. apply Hc.
  - by rewrite Vh, decide_True.
  - intros i Hi. by rewrite Vh, decide_False.
  - unfold r'; cbn [slots]. by rewrite (next_of_insert _ _ _ _ _ Hsn), decide_True.
  - unfold r'; cbn [slots]. by rewrite (prev_of_insert _ _ _ _ _ Hsn), decide_True.
  - set_solver.
  - set_solver.
Qed.

(** The pointer [h] attach starts from: the last slot in use, if any. *)
Lemma attach_tail r l s :
  chain r l -> slots r !! head r = Some s ->
  (if h_handler s =? 0 then mret None
   else t ← find_tail MAX_HANDLERS (head r); mret (Some t)) r = Ok (last_ptr None l, r).
Proof.
  intros Hc Hs. pose proof (chain_empty _ _ Hc _ Hs) as E.
  destruct (Z.eqb_spec (h_handler s) 0) as [Z0|Z0].
  - apply E in Z0. by subst.
  - destruct (tail_of_head _ _ Hc) as (t & Ht & ->); [tauto|].
    by rewrite (bind_ok _ _ _ _ _ Ht).
Qed.

(** The state of a row that attach can extend: the invariant, and an empty
    list must be headed by slot 0. *)
Definition attachable (r : row) (l : list nat) : Prop := chain r l /\ (l = [] -> head r = 0%nat).

(** Attach appends the handler to the list of its vector, in the first free
    slot, unless every slot is in use. *)
Lemma attach_row_ok num f r l :
  attachable r l -> f <> 0 ->
  if decide (length l = MAX_HANDLERS) then attach_row num f r = Ok (tt, r)
  else exists n r', attach_row num f r = Ok (tt, r') /\ (n ∉ l) /\ attachable r' (l ++ [n]) /\
       handlers_in r' (l ++ [n]) = handlers_in r l ++ [f].
Proof.
  intros [Hc Hemp] Hf. destruct (chain_lookup _ _ Hc (head r)) as [s0 Hs0]; [apply Hc|].
  pose proof (chain_empty _ _ Hc _ Hs0) as E. pose proof (free_slot_none _ _ Hc) as HN.
  unfold attach_row. rewrite (bind_ok _ _ r (head r) r) by done.
  rewrite (bind_ok _ _ _ _ _ (slot_ok _ _ _ Hs0)), (bind_ok _ _ _ _ _ (attach_tail _ _ _ Hc Hs0)).
  rewrite (bind_ok _ _ r (find_free (slots r) 0) r) by done.
  destruct (find_free (slots r) 0) as [n|] eqn:Hfree;
    [rewrite decide_False by (intros X; by apply HN in X)
    | by rewrite decide_True by (by apply HN)].
  destruct (free_slot_ok _ _ _ Hc Hfree) as (Hn & Hnl & (sn & Hsn & Hn0) & Hbelow).
  rewrite (bind_ok _ _ _ _ _ (set_slot_ok _ _ _ _ Hsn)).
  set (sn1 := Handler f num (h_index sn) None (h_prev sn)).
  assert (H1 : <[n := sn1]> (slots r) !! n = Some sn1).
  { apply list_lookup_insert_eq. by eapply lookup_lt_Some. }
  exists n. destruct (last_ptr None l) as [t|] eqn:Hlast.
  - assert (Hne : l <> []) by by intros ->.
    assert (Htl : t ∈ l) by by eapply last_ptr_in.
    assert (Hnt : n <> t) by (by intros ->).
    destruct (chain_lookup _ _ Hc t) as [st Hst]; [by apply Hc|].
    assert (Ht : forall x, <[n := x]> (slots r) !! t = Some st).
    { intros x. by rewrite list_lookup_insert_ne. }
    rewrite (bind_ok _ _ _ _ _ (slot_ok (Row _ _) _ _ (Ht _))).
    rewrite (bind_ok _ _ _ _ _ (set_slot_ok (Row _ _) _ _ _ H1)). cbn [slots].
    rewrite list_insert_insert_eq, (set_slot_ok (Row _ _) _ _ _ (Ht _)).
    eexists. split; [reflexivity|]. split; [done|].
    destruct (attach_behind r l n t sn st num f (u32 (h_index st + 1))) as [C1 C2]; try done.
    split; [|exact C2]. split; [exact C1|]. by intros [_ ?]%app_nil.
  - assert (l = []) as ->.
    { destruct l as [|x l' _] using rev_ind; [done|]. by rewrite last_ptr_snoc in Hlast. }
    specialize (Hemp eq_refl). assert (n = head r) as ->.
    { rewrite Hemp. destruct n as [|n]; [done|]. exfalso. apply (Hbelow 0%nat); [lia|].
      rewrite <- Hemp, (chain_handler _ _ _ Hs0). by apply E. }
    rewrite (set_slot_ok (Row _ _) _ _ _ H1). cbn [slots]. rewrite list_insert_insert_eq.
    eexists. split; [reflexivity|]. split; [done|].
    destruct (attach_only r sn num f 1 Hc Hf Hsn) as [C1 C2]. split; [split|]; done.
Qed.

(** ** detach *)

Lemma row_eta r : Row (slots r) (head r) = r.
Proof. by destruct r. Qed.

Lemma remove_first_app f hs1 hs2 :
  f ∉ hs1 -> remove_first f (hs1 ++ f :: hs2) = hs1 ++ hs2.
Proof.
  induction hs1 as [|x hs1 IH]; simpl; intros H.
  - by rewrite Z.eqb_refl.
  - destruct (Z.eqb_spec x f); [set_solver|]. by rewrite IH by set_solver.
Qed.

Lemma remove_first_none f hs : f ∉ hs -> remove_first f hs = hs.
Proof.
  induction hs as [|x hs IH]; simpl; intros H; [done|].
  destruct (Z.eqb_spec x f); [set_solver|]. by rewrite IH by set_solver.
Qed.

Lemma remove_last_app f hs1 hs2 :
  f ∉ hs2 -> remove_last f (hs1 ++ f :: hs2) = hs1 ++ hs2.
Proof.
  intros H. unfold remove_last. rewrite rev_app_distr. simpl. rewrite <- app_assoc. simpl.
  rewrite remove_first_app; [by rewrite rev_app_distr, !rev_involutive|].
  by rewrite list_elem_of_In, <- in_rev, <- list_elem_of_In.
Qed.

Lemma remove_last_none f hs : f ∉ hs -> remove_last f hs = hs.
Proof.
  intros H. unfold remove_last. rewrite remove_first_none; [apply rev_involutive|].
  rewrite list_elem_of_In, <- in_rev, <- list_elem_of_In. done.
Qed.

Lemma set_slot_alter r i f :
  (i < length (slots r))%nat -> set_slot i f r = Ok (tt, Row (alter f i (slots r)) (head r)).
Proof.
  intros [s Hs]%lookup_lt_is_Some. rewrite (set_slot_ok _ _ _ _ Hs). do 3 f_equal.
  apply list_eq. intros j. destruct (decide (j = i)) as [->|Hne].
  - rewrite list_lookup_insert_eq by (by eapply lookup_lt_Some).
    by rewrite list_lookup_alter_eq, Hs.
  - by rewrite list_lookup_insert_ne, list_lookup_alter_ne.
Qed.

Section alters.
Context (sl : list handler_t) (i j : nat).

Ltac view :=
  destruct (decide (j = i)) as [->|Hne];
  [rewrite list_lookup_alter_eq; destruct (sl !! i) as [s|] eqn:E; simpl;
     try done; apply lookup_ge_None in E; lia
  |by rewrite list_lookup_alter_ne].

Lemma next_of_set_next n : (i < length sl)%nat ->
  next_of (alter (set_next n) i sl) j = if decide (j = i) then n else next_of sl j.
Proof. intros H. unfold next_of. view. Qed.
Lemma prev_of_set_next n : prev_of (alter (set_next n) i sl) j = prev_of sl j.
Proof. unfold prev_of. view. Qed.
Lemma handler_of_set_next n : handler_of (alter (set_next n) i sl) j = handler_of sl j.
Proof. unfold handler_of. view. Qed.
Lemma next_of_set_prev p : next_of (alter (set_prev p) i sl) j = next_of sl j.
Proof. unfold next_of. view. Qed.
Lemma prev_of_set_prev p : (i < length sl)%nat ->
  prev_of (alter (set_prev p) i sl) j = if decide (j = i) then p else prev_of sl j.
Proof. intros H. unfold prev_of. view. Qed.
Lemma handler_of_set_prev p : handler_of (alter (set_prev p) i sl) j = handler_of sl j.
Proof. unfold handler_of. view. Qed.
Lemma next_of_set_handler f : next_of (alter (set_handler f) i sl) j = next_of sl j.
Proof. unfold next_of. view. Qed.
Lemma prev_of_set_handler f : prev_of (alter (set_handler f) i sl) j = prev_of sl j.
Proof. unfold prev_of. view. Qed.
Lemma handler_of_set_handler f : (i < length sl)%nat ->
  handler_of (alter (set_handler f) i sl) j = if decide (j = i) then f else handler_of sl j.
Proof. intros H. unfold handler_of. view. Qed.
End alters.

(** The slots after unlinking slot [i], which lies between [p] and [n]. *)
Definition unlinked (sl : list handler_t) (i : nat) (p n : option nat) : list handler_t :=
  let sl1 := match p with Some p' => alter (set_next n) p' sl | None => sl end in
  let sl2 := match n with Some n' => alter (set_prev p) n' sl1 | None => sl1 end in
  alter (set_handler 0) i sl2.

Section unlinked.
Context (sl : list handler_t) (i : nat) (p n : option nat) (Hi : (i < length sl)%nat)
        (Hp : forall x, p = Some x -> (x < length sl)%nat)
        (Hn : forall x, n = Some x -> (x < length sl)%nat).

Lemma unlinked_length : length (unlinked sl i p n) = length sl.
Proof. unfold unlinked. destruct p, n; by rewrite !length_alter. Qed.

Lemma unlinked_handler j :
  handler_of (unlinked sl i p n) j = if decide (j = i) then 0 else handler_of sl j.
Proof.
  unfold unlinked. destruct p, n; rewrite handler_of_set_handler by (by rewrite ?length_alter);
    by rewrite ?handler_of_set_prev, ?handler_of_set_next.
Qed.

Lemma unlinked_next j :
  next_of (unlinked sl i p n) j = if decide (p = Some j) then n else next_of sl j.
Proof.
  unfold unlinked. destruct p as [p'|], n as [n'|]; rewrite next_of_set_handler, ?next_of_set_prev;
    rewrite ?next_of_set_next by auto; try done; repeat case_decide; congruence.
Qed.

Lemma unlinked_prev j :
  prev_of (unlinked sl i p n) j = if decide (n = Some j) then p else prev_of sl j.
Proof.
  unfold unlinked. destruct p as [p'|], n as [n'|]; rewrite prev_of_set_handler;
    rewrite ?prev_of_set_prev, ?prev_of_set_next by (rewrite ?length_alter; auto);
    try done; repeat case_decide; congruence.
Qed.
End unlinked.

(** unlink runs, and its effect on the row. *)
Lemma unlink_run r l1 i l2 :
  chain r (l1 ++ i :: l2) ->
  unlink i r = Ok (tt, Row (unlinked (slots r) i (last_ptr None l1) (first_ptr l2 None))
                         (match l1, l2 with [], n :: _ => n | _, _ => head r end)).
Proof.
  intros Hc. assert (Hr : forall x, x ∈ l1 ++ i :: l2 -> (x < length (slots r))%nat).
  { intros x Hx. rewrite (chain_len _ _ Hc). by apply (chain_range _ _ Hc). }
  pose proof (chain_nodup _ _ Hc) as Hnd. apply NoDup_app in Hnd as (_ & Hd & Hnd).
  apply NoDup_cons in Hnd as [Hi2 _].
  assert (exists s, slots r !! i = Some s) as [s Hs] by (apply lookup_lt_is_Some, Hr; set_solver).
  pose proof (dseg_next _ _ _ _ _ _ _ (chain_seg _ _ Hc)) as Hn.
  pose proof (dseg_prev _ _ _ _ _ _ _ (chain_seg _ _ Hc)) as Hp.
  rewrite (chain_next _ _ _ Hs) in Hn. rewrite (chain_prev _ _ _ Hs) in Hp.
  unfold unlink, unlinked. rewrite (bind_ok _ _ _ _ _ (slot_ok _ _ _ Hs)), Hp, Hn.
  assert (HP : forall p', last_ptr None l1 = Some p' -> p' ∈ l1).
  { intros p' E. eapply last_ptr_in; [done|]. by intros ->. }
  assert (HN : forall n', first_ptr l2 None = Some n' -> n' ∈ l2) by apply first_ptr_in.
  set (sl1 := match last_ptr None l1 with
              | Some p' => alter (set_next (first_ptr l2 None)) p' (slots r)
              | None => slots r end).
  assert (Hl1 : length sl1 = length (slots r)).
  { unfold sl1. destruct (last_ptr None l1); by rewrite ?length_alter. }
  assert (Hs1 : sl1 !! i = Some s).
  { unfold sl1. destruct (last_ptr None l1) as [p'|]; [|done].
    rewrite list_lookup_alter_ne; [done|]. intros <-. set_solver. }
  rewrite (bind_ok _ _ r tt (Row sl1 (head r))).
  2: { unfold sl1. destruct (last_ptr None l1) as [p'|]; [|by rewrite row_eta].
       apply set_slot_alter, Hr. set_solver. }
  rewrite (bind_ok _ _ _ _ _ (slot_ok (Row _ _) _ _ Hs1)), Hn, Hp.
  set (sl2 := match first_ptr l2 None with
              | Some n' => alter (set_prev (last_ptr None l1)) n' sl1
              | None => sl1 end).
  set (h := match l1, l2 with [], n :: _ => n | _, _ => head r end).
  assert (Hl2 : length sl2 = length (slots r)).
  { unfold sl2. destruct (first_ptr l2 None); by rewrite ?length_alter. }
  rewrite (bind_ok _ _ _ tt (Row sl2 h)).
  2: { unfold sl2, h. destruct l2 as [|n l2]; simpl; [by destruct l1|].
       assert (Hln : (n < length (slots (Row sl1 (head r))))%nat).
       { cbn [slots]. rewrite Hl1. apply Hr. set_solver. }
       rewrite (bind_ok _ _ _ _ _ (set_slot_alter (Row _ _) _ _ Hln)).
       destruct l1 as [|x l1 _] using rev_ind; simpl; [done|].
       rewrite last_ptr_snoc. by destruct l1. }
  apply (set_slot_alter (Row _ _)). cbn [slots]. rewrite Hl2. apply Hr. set_solver.
Qed.

(** Unlinking a slot removes it from the list and keeps the invariant. *)
Lemma unlink_ok r l1 i l2 :
  chain r (l1 ++ i :: l2) ->
  exists r', unlink i r = Ok (tt, r') /\ chain r' (l1 ++ l2) /\
    handlers_in r' (l1 ++ l2) = handlers_in r l1 ++ handlers_in r l2 /\
    head r' = match l1, l2 with [], n :: _ => n | _, _ => head r end.
Proof.
  intros Hc. eexists. split; [by apply unlink_run|]. cbn [head].
  assert (Hr : forall x, x ∈ l1 ++ i :: l2 -> (x < length (slots r))%nat).
  { intros x Hx. rewrite (chain_len _ _ Hc). by apply (chain_range _ _ Hc). }
  pose proof (chain_nodup _ _ Hc) as Hnd. assert (Hi : i ∉ l1 ++ l2).
  { apply NoDup_app in Hnd as (_ & Hd & Hnd). apply NoDup_cons in Hnd as [? _]. set_solver. }
  assert (Hi' : (i < length (slots r))%nat) by (apply Hr; set_solver).
  assert (HP : forall x, last_ptr None l1 = Some x -> (x < length (slots r))%nat).
  { intros x E. apply Hr. apply elem_of_app. left. eapply last_ptr_in; [done|]. by intros ->. }
  assert (HN : forall x, first_ptr l2 None = Some x -> (x < length (slots r))%nat).
  { intros x E. apply Hr. apply first_ptr_in in E. set_solver. }
  pose proof (unlinked_handler _ i (last_ptr None l1) (first_ptr l2 None) Hi' HP HN) as Vh.
  split_and!; [| |done].
  - split; cbn [slots head].
    + rewrite unlinked_length by done. apply Hc.
    + apply NoDup_app in Hnd as (H1 & H2 & H3). apply NoDup_cons in H3 as [_ H3].
      apply NoDup_app. split_and!; [done | set_solver | done].
    + eapply dseg_remove; [exact Hnd | apply Hc | |]; intros x Hx.
      * rewrite unlinked_next by done. by rewrite (dseg_next _ _ _ _ _ _ _ (chain_seg _ _ Hc)).
      * rewrite unlinked_prev by done. by rewrite (dseg_prev _ _ _ _ _ _ _ (chain_seg _ _ Hc)).
    + pose proof (chain_head _ _ Hc) as F. destruct l1, l2; simpl in *; congruence.
    + pose proof (chain_head_len _ _ Hc). destruct l1, l2; simpl; try done.
      rewrite <- (chain_len _ _ Hc). apply Hr. set_solver.
    + intros x Hx. rewrite Vh. pose proof (chain_used _ _ Hc _ Hx) as U.
      destruct (decide (x = i)) as [->|Hne]; [tauto|]. rewrite <- U. set_solver.
    + intros x Hx. rewrite <- (chain_len _ _ Hc). apply Hr. set_solver.
  - unfold handlers_in. rewrite <- map_app. apply (handlers_in_ext r (Row _ _)).
    intros x Hx. cbn [slots]. rewrite Vh. by rewrite decide_False by (by intros ->).
Qed.

(** The search from the tail: [l2] has been passed over without a match. *)
Lemma detach_loop_ok f r fuel l1 i l2 :
  chain r (l1 ++ i :: l2) -> (length l1 <= fuel)%nat -> f ∉ handlers_in r l2 ->
  exists r' l', detach_loop fuel f i r = Ok (tt, r') /\ chain r' l' /\
    handlers_in r' l' = remove_last f (handlers_in r (l1 ++ i :: l2)) /\
    (f ∉ handlers_in r (l1 ++ i :: l2) -> r' = r).
Proof.
  revert l1 i l2. induction fuel as [|fuel IH]; intros l1 i l2 Hc Hlen Hf.
  all: destruct (chain_lookup _ _ Hc i) as [s Hs]; [apply (chain_range _ _ Hc); set_solver|].
  all: pose proof (dseg_prev _ _ _ _ _ _ _ (chain_seg _ _ Hc)) as Hp;
       rewrite (chain_prev _ _ _ Hs) in Hp.
  all: assert (HE : handlers_in r (l1 ++ i :: l2) = handlers_in r l1 ++ h_handler s :: handlers_in r l2)
         by (unfold handlers_in; rewrite map_app; simpl; by rewrite (chain_handler _ _ _ Hs)).
  all: cbn [detach_loop]; rewrite (bind_ok _ _ _ _ _ (slot_ok _ _ _ Hs));
       destruct (Z.eqb_spec (h_handler s) f) as [E|E].
  1, 3: destruct (unlink_ok _ _ _ _ Hc) as (r' & Hu & Hc' & Hh & _);
        exists r', (l1 ++ l2); split_and!; [done | done | | intros X];
        [rewrite Hh, HE, E; by rewrite remove_last_app
        | exfalso; apply X; rewrite HE, E; set_solver].
  all: rewrite Hp; destruct l1 as [|x l1 _] using rev_ind; simpl;
       [exists r, (i :: l2); split_and!; try done;
        rewrite remove_last_none; [done|]; simpl in HE; rewrite HE; set_solver|].
  all: rewrite last_ptr_snoc; rewrite length_app in Hlen; simpl in Hlen; try lia.
  rewrite <- app_assoc in *. simpl in *. apply IH; [done | lia |].
  unfold handlers_in; simpl. fold (handlers_in r l2). rewrite (chain_handler _ _ _ Hs). set_solver.
Qed.

(** Detach removes the most recent occurrence of the handler, if there is one. *)
Lemma detach_row_ok f r l :
  chain r l ->
  exists r' l', detach_row f r = Ok (tt, r') /\ chain r' l' /\
    handlers_in r' l' = remove_last f (handlers_in r l) /\
    (f ∉ handlers_in r l -> r' = r).
Proof.
  intros Hc. destruct (chain_lookup _ _ Hc (head r)) as [s Hs]; [apply Hc|].
  pose proof (chain_empty _ _ Hc _ Hs) as E. unfold detach_row.
  rewrite (bind_ok _ _ r (head r) r) by done. rewrite (bind_ok _ _ _ _ _ (slot_ok _ _ _ Hs)).
  destruct (Z.eqb_spec (h_handler s) 0) as [Z0|Z0].
  - apply E in Z0. subst. by exists r, [].
  - destruct (tail_of_head _ _ Hc) as (t & Ht & Hlast); [tauto|].
    rewrite (bind_ok _ _ _ _ _ Ht). pose proof (chain_length _ _ Hc) as L.
    destruct l as [|x l _] using rev_ind; [tauto|]. rewrite last_ptr_snoc in Hlast.
    injection Hlast as ->. rewrite length_app in L. simpl in L.
    apply detach_loop_ok; [done | lia | set_solver].
Qed.

(** ** The table *)

Lemma on_row_ok {A} num (c : M row A) t r a r' :
  t !! Z.to_nat (u8 num) = Some r -> c r = Ok (a, r') ->
  on_row num c t = Ok (a, <[Z.to_nat (u8 num) := r']> t).
Proof. intros H1 H2. unfold on_row. by rewrite H1, H2. Qed.

(** A table whose vector [num] calls the handlers [hs], in that order. *)
Definition vector_calls (t : table) (num : Z) (hs : list Z) : Prop :=
  exists r, t !! Z.to_nat (u8 num) = Some r /\ holds_handlers r hs.

(** What detach needs of the vector to leave it fit for attach: the head slot
    is slot 0 when the list becomes empty. *)
Definition vector_ready (t : table) (num : Z) (hs : list Z) : Prop :=
  exists r l, t !! Z.to_nat (u8 num) = Some r /\ attachable r l /\ handlers_in r l = hs.

Lemma ready_calls t num hs : vector_ready t num hs -> vector_calls t num hs.
Proof. intros (r & l & Hr & [Hc _] & Hh). exists r. split; [done|]. by exists l. Qed.

Lemma handlers_in_length r l : length (handlers_in r l) = length l.
Proof. apply length_map. Qed.

(** Vectors other than [num]. *)
Definition same_elsewhere (num : Z) (t t' : table) : Prop :=
  length t' = length t /\ forall i, i <> Z.to_nat (u8 num) -> t' !! i = t !! i.

Lemma same_elsewhere_insert num t r : same_elsewhere num t (<[Z.to_nat (u8 num) := r]> t).
Proof. split; [apply length_insert|]. intros i Hi. apply list_lookup_insert_ne; done. Qed.

Lemma vector_insert num t r r' hs :
  t !! Z.to_nat (u8 num) = Some r -> holds_handlers r' hs ->
  vector_calls (<[Z.to_nat (u8 num) := r']> t) num hs.
Proof.
  intros Hr Hh. exists r'. split; [|done]. apply list_lookup_insert_eq. by eapply lookup_lt_Some.
Qed.

Lemma attach_table num f t hs :
  vector_ready t num hs -> f <> 0 ->
  exists t', attach_interrupt_handler num f t = Ok (tt, t') /\ same_elsewhere num t t' /\
    vector_ready t' num (if decide (length hs = MAX_HANDLERS) then hs else hs ++ [f]).
Proof.
  intros (r & l & Hr & Ha & <-) Hf. rewrite handlers_in_length.
  pose proof (attach_row_ok (u8 num) f r l Ha Hf) as H. unfold attach_interrupt_handler.
  assert (Hlt : (Z.to_nat (u8 num) < length t)%nat) by by eapply lookup_lt_Some.
  destruct (decide (length l = MAX_HANDLERS)).
  - rewrite (on_row_ok _ _ _ _ _ _ Hr H). eexists.
    split_and!; [done | apply same_elsewhere_insert |].
    exists r, l. split; [by apply list_lookup_insert_eq | done].
  - destruct H as (n' & r' & H & _ & Ha' & Hh). rewrite (on_row_ok _ _ _ _ _ _ Hr H). eexists.
    split_and!; [done | apply same_elsewhere_insert |].
    exists r', (l ++ [n']). split; [by apply list_lookup_insert_eq | done].
Qed.

Lemma init_vector_ready num : vector_ready init_table num [].
Proof.
  exists init_row, []. split_and!; [|split; [apply init_row_chain | done] | done].
  apply lookup_replicate_2. pose proof (u8_range num).
  apply Nat2Z.inj_lt. rewrite Z2Nat.id by lia. change (Z.of_nat IDT_NUM_ENTRIES) with 256. lia.
Qed.

(** ** Properties *)

(** C23: attaching a handler to a vector appends it to the list of handlers
    that the vector calls, unless all 50 slots are taken, in which case the
    list is unchanged; no other vector changes. *)
Theorem attach_appends num f t hs :
  vector_ready t num hs -> f <> 0 ->
  exists t', attach_interrupt_handler num f t = Ok (tt, t') /\ same_elsewhere num t t' /\
    vector_calls t' num (if decide (length hs = MAX_HANDLERS) then hs else hs ++ [f]).
Proof.
  intros Hv Hf. destruct (attach_table num f t hs Hv Hf) as (t' & H1 & H2 & H3).
  exists t'. eauto using ready_calls.
Qed.

Lemma attach_appends_witness :
  exists t', attach_interrupt_handler 33 7 init_table = Ok (tt, t') /\
    same_elsewhere 33 init_table t' /\ vector_calls t' 33 [7].
Proof.
  apply (attach_appends 33 7 init_table []); [apply init_vector_ready | done].
Defined.

(** detaching a handler removes its most recently attached occurrence
    from the list the vector calls and keeps the others in order; a handler
    that is not attached leaves the table as it is. *)
Theorem detach_removes num f t hs :
  vector_calls t num hs ->
  exists t', detach_interrupt_handler num f t = Ok (tt, t') /\ same_elsewhere num t t' /\
    vector_calls t' num (remove_last f hs) /\ (f ∉ hs -> t' = t).
Proof.
  intros (r & Hr & l & Hc & <-). destruct (detach_row_ok f r l Hc) as (r' & l' & H & Hc' & Hh & Hsame).
  exists (<[Z.to_nat (u8 num) := r']> t).
  split_and!; [by apply (on_row_ok _ _ _ r) | apply same_elsewhere_insert | |].
  - eapply vector_insert; [done|]. by exists l'.
  - intros Hf. rewrite Hsame by done. by apply list_insert_id.
Qed.

Lemma detach_removes_witness :
  exists t', detach_interrupt_handler 33 7 init_table = Ok (tt, t') /\
    same_elsewhere 33 init_table t' /\ vector_calls t' 33 [] /\ (7 ∉ ([] : list Z) -> t' = init_table).
Proof.
  apply (detach_removes 33 7 init_table []). apply ready_calls, init_vector_ready.
Defined.

(** The handlers attached from start-up on, in order. *)
Fixpoint attach_all (num : Z) (fs : list Z) : M table unit :=
  match fs with
  | [] => mret tt
  | f :: fs' => attach_interrupt_handler num f;; attach_all num fs'
  end.

Lemma attach_all_ready num fs t hs :
  vector_ready t num hs -> Forall (fun f => f <> 0) fs ->
  (length hs + length fs <= MAX_HANDLERS)%nat ->
  exists t', attach_all num fs t = Ok (tt, t') /\ vector_ready t' num (hs ++ fs).
Proof.
  revert t hs. induction fs as [|f fs IH]; intros t hs Hv Hf Hlen.
  - exists t. by rewrite app_nil_r.
  - apply Forall_cons in Hf as [Hf Hfs]. cbn [length] in Hlen.
    destruct (attach_table num f t hs Hv Hf) as (t1 & H1 & _ & H2).
    rewrite decide_False in H2 by lia.
    destruct (IH t1 (hs ++ [f]) H2 Hfs) as (t2 & H3 & H4).
    { rewrite length_app. cbn [length]. lia. }
    exists t2. cbn [attach_all]. rewrite (bind_ok _ _ _ _ _ H1). split; [done|].
    by rewrite <- app_assoc in H4.
Qed.

Lemma insert_run {A} num (c : M row A) t r a :
  (Z.to_nat (u8 num) < length t)%nat -> c r = Ok (a, r) ->
  on_row num c (<[Z.to_nat (u8 num) := r]> t) = Ok (a, <[Z.to_nat (u8 num) := r]> t).
Proof.
  intros Hlt H. erewrite on_row_ok; [| by apply list_lookup_insert_eq | exact H].
  do 2 f_equal. apply list_insert_insert_eq.
Qed.

(** when the list of a vector is empty but its head index does not name
    the first free slot, which is the state detach leaves after the head was
    removed before the other handlers, a handler attached next is stored in a
    slot the head does not reach: the vector still has no handler. *)
Theorem attach_lost num f t r s n :
  t !! Z.to_nat (u8 num) = Some r -> slots r !! head r = Some s -> h_handler s = 0 ->
  find_free (slots r) 0 = Some n -> n <> head r ->
  exists t', attach_interrupt_handler num f t = Ok (tt, t') /\
    get_interrupt_handler num t' = Ok (None, t').
Proof.
  intros Ht Hs H0 Hn Hne. pose proof (find_free_Some _ _ _ Hn) as (_ & (sn & Hsn & _) & _).
  rewrite Nat.sub_0_r in Hsn.
  set (r' := Row (<[n := Handler f (u8 num) 1 None None]> (slots r)) (head r)).
  assert (Ha : attach_row (u8 num) f r = Ok (tt, r')).
  { unfold attach_row. rewrite (bind_ok _ _ r (head r) r) by done.
    rewrite (bind_ok _ _ _ _ _ (slot_ok _ _ _ Hs)), H0, Z.eqb_refl, (bind_ok _ _ r None r) by done.
    rewrite (bind_ok _ _ r (Some n) r) by (unfold gets; by rewrite Hn).
    rewrite (bind_ok _ _ _ _ _ (set_slot_ok _ _ _ _ Hsn)).
    erewrite set_slot_ok by (cbn [slots]; apply list_lookup_insert_eq; by eapply lookup_lt_Some).
    cbn [slots]. by rewrite list_insert_insert_eq. }
  exists (<[Z.to_nat (u8 num) := r']> t). split; [by eapply on_row_ok|].
  apply insert_run; [by eapply lookup_lt_Some|]. unfold get_row.
  rewrite (bind_ok _ _ r' (head r) r') by done.
  rewrite (bind_ok _ _ r' s r'); [by rewrite H0|].
  apply slot_ok. unfold r'; cbn [slots]. by rewrite list_lookup_insert_ne.
Qed.

(** Two handlers attached, then detached in the order of their attachment. *)
Definition emptied (num a b : Z) : M table unit :=
  attach_interrupt_handler num a;; attach_interrupt_handler num b;;
  detach_interrupt_handler num a;; detach_interrupt_handler num b.

Lemma attach_lost_witness :
  exists t, emptied 33 1 2 init_table = Ok (tt, t) /\
  exists t', attach_interrupt_handler 33 3 t = Ok (tt, t') /\
    get_interrupt_handler 33 t' = Ok (None, t').
Proof.
  eexists. split; [vm_compute; reflexivity|].
  eapply (attach_lost 33 3 _ _ _ 0%nat); vm_compute; try reflexivity. discriminate.
Defined.
