(* ===== verification/Desc.v ===== *)
(** The descriptor tables of gdt.c and idt.c.

    Table entries are records with the fields of the packed C structs; their
    bytes in memory are [gdt_bytes] and [idt_bytes]. What the processor makes
    of those bytes (the segment descriptor and gate formats of the i386) is
    given by [segment_*] and [gate_*] on the 64-bit descriptor, independently of
    the way the C code splits its arguments. The addresses of the tables, of
    the TSS and of the assembly stubs are link-time parameters. *)

From S2P Require Import Prelude.

(** ** gdt.h *)

Definition GDT_NUM_ENTRIES : nat := 6.

Definition GDT_ACCESS_RW : Z := Z.shiftl 1 1.
Definition GDT_ACCESS_EXECUTE : Z := Z.shiftl 1 3.
Definition GDT_ACCESS_ALWAYS1 : Z := Z.shiftl 1 4.
Definition GDT_ACCESS_RING0 : Z := Z.shiftl 0 5.
Definition GDT_ACCESS_RING3 : Z := Z.shiftl 3 5.
Definition GDT_ACCESS_PRESENT : Z := Z.shiftl 1 7.
Definition GDT_FLAG_32BIT : Z := Z.shiftl 1 6.
Definition GDT_FLAG_GRANULARITY : Z := Z.shiftl 1 7.

Inductive gdt_index_t : Type :=
  | GDT_INDEX_NULL | GDT_INDEX_KCODE | GDT_INDEX_KDATA
  | GDT_INDEX_UCODE | GDT_INDEX_UDATA | GDT_INDEX_TSS.

Definition gdt_index (i : gdt_index_t) : nat :=
  match i with
  | GDT_INDEX_NULL => 0
  | GDT_INDEX_KCODE => 1
  | GDT_INDEX_KDATA => 2
  | GDT_INDEX_UCODE => 3
  | GDT_INDEX_UDATA => 4
  | GDT_INDEX_TSS => 5
  end.

Record gdt_entry_t : Type := GdtEntry {
  g_limit_low : Z;
  g_base_low : Z;
  g_base_middle : Z;
  g_access : Z;
  g_flags : Z;
  g_base_high : Z
}.

Record tss_entry_t : Type := Tss {
  prev_tss : Z; esp0 : Z; ss0 : Z; esp1 : Z; ss1 : Z; esp2 : Z; ss2 : Z;
  cr3 : Z; eip : Z; eflags : Z; eax : Z; ecx : Z; edx : Z; ebx : Z; esp : Z;
  ebp : Z; esi : Z; edi : Z; es : Z; cs : Z; ss : Z; ds : Z; fs : Z; gs : Z;
  ldt : Z; trap : Z; iomap_base : Z
}.

Definition SIZEOF_TSS : Z := 27 * 4.

(** memset(&tss_entry, 0, sizeof(tss_entry_t)) *)
Definition zero_tss : tss_entry_t :=
  Tss 0 0 0 0 0 0 0 0 0 0 0 0 0 0 0 0 0 0 0 0 0 0 0 0 0 0 0.

(** ** gdt.c *)

Definition ACCESS_KCODE : Z :=
  Z.lor (Z.lor (Z.lor (Z.lor GDT_ACCESS_PRESENT GDT_ACCESS_RING0) GDT_ACCESS_ALWAYS1)
    GDT_ACCESS_RW) GDT_ACCESS_EXECUTE.
Definition ACCESS_UCODE : Z :=
  Z.lor (Z.lor (Z.lor (Z.lor GDT_ACCESS_PRESENT GDT_ACCESS_RING3) GDT_ACCESS_ALWAYS1)
    GDT_ACCESS_RW) GDT_ACCESS_EXECUTE.
Definition ACCESS_KDATA : Z :=
  Z.lor (Z.lor (Z.lor GDT_ACCESS_PRESENT GDT_ACCESS_RING0) GDT_ACCESS_ALWAYS1) GDT_ACCESS_RW.
Definition ACCESS_UDATA : Z :=
  Z.lor (Z.lor (Z.lor GDT_ACCESS_PRESENT GDT_ACCESS_RING3) GDT_ACCESS_ALWAYS1) GDT_ACCESS_RW.
Definition GDT_FLAGS : Z := Z.lor GDT_FLAG_GRANULARITY GDT_FLAG_32BIT.

(** The descriptor pointer that lgdt and lidt load. *)
Record desc_ptr : Type := DescPtr { p_limit : Z; p_base : Z }.

Record gdt_state : Type := Gdt {
  gdt_entries : list gdt_entry_t;
  gdt_ptr : desc_ptr;
  tss_entry : tss_entry_t;
  gdtr : option desc_ptr;   (** what gdt_flush has loaded *)
  tr_loaded : bool          (** tss_flush has run *)
}.

Definition gdt_gate (base limit access flags : Z) : gdt_entry_t :=
  GdtEntry (u16 (Z.land limit 0xffff))
           (u16 (Z.land base 0xffff))
           (u8 (Z.land (Z.shiftr base 16) 0xff))
           (u8 access)
           (u8 (Z.lor (Z.land flags 0xf0) (Z.land (Z.shiftr limit 16) 0x0f)))
           (u8 (Z.land (Z.shiftr base 24) 0xff)).

Definition gdt_set_gate (index : gdt_index_t) (base limit access flags : Z) (g : gdt_state)
    : gdt_state :=
  Gdt (<[gdt_index index := gdt_gate base limit access flags]> (gdt_entries g))
      (gdt_ptr g) (tss_entry g) (gdtr g) (tr_loaded g).

Section gdt_addresses.
(** The addresses of [gdt_entries] and of [tss_entry]. *)
Context (gdt_base tss_base : Z).

Definition write_tss (index : gdt_index_t) (ss0 esp0 : Z) (g : gdt_state) : gdt_state :=
  let base := u32 tss_base in
  let limit := u32 (base + SIZEOF_TSS) in
  let g := gdt_set_gate index base limit 0xe9 0x00 g in
  let t := zero_tss in
  let t := Tss (prev_tss t) (u32 esp0) (u16 ss0) (esp1 t) (ss1 t) (esp2 t) (ss2 t) (cr3 t)
             (eip t) (eflags t) (eax t) (ecx t) (edx t) (ebx t) (esp t) (ebp t) (esi t) (edi t)
             0x13 0x0b 0x13 0x13 0x13 0x13 (ldt t) (trap t) (iomap_base t) in
  Gdt (gdt_entries g) (gdt_ptr g) t (gdtr g) (tr_loaded g).

Definition gdt_init (g : gdt_state) : gdt_state :=
  let ptr := DescPtr (u16 (8 * Z.of_nat GDT_NUM_ENTRIES - 1)) gdt_base in
  let g := Gdt (gdt_entries g) ptr (tss_entry g) (gdtr g) (tr_loaded g) in
  let g := gdt_set_gate GDT_INDEX_NULL 0 0 0 0 g in
  let g := gdt_set_gate GDT_INDEX_KCODE 0x00000000 0xffffffff ACCESS_KCODE GDT_FLAGS g in
  let g := gdt_set_gate GDT_INDEX_UCODE 0x00000000 0xffffffff ACCESS_UCODE GDT_FLAGS g in
  let g := gdt_set_gate GDT_INDEX_KDATA 0x00000000 0xffffffff ACCESS_KDATA GDT_FLAGS g in
  let g := gdt_set_gate GDT_INDEX_UDATA 0x00000000 0xffffffff ACCESS_UDATA GDT_FLAGS g in
  let g := write_tss GDT_INDEX_TSS 0x10 0x00 g in
  Gdt (gdt_entries g) (gdt_ptr g) (tss_entry g) (Some (gdt_ptr g)) true.
End gdt_addresses.

(** system.c: set_kernel_stack *)
Definition set_kernel_stack (stack : Z) (g : gdt_state) : gdt_state :=
  let t := tss_entry g in
  Gdt (gdt_entries g) (gdt_ptr g)
    (Tss (prev_tss t) (u32 stack) (ss0 t) (esp1 t) (ss1 t) (esp2 t) (ss2 t) (cr3 t)
       (eip t) (eflags t) (eax t) (ecx t) (edx t) (ebx t) (esp t) (ebp t) (esi t) (edi t)
       (es t) (cs t) (ss t) (ds t) (fs t) (gs t) (ldt t) (trap t) (iomap_base t))
    (gdtr g) (tr_loaded g).

(** ** idt.c *)

Definition IDT_FLAG_TYPE32INT : Z := Z.shiftl 0x0e 0.
Definition IDT_FLAG_RING0 : Z := Z.shiftl 0 5.
Definition IDT_FLAG_RING3 : Z := Z.shiftl 3 5.
Definition IDT_FLAG_PRESENT : Z := Z.shiftl 1 7.
Definition IDT_FLAGS_RING0 : Z := Z.lor (Z.lor IDT_FLAG_PRESENT IDT_FLAG_RING0) IDT_FLAG_TYPE32INT.
Definition IDT_FLAGS_RING3 : Z := Z.lor (Z.lor IDT_FLAG_PRESENT IDT_FLAG_RING3) IDT_FLAG_TYPE32INT.
Definition KCODE_SEL : Z := 0x08.
Definition SYSCALL_VECTOR : Z := 0x80.
Definition IDT_ENTRIES : nat := 256.

Record idt_entry_t : Type := IdtEntry {
  i_base_low : Z;
  i_selector : Z;
  i_zero : Z;
  i_flags : Z;
  i_base_high : Z
}.

Definition zero_gate : idt_entry_t := IdtEntry 0 0 0 0 0.

Record idt_state : Type := Idt {
  idt_entries : list idt_entry_t;
  idt_ptr : desc_ptr;
  idtr : option desc_ptr   (** what idt_flush has loaded *)
}.

Definition idt_gate (callback selector flags : Z) : idt_entry_t :=
  let base := u32 callback in
  IdtEntry (u16 (Z.land base 0xffff)) (u16 selector) 0 (u8 flags)
           (u16 (Z.land (Z.shiftr base 16) 0xffff)).

Definition idt_set_gate (index callback selector flags : Z) (t : idt_state) : idt_state :=
  Idt (<[Z.to_nat (u8 index) := idt_gate callback selector flags]> (idt_entries t))
      (idt_ptr t) (idtr t).

(** The runs of idt_set_gate calls in idt_init and irq_gates: a kernel gate at
    [vector n] to [stub n], for each [n] in turn. *)
Definition set_gates (vector stub : Z -> Z) (ns : list Z) (t : idt_state) : idt_state :=
  fold_left (fun t n => idt_set_gate (vector n) (stub n) KCODE_SEL IDT_FLAGS_RING0 t) ns t.

Section idt_addresses.
(** The address of [idt_entries] and of the stubs isr0 .. isr31, isr128 of
    interrupts.s. *)
Context (idt_base : Z) (isr : Z -> Z).

(** The vectors idt_init installs at ring 0, in its order: 15 is not one. *)
Definition exception_vectors : list Z :=
  [0; 1; 2; 3; 4; 5; 6; 7; 8; 9; 10; 11; 12; 13; 14; 16; 17; 18; 19; 20; 21; 22; 23;
   24; 25; 26; 27; 28; 29; 30; 31].

Definition idt_init (t : idt_state) : idt_state :=
  let ptr := DescPtr (u16 (8 * Z.of_nat IDT_ENTRIES - 1)) idt_base in
  let t := Idt (replicate IDT_ENTRIES zero_gate) ptr (idtr t) in
  let t := set_gates (fun v => v) isr exception_vectors t in
  let t := idt_set_gate SYSCALL_VECTOR (isr 128) KCODE_SEL IDT_FLAGS_RING3 t in
  Idt (idt_entries t) (idt_ptr t) (Some (idt_ptr t)).
End idt_addresses.

(** pic.c: irq_gates, with the stubs irq0 .. irq15 *)
Definition irq_gates (irq_stub : Z -> Z) (t : idt_state) : idt_state :=
  set_gates (fun n => n + 0x20) irq_stub
    [0; 1; 2; 3; 4; 5; 6; 7; 8; 9; 10; 11; 12; 13; 14; 15] t.

(** ** The processor's view

    The eight bytes of a packed entry, lowest address first, and the fields
    of the 64-bit descriptor they form. *)

Definition bytes16 (z : Z) : list Z := [z mod 2 ^ 8; z / 2 ^ 8].

Definition gdt_bytes (e : gdt_entry_t) : list Z :=
  bytes16 (g_limit_low e) ++ bytes16 (g_base_low e) ++
  [g_base_middle e; g_access e; g_flags e; g_base_high e].

Definition idt_bytes (e : idt_entry_t) : list Z :=
  bytes16 (i_base_low e) ++ bytes16 (i_selector e) ++
  [i_zero e; i_flags e] ++ bytes16 (i_base_high e).

Fixpoint le_value (l : list Z) : Z :=
  match l with [] => 0 | b :: l' => b + 2 ^ 8 * le_value l' end.

(** Bits [lo, lo + n) of a descriptor. *)
Definition bits (d lo n : Z) : Z := d / 2 ^ lo mod 2 ^ n.

Definition segment_base (d : Z) : Z := bits d 16 24 + 2 ^ 24 * bits d 56 8.
Definition segment_limit (d : Z) : Z := bits d 0 16 + 2 ^ 16 * bits d 48 4.
Definition segment_access (d : Z) : Z := bits d 40 8.
Definition segment_dpl (d : Z) : Z := bits d 45 2.
Definition segment_code (d : Z) : bool := Z.testbit d 43.
Definition segment_writable (d : Z) : bool := Z.testbit d 41.
Definition segment_present (d : Z) : bool := Z.testbit d 47.
Definition segment_nibble (d : Z) : Z := bits d 52 4.

Definition gate_offset (d : Z) : Z := bits d 0 16 + 2 ^ 16 * bits d 48 16.
Definition gate_selector (d : Z) : Z := bits d 16 16.
Definition gate_type (d : Z) : Z := bits d 40 5.
Definition gate_dpl (d : Z) : Z := bits d 45 2.
Definition gate_present (d : Z) : bool := Z.testbit d 47.

(** ** Splitting and reassembling descriptors *)

Lemma land_f0 x : Z.land x 0xf0 = 16 * (x / 16 mod 16).
Proof.
  replace 0xf0 with (Z.shiftl (Z.ones 4) 4) by reflexivity.
  replace 16 with (2 ^ 4) by reflexivity.
  rewrite Z.mul_comm, <- Z.shiftl_mul_pow2, <- Z.shiftr_div_pow2, <- Z.land_ones by lia.
  apply Z.bits_inj'. intros i Hi. rewrite Z.land_spec.
  destruct (Z.ltb_spec i 4).
  - rewrite !Z.shiftl_spec_low by lia. by rewrite andb_false_r.
  - rewrite !Z.shiftl_spec, Z.land_spec, Z.shiftr_spec by lia. f_equal. f_equal. lia.
Qed.

Lemma lor_nibbles h l : 0 <= h -> 0 <= l < 16 -> Z.lor (16 * h) l = 16 * h + l.
Proof.
  intros Hh Hl. assert (E : Z.land (16 * h) l = 0).
  { replace (16 * h) with (Z.shiftl h 4) by (rewrite Z.shiftl_mul_pow2; lia).
    apply Z.bits_inj'. intros i Hi. rewrite Z.land_spec, Z.bits_0.
    destruct (Z.ltb_spec i 4).
    - by rewrite Z.shiftl_spec_low.
    - rewrite (Z.bits_above_log2 l); [by rewrite andb_false_r | lia |].
      destruct (Z.eq_dec l 0) as [->|]; [simpl; lia|]. apply Z.log2_lt_pow2; [lia|].
      assert (2 ^ 4 <= 2 ^ i) by (apply Z.pow_le_mono_r; lia). lia. }
  rewrite <- Z.lxor_lor by done. symmetry. by apply Z.add_nocarry_lxor.
Qed.

(** The fields of a GDT entry, without bit operations. *)
Lemma gdt_gate_fields base limit access flags :
  gdt_gate base limit access flags =
  GdtEntry (limit mod 2 ^ 16) (base mod 2 ^ 16) (base / 2 ^ 16 mod 2 ^ 8) (access mod 2 ^ 8)
    (16 * (flags / 16 mod 16) + limit / 2 ^ 16 mod 16) (base / 2 ^ 24 mod 2 ^ 8).
Proof.
  unfold gdt_gate, u16, u8. rewrite land_f0.
  replace 0x0f with (Z.ones 4) by reflexivity.
  replace 0xffff with (Z.ones 16) by reflexivity. replace 0xff with (Z.ones 8) by reflexivity.
  rewrite !Z.land_ones, !Z.shiftr_div_pow2, !Z.mod_mod by lia. f_equal.
  rewrite lor_nibbles; [|Z.div_mod_to_equations; lia..].
  apply Z.mod_small. Z.div_mod_to_equations. lia.
Qed.

(** The 64-bit descriptor of eight bytes laid out as a GDT entry. *)
Lemma gdt_descriptor e :
  le_value (gdt_bytes e) =
  g_limit_low e + 2 ^ 16 * g_base_low e + 2 ^ 32 * g_base_middle e
  + 2 ^ 40 * g_access e + 2 ^ 48 * g_flags e + 2 ^ 56 * g_base_high e.
Proof.
  unfold gdt_bytes, bytes16. cbn [le_value app]. Z.div_mod_to_equations. lia.
Qed.

Lemma idt_descriptor e :
  le_value (idt_bytes e) =
  i_base_low e + 2 ^ 16 * i_selector e + 2 ^ 32 * i_zero e
  + 2 ^ 40 * i_flags e + 2 ^ 48 * i_base_high e.
Proof.
  unfold idt_bytes, bytes16. cbn [le_value app]. Z.div_mod_to_equations. lia.
Qed.

Lemma idt_gate_fields callback selector flags :
  idt_gate callback selector flags =
  IdtEntry (callback mod 2 ^ 16) (selector mod 2 ^ 16) 0 (flags mod 2 ^ 8)
    (callback / 2 ^ 16 mod 2 ^ 16).
Proof.
  unfold idt_gate, u16, u8, u32. replace 0xffff with (Z.ones 16) by reflexivity.
  rewrite !Z.land_ones, !Z.shiftr_div_pow2, !Z.mod_mod by lia.
  f_equal; Z.div_mod_to_equations; lia.
Qed.

(** Taking a field out of a sum of fields. *)
Lemma bits_field lo x n y z :
  0 <= lo -> 0 <= n -> 0 <= x < 2 ^ lo -> 0 <= y < 2 ^ n ->
  bits (x + 2 ^ lo * (y + 2 ^ n * z)) lo n = y.
Proof.
  intros Hlo Hn Hx Hy. unfold bits.
  rewrite Z.mul_comm, Z.div_add by lia. rewrite (Z.div_small x) by done.
  rewrite Z.add_0_l, Z.mul_comm, Z.mod_add by lia. by apply Z.mod_small.
Qed.

(** [field lo n x y z]: bits [lo, lo + n) of the goal's number are [y]. *)
Ltac field lo n x y z :=
  match goal with
  | |- context [bits ?d lo n] =>
      replace d with (x + 2 ^ lo * (y + 2 ^ n * z)) by lia;
      rewrite bits_field by lia
  end.

Lemma gdt_segment base limit access flags :
  let d := le_value (gdt_bytes (gdt_gate base limit access flags)) in
  segment_base d = u32 base /\ segment_limit d = limit mod 2 ^ 20 /\
  segment_access d = u8 access /\ segment_nibble d = flags / 16 mod 16.
Proof.
  cbv zeta. rewrite gdt_descriptor, gdt_gate_fields. cbn [g_limit_low g_base_low g_base_middle g_access g_flags g_base_high].
  unfold segment_base, segment_limit, segment_access, segment_nibble, u32, u8.
  pose proof (Z.mod_pos_bound limit (2 ^ 16)). pose proof (Z.mod_pos_bound base (2 ^ 16)).
  pose proof (Z.mod_pos_bound (base / 2 ^ 16) (2 ^ 8)). pose proof (Z.mod_pos_bound access (2 ^ 8)).
  pose proof (Z.mod_pos_bound (flags / 16) 16). pose proof (Z.mod_pos_bound (limit / 2 ^ 16) 16).
  pose proof (Z.mod_pos_bound (base / 2 ^ 24) (2 ^ 8)).
  assert (EB : base mod 2 ^ 16 + 2 ^ 16 * (base / 2 ^ 16 mod 2 ^ 8) + 2 ^ 24 * (base / 2 ^ 24 mod 2 ^ 8)
               = base mod 2 ^ 32) by (Z.div_mod_to_equations; lia).
  assert (EL : limit mod 2 ^ 16 + 2 ^ 16 * (limit / 2 ^ 16 mod 16) = limit mod 2 ^ 20)
    by (Z.div_mod_to_equations; lia).
  set (l0 := limit mod 2 ^ 16) in *. set (b0 := base mod 2 ^ 16) in *.
  set (b1 := base / 2 ^ 16 mod 2 ^ 8) in *. set (a := access mod 2 ^ 8) in *.
  set (f := flags / 16 mod 16) in *. set (l1 := limit / 2 ^ 16 mod 16) in *.
  set (b2 := base / 2 ^ 24 mod 2 ^ 8) in *. clearbody l0 b0 b1 a f l1 b2.
  split_and!.
  - field 16 24 l0 (b0 + 2 ^ 16 * b1) (a + 2 ^ 8 * (16 * f + l1) + 2 ^ 16 * b2).
    field 56 8 (l0 + 2 ^ 16 * b0 + 2 ^ 32 * b1 + 2 ^ 40 * a + 2 ^ 48 * (16 * f + l1)) b2 0. lia.
  - field 0 16 0 l0 (b0 + 2 ^ 16 * b1 + 2 ^ 24 * a + 2 ^ 32 * (16 * f + l1) + 2 ^ 40 * b2).
    field 48 4 (l0 + 2 ^ 16 * b0 + 2 ^ 32 * b1 + 2 ^ 40 * a) l1 (f + 2 ^ 4 * b2). lia.
  - field 40 8 (l0 + 2 ^ 16 * b0 + 2 ^ 32 * b1) a ((16 * f + l1) + 2 ^ 8 * b2). done.
  - field 52 4 (l0 + 2 ^ 16 * b0 + 2 ^ 32 * b1 + 2 ^ 40 * a + 2 ^ 48 * l1) f b2. done.
Qed.

(** the eight bytes gdt_set_gate writes are read back by the processor as
    the base, the low 20 bits of the limit, the access byte and the high
    nibble of the flags it was given; the other entries are unchanged. *)
Theorem gdt_set_gate_roundtrip index base limit access flags g :
  length (gdt_entries g) = GDT_NUM_ENTRIES ->
  let g' := gdt_set_gate index base limit access flags g in
  (exists e, gdt_entries g' !! gdt_index index = Some e /\
    let d := le_value (gdt_bytes e) in
    segment_base d = u32 base /\ segment_limit d = limit mod 2 ^ 20 /\
    segment_access d = u8 access /\ segment_nibble d = flags / 16 mod 16) /\
  forall i, i <> gdt_index index -> gdt_entries g' !! i = gdt_entries g !! i.
Proof.
  intros H g'. split.
  - eexists. split; [|apply gdt_segment]. apply list_lookup_insert_eq.
    rewrite H. destruct index; unfold GDT_NUM_ENTRIES; simpl; lia.
  - intros i Hi. by apply list_lookup_insert_ne.
Qed.

Lemma gdt_set_gate_roundtrip_witness :
  let g := Gdt (replicate GDT_NUM_ENTRIES (GdtEntry 0 0 0 0 0 0)) (DescPtr 0 0) zero_tss None false in
  let g' := gdt_set_gate GDT_INDEX_UCODE 0x12345678 0xabcde 0xfa 0xc0 g in
  (exists e, gdt_entries g' !! 3%nat = Some e /\
    let d := le_value (gdt_bytes e) in
    segment_base d = u32 0x12345678 /\ segment_limit d = 0xabcde mod 2 ^ 20 /\
    segment_access d = u8 0xfa /\ segment_nibble d = 0xc0 / 16 mod 16) /\
  forall i, i <> 3%nat -> gdt_entries g' !! i = gdt_entries g !! i.
Proof. intros g. apply (gdt_set_gate_roundtrip GDT_INDEX_UCODE). reflexivity. Defined.

(** the eight bytes idt_set_gate writes are read back by the processor as
    a gate to the callback's address through the given selector, with the
    type, privilege level and present bit of the given flags. *)
Theorem idt_gate_roundtrip callback selector flags :
  let d := le_value (idt_bytes (idt_gate callback selector flags)) in
  gate_offset d = u32 callback /\ gate_selector d = u16 selector /\
  gate_type d = flags mod 2 ^ 5 /\ gate_dpl d = flags / 2 ^ 5 mod 2 ^ 2 /\
  gate_present d = Z.testbit flags 7.
Proof.
  cbv zeta. rewrite idt_descriptor, idt_gate_fields. cbn [i_base_low i_selector i_zero i_flags i_base_high].
  unfold gate_offset, gate_selector, gate_type, gate_dpl, gate_present, u32, u16.
  pose proof (Z.mod_pos_bound callback (2 ^ 16)). pose proof (Z.mod_pos_bound selector (2 ^ 16)).
  pose proof (Z.mod_pos_bound (callback / 2 ^ 16) (2 ^ 16)). pose proof (Z.mod_pos_bound flags (2 ^ 8)).
  assert (EB : callback mod 2 ^ 16 + 2 ^ 16 * (callback / 2 ^ 16 mod 2 ^ 16) = callback mod 2 ^ 32)
    by (Z.div_mod_to_equations; lia).
  assert (EF : flags mod 2 ^ 8 = flags mod 2 ^ 5 + 2 ^ 5 * (flags / 2 ^ 5 mod 2 ^ 2)
                 + 2 ^ 7 * (flags / 2 ^ 7 mod 2)) by (Z.div_mod_to_equations; lia).
  rewrite !Z.testbit_eqb by lia. change (_ / 2 ^ 47 mod 2) with (bits (callback mod 2 ^ 16 + 2 ^ 16 * (selector mod 2 ^ 16) + 2 ^ 32 * 0
    + 2 ^ 40 * (flags mod 2 ^ 8) + 2 ^ 48 * (callback / 2 ^ 16 mod 2 ^ 16)) 47 1). rewrite EF.
  pose proof (Z.mod_pos_bound flags (2 ^ 5)). pose proof (Z.mod_pos_bound (flags / 2 ^ 5) (2 ^ 2)).
  pose proof (Z.mod_pos_bound (flags / 2 ^ 7) 2).
  set (c0 := callback mod 2 ^ 16) in *. set (s := selector mod 2 ^ 16) in *.
  set (c1 := callback / 2 ^ 16 mod 2 ^ 16) in *. set (t := flags mod 2 ^ 5) in *.
  set (r := flags / 2 ^ 5 mod 2 ^ 2) in *. set (p := flags / 2 ^ 7 mod 2) in *.
  clearbody c0 s c1 t r p. set (f := t + 2 ^ 5 * r + 2 ^ 7 * p) in *.
  split_and!.
  - field 0 16 0 c0 (s + 2 ^ 24 * f + 2 ^ 32 * c1).
    field 48 16 (c0 + 2 ^ 16 * s + 2 ^ 40 * f) c1 0. lia.
  - field 16 16 c0 s (2 ^ 8 * f + 2 ^ 16 * c1). done.
  - field 40 5 (c0 + 2 ^ 16 * s) t (r + 2 ^ 2 * p + 2 ^ 3 * c1). done.
  - field 45 2 (c0 + 2 ^ 16 * s + 2 ^ 40 * t) r (p + 2 * c1). done.
  - field 47 1 (c0 + 2 ^ 16 * s + 2 ^ 40 * (t + 2 ^ 5 * r)) p c1. done.
Qed.

(** ** The tables after start-up *)

(** The descriptor a selector names in a table. *)
Definition selected (g : gdt_state) (sel : Z) : option Z :=
  le_value ∘ gdt_bytes <$> gdt_entries g !! Z.to_nat (sel / 8).

(** A present 4 GB segment based at 0, 32-bit with 4 KB granularity. *)
Definition flat_segment (code : bool) (dpl d : Z) : Prop :=
  segment_base d = 0 /\ segment_limit d = 0xfffff /\ segment_nibble d = 0xc /\
  segment_present d = true /\ segment_code d = code /\ segment_writable d = true /\
  segment_dpl d = dpl.

Lemma gdt_init_entries gdt_base tss_base g :
  length (gdt_entries g) = GDT_NUM_ENTRIES ->
  gdt_entries (gdt_init gdt_base tss_base g) =
  [ gdt_gate 0 0 0 0;
    gdt_gate 0 0xffffffff ACCESS_KCODE GDT_FLAGS; gdt_gate 0 0xffffffff ACCESS_KDATA GDT_FLAGS;
    gdt_gate 0 0xffffffff ACCESS_UCODE GDT_FLAGS; gdt_gate 0 0xffffffff ACCESS_UDATA GDT_FLAGS;
    gdt_gate (u32 tss_base) (u32 (u32 tss_base + SIZEOF_TSS)) 0xe9 0 ].
Proof.
  intros H. destruct (gdt_entries g) as [|e0 [|e1 [|e2 [|e3 [|e4 [|e5 [|]]]]]]] eqn:E; try discriminate.
  unfold gdt_init, write_tss, gdt_set_gate. cbn [gdt_entries gdt_index gdt_ptr tss_entry gdtr tr_loaded].
  rewrite E. reflexivity.
Qed.

(** after gdt_init the selectors that the kernel loads (0x08 and 0x10, and
    0x1b and 0x23 in the frames create_thread builds for user threads) name
    flat 4 GB segments: code and writable data, at privilege level 0 for the
    kernel's and 3 for the user's, and GDTR describes the whole table. *)
Theorem gdt_init_segments gdt_base tss_base g :
  length (gdt_entries g) = GDT_NUM_ENTRIES ->
  let g' := gdt_init gdt_base tss_base g in
  (exists d, selected g' 0x08 = Some d /\ flat_segment true 0 d) /\
  (exists d, selected g' 0x10 = Some d /\ flat_segment false 0 d) /\
  (exists d, selected g' (0x18 + 3) = Some d /\ flat_segment true 3 d) /\
  (exists d, selected g' (0x20 + 3) = Some d /\ flat_segment false 3 d) /\
  gdtr g' = Some (DescPtr 47 gdt_base) /\ ss0 (tss_entry g') = 0x10.
Proof.
  intros H g'. unfold selected. unfold g' at 1 2 3 4.
  rewrite (gdt_init_entries gdt_base tss_base g H).
  split_and!; try reflexivity; eexists; (split; [reflexivity|]); vm_compute; done.
Qed.

Lemma gdt_init_segments_witness :
  let g := Gdt (replicate GDT_NUM_ENTRIES (GdtEntry 0 0 0 0 0 0)) (DescPtr 0 0) zero_tss None false in
  let g' := gdt_init 0xc0100000 0xc0101000 g in
  (exists d, selected g' 0x08 = Some d /\ flat_segment true 0 d) /\
  (exists d, selected g' 0x10 = Some d /\ flat_segment false 0 d) /\
  (exists d, selected g' (0x18 + 3) = Some d /\ flat_segment true 3 d) /\
  (exists d, selected g' (0x20 + 3) = Some d /\ flat_segment false 3 d) /\
  gdtr g' = Some (DescPtr 47 0xc0100000) /\ ss0 (tss_entry g') = 0x10.
Proof. intros g. apply gdt_init_segments. reflexivity. Defined.

Lemma idt_set_gate_lookup t index callback selector flags v :
  length (idt_entries t) = IDT_ENTRIES -> 0 <= index < 256 -> 0 <= v < 256 ->
  idt_entries (idt_set_gate index callback selector flags t) !! Z.to_nat v =
  if decide (v = index) then Some (idt_gate callback selector flags)
  else idt_entries t !! Z.to_nat v.
Proof.
  intros Hl Hi Hv. unfold idt_set_gate; cbn [idt_entries]. rewrite u8_small by lia.
  case_decide as D.
  - subst. apply list_lookup_insert_eq. rewrite Hl.
    apply Nat2Z.inj_lt. rewrite Z2Nat.id by lia. change (Z.of_nat IDT_ENTRIES) with 256. lia.
  - apply list_lookup_insert_ne. lia.
Qed.

Lemma idt_set_gate_length t index callback selector flags :
  length (idt_entries (idt_set_gate index callback selector flags t)) = length (idt_entries t).
Proof. apply length_insert. Qed.

(** Installing gates for a list of distinct vectors. *)
Lemma set_gates_lookup (vector stub : Z -> Z) ns t v :
  length (idt_entries t) = IDT_ENTRIES -> Forall (fun n => 0 <= vector n < 256) ns ->
  (forall n m, n ∈ ns -> m ∈ ns -> vector n = vector m -> n = m) -> 0 <= v < 256 ->
  let t' := set_gates vector stub ns t in
  length (idt_entries t') = IDT_ENTRIES /\
  (forall n, n ∈ ns -> vector n = v -> 
     idt_entries t' !! Z.to_nat v = Some (idt_gate (stub n) KCODE_SEL IDT_FLAGS_RING0)) /\
  ((forall n, n ∈ ns -> vector n <> v) -> idt_entries t' !! Z.to_nat v = idt_entries t !! Z.to_nat v).
Proof.
  revert t. induction ns as [|n ns IH]; intros t Hl Hr Hinj Hv; cbv zeta.
  { split_and!; [done | set_solver | done]. }
  apply Forall_cons in Hr as [Hn Hr].
  change (set_gates vector stub (n :: ns) t)
    with (set_gates vector stub ns (idt_set_gate (vector n) (stub n) KCODE_SEL IDT_FLAGS_RING0 t)).
  destruct (IH (idt_set_gate (vector n) (stub n) KCODE_SEL IDT_FLAGS_RING0 t)) as (L & I & O);
    [rewrite idt_set_gate_length; exact Hl | exact Hr | intros; apply Hinj; set_solver | exact Hv |].
  assert (Hdec : (exists m, m ∈ ns /\ vector m = v) \/ forall m, m ∈ ns -> vector m <> v).
  { destruct (decide (Exists (fun m => vector m = v) ns)) as [E|E].
    - left. by apply Exists_exists in E.
    - right. intros m Hm Hx. apply E, Exists_exists. by exists m. }
  split_and!; [done | |].
  - intros m Hm Hmv. destruct Hdec as [(k & Hk & Hkv)|Hno].
    + rewrite (I k Hk Hkv). by rewrite (Hinj m k) by (try set_solver; congruence).
    + apply elem_of_cons in Hm as [->|Hm]; [|by exfalso; eapply Hno].
      rewrite (O Hno), idt_set_gate_lookup by done. by rewrite decide_True.
  - intros Hno. rewrite O by set_solver. rewrite idt_set_gate_lookup by done.
    rewrite decide_False; [done|]. intros ->. eapply Hno; [|done]. set_solver.
Qed.

(** What start-up installs at each vector. *)
Definition boot_gate (isr irq_stub : Z -> Z) (v : Z) : idt_entry_t :=
  if decide (0x20 <= v < 0x30) then idt_gate (irq_stub (v - 0x20)) KCODE_SEL IDT_FLAGS_RING0
  else if decide (v = SYSCALL_VECTOR) then idt_gate (isr 128) KCODE_SEL IDT_FLAGS_RING3
  else if decide (v < 0x20 /\ v <> 15) then idt_gate (isr v) KCODE_SEL IDT_FLAGS_RING0
  else zero_gate.

Lemma in_exception_vectors v : v ∈ exception_vectors <-> 0 <= v < 32 /\ v <> 15.
Proof. unfold exception_vectors. rewrite !elem_of_cons, elem_of_nil. lia. Qed.

Lemma vector_in_table v : 0 <= v < 256 -> (Z.to_nat v < IDT_ENTRIES)%nat.
Proof.
  intros Hv. apply Nat2Z.inj_lt. rewrite Z2Nat.id by lia.
  change (Z.of_nat IDT_ENTRIES) with 256. lia.
Qed.

(** The gates idt_init installs on top of a table [t0]. *)
Lemma exception_gates_lookup isr t0 v :
  length (idt_entries t0) = IDT_ENTRIES -> 0 <= v < 256 ->
  let t := idt_set_gate SYSCALL_VECTOR (isr 128) KCODE_SEL IDT_FLAGS_RING3
             (set_gates (fun v => v) isr exception_vectors t0) in
  length (idt_entries t) = IDT_ENTRIES /\
  idt_entries t !! Z.to_nat v =
  if decide (v = SYSCALL_VECTOR) then Some (idt_gate (isr 128) KCODE_SEL IDT_FLAGS_RING3)
  else if decide (v < 0x20 /\ v <> 15) then Some (idt_gate (isr v) KCODE_SEL IDT_FLAGS_RING0)
  else idt_entries t0 !! Z.to_nat v.
Proof.
  intros H0 Hv. cbv zeta.
  destruct (set_gates_lookup (fun v => v) isr exception_vectors t0 v) as (L & I & O);
    [exact H0 | | tauto | exact Hv |].
  { apply Forall_forall. intros n Hn%in_exception_vectors. lia. }
  split; [rewrite idt_set_gate_length; exact L|].
  rewrite idt_set_gate_lookup by first [exact L | exact Hv | unfold SYSCALL_VECTOR; lia].
  destruct (decide (v = SYSCALL_VECTOR)) as [_|_]; [reflexivity|].
  destruct (decide (v < 32 /\ v <> 15)) as [D|D].
  - apply I; [|reflexivity]. apply in_exception_vectors. lia.
  - apply O. intros n Hn%in_exception_vectors ->. lia.
Qed.

Lemma idt_init_lookup idt_base isr t v :
  0 <= v < 256 ->
  length (idt_entries (idt_init idt_base isr t)) = IDT_ENTRIES /\
  idt_entries (idt_init idt_base isr t) !! Z.to_nat v =
  Some (if decide (v = SYSCALL_VECTOR) then idt_gate (isr 128) KCODE_SEL IDT_FLAGS_RING3
        else if decide (v < 0x20 /\ v <> 15) then idt_gate (isr v) KCODE_SEL IDT_FLAGS_RING0
        else zero_gate).
Proof.
  intros Hv. unfold idt_init.
  set (t0 := Idt (replicate IDT_ENTRIES zero_gate) _ _).
  assert (H0 : length (idt_entries t0) = IDT_ENTRIES) by apply length_replicate.
  destruct (exception_gates_lookup isr t0 v H0 Hv) as [L E].
  set (t1 := idt_set_gate _ _ _ _ _) in *. clearbody t1. cbn [idt_entries].
  split; [exact L|]. rewrite E. do 2 (case_decide; [reflexivity|]).
  apply lookup_replicate_2. by apply vector_in_table.
Qed.

(** after idt_init and irq_gates every vector has exactly the gate it
    should: the exception stubs on 0-31, the IRQ stubs on 32-47 as ring 0
    interrupt gates, the system call stub on 0x80 as the only gate user code
    may use; vector 15 and all others have no gate. *)
Theorem boot_vectors idt_base isr irq_stub t v :
  0 <= v < 256 ->
  idt_entries (irq_gates irq_stub (idt_init idt_base isr t)) !! Z.to_nat v =
  Some (boot_gate isr irq_stub v).
Proof.
  intros Hv. destruct (idt_init_lookup idt_base isr t v Hv) as [L E].
  unfold irq_gates, boot_gate.
  set (irqs := [0; 1; 2; 3; 4; 5; 6; 7; 8; 9; 10; 11; 12; 13; 14; 15]).
  assert (HI : forall n, n ∈ irqs <-> 0 <= n < 16).
  { intros n. unfold irqs. rewrite !elem_of_cons, elem_of_nil. lia. }
  destruct (set_gates_lookup (fun n => n + 0x20) irq_stub irqs
              (idt_init idt_base isr t) v) as (_ & I & O); [done | | lia.. |].
  { apply Forall_forall. intros n Hn%HI. lia. }
  destruct (decide (0x20 <= v < 0x30)) as [D|D].
  - apply I; [apply HI; lia | lia].
  - rewrite O by (intros n Hn%HI; lia). exact E.
Qed.

Lemma boot_vectors_witness :
  idt_entries (irq_gates (fun n => 0xc0101000 + n)
     (idt_init 0 (fun n => 0xc0100000 + n) (Idt [] (DescPtr 0 0) None))) !! Z.to_nat 33 =
  Some (boot_gate (fun n => 0xc0100000 + n) (fun n => 0xc0101000 + n) 33).
Proof. apply boot_vectors. lia. Defined.

(** the limit write_tss puts in the TSS descriptor is the low 20 bits of
    the TSS's end address, not its size minus one: it depends on where the
    linker puts the TSS, and when that is just before a 1 MB boundary the
    limit does not even cover the TSS. *)
Theorem tss_limit_is_an_address gdt_base tss_base g :
  length (gdt_entries g) = GDT_NUM_ENTRIES -> 0 <= tss_base -> tss_base + SIZEOF_TSS < 2 ^ 32 ->
  exists d, selected (gdt_init gdt_base tss_base g) 0x28 = Some d /\
    segment_base d = tss_base /\ segment_limit d = (tss_base + SIZEOF_TSS) mod 2 ^ 20 /\
    (2 ^ 20 - SIZEOF_TSS <= tss_base mod 2 ^ 20 < 2 ^ 20 - 1 -> segment_limit d < SIZEOF_TSS - 1).
Proof.
  intros H H0 H1. unfold selected. rewrite (gdt_init_entries _ _ _ H).
  unfold SIZEOF_TSS in *. rewrite (u32_small tss_base), (u32_small (tss_base + _)) by lia.
  eexists. split; [reflexivity|]. unfold compose.
  pose proof (gdt_segment tss_base (tss_base + 27 * 4) 0xe9 0) as (EB & EL & _).
  rewrite EB, EL, u32_small by lia. split_and!; [done | done |].
  intros Hend. Z.div_mod_to_equations. lia.
Qed.

Lemma tss_limit_is_an_address_witness :
  let g := Gdt (replicate GDT_NUM_ENTRIES (GdtEntry 0 0 0 0 0 0)) (DescPtr 0 0) zero_tss None false in
  exists d, selected (gdt_init 0xc0100000 0xc01fffc0 g) 0x28 = Some d /\
    segment_base d = 0xc01fffc0 /\ segment_limit d = (0xc01fffc0 + SIZEOF_TSS) mod 2 ^ 20 /\
    (2 ^ 20 - SIZEOF_TSS <= 0xc01fffc0 mod 2 ^ 20 < 2 ^ 20 - 1 -> segment_limit d < SIZEOF_TSS - 1).
Proof. intros g. apply tss_limit_is_an_address; [reflexivity | lia | unfold SIZEOF_TSS; lia]. Defined.
