(* ===== verification/Arch.v ===== *)
(** The processor's surroundings: port input and output, the interrupt flag,
    the interrupt controllers (pic.c), the timer (pit.c) and the start-up and
    waiting routines of system.c that use them.

    Devices are not part of the program: [dev h port] is the byte a read of
    [port] returns after the accesses [h] (latest first). Every theorem holds
    for any device, except where a hypothesis says which one is meant. Each
    port access is recorded in the trace, latest first. A call of kprintf is
    recorded with its level and format; what kprintf does with a message is
    modelled in the console component. *)

From S2P Require Import Prelude Handlers Desc.

Inductive io_event : Type :=
  | In8 (port value : Z)
  | Out8 (port value : Z)
  | Out16 (port value : Z).

#[global] Instance io_event_eq_dec : EqDecision io_event.
Proof. solve_decision. Defined.

Inductive log_level_t : Type := DEBUG | INFO | NOTICE | WARNING | ERROR | CRITICAL.

Record arch : Type := Arch {
  a_trace : list io_event;
  a_if : bool;             (** EFLAGS.IF *)
  a_bad_irqs : Z;
  a_ticks : Z;
  a_table : table;
  a_gdt : gdt_state;
  a_idt : idt_state;
  a_log : list (log_level_t * string)
}.

(** Updates of one field. *)
Definition with_trace (t : list io_event) (s : arch) : arch :=
  Arch t (a_if s) (a_bad_irqs s) (a_ticks s) (a_table s) (a_gdt s) (a_idt s) (a_log s).
Definition with_if (b : bool) (s : arch) : arch :=
  Arch (a_trace s) b (a_bad_irqs s) (a_ticks s) (a_table s) (a_gdt s) (a_idt s) (a_log s).
Definition with_bad_irqs (n : Z) (s : arch) : arch :=
  Arch (a_trace s) (a_if s) n (a_ticks s) (a_table s) (a_gdt s) (a_idt s) (a_log s).
Definition with_ticks (n : Z) (s : arch) : arch :=
  Arch (a_trace s) (a_if s) (a_bad_irqs s) n (a_table s) (a_gdt s) (a_idt s) (a_log s).
Definition with_table (t : table) (s : arch) : arch :=
  Arch (a_trace s) (a_if s) (a_bad_irqs s) (a_ticks s) t (a_gdt s) (a_idt s) (a_log s).
Definition with_gdt (g : gdt_state) (s : arch) : arch :=
  Arch (a_trace s) (a_if s) (a_bad_irqs s) (a_ticks s) (a_table s) g (a_idt s) (a_log s).
Definition with_idt (t : idt_state) (s : arch) : arch :=
  Arch (a_trace s) (a_if s) (a_bad_irqs s) (a_ticks s) (a_table s) (a_gdt s) t (a_log s).
Definition with_log (l : list (log_level_t * string)) (s : arch) : arch :=
  Arch (a_trace s) (a_if s) (a_bad_irqs s) (a_ticks s) (a_table s) (a_gdt s) (a_idt s) l.

Definition kprintf (level : log_level_t) (msg : string) : M arch unit :=
  modify (fun s => with_log ((level, msg) :: a_log s) s).

(** ** Ports *)

Definition outb (port data : Z) : M arch unit :=
  modify (fun s => with_trace (Out8 (u16 port) (u8 data) :: a_trace s) s).
Definition outw (port data : Z) : M arch unit :=
  modify (fun s => with_trace (Out16 (u16 port) (u16 data) :: a_trace s) s).
Definition irq_enable : M arch unit := modify (with_if true).
Definition irq_disable : M arch unit := modify (with_if false).

(** A table operation on the handler table. *)
Definition on_table {A} (c : M table A) : M arch A := zoom a_table with_table c.

(** pic.c *)
Definition PIC1_CTRL : Z := 0x20.
Definition PIC2_CTRL : Z := 0xa0.
Definition PIC1_DATA : Z := 0x21.
Definition PIC2_DATA : Z := 0xa1.
Definition PIC_EOI : Z := 0x20.
Definition PIC_READ_ISR : Z := 0x0b.
Definition ICW1_ICW4 : Z := 0x01.
Definition ICW1_INIT : Z := 0x10.
Definition ICW4_8086 : Z := 0x01.

(** pit.c *)
Definition PIT_MAX_FREQ : Z := 1193182.
Definition PIT_DATA0 : Z := 0x40.
Definition PIT_CTRL : Z := 0x43.
Definition PIT_OCW_BINCOUNT_BINARY : Z := 0x00.
Definition PIT_OCW_MODE_SQUARE_WAVE : Z := 0x06.
Definition PIT_OCW_RL_LSB_THEN_MSB : Z := 0x30.
Definition PIT_OCW_COUNTER0 : Z := 0x00.

Definition IRQ (x : Z) : Z := x + 0x20.
Definition IRQ_TIMER : Z := 0.
Definition TIMER_FREQ : Z := 1000.

Section devices.
Context (dev : list io_event -> Z -> Z).

Definition inb (port : Z) : M arch Z := fun s =>
  let v := u8 (dev (a_trace s) (u16 port)) in
  Ok (v, with_trace (In8 (u16 port) v :: a_trace s) s).

(** ** pic.c *)

Definition pic_remap : M arch unit :=
  m1 ← inb PIC1_DATA;
  m2 ← inb PIC2_DATA;
  let mask := Z.lor m1 (Z.shiftl m2 8) in
  outb PIC1_CTRL (Z.lor ICW1_INIT ICW1_ICW4);;
  outb PIC2_CTRL (Z.lor ICW1_INIT ICW1_ICW4);;
  outb PIC1_DATA 0x20;;
  outb PIC2_DATA 0x28;;
  outb PIC1_DATA 4;;
  outb PIC2_DATA 2;;
  outb PIC1_DATA ICW4_8086;;
  outb PIC2_DATA ICW4_8086;;
  outb PIC1_DATA mask;;
  outb PIC2_DATA (Z.shiftr mask 8).

Definition pic_disable : M arch unit :=
  outb PIC1_DATA 0xfb;;
  outb PIC2_DATA 0xff.

(** The data port of an IRQ's controller and the IRQ's bit there. *)
Definition irq_port (irq : Z) : Z := if irq <? 8 then PIC1_DATA else PIC2_DATA.
Definition irq_bit (irq : Z) : Z := if irq <? 8 then irq else irq - 8.

Definition pic_disable_irq (irq : Z) : M arch unit :=
  v ← inb (irq_port irq);
  outb (irq_port irq) (u8 (Z.lor v (Z.shiftl 1 (irq_bit irq)))).

Definition pic_enable_irq (irq : Z) : M arch unit :=
  v ← inb (irq_port irq);
  outb (irq_port irq) (u8 (Z.land v (Z.lnot (Z.shiftl 1 (irq_bit irq))))).

Definition pic_get_bad_irqs : M arch Z := gets a_bad_irqs.

Definition pic_get_irq_reg (command : Z) : M arch Z :=
  outb PIC1_CTRL command;;
  outb PIC2_CTRL command;;
  v2 ← inb PIC2_CTRL;
  v1 ← inb PIC1_CTRL;
  mret (u16 (Z.lor (Z.shiftl v2 8) v1)).

Definition pic_get_isr : M arch Z := pic_get_irq_reg PIC_READ_ISR.

Definition pic_is_spurious_7 : M arch bool :=
  v ← pic_get_isr; mret (Z.land v 0x0080 =? 0).
Definition pic_is_spurious_15 : M arch bool :=
  v ← pic_get_isr; mret (Z.land v 0x8000 =? 0).

Definition count_bad_irq : M arch unit :=
  modify (fun s => with_bad_irqs (u32 (a_bad_irqs s + 1)) s).

Definition pic_acknowledge (irq : Z) : M arch Z :=
  s7 ← andM (mret (irq =? 7)) pic_is_spurious_7;
  if (s7 : bool) then count_bad_irq;; mret 1
  else
    s15 ← andM (mret (irq =? 15)) pic_is_spurious_15;
    if (s15 : bool) then outb PIC1_CTRL PIC_EOI;; count_bad_irq;; mret 1
    else
      when (8 <=? irq) (outb PIC2_CTRL PIC_EOI);;
      outb PIC1_CTRL PIC_EOI;;
      mret 0.

Definition pic_init (irq_stub : Z -> Z) : M arch unit :=
  pic_remap;;
  pic_disable;;
  modify (fun s => with_idt (irq_gates irq_stub (a_idt s)) s);;
  irq_enable.

(** ** pit.c *)

Definition pit_handler : M arch unit :=
  modify (fun s => with_ticks (u32 (a_ticks s + 1)) s).

(** [pit_entry] is the address of pit_handler. *)
Definition pit_init (pit_entry freq : Z) : M arch unit :=
  if freq =? 0 then mret tt
  else
    let divisor := u16 (PIT_MAX_FREQ / freq) in
    outb PIT_CTRL (Z.lor (Z.lor (Z.lor PIT_OCW_COUNTER0 PIT_OCW_BINCOUNT_BINARY)
                     PIT_OCW_RL_LSB_THEN_MSB) PIT_OCW_MODE_SQUARE_WAVE);;
    outb PIT_DATA0 (Z.land divisor 0xff);;
    outb PIT_DATA0 (Z.land (Z.shiftr divisor 8) 0xff);;
    modify (with_ticks 0);;
    on_table (attach_interrupt_handler (IRQ IRQ_TIMER) pit_entry);;
    pic_enable_irq IRQ_TIMER.

Definition pit_get_ticks : M arch Z := gets a_ticks.
Definition pit_set_ticks (val : Z) : M arch unit := modify (with_ticks (u32 val)).

(** ** system.c *)

Definition arch_init (gdt_base tss_base idt_base : Z) (isr irq_stub : Z -> Z) (pit_entry : Z)
    : M arch unit :=
  modify (fun s => with_gdt (gdt_init gdt_base tss_base (a_gdt s)) s);;
  modify (fun s => with_idt (idt_init idt_base isr (a_idt s)) s);;
  kprintf INFO "[system] GDT/IDT initialized";;
  pic_init irq_stub;;
  kprintf INFO "[system] PIC initialized";;
  pit_init pit_entry TIMER_FREQ;;
  kprintf INFO "[system] PIT initialized".

Definition arch_finish : M arch unit := pic_disable.

(** The loop that drains the keyboard controller. *)
Fixpoint flush_keyboard (fuel : nat) : M arch unit :=
  temp ← inb 0x64;
  (if negb (Z.land temp 0x01 =? 0) then (inb 0x60 ≫= fun _ => mret tt) else mret tt);;
  if negb (Z.land temp 0x02 =? 0)
  then match fuel with O => throw Hang | S fuel' => flush_keyboard fuel' end
  else mret tt.

Definition arch_reset (fuel : nat) : M arch unit :=
  irq_disable;;
  flush_keyboard fuel;;
  outw 0x64 0xfe;;
  throw Stopped.

Definition enable_irq (irq : Z) : M arch unit := pic_enable_irq (u8 irq).
Definition disable_irq (irq : Z) : M arch unit := pic_disable_irq (u8 irq).
Definition disable_irqs : M arch unit := pic_disable.

(** The loop of sleep: each [hlt] lasts until a timer interrupt, which runs
    pit_handler. *)
Fixpoint sleep_loop (fuel : nat) (until : Z) : M arch unit :=
  now ← pit_get_ticks;
  if now <? until then
    match fuel with
    | O => throw Hang
    | S fuel' => pit_handler;; sleep_loop fuel' until
    end
  else mret tt.

Definition sleep (fuel : nat) (ms : Z) : M arch unit :=
  current ← pit_get_ticks;
  sleep_loop fuel (u32 (current + ms)).
End devices.
