(* ===== verification/ArchSpec.v ===== *)
(** What the interrupt controller, timer and waiting routines of Arch.v do. *)

From S2P Require Import Prelude Handlers Desc Arch.

(** ** Running port accesses *)

Lemma outb_ok port data s :
  outb port data s = Ok (tt, with_trace (Out8 (u16 port) (u8 data) :: a_trace s) s).
Proof. reflexivity. Qed.

Lemma inb_ok dev port s :
  inb dev port s = Ok (u8 (dev (a_trace s) (u16 port)),
    with_trace (In8 (u16 port) (u8 (dev (a_trace s) (u16 port))) :: a_trace s) s).
Proof. reflexivity. Qed.

Lemma modify_ok {S} (f : S -> S) s : modify f s = Ok (tt, f s).
Proof. reflexivity. Qed.

(** [io_step] runs the port accesses at the head of an operation. *)
Ltac io_step :=
  repeat first [ rewrite (bind_ok _ _ _ _ _ (outb_ok _ _ _))
               | rewrite (bind_ok _ _ _ _ _ (inb_ok _ _ _))
               | rewrite (bind_ok _ _ _ _ _ (modify_ok _ _)) ];
  cbn [a_trace with_trace].

(** ** Interrupt masks

    A controller that can be programmed: reading a data port returns the
    interrupt mask last written to it, as the 8259A documents for OCW1. *)
Definition imr_device (dev : list io_event -> Z -> Z) : Prop :=
  forall p, p = PIC1_DATA \/ p = PIC2_DATA ->
  (forall h v, dev (Out8 p v :: h) p = v) /\
  (forall h e, (forall v, e <> Out8 p v) -> dev (e :: h) p = dev h p).

(** IRQ [irq] is masked, in the current state. *)
Definition masked (dev : list io_event -> Z -> Z) (s : arch) (irq : Z) : bool :=
  Z.testbit (dev (a_trace s) (irq_port irq)) (irq_bit irq).

(** A device with this behaviour: all IRQs masked at first. *)
Fixpoint last_written (h : list io_event) (p : Z) : Z :=
  match h with
  | [] => 0xff
  | Out8 q v :: h' => if p =? q then v else last_written h' p
  | _ :: h' => last_written h' p
  end.

Lemma last_written_imr : imr_device last_written.
Proof.
  intros p Hp. split.
  - intros h v. simpl. by rewrite Z.eqb_refl.
  - intros h e He. destruct e as [q v|q v|q v]; simpl; try done.
    destruct (Z.eqb_spec p q); [|done]. subst. by destruct (He v).
Qed.

Lemma irq_port_cases irq : irq_port irq = PIC1_DATA \/ irq_port irq = PIC2_DATA.
Proof. unfold irq_port. destruct (irq <? 8); auto. Qed.

Lemma u16_irq_port irq : u16 (irq_port irq) = irq_port irq.
Proof. destruct (irq_port_cases irq) as [-> | ->]; reflexivity. Qed.

Lemma irq_bit_range irq : 0 <= irq < 16 -> 0 <= irq_bit irq < 8.
Proof. intros H. unfold irq_bit. destruct (Z.ltb_spec irq 8); lia. Qed.

(** The port and the bit determine the IRQ. *)
Lemma irq_bit_inj i j :
  0 <= i < 16 -> 0 <= j < 16 -> irq_port i = irq_port j -> irq_bit i = irq_bit j -> i = j.
Proof.
  intros Hi Hj. unfold irq_port, irq_bit, PIC1_DATA, PIC2_DATA.
  destruct (Z.ltb_spec i 8), (Z.ltb_spec j 8); lia.
Qed.

Section imr.
Context (dev : list io_event -> Z -> Z) (Hdev : imr_device dev).

Lemma imr_in h q v p : p = PIC1_DATA \/ p = PIC2_DATA -> dev (In8 q v :: h) p = dev h p.
Proof. intros Hp. by apply (proj2 (Hdev p Hp)). Qed.

Lemma imr_out h q v p :
  p = PIC1_DATA \/ p = PIC2_DATA -> dev (Out8 q v :: h) p = if decide (q = p) then v else dev h p.
Proof.
  intros Hp. case_decide as D; [subst; by apply (proj1 (Hdev p Hp))|].
  apply (proj2 (Hdev p Hp)). congruence.
Qed.

(** A read-modify-write of an IRQ's mask register by [f]. *)
Lemma mask_update f irq s :
  exists s', (v ← inb dev (irq_port irq); outb (irq_port irq) (u8 (f v))) s = Ok (tt, s') /\
  (forall p, p = PIC1_DATA \/ p = PIC2_DATA ->
     dev (a_trace s') p = if decide (irq_port irq = p) then u8 (f (u8 (dev (a_trace s) p)))
                          else dev (a_trace s) p) /\
  s' = with_trace (a_trace s') s.
Proof.
  eexists. split; [reflexivity|]. split; [|by destruct s].
  intros p Hp. cbn [a_trace with_trace]. rewrite !u16_irq_port.
  rewrite imr_out, imr_in by done. unfold u8. rewrite Z.mod_mod by lia.
  case_decide as D; [by rewrite D | done].
Qed.

Lemma testbit_u8 v k : 0 <= k < 8 -> Z.testbit (u8 v) k = Z.testbit v k.
Proof. intros H. unfold u8. by rewrite Z.mod_pow2_bits_low by lia. Qed.

Lemma mask_bit_set v k j : 0 <= k < 8 -> 0 <= j < 8 ->
  Z.testbit (u8 (Z.lor (u8 v) (Z.shiftl 1 k))) j = Z.testbit v j || (j =? k).
Proof.
  intros Hk Hj. rewrite testbit_u8, Z.lor_spec, testbit_u8, testbit_shiftl_1 by lia. done.
Qed.

Lemma mask_bit_clear v k j : 0 <= k < 8 -> 0 <= j < 8 ->
  Z.testbit (u8 (Z.land (u8 v) (Z.lnot (Z.shiftl 1 k)))) j = Z.testbit v j && negb (j =? k).
Proof.
  intros Hk Hj. rewrite testbit_u8, Z.land_spec, Z.lnot_spec, testbit_u8, testbit_shiftl_1 by lia.
  done.
Qed.
End imr.

(** with a controller that latches its mask registers, pic_enable_irq
    unmasks exactly the given IRQ and pic_disable_irq masks exactly it: every
    other IRQ of both controllers keeps its state, and nothing else of the
    kernel's state changes. *)
Theorem irq_masks_ok dev irq s :
  imr_device dev -> 0 <= irq < 16 ->
  (exists s', pic_enable_irq dev irq s = Ok (tt, s') /\ s' = with_trace (a_trace s') s /\
     forall j, 0 <= j < 16 -> masked dev s' j = masked dev s j && negb (j =? irq)) /\
  (exists s', pic_disable_irq dev irq s = Ok (tt, s') /\ s' = with_trace (a_trace s') s /\
     forall j, 0 <= j < 16 -> masked dev s' j = masked dev s j || (j =? irq)).
Proof.
  intros Hdev Hirq. pose proof (irq_bit_range irq Hirq) as Hk.
  split; [edestruct (mask_update dev Hdev (fun v => Z.land v (Z.lnot (Z.shiftl 1 (irq_bit irq)))) irq s)
            as (s' & H1 & H2 & H3)
         | edestruct (mask_update dev Hdev (fun v => Z.lor v (Z.shiftl 1 (irq_bit irq))) irq s)
            as (s' & H1 & H2 & H3)].
  all: exists s'; split; [exact H1|]; split; [exact H3|]; intros j Hj;
       pose proof (irq_bit_range j Hj) as Hkj; unfold masked;
       rewrite H2 by apply irq_port_cases; case_decide as D.
  1: rewrite mask_bit_clear by done. 3: rewrite mask_bit_set by done.
  all: destruct (Z.eqb_spec j irq) as [->|Hne]; try done;
       rewrite ?Z.eqb_refl, ?andb_true_r, ?orb_false_r; try done.
  all: destruct (Z.eqb_spec (irq_bit j) (irq_bit irq)) as [E|E];
       [exfalso; apply Hne, irq_bit_inj; congruence || lia | by rewrite ?andb_true_r, ?orb_false_r].
Qed.

Definition boot_arch : arch :=
  Arch [] false 0 0 init_table
    (Gdt (replicate GDT_NUM_ENTRIES (GdtEntry 0 0 0 0 0 0)) (DescPtr 0 0) zero_tss None false)
    (Idt (replicate IDT_ENTRIES zero_gate) (DescPtr 0 0) None) [].

Lemma irq_masks_ok_witness :
  (exists s', pic_enable_irq last_written 12 boot_arch = Ok (tt, s') /\
     s' = with_trace (a_trace s') boot_arch /\
     forall j, 0 <= j < 16 -> masked last_written s' j = masked last_written boot_arch j && negb (j =? 12)) /\
  (exists s', pic_disable_irq last_written 12 boot_arch = Ok (tt, s') /\
     s' = with_trace (a_trace s') boot_arch /\
     forall j, 0 <= j < 16 -> masked last_written s' j = masked last_written boot_arch j || (j =? 12)).
Proof. apply irq_masks_ok; [apply last_written_imr | lia]. Defined.

(** ** Programming the controllers *)

Lemma mask_halves a b : 0 <= a < 2 ^ 8 -> 0 <= b < 2 ^ 8 ->
  u8 (Z.lor a (Z.shiftl b 8)) = a /\ u8 (Z.shiftr (Z.lor a (Z.shiftl b 8)) 8) = b.
Proof.
  intros Ha Hb. assert (E : Z.land (Z.shiftl b 8) a = 0).
  { apply Z.bits_inj'. intros i Hi. rewrite Z.land_spec, Z.bits_0.
    destruct (Z.ltb_spec i 8); [by rewrite Z.shiftl_spec_low|].
    rewrite <- (Z.mod_small a (2 ^ 8)), Z.mod_pow2_bits_high by lia. by rewrite andb_false_r. }
  rewrite Z.lor_comm, <- Z.lxor_lor, <- Z.add_nocarry_lxor by done.
  rewrite Z.shiftl_mul_pow2, Z.shiftr_div_pow2 by lia. unfold u8.
  Z.div_mod_to_equations. lia.
Qed.

(** pic_remap reads both mask registers, then sends the two controllers
    the initialisation sequence that moves IRQ 0-7 to vectors 0x20-0x27 and
    IRQ 8-15 to 0x28-0x2f with the slave on line 2, and writes back to each
    controller the mask it had. *)
Theorem pic_remap_sequence dev s :
  exists s' m1 m2, pic_remap dev s = Ok (tt, s') /\
  m1 = u8 (dev (a_trace s) PIC1_DATA) /\
  m2 = u8 (dev (In8 PIC1_DATA m1 :: a_trace s) PIC2_DATA) /\
  rev (a_trace s') = rev (a_trace s) ++
   [ In8 PIC1_DATA m1; In8 PIC2_DATA m2;
     Out8 PIC1_CTRL 0x11; Out8 PIC2_CTRL 0x11;
     Out8 PIC1_DATA 0x20; Out8 PIC2_DATA 0x28;
     Out8 PIC1_DATA 4; Out8 PIC2_DATA 2;
     Out8 PIC1_DATA 1; Out8 PIC2_DATA 1;
     Out8 PIC1_DATA m1; Out8 PIC2_DATA m2 ] /\
  s' = with_trace (a_trace s') s.
Proof.
  pose (m1 := u8 (dev (a_trace s) PIC1_DATA)).
  pose (m2 := u8 (dev (In8 PIC1_DATA m1 :: a_trace s) PIC2_DATA)).
  destruct (mask_halves m1 m2) as [E1 E2]; [apply u8_range..|].
  eexists _, m1, m2. split; [unfold pic_remap; io_step; reflexivity|]. split; [done|]. split; [done|]. split; [|by destruct s].
  cbn [a_trace with_trace]. fold m1 m2.
  change (u16 PIC1_DATA) with PIC1_DATA. change (u16 PIC2_DATA) with PIC2_DATA.
  fold m1. change (u8 (dev (In8 PIC1_DATA m1 :: a_trace s) PIC2_DATA)) with m2.
  rewrite E1, E2. cbn [rev]. by rewrite <- !app_assoc.
Qed.

(** ** Acknowledging *)

(** The end-of-interrupt commands in a trace. *)
Definition is_eoi (e : io_event) : bool :=
  bool_decide (e = Out8 PIC1_CTRL PIC_EOI) || bool_decide (e = Out8 PIC2_CTRL PIC_EOI).
Definition eois (t : list io_event) : list io_event := filter (fun e => is_eoi e = true) t.

(** An IRQ 7 or 15 whose bit in the in-service register is clear. *)
Definition spurious (irq isr : Z) : bool :=
  (irq =? 7) && negb (Z.testbit isr 7) || (irq =? 15) && negb (Z.testbit isr 15).

Lemma get_isr_run dev s :
  exists v s1, pic_get_isr dev s = Ok (v, s1) /\ eois (a_trace s1) = eois (a_trace s) /\
    s1 = with_trace (a_trace s1) s.
Proof. eexists _, _. split; [reflexivity|]. split; [reflexivity | by destruct s]. Qed.

Lemma land_bit v k : 0 <= k -> (Z.land v (2 ^ k) =? 0) = negb (Z.testbit v k).
Proof.
  intros Hk. rewrite <- Z.shiftl_1_l, land_shiftl_1 by lia.
  destruct (Z.testbit v k); [|done]. apply Z.eqb_neq. lia.
Qed.

Lemma spurious_7_run dev s isr s1 :
  pic_get_isr dev s = Ok (isr, s1) -> pic_is_spurious_7 dev s = Ok (negb (Z.testbit isr 7), s1).
Proof.
  intros H. unfold pic_is_spurious_7. rewrite (bind_ok _ _ _ _ _ H).
  rewrite ret_ok. do 2 f_equal. by apply (land_bit isr 7).
Qed.

Lemma spurious_15_run dev s isr s1 :
  pic_get_isr dev s = Ok (isr, s1) -> pic_is_spurious_15 dev s = Ok (negb (Z.testbit isr 15), s1).
Proof.
  intros H. unfold pic_is_spurious_15. rewrite (bind_ok _ _ _ _ _ H).
  rewrite ret_ok. do 2 f_equal. by apply (land_bit isr 15).
Qed.

(** The last steps of pic_acknowledge, for an IRQ that is not spurious. *)
Lemma acknowledge_genuine irq s :
  exists s', (when (8 <=? irq) (outb PIC2_CTRL PIC_EOI);; outb PIC1_CTRL PIC_EOI;; mret 0) s = Ok (0, s') /\
  a_bad_irqs s' = a_bad_irqs s /\
  eois (a_trace s') = Out8 PIC1_CTRL PIC_EOI :: (if 8 <=? irq then [Out8 PIC2_CTRL PIC_EOI] else [])
                      ++ eois (a_trace s).
Proof. destruct (8 <=? irq); (eexists; split; [reflexivity|]; split; reflexivity). Qed.

(** pic_acknowledge. A spurious IRQ 7 is counted and gets no
    end-of-interrupt; a spurious IRQ 15 is counted and only the master gets
    one; any other IRQ is acknowledged to the master, after the slave if it
    came from there, and is reported as genuine. *)
Theorem pic_acknowledge_ok dev irq s :
  0 <= irq < 16 ->
  exists isr s1 r s', pic_get_isr dev s = Ok (isr, s1) /\ pic_acknowledge dev irq s = Ok (r, s') /\
  r = (if spurious irq isr then 1 else 0) /\
  a_bad_irqs s' = (if spurious irq isr then u32 (a_bad_irqs s + 1) else a_bad_irqs s) /\
  eois (a_trace s') =
    (if spurious irq isr then (if irq =? 15 then [Out8 PIC1_CTRL PIC_EOI] else [])
     else Out8 PIC1_CTRL PIC_EOI :: (if 8 <=? irq then [Out8 PIC2_CTRL PIC_EOI] else []))
    ++ eois (a_trace s).
Proof.
  intros Hirq. destruct (get_isr_run dev s) as (isr & s1 & Hisr & He & Hs1).
  assert (Hb : a_bad_irqs s1 = a_bad_irqs s) by by rewrite Hs1.
  exists isr, s1. unfold pic_acknowledge, spurious.
  destruct (Z.eqb_spec irq 7) as [->|H7]; [|destruct (Z.eqb_spec irq 15) as [->|H15]].
  - rewrite (bind_ok _ _ s _ s1 (spurious_7_run _ _ _ _ Hisr)).
    destruct (Z.testbit isr 7); cbn [negb andb orb].
    + destruct (acknowledge_genuine 7 s1) as (s' & H & E1 & E2).
      exists 0, s'. rewrite (bind_ok _ _ s1 false s1) by done. by rewrite H, E1, E2, Hb, He.
    + eexists _, _. split; [done|]. split; [reflexivity|].
      cbn [a_bad_irqs a_trace with_bad_irqs]. by rewrite Hb, He.
  - rewrite (bind_ok _ _ s false s) by done.
    rewrite (bind_ok _ _ s _ s1 (spurious_15_run _ _ _ _ Hisr)).
    destruct (Z.testbit isr 15); cbn [negb andb orb].
    + destruct (acknowledge_genuine 15 s1) as (s' & H & E1 & E2).
      exists 0, s'. by rewrite H, E1, E2, Hb, He.
    + eexists _, _. split; [done|]. split; [reflexivity|].
      cbn [a_bad_irqs with_bad_irqs a_trace with_trace]. rewrite Hb, <- He. by split_and!.
  - rewrite (bind_ok _ _ s false s), (bind_ok _ _ s false s) by done. cbn [andb orb].
    destruct (acknowledge_genuine irq s) as (s' & H & E1 & E2).
    exists 0, s'. by rewrite H, E1, E2.
Qed.

(** A device whose in-service registers read 0: every IRQ 7 or 15 is spurious. *)
Lemma pic_acknowledge_ok_witness :
  exists isr s1 r s', pic_get_isr (fun _ _ => 0) boot_arch = Ok (isr, s1) /\
  pic_acknowledge (fun _ _ => 0) 15 boot_arch = Ok (r, s') /\
  r = (if spurious 15 isr then 1 else 0) /\
  a_bad_irqs s' = (if spurious 15 isr then u32 (a_bad_irqs boot_arch + 1) else a_bad_irqs boot_arch) /\
  eois (a_trace s') =
    (if spurious 15 isr then (if 15 =? 15 then [Out8 PIC1_CTRL PIC_EOI] else [])
     else Out8 PIC1_CTRL PIC_EOI :: (if 8 <=? 15 then [Out8 PIC2_CTRL PIC_EOI] else []))
    ++ eois (a_trace boot_arch).
Proof. apply pic_acknowledge_ok. lia. Defined.

(** ** The timer *)

Lemma pit_bytes d : 0 <= d < 2 ^ 16 ->
  u8 (Z.land d 0xff) + 2 ^ 8 * u8 (Z.land (Z.shiftr d 8) 0xff) = d.
Proof.
  intros H. replace 0xff with (Z.ones 8) by reflexivity.
  rewrite !Z.land_ones, Z.shiftr_div_pow2 by lia. unfold u8. Z.div_mod_to_equations. lia.
Qed.

(** pit_init with a frequency the counter can produce sends the timer the
    divisor 1193182 / freq, low byte first, which is at least 1 and fits its
    16 bits; it resets the tick count and appends the tick handler to those of
    IRQ 0. *)
Theorem pit_init_ok dev entry freq s hs :
  19 <= freq <= PIT_MAX_FREQ -> entry <> 0 -> vector_ready (a_table s) (IRQ IRQ_TIMER) hs ->
  length hs <> MAX_HANDLERS ->
  exists s' lo hi m1 m2, pit_init dev entry freq s = Ok (tt, s') /\
    a_trace s' = Out8 PIC1_DATA m2 :: In8 PIC1_DATA m1 ::
                 Out8 PIT_DATA0 hi :: Out8 PIT_DATA0 lo :: Out8 PIT_CTRL 0x36 :: a_trace s /\
    0 <= lo < 2 ^ 8 /\ 0 <= hi < 2 ^ 8 /\ lo + 2 ^ 8 * hi = PIT_MAX_FREQ / freq /\
    1 <= PIT_MAX_FREQ / freq < 2 ^ 16 /\ a_ticks s' = 0 /\
    vector_calls (a_table s') (IRQ IRQ_TIMER) (hs ++ [entry]).
Proof.
  intros Hf He Hv Hlen. unfold PIT_MAX_FREQ in *.
  assert (Hd : 1 <= 1193182 / freq < 2 ^ 16).
  { split; [apply Z.div_le_lower_bound; lia | apply Z.div_lt_upper_bound; lia]. }
  destruct (attach_table (IRQ IRQ_TIMER) entry (a_table s) hs Hv He) as (t' & Ha & _ & Hv').
  rewrite decide_False in Hv' by done.
  eexists _, _, _, _, _. split.
  - unfold pit_init. destruct (Z.eqb_spec freq 0) as [->|_]; [lia|]. cbv zeta. io_step.
    unfold PIT_MAX_FREQ. rewrite (u16_small (1193182 / freq)) by lia.
    erewrite bind_ok by (unfold on_table, zoom; cbn [a_table with_ticks with_trace];
      rewrite Ha; reflexivity).
    unfold pic_enable_irq. io_step. apply outb_ok.
  - cbn [a_trace with_trace with_table with_ticks a_ticks a_table].
    split; [reflexivity|]. split; [apply u8_range|]. split; [apply u8_range|].
    split; [apply pit_bytes; lia|]. eauto using ready_calls.
Qed.

Lemma pit_init_ok_witness :
  exists s' lo hi m1 m2, pit_init last_written 0xc0105000 TIMER_FREQ boot_arch = Ok (tt, s') /\
    a_trace s' = Out8 PIC1_DATA m2 :: In8 PIC1_DATA m1 ::
                 Out8 PIT_DATA0 hi :: Out8 PIT_DATA0 lo :: Out8 PIT_CTRL 0x36 :: a_trace boot_arch /\
    0 <= lo < 2 ^ 8 /\ 0 <= hi < 2 ^ 8 /\ lo + 2 ^ 8 * hi = PIT_MAX_FREQ / TIMER_FREQ /\
    1 <= PIT_MAX_FREQ / TIMER_FREQ < 2 ^ 16 /\ a_ticks s' = 0 /\
    vector_calls (a_table s') (IRQ IRQ_TIMER) ([] ++ [0xc0105000]).
Proof.
  apply (pit_init_ok last_written 0xc0105000 TIMER_FREQ boot_arch []);
    [unfold TIMER_FREQ, PIT_MAX_FREQ; lia | lia | apply init_vector_ready | discriminate].
Defined.

(** ** Waiting *)

Lemma sleep_loop_ok n until s :
  a_ticks s + Z.of_nat n = until -> 0 <= a_ticks s -> until < 2 ^ 32 ->
  exists s', sleep_loop n until s = Ok (tt, s') /\ s' = with_ticks until s.
Proof.
  revert s. induction n as [|n IH]; intros s Hu H0 Hb; cbn [sleep_loop].
  all: rewrite (bind_ok _ _ s (a_ticks s) s) by done.
  - destruct (Z.ltb_spec (a_ticks s) until); [lia|]. exists s. split; [done|].
    destruct s; cbn in *. unfold with_ticks; cbn. f_equal. lia.
  - destruct (Z.ltb_spec (a_ticks s) until); [|lia].
    rewrite (bind_ok _ _ s tt (with_ticks (u32 (a_ticks s + 1)) s)) by done.
    destruct (IH (with_ticks (u32 (a_ticks s + 1)) s)) as (s' & H1 & H2);
      cbn [a_ticks with_ticks]; rewrite ?u32_small by lia; [lia..|].
    rewrite u32_small in H1 by lia. exists s'. split; [done|]. by rewrite H2.
Qed.


