(* ===== verification/Kheap.v ===== *)
(** The kernel heap front end: kheap.c.

    Until the heap allocator exists ([kheap == 0]) memory is handed out from
    [placement_address] upwards and never returned; afterwards alloc and free
    of mem_alloc.c serve the requests. irq_save and irq_restore leave the
    interrupt flag as it was. *)

From S2P Require Import Prelude Memory Frames Paging PagingSpec MemAlloc.

(** What thread.c and process.c use of the kernel heap: memory behind
    kmalloc and kfree (0 is the null pointer). *)
Class KernelHeap (H : Type) : Type := {
  kmalloc : Z -> M H Z;
  kfree : Z -> M H unit;
  heap_mem : H -> mem;
  set_heap_mem : mem -> H -> H;
  heap_mem_set : forall m h, heap_mem (set_heap_mem m h) = m
}.

(** The kernel's own accesses to that memory. *)
Definition heap_access {H} `{KernelHeap H} {A} (c : M mem A) : M H A :=
  zoom heap_mem set_heap_mem c.

Record kheap_state : Type := KheapState {
  k_ready : bool;      (** kheap != 0 *)
  k_heap : heap        (** the memory, the allocator that [kheap] points to, and the page tables *)
}.

(** The page tables, and [placement_address]. *)
Definition k_pg (s : kheap_state) : pg := hpg (k_heap s).
Definition set_k_pg (p : pg) (s : kheap_state) : kheap_state :=
  KheapState (k_ready s) (Heap (hmem (k_heap s)) (al (k_heap s)) p).

Definition on_kheap {A} (c : M heap A) : M kheap_state A :=
  zoom k_heap (fun h s => KheapState (k_ready s) h) c.
Definition on_pg {A} (c : M pg A) : M kheap_state A :=
  zoom k_pg set_k_pg c.

(** [placement_address -= p % alignment; placement_address += alignment] when
    the address is not aligned. *)
Definition align_placement (p alignment : Z) : Z :=
  if negb (alignment =? 0) && negb (p mod alignment =? 0)
  then u32 (u32 (p - p mod alignment) + alignment) else p.

Section kheap.
(** For missing page tables and new pages, see [MemAlloc]. *)
Context (table_ap : Z -> M pg (Z * Z)) (frame_data : Z -> mem -> mem) (head : Z) (tree_fuel fuel : nat).
(** The link-time constant kernel_voffset. *)
Context (kernel_voffset : Z).

(** The result address, and the physical address when [phys] is not null. *)
Definition kmalloc_int (size alignment : Z) (phys : bool) : M kheap_state (Z * option Z) :=
  ready ← gets k_ready;
  if (ready : bool) then
    addr ← on_kheap (alloc table_ap frame_data head tree_fuel fuel size alignment);
    if phys then
      p ← on_pg (kd ← gets kernel_directory;
                 page ← get_page table_ap addr 0 kd;
                 e ← load_pte page;
                 mret (u32 (u32 (p_frame e * FRAME_SIZE) + Z.land addr 0xfff)));
      mret (addr, Some p)
    else mret (addr, None)
  else
    p ← on_pg (gets placement_address);
    let addr := align_placement p alignment in
    on_pg (modify (set_placement (u32 (addr + size))));;
    mret (addr, if phys then Some (u32 (addr - kernel_voffset)) else None).

Definition kmalloc_ (size : Z) : M kheap_state Z := r ← kmalloc_int size 0 false; mret r.1.
Definition kmalloc_a (size : Z) : M kheap_state Z := r ← kmalloc_int size FRAME_SIZE false; mret r.1.
Definition kmalloc_p (size : Z) : M kheap_state (Z * Z) :=
  r ← kmalloc_int size 0 true; mret (r.1, default 0 r.2).
Definition kmalloc_ap (size : Z) : M kheap_state (Z * Z) :=
  r ← kmalloc_int size FRAME_SIZE true; mret (r.1, default 0 r.2).

(** kfree(p) calls free(p, kheap). With a null allocator free returns early
    for a null pointer or a block that is already free, and faults on
    [allocator->mem_used], at offset 44, otherwise. *)
Definition kfree_ (p : Z) : M kheap_state unit :=
  ready ← gets k_ready;
  if (ready : bool) then on_kheap (free table_ap frame_data head tree_fuel p)
  else if p =? 0 then mret tt
  else
    let block := user_to_block p in
    on_kheap (on_mem (ok ← check_magic block; assert ok));;
    fr ← on_kheap (on_mem (is_free block));
    if (fr : bool) then mret tt
    else
      on_kheap (on_mem (mark_free block;; f ← get_footer block; ok ← check_magic f; assert ok));;
      throw (Fault 44).

Definition kheap_heap : KernelHeap kheap_state := {|
  kmalloc := kmalloc_;
  kfree := kfree_;
  heap_mem := fun s => hmem (k_heap s);
  set_heap_mem := fun m s => KheapState (k_ready s) (Heap m (al (k_heap s)) (hpg (k_heap s)));
  heap_mem_set := fun m s => eq_refl
|}.
End kheap.

(** ** Placement *)

Lemma align_placement_ok p a :
  0 <= p -> 0 <= a -> p + a <= 2 ^ 32 ->
  p <= align_placement p a /\ (a <> 0 -> align_placement p a < p + a /\ align_placement p a mod a = 0) /\
  (a = 0 -> align_placement p a = p).
Proof.
  intros Hp Ha Hb. unfold align_placement.
  destruct (Z.eqb_spec a 0) as [->|Hne]; cbn [negb andb]; [split_and!; (done || lia)|].
  destruct (Z.eqb_spec (p mod a) 0) as [E|E]; cbn [negb]; [split_and!; lia|].
  pose proof (Z.mod_pos_bound p a). pose proof (Z.mod_le p a).
  rewrite (u32_small (p - p mod a)) by lia.
  destruct (decide (p - p mod a + a = 2 ^ 32)) as [W|W].
  - exfalso. lia.
  - rewrite u32_small by lia. split_and!; [lia | | done]. intros _. split; [lia|].
    rewrite Z.mod_eq by lia.
    replace (p - p mod a + a) with ((p / a + 1) * a) by (rewrite Z.mod_eq by lia; ring).
    rewrite Z.div_mul by lia. ring.
Qed.

(** The memory and the allocator are the same. *)
Definition same_heap (s s' : kheap_state) : Prop := hmem (k_heap s') = hmem (k_heap s) /\ al (k_heap s') = al (k_heap s).

(** A run of placement allocations. *)
Section placement.
Context (table_ap : Z -> M pg (Z * Z)) (frame_data : Z -> mem -> mem) (head : Z) (tree_fuel fuel : nat).
Context (kernel_voffset : Z).

Abbreviation kmalloc_int' :=
  (kmalloc_int table_ap frame_data head tree_fuel fuel kernel_voffset).

Definition set_place (p : Z) (s : kheap_state) : kheap_state :=
  set_k_pg (set_placement p (k_pg s)) s.

Lemma kmalloc_int_placement s size alignment phys :
  k_ready s = false ->
  kmalloc_int' size alignment phys s =
  let addr := align_placement (placement_address (k_pg s)) alignment in
  Ok ((addr, if phys then Some (u32 (addr - kernel_voffset)) else None),
      set_place (u32 (addr + size)) s).
Proof.
  intros Hr. unfold kmalloc_int. rewrite (bind_ok _ _ s false s) by (unfold gets; by rewrite Hr).
  by destruct s.
Qed.

(** The requests of start-up code, as (size, alignment). *)
Fixpoint kmalloc_all (reqs : list (Z * Z)) : M kheap_state (list Z) :=
  match reqs with
  | [] => mret []
  | (size, alignment) :: reqs' =>
      r ← kmalloc_int' size alignment false;
      rs ← kmalloc_all reqs';
      mret (r.1 :: rs)
  end.

(** The room a list of requests can need. *)
Definition needed (reqs : list (Z * Z)) : Z := foldr (fun '(sz, a) n => sz + a + n) 0 reqs.

(** Blocks [a, a + size), each behind [lo] and behind the one before it. *)
Fixpoint placed (lo : Z) (reqs : list (Z * Z)) (rs : list Z) : Prop :=
  match reqs, rs with
  | [], [] => True
  | (size, alignment) :: reqs', a :: rs' =>
      lo <= a /\ (alignment <> 0 -> a mod alignment = 0) /\ placed (a + size) reqs' rs'
  | _, _ => False
  end.

Lemma kmalloc_all_placed reqs : forall s,
  k_ready s = false -> Forall (fun '(sz, a) => 0 <= sz /\ 0 <= a) reqs ->
  0 <= placement_address (k_pg s) -> placement_address (k_pg s) + needed reqs < 2 ^ 32 ->
  exists rs s', kmalloc_all reqs s = Ok (rs, s') /\ placed (placement_address (k_pg s)) reqs rs /\
    k_ready s' = false /\ same_heap s s' /\
    placement_address (k_pg s') <= placement_address (k_pg s) + needed reqs.
Proof.
  induction reqs as [|[size al] reqs IH]; intros s Hr Hall H0 Hb.
  - exists [], s. split_and!; try done. simpl. lia.
  - apply Forall_cons in Hall as [[Hsz Hal] Hall]. cbn [needed foldr] in Hb. fold (needed reqs) in Hb.
    assert (Hn : 0 <= needed reqs).
    { clear -Hall. induction reqs as [|[sz a] reqs IH]; [simpl; lia|].
      apply Forall_cons in Hall as [[? ?] Hall]. cbn [needed foldr]. fold (needed reqs).
      specialize (IH Hall). lia. }
    destruct (align_placement_ok (placement_address (k_pg s)) al) as (A1 & A2 & A3); [lia..|].
    set (addr := align_placement _ al) in *.
    assert (A4 : addr <= placement_address (k_pg s) + al).
    { destruct (decide (al = 0)) as [E|E]; [rewrite A3 by done; lia|]. destruct (A2 E). lia. }
    assert (E : placement_address (k_pg (set_place (u32 (addr + size)) s)) = addr + size).
    { cbn. apply u32_small. lia. }
    destruct (IH (set_place (u32 (addr + size)) s)) as (rs & s' & H1 & H2 & H3 & H4 & H5);
      [done | done | rewrite E; lia | rewrite E; lia |].
    rewrite E in H2, H5. exists (addr :: rs), s'. split_and!; [| |done|done|].
    + cbn [kmalloc_all]. rewrite (bind_ok _ _ _ _ _ (kmalloc_int_placement s size al false Hr)).
      fold addr. by rewrite (bind_ok _ _ _ _ _ H1).
    + cbn [placed]. split_and!; [lia | | done]. intros Hne. by apply A2.
    + cbn [needed foldr]. fold (needed reqs). lia.
Qed.
End placement.

(** before the heap exists, any sequence of kmalloc requests that fits
    below 4 GB gets blocks that are aligned as asked, lie above the initial
    placement address and follow one another without overlap. *)
Theorem placement_blocks_disjoint table_ap frame_data head tree_fuel fuel kv reqs s :
  k_ready s = false -> Forall (fun '(sz, a) => 0 <= sz /\ 0 <= a) reqs ->
  0 <= placement_address (k_pg s) -> placement_address (k_pg s) + needed reqs < 2 ^ 32 ->
  exists rs s', kmalloc_all table_ap frame_data head tree_fuel fuel kv reqs s = Ok (rs, s') /\
    placed (placement_address (k_pg s)) reqs rs /\ same_heap s s'.
Proof.
  intros H1 H2 H3 H4.
  destruct (kmalloc_all_placed table_ap frame_data head tree_fuel fuel kv reqs s H1 H2 H3 H4)
    as (rs & s' & ? & ? & _ & ? & _). eauto.
Qed.

(** A machine at start-up: no heap, placement from the end of the kernel. *)
Definition boot_kheap : kheap_state :=
  KheapState false
    (Heap (mem_with_pages 16 0xc0110000) (Allocator (RbTree.RbTree 0 0 0) 0 0 0 0 0 0 0 0)
      (Pg (Bitmap [] 0 0) ∅ ∅ 0 0 0xc0110123 0)).

Lemma placement_blocks_disjoint_witness :
  exists rs s', kmalloc_all (fun _ => throw Hang) (fun _ m => m) 0 0 0 0xc0000000
      [(100, 0); (4096, 4096); (8196, 4096)] boot_kheap = Ok (rs, s') /\
    placed 0xc0110123 [(100, 0); (4096, 4096); (8196, 4096)] rs /\ same_heap boot_kheap s'.
Proof.
  apply (placement_blocks_disjoint (fun _ => throw Hang) (fun _ m => m) 0 0 0 0xc0000000
    [(100, 0); (4096, 4096); (8196, 4096)] boot_kheap); [reflexivity | repeat constructor; lia | simpl; lia | simpl; lia].
Defined.

(** The placement branch of kmalloc_ap is the allocator paging.c runs with. *)
Lemma kmalloc_ap_placement table_ap frame_data head tree_fuel fuel kv size s :
  k_ready s = false -> 0 <= placement_address (k_pg s) < 2 ^ 32 ->
  kmalloc_ap table_ap frame_data head tree_fuel fuel kv size s = on_pg (placement_ap kv size) s.
Proof.
  intros Hr Hp. unfold kmalloc_ap. rewrite (bind_ok _ _ _ _ _ (kmalloc_int_placement _ _ _ _ _ _ _ _ _ _ Hr)).
  assert (E : align_placement (placement_address (k_pg s)) FRAME_SIZE =
    if placement_address (k_pg s) mod FRAME_SIZE =? 0 then placement_address (k_pg s)
    else u32 (placement_address (k_pg s) - placement_address (k_pg s) mod FRAME_SIZE + FRAME_SIZE)).
  { unfold align_placement, FRAME_SIZE. cbn [Z.eqb negb andb].
    destruct (Z.eqb_spec (placement_address (k_pg s) mod 4096) 0); cbn [negb]; [done|].
    rewrite (u32_small (_ - _)); [done|]. Z.div_mod_to_equations. lia. }
  rewrite E. by destruct s.
Qed.

(** while paging is being set up, kmalloc_ap meets the interface that the
    page table code is proved against: page-aligned fresh memory whose
    physical address is the virtual one less the kernel's offset. *)
Theorem kmalloc_ap_serves_paging table_ap frame_data head tree_fuel fuel kv size s r :
  k_ready s = false -> kv mod 4096 = 0 -> placement_room r (k_pg s) ->
  0 < size -> size + 4096 <= r ->
  exists a s', kmalloc_ap table_ap frame_data head tree_fuel fuel kv size s = Ok ((a, u32 (a - kv)), s') /\
    0 < a < 2 ^ 32 /\ a mod 4096 = 0 /\ dirs (k_pg s) !! a = None /\ ptables (k_pg s) !! a = None /\
    same_heap s s' /\ k_ready s' = false.
Proof.
  intros Hr Hkv Hroom Hsz Hsr. pose proof (pr_pos _ _ Hroom). pose proof (pr_end _ _ Hroom).
  destruct (@kmalloc_ok _ _ _ (placement_allocator kv Hkv) r size (k_pg s) Hroom Hsz Hsr)
    as (a & p & Hrun & _ & H1 & H2 & H3 & H4 & _).
  eexists a, _. split.
  - rewrite kmalloc_ap_placement by (done || lia). unfold on_pg, zoom. by rewrite Hrun.
  - split_and!; try done; lia.
Qed.

Lemma kmalloc_ap_serves_paging_witness :
  exists a s', kmalloc_ap (fun _ => throw Hang) (fun _ m => m) 0 0 0 0xc0000000 4096 boot_kheap
      = Ok ((a, u32 (a - 0xc0000000)), s') /\
    0 < a < 2 ^ 32 /\ a mod 4096 = 0 /\ dirs (k_pg boot_kheap) !! a = None /\
    ptables (k_pg boot_kheap) !! a = None /\ same_heap boot_kheap s' /\ k_ready s' = false.
Proof.
  apply (kmalloc_ap_serves_paging _ _ _ _ _ _ _ _ 0x10000); [done | done | | lia | lia].
  split; simpl; [lia | lia |]. intros x [[? Hx]|[? Hx]]; done.
Defined.
