(* ===== verification/Sched.v ===== *)
(** Threads and the scheduler: thread.c, process.c and scheduler.c.

    A thread_t structure lives on the kernel heap; the model keeps the
    structures in a map from addresses to records, and the stacks in raw
    memory. A pointer to a thread is an [option Z]. Reading a structure that is
    not there (a null pointer, or one freed by destroy_thread) is a fault.
    Scheduled threads form a ring through [t_next] and [t_prev]. *)

From S2P Require Import Prelude Memory Dll Kheap.

(** process.h *)
Inductive task_state : Type := TASK_SLEEP | TASK_READY | TASK_RUNNING | TASK_FINISHED.

#[global] Instance task_state_eq_dec : EqDecision task_state.
Proof. solve_decision. Defined.

Record thread_t : Type := Thread {
  t_process : Z;
  t_esp : Z;
  t_ss : Z;
  t_kstack : Z;
  t_ustack : Z;
  t_page_dir : Z;
  t_id : Z;
  t_state : task_state;
  t_priority : Z;
  t_runtime : Z;
  t_next : option Z;
  t_prev : option Z
}.

(** memset(thread, 0, sizeof(thread_t)); TASK_SLEEP is 0. *)
Definition zero_thread : thread_t := Thread 0 0 0 0 0 0 0 TASK_SLEEP 0 0 None None.
Definition SIZEOF_THREAD : Z := 52.

(** The fields of process_t that are read here. *)
Record process_t : Type := Process {
  pr_id : Z;
  pr_priority : Z;
  pr_page_dir : Z
}.
Definition SIZEOF_PROCESS : Z := 92.

Section thread_fields.
Context (t : thread_t).
Definition set_esp (v : Z) : thread_t :=
  Thread (t_process t) v (t_ss t) (t_kstack t) (t_ustack t) (t_page_dir t) (t_id t) (t_state t)
    (t_priority t) (t_runtime t) (t_next t) (t_prev t).
Definition set_state (v : task_state) : thread_t :=
  Thread (t_process t) (t_esp t) (t_ss t) (t_kstack t) (t_ustack t) (t_page_dir t) (t_id t) v
    (t_priority t) (t_runtime t) (t_next t) (t_prev t).
Definition set_runtime (v : Z) : thread_t :=
  Thread (t_process t) (t_esp t) (t_ss t) (t_kstack t) (t_ustack t) (t_page_dir t) (t_id t)
    (t_state t) (t_priority t) v (t_next t) (t_prev t).
Definition set_next (v : option Z) : thread_t :=
  Thread (t_process t) (t_esp t) (t_ss t) (t_kstack t) (t_ustack t) (t_page_dir t) (t_id t)
    (t_state t) (t_priority t) (t_runtime t) v (t_prev t).
Definition set_prev (v : option Z) : thread_t :=
  Thread (t_process t) (t_esp t) (t_ss t) (t_kstack t) (t_ustack t) (t_page_dir t) (t_id t)
    (t_state t) (t_priority t) (t_runtime t) (t_next t) v.
End thread_fields.

Record sched (H : Type) : Type := Sched {
  threads : gmap Z thread_t;
  procs : gmap Z process_t;
  kernel_thread : option Z;
  current_thread : option Z;
  scheduling : bool;
  num_threads : Z;
  last_thread_id : Z;
  last_process_id : Z;
  old_cycles_count : Z;
  tsc_reads : nat;          (** how often the cycle counter was read *)
  current_directory : Z;
  kernel_directory : Z;
  tss_esp0 : Z;             (** tss_entry.esp0, set by set_kernel_stack *)
  s_if : bool;              (** EFLAGS.IF *)
  raised : list Z;          (** software interrupts, latest first *)
  s_heap : H
}.
Arguments Sched {H}.
Arguments threads {H}. Arguments procs {H}. Arguments kernel_thread {H}.
Arguments current_thread {H}. Arguments scheduling {H}. Arguments num_threads {H}.
Arguments last_thread_id {H}. Arguments last_process_id {H}. Arguments old_cycles_count {H}.
Arguments tsc_reads {H}. Arguments current_directory {H}. Arguments kernel_directory {H}.
Arguments tss_esp0 {H}. Arguments s_if {H}. Arguments raised {H}. Arguments s_heap {H}.

Section scheduler.
Context {H : Type} `{KernelHeap H}.
(** The n-th reading of the cycle counter (rdtsc). *)
Context (rdtsc : nat -> Z).
Implicit Types (s : sched H).

Definition with_threads (t : gmap Z thread_t) (s : sched H) : sched H :=
  Sched t (procs s) (kernel_thread s) (current_thread s) (scheduling s) (num_threads s)
    (last_thread_id s) (last_process_id s) (old_cycles_count s) (tsc_reads s)
    (current_directory s) (kernel_directory s) (tss_esp0 s) (s_if s) (raised s) (s_heap s).
Definition with_procs (p : gmap Z process_t) (s : sched H) : sched H :=
  Sched (threads s) p (kernel_thread s) (current_thread s) (scheduling s) (num_threads s)
    (last_thread_id s) (last_process_id s) (old_cycles_count s) (tsc_reads s)
    (current_directory s) (kernel_directory s) (tss_esp0 s) (s_if s) (raised s) (s_heap s).
Definition with_current (c : option Z) (s : sched H) : sched H :=
  Sched (threads s) (procs s) (kernel_thread s) c (scheduling s) (num_threads s)
    (last_thread_id s) (last_process_id s) (old_cycles_count s) (tsc_reads s)
    (current_directory s) (kernel_directory s) (tss_esp0 s) (s_if s) (raised s) (s_heap s).
Definition with_kernel_thread (k : option Z) (s : sched H) : sched H :=
  Sched (threads s) (procs s) k (current_thread s) (scheduling s) (num_threads s)
    (last_thread_id s) (last_process_id s) (old_cycles_count s) (tsc_reads s)
    (current_directory s) (kernel_directory s) (tss_esp0 s) (s_if s) (raised s) (s_heap s).
Definition with_scheduling (b : bool) (s : sched H) : sched H :=
  Sched (threads s) (procs s) (kernel_thread s) (current_thread s) b (num_threads s)
    (last_thread_id s) (last_process_id s) (old_cycles_count s) (tsc_reads s)
    (current_directory s) (kernel_directory s) (tss_esp0 s) (s_if s) (raised s) (s_heap s).
Definition with_num_threads (n : Z) (s : sched H) : sched H :=
  Sched (threads s) (procs s) (kernel_thread s) (current_thread s) (scheduling s) n
    (last_thread_id s) (last_process_id s) (old_cycles_count s) (tsc_reads s)
    (current_directory s) (kernel_directory s) (tss_esp0 s) (s_if s) (raised s) (s_heap s).
Definition with_ids (t p : Z) (s : sched H) : sched H :=
  Sched (threads s) (procs s) (kernel_thread s) (current_thread s) (scheduling s) (num_threads s)
    t p (old_cycles_count s) (tsc_reads s)
    (current_directory s) (kernel_directory s) (tss_esp0 s) (s_if s) (raised s) (s_heap s).
Definition with_cycles (c : Z) (n : nat) (s : sched H) : sched H :=
  Sched (threads s) (procs s) (kernel_thread s) (current_thread s) (scheduling s) (num_threads s)
    (last_thread_id s) (last_process_id s) c n
    (current_directory s) (kernel_directory s) (tss_esp0 s) (s_if s) (raised s) (s_heap s).
Definition with_directory (d : Z) (s : sched H) : sched H :=
  Sched (threads s) (procs s) (kernel_thread s) (current_thread s) (scheduling s) (num_threads s)
    (last_thread_id s) (last_process_id s) (old_cycles_count s) (tsc_reads s)
    d (kernel_directory s) (tss_esp0 s) (s_if s) (raised s) (s_heap s).
Definition with_esp0 (e : Z) (s : sched H) : sched H :=
  Sched (threads s) (procs s) (kernel_thread s) (current_thread s) (scheduling s) (num_threads s)
    (last_thread_id s) (last_process_id s) (old_cycles_count s) (tsc_reads s)
    (current_directory s) (kernel_directory s) e (s_if s) (raised s) (s_heap s).
Definition with_flag (b : bool) (s : sched H) : sched H :=
  Sched (threads s) (procs s) (kernel_thread s) (current_thread s) (scheduling s) (num_threads s)
    (last_thread_id s) (last_process_id s) (old_cycles_count s) (tsc_reads s)
    (current_directory s) (kernel_directory s) (tss_esp0 s) b (raised s) (s_heap s).
Definition with_raised (r : list Z) (s : sched H) : sched H :=
  Sched (threads s) (procs s) (kernel_thread s) (current_thread s) (scheduling s) (num_threads s)
    (last_thread_id s) (last_process_id s) (old_cycles_count s) (tsc_reads s)
    (current_directory s) (kernel_directory s) (tss_esp0 s) (s_if s) r (s_heap s).
Definition with_heap (h : H) (s : sched H) : sched H :=
  Sched (threads s) (procs s) (kernel_thread s) (current_thread s) (scheduling s) (num_threads s)
    (last_thread_id s) (last_process_id s) (old_cycles_count s) (tsc_reads s)
    (current_directory s) (kernel_directory s) (tss_esp0 s) (s_if s) (raised s) h.

Definition on_heap {A} (c : M H A) : M (sched H) A := zoom s_heap with_heap c.

(** system.h: irq_save returns EFLAGS and clears IF, irq_restore sets it back. *)
Definition irq_save : M (sched H) bool :=
  b ← gets s_if; modify (with_flag false);; mret b.
Definition irq_restore (b : bool) : M (sched H) unit := modify (with_flag b).

(** Access through a thread pointer. *)
Definition thread_at (p : option Z) : M (sched H) thread_t := fun s =>
  match p with
  | None => Err (Fault 0)
  | Some a => match threads s !! a with Some t => Ok (t, s) | None => Err (Fault a) end
  end.
Definition upd_thread (p : option Z) (f : thread_t -> thread_t) : M (sched H) unit :=
  t ← thread_at p;
  match p with
  | None => mret tt
  | Some a => modify (fun s => with_threads (<[a := f t]> (threads s)) s)
  end.

(** ** scheduler.c *)

Definition schedule_thread (thread : option Z) : M (sched H) unit :=
  match thread with
  | None => mret tt
  | Some _ =>
      irq_state ← irq_save;
      upd_thread thread (fun t => set_state t TASK_READY);;
      upd_thread thread (fun t => set_prev t None);;
      upd_thread thread (fun t => set_next t None);;
      k ← gets kernel_thread;
      (match k with
       | None =>
           modify (with_kernel_thread thread);;
           modify (with_current thread);;
           upd_thread thread (fun t => set_prev t thread);;
           upd_thread thread (fun t => set_next t thread)
       | Some _ =>
           current ← gets current_thread;
           c ← thread_at current;
           upd_thread thread (fun t => set_prev t (t_prev c));;
           upd_thread thread (fun t => set_next t current);;
           c ← thread_at current;
           upd_thread (t_prev c) (fun t => set_next t thread);;
           upd_thread current (fun t => set_prev t thread)
       end);;
      irq_restore irq_state
  end.

Definition unschedule_thread (thread : option Z) : M (sched H) unit :=
  k ← gets kernel_thread;
  match thread with
  | None => mret tt
  | Some _ =>
      if bool_decide (thread = k) then mret tt
      else
        irq_state ← irq_save;
        t ← thread_at thread;
        (match t_prev t with
         | Some _ => upd_thread (t_prev t) (fun p => set_next p (t_next t))
         | None => mret tt
         end);;
        t ← thread_at thread;
        (match t_next t with
         | Some _ => upd_thread (t_next t) (fun n => set_prev n (t_prev t))
         | None => mret tt
         end);;
        irq_restore irq_state
  end.

(** irq_enable(); interrupt(IRQ(0)); *)
Definition switch_next : M (sched H) unit :=
  modify (with_flag true);;
  modify (fun s => with_raised (0x20 :: raised s) s).

(** [while (thread && thread->state == TASK_SLEEP) thread = thread->next;] *)
Fixpoint skip_sleeping (fuel : nat) (thread : option Z) : M (sched H) (option Z) :=
  match thread with
  | None => mret None
  | Some _ =>
      t ← thread_at thread;
      if bool_decide (t_state t = TASK_SLEEP) then
        match fuel with O => throw Hang | S fuel' => skip_sleeping fuel' (t_next t) end
      else mret thread
  end.

Definition next_ready_thread (fuel : nat) : M (sched H) (option Z) :=
  current ← gets current_thread;
  match current with
  | None => mret None
  | Some _ => c ← thread_at current; skip_sleeping fuel (t_next c)
  end.

(** system.c: get_cycles_count *)
Definition get_cycles_count : M (sched H) Z :=
  n ← gets tsc_reads;
  modify (fun s => with_cycles (old_cycles_count s) (S n) s);;
  mret (u64 (rdtsc n)).

Definition set_old_cycles (c : Z) : M (sched H) unit :=
  modify (fun s => with_cycles c (tsc_reads s) s).

(** ** thread.c: destroy_thread *)

Definition destroy_thread (thread : option Z) : M (sched H) unit :=
  match thread with
  | None => mret tt
  | Some a =>
      modify (fun s => with_num_threads (u32 (num_threads s - 1)) s);;
      t ← thread_at thread;
      on_heap (kfree (t_kstack t));;
      when (negb (t_ustack t =? 0)) (on_heap (kfree (t_ustack t)));;
      on_heap (kfree a);;
      modify (fun s => with_threads (delete a (threads s)) s)
  end.

(** ** scheduler.c: the tick

    "register current esp and terminate task if needed" *)
Definition leave_current (old_esp new_cycles_count : Z) : M (sched H) unit :=
  current ← gets current_thread;
  c ← thread_at current;
  if bool_decide (t_state c = TASK_FINISHED) then
    unschedule_thread current;;
    destroy_thread current
  else
    old ← gets old_cycles_count;
    upd_thread current (fun t => set_esp t old_esp);;
    upd_thread current (fun t => set_state t TASK_READY);;
    upd_thread current (fun t => set_runtime t (u64 (t_runtime t + (new_cycles_count - old)))).

(** "switch to next task": the stack pointer to resume from. *)
Definition enter_next (next : option Z) : M (sched H) Z :=
  n ← thread_at next;
  let esp := t_esp n in
  modify (with_esp0 (u32 esp));;
  upd_thread next (fun t => set_state t TASK_RUNNING);;
  modify (with_current next);;
  dir ← gets current_directory;
  n ← thread_at next;
  when (negb (dir =? t_page_dir n)) (modify (with_directory (t_page_dir n)));;
  mret esp.

(** The start of a measured interval: [if (old_cycles_count == 0) ...] *)
Definition start_cycles : M (sched H) unit :=
  old ← gets old_cycles_count;
  if old =? 0 then c ← get_cycles_count; set_old_cycles c else mret tt.

(** [regs] is the stack pointer of the interrupted thread; the result is the
    stack pointer to resume from. *)
Definition schedule_tick (fuel : nat) (regs : Z) : M (sched H) Z :=
  irq_state ← irq_save;
  let old_esp := regs in
  start_cycles;;
  new_cycles_count ← get_cycles_count;
  next ← next_ready_thread fuel;
  current ← gets current_thread;
  esp ←
    (if bool_decide (next <> None) && bool_decide (next <> current) then
       leave_current old_esp new_cycles_count;;
       enter_next next
     else mret old_esp);
  c ← get_cycles_count;
  set_old_cycles c;;
  irq_restore irq_state;;
  mret esp.

Definition getpid : M (sched H) Z :=
  current ← gets current_thread;
  match current with
  | None => mret 0
  | Some _ => c ← thread_at current; mret (t_id c)
  end.

Definition scheduling_finish : M (sched H) unit := modify (with_scheduling false).

(** ** thread.c: creation *)

Definition STACK_SIZE : Z := 0x2000.
Definition stack_top (s : Z) : Z := s + STACK_SIZE.

Definition request_thread_id : M (sched H) Z :=
  s ← get;
  let id := u32 (last_thread_id s + 1) in
  modify (with_ids id (last_process_id s));;
  mret id.

Definition get_num_threads : M (sched H) Z := gets num_threads.

Definition create_kernel_thread : M (sched H) unit :=
  irq_state ← irq_save;
  thread ← on_heap (kmalloc SIZEOF_THREAD);
  if thread =? 0 then mret tt
  else
    id ← request_thread_id;
    dir ← gets current_directory;
    modify (fun s => with_threads
      (<[thread := Thread 0 0 0 0 0 dir id TASK_SLEEP 0 0 None None]> (threads s)) s);;
    modify (fun s => with_num_threads (u32 (num_threads s + 1)) s);;
    schedule_thread (Some thread);;
    irq_restore irq_state.

Definition scheduling_init : M (sched H) unit :=
  irq_state ← irq_save;
  current ← gets current_thread;
  (match current with None => create_kernel_thread | Some _ => mret tt end);;
  modify (with_scheduling true);;
  irq_restore irq_state.

(** PUSH of each word in turn; the new stack pointer. *)
Fixpoint push_all (stack : Z) (ws : list Z) : M mem Z :=
  match ws with
  | [] => mret stack
  | w :: ws' => store32 (u32 (stack - 4)) (u32 w);; push_all (u32 (stack - 4)) ws'
  end.

(** [thread_exit_addr] is the address of thread_exit. *)
Definition create_thread (thread_exit_addr process entry args priority : Z) (user vm86 : bool)
    : M (sched H) Z :=
  thread ← on_heap (kmalloc SIZEOF_THREAD);
  if thread =? 0 then mret 0
  else
    kstack0 ← on_heap (kmalloc STACK_SIZE);
    if kstack0 =? 0 then mret 0
    else
      ustack0 ← (if user then on_heap (kmalloc STACK_SIZE) else mret 0);
      if user && (ustack0 =? 0) then mret 0
      else
        let kstack := u32 (stack_top kstack0) in
        let data_segment := if user then 0x20 + 3 else 0x10 in
        let code_segment := if user then 0x18 + 3 else 0x08 in
        let eflags := Z.lor (if user then 0x3202 else 0x0202) (if vm86 then Z.shiftl 1 17 else Z.shiftl 0 17) in
        kstack ←
          (if user then
             ustack ← on_heap (heap_access (push_all (u32 (stack_top ustack0)) [args; 0xdeadcaca]));
             on_heap (heap_access (push_all kstack [0x23; ustack]))
           else on_heap (heap_access (push_all kstack [args; thread_exit_addr])));
        kstack ← on_heap (heap_access (push_all kstack
          [eflags; code_segment; entry; 0; 0; 0; 0; 0; 0; 0; 0; 0;
           data_segment; data_segment; data_segment; data_segment]));
        id ← request_thread_id;
        p ← gets (fun s => procs s !! process);
        match p with
        | None => throw (Fault process)
        | Some p =>
            modify (fun s => with_threads
              (<[thread := Thread process kstack data_segment kstack0 ustack0 (pr_page_dir p) id
                   TASK_SLEEP (Z.min priority (pr_priority p)) 0 None None]> (threads s)) s);;
            irq_state ← irq_save;
            modify (fun s => with_num_threads (u32 (num_threads s + 1)) s);;
            schedule_thread (Some thread);;
            irq_restore irq_state;;
            t ← thread_at (Some thread);
            mret (t_id t)
        end.

Definition thread_exit : M (sched H) unit :=
  modify (with_flag false);;
  current ← gets current_thread;
  upd_thread current (fun t => set_state t TASK_FINISHED);;
  modify (with_flag true);;
  switch_next.
End scheduler.
