(* ===== verification/SchedSpec.v ===== *)
(** The scheduler's ring and what each operation does to it. *)

From S2P Require Import Prelude Memory Dll Kheap Sched.

(** ** Views of the thread map *)

Definition nxt (m : gmap Z thread_t) (a : Z) : option Z := m !! a ≫= t_next.
Definition prv (m : gmap Z thread_t) (a : Z) : option Z := m !! a ≫= t_prev.

(** Everything of a thread but its links. *)
Definition body (t : thread_t) : thread_t := set_prev (set_next t None) None.
Definition bodies (m : gmap Z thread_t) (a : Z) : option thread_t := body <$> m !! a.

Section alters.
Context (m : gmap Z thread_t) (a x : Z) (f : thread_t -> thread_t).

Lemma nxt_alter_next v : is_Some (m !! a) ->
  nxt (alter (fun t => set_next t v) a m) x = if decide (x = a) then v else nxt m x.
Proof.
  intros [t Ht]. unfold nxt. case_decide as D; [subst; by rewrite lookup_alter_eq, Ht|].
  by rewrite lookup_alter_ne by done.
Qed.

Lemma prv_alter_prev v : is_Some (m !! a) ->
  prv (alter (fun t => set_prev t v) a m) x = if decide (x = a) then v else prv m x.
Proof.
  intros [t Ht]. unfold prv. case_decide as D; [subst; by rewrite lookup_alter_eq, Ht|].
  by rewrite lookup_alter_ne by done.
Qed.

Lemma nxt_alter : (forall t, t_next (f t) = t_next t) -> nxt (alter f a m) x = nxt m x.
Proof.
  intros Hf. unfold nxt. destruct (decide (a = x)) as [->|D].
  - rewrite lookup_alter_eq. destruct (m !! x); simpl; auto.
  - by rewrite lookup_alter_ne.
Qed.

Lemma prv_alter : (forall t, t_prev (f t) = t_prev t) -> prv (alter f a m) x = prv m x.
Proof.
  intros Hf. unfold prv. destruct (decide (a = x)) as [->|D].
  - rewrite lookup_alter_eq. destruct (m !! x); simpl; auto.
  - by rewrite lookup_alter_ne.
Qed.

Lemma bodies_alter : (forall t, body (f t) = body t) -> bodies (alter f a m) x = bodies m x.
Proof.
  intros Hf. unfold bodies. destruct (decide (a = x)) as [->|D].
  - rewrite lookup_alter_eq. destruct (m !! x); simpl; [by rewrite Hf | done].
  - by rewrite lookup_alter_ne.
Qed.

Lemma live_alter : is_Some (alter f a m !! x) <-> is_Some (m !! x).
Proof.
  destruct (decide (a = x)) as [->|D].
  - rewrite lookup_alter_eq. by rewrite fmap_is_Some.
  - by rewrite lookup_alter_ne.
Qed.
End alters.

(** The ring of threads, from the current one: following [t_next] visits
    [ks] and comes back, [t_prev] leads the other way. *)
Record ring (m : gmap Z thread_t) (ks : list Z) : Prop := {
  ring_nodup : NoDup ks;
  ring_links : dseg (nxt m) (prv m) (last_ptr None ks) ks (first_ptr ks None);
  ring_live : forall a, a ∈ ks -> is_Some (m !! a)
}.

Section updates.
Context {H : Type} `{KernelHeap H}.
Implicit Types (s : sched H).

Lemma thread_at_ok s a t : threads s !! a = Some t -> thread_at (Some a) s = Ok (t, s).
Proof. intros E. unfold thread_at. by rewrite E. Qed.

Lemma upd_thread_ok s a f :
  is_Some (threads s !! a) ->
  upd_thread (Some a) f s = Ok (tt, with_threads (alter f a (threads s)) s).
Proof.
  intros [t Ht]. unfold upd_thread. rewrite (bind_ok _ _ _ _ _ (thread_at_ok _ _ _ Ht)).
  unfold modify. do 3 f_equal. apply map_eq. intros x. destruct (decide (a = x)) as [->|D].
  - by rewrite lookup_insert_eq, lookup_alter_eq, Ht.
  - by rewrite lookup_insert_ne, lookup_alter_ne.
Qed.

Lemma with_threads_twice m1 m2 s : with_threads m2 (with_threads m1 s) = with_threads m2 s.
Proof. done. Qed.
Lemma with_threads_id s : with_threads (threads s) s = s.
Proof. by destruct s. Qed.
Lemma threads_with m s : threads (with_threads m s) = m.
Proof. done. Qed.
End updates.

(** ** schedule_thread *)

(** The first writes of schedule_thread: the thread is ready and unlinked. *)
Definition readied (a : Z) (m : gmap Z thread_t) : gmap Z thread_t :=
  alter (fun t => set_next t None) a
    (alter (fun t => set_prev t None) a (alter (fun t => set_state t TASK_READY) a m)).

(** The links written between the last thread [z] and the current [c]. *)
Definition linked_in (a z c : Z) (m : gmap Z thread_t) : gmap Z thread_t :=
  alter (fun t => set_prev t (Some a)) c
    (alter (fun t => set_next t (Some a)) z
       (alter (fun t => set_next t (Some c)) a (alter (fun t => set_prev t (Some z)) a m))).

Section ring_insert.
Context (m : gmap Z thread_t) (c : Z) (ks : list Z) (a z : Z).
Context (Hr : ring m (c :: ks)) (Ha : a ∉ c :: ks) (Hlive : is_Some (m !! a)).
Context (Hz : last_ptr None (c :: ks) = Some z).

Lemma last_in_ring : z ∈ c :: ks.
Proof. by eapply last_ptr_in. Qed.

Lemma linked_in_live x : is_Some (linked_in a z c m !! x) <-> is_Some (m !! x).
Proof. unfold linked_in. by rewrite !live_alter. Qed.

Lemma linked_in_nxt x :
  nxt (linked_in a z c m) x =
  if decide (x = z) then Some a else if decide (x = a) then Some c else nxt m x.
Proof.
  pose proof last_in_ring as Hzin. pose proof (ring_live _ _ Hr) as L.
  unfold linked_in. rewrite nxt_alter by done.
  rewrite nxt_alter_next by (rewrite !live_alter; by apply L). case_decide; [done|].
  rewrite nxt_alter_next by (by rewrite live_alter). case_decide; [done|]. by rewrite nxt_alter.
Qed.

Lemma linked_in_prv x :
  prv (linked_in a z c m) x =
  if decide (x = c) then Some a else if decide (x = a) then Some z else prv m x.
Proof.
  pose proof (ring_live _ _ Hr) as L. unfold linked_in.
  rewrite prv_alter_prev by (rewrite !live_alter; apply L; set_solver). case_decide; [done|].
  rewrite !prv_alter by done. by rewrite prv_alter_prev.
Qed.

(** Inserting before the current thread is appending to the ring. *)
Lemma ring_insert : ring (linked_in a z c m) (c :: ks ++ [a]).
Proof.
  pose proof last_in_ring as Hzin.
  pose proof (ring_nodup _ _ Hr) as Hnd. pose proof (ring_links _ _ Hr) as Hs.
  change (c :: ks ++ [a]) with ((c :: ks) ++ [a]). split.
  - apply NoDup_app. split_and!; [done | set_solver | apply NoDup_singleton].
  - rewrite last_ptr_snoc. cbn [first_ptr app].
    assert (Hp : dseg (nxt m) (fun x => if decide (x = c) then Some a else prv m x) (Some a) (c :: ks) (Some c)).
    { eapply dseg_enter; [done | exact Hs |]. intros x Hx. cbn [first_ptr].
      destruct (decide (x = c)), (decide (Some c = Some x)); congruence. }
    apply (dseg_snoc _ _ _ _ _ (c :: ks) _ _ _ Hnd Ha Hp).
    + intros x Hx. rewrite linked_in_nxt, Hz.
      destruct (decide (x = z)), (decide (Some z = Some x)); try congruence.
      by rewrite decide_False by (by intros ->).
    + intros x Hx. rewrite linked_in_prv. case_decide; [done|].
      by rewrite decide_False by (by intros ->).
    + rewrite linked_in_nxt, decide_False, decide_True by (done || by intros ->). done.
    + rewrite linked_in_prv, decide_False, decide_True by (done || set_solver).
      cbn [last_ptr] in *. done.
  - intros x Hx. rewrite linked_in_live. apply elem_of_app in Hx as [Hx|Hx].
    + by apply (ring_live _ _ Hr).
    + apply list_elem_of_singleton in Hx as ->. done.
Qed.

Lemma linked_in_bodies x : bodies (linked_in a z c m) x = bodies m x.
Proof. unfold linked_in. by rewrite !bodies_alter. Qed.
End ring_insert.

Lemma readied_nxt m a x : is_Some (m !! a) ->
  nxt (readied a m) x = if decide (x = a) then None else nxt m x.
Proof.
  intros L. unfold readied. rewrite nxt_alter_next by (by rewrite !live_alter).
  by rewrite !nxt_alter.
Qed.

Lemma readied_prv m a x : is_Some (m !! a) ->
  prv (readied a m) x = if decide (x = a) then None else prv m x.
Proof.
  intros L. unfold readied. rewrite prv_alter by done. rewrite prv_alter_prev by (by rewrite live_alter).
  by rewrite prv_alter.
Qed.

Lemma readied_live m a x : is_Some (readied a m !! x) <-> is_Some (m !! x).
Proof. unfold readied. by rewrite !live_alter. Qed.

Lemma readied_bodies m a t x : m !! a = Some t ->
  bodies (readied a m) x = if decide (x = a) then Some (body (set_state t TASK_READY)) else bodies m x.
Proof.
  intros Ht. unfold readied. rewrite !bodies_alter by done. unfold bodies. case_decide as D.
  - subst. by rewrite lookup_alter_eq, Ht.
  - by rewrite lookup_alter_ne by done.
Qed.

(** A ring does not mention a thread outside it. *)
Lemma ring_readied m ks a : ring m ks -> a ∉ ks -> ring (readied a m) ks.
Proof.
  intros Hr Ha. destruct (decide (is_Some (m !! a))) as [L|L].
  - split; [apply Hr | | intros x Hx; rewrite readied_live; by apply Hr].
    eapply dseg_ext; [|apply (ring_links _ _ Hr)]. intros k Hk.
    rewrite readied_nxt, readied_prv by done.
    by rewrite !decide_False by (by intros ->).
  - assert (readied a m = m) as ->; [|done].
    unfold readied. apply eq_None_not_Some in L.
    rewrite (alter_id _ m), (alter_id _ m), alter_id; [done|..]; intros y Hy; congruence.
Qed.

Section operations.
Context {H : Type} `{KernelHeap H}.
Implicit Types (s : sched H).

Lemma irq_save_ok s : irq_save s = Ok (s_if s, with_flag false s).
Proof. done. Qed.

(** The first three writes of schedule_thread. *)
Lemma readied_run {B} s a (c : M (sched H) B) :
  is_Some (threads s !! a) ->
  (upd_thread (Some a) (fun t => set_state t TASK_READY);;
   upd_thread (Some a) (fun t => set_prev t None);;
   upd_thread (Some a) (fun t => set_next t None);; c) s =
  c (with_threads (readied a (threads s)) s).
Proof.
  intros La. rewrite (bind_ok _ _ _ _ _ (upd_thread_ok s _ _ La)).
  erewrite bind_ok; [|apply upd_thread_ok; cbn [threads with_threads]; by rewrite live_alter].
  erewrite bind_ok; [|apply upd_thread_ok; cbn [threads with_threads]; by rewrite !live_alter].
  done.
Qed.

(** Links of the current thread. *)
Lemma ring_prev_current m c ks : ring m (c :: ks) ->
  exists t z, m !! c = Some t /\ t_prev t = Some z /\ last_ptr None (c :: ks) = Some z.
Proof.
  intros Hr. destruct (ring_live _ _ Hr c) as [t Ht]; [set_solver|].
  pose proof (ring_links _ _ Hr) as (Hp & _ & _). cbn [last_ptr] in *.
  unfold prv in Hp. rewrite Ht in Hp. simpl in Hp.
  destruct ks as [|x ks _] using rev_ind; simpl in *.
  - by exists t, c.
  - rewrite last_ptr_snoc in *. by exists t, x.
Qed.

Lemma schedule_thread_run s c ks a k z :
  ring (threads s) (c :: ks) -> current_thread s = Some c -> kernel_thread s = Some k ->
  is_Some (threads s !! a) -> a ∉ c :: ks -> last_ptr None (c :: ks) = Some z ->
  schedule_thread (Some a) s =
  Ok (tt, with_threads (linked_in a z c (readied a (threads s))) s).
Proof.
  intros Hr Hc Hk La Ha Hz. unfold schedule_thread.
  rewrite (bind_ok _ _ _ _ _ (irq_save_ok s)).
  rewrite (readied_run (with_flag false s) a _ La). cbn [threads with_flag].
  pose proof (ring_readied _ _ _ Hr Ha) as Hr'. set (m := readied a (threads s)) in *.
  assert (La' : is_Some (m !! a)) by by apply readied_live.
  destruct (ring_prev_current _ _ _ Hr') as (tc & z' & Htc & Hpc & Hz').
  assert (z' = z) as -> by congruence. set (s1 := with_threads m _).
  rewrite (bind_ok _ _ s1 (Some k) s1) by (unfold gets; by rewrite <- Hk).
  set (m2 := alter (fun t => set_next t (Some c)) a (alter (fun t => set_prev t (Some z)) a m)).
  assert (Htc2 : exists t, m2 !! c = Some t /\ t_prev t = Some z).
  { exists tc. split; [|done]. unfold m2. by rewrite !lookup_alter_ne by set_solver. }
  destruct Htc2 as (tc2 & Htc2 & Hpc2).
  assert (Lz : is_Some (m2 !! z)).
  { unfold m2. rewrite !live_alter. apply (ring_live _ _ Hr'). by eapply last_in_ring. }
  rewrite (bind_ok _ _ s1 tt (with_threads (linked_in a z c m) s1)).
  2: { rewrite (bind_ok _ _ s1 (Some c) s1) by (unfold gets; by rewrite <- Hc).
       rewrite (bind_ok _ _ s1 _ s1 (thread_at_ok s1 _ _ Htc)), Hpc.
       rewrite (bind_ok _ _ _ _ _ (upd_thread_ok s1 _ _ La')).
       rewrite (bind_ok _ _ _ tt (with_threads m2 s1)).
       2: { rewrite upd_thread_ok by (cbn [threads with_threads]; by rewrite live_alter). done. }
       rewrite (bind_ok _ _ _ _ _ (thread_at_ok (with_threads m2 s1) _ _ Htc2)), Hpc2.
       rewrite (bind_ok _ _ _ _ _ (upd_thread_ok (with_threads m2 s1) _ _ Lz)).
       rewrite upd_thread_ok; [done|]. cbn [threads with_threads]. rewrite live_alter. eauto. }
  by destruct s.
Qed.

(** The first thread becomes kernel thread and current thread of a ring of one. *)
Lemma schedule_first_run s a :
  kernel_thread s = None -> is_Some (threads s !! a) ->
  schedule_thread (Some a) s =
  Ok (tt, with_threads (alter (fun t => set_next t (Some a)) a
            (alter (fun t => set_prev t (Some a)) a (readied a (threads s))))
            (with_current (Some a) (with_kernel_thread (Some a) s))).
Proof.
  intros Hk La. unfold schedule_thread. rewrite (bind_ok _ _ _ _ _ (irq_save_ok s)).
  rewrite (readied_run (with_flag false s) a _ La). cbn [threads with_flag].
  assert (La' : is_Some (readied a (threads s) !! a)) by by apply readied_live.
  set (m := readied a (threads s)) in *. set (s1 := with_threads m _).
  rewrite (bind_ok _ _ s1 None s1) by (unfold gets; by rewrite <- Hk).
  set (s2 := with_current (Some a) (with_kernel_thread (Some a) s1)).
  rewrite (bind_ok _ _ s1 tt (with_threads (alter (fun t => set_next t (Some a)) a
            (alter (fun t => set_prev t (Some a)) a m)) s2)).
  2: { rewrite (bind_ok _ _ s1 tt (with_kernel_thread (Some a) s1)) by done.
       rewrite (bind_ok _ _ _ tt s2) by done.
       rewrite (bind_ok _ _ _ _ _ (upd_thread_ok s2 _ _ La')).
       rewrite upd_thread_ok; [done|]. cbn [threads with_threads]. by rewrite live_alter. }
  by destruct s.
Qed.

Lemma ring_first m a : is_Some (m !! a) ->
  ring (alter (fun t => set_next t (Some a)) a (alter (fun t => set_prev t (Some a)) a m)) [a].
Proof.
  intros La. split; [apply NoDup_singleton | |].
  - simpl. rewrite prv_alter, prv_alter_prev, nxt_alter_next by (by rewrite ?live_alter).
    by rewrite !decide_True by done.
  - intros x ->%list_elem_of_singleton. by rewrite !live_alter.
Qed.
End operations.

(** ** The ring seen from another thread *)

Lemma ring_rotate m l1 l2 : ring m (l1 ++ l2) -> ring m (l2 ++ l1).
Proof.
  intros [Hnd Hs Hl].
  destruct (decide (l1 = [])) as [->|N1]; [by rewrite app_nil_r|].
  destruct (decide (l2 = [])) as [->|N2]; [by rewrite app_nil_r in *|].
  split.
  - apply NoDup_app in Hnd as (? & Hd & ?). apply NoDup_app. split_and!; [done | set_solver | done].
  - apply dseg_app in Hs as [S1 S2]. apply dseg_app.
    destruct l1 as [|a1 l1]; [done|]. destruct l2 as [|a2 l2]; [done|].
    cbn [app first_ptr last_ptr] in *. rewrite last_ptr_app in *. cbn [last_ptr] in *. auto.
  - intros x Hx. apply Hl. set_solver.
Qed.

(** The links around a thread of the ring. *)
Lemma ring_next m c ks t : ring m (c :: ks) -> m !! c = Some t -> t_next t = first_ptr (ks ++ [c]) None.
Proof.
  intros Hr Ht. pose proof (ring_links _ _ Hr) as (_ & Hn & _).
  unfold nxt in Hn. rewrite Ht in Hn. simpl in Hn. rewrite Hn. by destruct ks.
Qed.

Lemma ring_same_links m m' ks :
  ring m ks -> (forall a, nxt m' a = nxt m a) -> (forall a, prv m' a = prv m a) ->
  (forall a, is_Some (m !! a) -> is_Some (m' !! a)) -> ring m' ks.
Proof.
  intros [Hnd Hs Hl] En Ep El. split; [done | | auto].
  eapply dseg_ext; [|exact Hs]. intros k _. by rewrite En, Ep.
Qed.

(** The links after removing thread [a] between [z] and [n]. *)
Definition linked_out (z n : Z) (m : gmap Z thread_t) : gmap Z thread_t :=
  alter (fun t => set_prev t (Some z)) n (alter (fun t => set_next t (Some n)) z m).

Lemma ring_remove m a n ks z :
  ring m (a :: n :: ks) -> last_ptr None (n :: ks) = Some z -> ring (linked_out z n m) (n :: ks).
Proof.
  intros [Hnd Hs Hl] Hz. assert (Hzin : z ∈ n :: ks) by by eapply last_ptr_in.
  assert (Ln : is_Some (m !! n)) by (apply Hl; set_solver).
  assert (Lz : is_Some (m !! z)) by (apply Hl; set_solver).
  apply NoDup_cons in Hnd as [Ha Hnd]. destruct Hs as (_ & _ & Hs).
  assert (En : forall x, nxt (linked_out z n m) x = if decide (x = z) then Some n else nxt m x).
  { intros x. unfold linked_out. rewrite nxt_alter by done. by rewrite nxt_alter_next. }
  assert (Ep : forall x, prv (linked_out z n m) x = if decide (x = n) then Some z else prv m x).
  { intros x. unfold linked_out. rewrite prv_alter_prev by (by rewrite live_alter). by rewrite prv_alter. }
  split; [done | | intros x Hx; unfold linked_out; rewrite !live_alter; apply Hl; set_solver].
  rewrite Hz. eapply dseg_enter; [done | eapply dseg_exit; [done | exact Hs |] |].
  - intros x Hx. rewrite En, Hz. cbn [first_ptr].
    destruct (decide (x = z)), (decide (Some z = Some x)); congruence.
  - intros x Hx. rewrite Ep. cbn [first_ptr].
    destruct (decide (x = n)), (decide (Some n = Some x)); congruence.
Qed.

(** ** Choosing the next thread *)

Definition asleep (m : gmap Z thread_t) (a : Z) : Prop :=
  exists t, m !! a = Some t /\ t_state t = TASK_SLEEP.
Definition awake (m : gmap Z thread_t) (a : Z) : Prop :=
  exists t, m !! a = Some t /\ t_state t <> TASK_SLEEP.

Section choice.
Context {H : Type} `{KernelHeap H}.
Implicit Types (s : sched H).

Lemma skip_sleeping_ok s fuel p l1 x l2 n :
  dseg (nxt (threads s)) (prv (threads s)) p (l1 ++ x :: l2) n ->
  Forall (asleep (threads s)) l1 -> awake (threads s) x -> (length l1 <= fuel)%nat ->
  skip_sleeping fuel (first_ptr (l1 ++ x :: l2) None) s = Ok (Some x, s).
Proof.
  revert fuel p. induction l1 as [|y l1 IH]; intros fuel p Hs Hl (tx & Hx & Sx) Hf.
  - assert (E : bool_decide (t_state tx = TASK_SLEEP) = false) by by apply bool_decide_eq_false.
    destruct fuel; cbn [app first_ptr skip_sleeping];
      by rewrite (bind_ok _ _ _ _ _ (thread_at_ok _ _ _ Hx)), E.
  - apply Forall_cons in Hl as [(ty & Hy & Sy) Hl]. destruct Hs as (_ & Hn & Hs).
    destruct fuel as [|fuel]; [simpl in Hf; lia|]. cbn [app first_ptr skip_sleeping].
    rewrite (bind_ok _ _ _ _ _ (thread_at_ok _ _ _ Hy)), bool_decide_eq_true_2 by done.
    unfold nxt in Hn. rewrite Hy in Hn. simpl in Hn. rewrite Hn.
    replace (first_ptr (l1 ++ x :: l2) n) with (first_ptr (l1 ++ x :: l2) None) by by destruct l1.
    apply (IH fuel (Some y)); [done | done | by exists tx | simpl in Hf; lia].
Qed.

(** The next thread is the first one after the current that is not asleep;
    the current thread itself comes last. *)
Lemma next_ready_ok s fuel c ks l1 x l2 :
  ring (threads s) (c :: ks) -> current_thread s = Some c -> ks ++ [c] = l1 ++ x :: l2 ->
  Forall (asleep (threads s)) l1 -> awake (threads s) x -> (length l1 <= fuel)%nat ->
  next_ready_thread fuel s = Ok (Some x, s).
Proof.
  intros Hr Hc E Hl Hx Hf. destruct (ring_live _ _ Hr c) as [t Ht]; [set_solver|].
  unfold next_ready_thread. rewrite (bind_ok _ _ s (Some c) s) by (unfold gets; by rewrite Hc).
  rewrite (bind_ok _ _ _ _ _ (thread_at_ok _ _ _ Ht)), (ring_next _ _ _ _ Hr Ht), E.
  pose proof (ring_links _ _ (ring_rotate _ [c] ks Hr)) as Hs. rewrite E in Hs.
  eapply skip_sleeping_ok; eauto.
Qed.

(** When every thread sleeps the search never ends. *)
Lemma skip_sleeping_hangs s fuel ks a :
  ring (threads s) ks -> Forall (asleep (threads s)) ks -> a ∈ ks ->
  skip_sleeping fuel (Some a) s = Err Hang.
Proof.
  intros Hr Hall. revert a. induction fuel as [|fuel IH]; intros a Ha.
  all: rewrite Forall_forall in Hall; destruct (Hall a Ha) as (t & Ht & St).
  all: cbn [skip_sleeping]; rewrite (bind_ok _ _ _ _ _ (thread_at_ok _ _ _ Ht)),
         bool_decide_eq_true_2 by done.
  { done. }
  apply list_elem_of_split in Ha as (l1 & l2 & ->). apply ring_rotate in Hr.
  change ((a :: l2) ++ l1) with (a :: (l2 ++ l1)) in Hr.
  rewrite (ring_next _ _ _ _ Hr Ht). destruct ((l2 ++ l1) ++ [a]) as [|y l] eqn:E.
  { by destruct (l2 ++ l1). }
  cbn [first_ptr]. apply IH.
  assert (y ∈ (l2 ++ l1) ++ [a]) by (rewrite E; set_solver). set_solver.
Qed.
End choice.

(** ** The tick *)

(** The interrupted thread after it gave up the processor. *)
Definition left_at (regs d : Z) (t : thread_t) : thread_t :=
  let t := set_state (set_esp t regs) TASK_READY in
  set_runtime t (u64 (t_runtime t + d)).

(** The thread map after a switch from [c] to [x]. *)
Definition switched (c x regs d : Z) (m : gmap Z thread_t) : gmap Z thread_t :=
  alter (fun t => set_state t TASK_RUNNING) x (alter (left_at regs d) c m).

Section tick.
Context {H : Type} `{KernelHeap H}.
Context (rdtsc : nat -> Z).
Implicit Types (s : sched H).

(** The cycle counter at the start of the interval, and the reads so far. *)
Definition interval_start s : Z * nat :=
  if old_cycles_count s =? 0 then (u64 (rdtsc (tsc_reads s)), S (tsc_reads s))
  else (old_cycles_count s, tsc_reads s).

(** The cycles charged to the interrupted thread. *)
Definition charged s : Z := u64 (rdtsc (interval_start s).2) - (interval_start s).1.

(** The cycle fields after a tick. *)
Definition cycles_after s (s' : sched H) : sched H :=
  with_cycles (u64 (rdtsc (S (interval_start s).2))) (S (S (interval_start s).2)) s'.

(** The state in which the next thread is looked for. *)
Definition at_choice s : sched H :=
  with_cycles (interval_start s).1 (S (interval_start s).2) (with_flag false s).

Lemma at_choice_threads s : threads (at_choice s) = threads s.
Proof. done. Qed.

Lemma tick_prologue {B} s (f : Z -> M (sched H) B) :
  (start_cycles rdtsc;; c ← get_cycles_count rdtsc; f c) (with_flag false s) =
  f (u64 (rdtsc (interval_start s).2)) (at_choice s).
Proof.
  unfold start_cycles, at_choice, interval_start. destruct s; cbn.
  unfold mbind, M_bind, gets. cbn. destruct (_ =? 0); reflexivity.
Qed.

Lemma leave_current_ready s c t regs n :
  current_thread s = Some c -> threads s !! c = Some t -> t_state t <> TASK_FINISHED ->
  leave_current regs n s =
  Ok (tt, with_threads (alter (left_at regs (n - old_cycles_count s)) c (threads s)) s).
Proof.
  intros Hc Ht Hst. unfold leave_current. rewrite (bind_ok _ _ s (Some c) s) by (unfold gets; by rewrite Hc).
  rewrite (bind_ok _ _ _ _ _ (thread_at_ok _ _ _ Ht)), bool_decide_eq_false_2 by done.
  rewrite (bind_ok _ _ s (old_cycles_count s) s) by done.
  assert (L : is_Some (threads s !! c)) by eauto.
  rewrite (bind_ok _ _ _ _ _ (upd_thread_ok s _ _ L)).
  erewrite bind_ok; [|apply upd_thread_ok; cbn [threads with_threads]; by rewrite live_alter].
  rewrite upd_thread_ok by (cbn [threads with_threads]; by rewrite !live_alter).
  cbn [threads with_threads]. by rewrite !alter_alter_eq.
Qed.

Lemma enter_next_ok s x t :
  threads s !! x = Some t ->
  enter_next (Some x) s =
  Ok (t_esp t, with_directory (t_page_dir t) (with_current (Some x) (with_esp0 (u32 (t_esp t))
        (with_threads (alter (fun t => set_state t TASK_RUNNING) x (threads s)) s)))).
Proof.
  intros Ht. unfold enter_next. rewrite (bind_ok _ _ _ _ _ (thread_at_ok _ _ _ Ht)).
  rewrite (bind_ok _ _ s tt (with_esp0 (u32 (t_esp t)) s)) by done.
  assert (L : is_Some (threads s !! x)) by eauto.
  rewrite (bind_ok _ _ _ _ _ (upd_thread_ok (with_esp0 (u32 (t_esp t)) s) _ _ L)).
  set (s1 := with_threads _ _).
  rewrite (bind_ok _ _ s1 tt (with_current (Some x) s1)) by done.
  rewrite (bind_ok _ _ _ (current_directory s) (with_current (Some x) s1)) by done.
  assert (E : threads (with_current (Some x) s1) !! x = Some (set_state t TASK_RUNNING)).
  { unfold s1. cbn [threads with_current with_threads with_esp0]. by rewrite lookup_alter_eq, Ht. }
  rewrite (bind_ok _ _ _ _ _ (thread_at_ok _ _ _ E)). cbn [t_page_dir set_state].
  unfold when, s1. destruct (Z.eqb_spec (current_directory s) (t_page_dir t)) as [D|D]; [|by destruct s].
  cbn [negb]. rewrite <- D. by destruct s.
Qed.

(** A tick that finds another thread to run. *)
Lemma tick_switch s fuel regs c ks l1 x l2 tc tx :
  ring (threads s) (c :: ks) -> current_thread s = Some c -> ks = l1 ++ x :: l2 ->
  Forall (asleep (threads s)) l1 -> (length l1 <= fuel)%nat ->
  threads s !! c = Some tc -> t_state tc <> TASK_FINISHED ->
  threads s !! x = Some tx -> t_state tx <> TASK_SLEEP ->
  schedule_tick rdtsc fuel regs s =
  Ok (t_esp tx, cycles_after s (with_directory (t_page_dir tx) (with_current (Some x)
        (with_esp0 (u32 (t_esp tx)) (with_threads (switched c x regs (charged s) (threads s)) s))))).
Proof.
  intros Hr Hc Hks Hl Hf Htc Sc Htx Sx.
  assert (Hxc : x <> c).
  { pose proof (ring_nodup _ _ Hr) as Hnd. apply NoDup_cons in Hnd as [Hnd _]. set_solver. }
  unfold schedule_tick. rewrite (bind_ok _ _ _ _ _ (irq_save_ok s)). cbv zeta.
  rewrite tick_prologue.
  rewrite (bind_ok _ _ _ (Some x) (at_choice s)).
  2: { apply (next_ready_ok _ _ c ks l1 x (l2 ++ [c])); try done; [|by exists tx].
       rewrite Hks. by rewrite <- app_assoc. }
  rewrite (bind_ok _ _ _ (Some c) (at_choice s)) by (unfold gets; by rewrite <- Hc).
  rewrite bool_decide_eq_true_2 by done. rewrite bool_decide_eq_true_2 by congruence. cbn [andb].
  set (s2 := with_threads (alter (left_at regs (charged s)) c (threads s)) (at_choice s)).
  assert (E2 : threads s2 !! x = Some tx) by (cbn; by rewrite lookup_alter_ne).
  erewrite (bind_ok _ _ (at_choice s)).
  2: { rewrite (bind_ok _ _ _ _ _ (leave_current_ready (at_choice s) c tc regs _ Hc Htc Sc)).
       apply (enter_next_ok s2 x tx E2). }
  by destruct s.
Qed.

Lemma switched_ring m c x regs d ks : ring m ks -> ring (switched c x regs d m) ks.
Proof.
  intros Hr. eapply ring_same_links; [done | | |]; intros a; unfold switched.
  - by rewrite !nxt_alter.
  - by rewrite !prv_alter.
  - by rewrite !live_alter.
Qed.
End tick.

(** ** Properties of the scheduler *)

Section ticks.
Context {H : Type} `{KernelHeap H}.
Context (rdtsc : nat -> Z).
Implicit Types (s : sched H).

(** The scheduler's state: a ring of threads, entered at the current one. *)
Definition scheduled s (c : Z) (ks : list Z) : Prop :=
  ring (threads s) (c :: ks) /\ current_thread s = Some c /\ is_Some (kernel_thread s).

Definition runnable (m : gmap Z thread_t) (a : Z) : Prop :=
  exists t, m !! a = Some t /\ (t_state t = TASK_READY \/ t_state t = TASK_RUNNING).

Definition esp_of (m : gmap Z thread_t) (a : Z) : Z := from_option t_esp 0 (m !! a).

Lemma switched_lookup m c x a regs d :
  x <> c ->
  switched c x regs d m !! a =
  if decide (a = x) then (fun t => set_state t TASK_RUNNING) <$> m !! a
  else if decide (a = c) then left_at regs d <$> m !! a else m !! a.
Proof.
  intros Hne. unfold switched. repeat case_decide; subst.
  - by rewrite lookup_alter_eq, lookup_alter_ne by done.
  - by rewrite lookup_alter_ne, lookup_alter_eq by done.
  - by rewrite !lookup_alter_ne by done.
Qed.

(** One tick among runnable threads goes to the next one in the ring. *)
Lemma tick_next s fuel regs c x ks :
  scheduled s c (x :: ks) -> Forall (runnable (threads s)) (c :: x :: ks) ->
  exists s', schedule_tick rdtsc fuel regs s = Ok (esp_of (threads s) x, s') /\
    scheduled s' x (ks ++ [c]) /\ Forall (runnable (threads s')) (x :: ks ++ [c]) /\
    (forall a, esp_of (threads s') a = if decide (a = c) then regs else esp_of (threads s) a) /\
    kernel_thread s' = kernel_thread s.
Proof.
  intros (Hr & Hc & Hk) Hall. apply Forall_cons in Hall as [(tc & Htc & Sc) Hall].
  apply Forall_cons in Hall as [(tx & Htx & Sx) Hall].
  assert (Hxc : x <> c).
  { pose proof (ring_nodup _ _ Hr) as Hnd. apply NoDup_cons in Hnd as [Hnd _]. set_solver. }
  set (m := threads s) in *.
  assert (Hlk := fun a => switched_lookup m c x a regs (charged rdtsc s) Hxc).
  assert (Hrun : forall a, runnable m a -> runnable (switched c x regs (charged rdtsc s) m) a).
  { intros a (t & Ht & St). unfold runnable. rewrite Hlk, Ht. repeat case_decide; cbn; eauto. }
  assert (Sc' : t_state tc <> TASK_FINISHED) by by destruct Sc as [-> | ->].
  assert (Sx' : t_state tx <> TASK_SLEEP) by by destruct Sx as [-> | ->].
  pose proof (tick_switch rdtsc s fuel regs c (x :: ks) [] x ks tc tx Hr Hc eq_refl
    (Forall_nil_2 _) (Nat.le_0_l _) Htc Sc' Htx Sx') as Hrun0.
  eexists. split; [|split_and!; [split_and!| | |]].
  - rewrite Hrun0. unfold esp_of. by rewrite Htx.
  - apply (ring_rotate _ [c] (x :: ks)). by apply switched_ring.
  - done.
  - done.
  - apply Forall_cons. split; [apply Hrun; by exists tx|].
    apply Forall_app. split; [eapply Forall_impl; eauto|]. apply Forall_singleton, Hrun. by exists tc.
  - intros a. cbn. unfold esp_of. rewrite Hlk. destruct (decide (a = x)) as [->|].
    + rewrite decide_False by done. fold m. by rewrite Htx.
    + destruct (decide (a = c)) as [->|]; [by rewrite Htc | done].
  - done.
Qed.

(** Ticks in a row, with the stack pointers of the interrupted threads. *)
Fixpoint ticks (fuel : nat) (regs : list Z) : M (sched H) (list Z) :=
  match regs with
  | [] => mret []
  | r :: regs' => e ← schedule_tick rdtsc fuel r; es ← ticks fuel regs'; mret (e :: es)
  end.

Lemma ticks_snoc fuel rs r : forall s es s1 e s2,
  ticks fuel rs s = Ok (es, s1) -> schedule_tick rdtsc fuel r s1 = Ok (e, s2) ->
  ticks fuel (rs ++ [r]) s = Ok (es ++ [e], s2).
Proof.
  induction rs as [|r0 rs IH]; intros s es s1 e s2 H1 H2; cbn [app ticks] in *.
  - injection H1 as <- <-. by rewrite (bind_ok _ _ _ _ _ H2).
  - minv H1. minv H1. injection H1 as <- <-. rewrite (bind_ok _ _ _ _ _ Hrun).
    by rewrite (bind_ok _ _ _ _ _ (IH _ _ _ _ _ Hrun0 H2)).
Qed.

Lemma ticks_prefix fuel rs : forall s c l2 l1,
  scheduled s c (l2 ++ l1) -> Forall (runnable (threads s)) (c :: l2 ++ l1) ->
  length rs = length l2 ->
  exists s' z front, ticks fuel rs s = Ok (map (esp_of (threads s)) l2, s') /\
    c :: l2 = front ++ [z] /\ scheduled s' z (l1 ++ front) /\
    Forall (runnable (threads s')) (z :: l1 ++ front) /\
    map (esp_of (threads s')) front = rs /\
    (forall a, a ∉ front -> esp_of (threads s') a = esp_of (threads s) a) /\
    kernel_thread s' = kernel_thread s.
Proof.
  induction rs as [|r rs IH]; intros s c l2 l1 Hs Hall Hlen.
  - destruct l2; [|done]. exists s, c, []. split_and!; rewrite ?app_nil_r; try done.
  - destruct l2 as [|x l2]; [done|]. injection Hlen as Hlen.
    destruct (tick_next s fuel r c x (l2 ++ l1) Hs Hall) as (s1 & H1 & Hs1 & Hall1 & He & Hk).
    rewrite <- app_assoc in Hs1, Hall1.
    pose proof (ring_nodup _ _ (proj1 Hs)) as Hnd. apply NoDup_cons in Hnd as [Hcx _].
    destruct (IH s1 x l2 (l1 ++ [c]) Hs1 Hall1 Hlen)
      as (s2 & z & front & H2 & Hz & Hs2 & Hall2 & Hf & He2 & Hk2).
    rewrite <- app_assoc in Hs2, Hall2.
    assert (Hcf : c ∉ front).
    { intros Hin. apply Hcx. assert (c ∈ x :: l2) as Hx; [rewrite Hz; set_solver|]. set_solver. }
    exists s2, z, (c :: front). split_and!; try done.
    + cbn [ticks]. rewrite (bind_ok _ _ _ _ _ H1), (bind_ok _ _ _ _ _ H2), ret_ok. cbn [map].
      do 3 f_equal. apply map_ext_in. intros a Ha%list_elem_of_In. rewrite He.
      rewrite decide_False; [done|]. intros ->. set_solver.
    + by rewrite Hz.
    + cbn [map]. f_equal; [|done]. rewrite He2 by done. by rewrite He, decide_True.
    + intros a Ha. rewrite He2 by set_solver. rewrite He, decide_False; [done|]. set_solver.
    + congruence.
Qed.
End ticks.

(** A new thread goes last in the round. *)
Lemma schedule_last {H} `{KernelHeap H} (s : sched H) c ks a t :
  scheduled s c ks -> threads s !! a = Some t -> a ∉ c :: ks ->
  exists s', schedule_thread (Some a) s = Ok (tt, s') /\ scheduled s' c (ks ++ [a]) /\
    (forall b, bodies (threads s') b =
       if decide (b = a) then Some (body (set_state t TASK_READY)) else bodies (threads s) b) /\
    s' = with_threads (threads s') s.
Proof.
  intros (Hr & Hc & [k Hk]) Ht Ha. destruct (ring_prev_current _ _ _ Hr) as (tc & z & _ & _ & Hz).
  assert (La : is_Some (threads s !! a)) by eauto.
  eexists. split; [by eapply schedule_thread_run|]. split_and!; [split_and!| |].
  - apply ring_insert; [by apply ring_readied | done | by apply readied_live | done].
  - done.
  - by exists k.
  - intros b. cbn [threads with_threads]. rewrite linked_in_bodies. by apply readied_bodies.
  - by destruct s.
Qed.

(** schedule_thread puts a new thread last in the round: just before the
    current thread, ready to run; the links of the ring stay consistent in
    both directions, no other thread changes but in its links, and the
    interrupt flag is what it was. *)
Theorem schedule_appends {H} `{KernelHeap H} (s : sched H) c ks a t :
  scheduled s c ks -> threads s !! a = Some t -> a ∉ c :: ks ->
  exists s', schedule_thread (Some a) s = Ok (tt, s') /\ scheduled s' c (ks ++ [a]) /\
    (forall b, bodies (threads s') b =
       if decide (b = a) then Some (body (set_state t TASK_READY)) else bodies (threads s) b) /\
    s' = with_threads (threads s') s.
Proof. apply schedule_last. Qed.

(** C14: the scheduler is a fair round robin. When every thread of the ring can
    run, a full round of ticks resumes each other thread once, in ring order,
    from the stack pointer it last stopped at, and then the first thread again,
    exactly where the first tick interrupted it. *)
Theorem round_robin {H} `{KernelHeap H} (rdtsc : nat -> Z) (s : sched H) fuel c ks r rs :
  scheduled s c ks -> Forall (runnable (threads s)) (c :: ks) -> ks <> [] ->
  length (r :: rs) = length (c :: ks) ->
  exists s', ticks rdtsc fuel (r :: rs) s = Ok (map (esp_of (threads s)) ks ++ [r], s') /\
    scheduled s' c ks /\ Forall (runnable (threads s')) (c :: ks) /\
    map (esp_of (threads s')) (c :: ks) = r :: rs.
Proof.
  intros Hs Hall Hne Hlen.
  destruct (exists_last (l := r :: rs)) as (rs' & r' & Er); [done|].
  assert (Hl : length rs' = length ks).
  { rewrite Er, length_app in Hlen. cbn [length] in Hlen. lia. }
  destruct (ticks_prefix rdtsc fuel rs' s c ks []) as (s1 & z & front & H1 & Hz & Hs1 & Hall1 & Hf & He & Hk);
    [by rewrite app_nil_r | by rewrite app_nil_r | done |].
  destruct front as [|c' front]; [by destruct ks|]. injection Hz as <- Hz.
  destruct (tick_next rdtsc s1 fuel r' z c front Hs1 Hall1) as (s2 & H2 & Hs2 & Hall2 & He2 & _).
  assert (Er1 : esp_of (threads s1) c = r).
  { destruct rs' as [|b rs']; [done|]. injection Er as <- _. by injection Hf. }
  pose proof (ring_nodup _ _ (proj1 Hs1)) as Hnd. apply NoDup_cons in Hnd as [Hzf _].
  rewrite <- Hz in Hs2, Hall2. exists s2. split_and!; [|done|done|].
  - rewrite Er. rewrite (ticks_snoc rdtsc fuel rs' r' s _ s1 _ s2 H1 H2). by rewrite Er1.
  - rewrite Er, Hz. rewrite <- Hf. change (c :: front ++ [z]) with ((c :: front) ++ [z]).
    rewrite map_app. f_equal.
    + apply map_ext_in. intros a Ha%list_elem_of_In. rewrite He2.
      by rewrite decide_False by (by intros ->).
    + cbn [map]. by rewrite He2, decide_True.
Qed.

(** ** A concrete scheduler: two threads on the placement heap *)

#[local] Instance boot_heap : KernelHeap kheap_state :=
  kheap_heap (fun _ => throw Hang) (fun _ m => m) 0 0 0 0xc0000000.

(** The state in which main calls scheduling_init. *)
Definition boot_sched : sched kheap_state :=
  Sched ∅ {[0xc0111000 := Process 1 1 0xc0112000]} None None false 0 0 0 0 0 0xc0110000 0xc0110000 0
    true [] boot_kheap.

(** The kernel thread and two threads of a process. *)
Definition start_two : M (sched kheap_state) (Z * Z) :=
  scheduling_init;;
  a ← create_thread 0xc0100500 0xc0111000 0xc0100100 7 1 false false;
  b ← create_thread 0xc0100500 0xc0111000 0xc0100200 8 5 true false;
  mret (a, b).

Definition two_threads : sched kheap_state :=
  match start_two boot_sched with Ok (_, s) => s | Err _ => boot_sched end.

(** The addresses of the three threads. *)
Definition kthread : Z := 0xc0110123.
Definition thread1 : Z := 0xc0110157.
Definition thread2 : Z := 0xc011218b.

Lemma two_threads_ring : scheduled two_threads kthread [thread1; thread2].
Proof.
  split_and!; [split | vm_compute; reflexivity | vm_compute; eauto].
  - apply (bool_decide_unpack (NoDup [kthread; thread1; thread2])). vm_compute. exact I.
  - vm_compute. split_and!; reflexivity.
  - intros a Ha. rewrite !elem_of_cons, elem_of_nil in Ha.
    destruct Ha as [-> | [-> | [-> | []]]]; vm_compute; eauto.
Defined.

Lemma two_threads_runnable : Forall (runnable (threads two_threads)) [kthread; thread1; thread2].
Proof. repeat constructor; eexists; (split; [vm_compute; reflexivity | vm_compute; auto]). Defined.

#[local] Opaque two_threads.

(** A thread structure outside the ring does not matter to it. *)
Lemma scheduled_insert {H} (s : sched H) c ks a t :
  scheduled s c ks -> a ∉ c :: ks -> scheduled (with_threads (<[a := t]> (threads s)) s) c ks.
Proof.
  intros ([Hnd Hl Hlive] & Hc & Hk) Ha. split_and!; [|done|done]. cbn [threads with_threads].
  assert (E : forall k, k ∈ c :: ks -> <[a := t]> (threads s) !! k = threads s !! k).
  { intros k Hin. apply lookup_insert_ne. by intros ->. }
  split; [done | | intros k Hin; rewrite E by done; auto].
  eapply dseg_ext; [|exact Hl]. intros k Hin. unfold nxt, prv. by rewrite E.
Qed.

(** [two_threads] with a new structure at address 1. *)
Definition with_new_thread : sched kheap_state :=
  with_threads (<[1 := zero_thread]> (threads two_threads)) two_threads.

Lemma schedule_appends_witness :
  exists s', schedule_thread (Some 1) with_new_thread = Ok (tt, s') /\
    scheduled s' kthread ([thread1; thread2] ++ [1]) /\
    (forall b, bodies (threads s') b =
       if decide (b = 1) then Some (body (set_state zero_thread TASK_READY))
       else bodies (threads with_new_thread) b) /\
    s' = with_threads (threads s') with_new_thread.
Proof.
  assert (H1 : 1 ∉ [kthread; thread1; thread2]).
  { apply (bool_decide_unpack (1 ∉ [kthread; thread1; thread2])). vm_compute. exact I. }
  exact (schedule_appends with_new_thread kthread [thread1; thread2] 1 zero_thread
    (scheduled_insert two_threads kthread [thread1; thread2] 1 zero_thread two_threads_ring H1)
    (lookup_insert_eq (threads two_threads) 1 zero_thread) H1).
Defined.

Lemma round_robin_witness :
  exists s', ticks (fun n => Z.of_nat n) 3 [1000; 2000; 3000] two_threads =
      Ok (map (esp_of (threads two_threads)) [thread1; thread2] ++ [1000], s') /\
    scheduled s' kthread [thread1; thread2] /\
    Forall (runnable (threads s')) [kthread; thread1; thread2] /\
    map (esp_of (threads s')) [kthread; thread1; thread2] = [1000; 2000; 3000].
Proof.
  apply round_robin; [exact two_threads_ring | exact two_threads_runnable | done | done].
Defined.

(** when every thread of the ring sleeps, a tick never returns: the search
    for a thread to run goes round for ever, with interrupts disabled. *)
Theorem all_asleep_hangs {H} `{KernelHeap H} (rdtsc : nat -> Z) (s : sched H) c ks fuel regs :
  scheduled s c ks -> Forall (asleep (threads s)) (c :: ks) ->
  schedule_tick rdtsc fuel regs s = Err Hang.
Proof.
  intros (Hr & Hc & _) Hall. destruct (ring_live _ _ Hr c) as [t Ht]; [set_solver|].
  unfold schedule_tick. rewrite (bind_ok _ _ _ _ _ (irq_save_ok s)). cbv zeta.
  rewrite tick_prologue. apply bind_err. unfold next_ready_thread.
  rewrite (bind_ok _ _ _ (Some c) (at_choice rdtsc s)) by (unfold gets; by rewrite <- Hc).
  rewrite (bind_ok _ _ _ _ _ (thread_at_ok (at_choice rdtsc s) _ _ Ht)), (ring_next _ _ _ _ Hr Ht).
  destruct (ks ++ [c]) as [|y l] eqn:E; [by destruct ks|].
  cbn [first_ptr]. apply (skip_sleeping_hangs (at_choice rdtsc s) fuel (c :: ks)); [done | done |].
  assert (y ∈ ks ++ [c]) by (rewrite E; set_solver). set_solver.
Qed.

(** The two threads and the kernel thread put to sleep. *)
Definition sleepers : sched kheap_state :=
  with_threads ((fun t => set_state t TASK_SLEEP) <$> threads two_threads) two_threads.

Lemma all_asleep_hangs_witness : schedule_tick (fun n => Z.of_nat n) 100 1000 sleepers = Err Hang.
Proof.
  apply (all_asleep_hangs _ _ kthread [thread1; thread2]).
  - split_and!; [split | vm_compute; reflexivity | vm_compute; eauto].
    + apply (bool_decide_unpack (NoDup [kthread; thread1; thread2])). vm_compute. exact I.
    + vm_compute. split_and!; reflexivity.
    + intros a Ha. rewrite !elem_of_cons, elem_of_nil in Ha.
      destruct Ha as [-> | [-> | [-> | []]]]; vm_compute; eauto.
  - repeat constructor; eexists; (split; [vm_compute; reflexivity | vm_compute; reflexivity]).
Defined.
