(* ===== verification/ThreadSpec.v ===== *)
(** What create_thread builds: the new thread's stack is an interrupt frame
    that starts the thread's function. *)

From S2P Require Import Prelude Memory CString Dll Paging MemAlloc Kheap Sched SchedSpec.

(** ** Pushing words *)

Lemma word_at_ext m m' a : (forall x, a <= x < a + 4 -> byte_at m' x = byte_at m x) -> word_at m' a = word_at m a.
Proof. intros E. unfold word_at. by rewrite !E by lia. Qed.

Lemma stack_word_present m a n x : present m a n -> a <= x -> x + 4 <= a + n -> word_present m x = true.
Proof.
  intros P H1 H2. unfold word_present.
  replace x with (a + (x - a)) by lia. rewrite P by lia.
  replace (a + (x - a) + 3) with (a + (x - a + 3)) by lia. by rewrite P by lia.
Qed.

Lemma push_all_ok ws : forall stack m,
  0 <= stack - 4 * Z.of_nat (length ws) -> stack < 2 ^ 32 ->
  present m (stack - 4 * Z.of_nat (length ws)) (4 * Z.of_nat (length ws)) ->
  exists m', push_all stack ws m = Ok (stack - 4 * Z.of_nat (length ws), m') /\ m_pages m' = m_pages m /\
    (forall i w, ws !! i = Some w -> word_at m' (stack - 4 * (Z.of_nat i + 1)) = u32 w) /\
    (forall x, x < stack - 4 * Z.of_nat (length ws) \/ stack <= x -> byte_at m' x = byte_at m x).
Proof.
  induction ws as [|w ws IH]; intros stack m H0 H1 P.
  - exists m. split_and!; try done. cbn [push_all length]. rewrite ret_ok. do 2 f_equal. lia.
  - cbn [length] in *. set (n := Z.of_nat (length ws)) in *.
    assert (En : Z.of_nat (S (length ws)) = n + 1) by lia. rewrite En in *.
    set (m1 := set_word (stack - 4) (u32 w) m).
    destruct (IH (stack - 4) m1) as (m' & Run & Hp & Hw & Hb); [lia | lia | |].
    { intros i Hi. change (page_present m1) with (page_present m).
      replace (stack - 4 - 4 * n + i) with (stack - 4 * (n + 1) + i) by lia. apply P. lia. }
    exists m'. split_and!.
    + cbn [push_all]. rewrite u32_small by lia.
      rewrite (bind_ok _ _ m tt m1).
      2: { apply store32_ok. eapply stack_word_present; [exact P | lia | lia]. }
      rewrite Run. do 2 f_equal. lia.
    + by rewrite Hp.
    + intros [|i] x Hx; cbn in Hx.
      * injection Hx as ->. replace (stack - 4 * (Z.of_nat 0 + 1)) with (stack - 4) by lia.
        rewrite (word_at_ext m1 m') by (intros y Hy; apply Hb; lia).
        unfold m1. by rewrite word_at_set_same, u32_u32.
      * replace (stack - 4 * (Z.of_nat (S i) + 1)) with (stack - 4 - 4 * (Z.of_nat i + 1)) by lia.
        by apply Hw.
    + intros x Hx. rewrite Hb by lia. unfold m1. by rewrite byte_at_set_word_other by lia.
Qed.

(** The [n] words from address [a] on. *)
Definition words_from (m : mem) (a : Z) (n : nat) : list Z :=
  map (fun i => word_at m (a + 4 * Z.of_nat i)) (seq 0 n).

(** What was pushed, read upwards. *)
Lemma words_pushed m stack ws :
  (forall i w, ws !! i = Some w -> word_at m (stack - 4 * (Z.of_nat i + 1)) = u32 w) ->
  words_from m (stack - 4 * Z.of_nat (length ws)) (length ws) = map u32 (reverse ws).
Proof.
  intros Hw. apply list_eq. intros i. unfold words_from. rewrite !list_lookup_fmap.
  destruct (decide (i < length ws)%nat) as [Hi|Hi].
  - rewrite lookup_seq_lt by done. rewrite reverse_lookup by done.
    destruct (lookup_lt_is_Some_2 ws (length ws - S i)) as [w E]; [lia|].
    rewrite E. cbn. f_equal. rewrite <- (Hw _ _ E). f_equal. lia.
  - rewrite !lookup_ge_None_2; [done | rewrite length_reverse; lia | rewrite length_seq; lia].
Qed.

(** ** The stack of a new thread *)

(** The frame that the return from an interrupt pops, from the lowest address
    up: the segment registers, the general registers, the interrupt number and
    the error code, then eip, cs and eflags. *)
Definition start_frame (user vm86 : bool) (entry : Z) : list Z :=
  let ds := if user then 0x23 else 0x10 in
  [ds; ds; ds; ds; 0; 0; 0; 0; 0; 0; 0; 0; 0; entry; if user then 0x1b else 0x08;
   Z.lor (if user then 0x3202 else 0x0202) (if vm86 then 0x20000 else 0)].

Section access.
Context {H : Type} `{KernelHeap H}.
Implicit Types (s : sched H).

Lemma on_heap_ok {A} (c : M H A) s a h : c (s_heap s) = Ok (a, h) -> on_heap c s = Ok (a, with_heap h s).
Proof. intros E. unfold on_heap, zoom. by rewrite E. Qed.

Lemma heap_access_ok {A} (c : M mem A) h a m :
  c (heap_mem h) = Ok (a, m) -> heap_access c h = Ok (a, set_heap_mem m h).
Proof. intros E. unfold heap_access, zoom. by rewrite E. Qed.

(** Pushing words on a stack inside a block of the heap. *)
Lemma push_on_heap s base stack ws :
  present (heap_mem (s_heap s)) base STACK_SIZE -> 0 <= base ->
  base + 4 * Z.of_nat (length ws) <= stack -> stack <= base + STACK_SIZE -> stack < 2 ^ 32 ->
  exists m', on_heap (heap_access (push_all stack ws)) s =
      Ok (stack - 4 * Z.of_nat (length ws), with_heap (set_heap_mem m' (s_heap s)) s) /\
    m_pages m' = m_pages (heap_mem (s_heap s)) /\
    words_from m' (stack - 4 * Z.of_nat (length ws)) (length ws) = map u32 (reverse ws) /\
    (forall x, x < stack - 4 * Z.of_nat (length ws) \/ stack <= x ->
       byte_at m' x = byte_at (heap_mem (s_heap s)) x).
Proof.
  intros P B0 B1 B2 B3.
  destruct (push_all_ok ws stack (heap_mem (s_heap s))) as (m' & Run & Hp & Hw & Hb); [lia | done | |].
  { intros i Hi. replace (stack - 4 * Z.of_nat (length ws) + i) with
      (base + (stack - 4 * Z.of_nat (length ws) + i - base)) by lia. apply P. lia. }
  exists m'. split_and!; [| done | by apply words_pushed | done].
  apply on_heap_ok, heap_access_ok, Run.
Qed.
End access.

Lemma words_from_ext m m' a n :
  (forall x, a <= x < a + 4 * Z.of_nat n -> byte_at m' x = byte_at m x) -> words_from m' a n = words_from m a n.
Proof.
  intros E. unfold words_from. apply map_ext_in. intros i Hi%in_seq. apply word_at_ext.
  intros x Hx. apply E. lia.
Qed.

(** ** The tail of create_thread: from the finished stack to the scheduled thread *)

Section registering.
Context {H : Type} `{KernelHeap H}.
Implicit Types (s : sched H).

Lemma register_ok s process p thread ss kst0 ust0 esp priority c ks :
  procs s !! process = Some p -> scheduled s c ks -> thread ∉ c :: ks ->
  exists s' t,
    (id ← request_thread_id;
     p ← gets (fun s => procs s !! process);
     match p with
     | None => throw (Fault process)
     | Some p =>
         modify (fun s => with_threads
           (<[thread := Thread process esp ss kst0 ust0 (pr_page_dir p) id
                TASK_SLEEP (Z.min priority (pr_priority p)) 0 None None]> (threads s)) s);;
         irq_state ← irq_save;
         modify (fun s => with_num_threads (u32 (num_threads s + 1)) s);;
         schedule_thread (Some thread);;
         irq_restore irq_state;;
         t ← thread_at (Some thread);
         mret (t_id t)
     end) s = Ok (u32 (last_thread_id s + 1), s') /\
    scheduled s' c (ks ++ [thread]) /\ threads s' !! thread = Some t /\
    body t = body (Thread process esp ss kst0 ust0 (pr_page_dir p) (u32 (last_thread_id s + 1))
                TASK_READY (Z.min priority (pr_priority p)) 0 None None) /\
    num_threads s' = u32 (num_threads s + 1) /\ s_if s' = s_if s /\ s_heap s' = s_heap s /\
    (forall b, b <> thread -> bodies (threads s') b = bodies (threads s) b) /\
    procs s' = procs s /\ last_thread_id s' = u32 (last_thread_id s + 1).
Proof.
  intros Hp Hs Hn.
  set (id := u32 (last_thread_id s + 1)).
  set (t0 := Thread process esp ss kst0 ust0 (pr_page_dir p) id TASK_SLEEP (Z.min priority (pr_priority p)) 0 None None).
  set (s1 := with_ids id (last_process_id s) s).
  set (s2 := with_threads (<[thread := t0]> (threads s1)) s1).
  set (s3 := with_num_threads (u32 (num_threads s2 + 1)) (with_flag false s2)).
  assert (Hs3 : scheduled s3 c ks) by exact (scheduled_insert s1 c ks thread t0 Hs Hn).
  assert (Ht3 : threads s3 !! thread = Some t0) by (apply lookup_insert_eq).
  destruct (schedule_last s3 c ks thread t0 Hs3 Ht3 Hn) as (s4 & Run & Hs4 & Bo & E4).
  assert (Bt := Bo thread). rewrite decide_True in Bt by done. unfold bodies in Bt.
  destruct (threads s4 !! thread) as [t|] eqn:Ht; [| done].
  apply (inj Some) in Bt.
  exists (with_flag (s_if s) s4), t. split_and!; try done.
  - rewrite (bind_ok _ _ s id s1) by done. rewrite (bind_ok _ _ s1 (Some p) s1) by (unfold gets; by cbn [procs s1 with_ids]; rewrite Hp).
    rewrite (bind_ok _ _ s1 tt s2) by done. rewrite (bind_ok _ _ s2 (s_if s) (with_flag false s2)) by done.
    rewrite (bind_ok _ _ (with_flag false s2) tt s3) by done. rewrite (bind_ok _ _ _ _ _ Run).
    rewrite (bind_ok _ _ s4 tt (with_flag (s_if s) s4)) by done.
    rewrite (bind_ok _ _ (with_flag (s_if s) s4) t (with_flag (s_if s) s4))
      by (unfold thread_at; cbn [threads with_flag]; by rewrite Ht).
    rewrite ret_ok. do 3 f_equal. pose proof (f_equal t_id Bt) as E. exact E.
  - rewrite E4. done.
  - rewrite E4. done.
  - intros b Hb. change (threads (with_flag (s_if s) s4)) with (threads s4).
    rewrite Bo, decide_False by done. unfold bodies. cbn [threads s3 s2 s1 with_num_threads with_flag with_threads with_ids].
    by rewrite lookup_insert_ne.
  - rewrite E4. done.
  - rewrite E4. done.
Qed.
End registering.

(** ** Writes to stacks *)

(** An address in one of some stacks. *)
Definition in_stacks (stacks : list Z) (x : Z) : Prop := exists a, a ∈ stacks /\ a <= x < a + STACK_SIZE.

(** The kernel writes memory of the heap, in these stacks only. *)
Definition stack_write {H} `{KernelHeap H} (stacks : list Z) (h h' : H) : Prop :=
  exists m, h' = set_heap_mem m h /\ m_pages m = m_pages (heap_mem h) /\
    forall x, ~ in_stacks stacks x -> byte_at m x = byte_at (heap_mem h) x.

Lemma stack_writes_mem {H} `{KernelHeap H} stacks (h h' : H) :
  rtc (stack_write stacks) h h' ->
  m_pages (heap_mem h') = m_pages (heap_mem h) /\
  forall x, ~ in_stacks stacks x -> byte_at (heap_mem h') x = byte_at (heap_mem h) x.
Proof.
  induction 1 as [h|h h1 h' (m & -> & P & B) _ [IHp IHb]]; [done|]. rewrite heap_mem_set in *.
  split; [congruence|]. intros x Hx. by rewrite IHb, B.
Qed.

Lemma not_in_stack stacks a x : ~ in_stacks stacks x -> a ∈ stacks -> x < a \/ a + STACK_SIZE <= x.
Proof.
  intros Hx Ha. destruct (decide (x < a)); [by left|]. destruct (decide (a + STACK_SIZE <= x)); [by right|].
  exfalso. apply Hx. exists a. split; [done | lia].
Qed.

(** The stacks of a thread. *)
Definition stacks_of (user : bool) (kst ust : Z) : list Z := if user then [kst; ust] else [kst].

(** What create_thread needs of the heap: three requests that succeed, and
    stacks that lie in present memory, apart from each other. *)
Record thread_memory {H} `{KernelHeap H} (user : bool) (h0 : H) (thread kst ust : Z) (h3 : H) : Prop := {
  tm_blocks : exists h1 h2, kmalloc SIZEOF_THREAD h0 = Ok (thread, h1) /\ kmalloc STACK_SIZE h1 = Ok (kst, h2) /\
    (if user then kmalloc STACK_SIZE h2 = Ok (ust, h3) else ust = 0 /\ h3 = h2);
  tm_thread : thread <> 0;
  tm_kstack : 0 < kst /\ kst + STACK_SIZE < 2 ^ 32 /\ present (heap_mem h3) kst STACK_SIZE;
  tm_ustack : user = true -> 0 < ust /\ ust + STACK_SIZE < 2 ^ 32 /\ present (heap_mem h3) ust STACK_SIZE /\
    (ust + STACK_SIZE <= kst \/ kst + STACK_SIZE <= ust)
}.

(** The words that differ between kernel and user threads. *)
Lemma first_words_ok {H} `{KernelHeap H} (s : sched H) (user : bool) kst ust args exit_addr :
  let h := s_heap s in
  0 < kst -> kst + STACK_SIZE < 2 ^ 32 -> present (heap_mem h) kst STACK_SIZE ->
  (user = true -> 0 < ust /\ ust + STACK_SIZE < 2 ^ 32 /\ present (heap_mem h) ust STACK_SIZE /\
    (ust + STACK_SIZE <= kst \/ kst + STACK_SIZE <= ust)) ->
  exists h', (if user then
         ustack ← on_heap (heap_access (push_all (u32 (stack_top ust)) [args; 0xdeadcaca]));
         on_heap (heap_access (push_all (u32 (stack_top kst)) [0x23; ustack]))
       else on_heap (heap_access (push_all (u32 (stack_top kst)) [args; exit_addr]))) s =
     Ok (kst + 0x2000 - 8, with_heap h' s) /\ m_pages (heap_mem h') = m_pages (heap_mem h) /\
     (if user then
       words_from (heap_mem h') (kst + 0x2000 - 8) 2 = [ust + 0x2000 - 8; 0x23] /\
       words_from (heap_mem h') (ust + 0x2000 - 8) 2 = [0xdeadcaca; u32 args]
     else words_from (heap_mem h') (kst + 0x2000 - 8) 2 = [u32 exit_addr; u32 args]) /\
     rtc (stack_write (stacks_of user kst ust)) h h'.
Proof.
  intros h B1 B2 B3 Hu. unfold stack_top. unfold STACK_SIZE in *. rewrite (u32_small (kst + 0x2000)) by lia.
  destruct user.
  - destruct (Hu eq_refl) as (U1 & U2 & U3 & U4). rewrite (u32_small (ust + 0x2000)) by lia.
    destruct (push_on_heap s ust (ust + 0x2000) [args; 0xdeadcaca]) as (m1 & R1 & P1 & W1 & F1);
      try done; cbn [length]; unfold STACK_SIZE; try lia.
    set (s1 := with_heap (set_heap_mem m1 h) s).
    assert (M1 : heap_mem (s_heap s1) = m1) by apply heap_mem_set.
    destruct (push_on_heap s1 kst (kst + 0x2000) [0x23; ust + 0x2000 - 8]) as (m2 & R2 & P2 & W2 & F2);
      try done; cbn [length]; unfold STACK_SIZE; try lia.
    { intros i Hi. rewrite M1. unfold page_present. rewrite P1. by apply B3. }
    rewrite M1 in P2, F2. cbn [length] in F1, F2.
    exists (set_heap_mem m2 (set_heap_mem m1 h)). rewrite heap_mem_set. split_and!.
    + rewrite (bind_ok _ _ _ _ _ R1). exact R2.
    + by rewrite P2, P1.
    + transitivity (map u32 (reverse [0x23; ust + 0x2000 - 8])); [exact W2 |].
      cbn. by rewrite (u32_small (ust + 0x2000 - 8)) by lia.
    + transitivity (map u32 (reverse [args; 0xdeadcaca])); [| done].
      etransitivity; [| exact W1]. apply words_from_ext. cbn [length]. intros x Hx. apply F2. lia.
    + apply (rtc_l _ _ (set_heap_mem m1 h)); [|apply rtc_once].
      * exists m1. split_and!; [done | done |]. intros x Hx. apply F1. apply (not_in_stack _ ust) in Hx; [|set_solver].
        unfold STACK_SIZE in Hx. lia.
      * exists m2. rewrite heap_mem_set. split_and!; [done | done |]. intros x Hx. apply F2.
        apply (not_in_stack _ kst) in Hx; [|set_solver]. unfold STACK_SIZE in Hx. lia.
  - destruct (push_on_heap s kst (kst + 0x2000) [args; exit_addr]) as (m1 & R1 & P1 & W1 & F1);
      try done; cbn [length]; unfold STACK_SIZE; try lia.
    exists (set_heap_mem m1 h). rewrite heap_mem_set. split_and!; [exact R1 | done | exact W1 |].
    apply rtc_once. exists m1. split_and!; [done | done |]. intros x Hx. cbn [length] in F1. apply F1.
    apply (not_in_stack _ kst) in Hx; [|set_solver]. unfold STACK_SIZE in Hx. lia.
Qed.

(** The frame on the stacks of a new thread. *)
Definition thread_frame (m : mem) (user vm86 : bool) (exit_addr entry args kst ust : Z) : Prop :=
  words_from m (kst + 0x2000 - 72) 16 = map u32 (start_frame user vm86 entry) /\
  (if user then
     words_from m (kst + 0x2000 - 8) 2 = [ust + 0x2000 - 8; 0x23] /\
     words_from m (ust + 0x2000 - 8) 2 = [0xdeadcaca; u32 args]
   else words_from m (kst + 0x2000 - 8) 2 = [u32 exit_addr; u32 args]).

(** create_thread with memory at hand, and what it leaves alone. *)
Lemma create_thread_run {H} `{KernelHeap H} (s : sched H) exit_addr process p entry args priority (user vm86 : bool)
    thread kst ust h3 c ks :
  scheduled s c ks -> thread ∉ c :: ks -> procs s !! process = Some p ->
  thread_memory user (s_heap s) thread kst ust h3 ->
  exists s' t, create_thread exit_addr process entry args priority user vm86 s =
      Ok (u32 (last_thread_id s + 1), s') /\
    scheduled s' c (ks ++ [thread]) /\ threads s' !! thread = Some t /\
    body t = body (Thread process (kst + 0x2000 - 72) (if user then 0x20 + 3 else 0x10) kst ust (pr_page_dir p)
      (u32 (last_thread_id s + 1)) TASK_READY (Z.min priority (pr_priority p)) 0 None None) /\
    num_threads s' = u32 (num_threads s + 1) /\ s_if s' = s_if s /\
    (forall b, b <> thread -> bodies (threads s') b = bodies (threads s) b) /\
    procs s' = procs s /\ last_thread_id s' = u32 (last_thread_id s + 1) /\
    rtc (stack_write (stacks_of user kst ust)) h3 (s_heap s') /\
    thread_frame (heap_mem (s_heap s')) user vm86 exit_addr entry args kst ust.
Proof.
  intros Hs Hn Hp [(h1 & h2 & K1 & K2 & K3) T0 (B1 & B2 & B3) Hu].
  set (s3 := with_heap h3 s).
  destruct (first_words_ok s3 user kst ust args exit_addr B1 B2 B3 Hu) as (h4 & Run4 & P4 & W4 & St4).
  set (s4 := with_heap h4 s3).
  set (rest := reverse (start_frame user vm86 entry)).
  assert (L : length rest = 16%nat) by (unfold rest; by rewrite length_reverse).
  destruct (push_on_heap s4 kst (kst + 0x2000 - 8) rest) as (m5 & Run5 & P5 & W5 & F5);
    rewrite ?L; unfold STACK_SIZE in *; try lia.
  { intros i Hi. unfold page_present. cbn [s_heap s4 with_heap]. rewrite P4. by apply B3. }
  rewrite L in *. replace (kst + 0x2000 - 8 - 4 * Z.of_nat 16) with (kst + 0x2000 - 72) in * by lia.
  set (s5 := with_heap (set_heap_mem m5 h4) s3).
  assert (M5 : heap_mem (s_heap s5) = m5) by apply heap_mem_set.
  destruct (register_ok s5 process p thread (if user then 0x20 + 3 else 0x10) kst ust (kst + 0x2000 - 72) priority c ks)
    as (s6 & t & Run6 & Hs6 & Ht & Bt & N6 & F6 & H6 & O6 & R6); try done.
  exists s6, t. rewrite H6, M5.
  unfold thread_frame. split_and!; try done.
  - unfold create_thread. rewrite (bind_ok _ _ _ _ _ (on_heap_ok _ s _ _ K1)).
    rewrite (proj2 (Z.eqb_neq _ _) T0).
    rewrite (bind_ok _ _ _ _ _ (on_heap_ok _ (with_heap h1 s) _ _ K2)).
    replace (kst =? 0) with false by (symmetry; apply Z.eqb_neq; lia).
    rewrite (bind_ok _ _ (with_heap h2 s) ust s3).
    2:{ destruct user; [exact (on_heap_ok _ (with_heap h2 s) _ _ K3) | by destruct K3 as [-> ->]]. }
    replace (user && (ust =? 0)) with false.
    2:{ destruct user; [| done]. destruct (Hu eq_refl). symmetry. apply Z.eqb_neq. lia. }
    rewrite (bind_ok _ _ _ _ _ Run4).
    rewrite (bind_ok _ _ s4 (kst + 0x2000 - 72) s5); [exact Run6 |].
    etransitivity; [| exact Run5]. unfold rest. by destruct user, vm86.
  - by destruct R6.
  - by destruct R6.
  - eapply rtc_r; [exact St4|]. exists m5. split_and!; [done | done |]. intros x Hx. apply F5.
    apply (not_in_stack _ kst) in Hx; [unfold STACK_SIZE in Hx; lia | by destruct user; set_solver].
  - cbn [s_heap s4 with_heap] in F5.
    assert (K : words_from m5 (kst + 0x2000 - 8) 2 = words_from (heap_mem h4) (kst + 0x2000 - 8) 2).
    { apply words_from_ext. intros x Hx. apply F5. lia. }
    rewrite K. destruct user; [| done]. destruct W4 as [W4 U4], (Hu eq_refl) as (U1 & U2 & _ & U3).
    split; [done |]. rewrite <- U4. apply words_from_ext. intros x Hx. apply F5. lia.
Qed.

(** C25: create_thread, when its memory requests succeed, puts the new thread
    last in the round, in the address space of its process, with a priority
    that does not exceed the process's, and leaves on its kernel stack exactly
    the frame from which the next switch starts [entry]: a kernel thread with
    its argument and thread_exit as return address, a user thread in ring 3
    on a user stack that holds its argument. *)
Theorem create_thread_frame {H} `{KernelHeap H} (s : sched H) exit_addr process p entry args priority user vm86
    thread kst ust h3 c ks :
  scheduled s c ks -> thread ∉ c :: ks -> procs s !! process = Some p ->
  thread_memory user (s_heap s) thread kst ust h3 ->
  exists s' t, create_thread exit_addr process entry args priority user vm86 s =
      Ok (u32 (last_thread_id s + 1), s') /\
    scheduled s' c (ks ++ [thread]) /\ threads s' !! thread = Some t /\
    t_state t = TASK_READY /\ t_esp t = kst + 0x2000 - 72 /\ t_page_dir t = pr_page_dir p /\
    t_priority t <= pr_priority p /\ num_threads s' = u32 (num_threads s + 1) /\ s_if s' = s_if s /\
    let m := heap_mem (s_heap s') in
    words_from m (t_esp t) 16 = map u32 (start_frame user vm86 entry) /\
    (if user then
       words_from m (kst + 0x2000 - 8) 2 = [ust + 0x2000 - 8; 0x23] /\
       words_from m (ust + 0x2000 - 8) 2 = [0xdeadcaca; u32 args]
     else words_from m (kst + 0x2000 - 8) 2 = [u32 exit_addr; u32 args]).
Proof.
  intros Hs Hn Hp Tm.
  destruct (create_thread_run s exit_addr process p entry args priority user vm86 thread kst ust h3 c ks Hs Hn Hp Tm)
    as (s' & t & Run & Hs' & Ht & Bt & N & F & _ & _ & _ & _ & W1 & W2).
  assert (Et : t_esp t = kst + 0x2000 - 72) by exact (f_equal t_esp Bt).
  exists s', t. rewrite Et. split_and!; try done.
  - exact (f_equal t_state Bt).
  - exact (f_equal t_page_dir Bt).
  - pose proof (f_equal t_priority Bt) as E. cbn in E. rewrite E. lia.
Qed.

#[local] Existing Instance boot_heap.

(** kmalloc of the placement heap of this example. *)
Lemma boot_kmalloc h size p q r :
  k_ready h = false -> p = align_placement p 0 -> u32 (p + size) = q ->
  kmalloc size (set_place p h) = Ok (p, set_place q h) /\
  (placement_address (k_pg h) = r -> set_place r h = h).
Proof.
  intros Hr Hp Hq. split; [| intros <-; by destruct h as [? [? ? []]]].
  unfold kmalloc, boot_heap, kheap_heap, kmalloc_.
  rewrite (bind_ok _ _ _ _ _ (kmalloc_int_placement _ _ _ _ _ _ (set_place p h) size 0 false Hr)).
  cbn [placement_address k_pg set_place set_k_pg k_heap hpg set_placement]. by rewrite <- Hp, Hq.
Qed.

Lemma create_thread_frame_witness :
  exists s' t, create_thread 0xc0100500 0xc0111000 0xc0100300 9 1 true false two_threads = Ok (4, s') /\
    threads s' !! 0xc01161bf = Some t /\ t_state t = TASK_READY /\
    words_from (heap_mem (s_heap s')) (t_esp t) 16 = map u32 (start_frame true false 0xc0100300).
Proof.
  assert (Hr : k_ready (s_heap two_threads) = false) by (vm_compute; reflexivity).
  assert (Hp : placement_address (k_pg (s_heap two_threads)) = 0xc01161bf) by (vm_compute; reflexivity).
  destruct (create_thread_frame two_threads 0xc0100500 0xc0111000 (Process 1 1 0xc0112000) 0xc0100300 9 1 true false
      0xc01161bf 0xc01161f3 0xc01181f3 (set_place 0xc011a1f3 (s_heap two_threads))
      kthread [thread1; thread2] two_threads_ring)
    as (s' & t & Run & _ & Ht & St & _ & _ & _ & _ & _ & W & _).
  - rewrite !elem_of_cons, elem_of_nil. intros [E|[E|[E|[]]]]; vm_compute in E; discriminate.
  - vm_compute. reflexivity.
  - split.
    + exists (set_place 0xc01161f3 (s_heap two_threads)), (set_place 0xc01181f3 (s_heap two_threads)).
      rewrite <- (proj2 (boot_kmalloc (s_heap two_threads) 0 0 0 0xc01161bf Hr eq_refl eq_refl) Hp) at 1.
      split; [| split]; apply (boot_kmalloc _ _ _ _ 0 Hr); reflexivity.
    + done.
    + split_and!; [done | done |]. apply (present_b_ok _ (Z.to_nat STACK_SIZE)). vm_compute. reflexivity.
    + intros _. split_and!; [done | done | | by right].
      apply (present_b_ok _ (Z.to_nat STACK_SIZE)). vm_compute. reflexivity.
  - exists s', t. split_and!; [exact Run | exact Ht | exact St | exact W].
Defined.
