(* ===== verification/Vga.v ===== *)
(** The text console: vga.c.

    The screen is the 80 x 25 array of 16-bit cells at 0xc00b8000 in memory;
    the cursor registers are reached through ports, whose accesses are recorded
    (latest first). The specification [put_char] is a terminal on an abstract
    screen, a function from positions to cells. *)

From S2P Require Import Prelude Memory CString Utils Arch.

Definition COLS : Z := 80.
Definition ROWS : Z := 25.
Definition CURS_CTRL : Z := 0x3d4.
Definition CURS_DATA : Z := 0x3d5.
Definition HIGH_BYTE : Z := 14.
Definition LOW_BYTE : Z := 15.
Definition video_mem : Z := 0xc00b8000.

Record vga : Type := Vga {
  v_mem : mem;
  xpos : Z;
  ypos : Z;
  attribute : Z;
  v_trace : list io_event
}.

(** The static variables at start-up. *)
Definition init_vga (m : mem) : vga := Vga m 0 0 0x0f00 [].

Definition on_vmem {A} (c : M mem A) : M vga A :=
  zoom v_mem (fun m s => Vga m (xpos s) (ypos s) (attribute s) (v_trace s)) c.
Definition set_x (x : Z) : M vga unit :=
  modify (fun s => Vga (v_mem s) (u16 x) (ypos s) (attribute s) (v_trace s)).
Definition set_y (y : Z) : M vga unit :=
  modify (fun s => Vga (v_mem s) (xpos s) (u16 y) (attribute s) (v_trace s)).
Definition vga_set_attribute (attr : Z) : M vga unit :=
  modify (fun s => Vga (v_mem s) (xpos s) (ypos s) (u16 attr) (v_trace s)).
Definition vga_outb (port data : Z) : M vga unit :=
  modify (fun s => Vga (v_mem s) (xpos s) (ypos s) (attribute s)
                     (Out8 (u16 port) (u8 data) :: v_trace s)).

Definition set_cursor_pos (x y : Z) : M vga unit :=
  let pos := u16 (y * COLS + x) in
  vga_outb CURS_CTRL HIGH_BYTE;;
  vga_outb CURS_DATA (Z.shiftr pos 8);;
  vga_outb CURS_CTRL LOW_BYTE;;
  vga_outb CURS_DATA pos.

Definition set_pos (x y : Z) : M vga unit := set_x (x mod COLS);; set_y (y mod ROWS).

(** [for (i = 0; i < COLS * ROWS; ++i)]; [n] iterations are left. *)
Fixpoint clear_cells (n : nat) (i : Z) : M vga unit :=
  match n with
  | O => mret tt
  | S n =>
      attr ← gets attribute;
      on_vmem (store16 (video_mem + 2 * i) (Z.lor 0x20 attr));;
      clear_cells n (i + 1)
  end.

Definition vga_clear : M vga unit :=
  clear_cells (Z.to_nat (COLS * ROWS)) 0;;
  set_x 0;; set_y 0;;
  set_cursor_pos 0 0.

Definition vga_scroll : M vga unit :=
  y ← gets ypos;
  if ROWS <=? y then
    let temp := u16 (y - ROWS + 1) in
    attr ← gets attribute;
    on_vmem (memcpy video_mem (video_mem + 2 * (temp * COLS)) ((ROWS - temp) * COLS * 2));;
    let blank := Z.lor 0x20 attr in
    on_vmem (memsetw (video_mem + 2 * ((ROWS - temp) * COLS)) blank COLS);;
    set_y (ROWS - 1)
  else mret tt.

(** The cases of vga_print_char, before the line wrap. [c] is a signed char. *)
Definition print_cases (c : Z) : M vga unit :=
  x ← gets xpos;
  y ← gets ypos;
  if c =? 8 then
    if 0 <? x then set_x (x - 1)
    else if 0 <? y then set_x (COLS - 1);; set_y (y - 1) else mret tt
  else if c =? 9 then set_x (Z.land (x + 8) (Z.lnot (8 - 1)))
  else if c =? 13 then set_x 0
  else if c =? 10 then set_x 0;; set_y (y + 1)
  else if 32 <=? c then
    attr ← gets attribute;
    on_vmem (store16 (video_mem + 2 * (y * COLS + x)) (Z.lor (u16 c) attr));;
    set_x (x + 1)
  else mret tt.

Definition vga_print_char (c : Z) : M vga unit :=
  print_cases c;;
  x ← gets xpos;
  (if COLS <=? x then (set_x 0;; y ← gets ypos; set_y (y + 1)) else mret tt);;
  vga_scroll;;
  x ← gets xpos;
  y ← gets ypos;
  set_cursor_pos x y.

(** The loop over [len] bytes, or up to a zero byte. *)
Fixpoint vga_write_loop (fuel : nat) (data i len : Z) : M vga Z :=
  c ← on_vmem (load8 data);
  if negb (c =? 0) && (i <? len) then
    match fuel with
    | O => throw Hang
    | S fuel =>
        if c =? 27 then
          a ← on_vmem (load8 (data + 1));
          attr ← gets attribute;
          vga_set_attribute (Z.lor (Z.shiftl a 8) (Z.land attr 0xf000));;
          vga_write_loop fuel (data + 2) (i + 2) len
        else
          vga_print_char (s8 c);;
          vga_write_loop fuel (data + 1) (i + 1) len
    end
  else mret i.

Definition vga_write (fuel : nat) (data len : Z) : M vga Z := vga_write_loop fuel data 0 len.

(** The loop to the end of [str]. *)
Fixpoint vga_print_str (fuel : nat) (str : Z) : M vga unit :=
  c ← on_vmem (load8 str);
  if c =? 0 then mret tt
  else
    match fuel with
    | O => throw Hang
    | S fuel =>
        if c =? 27 then
          a ← on_vmem (load8 (str + 1));
          attr ← gets attribute;
          vga_set_attribute (Z.lor (Z.shiftl (s8 a) 8) (Z.land attr 0xf000));;
          vga_print_str fuel (str + 2)
        else vga_print_char (s8 c);; vga_print_str fuel (str + 1)
    end.

(** [while (buffer[i]) vga_print_char(buffer[i++]);] *)
Fixpoint print_buffer (fuel : nat) (p : Z) : M vga unit :=
  c ← on_vmem (load8 p);
  if c =? 0 then mret tt
  else
    match fuel with
    | O => throw Hang
    | S fuel => vga_print_char (s8 c);; print_buffer fuel (p + 1)
    end.

(** [buffer] is the address of the local array. *)
Definition vga_print_dec (fuel : nat) (buffer value : Z) : M vga unit :=
  on_vmem (itoa value buffer 10);; print_buffer fuel buffer.
Definition vga_print_hex (fuel : nat) (buffer value : Z) : M vga unit :=
  on_vmem (itoa value buffer 16);; print_buffer fuel buffer.

Section init.
(** The byte that a read of a port returns after some accesses. *)
Context (dev : list io_event -> Z -> Z).

Definition vga_inb (port : Z) : M vga Z := fun s =>
  let v := u8 (dev (v_trace s) (u16 port)) in
  Ok (v, Vga (v_mem s) (xpos s) (ypos s) (attribute s) (In8 (u16 port) v :: v_trace s)).

Definition get_cursor_pos : M vga (Z * Z) :=
  vga_outb CURS_CTRL HIGH_BYTE;;
  h ← vga_inb CURS_DATA;
  vga_outb CURS_CTRL LOW_BYTE;;
  l ← vga_inb CURS_DATA;
  let pos := Z.lor (u16 (Z.shiftl h 8)) l in
  mret (pos mod COLS, pos / COLS).

Definition vga_init : M vga unit :=
  '(x, y) ← get_cursor_pos;
  set_x x;; set_y y;;
  vga_clear.
End init.

(** ** The terminal *)

Definition cell (m : mem) (i : Z) : Z :=
  byte_at m (video_mem + 2 * i) + 2 ^ 8 * byte_at m (video_mem + 2 * i + 1).

Record term : Type := Term { tx : Z; ty : Z; cells : Z -> Z }.

(** The cursor and the cell that a character sets, before wrapping. *)
Definition type_char (attr c : Z) (t : term) : term :=
  if c =? 8 then
    if 0 <? tx t then Term (tx t - 1) (ty t) (cells t)
    else if 0 <? ty t then Term 79 (ty t - 1) (cells t) else t
  else if c =? 9 then Term (8 * (tx t / 8 + 1)) (ty t) (cells t)
  else if c =? 13 then Term 0 (ty t) (cells t)
  else if c =? 10 then Term 0 (ty t + 1) (cells t)
  else if 32 <=? c then
    Term (tx t + 1) (ty t)
      (fun i => if i =? ty t * 80 + tx t then Z.lor c attr else cells t i)
  else t.

Definition wrap_line (t : term) : term :=
  if 80 <=? tx t then Term 0 (ty t + 1) (cells t) else t.

Definition scroll_line (attr : Z) (t : term) : term :=
  if 25 <=? ty t then
    Term (tx t) 24 (fun i => if i <? 24 * 80 then cells t (i + 80) else Z.lor 0x20 attr)
  else t.

Definition put_char (attr c : Z) (t : term) : term :=
  scroll_line attr (wrap_line (type_char attr c t)).

(** The screen of a state, and the invariant on cursor and attribute. *)
Record shows (s : vga) (t : term) : Prop := {
  sh_x : xpos s = tx t;
  sh_y : ypos s = ty t;
  sh_cells : forall i, 0 <= i < 2000 -> cell (v_mem s) i = cells t i
}.

Record vga_ok (s : vga) : Prop := {
  vo_x : 0 <= xpos s < 80;
  vo_y : 0 <= ypos s < 25;
  vo_attr : 0 <= attribute s < 2 ^ 16;
  vo_mem : present (v_mem s) video_mem 4000
}.
