(* ===== verification/VgaSpec.v ===== *)
(** The console code implements the terminal of Vga.v. *)

From S2P Require Import Prelude Memory CString Utils Arch Vga.

(** ** Cells in memory *)

Lemma store16_ok m p v : present m p 2 ->
  store16 p v m = Ok (tt, set_byte (p + 1) (v / 2 ^ 8) (set_byte p v m)).
Proof.
  intros P. unfold store16.
  assert (P0 : page_present m p = true) by (rewrite <- (Z.add_0_r p); apply P; lia).
  rewrite (bind_ok _ _ _ _ _ (store8_ok m p v P0)). apply store8_ok.
  assert (P1 : page_present m (p + 1) = true) by (apply P; lia). exact P1.
Qed.

Lemma cell_set m i j v : 0 <= v < 2 ^ 16 ->
  let p := video_mem + 2 * j in
  cell (set_byte (p + 1) (v / 2 ^ 8) (set_byte p v m)) i = if i =? j then v else cell m i.
Proof.
  intros Hv p. unfold cell, p. destruct (Z.eqb_spec i j) as [->|Hne].
  - rewrite byte_at_set_other by lia. rewrite !byte_at_set_same.
    unfold u8. Z.div_mod_to_equations. lia.
  - by rewrite !byte_at_set_other by lia.
Qed.

Lemma stosw_ok n : forall p v m, present m p (2 * Z.of_nat n) ->
  exists m', stosw n p v m = Ok (p + 2 * Z.of_nat n, m') /\ m_pages m' = m_pages m /\
    forall x, byte_at m' x =
      if (p <=? x) && (x <? p + 2 * Z.of_nat n)
      then (if (x - p) mod 2 =? 0 then u8 v else u8 (v / 2 ^ 8)) else byte_at m x.
Proof.
  induction n as [|n IH]; intros p v m P.
  - exists m. split_and!; [cbn [stosw]; rewrite ret_ok; do 2 f_equal; lia | done |].
    intros x. destruct (Z.leb_spec p x), (Z.ltb_spec x (p + 2 * Z.of_nat 0)); cbn [andb]; try done. lia.
  - cbn [stosw]. assert (P2 : present m p 2) by (intros i Hi; apply P; lia).
    rewrite (bind_ok _ _ _ _ _ (store16_ok m p v P2)).
    set (m1 := set_byte (p + 1) (v / 2 ^ 8) (set_byte p v m)).
    destruct (IH (p + 2) v m1) as (m' & Run & Hp & Hb).
    { intros i Hi. change (page_present m1 (p + 2 + i)) with (page_present m (p + 2 + i)).
      replace (p + 2 + i) with (p + (2 + i)) by lia. apply P. lia. }
    exists m'. split_and!; [rewrite Run; do 2 f_equal; lia | by rewrite Hp |].
    intros x. rewrite Hb.
    destruct (Z.leb_spec (p + 2) x), (Z.ltb_spec x (p + 2 + 2 * Z.of_nat n)),
      (Z.leb_spec p x), (Z.ltb_spec x (p + 2 * Z.of_nat (S n))); cbn [andb]; try lia.
    + replace ((x - (p + 2)) mod 2) with ((x - p) mod 2); [done|]. Z.div_mod_to_equations. lia.
    + unfold m1. by rewrite !byte_at_set_other by lia.
    + assert (x = p \/ x = p + 1) as [-> | ->] by lia; unfold m1.
      * rewrite byte_at_set_other, byte_at_set_same by lia. by rewrite Z.sub_diag.
      * rewrite byte_at_set_same. replace (p + 1 - p) with 1 by lia. done.
    + unfold m1. by rewrite !byte_at_set_other by lia.
Qed.

(** ** Running the console *)

Section runs.
Implicit Types (s : vga).

Lemma on_vmem_ok {A} (c : M mem A) s a m' :
  c (v_mem s) = Ok (a, m') ->
  on_vmem c s = Ok (a, Vga m' (xpos s) (ypos s) (attribute s) (v_trace s)).
Proof. intros E. unfold on_vmem, zoom. by rewrite E. Qed.

Lemma set_x_ok s x : 0 <= x < 2 ^ 16 ->
  set_x x s = Ok (tt, Vga (v_mem s) x (ypos s) (attribute s) (v_trace s)).
Proof. intros Hx. unfold set_x, modify. by rewrite u16_small. Qed.

Lemma set_y_ok s y : 0 <= y < 2 ^ 16 ->
  set_y y s = Ok (tt, Vga (v_mem s) (xpos s) y (attribute s) (v_trace s)).
Proof. intros Hy. unfold set_y, modify. by rewrite u16_small. Qed.

(** Between the steps of vga_print_char the cursor may be one past the last
    column or the last row. *)
Record typing s (t : term) : Prop := {
  ty_shows : shows s t;
  ty_x : 0 <= xpos s <= 80;
  ty_y : 0 <= ypos s <= 25;
  ty_both : xpos s = 80 -> ypos s < 25;
  ty_attr : 0 <= attribute s < 2 ^ 16;
  ty_mem : present (v_mem s) video_mem 4000
}.

(** What the steps leave alone: the memory outside the screen, the attribute
    and (until the cursor is moved) the ports. *)
Definition same_rest s s' : Prop :=
  attribute s' = attribute s /\ v_trace s' = v_trace s /\ m_pages (v_mem s') = m_pages (v_mem s) /\
  forall x, x < video_mem \/ video_mem + 4000 <= x -> byte_at (v_mem s') x = byte_at (v_mem s) x.

Lemma same_rest_refl s : same_rest s s.
Proof. by split_and!. Qed.

Lemma same_rest_trans s1 s2 s3 : same_rest s1 s2 -> same_rest s2 s3 -> same_rest s1 s3.
Proof.
  intros (A1 & B1 & C1 & D1) (A2 & B2 & C2 & D2). split_and!; try congruence.
  intros x Hx. rewrite D2 by done. by apply D1.
Qed.

Lemma same_rest_present s s' : same_rest s s' -> present (v_mem s) video_mem 4000 -> present (v_mem s') video_mem 4000.
Proof. intros (_ & _ & E & _) P i Hi. unfold page_present. rewrite E. by apply P. Qed.

Lemma tab_stop x : 0 <= x -> Z.land (x + 8) (Z.lnot (8 - 1)) = 8 * (x / 8 + 1).
Proof.
  intros Hx. change (8 - 1) with (Z.ones 3).
  rewrite <- Z.ldiff_land, Z.ldiff_ones_r, Z.shiftr_div_pow2, Z.shiftl_mul_pow2 by lia.
  change (2 ^ 3) with 8. replace (x + 8) with (x + 1 * 8) by lia. rewrite Z.div_add by lia. lia.
Qed.

Lemma char_cell_range c attr : 0 <= attr < 2 ^ 16 -> 0 <= c < 2 ^ 7 -> 0 <= Z.lor c attr < 2 ^ 16.
Proof.
  intros Ha Hc. split; [apply Z.lor_nonneg; lia|].
  destruct (Z.eq_dec (Z.lor c attr) 0) as [->|Hne]; [lia|].
  apply Z.log2_lt_pow2; [apply Z.le_neq; split; [apply Z.lor_nonneg; lia | done]|].
  rewrite Z.log2_lor by lia. apply Z.max_lub_lt.
  - destruct (Z.eq_dec c 0) as [->|]; [simpl; lia|]. apply Z.log2_lt_pow2; lia.
  - destruct (Z.eq_dec attr 0) as [->|]; [simpl; lia|]. apply Z.log2_lt_pow2; lia.
Qed.

(** A step that only moves the cursor. *)
Definition moved s (x y : Z) : vga := Vga (v_mem s) x y (attribute s) (v_trace s).

Lemma moved_typing s t x y :
  vga_ok s -> shows s t -> 0 <= x <= 80 -> 0 <= y <= 25 -> (x = 80 -> y < 25) ->
  typing (moved s x y) (Term x y (cells t)) /\ same_rest s (moved s x y).
Proof.
  intros [Hx Hy Ha Hm] [Ex Ey Ec] X Y B. split; [|by split_and!].
  split; [by split | done..].
Qed.

(** Writing the cell under the cursor. *)
Lemma put_cell s t c :
  vga_ok s -> shows s t -> 32 <= c < 2 ^ 7 ->
  exists s', on_vmem (store16 (video_mem + 2 * (ypos s * 80 + xpos s)) (Z.lor (u16 c) (attribute s))) s = Ok (tt, s') /\
    vga_ok s' /\ same_rest s s' /\ xpos s' = xpos s /\ ypos s' = ypos s /\
    shows s' (Term (tx t) (ty t) (fun i => if i =? ty t * 80 + tx t then Z.lor c (attribute s) else cells t i)).
Proof.
  intros [Hx Hy Ha Hm] [Ex Ey Ec] Hc. rewrite u16_small by lia.
  set (j := ypos s * 80 + xpos s).
  assert (P : present (v_mem s) (video_mem + 2 * j) 2).
  { intros i Hi. rewrite <- Z.add_assoc. apply Hm. unfold j. lia. }
  eexists. split; [apply on_vmem_ok, store16_ok, P|].
  split; [by split|]. split; [|split; [done|]; split; [done|]].
  - split_and!; try done. intros x Hout. cbn [v_mem].
    by rewrite !byte_at_set_other by (unfold j in *; lia).
  - split; [done | done |]. cbn [v_mem cells]. intros i Hi. rewrite <- Ex, <- Ey. fold j.
    rewrite cell_set by (apply char_cell_range; lia). by rewrite Ec.
Qed.

Lemma print_cases_ok s t c :
  vga_ok s -> shows s t -> - 2 ^ 7 <= c < 2 ^ 7 ->
  exists s', print_cases c s = Ok (tt, s') /\ typing s' (type_char (attribute s) c t) /\ same_rest s s'.
Proof.
  intros Hok Hsh Hc. pose proof Hok as [Hx Hy Ha Hm]. pose proof Hsh as [Ex Ey Ec].
  unfold print_cases, type_char, COLS.
  rewrite (bind_ok _ _ s (xpos s) s), (bind_ok _ _ s (ypos s) s) by done. rewrite <- Ex, <- Ey.
  assert (Hmv := fun x y => moved_typing s t x y Hok Hsh).
  destruct (c =? 8); [|destruct (c =? 9); [|destruct (c =? 13); [|destruct (c =? 10)]]].
  - destruct (Z.ltb_spec 0 (xpos s)); [|destruct (Z.ltb_spec 0 (ypos s))].
    + exists (moved s (xpos s - 1) (ypos s)). split; [apply set_x_ok; lia | apply Hmv; lia].
    + exists (moved s 79 (ypos s - 1)). split; [|apply Hmv; lia].
      rewrite (bind_ok _ _ _ _ _ (set_x_ok s 79 ltac:(lia))). apply set_y_ok. lia.
    + exists s. split; [done|]. split; [|apply same_rest_refl]. split; (done || lia).
  - exists (moved s (8 * (xpos s / 8 + 1)) (ypos s)).
    assert (8 <= 8 * (xpos s / 8 + 1) <= 80) by (Z.div_mod_to_equations; lia).
    rewrite tab_stop by lia. split; [apply set_x_ok; lia | apply Hmv; lia].
  - exists (moved s 0 (ypos s)). split; [apply set_x_ok; lia | apply Hmv; lia].
  - exists (moved s 0 (ypos s + 1)). split; [|apply Hmv; lia].
    rewrite (bind_ok _ _ _ _ _ (set_x_ok s 0 ltac:(lia))). apply set_y_ok. lia.
  - destruct (Z.leb_spec 32 c) as [H32|H32].
    + destruct (put_cell s t c Hok Hsh) as (s1 & Run & Ok1 & Re1 & X1 & Y1 & Sh1); [lia|].
      rewrite (bind_ok _ _ s (attribute s) s), (bind_ok _ _ _ _ _ Run) by done.
      exists (moved s1 (xpos s + 1) (ypos s)). rewrite <- X1, <- Y1.
      split; [rewrite X1; apply set_x_ok; lia|].
      destruct (moved_typing s1 _ (xpos s1 + 1) (ypos s1) Ok1 Sh1) as [T R]; [lia..|].
      split; [|by eapply same_rest_trans]. cbn [cells] in T.
      rewrite X1, Y1, Ex, Ey in *. exact T.
    + exists s. split; [done|]. split; [|apply same_rest_refl]. split; (done || lia).
Qed.

(** The wrap at the end of a line. *)
Lemma wrap_ok s t :
  typing s t ->
  exists s', (x ← gets xpos; if COLS <=? x then set_x 0;; y ← gets ypos; set_y (y + 1) else mret tt) s = Ok (tt, s') /\
    typing s' (wrap_line t) /\ xpos s' < 80 /\ same_rest s s'.
Proof.
  intros [Hsh Hx Hy Hb Ha Hm]. pose proof Hsh as [Ex Ey Ec].
  rewrite (bind_ok _ _ s (xpos s) s) by done. unfold wrap_line, COLS. rewrite <- Ex, <- Ey.
  destruct (Z.leb_spec 80 (xpos s)) as [W|W].
  - exists (moved s 0 (ypos s + 1)). split; [|split].
    + rewrite (bind_ok _ _ _ _ _ (set_x_ok s 0 ltac:(lia))).
      rewrite (bind_ok _ _ _ (ypos s) (moved s 0 (ypos s))) by done. apply set_y_ok. lia.
    + split; cbn; try done; lia.
    + split; [cbn; lia | by split_and!].
  - exists s. split; [done|]. split; [|split; [lia | apply same_rest_refl]].
    split; try done; lia.
Qed.

(** Scrolling by one line. *)
Lemma scroll_ok s t :
  typing s t -> xpos s < 80 ->
  exists s', vga_scroll s = Ok (tt, s') /\ vga_ok s' /\ shows s' (scroll_line (attribute s) t) /\ same_rest s s'.
Proof.
  intros [Hsh Hx Hy Hb Ha Hm] Hx80. pose proof Hsh as [Ex Ey Ec].
  unfold vga_scroll, scroll_line, ROWS. rewrite (bind_ok _ _ s (ypos s) s) by done. rewrite <- Ex, <- Ey.
  destruct (Z.leb_spec 25 (ypos s)) as [W|W].
  2: { exists s. split; [done|]. split; [|split; [done | apply same_rest_refl]]. split; (done || lia). }
  assert (ypos s = 25) as -> by lia. change (u16 (25 - 25 + 1)) with 1. unfold COLS.
  change (2 * (1 * 80)) with 160. change ((25 - 1) * 80 * 2) with 3840. change (2 * ((25 - 1) * 80)) with 3840.
  rewrite (bind_ok _ _ s (attribute s) s) by done.
  destruct (memcpy_ok (v_mem s) video_mem (video_mem + 160) 3840) as (m1 & R1 & [P1 B1]); [lia | | | lia |].
  { intros i Hi. apply Hm. lia. }
  { intros i Hi. rewrite <- Z.add_assoc. apply Hm. lia. }
  rewrite (bind_ok _ _ _ _ _ (on_vmem_ok _ s _ _ R1)).
  set (s1 := Vga m1 _ _ _ _). set (blank := Z.lor 0x20 (attribute s)).
  destruct (stosw_ok 80 (video_mem + 3840) blank m1) as (m2 & R2 & P2 & B2).
  { intros i Hi. unfold page_present. rewrite P1, <- Z.add_assoc. apply Hm. lia. }
  rewrite (bind_ok _ _ s1 _ _ (on_vmem_ok _ s1 _ _ R2)).
  rewrite set_y_ok by lia. eexists. split; [reflexivity|]. cbn [v_mem xpos ypos attribute v_trace s1].
  change (2 * Z.of_nat 80) with 160 in B2. split; [|split].
  - split; cbn; try done; try lia. intros i Hi. unfold page_present. rewrite P2, P1. by apply Hm.
  - split; [done | done |]. cbn [v_mem cells]. intros i Hi.
    assert (Hbl : 0 <= blank < 2 ^ 16) by (apply char_cell_range; lia).
    unfold cell. rewrite !B2. destruct (Z.ltb_spec i (24 * 80)) as [I|I].
    + rewrite !(proj2 (Z.leb_gt _ _)) by lia. cbn [andb]. rewrite !B1.
      rewrite !(proj2 (Z.leb_le _ _)), !(proj2 (Z.ltb_lt _ _)) by lia. cbn [andb].
      rewrite <- Ec by lia. unfold cell. f_equal; [|f_equal]; f_equal; lia.
    + rewrite !(proj2 (Z.leb_le _ _)), !(proj2 (Z.ltb_lt _ _)) by lia. cbn [andb].
      replace ((video_mem + 2 * i - (video_mem + 3840)) mod 2) with 0 by (Z.div_mod_to_equations; lia).
      replace ((video_mem + 2 * i + 1 - (video_mem + 3840)) mod 2) with 1 by (Z.div_mod_to_equations; lia).
      cbn [Z.eqb]. unfold u8. Z.div_mod_to_equations. lia.
  - split_and!; try done; [cbn; congruence|]. cbn [v_mem]. intros x Hx'. rewrite B2.
    destruct (Z.leb_spec (video_mem + 3840) x), (Z.ltb_spec x (video_mem + 3840 + 160)); cbn [andb]; try lia;
      rewrite B1; destruct (Z.leb_spec video_mem x), (Z.ltb_spec x (video_mem + 3840)); cbn [andb]; try done; lia.
Qed.

(** The port writes that move the hardware cursor to cell [pos]. *)
Definition cursor_writes (pos : Z) : list io_event :=
  [ Out8 CURS_DATA (pos mod 2 ^ 8); Out8 CURS_CTRL LOW_BYTE;
    Out8 CURS_DATA (pos / 2 ^ 8); Out8 CURS_CTRL HIGH_BYTE ].

Lemma set_cursor_ok s :
  vga_ok s ->
  set_cursor_pos (xpos s) (ypos s) s =
  Ok (tt, Vga (v_mem s) (xpos s) (ypos s) (attribute s)
            (cursor_writes (ypos s * 80 + xpos s) ++ v_trace s)).
Proof.
  intros [Hx Hy _ _]. unfold set_cursor_pos, cursor_writes, COLS.
  rewrite (u16_small (ypos s * 80 + xpos s)) by lia.
  assert (E : u8 (Z.shiftr (ypos s * 80 + xpos s) 8) = (ypos s * 80 + xpos s) / 2 ^ 8).
  { rewrite Z.shiftr_div_pow2 by lia. apply u8_small. Z.div_mod_to_equations. lia. }
  unfold vga_outb. unfold mbind, M_bind, modify. by rewrite E.
Qed.

(** One character: the screen after it, and what else changes. *)
Lemma print_char_run s t c :
  vga_ok s -> shows s t -> - 2 ^ 7 <= c < 2 ^ 7 ->
  exists s', vga_print_char c s = Ok (tt, s') /\ vga_ok s' /\ shows s' (put_char (attribute s) c t) /\
    attribute s' = attribute s /\ m_pages (v_mem s') = m_pages (v_mem s) /\
    (forall x, x < video_mem \/ video_mem + 4000 <= x -> byte_at (v_mem s') x = byte_at (v_mem s) x) /\
    v_trace s' = cursor_writes (ypos s' * 80 + xpos s') ++ v_trace s.
Proof.
  intros Hok Hsh Hc.
  destruct (print_cases_ok s t c Hok Hsh Hc) as (s1 & R1 & T1 & E1).
  destruct (wrap_ok s1 _ T1) as (s2 & R2 & T2 & X2 & E2).
  destruct (scroll_ok s2 _ T2 X2) as (s3 & R3 & Ok3 & Sh3 & E3).
  pose proof (same_rest_trans _ _ _ E1 (same_rest_trans _ _ _ E2 E3)) as (A & B & C & D).
  assert (A2 : attribute s2 = attribute s).
  { destruct E1 as (A1 & _), E2 as (A2 & _). congruence. }
  rewrite A2 in Sh3. eexists. split.
  - unfold vga_print_char. rewrite (bind_ok _ _ _ _ _ R1).
    rewrite (bind_ok _ _ s1 (xpos s1) s1) by done.
    rewrite (bind_ok _ _ s1 (xpos s1) s1) in R2 by done.
    rewrite (bind_ok _ _ _ _ _ R2), (bind_ok _ _ _ _ _ R3).
    rewrite (bind_ok _ _ s3 (xpos s3) s3), (bind_ok _ _ s3 (ypos s3) s3) by done.
    by apply set_cursor_ok.
  - cbn [v_trace v_mem xpos ypos attribute]. destruct Ok3, Sh3. rewrite B.
    split_and!; try done; by split.
Qed.

(** The loop of vga_clear, [n] cells from [i] on. *)
Lemma clear_cells_ok n : forall i s,
  0 <= i -> i + Z.of_nat n <= 2000 -> 0 <= attribute s < 2 ^ 16 -> present (v_mem s) video_mem 4000 ->
  exists m', clear_cells n i s = Ok (tt, Vga m' (xpos s) (ypos s) (attribute s) (v_trace s)) /\
    m_pages m' = m_pages (v_mem s) /\
    (forall j, 0 <= j < 2000 ->
       cell m' j = if (i <=? j) && (j <? i + Z.of_nat n) then Z.lor 0x20 (attribute s) else cell (v_mem s) j) /\
    (forall x, x < video_mem \/ video_mem + 4000 <= x -> byte_at m' x = byte_at (v_mem s) x).
Proof.
  induction n as [|n IH]; intros i s Hi Hn Ha P.
  - exists (v_mem s). split_and!; try done; [by destruct s|]. intros j Hj.
    by replace ((i <=? j) && (j <? i + Z.of_nat 0)) with false by zbool.
  - cbn [clear_cells]. rewrite (bind_ok _ _ s (attribute s) s) by done.
    assert (P2 : present (v_mem s) (video_mem + 2 * i) 2).
    { intros k Hk. replace (video_mem + 2 * i + k) with (video_mem + (2 * i + k)) by lia. apply P. lia. }
    pose proof (char_cell_range 0x20 (attribute s) Ha ltac:(lia)) as Hc. set (v := Z.lor 0x20 (attribute s)) in *.
    rewrite (bind_ok _ _ _ _ _ (on_vmem_ok _ s _ _ (store16_ok _ _ v P2))).
    set (m1 := set_byte (video_mem + 2 * i + 1) (v / 2 ^ 8) (set_byte (video_mem + 2 * i) v (v_mem s))).
    destruct (IH (i + 1) (Vga m1 (xpos s) (ypos s) (attribute s) (v_trace s))) as (m' & E & Pg & C & B);
      [lia | lia | done | done |]. exists m'. cbn [v_mem attribute] in *. split_and!; try done.
    + intros j Hj. rewrite C by done. unfold m1. rewrite cell_set by done. fold v.
      destruct (Z.eqb_spec j i), (Z.leb_spec (i + 1) j), (Z.ltb_spec j (i + 1 + Z.of_nat n)), (Z.leb_spec i j),
        (Z.ltb_spec j (i + Z.of_nat (S n))); cbn [andb]; try lia; done.
    + intros x Hx. rewrite B by done. unfold m1. by rewrite !byte_at_set_other by lia.
Qed.

(** The empty screen. *)
Definition blank (attr : Z) : term := Term 0 0 (fun _ => Z.lor 0x20 attr).

(** vga_init clears the screen and moves the cursor to its first position. *)
Lemma vga_init_ok dev s :
  0 <= attribute s < 2 ^ 16 -> present (v_mem s) video_mem 4000 ->
  exists s', vga_init dev s = Ok (tt, s') /\ vga_ok s' /\ shows s' (blank (attribute s)) /\ attribute s' = attribute s /\
    m_pages (v_mem s') = m_pages (v_mem s) /\
    (forall x, x < video_mem \/ video_mem + 4000 <= x -> byte_at (v_mem s') x = byte_at (v_mem s) x).
Proof.
  intros Ha P. unfold vga_init. destruct (get_cursor_pos dev s) as [[[x y] s1]|] eqn:E1; [|done].
  assert (Es : v_mem s1 = v_mem s /\ attribute s1 = attribute s) by (injection E1 as <- <- <-; done).
  destruct Es as [Em Eat]. rewrite (bind_ok _ _ _ _ _ E1).
  set (s2 := Vga (v_mem s1) (u16 x) (u16 y) (attribute s1) (v_trace s1)).
  rewrite (bind_ok _ _ s1 tt (Vga (v_mem s1) (u16 x) (ypos s1) (attribute s1) (v_trace s1))) by done.
  rewrite (bind_ok _ _ _ tt s2) by done. unfold vga_clear.
  destruct (clear_cells_ok (Z.to_nat (COLS * ROWS)) 0 s2) as (m' & E & Pg & C & B);
    [lia | by vm_compute | cbn; congruence | cbn; by rewrite Em |].
  rewrite (bind_ok _ _ _ _ _ E). set (s3 := Vga m' 0 0 (attribute s1) (v_trace s1)).
  rewrite (bind_ok _ _ _ tt (Vga m' 0 (u16 y) (attribute s1) (v_trace s1))) by done.
  rewrite (bind_ok _ _ _ tt s3) by done. cbn [v_mem attribute s2] in *. rewrite Em in Pg, B.
  assert (V : vga_ok s3).
  { split; cbn; [lia | lia | congruence |]. intros i Hi. unfold page_present. rewrite Pg. by apply P. }
  eexists. split; [exact (set_cursor_ok s3 V)|]. destruct V. split_and!; try done; try (by split).
  split; [done | done |]. intros i Hi. cbn [cells blank v_mem]. rewrite C, Eat by done.
  change (Z.of_nat (Z.to_nat (COLS * ROWS))) with 2000.
  by replace ((0 <=? i) && (i <? 0 + 2000)) with true by zbool.
Qed.
End runs.

(** C24: vga_print_char implements the terminal: a printable character appears
    at the cursor with the current attribute, the control characters move the
    cursor, lines wrap at column 80, the screen scrolls by one line at the
    bottom with a blank last line; the cursor stays on the screen, the hardware
    cursor is moved there, and no memory outside the screen changes. *)
Theorem vga_print_char_ok s t c :
  vga_ok s -> shows s t -> - 2 ^ 7 <= c < 2 ^ 7 ->
  exists s', vga_print_char c s = Ok (tt, s') /\ vga_ok s' /\ shows s' (put_char (attribute s) c t) /\
    attribute s' = attribute s /\
    (forall x, x < video_mem \/ video_mem + 4000 <= x -> byte_at (v_mem s') x = byte_at (v_mem s) x) /\
    v_trace s' = cursor_writes (ypos s' * 80 + xpos s') ++ v_trace s.
Proof.
  intros Hok Hsh Hc. destruct (print_char_run s t c Hok Hsh Hc) as (s' & ? & ? & ? & ? & _ & ? & ?).
  eauto 10.
Qed.

(** A screen with the cursor on its last position. *)
Definition bottom_right : vga := Vga (mem_with_pages 3 0xc00b7000) 79 24 0x0f00 [].

Lemma bottom_right_ok : vga_ok bottom_right.
Proof.
  split; [cbn; lia | cbn; lia | cbn; lia |].
  intros i Hi. unfold page_present. apply bool_decide_eq_true.
  replace ((video_mem + i) / PAGE) with 0xc00b8; [vm_compute; set_solver|].
  unfold video_mem, PAGE. Z.div_mod_to_equations. lia.
Qed.

Lemma vga_print_char_ok_witness :
  exists s', vga_print_char 65 bottom_right = Ok (tt, s') /\ vga_ok s' /\
    shows s' (put_char 0x0f00 65 (Term 79 24 (cell (v_mem bottom_right)))) /\
    attribute s' = attribute bottom_right /\
    (forall x, x < video_mem \/ video_mem + 4000 <= x -> byte_at (v_mem s') x = byte_at (v_mem bottom_right) x) /\
    v_trace s' = cursor_writes (ypos s' * 80 + xpos s') ++ v_trace bottom_right.
Proof.
  apply (vga_print_char_ok bottom_right (Term 79 24 (cell (v_mem bottom_right)))); [|by split|lia].
  apply bottom_right_ok.
Defined.
