(* ===== verification/Keyboard.v ===== *)
(** The keyboard driver: keyboard.c.

    The handler turns scan codes into characters, echoes them on the console
    and puts them into a ring of 32 bytes of which one is always unused; the
    specification of the ring is a queue of at most 31 characters. The scan code
    is the byte that inb(0x60) returns, an argument of the handler. *)

From S2P Require Import Prelude Memory CString Arch Vga VgaSpec.

Definition LSHIFT : Z := 0x2a.
Definition RSHIFT : Z := 0x36.
Definition KBD_BUF_SIZE : Z := 32.

(** The two rows of keymap_us; the entries that are not written are 0. *)
Definition keymap_lower : list Z :=
  [0; 27; 49; 50; 51; 52; 53; 54; 55; 56; 57; 48; 45; 61; 8;
   9; 113; 119; 101; 114; 116; 121; 117; 105; 111; 112; 91; 93; 10;
   0; 97; 115; 100; 102; 103; 104; 106; 107; 108; 59; 39; 96;
   0; 92; 122; 120; 99; 118; 98; 110; 109; 44; 46; 47; 0;
   0; 0; 32; 0].
Definition keymap_upper : list Z :=
  [0; 27; 33; 64; 35; 36; 37; 94; 38; 42; 40; 41; 95; 43; 8;
   9; 81; 87; 69; 82; 84; 89; 85; 73; 79; 80; 123; 125; 10;
   0; 65; 83; 68; 70; 71; 72; 74; 75; 76; 58; 34; 126;
   0; 92; 90; 88; 67; 86; 66; 78; 77; 60; 62; 63; 0;
   0; 0; 32; 0].

(** [keymap_us[shift][scancode]], for scan codes below 128. *)
Definition keymap_us (shift scancode : Z) : Z :=
  default 0 ((if shift =? 0 then keymap_lower else keymap_upper) !! Z.to_nat scancode).

Record keyboard : Type := Keyboard {
  last_char : Z;
  shift_pressed : Z;
  kbd_buffer : list Z;
  read_idx : Z;
  write_idx : Z;
  k_vga : vga
}.

Definition init_keyboard (v : vga) : keyboard := Keyboard 0 0 (replicate 32 0) 0 0 v.

Definition set_shift (b : Z) : M keyboard unit :=
  modify (fun k => Keyboard (last_char k) b (kbd_buffer k) (read_idx k) (write_idx k) (k_vga k)).
Definition set_last (c : Z) : M keyboard unit :=
  modify (fun k => Keyboard c (shift_pressed k) (kbd_buffer k) (read_idx k) (write_idx k) (k_vga k)).
Definition on_vga {A} (c : M vga A) : M keyboard A :=
  zoom k_vga (fun v k => Keyboard (last_char k) (shift_pressed k) (kbd_buffer k) (read_idx k) (write_idx k) v) c.

(** [if (((write_idx + 1) % KBD_BUF_SIZE) != read_idx)] ... *)
Definition enqueue (c : Z) : M keyboard unit :=
  modify (fun k =>
    if negb ((write_idx k + 1) mod KBD_BUF_SIZE =? read_idx k) then
      Keyboard (last_char k) (shift_pressed k) (<[Z.to_nat (write_idx k) := c]> (kbd_buffer k))
        (read_idx k) ((write_idx k + 1) mod KBD_BUF_SIZE) (k_vga k)
    else k).

Definition is_shift (scancode : Z) : bool := (scancode =? LSHIFT) || (scancode =? RSHIFT).

Definition keyboard_handler (port_value : Z) : M keyboard unit :=
  let scancode := u8 port_value in
  if negb (Z.land scancode 0x80 =? 0) then
    let scancode := Z.land scancode 0x7f in
    when (is_shift scancode) (set_shift 0)
  else if is_shift scancode then set_shift 1
  else
    shift ← gets shift_pressed;
    on_vga (vga_print_char (s8 (keymap_us shift scancode)));;
    set_last (keymap_us shift scancode);;
    c ← gets last_char;
    enqueue c.

(** An empty ring is waited on until an interrupt fills it: in the model of
    one uninterrupted call, for ever. *)
Definition keyboard_getchar : M keyboard Z :=
  k ← get;
  if read_idx k =? write_idx k then throw Hang
  else
    match kbd_buffer k !! Z.to_nat (read_idx k) with
    | None => throw (OutOfBounds (read_idx k))
    | Some c =>
        modify (fun k => Keyboard (last_char k) (shift_pressed k) (kbd_buffer k)
          ((read_idx k + 1) mod KBD_BUF_SIZE) (write_idx k) (k_vga k));;
        mret c
    end.

Definition keyboard_lastchar : M keyboard Z :=
  tmp ← gets last_char; set_last 0;; mret tmp.

(** ** The queue *)

Record holds_queue (k : keyboard) (q : list Z) : Prop := {
  hq_read : 0 <= read_idx k < 32;
  hq_write : write_idx k = (read_idx k + Z.of_nat (length q)) mod 32;
  hq_len : (length q <= 31)%nat;
  hq_buf : length (kbd_buffer k) = 32%nat;
  hq_data : forall i c, q !! i = Some c ->
    kbd_buffer k !! Z.to_nat ((read_idx k + Z.of_nat i) mod 32) = Some c
}.

Lemma init_holds v : holds_queue (init_keyboard v) [].
Proof. split; try done; cbn; lia. Qed.

Lemma wrap_32 x : 0 <= x < 64 -> x mod 32 = if x <? 32 then x else x - 32.
Proof. intros Hx. destruct (Z.ltb_spec x 32); Z.div_mod_to_equations; lia. Qed.

(** The ring is full exactly when the queue has 31 characters. *)
Lemma ring_full k q : holds_queue k q ->
  ((write_idx k + 1) mod KBD_BUF_SIZE =? read_idx k) = bool_decide (length q = 31%nat).
Proof.
  intros [Hr Hw Hl _ _]. unfold KBD_BUF_SIZE. rewrite Hw.
  case_bool_decide as D; [apply Z.eqb_eq | apply Z.eqb_neq].
  - Z.div_mod_to_equations. lia.
  - intros E. Z.div_mod_to_equations. lia.
Qed.

Lemma enqueue_ok k q c : holds_queue k q ->
  exists k', enqueue c k = Ok (tt, k') /\
    holds_queue k' (if decide (length q = 31%nat) then q else q ++ [c]) /\
    last_char k' = last_char k /\ shift_pressed k' = shift_pressed k /\ k_vga k' = k_vga k.
Proof.
  intros Hq. eexists. split; [reflexivity|]. rewrite (ring_full k q Hq).
  destruct (decide (length q = 31%nat)) as [D|D].
  { rewrite bool_decide_eq_true_2 by done. by cbn [negb]. }
  rewrite bool_decide_eq_false_2 by done. cbn [negb]. split; [|done].
  destruct Hq as [Hr Hw Hl Hb Hd]. unfold KBD_BUF_SIZE.
  assert (W : 0 <= write_idx k < 32) by (rewrite Hw; apply Z.mod_pos_bound; lia).
  split; cbn [read_idx write_idx kbd_buffer].
  - done.
  - rewrite Hw, length_app. cbn [length]. Z.div_mod_to_equations. lia.
  - rewrite length_app. cbn [length]. lia.
  - by rewrite length_insert.
  - intros i x Hi. apply lookup_app_Some in Hi as [Hi|[Hge Hi]].
    + rewrite list_lookup_insert_ne; [by apply Hd|].
      apply lookup_lt_Some in Hi. rewrite Hw. Z.div_mod_to_equations. lia.
    + destruct (i - length q)%nat eqn:E; [|done]. injection Hi as ->.
      replace i with (length q) by lia. rewrite <- Hw.
      apply list_lookup_insert_eq. rewrite Hb. lia.
Qed.

Lemma getchar_ok k c q : holds_queue k (c :: q) ->
  exists k', keyboard_getchar k = Ok (c, k') /\ holds_queue k' q /\
    last_char k' = last_char k /\ shift_pressed k' = shift_pressed k /\ k_vga k' = k_vga k.
Proof.
  intros [Hr Hw Hl Hb Hd]. cbn [length] in *. eexists. split.
  - unfold keyboard_getchar. rewrite (bind_ok _ _ k k k) by done.
    destruct (Z.eqb_spec (read_idx k) (write_idx k)) as [E|E].
    { exfalso. rewrite Hw in E. Z.div_mod_to_equations. lia. }
    assert (H0 : kbd_buffer k !! Z.to_nat (read_idx k) = Some c).
    { rewrite <- (Hd 0%nat c) by done. f_equal. rewrite Z.add_0_r, Z.mod_small by lia. done. }
    rewrite H0. reflexivity.
  - split; [|done]. unfold KBD_BUF_SIZE. split; cbn [read_idx write_idx kbd_buffer].
    + apply Z.mod_pos_bound. lia.
    + rewrite Hw. Z.div_mod_to_equations. lia.
    + lia.
    + done.
    + intros i x Hi. rewrite <- (Hd (S i) x) by done. do 2 f_equal. Z.div_mod_to_equations. lia.
Qed.

(** What a scan code means: the shift state and the character typed, if any. *)
Definition key_event (scancode shift : Z) : Z * option Z :=
  if 128 <=? scancode then (if is_shift (scancode - 128) then 0 else shift, None)
  else if is_shift scancode then (1, None)
  else (shift, Some (keymap_us shift scancode)).

(** The tables hold 7-bit characters. *)
Lemma keymap_range shift c : 0 <= keymap_us shift c < 128.
Proof.
  unfold keymap_us.
  assert (A : Forall (fun x => 0 <= x < 128) keymap_lower)
    by (apply (bool_decide_unpack (Forall _ keymap_lower)); vm_compute; exact I).
  assert (B : Forall (fun x => 0 <= x < 128) keymap_upper)
    by (apply (bool_decide_unpack (Forall _ keymap_upper)); vm_compute; exact I).
  set (l := if shift =? 0 then _ else _).
  assert (F : Forall (fun x => 0 <= x < 128) l) by (unfold l; by destruct (shift =? 0)).
  clearbody l. destruct (l !! Z.to_nat c) as [x|] eqn:L; cbn [default from_option id]; [|lia].
  apply (Forall_lookup_1 _ _ _ _ F L).
Qed.

Lemma release_bit x : 0 <= x < 2 ^ 8 ->
  negb (Z.land x 0x80 =? 0) = (128 <=? x) /\ (128 <= x -> Z.land x 0x7f = x - 128).
Proof.
  intros Hx. change (Z.land x 0x80) with (Z.land x (Z.shiftl 1 7)). change 0x7f with (Z.ones 7).
  rewrite land_shiftl_1, Z.land_ones by lia. split.
  - rewrite Z.testbit_eqb by lia. change (2 ^ 7) with 128.
    destruct (Z.leb_spec 128 x).
    + replace (x / 128) with 1; [reflexivity|]. Z.div_mod_to_equations. lia.
    + replace (x / 128) with 0; [reflexivity|]. Z.div_mod_to_equations. lia.
  - intros H. change (2 ^ 7) with 128. Z.div_mod_to_equations. lia.
Qed.

Lemma s8_small c : 0 <= c < 128 -> s8 c = c.
Proof. intros. unfold s8. rewrite Z.mod_small; lia. Qed.

(** The handler on every kind of scan code. *)
Lemma keyboard_handler_run port_value k q t :
  holds_queue k q -> vga_ok (k_vga k) -> shows (k_vga k) t ->
  exists k', keyboard_handler port_value k = Ok (tt, k') /\
    let ev := key_event (u8 port_value) (shift_pressed k) in
    shift_pressed k' = ev.1 /\ vga_ok (k_vga k') /\
    match ev.2 with
    | None => holds_queue k' q /\ last_char k' = last_char k /\ k_vga k' = k_vga k
    | Some c =>
        holds_queue k' (if decide (length q = 31%nat) then q else q ++ [c]) /\ last_char k' = c /\
        shows (k_vga k') (put_char (attribute (k_vga k)) c t)
    end.
Proof.
  intros Hq Hv Ht. unfold keyboard_handler, key_event, when. cbv zeta.
  destruct (release_bit (u8 port_value) (u8_range port_value)) as [E1 E2]. rewrite E1.
  destruct (Z.leb_spec 128 (u8 port_value)) as [R|R].
  - rewrite E2 by done. destruct (is_shift (u8 port_value - 128));
      (eexists; split; [reflexivity|]; split; [done|]; split; [done|]; split; [by destruct Hq|done]).
  - destruct (is_shift (u8 port_value)).
    { eexists. split; [reflexivity|]. split; [done|]. split; [done|]. split; [by destruct Hq|done]. }
    rewrite (bind_ok _ _ k (shift_pressed k) k) by done.
    set (c := keymap_us (shift_pressed k) (u8 port_value)).
    assert (Hc : 0 <= c < 128) by apply keymap_range. rewrite (s8_small c) by done.
    destruct (print_char_run (k_vga k) t c Hv Ht) as (v' & Run & Ok' & Sh' & _); [lia|].
    erewrite bind_ok by (unfold on_vga, zoom; rewrite Run; reflexivity).
    set (k1 := Keyboard c (shift_pressed k) (kbd_buffer k) (read_idx k) (write_idx k) v').
    rewrite (bind_ok _ _ _ tt k1) by done. rewrite (bind_ok _ _ k1 c k1) by done.
    destruct (enqueue_ok k1 q c) as (k' & R1 & R2 & R3 & R4 & R5); [by destruct Hq|].
    exists k'. cbn [fst snd]. rewrite R5, R4, R3. by split_and!.
Qed.

(** the keyboard handler updates the shift state on a press or release of
    a shift key, ignores other releases, and for any other press echoes the
    key's character on the console, remembers it as last character and appends
    it to the queue, unless 31 characters already wait, when it is dropped. *)
Theorem keyboard_handler_ok port_value k q t :
  holds_queue k q -> vga_ok (k_vga k) -> shows (k_vga k) t ->
  exists k', keyboard_handler port_value k = Ok (tt, k') /\
    let ev := key_event (u8 port_value) (shift_pressed k) in
    shift_pressed k' = ev.1 /\ vga_ok (k_vga k') /\
    match ev.2 with
    | None => holds_queue k' q /\ last_char k' = last_char k /\ k_vga k' = k_vga k
    | Some c =>
        holds_queue k' (if decide (length q = 31%nat) then q else q ++ [c]) /\ last_char k' = c /\
        shows (k_vga k') (put_char (attribute (k_vga k)) c t)
    end.
Proof. exact (keyboard_handler_run port_value k q t). Qed.

Lemma keyboard_handler_ok_witness :
  exists k', keyboard_handler 0x1e (init_keyboard bottom_right) = Ok (tt, k') /\
    let ev := key_event (u8 0x1e) 0 in
    shift_pressed k' = ev.1 /\ vga_ok (k_vga k') /\
    match ev.2 with
    | None => holds_queue k' [] /\ last_char k' = 0 /\ k_vga k' = bottom_right
    | Some c =>
        holds_queue k' (if decide (length ([] : list Z) = 31%nat) then [] else [] ++ [c]) /\ last_char k' = c /\
        shows (k_vga k') (put_char 0x0f00 c (Term 79 24 (cell (v_mem bottom_right))))
    end.
Proof.
  apply (keyboard_handler_ok 0x1e (init_keyboard bottom_right) []); [apply init_holds | apply bottom_right_ok | by split].
Defined.

(** keyboard_getchar returns the oldest character of the queue and removes
    it, whatever was typed before: the characters come out in the order in
    which the handler put them in. *)
Theorem keyboard_getchar_fifo k c q :
  holds_queue k (c :: q) ->
  exists k', keyboard_getchar k = Ok (c, k') /\ holds_queue k' q /\
    forall d k'', enqueue d k' = Ok (tt, k'') ->
      holds_queue k'' (q ++ [d]).
Proof.
  intros Hq. destruct (getchar_ok k c q Hq) as (k' & R & Hq' & _).
  exists k'. split_and!; [done | done |]. intros d k'' E.
  destruct (enqueue_ok k' q d Hq') as (k1 & R1 & Hq1 & _).
  assert (L : (length q < 31)%nat) by exact (hq_len _ _ Hq).
  rewrite decide_False in Hq1 by lia. congruence.
Qed.

Lemma keyboard_getchar_fifo_witness :
  exists k', keyboard_getchar (Keyboard 0 0 (<[31%nat := 65]> (replicate 32 66)) 31 1 bottom_right) = Ok (65, k') /\
    holds_queue k' [66] /\ forall d k'', enqueue d k' = Ok (tt, k'') -> holds_queue k'' ([66] ++ [d]).
Proof.
  apply keyboard_getchar_fifo. split; [cbn; lia | reflexivity | cbn [length]; lia | reflexivity |].
  intros [|[|i]] c; cbn; intros; simplify_eq; reflexivity.
Defined.
