(* ===== verification/Interrupts.v ===== *)
(** Interrupt dispatch: isr_handler and irq_handler of system.c, the system
    calls of syscall.c and keyboard_init of keyboard.c, on the state of the
    whole kernel.

    The kernel state puts the components side by side: processor and devices,
    the scheduler, the keyboard with its console, and the register frame of the
    interrupt that is being handled (the [registers_t] that the assembly stub
    pushed; a pointer to it is its address). Handlers are called through
    pointers: [code f regs] is what the function at address [f] does when it
    is called with the frame at [regs]. The interrupt flag of the processor is
    the one of [k_arch]; the scheduler works on the same flag. *)

From S2P Require Import Prelude Memory Dll Handlers Desc Arch Kheap Sched Vga Keyboard.

(** system.h *)
Record registers_t : Type := Registers {
  r_gs : Z; r_fs : Z; r_es : Z; r_ds : Z;
  r_ebp : Z; r_edi : Z; r_esi : Z; r_edx : Z; r_ecx : Z; r_ebx : Z; r_eax : Z;
  r_int_no : Z; r_err_code : Z;
  r_eip : Z; r_cs : Z; r_eflags : Z; r_esp : Z; r_ss : Z
}.

Definition set_eax (v : Z) (r : registers_t) : registers_t :=
  Registers (r_gs r) (r_fs r) (r_es r) (r_ds r) (r_ebp r) (r_edi r) (r_esi r) (r_edx r) (r_ecx r)
    (r_ebx r) v (r_int_no r) (r_err_code r) (r_eip r) (r_cs r) (r_eflags r) (r_esp r) (r_ss r).

Definition exception_messages : list string :=
  ["Division by zero"; "Debug"; "Non-maskable interrupt"; "Breakpoint"; "Detected overflow"; "Out-of-bounds";
   "Invalid opcode"; "No coprocessor"; "Double fault"; "Coprocessor segment overrun"; "Bad TSS"; "Segment not present";
   "Stack fault"; "General protection fault"; "Page fault"; "Unknown interrupt"; "Coprocessor fault";
   "Alignment check (486+)"; "Machine check (Pentium/586+)"; "Reserved"; "Reserved"; "Reserved"; "Reserved";
   "Reserved"; "Reserved"; "Reserved"; "Reserved"; "Reserved"; "Reserved"; "Reserved"; "Reserved"; "Reserved"]%string.

Record kernel (H : Type) : Type := Kernel {
  k_arch : arch;
  k_sched : sched H;
  k_kbd : keyboard;
  k_regs : registers_t
}.
Arguments Kernel {H}. Arguments k_arch {H}. Arguments k_sched {H}. Arguments k_kbd {H}. Arguments k_regs {H}.

Section interrupts.
Context {H : Type} `{KernelHeap H}.
(** Devices, the cycle counter and the code at the addresses of the handlers. *)
Context (dev : list io_event -> Z -> Z) (rdtsc : nat -> Z).
Context (code : Z -> Z -> M (kernel H) unit).

Definition on_arch {A} (c : M arch A) : M (kernel H) A :=
  zoom k_arch (fun a k => Kernel a (k_sched k) (k_kbd k) (k_regs k)) c.

(** The scheduler sees the processor's interrupt flag. *)
Definition on_sched {A} (c : M (sched H) A) : M (kernel H) A := fun k =>
  match c (with_flag (a_if (k_arch k)) (k_sched k)) with
  | Ok (r, s) => Ok (r, Kernel (with_if (s_if s) (k_arch k)) s (k_kbd k) (k_regs k))
  | Err e => Err e
  end.

Definition on_kbd {A} (c : M keyboard A) : M (kernel H) A :=
  zoom k_kbd (fun b k => Kernel (k_arch k) (k_sched k) b (k_regs k)) c.

Definition int_no : M (kernel H) Z := gets (fun k => r_int_no (k_regs k)).

(** The slot [i] of the handlers of vector [num]. *)
Definition handler_at (num : Z) (i : nat) : M (kernel H) handler_t := on_arch (on_table (on_row num (slot i))).

(** [while (h) { h->handler(regs); h = h->next; }], for at most [fuel] handlers. *)
Fixpoint run_handlers (fuel : nat) (num : Z) (h : option nat) (regs : Z) : M (kernel H) unit :=
  match h with
  | None => mret tt
  | Some i =>
      match fuel with
      | O => throw Hang
      | S fuel =>
          s ← handler_at num i;
          code (h_handler s) regs;;
          s ← handler_at num i;
          run_handlers fuel num (h_next s) regs
      end
  end.

Definition dump_registers : M (kernel H) unit := on_arch (kprintf ERROR
  ("eax: %#010x ebx: %#010x ecx: %#010x edx: %#010x esi: %#010x edi: %#010x ebp: %#010x esp: %#010x " ++
   "eip: %#010x efl: %#010x ss: %#04x cs: %#04x ds: %#04x es: %#04x fs: %#04x gs: %#04x")).

(** "no handler", "double fault", "unexpected int. no" *)
Definition must_stop (h : option nat) (n : Z) : bool :=
  bool_decide (h = None) || (n =? 8) || ((IRQ 0 <=? n) && negb (n =? SYSCALL_VECTOR)).

Definition isr_handler (fuel : nat) (regs : Z) : M (kernel H) Z :=
  n ← int_no;
  h ← on_arch (on_table (get_interrupt_handler n));
  let stop := must_stop h n in
  run_handlers fuel n h regs;;
  if stop then
    on_arch (kprintf ERROR "Unhandled exception #%u");;
    n ← int_no;
    (if n <? IRQ 0 then
       match exception_messages !! Z.to_nat n with
       | Some msg => on_arch (kprintf ERROR (" (" ++ msg ++ ")"))
       | None => throw (OutOfBounds n)
       end
     else mret tt);;
    on_arch (kprintf ERROR "");;
    dump_registers;;
    throw Stopped
  else mret regs.

(** The result is the stack pointer from which the stub resumes. *)
Definition irq_handler (fuel tick_fuel : nat) (regs : Z) : M (kernel H) Z :=
  n ← int_no;
  spurious ← on_arch (pic_acknowledge dev n);
  if negb (spurious =? 0) then
    on_arch (kprintf DEBUG "Spurious IRQ");; mret regs
  else
    scheduling ← gets (fun k => scheduling (k_sched k));
    n ← int_no;
    esp ← (if scheduling && (n =? 0) then on_sched (schedule_tick rdtsc tick_fuel regs) else mret regs);
    n ← int_no;
    h ← on_arch (on_table (get_interrupt_handler (IRQ n)));
    if bool_decide (h = None) && negb (n =? 0) then
      on_arch (kprintf WARNING "No handler for IRQ #%u");; mret esp
    else run_handlers fuel (IRQ n) h regs;; mret esp.

(** ** keyboard.c *)

Definition IRQ_KBD : Z := 1.

(** [handler] is the address of keyboard_handler. *)
Definition keyboard_init (handler : Z) : M (kernel H) unit :=
  on_arch (on_table (attach_interrupt_handler (IRQ IRQ_KBD) handler));;
  on_arch (pic_enable_irq dev IRQ_KBD);;
  on_arch (kprintf INFO "[kbd] Keyboard initialized").

(** The handler as it runs: it reads the scan code from the controller. *)
Definition keyboard_interrupt : M (kernel H) unit :=
  v ← on_arch (inb dev 0x60);
  on_kbd (keyboard_handler v).

(** ** syscall.c *)

Definition num_syscalls : Z := 4.

(** What is left in eax by a function that returns nothing. *)
Context (void_eax : Z).
(** Iterations of the string loops, and the stack buffer of the number printers. *)
Context (str_fuel : nat) (buffer : Z).

(** The functions of the table; the first argument is on top of the five
    words that are pushed, the ebx of the caller. *)
Definition syscall_body (n arg : Z) : M (kernel H) Z :=
  (if n =? 0 then on_sched thread_exit
   else if n =? 1 then on_kbd (on_vga (vga_print_str str_fuel arg))
   else if n =? 2 then on_kbd (on_vga (vga_print_dec str_fuel buffer arg))
   else on_kbd (on_vga (vga_print_hex str_fuel buffer arg)));;
  mret void_eax.

Definition syscall_handler (regs : Z) : M (kernel H) unit :=
  r ← gets k_regs;
  if num_syscalls <=? r_eax r then mret tt
  else
    ret ← syscall_body (r_eax r) (r_ebx r);
    modify (fun k => Kernel (k_arch k) (k_sched k) (k_kbd k) (set_eax ret (k_regs k))).

(** [handler] is the address of syscall_handler. *)
Definition syscall_init (handler : Z) : M (kernel H) unit :=
  on_arch (on_table (attach_interrupt_handler SYSCALL_VECTOR handler)).
End interrupts.
