(* ===== verification/InterruptSpec.v ===== *)
(** What interrupt dispatch does: isr_handler and irq_handler of system.c run
    the handlers of the vector in the order in which they were attached, the
    timer interrupt switches to the next thread of the ring, a key press
    reaches the keyboard queue, and a system call is carried out. *)

From S2P Require Import Prelude Memory Dll Handlers Desc Arch ArchSpec Kheap Sched SchedSpec Vga VgaSpec Keyboard Interrupts.

Section dispatch.
Context {H : Type} `{KernelHeap H}.
Context (code : Z -> Z -> M (kernel H) unit).

(** The specification: the handlers are called one after the other. *)
Fixpoint call_all (hs : list Z) (regs : Z) : M (kernel H) unit :=
  match hs with
  | [] => mret tt
  | f :: hs => code f regs;; call_all hs regs
  end.

(** None of the handlers attaches or detaches a handler. *)
Definition keeps_table (hs : list Z) : Prop :=
  forall f regs k u k', f ∈ hs -> code f regs k = Ok (u, k') -> a_table (k_arch k') = a_table (k_arch k).

(** The state with another processor state. *)
Definition with_arch (a : arch) (k : kernel H) : kernel H := Kernel a (k_sched k) (k_kbd k) (k_regs k).

Lemma on_arch_ok {A} (c : M arch A) (k : kernel H) x a :
  c (k_arch k) = Ok (x, a) -> on_arch c k = Ok (x, with_arch a k).
Proof. intros E. unfold on_arch, zoom. by rewrite E. Qed.

Lemma with_arch_id k : with_arch (k_arch k) k = k.
Proof. by destruct k. Qed.

(** Reading the table changes nothing. *)
Lemma on_table_read {A} num (c : M row A) r x (k : kernel H) :
  a_table (k_arch k) !! Z.to_nat (u8 num) = Some r -> c r = Ok (x, r) ->
  on_arch (on_table (on_row num c)) k = Ok (x, k).
Proof.
  intros Hr Hc. rewrite (on_arch_ok _ _ x (k_arch k)); [by rewrite with_arch_id|].
  unfold on_table, zoom. rewrite (on_row_ok _ _ _ _ _ _ Hr Hc).
  assert (E : <[Z.to_nat (u8 num) := r]> (a_table (k_arch k)) = a_table (k_arch k))
    by by apply list_insert_id.
  unfold table in *. rewrite E. by destruct (k_arch k).
Qed.

Lemma run_handlers_ok num r l1 l2 fuel regs (k : kernel H) :
  a_table (k_arch k) !! Z.to_nat (u8 num) = Some r -> chain r (l1 ++ l2) -> (length l2 <= fuel)%nat ->
  keeps_table (handlers_in r l2) ->
  run_handlers code fuel num (first_ptr l2 None) regs k = call_all (handlers_in r l2) regs k.
Proof.
  revert l1 fuel k. induction l2 as [|i l2 IH]; intros l1 fuel k Hr Hc Hf Hk; [by destruct fuel|].
  destruct fuel as [|fuel]; cbn [length] in Hf; [lia|].
  destruct (chain_lookup _ _ Hc i) as [s Hs]; [apply (chain_range _ _ Hc); set_solver|].
  pose proof (dseg_next _ _ _ _ _ _ _ (chain_seg _ _ Hc)) as Hn. rewrite (chain_next _ _ _ Hs) in Hn.
  assert (E : handlers_in r (i :: l2) = h_handler s :: handlers_in r l2)
    by (unfold handlers_in; simpl; by rewrite (chain_handler _ _ _ Hs)).
  rewrite E in *. cbn [run_handlers first_ptr call_all].
  assert (At : forall k' : kernel H, a_table (k_arch k') = a_table (k_arch k) -> handler_at num i k' = Ok (s, k')).
  { intros k' Et. apply (on_table_read _ _ r); [by rewrite Et | by apply slot_ok]. }
  rewrite (bind_ok _ _ _ _ _ (At k eq_refl)).
  destruct (code (h_handler s) regs k) as [[u k']|e] eqn:C;
    [|by rewrite !(bind_err _ _ _ _ C)].
  rewrite !(bind_ok _ _ _ _ _ C). assert (Et : a_table (k_arch k') = a_table (k_arch k)) by (eapply Hk; [|exact C]; set_solver).
  rewrite (bind_ok _ _ _ _ _ (At k' Et)), Hn.
  apply (IH (l1 ++ [i])); [by rewrite Et | by rewrite <- app_assoc | lia |].
  intros f rg k1 u1 k2 Hin. apply Hk. set_solver.
Qed.

(** Looking a vector up and running what was found. *)
Lemma vector_run num hs regs (k : kernel H) :
  vector_calls (a_table (k_arch k)) num hs -> keeps_table hs ->
  exists h, on_arch (on_table (get_interrupt_handler num)) k = Ok (h, k) /\ (h = None <-> hs = []) /\
    run_handlers code MAX_HANDLERS num h regs k = call_all hs regs k.
Proof.
  intros (r & Hr & l & Hc & <-) Hk. exists (first_ptr l None). split_and!.
  - apply (on_table_read _ _ r); [done | exact (get_row_ok _ _ Hc)].
  - by destruct l.
  - apply (run_handlers_ok _ _ []); try done. exact (chain_length _ _ Hc).
Qed.

(** pic_acknowledge touches the trace and the count of bad IRQs only. *)
Lemma acknowledge_keeps dev irq a :
  exists r t b, pic_acknowledge dev irq a = Ok (r, with_bad_irqs b (with_trace t a)).
Proof.
  destruct a as [t f b n tb g i l]. unfold pic_acknowledge, andM, pic_is_spurious_7, pic_is_spurious_15,
    pic_get_isr, pic_get_irq_reg, count_bad_irq, when, outb, inb, gets, modify, with_bad_irqs, with_trace,
    mbind, M_bind, mret, M_ret.
  destruct (irq =? 7), (irq =? 15), (8 <=? irq); cbn [a_trace a_if a_bad_irqs a_ticks a_table a_gdt a_idt a_log];
    repeat (destruct (Z.land _ _ =? 0); cbn [a_trace a_if a_bad_irqs a_ticks a_table a_gdt a_idt a_log]);
    eexists _, _, _; reflexivity.
Qed.

(** irq_handler when the acknowledged IRQ is genuine and no thread switch is due. *)
Lemma irq_run dev rdtsc (k : kernel H) n hs regs tick_fuel a' :
  r_int_no (k_regs k) = n -> pic_acknowledge dev n (k_arch k) = Ok (0, a') ->
  scheduling (k_sched k) && (n =? 0) = false -> hs <> [] ->
  vector_calls (a_table a') (IRQ n) hs -> keeps_table hs ->
  irq_handler dev rdtsc code MAX_HANDLERS tick_fuel regs k = (call_all hs regs;; mret regs) (with_arch a' k).
Proof.
  intros Hn Ha Hs Hne Hv Hk. unfold irq_handler, int_no.
  rewrite (bind_ok _ _ k n k) by (unfold gets; by rewrite Hn).
  rewrite (bind_ok _ _ k _ _ (on_arch_ok _ _ _ _ Ha)). cbn [negb Z.eqb].
  set (k1 := with_arch a' k). rewrite (bind_ok _ _ k1 (scheduling (k_sched k)) k1) by done.
  assert (Hn1 : r_int_no (k_regs k1) = n) by done.
  rewrite (bind_ok _ _ k1 n k1) by (unfold gets; by rewrite Hn1). rewrite Hs.
  rewrite (bind_ok _ _ k1 regs k1) by done.
  rewrite (bind_ok _ _ k1 n k1) by (unfold gets; by rewrite Hn1).
  destruct (vector_run (IRQ n) hs regs k1 Hv Hk) as (h & Hl & Hh & Hr).
  rewrite (bind_ok _ _ _ _ _ Hl). rewrite bool_decide_eq_false_2 by tauto. cbn [andb].
  unfold mbind, M_bind. by rewrite Hr.
Qed.
End dispatch.

(** ** Properties *)

(** C15: an IRQ other than the timer. A spurious one is logged and no handler
    runs; a genuine one without a handler is logged; a genuine one with
    handlers runs exactly them, in the order in which they were attached, after
    the acknowledgement. The interrupted thread is resumed in each case. *)
Theorem irq_dispatch {H} `{KernelHeap H} dev rdtsc code (k : kernel H) n hs regs tick_fuel :
  r_int_no (k_regs k) = n -> 1 <= n < 16 -> vector_calls (a_table (k_arch k)) (IRQ n) hs ->
  keeps_table code hs ->
  exists ack a', pic_acknowledge dev n (k_arch k) = Ok (ack, a') /\ a_table a' = a_table (k_arch k) /\
    irq_handler dev rdtsc code MAX_HANDLERS tick_fuel regs k =
    if negb (ack =? 0) then Ok (regs, with_arch (with_log ((DEBUG, "Spurious IRQ"%string) :: a_log a') a') k)
    else if decide (hs = []) then
      Ok (regs, with_arch (with_log ((WARNING, "No handler for IRQ #%u"%string) :: a_log a') a') k)
    else (call_all code hs regs;; mret regs) (with_arch a' k).
Proof.
  intros Hn Hr Hv Hk. destruct (acknowledge_keeps dev n (k_arch k)) as (ack & t & b & Ha).
  set (a' := with_bad_irqs b _) in Ha. exists ack, a'. split_and!; [done | done |].
  assert (Ht : (n =? 0) = false) by (apply Z.eqb_neq; lia).
  destruct (Z.eqb_spec ack 0) as [->|Hack]; cbn [negb].
  - case_decide as D; [|apply (irq_run _ _ _ _ n); try done; by rewrite Ht, andb_false_r].
    destruct (vector_run code (IRQ n) hs regs (with_arch a' k) Hv Hk) as (h & Hl & Hh & _).
    apply Hh in D. subst h. unfold irq_handler, int_no.
    rewrite (bind_ok _ _ k n k) by (unfold gets; by rewrite Hn).
    rewrite (bind_ok _ _ k _ _ (on_arch_ok _ _ _ _ Ha)). cbn [negb Z.eqb]. set (k1 := with_arch a' k) in *.
    rewrite (bind_ok _ _ k1 (scheduling (k_sched k)) k1), (bind_ok _ _ k1 n k1)
      by (try done; unfold gets; by rewrite <- Hn).
    rewrite Ht, andb_false_r. rewrite (bind_ok _ _ k1 regs k1), (bind_ok _ _ k1 n k1)
      by (try done; unfold gets; by rewrite <- Hn).
    rewrite (bind_ok _ _ _ _ _ Hl), Ht. done.
  - unfold irq_handler, int_no. rewrite (bind_ok _ _ k n k) by (unfold gets; by rewrite Hn).
    rewrite (bind_ok _ _ k _ _ (on_arch_ok _ _ _ _ Ha)).
    destruct (Z.eqb_spec ack 0); [done|]. done.
Qed.

(** C13: the timer interrupt with scheduling on. It is acknowledged once, the
    tick counter goes up by one, the current thread is left with the stack
    pointer of the interrupt frame, and the stub resumes from the saved stack
    pointer of the next thread of the ring, which is current from then on. *)
Theorem timer_switches {H} `{KernelHeap H} dev rdtsc code (k : kernel H) entry regs tick_fuel c x ks :
  r_int_no (k_regs k) = 0 -> vector_calls (a_table (k_arch k)) (IRQ 0) [entry] ->
  (forall r, code entry r = on_arch pit_handler) ->
  scheduling (k_sched k) = true -> scheduled (k_sched k) c (x :: ks) ->
  Forall (runnable (threads (k_sched k))) (c :: x :: ks) ->
  exists k', irq_handler dev rdtsc code MAX_HANDLERS tick_fuel regs k =
      Ok (esp_of (threads (k_sched k)) x, k') /\
    scheduled (k_sched k') x (ks ++ [c]) /\ Forall (runnable (threads (k_sched k'))) (x :: ks ++ [c]) /\
    (forall a, esp_of (threads (k_sched k')) a = if decide (a = c) then regs else esp_of (threads (k_sched k)) a) /\
    a_ticks (k_arch k') = u32 (a_ticks (k_arch k) + 1) /\
    eois (a_trace (k_arch k')) = Out8 PIC1_CTRL PIC_EOI :: eois (a_trace (k_arch k)) /\
    k_kbd k' = k_kbd k /\ k_regs k' = k_regs k.
Proof.
  intros Hn Hv Hcode Hon Hs Hall. unfold irq_handler, int_no.
  rewrite (bind_ok _ _ k 0 k) by (unfold gets; by rewrite Hn).
  assert (Ha : pic_acknowledge dev 0 (k_arch k) =
               Ok (0, with_trace (Out8 PIC1_CTRL PIC_EOI :: a_trace (k_arch k)) (k_arch k))) by done.
  rewrite (bind_ok _ _ k _ _ (on_arch_ok _ _ _ _ Ha)). cbn [negb Z.eqb].
  set (a1 := with_trace _ _). set (k1 := with_arch a1 k).
  rewrite (bind_ok _ _ k1 true k1), (bind_ok _ _ k1 0 k1) by (unfold gets; by rewrite <- ?Hon, <- ?Hn).
  cbn [andb Z.eqb].
  destruct (tick_next rdtsc (with_flag (a_if a1) (k_sched k)) tick_fuel regs c x ks)
    as (s' & Ht & Hs' & Hall' & He & _); [done | done|].
  set (k2 := Kernel (with_if (s_if s') a1) s' (k_kbd k) (k_regs k)).
  rewrite (bind_ok _ _ k1 (esp_of (threads (k_sched k)) x) k2)
    by (unfold on_sched; cbn [k1 with_arch k_arch k_sched]; by rewrite Ht).
  rewrite (bind_ok _ _ k2 0 k2) by (unfold gets; by rewrite <- Hn).
  destruct (vector_run code (IRQ 0) [entry] regs k2) as (h & Hl & Hh & Hr); [done | |].
  { intros f r k3 u k4 Hf. apply list_elem_of_singleton in Hf. subst f. rewrite Hcode.
    unfold on_arch, zoom. intros [= <- <-]. done. }
  rewrite (bind_ok _ _ _ _ _ Hl), andb_false_r.
  set (k3 := with_arch (with_ticks (u32 (a_ticks (k_arch k2) + 1)) (k_arch k2)) k2).
  assert (Hrun : call_all code [entry] regs k2 = Ok (tt, k3)) by (cbn [call_all]; by rewrite Hcode).
  rewrite <- Hr in Hrun. exists k3. rewrite (bind_ok _ _ _ _ _ Hrun).
  split; [|split_and!; [exact Hs' | exact Hall' | exact He | reflexivity..]]. reflexivity.
Qed.

(** keyboard_init puts its handler on the vector and changes nothing else of
    the kernel but the trace and the log. *)
Lemma keyboard_init_run {H} `{KernelHeap H} dev (k : kernel H) entry :
  vector_ready (a_table (k_arch k)) (IRQ IRQ_KBD) [] -> entry <> 0 ->
  exists a1, keyboard_init dev entry k = Ok (tt, with_arch a1 k) /\
    vector_calls (a_table a1) (IRQ IRQ_KBD) [entry].
Proof.
  intros Hv He. destruct (attach_table _ entry _ _ Hv He) as (tb & Hat & _ & Hv').
  cbn [length] in Hv'. rewrite decide_False in Hv' by done. apply ready_calls in Hv'.
  set (a0 := with_table tb (k_arch k)).
  assert (E0 : on_table (attach_interrupt_handler (IRQ IRQ_KBD) entry) (k_arch k) = Ok (tt, a0))
    by (unfold on_table, zoom; by rewrite Hat).
  assert (exists t, pic_enable_irq dev IRQ_KBD a0 = Ok (tt, with_trace t a0)) as [tr E1] by (eexists; reflexivity).
  eexists. split.
  - unfold keyboard_init. rewrite (bind_ok _ _ _ _ _ (on_arch_ok _ _ _ _ E0)).
    rewrite (bind_ok _ _ (with_arch a0 k) tt (with_arch (with_trace tr a0) k)); [reflexivity|].
    unfold on_arch, zoom. cbn [k_arch with_arch]. by rewrite E1.
  - exact Hv'.
Qed.

(** C17: keyboard_init followed by a key: the IRQ of the keyboard is
    acknowledged, one scan code is read from the controller, and the keyboard
    state becomes what keyboard_handler makes of that scan code. *)
Theorem keyboard_irq_delivers {H} `{KernelHeap H} dev rdtsc code (k : kernel H) entry regs tick_fuel q t :
  r_int_no (k_regs k) = 1 -> vector_ready (a_table (k_arch k)) (IRQ IRQ_KBD) [] -> entry <> 0 ->
  (forall r, code entry r = keyboard_interrupt dev) ->
  holds_queue (k_kbd k) q -> vga_ok (k_vga (k_kbd k)) -> shows (k_vga (k_kbd k)) t ->
  exists k1 k2 scan, keyboard_init dev entry k = Ok (tt, k1) /\
    irq_handler dev rdtsc code MAX_HANDLERS tick_fuel regs k1 = Ok (regs, k2) /\
    scan = u8 (dev (Out8 PIC1_CTRL PIC_EOI :: a_trace (k_arch k1)) 0x60) /\
    a_trace (k_arch k2) = In8 0x60 scan :: Out8 PIC1_CTRL PIC_EOI :: a_trace (k_arch k1) /\
    keyboard_handler scan (k_kbd k) = Ok (tt, k_kbd k2) /\
    k_sched k2 = k_sched k /\ k_regs k2 = k_regs k.
Proof.
  intros Hn Hv He Hcode Hq Hg Ht. destruct (keyboard_init_run dev k entry Hv He) as (a1 & Hi & Hv1).
  set (a2 := with_trace (Out8 PIC1_CTRL PIC_EOI :: a_trace a1) a1).
  destruct (keyboard_handler_run (u8 (dev (a_trace a2) 0x60)) (k_kbd k) q t Hq Hg Ht) as (b & Hb & _).
  set (scan := u8 _) in Hb.
  exists (with_arch a1 k), (Kernel (with_trace (In8 0x60 scan :: a_trace a2) a2) (k_sched k) b (k_regs k)), scan.
  split_and!; try done. rewrite (irq_run code dev rdtsc (with_arch a1 k) 1 [entry] regs tick_fuel a2); try done.
  - cbn [call_all]. unfold mbind, M_bind. rewrite Hcode.
    unfold keyboard_interrupt, on_arch, on_kbd, zoom, inb, mbind, M_bind. cbn [k_arch with_arch k_kbd].
    change (u16 96) with 96. fold scan. rewrite Hb. reflexivity.
  - by rewrite andb_false_r.
  - intros f r k3 u k4 Hf. apply list_elem_of_singleton in Hf. subst f. rewrite Hcode.
    unfold keyboard_interrupt, on_arch, on_kbd, zoom, inb, mbind, M_bind. cbn [k_kbd].
    match goal with |- context [keyboard_handler ?v ?b] => destruct (keyboard_handler v b) as [[u' b']|e'] end;
      [|done]. by intros [= <- <-].
Qed.

(** C18: a processor exception or a system call. The handlers of the vector run
    in the order in which they were attached; afterwards the kernel stops if
    there was none, for a double fault, and for a vector that is neither an
    exception nor the system call, and the interrupted code is resumed
    otherwise. *)
Theorem isr_dispatch {H} `{KernelHeap H} code (k : kernel H) n hs regs :
  r_int_no (k_regs k) = n -> vector_calls (a_table (k_arch k)) n hs -> keeps_table code hs ->
  isr_handler code MAX_HANDLERS regs k =
  (call_all code hs regs;;
   if bool_decide (hs = []) || (n =? 8) || (IRQ 0 <=? n) && negb (n =? SYSCALL_VECTOR)
   then throw Stopped else mret regs) k.
Proof.
  intros Hn Hv Hk. destruct (vector_run code n hs regs k Hv Hk) as (h & Hl & Hh & Hr).
  unfold isr_handler, int_no. rewrite (bind_ok _ _ k n k) by (unfold gets; by rewrite Hn).
  rewrite (bind_ok _ _ _ _ _ Hl). cbv zeta. unfold must_stop.
  rewrite (bool_decide_ext (h = None) (hs = [])) by done. set (stop := _ || _).
  destruct (call_all code hs regs k) as [[u k']|e] eqn:C;
    [|by rewrite (bind_err _ _ _ _ C), (bind_err _ _ _ _ Hr)].
  rewrite (bind_ok _ _ _ _ _ C), (bind_ok _ _ _ _ _ Hr). destruct stop; [|done]. rewrite (bind_ok _ _ k' tt (with_arch (with_log ((ERROR, "Unhandled exception #%u"%string)
    :: a_log (k_arch k')) (k_arch k')) k')) by done.
  set (k2 := with_arch _ k'). rewrite (bind_ok _ _ k2 (r_int_no (k_regs k2)) k2) by done.
  destruct (Z.ltb_spec (r_int_no (k_regs k2)) (IRQ 0)) as [L|L]; [|reflexivity].
  destruct (lookup_lt_is_Some_2 exception_messages (Z.to_nat (r_int_no (k_regs k2)))) as [msg Em].
  { change (length exception_messages) with (Z.to_nat (IRQ 0)). unfold IRQ in *. lia. }
  rewrite Em. reflexivity.
Qed.

(** A system call changes the processor's interrupt flag, the scheduler and the
    console, and no other part of the kernel. *)
Lemma syscall_body_frame {H} `{KernelHeap H} void_eax str_fuel buffer (k : kernel H) n arg ret k' :
  syscall_body void_eax str_fuel buffer n arg k = Ok (ret, k') ->
  ret = void_eax /\ k_regs k' = k_regs k /\ exists b, k_arch k' = with_if b (k_arch k).
Proof.
  assert (V : forall c : M vga unit, forall r k1, on_kbd (on_vga c) k = Ok (r, k1) ->
    k_regs k1 = k_regs k /\ exists b, k_arch k1 = with_if b (k_arch k)).
  { intros c r k1. unfold on_kbd, on_vga, zoom. destruct (c _) as [[u v]|]; intros E; simplify_eq/=.
    split; [done|]. exists (a_if (k_arch k)). by destruct (k_arch k). }
  unfold syscall_body. intros (u & k1 & E & [= <- <-])%bind_ok_inv. split; [done|].
  destruct (n =? 0); [|by destruct (n =? 1), (n =? 2); apply V in E].
  unfold on_sched in E. destruct (thread_exit _) as [[u' s']|]; simplify_eq/=. eauto.
Qed.

(** The call of the handler, and of the function of the table. *)
Lemma syscall_dispatch {H} `{KernelHeap H} code void_eax str_fuel buffer (k : kernel H) entry regs :
  r_int_no (k_regs k) = SYSCALL_VECTOR -> vector_calls (a_table (k_arch k)) SYSCALL_VECTOR [entry] ->
  (forall r, code entry r = syscall_handler void_eax str_fuel buffer r) ->
  let r := k_regs k in
  (num_syscalls <= r_eax r -> isr_handler code MAX_HANDLERS regs k = Ok (regs, k)) /\
  (r_eax r < num_syscalls ->
   match syscall_body void_eax str_fuel buffer (r_eax r) (r_ebx r) k with
   | Err e => isr_handler code MAX_HANDLERS regs k = Err e
   | Ok (_, k1) => exists k', isr_handler code MAX_HANDLERS regs k = Ok (regs, k') /\
       k_regs k' = set_eax void_eax r /\ k_kbd k' = k_kbd k1 /\ k_sched k' = k_sched k1 /\
       exists b, k_arch k' = with_if b (k_arch k)
   end).
Proof.
  intros Hn Hv Hcode r. assert (Hk : keeps_table code [entry]).
  { intros f rg k3 u k4 Hf. apply list_elem_of_singleton in Hf. subst f. rewrite Hcode.
    unfold syscall_handler. intros (r3 & k5 & [= <- <-] & E)%bind_ok_inv.
    destruct (num_syscalls <=? r_eax (k_regs k3)); [rewrite ret_ok in E; by simplify_eq|].
    apply bind_ok_inv in E as (ret & k6 & E & [= <- <-]).
    apply syscall_body_frame in E as (_ & _ & b & Eb). cbn [k_arch]. by rewrite Eb. }
  assert (E := vector_run code SYSCALL_VECTOR [entry] regs k Hv Hk).
  assert (X : isr_handler code MAX_HANDLERS regs k = (syscall_handler void_eax str_fuel buffer regs;; mret regs) k).
  { destruct E as (h & Hl & Hh & Hr). unfold isr_handler, int_no.
    rewrite (bind_ok _ _ k SYSCALL_VECTOR k) by (unfold gets; by rewrite Hn).
    rewrite (bind_ok _ _ _ _ _ Hl). cbv zeta. unfold must_stop. rewrite bool_decide_eq_false_2 by (intros Eh; by apply Hh in Eh).
    cbn [orb]. cbn [call_all] in Hr. rewrite Hcode in Hr. unfold mbind, M_bind in *. rewrite Hr.
    by destruct (syscall_handler _ _ _ _ k) as [[[] ?]|]. }
  rewrite X. unfold syscall_handler. split; intros L.
  - unfold mbind, M_bind, gets. fold r. destruct (Z.leb_spec num_syscalls (r_eax r)); [done | lia].
  - destruct (syscall_body _ _ _ _ _ k) as [[ret k1]|e] eqn:B; unfold mbind, M_bind, gets; fold r;
      (destruct (Z.leb_spec num_syscalls (r_eax r)); [lia|]); rewrite B; [|done].
    apply syscall_body_frame in B as (-> & Er & Ea). eexists. split; [reflexivity|]. cbn. by rewrite Er.
Qed.


(** ** A concrete kernel *)

(** The table in which the handler [f] is attached to vector [num]. *)
Definition one_handler (num f : Z) : table :=
  match attach_interrupt_handler num f init_table with Ok (_, t) => t | Err _ => init_table end.

Lemma one_handler_calls num f : f <> 0 -> vector_calls (one_handler num f) num [f].
Proof.
  intros Hf. destruct (attach_table num f init_table [] (init_vector_ready num) Hf) as (t & E & _ & Hv).
  unfold one_handler. rewrite E. cbn [length] in Hv. rewrite decide_False in Hv by done. by apply ready_calls.
Qed.

Definition frame (n eax ebx : Z) : registers_t :=
  Registers 16 16 16 16 0 0 0 0 0 ebx eax n 0 0xc0100000 8 0x202 0 0.

#[local] Existing Instance boot_heap.

(** The threads of [two_threads] on the machine after start-up. *)
Definition demo (t : table) (r : registers_t) : kernel kheap_state :=
  Kernel (with_table t boot_arch) two_threads (init_keyboard bottom_right) r.

Lemma keeps_nothing (hs : list Z) : keeps_table (fun _ _ => mret tt : M (kernel kheap_state) unit) hs.
Proof. intros f r k u k' _ [= _ <-]. done. Defined.

Lemma two_threads_on : scheduling two_threads = true.
Proof. vm_compute. reflexivity. Qed.

#[local] Opaque two_threads bottom_right one_handler.

Lemma irq_dispatch_witness :
  exists ack a', pic_acknowledge last_written 5 (k_arch (demo (one_handler 37 7) (frame 5 0 0))) = Ok (ack, a') /\
    a_table a' = a_table (k_arch (demo (one_handler 37 7) (frame 5 0 0))) /\
    irq_handler last_written Z.of_nat (fun _ _ => mret tt) MAX_HANDLERS 3 1000 (demo (one_handler 37 7) (frame 5 0 0)) =
    if negb (ack =? 0) then Ok (1000, with_arch (with_log ((DEBUG, "Spurious IRQ"%string) :: a_log a') a')
      (demo (one_handler 37 7) (frame 5 0 0)))
    else if decide ([7] = [] :> list Z) then
      Ok (1000, with_arch (with_log ((WARNING, "No handler for IRQ #%u"%string) :: a_log a') a')
        (demo (one_handler 37 7) (frame 5 0 0)))
    else (call_all (fun _ _ => mret tt) [7] 1000;; mret 1000) (with_arch a' (demo (one_handler 37 7) (frame 5 0 0))).
Proof.
  apply (irq_dispatch last_written Z.of_nat _ (demo (one_handler 37 7) (frame 5 0 0)) 5 [7]);
    [reflexivity | lia | by apply one_handler_calls | apply keeps_nothing].
Defined.

Lemma isr_dispatch_witness :
  isr_handler (fun _ _ => mret tt) MAX_HANDLERS 1000 (demo (one_handler 14 7) (frame 14 0 0)) =
  (call_all (fun _ _ => mret tt) [7] 1000;;
   if bool_decide ([7] = [] :> list Z) || (14 =? 8) || (IRQ 0 <=? 14) && negb (14 =? SYSCALL_VECTOR)
   then throw Stopped else mret 1000) (demo (one_handler 14 7) (frame 14 0 0)).
Proof.
  apply (isr_dispatch _ (demo (one_handler 14 7) (frame 14 0 0)) 14 [7]);
    [reflexivity | by apply one_handler_calls | apply keeps_nothing].
Defined.

Lemma timer_switches_witness :
  exists k', irq_handler last_written Z.of_nat (fun _ _ => on_arch pit_handler) MAX_HANDLERS 3 1000
      (demo (one_handler 32 7) (frame 0 0 0)) = Ok (esp_of (threads two_threads) thread1, k') /\
    scheduled (k_sched k') thread1 ([thread2] ++ [kthread]) /\
    Forall (runnable (threads (k_sched k'))) (thread1 :: [thread2] ++ [kthread]) /\
    (forall a, esp_of (threads (k_sched k')) a = if decide (a = kthread) then 1000 else esp_of (threads two_threads) a) /\
    a_ticks (k_arch k') = u32 (a_ticks boot_arch + 1) /\
    eois (a_trace (k_arch k')) = Out8 PIC1_CTRL PIC_EOI :: eois (a_trace boot_arch) /\
    k_kbd k' = init_keyboard bottom_right /\ k_regs k' = frame 0 0 0.
Proof.
  apply (timer_switches last_written Z.of_nat _ (demo (one_handler 32 7) (frame 0 0 0)) 7 1000 3 kthread thread1 [thread2]);
    [reflexivity | by apply one_handler_calls | done | exact two_threads_on | exact two_threads_ring
    | exact two_threads_runnable].
Defined.

Lemma keyboard_irq_delivers_witness :
  exists k1 k2 scan, keyboard_init last_written 7 (demo init_table (frame 1 0 0)) = Ok (tt, k1) /\
    irq_handler last_written Z.of_nat (fun _ _ => keyboard_interrupt last_written) MAX_HANDLERS 3 1000 k1 = Ok (1000, k2) /\
    scan = u8 (last_written (Out8 PIC1_CTRL PIC_EOI :: a_trace (k_arch k1)) 0x60) /\
    a_trace (k_arch k2) = In8 0x60 scan :: Out8 PIC1_CTRL PIC_EOI :: a_trace (k_arch k1) /\
    keyboard_handler scan (init_keyboard bottom_right) = Ok (tt, k_kbd k2) /\
    k_sched k2 = two_threads /\ k_regs k2 = frame 1 0 0.
Proof.
  apply (keyboard_irq_delivers last_written Z.of_nat _ (demo init_table (frame 1 0 0)) 7 1000 3 []
    (Term 79 24 (cell (v_mem bottom_right))));
    [reflexivity | apply init_vector_ready | lia | done | apply init_holds | apply bottom_right_ok | by split].
Defined.

