(* ===== verification/Vnode.v ===== *)
(** Virtual nodes: vnode.c, the reference counts of in-memory files and the
    cache of nodes that wait to be used again.

    The nodes and the operation tables of the file systems are maps from
    addresses to records; a null pointer is 0 and no structure is at 0. The
    file systems are not part of the program: [vop f n] is what the function
    at address [f] of an operation table does with the node [n]. Nodes come
    from the kernel heap through kmalloc and kfree. *)

From S2P Require Import Prelude Arch Kheap.

(** vnode.h *)
Definition VNODE_CACHE_SIZE : Z := 100.

Inductive vtype : Type := VREG | VDIR | VCHR | VBLK | VLNK | VFIFO | VBAD.

Record vnode_t : Type := Vnode {
  vn_type : vtype;
  ref_count : Z;
  vn_vfs : Z;
  vn_freelist : Z;
  vn_data : Z;
  vn_ops_ptr : Z
}.
Definition SIZEOF_VNODE : Z := 24.

Definition set_refs (c : Z) (v : vnode_t) : vnode_t :=
  Vnode (vn_type v) c (vn_vfs v) (vn_freelist v) (vn_data v) (vn_ops_ptr v).
Definition set_freelist (p : Z) (v : vnode_t) : vnode_t :=
  Vnode (vn_type v) (ref_count v) (vn_vfs v) p (vn_data v) (vn_ops_ptr v).

(** The operations of a file system, as function addresses. *)
Record vn_ops : Type := VnOps {
  op_lookup : Z; op_create : Z; op_open : Z; op_close : Z;
  op_inactive : Z; op_reclaim : Z; op_read : Z; op_write : Z
}.

Record vcache (H : Type) : Type := VCache {
  nodes : gmap Z vnode_t;
  op_tables : gmap Z vn_ops;
  freelist_size : Z;
  freelist_head : Z;
  v_heap : H;
  v_log : list (log_level_t * string)
}.
Arguments VCache {H}. Arguments nodes {H}. Arguments op_tables {H}. Arguments freelist_size {H}.
Arguments freelist_head {H}. Arguments v_heap {H}. Arguments v_log {H}.

Section vnodes.
Context {H : Type} `{KernelHeap H}.
(** The code of the file systems. *)
Context (vop : Z -> Z -> M (vcache H) Z).
(** What kmalloc leaves in the memory it returns. *)
Context (junk : vnode_t).

Definition with_nodes (m : gmap Z vnode_t) (s : vcache H) : vcache H :=
  VCache m (op_tables s) (freelist_size s) (freelist_head s) (v_heap s) (v_log s).
Definition with_freelist (n h : Z) (s : vcache H) : vcache H :=
  VCache (nodes s) (op_tables s) n h (v_heap s) (v_log s).
Definition with_vheap (h : H) (s : vcache H) : vcache H :=
  VCache (nodes s) (op_tables s) (freelist_size s) (freelist_head s) h (v_log s).
Definition on_vheap {A} (c : M H A) : M (vcache H) A := zoom v_heap with_vheap c.
Definition vlog (level : log_level_t) (msg : string) : M (vcache H) unit :=
  modify (fun s => VCache (nodes s) (op_tables s) (freelist_size s) (freelist_head s) (v_heap s)
    ((level, msg) :: v_log s)).

(** Access through a node pointer, and through its pointer to the operations. *)
Definition node_at (n : Z) : M (vcache H) vnode_t := fun s =>
  match nodes s !! n with Some v => Ok (v, s) | None => Err (Fault n) end.
Definition upd_node (n : Z) (f : vnode_t -> vnode_t) : M (vcache H) unit :=
  v ← node_at n; modify (fun s => with_nodes (<[n := f v]> (nodes s)) s).
Definition ops_at (p : Z) : M (vcache H) vn_ops := fun s =>
  match op_tables s !! p with Some o => Ok (o, s) | None => Err (Fault p) end.

Definition vnode_get : M (vcache H) Z :=
  size ← gets freelist_size;
  if 0 <? size then
    node ← gets freelist_head;
    head ← gets freelist_head;
    v ← node_at head;
    modify (fun s => with_freelist (freelist_size s) (vn_freelist v) s);;
    modify (fun s => with_freelist (u32 (freelist_size s - 1)) (freelist_head s) s);;
    mret node
  else
    node ← on_vheap (kmalloc SIZEOF_VNODE);
    when (negb (node =? 0)) (modify (fun s => with_nodes (<[node := junk]> (nodes s)) s));;
    mret node.

Definition vnode_init (ops vfs data : Z) : M (vcache H) Z :=
  assert (negb (ops =? 0));;
  assert (negb (vfs =? 0));;
  node ← vnode_get;
  upd_node node (set_refs 1);;
  upd_node node (fun v => Vnode (vn_type v) (ref_count v) vfs (vn_freelist v) (vn_data v) (vn_ops_ptr v));;
  upd_node node (fun v => Vnode (vn_type v) (ref_count v) (vn_vfs v) (vn_freelist v) (vn_data v) ops);;
  upd_node node (fun v => Vnode (vn_type v) (ref_count v) (vn_vfs v) (vn_freelist v) data (vn_ops_ptr v));;
  upd_node node (set_freelist 0);;
  mret node.

(** A node that kfree took back is no longer there. *)
Definition vnode_kill (node : Z) : M (vcache H) unit :=
  assert (negb (node =? 0));;
  v ← node_at node;
  assert (ref_count v =? 1);;
  size ← gets freelist_size;
  if size <? VNODE_CACHE_SIZE then
    head ← gets freelist_head;
    upd_node node (set_freelist head);;
    modify (fun s => with_freelist (freelist_size s) node s);;
    modify (fun s => with_freelist (u32 (freelist_size s + 1)) (freelist_head s) s)
  else
    on_vheap (kfree node);;
    modify (fun s => with_nodes (delete node (nodes s)) s).

Definition vnode_incref (node : Z) : M (vcache H) unit :=
  assert (negb (node =? 0));;
  upd_node node (fun v => set_refs (u32 (ref_count v + 1)) v).

Definition vnode_check (node : Z) (name : string) (address : Z) : M (vcache H) unit :=
  when (node =? 0) (vlog CRITICAL "Null vnode";; throw Stopped);;
  when (address =? 0) (vlog CRITICAL ("No operation for " ++ name);; throw Stopped).

(** VOP_SAFE, for the operation that the field [op] of the table holds: the
    address is read through the node before vnode_check looks at the node. *)
Definition vop_safe (node : Z) (name : string) (op : vn_ops -> Z) : M (vcache H) Z :=
  v ← node_at node;
  o ← ops_at (vn_ops_ptr v);
  vnode_check node name (op o);;
  v ← node_at node;
  o ← ops_at (vn_ops_ptr v);
  mret (op o).

Definition VOP_RECLAIM (node : Z) : M (vcache H) Z :=
  f ← vop_safe node "reclaim" op_reclaim; vop f node.

Definition vnode_decref (node : Z) : M (vcache H) unit :=
  assert (negb (node =? 0));;
  v ← node_at node;
  assert (0 <? ref_count v);;
  v ← node_at node;
  release ← (if 1 <? ref_count v then upd_node node (fun v => set_refs (u32 (ref_count v - 1)) v);; mret false
             else mret true);
  when release (
    r ← VOP_RECLAIM node;
    when (negb (r =? 0)) (vlog WARNING "[vfs] VOP_RECLAIM error");;
    vnode_kill node).
End vnodes.
