(* ===== verification/VnodeSpec.v ===== *)
(** What vnode.c promises: a node is in use as long as it is referenced, it is
    released once, by the last vnode_decref, and the cache of released nodes
    never holds a node twice, a node in use, or more than 100 nodes. *)

From S2P Require Import Prelude Memory Arch Kheap Vnode.

(** The list that starts at [h]. *)
Fixpoint free_list (m : gmap Z vnode_t) (h : Z) (l : list Z) : Prop :=
  match l with
  | [] => h = 0
  | n :: l => h = n /\ exists v, m !! n = Some v /\ free_list m (vn_freelist v) l
  end.

Section spec.
Context {H : Type} `{KernelHeap H}.
Implicit Types (s : vcache H).

(** The cache invariant; [fl] are the cached nodes, the next one to be used first. *)
Record vinv s (fl : list Z) : Prop := {
  vi_list : free_list (nodes s) (freelist_head s) fl;
  vi_nodup : NoDup fl;
  vi_size : freelist_size s = Z.of_nat (length fl);
  vi_bound : Z.of_nat (length fl) <= VNODE_CACHE_SIZE;
  vi_null : nodes s !! 0 = None
}.

(** The reference count of a node in use. *)
Definition refs s (fl : list Z) (n : Z) : option Z :=
  if decide (n ∈ fl) then None else ref_count <$> nodes s !! n.

Lemma free_list_ext m m' h l :
  (forall n, n ∈ l -> m' !! n = m !! n) -> free_list m h l -> free_list m' h l.
Proof.
  revert h. induction l as [|n l IH]; intros h E; [done|]. intros (-> & v & Hv & Hl).
  split; [done|]. exists v. rewrite E by set_solver. split; [done|]. apply IH; [set_solver | done].
Qed.

Lemma free_list_live m h l n : free_list m h l -> n ∈ l -> is_Some (m !! n).
Proof.
  revert h. induction l as [|x l IH]; intros h Hl Hn; [set_solver|].
  destruct Hl as (-> & v & Hv & Hl). apply elem_of_cons in Hn as [->|Hn]; eauto.
Qed.

Lemma node_at_ok s n v : nodes s !! n = Some v -> node_at n s = Ok (v, s).
Proof. intros E. unfold node_at. by rewrite E. Qed.

Lemma upd_node_ok s n f v :
  nodes s !! n = Some v -> upd_node n f s = Ok (tt, with_nodes (<[n := f v]> (nodes s)) s).
Proof. intros E. unfold upd_node. by rewrite (bind_ok _ _ _ _ _ (node_at_ok _ _ _ E)). Qed.

Lemma refs_live s fl n c : refs s fl n = Some c -> (n ∉ fl) /\ (exists v, nodes s !! n = Some v /\ ref_count v = c).
Proof.
  unfold refs. case_decide as D; [done|]. intros (v & E & ->)%fmap_Some. eauto.
Qed.

(** A change of a node outside the cache keeps the invariant. *)
Lemma vinv_insert s fl n v :
  vinv s fl -> n ∉ fl -> n <> 0 -> vinv (with_nodes (<[n := v]> (nodes s)) s) fl.
Proof.
  intros [L1 L2 L3 L4 L5] Hn Hnz. split; cbn [nodes freelist_head freelist_size with_nodes]; try done.
  - apply (free_list_ext (nodes s)); [|done]. intros a Ha. apply lookup_insert_ne. set_solver.
  - by rewrite lookup_insert_ne.
Qed.

Lemma refs_insert s fl n v a :
  n ∉ fl -> refs (with_nodes (<[n := v]> (nodes s)) s) fl a =
            if decide (a = n) then Some (ref_count v) else refs s fl a.
Proof.
  intros Hn. unfold refs. cbn [nodes with_nodes]. destruct (decide (a = n)) as [->|Ha].
  - rewrite decide_False by done. by rewrite lookup_insert_eq.
  - by rewrite lookup_insert_ne by done.
Qed.

Lemma live_nonnull s fl n c : vinv s fl -> refs s fl n = Some c -> n <> 0.
Proof. intros Hi (_ & v & E & _)%refs_live ->. by rewrite (vi_null _ _ Hi) in E. Qed.

(** ** Counting *)

Lemma incref_ok s fl n c :
  vinv s fl -> refs s fl n = Some c -> 1 <= c < 2 ^ 32 - 1 ->
  exists s', vnode_incref n s = Ok (tt, s') /\ vinv s' fl /\
    forall a, refs s' fl a = if decide (a = n) then Some (c + 1) else refs s fl a.
Proof.
  intros Hi Hr Hc. assert (Hnz := live_nonnull _ _ _ _ Hi Hr). apply refs_live in Hr as (Hn & v & E & <-).
  unfold vnode_incref. destruct (Z.eqb_spec n 0); [done|]. rewrite (bind_ok _ _ s tt s) by done.
  eexists. split; [by apply upd_node_ok|]. split; [by apply vinv_insert|].
  intros a. rewrite refs_insert by done. cbn [ref_count set_refs]. by rewrite u32_small by lia.
Qed.

Lemma decref_ok vop s fl n c :
  vinv s fl -> refs s fl n = Some c -> 2 <= c < 2 ^ 32 ->
  exists s', vnode_decref vop n s = Ok (tt, s') /\ vinv s' fl /\
    forall a, refs s' fl a = if decide (a = n) then Some (c - 1) else refs s fl a.
Proof.
  intros Hi Hr Hc. assert (Hnz := live_nonnull _ _ _ _ Hi Hr). apply refs_live in Hr as (Hn & v & E & <-).
  unfold vnode_decref. destruct (Z.eqb_spec n 0); [done|]. rewrite (bind_ok _ _ s tt s) by done.
  rewrite (bind_ok _ _ _ _ _ (node_at_ok _ _ _ E)). destruct (Z.ltb_spec 0 (ref_count v)); [|lia].
  rewrite (bind_ok _ _ s tt s) by done. rewrite (bind_ok _ _ _ _ _ (node_at_ok _ _ _ E)).
  destruct (Z.ltb_spec 1 (ref_count v)); [|lia].
  eexists. split.
  - rewrite (bind_ok _ _ s false (with_nodes (<[n := set_refs (u32 (ref_count v - 1)) v]> (nodes s)) s));
      [reflexivity|]. by rewrite (bind_ok _ _ _ _ _ (upd_node_ok _ _ _ _ E)).
  - split; [by apply vinv_insert|]. intros a. rewrite refs_insert by done. cbn [ref_count set_refs].
    by rewrite u32_small by lia.
Qed.

(** Counting up (true) and down (false) from [c]; None when the count would
    leave the range 1 to 2^32 - 1 on the way. *)
Fixpoint count (c : Z) (l : list bool) : option Z :=
  match l with
  | [] => Some c
  | b :: l => let c' := if b : bool then c + 1 else c - 1 in
              if (1 <=? c') && (c' <? 2 ^ 32) then count c' l else None
  end.

Fixpoint run_refs vop (n : Z) (l : list bool) : M (vcache H) unit :=
  match l with
  | [] => mret tt
  | b :: l => (if b : bool then vnode_incref n else vnode_decref vop n);; run_refs vop n l
  end.

Lemma run_refs_ok vop s fl n l c d :
  vinv s fl -> refs s fl n = Some c -> 1 <= c < 2 ^ 32 -> count c l = Some d ->
  exists s', run_refs vop n l s = Ok (tt, s') /\ vinv s' fl /\
    forall a, refs s' fl a = if decide (a = n) then Some d else refs s fl a.
Proof.
  revert s c. induction l as [|b l IH]; intros s c Hi Hr Hc Hd; cbn [count run_refs] in *.
  { injection Hd as <-. exists s. split_and!; [done | done |]. intros a. by case_decide as D; [rewrite D|]. }
  destruct ((1 <=? _) && _) eqn:R; [|done]. apply andb_true_iff in R as [R1%Z.leb_le R2%Z.ltb_lt].
  assert (exists s1, (if b then vnode_incref n else vnode_decref vop n) s = Ok (tt, s1) /\ vinv s1 fl /\
    forall a, refs s1 fl a = if decide (a = n) then Some (if b then c + 1 else c - 1) else refs s fl a)
    as (s1 & E1 & Hi1 & Hr1).
  { destruct b; [apply incref_ok | apply decref_ok]; try done; lia. }
  destruct (IH s1 _ Hi1 (eq_trans (Hr1 n) (decide_True _ _ eq_refl)) (conj R1 R2) Hd) as (s' & E & Hi' & Hr').
  exists s'. rewrite (bind_ok _ _ _ _ _ E1). split_and!; [done | done |].
  intros a. rewrite Hr'. case_decide; [done|]. rewrite Hr1. by rewrite decide_False.
Qed.

(** ** Releasing *)

Lemma kill_cached s fl n v :
  vinv s fl -> n ∉ fl -> nodes s !! n = Some v -> ref_count v = 1 -> Z.of_nat (length fl) < VNODE_CACHE_SIZE ->
  exists s', vnode_kill n s = Ok (tt, s') /\ vinv s' (n :: fl) /\
    forall a, refs s' (n :: fl) a = if decide (a = n) then None else refs s fl a.
Proof.
  intros [L1 L2 L3 L4 L5] Hn E Hc Hlt. assert (Hnz : n <> 0) by (intros ->; congruence).
  eexists. split.
  - unfold vnode_kill. destruct (Z.eqb_spec n 0); [done|]. rewrite (bind_ok _ _ s tt s) by done.
    rewrite (bind_ok _ _ _ _ _ (node_at_ok _ _ _ E)). destruct (Z.eqb_spec (ref_count v) 1); [|done].
    rewrite (bind_ok _ _ s tt s), (bind_ok _ _ s (freelist_size s) s) by done.
    destruct (Z.ltb_spec (freelist_size s) VNODE_CACHE_SIZE); [|lia].
    rewrite (bind_ok _ _ s (freelist_head s) s) by done.
    rewrite (bind_ok _ _ _ _ _ (upd_node_ok _ _ _ _ E)). reflexivity.
  - split.
    + split; cbn [nodes freelist_head freelist_size with_freelist with_nodes length].
      * split; [done|]. eexists. rewrite lookup_insert_eq. split; [done|]. cbn [vn_freelist set_freelist].
        apply (free_list_ext (nodes s)); [|done]. intros a Ha. apply lookup_insert_ne. set_solver.
      * by constructor.
      * rewrite L3, u32_small; unfold VNODE_CACHE_SIZE in *; lia.
      * lia.
      * by rewrite lookup_insert_ne.
    + intros a. unfold refs. cbn [nodes with_freelist with_nodes]. destruct (decide (a = n)) as [->|Ha].
      * by rewrite decide_True by set_solver.
      * rewrite lookup_insert_ne by done. apply decide_ext. set_solver.
Qed.

Lemma kill_freed s fl n v h' :
  vinv s fl -> n ∉ fl -> nodes s !! n = Some v -> ref_count v = 1 -> Z.of_nat (length fl) = VNODE_CACHE_SIZE ->
  kfree n (v_heap s) = Ok (tt, h') ->
  exists s', vnode_kill n s = Ok (tt, s') /\ vinv s' fl /\ v_heap s' = h' /\
    forall a, refs s' fl a = if decide (a = n) then None else refs s fl a.
Proof.
  intros [L1 L2 L3 L4 L5] Hn E Hc Hlt Hf. assert (Hnz : n <> 0) by (intros ->; congruence).
  eexists. split.
  - unfold vnode_kill. destruct (Z.eqb_spec n 0); [done|]. rewrite (bind_ok _ _ s tt s) by done.
    rewrite (bind_ok _ _ _ _ _ (node_at_ok _ _ _ E)). destruct (Z.eqb_spec (ref_count v) 1); [|done].
    rewrite (bind_ok _ _ s tt s), (bind_ok _ _ s (freelist_size s) s) by done.
    destruct (Z.ltb_spec (freelist_size s) VNODE_CACHE_SIZE); [lia|].
    rewrite (bind_ok _ _ s tt (with_vheap h' s)); [reflexivity|]. unfold on_vheap, zoom. by rewrite Hf.
  - split_and!; [|done|].
    + split; cbn [nodes freelist_head freelist_size with_nodes with_vheap]; try done.
      * apply (free_list_ext (nodes s)); [|done]. intros a Ha. apply lookup_delete_ne. set_solver.
      * by rewrite lookup_delete_ne.
    + intros a. unfold refs. cbn [nodes with_vheap with_nodes]. destruct (decide (a = n)) as [->|Ha].
      * rewrite decide_False by done. by rewrite lookup_delete_eq.
      * by rewrite lookup_delete_ne by done.
Qed.

(** The same nodes in the same cache. *)
Definition same_cache s s' : Prop :=
  nodes s' = nodes s /\ freelist_size s' = freelist_size s /\ freelist_head s' = freelist_head s.

Lemma vinv_same s s' fl : same_cache s s' -> vinv s fl -> vinv s' fl.
Proof. intros (E1 & E2 & E3) [L1 L2 L3 L4 L5]. split; by rewrite ?E1, ?E2, ?E3. Qed.

Lemma refs_same s s' fl a : same_cache s s' -> refs s' fl a = refs s fl a.
Proof. intros (E & _). unfold refs. by rewrite E. Qed.

(** The file system's reclaim operation of the node at [n]: it exists, it
    returns, and it leaves the vnode cache alone. *)
Definition reclaims (vop : Z -> Z -> M (vcache H) Z) s (n : Z) : Prop :=
  exists v o r s1, nodes s !! n = Some v /\ op_tables s !! vn_ops_ptr v = Some o /\ op_reclaim o <> 0 /\
    vop (op_reclaim o) n s = Ok (r, s1) /\ same_cache s s1 /\ v_heap s1 = v_heap s.

(** vnode_decref up to vnode_kill. *)
Lemma decref_releases vop s fl n :
  vinv s fl -> refs s fl n = Some 1 -> reclaims vop s n ->
  exists s1, vnode_decref vop n s = vnode_kill n s1 /\ same_cache s s1 /\ v_heap s1 = v_heap s.
Proof.
  intros Hi Hr (v & o & r & s1 & E & Eo & Hf & Hv & Hs & Hh).
  assert (Hnz := live_nonnull _ _ _ _ Hi Hr). apply refs_live in Hr as (Hn & v' & E' & Hc).
  assert (v' = v) as -> by congruence.
  assert (Ho : ops_at (vn_ops_ptr v) s = Ok (o, s)) by (unfold ops_at; by rewrite Eo).
  assert (Hsafe : vop_safe n "reclaim" op_reclaim s = Ok (op_reclaim o, s)).
  { assert (Hk : vnode_check n "reclaim" (op_reclaim o) s = Ok (tt, s)).
    { unfold vnode_check. by destruct (Z.eqb_spec n 0), (Z.eqb_spec (op_reclaim o) 0). }
    unfold vop_safe.
    rewrite (bind_ok _ _ _ _ _ (node_at_ok _ _ _ E)), (bind_ok _ _ _ _ _ Ho).
    rewrite (bind_ok _ _ _ _ _ Hk).
    by rewrite (bind_ok _ _ _ _ _ (node_at_ok _ _ _ E)), (bind_ok _ _ _ _ _ Ho). }
  exists (if r =? 0 then s1 else match vlog WARNING "[vfs] VOP_RECLAIM error" s1 with Ok (_, x) => x | _ => s1 end).
  split; [|by destruct (r =? 0)].
  unfold vnode_decref. destruct (Z.eqb_spec n 0); [done|]. rewrite (bind_ok _ _ s tt s) by done.
  rewrite (bind_ok _ _ _ _ _ (node_at_ok _ _ _ E)), Hc, (bind_ok _ _ s tt s) by done.
  rewrite (bind_ok _ _ _ _ _ (node_at_ok _ _ _ E)), Hc, (bind_ok _ _ s true s) by done. cbn [when].
  unfold VOP_RECLAIM. rewrite (bind_ok _ _ s r s1) by by rewrite (bind_ok _ _ _ _ _ Hsafe).
  by destruct (r =? 0).
Qed.

(** ** Taking a node *)

(** The kernel heap has room for a node, at an address that no node has. *)
Definition heap_gives s (n : Z) (h' : H) : Prop :=
  kmalloc SIZEOF_VNODE (v_heap s) = Ok (n, h') /\ n <> 0 /\ nodes s !! n = None.

Lemma vnode_get_ok junk s fl :
  vinv s fl -> (fl = [] -> exists n h', heap_gives s n h') ->
  exists n s1, vnode_get junk s = Ok (n, s1) /\ vinv s1 (tail fl) /\ (n ∉ tail fl) /\ n <> 0 /\
    refs s fl n = None /\ is_Some (nodes s1 !! n) /\ (forall a, a <> n -> refs s1 (tail fl) a = refs s fl a).
Proof.
  intros [L1 L2 L3 L4 L5] Hh. unfold vnode_get. rewrite (bind_ok _ _ s (freelist_size s) s) by done.
  rewrite L3. destruct fl as [|n fl]; cbn [tail length] in *.
  - destruct (Hh eq_refl) as (n & h' & Hk & Hnz & Hfresh). change (0 <? Z.of_nat 0) with false. cbv iota.
    rewrite (bind_ok _ _ s n (with_vheap h' s)) by (unfold on_vheap, zoom; by rewrite Hk).
    destruct (Z.eqb_spec n 0); [done|]. eexists n, _. split; [reflexivity|].
    unfold refs. cbn [nodes with_nodes with_vheap]. split_and!; try done; [|set_solver|by rewrite Hfresh| |].
    + split; cbn [nodes with_nodes with_vheap freelist_head freelist_size]; try done. by rewrite lookup_insert_ne.
    + rewrite lookup_insert_eq. eauto.
    + intros a Ha. by rewrite lookup_insert_ne.
  - destruct L1 as (Eh & v & Hv & Hl). apply NoDup_cons in L2 as [Hn Hnd].
    destruct (Z.ltb_spec 0 (Z.of_nat (S (length fl)))); [|lia].
    rewrite !(bind_ok _ _ s (freelist_head s) s) by done. rewrite Eh.
    rewrite (bind_ok _ _ _ _ _ (node_at_ok _ _ _ Hv)). eexists n, _. split; [reflexivity|].
    split; [|split_and!].
    + split; cbn [nodes with_freelist freelist_head freelist_size]; try done; [|lia].
      rewrite L3, u32_small; unfold VNODE_CACHE_SIZE in *; lia.
    + done.
    + intros ->. congruence.
    + unfold refs. by rewrite decide_True by set_solver.
    + eauto.
    + intros a Ha. unfold refs. cbn [nodes with_freelist]. apply decide_ext. set_solver.
Qed.

(** The assignments of vnode_init. *)
Lemma fill_node {B} (c : M (vcache H) B) s n v ops vfs data :
  nodes s !! n = Some v ->
  (upd_node n (set_refs 1);;
   upd_node n (fun v => Vnode (vn_type v) (ref_count v) vfs (vn_freelist v) (vn_data v) (vn_ops_ptr v));;
   upd_node n (fun v => Vnode (vn_type v) (ref_count v) (vn_vfs v) (vn_freelist v) (vn_data v) ops);;
   upd_node n (fun v => Vnode (vn_type v) (ref_count v) (vn_vfs v) (vn_freelist v) data (vn_ops_ptr v));;
   upd_node n (set_freelist 0);; c) s =
  c (with_nodes (<[n := Vnode (vn_type v) 1 vfs 0 data ops]> (nodes s)) s).
Proof.
  intros E. assert (U : forall m f w, upd_node n f (with_nodes (<[n := w]> m) s) =
    Ok (tt, with_nodes (<[n := f w]> m) s)).
  { intros m f w. rewrite (upd_node_ok _ _ _ w) by (cbn; by rewrite lookup_insert_eq).
    unfold with_nodes. cbn. by rewrite insert_insert_eq. }
  rewrite (bind_ok _ _ _ _ _ (upd_node_ok _ _ _ _ E)).
  by rewrite !(bind_ok _ _ _ _ _ (U _ _ _)).
Qed.
End spec.

(** ** Properties *)

(** vnode_init takes the most recently released node of the cache, or fresh
    memory when the cache is empty; never a node in use. The node has one
    reference and the given operations, file system and data; every other node
    keeps its count, and the cache invariant holds. *)
Theorem vnode_init_ok {H} `{KernelHeap H} junk (s : vcache H) fl ops vfs data :
  vinv s fl -> (fl = [] -> exists n h', heap_gives s n h') -> ops <> 0 -> vfs <> 0 ->
  exists n s' v, vnode_init junk ops vfs data s = Ok (n, s') /\ vinv s' (tail fl) /\ refs s fl n = None /\
    nodes s' !! n = Some v /\ v = Vnode (vn_type v) 1 vfs 0 data ops /\
    (forall a, refs s' (tail fl) a = if decide (a = n) then Some 1 else refs s fl a).
Proof.
  intros Hi Hh Ho Hf. destruct (vnode_get_ok junk s fl Hi Hh) as (n & s1 & E & Hi1 & Hn & Hnz & Hr & [v Hv] & Hr1).
  unfold vnode_init. destruct (Z.eqb_spec ops 0), (Z.eqb_spec vfs 0); try done.
  rewrite !(bind_ok _ _ s tt s) by done. rewrite (bind_ok _ _ _ _ _ E).
  rewrite (fill_node _ _ _ v _ _ _ Hv). eexists n, _, _. split; [reflexivity|].
  split_and!; [by apply vinv_insert | done | cbn; by rewrite lookup_insert_eq | done |].
  intros a. rewrite refs_insert by done. case_decide; [done | by apply Hr1].
Qed.

(** vnode_incref and vnode_decref count. As long as the count stays between
    1 and 2^32 - 1 on the way, any sequence of them returns, leaves the node in
    use with the count the sequence adds up to, never calls the file system,
    and changes neither another node's count nor the cache. *)
Theorem vnode_refs_balanced {H} `{KernelHeap H} vop (s : vcache H) fl n l c d :
  vinv s fl -> refs s fl n = Some c -> 1 <= c < 2 ^ 32 -> count c l = Some d ->
  exists s', run_refs vop n l s = Ok (tt, s') /\ vinv s' fl /\
    forall a, refs s' fl a = if decide (a = n) then Some d else refs s fl a.
Proof. exact (run_refs_ok vop s fl n l c d). Qed.


(** ** A concrete cache: one node in use, one cached *)

#[local] Instance tiny_heap : KernelHeap mem :=
  {| kmalloc := fun _ => mret 0xd0001000; kfree := fun _ => mret tt; heap_mem := id;
     set_heap_mem := fun m _ => m; heap_mem_set := fun _ _ => eq_refl |}.

Definition used_node : vnode_t := Vnode VREG 1 0x3000 0 0 0x2000.

Definition two_nodes : vcache mem :=
  VCache {[0x1000 := used_node; 0x1100 := used_node]} {[0x2000 := VnOps 0 0 0 0 0 0x4000 0 0]} 1 0x1100 no_mem [].

Lemma two_nodes_inv : vinv two_nodes [0x1100].
Proof.
  split; [| by apply NoDup_singleton | done | unfold VNODE_CACHE_SIZE; cbn; lia | done].
  split; [done|]. exists used_node. by split.
Defined.

Lemma vnode_init_ok_witness :
  exists n s' v, vnode_init used_node 0x2000 0x3000 7 two_nodes = Ok (n, s') /\ vinv s' (tail [0x1100]) /\
    refs two_nodes [0x1100] n = None /\ nodes s' !! n = Some v /\ v = Vnode (vn_type v) 1 0x3000 0 7 0x2000 /\
    (forall a, refs s' (tail [0x1100]) a = if decide (a = n) then Some 1 else refs two_nodes [0x1100] a).
Proof. apply (vnode_init_ok used_node two_nodes [0x1100]); [exact two_nodes_inv | done | lia | lia]. Defined.

Lemma vnode_refs_balanced_witness :
  exists s', run_refs (fun _ _ => mret 0) 0x1000 [true; true; false] two_nodes = Ok (tt, s') /\ vinv s' [0x1100] /\
    forall a, refs s' [0x1100] a = if decide (a = 0x1000) then Some 2 else refs two_nodes [0x1100] a.
Proof.
  apply (vnode_refs_balanced (fun _ _ => mret 0) two_nodes [0x1100] 0x1000 [true; true; false] 1 2);
    [exact two_nodes_inv | reflexivity | lia | reflexivity].
Defined.

