(* ===== verification/Boot.v ===== *)
(** The part of main() that tells the frame bitmap which memory the firmware
    keeps for itself (main.c, multiboot.h), print_mmap, and the ramdisk header
    that initrd.c walks.

    The structures that the boot loader leaves behind are read from memory at
    the addresses multiboot.h gives their fields. [kernel_voffset] is the
    distance between a physical address and the address the kernel sees it at,
    a symbol of the linker script. *)

From S2P Require Import Prelude Memory CString Vsprintf Frames Arch Kheap.

(** multiboot.h *)
Definition MULTIBOOT_MEMINFO : Z := 2 ^ 0.
Definition MULTIBOOT_MODS : Z := 2 ^ 3.
Definition MULTIBOOT_MMAP : Z := 2 ^ 6.

(** struct multiboot_info: the addresses of the fields that are used. *)
Definition mbi_flags (mbi : Z) : Z := mbi.
Definition mbi_mem_lower (mbi : Z) : Z := mbi + 4.
Definition mbi_mem_upper (mbi : Z) : Z := mbi + 8.
Definition mbi_mods_count (mbi : Z) : Z := mbi + 20.
Definition mbi_mods_addr (mbi : Z) : Z := mbi + 24.
Definition mbi_mmap_length (mbi : Z) : Z := mbi + 44.
Definition mbi_mmap_addr (mbi : Z) : Z := mbi + 48.

(** mmap_entry_t, packed. *)
Definition mmap_size (mmap : Z) : Z := mmap.
Definition mmap_addr (mmap : Z) : Z := mmap + 4.
Definition mmap_length (mmap : Z) : Z := mmap + 12.
Definition mmap_type (mmap : Z) : Z := mmap + 20.

(** A 64-bit word, low half first. *)
Definition load64 (a : Z) : M mem Z := lo ← load32 a; hi ← load32 (a + 4); mret (lo + 2 ^ 32 * hi).

Record boot : Type := BootState {
  b_mem : mem;
  b_bits : bitmap;
  b_placement : Z;   (** placement_address *)
  b_initrd : Z;      (** initrd_location *)
  b_log : list (log_level_t * string)
}.

Definition on_mem {A} (c : M mem A) : M boot A :=
  zoom b_mem (fun m s => BootState m (b_bits s) (b_placement s) (b_initrd s) (b_log s)) c.
Definition on_bits {A} (c : M bitmap A) : M boot A :=
  zoom b_bits (fun b s => BootState (b_mem s) b (b_placement s) (b_initrd s) (b_log s)) c.
Definition blog (level : log_level_t) (msg : string) : M boot unit :=
  modify (fun s => BootState (b_mem s) (b_bits s) (b_placement s) (b_initrd s) ((level, msg) :: b_log s)).

Section boot.
Context (kernel_voffset : Z).

(** [for (uint64_t i = 0; i < mmap->length; i += FRAME_SIZE)] *)
Fixpoint mark_region (fuel : nat) (mmap i : Z) : M boot unit :=
  len ← on_mem (load64 (mmap_length mmap));
  if i <? len then
    match fuel with
    | O => throw Hang
    | S fuel =>
        addr ← on_mem (load64 (mmap_addr mmap));
        on_bits (paging_mark_reserved (Z.land (u64 (addr + i)) 0xfffff000));;
        mark_region fuel mmap (u64 (i + FRAME_SIZE))
    end
  else mret tt.

(** The loop over the entries of the map. *)
Fixpoint mark_map (fuel region_fuel : nat) (mbi mmap : Z) : M boot unit :=
  addr ← on_mem (load32 (mbi_mmap_addr mbi));
  len ← on_mem (load32 (mbi_mmap_length mbi));
  if mmap <? u32 (addr + kernel_voffset + len) then
    match fuel with
    | O => throw Hang
    | S fuel =>
        type ← on_mem (load32 (mmap_type mmap));
        when (type =? 2) (mark_region region_fuel mmap 0);;
        size ← on_mem (load32 (mmap_size mmap));
        mark_map fuel region_fuel mbi (u32 (mmap + size + 4))
    end
  else mret tt.

(** paging_init: nframes / 8 bytes for the bitmap, from the next page boundary
    on, by kmalloc_a of the kernel that has no heap yet. *)
Definition paging_init (mem_size : Z) : M boot unit :=
  let nframes := mem_size / FRAME_SIZE in
  modify (fun s => BootState (b_mem s) (init_bitmap mem_size)
    (u32 (align_placement (b_placement s) FRAME_SIZE + nframes / 8)) (b_initrd s) (b_log s));;
  blog INFO "[paging] Frames bitmap located at %#010x".

(** main(), from the memory size to the end of the loop over the map. *)
Definition reserve_memory (fuel region_fuel : nat) (mbi : Z) : M boot unit :=
  flags ← on_mem (load32 (mbi_flags mbi));
  assert (negb (Z.land flags MULTIBOOT_MEMINFO =? 0));;
  lower ← on_mem (load32 (mbi_mem_lower mbi));
  upper ← on_mem (load32 (mbi_mem_upper mbi));
  paging_init (u32 ((lower + upper) * 1024));;
  on_bits (paging_mark_reserved (u32 (mbi - kernel_voffset)));;
  flags ← on_mem (load32 (mbi_flags mbi));
  assert (negb (Z.land flags MULTIBOOT_MMAP =? 0));;
  addr ← on_mem (load32 (mbi_mmap_addr mbi));
  mark_map fuel region_fuel mbi (u32 (addr + kernel_voffset)).

(** print_mmap; [memory_types] has the four names of the types 1 to 4. *)
Definition memory_types : list string := ["Available"; "Reserved"; "ACPI Reclaim"; "ACPI NVS Memory"]%string.

(** An entry of a type above 4 is skipped without going on to the next one. *)
Fixpoint print_entries (fuel : nat) (mbi mmap : Z) : M boot unit :=
  addr ← on_mem (load32 (mbi_mmap_addr mbi));
  len ← on_mem (load32 (mbi_mmap_length mbi));
  if mmap <? u32 (addr + kernel_voffset + len) then
    match fuel with
    | O => throw Hang
    | S fuel =>
        type ← on_mem (load32 (mmap_type mmap));
        if 4 <? type then print_entries fuel mbi mmap
        else
          match (if type =? 0 then None else memory_types !! Z.to_nat (type - 1)) with
          | None => throw (OutOfBounds (u32 (type - 1)))
          | Some name => blog INFO ("%02u: [%#020x:%#020x] = %4u%s (%u - " ++ name ++ ")")
          end;;
          size ← on_mem (load32 (mmap_size mmap));
          print_entries fuel mbi (u32 (mmap + size + 4))
    end
  else mret tt.

Definition print_mmap (fuel : nat) (mbi : Z) : M boot unit :=
  blog INFO "Lower memory: %uKB - Upper memory: %uMB";;
  addr ← on_mem (load32 (mbi_mmap_addr mbi));
  print_entries fuel mbi (u32 (addr + kernel_voffset));;
  blog INFO "".

(** ** initrd.c *)

(** initrd_header_t is packed: 7 bytes of magic and a word. *)
Definition nfiles_at (location : Z) : Z := location + 7.
Definition SIZEOF_INITRD_HEADER : Z := 11.
(** initrd_file_header_t: magic, 128 characters of name, three bytes of padding,
    offset and length. *)
Definition SIZEOF_FILE_HEADER : Z := 140.
Definition file_header (location i : Z) : Z := location + SIZEOF_INITRD_HEADER + i * SIZEOF_FILE_HEADER.
Definition file_name (location i : Z) : Z := file_header location i + 1.
Definition file_offset (location i : Z) : Z := file_header location i + 132.
Definition file_length (location i : Z) : Z := file_header location i + 136.

(** The addresses of the string constants, of the local buffer [name], of
    vsprintf's buffer and of the argument that sprintf is called with. *)
Context (str_initrd str_name name_buf tmp args : Z).

Fixpoint initrd_parse_from (fuel fmt_fuel : nat) (i : Z) : M boot unit :=
  location ← gets b_initrd;
  n ← on_mem (load32 (nfiles_at location));
  if i <? n then
    match fuel with
    | O => throw Hang
    | S fuel =>
        blog INFO "-> Loading '%s': %d bytes...";;
        off ← on_mem (load32 (file_offset location i));
        on_mem (store32 (file_offset location i) (u32 (off + location)));;
        on_mem (store32 args (file_name location i));;
        on_mem (vsprintf fmt_fuel name_buf str_name tmp args);;
        initrd_parse_from fuel fmt_fuel (i + 1)
    end
  else mret tt.

Definition initrd_parse (fuel fmt_fuel : nat) : M boot unit :=
  blog INFO "[vfs] Processing initrd...";;
  initrd_parse_from fuel fmt_fuel 0.

Definition initrd_init (fuel fmt_fuel : nat) (mbi : Z) : M boot unit :=
  flags ← on_mem (load32 (mbi_flags mbi));
  assert (negb (Z.land flags MULTIBOOT_MODS =? 0));;
  count ← on_mem (load32 (mbi_mods_count mbi));
  assert (0 <? count);;
  mods ← on_mem (load32 (mbi_mods_addr mbi));
  start ← on_mem (load32 mods);
  stop ← on_mem (load32 (u32 (mods + 4)));
  modify (fun s => BootState (b_mem s) (b_bits s) (u32 (stop + kernel_voffset)) (u32 (start + kernel_voffset)) (b_log s));;
  blog INFO "[initrd] Location [0x%x-0x%x] = 0x%x bytes";;
  location ← gets b_initrd;
  order ← on_mem (strcmp fmt_fuel location str_initrd);
  assert (order =? 0);;
  initrd_parse fuel fmt_fuel.
End boot.
