(* ===== verification/BootSpec.v ===== *)
(** What the loop of main() over the memory map does: it marks the frames of
    every reserved region, and no others, as used. *)

From S2P Require Import Prelude Memory CString Frames Arch Kheap Boot.

(** An entry of the map: its size field, address, length and type. *)
Record entry : Type := Entry { e_size : Z; e_addr : Z; e_length : Z; e_type : Z }.

Record entry_at (m : mem) (a : Z) (e : entry) : Prop := {
  ea_size : load32 (mmap_size a) m = Ok (e_size e, m);
  ea_addr : load64 (mmap_addr a) m = Ok (e_addr e, m);
  ea_length : load64 (mmap_length a) m = Ok (e_length e, m);
  ea_type : load32 (mmap_type a) m = Ok (e_type e, m)
}.

(** The entries [es] lie one after the other from [a] to [stop]. *)
Fixpoint map_at (m : mem) (a : Z) (es : list entry) (stop : Z) : Prop :=
  match es with
  | [] => a = stop
  | e :: es => entry_at m a e /\ 0 <= e_size e /\ a + e_size e + 4 <= stop /\ map_at m (a + e_size e + 4) es stop
  end.

(** The frames that the loop marks for an entry. *)
Definition pages (e : entry) : Z := (e_length e + FRAME_SIZE - 1) / FRAME_SIZE.
Definition covers (e : entry) (f : Z) : bool :=
  (e_type e =? 2) && (e_addr e / FRAME_SIZE <=? f) && (f <? e_addr e / FRAME_SIZE + pages e).
Definition reserved (es : list entry) (f : Z) : bool := existsb (fun e => covers e f) es.

(** At most so many frames are reserved. *)
Definition reserved_pages (es : list entry) : Z := foldr (fun e n => (if e_type e =? 2 then pages e else 0) + n) 0 es.

(** A region inside the memory that the bitmap describes. *)
Definition in_memory (nframes : Z) (e : entry) : Prop :=
  e_type e = 2 -> 0 <= e_addr e /\ 0 <= e_length e /\ e_addr e / FRAME_SIZE + pages e <= nframes.

(** [s'] has the frames of [P] marked in addition to those of [s]. *)
Record marks (P : Z -> bool) (s s' : bitmap) : Prop := {
  ms_ok : bitmap_ok s';
  ms_nframes : nframes s' = nframes s;
  ms_status : forall f, 0 <= f < nframes s -> frame_status s' f = (fun b => P f || b) <$> frame_status s f
}.

Lemma marks_none P s : bitmap_ok s -> (forall f, P f = false) -> marks P s s.
Proof. intros Hs HP. split; [done | done |]. intros f _. rewrite HP. by destruct (frame_status s f). Qed.

Lemma marks_trans P Q R s1 s2 s3 :
  marks P s1 s2 -> marks Q s2 s3 -> (forall f, R f = Q f || P f) -> marks R s1 s3.
Proof.
  intros [_ N1 S1] [K2 N2 S2] HR. split; [done | congruence |]. intros f Hf.
  rewrite S2 by lia. rewrite S1 by done. rewrite HR. destruct (frame_status s1 f); simpl; [|done].
  by rewrite orb_assoc.
Qed.

Lemma mark_one s f :
  bitmap_ok s -> 0 <= f < nframes s ->
  exists s', set_frame f s = Ok (tt, s') /\ marks (Z.eqb f) s s' /\ used_frames s' <= used_frames s + 1.
Proof.
  intros Hs Hf. destruct (status_some s Hs f Hf) as [b Hb].
  destruct (set_frame_ok s f b Hs ltac:(lia) Hb) as (s' & E & K & [M1 M2 M3 M4] & Us).
  exists s'. split; [done|]. split; [|destruct b; lia]. split; [done | done |]. intros g Hg. destruct (Z.eqb_spec f g) as [->|Hne].
  - by rewrite M1, Hb.
  - rewrite M2 by lia. by destruct (frame_status s g).
Qed.

(** The frame of an address below 4 GB, whose low bits the loop masks off. *)
Lemma masked_frame a : 0 <= a < 2 ^ 32 -> Z.land a 0xfffff000 / FRAME_SIZE = a / FRAME_SIZE.
Proof.
  intros Ha. change FRAME_SIZE with (2 ^ 12). rewrite <- !Z.shiftr_div_pow2 by lia.
  rewrite Z.shiftr_land. change (Z.shiftr 0xfffff000 12) with (Z.ones 20). rewrite Z.land_ones by lia.
  rewrite Z.shiftr_div_pow2 by lia. apply Z.mod_small. Z.div_mod_to_equations. lia.
Qed.

Lemma boot_mem_read {A} (c : M mem A) s x : c (b_mem s) = Ok (x, b_mem s) -> on_mem c s = Ok (x, s).
Proof. intros E. unfold on_mem, zoom. rewrite E. by destruct s. Qed.

Definition with_bits (b : bitmap) (s : boot) : boot :=
  BootState (b_mem s) b (b_placement s) (b_initrd s) (b_log s).

(** The state with the bitmap's [n] bytes placed. *)
Definition placed_bitmap (n : Z) (s : boot) : boot :=
  BootState (b_mem s) (b_bits s) (u32 (align_placement (b_placement s) FRAME_SIZE + n)) (b_initrd s)
    ((INFO, "[paging] Frames bitmap located at %#010x"%string) :: b_log s).

Lemma on_bits_ok {A} (c : M bitmap A) s x b : c (b_bits s) = Ok (x, b) -> on_bits c s = Ok (x, with_bits b s).
Proof. intros E. unfold on_bits, zoom. by rewrite E. Qed.

(** The inner loop, from its [k]-th page on. *)
Lemma mark_region_ok fuel k a e s :
  entry_at (b_mem s) a e -> e_type e = 2 -> in_memory (nframes (b_bits s)) e -> bitmap_ok (b_bits s) ->
  0 <= k <= pages e -> pages e - k <= Z.of_nat fuel ->
  exists b, mark_region fuel a (k * FRAME_SIZE) s = Ok (tt, with_bits b s) /\
    marks (fun f => (e_addr e / FRAME_SIZE + k <=? f) && (f <? e_addr e / FRAME_SIZE + pages e)) (b_bits s) b /\
    used_frames b <= used_frames (b_bits s) + (pages e - k).
Proof.
  intros Ha Ht Hm. revert k s Ha Hm. induction fuel as [|fuel IH]; intros k s Ha Hm Hs Hk Hf.
  all: destruct (Hm Ht) as (A0 & L0 & Hin); pose proof (bo_max _ Hs) as Hmax; cbn [mark_region].
  all: rewrite (bind_ok _ _ _ _ _ (boot_mem_read _ _ _ (ea_length _ _ _ Ha))).
  all: assert (Hlt : (k * FRAME_SIZE <? e_length e) = (k <? pages e))
         by (unfold pages, FRAME_SIZE in *; apply eq_true_iff_eq; rewrite !Z.ltb_lt; Z.div_mod_to_equations; lia).
  all: rewrite Hlt; destruct (Z.ltb_spec k (pages e)) as [L|L]; [try lia|];
       try (exists (b_bits s); split; [by destruct s|]; split; [|lia]; apply marks_none; [done|]; intros f; zbool).
  assert (Hfr : 0 <= e_addr e / FRAME_SIZE) by (apply Z.div_pos; unfold FRAME_SIZE; lia).
  assert (Hadd : (e_addr e + k * FRAME_SIZE) / FRAME_SIZE = e_addr e / FRAME_SIZE + k) by (apply Z.div_add; done).
  assert (Hr : 0 <= e_addr e + k * FRAME_SIZE < 2 ^ 32)
    by (unfold FRAME_SIZE in *; Z.div_mod_to_equations; lia).
  rewrite (bind_ok _ _ _ _ _ (boot_mem_read _ _ _ (ea_addr _ _ _ Ha))).
  replace (u64 (e_addr e + k * FRAME_SIZE)) with (e_addr e + k * FRAME_SIZE)
    by (symmetry; apply Z.mod_small; lia).
  destruct (mark_one (b_bits s) (e_addr e / FRAME_SIZE + k) Hs ltac:(lia)) as (b1 & E1 & M1 & U1).
  assert (E2 : paging_mark_reserved (Z.land (e_addr e + k * FRAME_SIZE) 0xfffff000) (b_bits s) = Ok (tt, b1))
    by (unfold paging_mark_reserved; by rewrite masked_frame, Hadd).
  rewrite (bind_ok _ _ _ _ _ (on_bits_ok _ _ _ _ E2)).
  replace (u64 (k * FRAME_SIZE + FRAME_SIZE)) with ((k + 1) * FRAME_SIZE)
    by (unfold u64, FRAME_SIZE in *; rewrite Z.mod_small; lia).
  destruct (IH (k + 1) (with_bits b1 s)) as (b & E & Mb & Ub); try done.
  - cbn [b_bits with_bits]. by rewrite (ms_nframes _ _ _ M1).
  - apply (ms_ok _ _ _ M1).
  - lia.
  - lia.
  - cbn [b_bits with_bits] in Ub. exists b. split; [done|]. split; [|lia].
    eapply marks_trans; [exact M1 | exact Mb |]. intros f. zbool.
Qed.

(** The information structure of the boot loader. *)
Record info : Type := Info { i_flags : Z; i_lower : Z; i_upper : Z; i_map : Z; i_map_length : Z }.

Record info_at (m : mem) (mbi : Z) (i : info) : Prop := {
  ia_flags : load32 (mbi_flags mbi) m = Ok (i_flags i, m);
  ia_lower : load32 (mbi_mem_lower mbi) m = Ok (i_lower i, m);
  ia_upper : load32 (mbi_mem_upper mbi) m = Ok (i_upper i, m);
  ia_map : load32 (mbi_mmap_addr mbi) m = Ok (i_map i, m);
  ia_length : load32 (mbi_mmap_length mbi) m = Ok (i_map_length i, m)
}.

Section map_loop.
Context (voffset : Z) (m : mem) (mbi : Z) (i : info) (Hi : info_at m mbi i).
Let stop := i_map i + voffset + i_map_length i.
Context (Hstop : 0 <= stop < 2 ^ 32).

(** The loop's test, and the entry it looks at. *)
Lemma map_test (c d : M boot unit) s a :
  b_mem s = m -> a <= stop ->
  (addr ← on_mem (load32 (mbi_mmap_addr mbi));
   len ← on_mem (load32 (mbi_mmap_length mbi));
   if a <? u32 (addr + voffset + len) then c else d) s = if a <? stop then c s else d s.
Proof.
  intros <- Ha. rewrite (bind_ok _ _ _ _ _ (boot_mem_read _ _ _ (ia_map _ _ _ Hi))).
  rewrite (bind_ok _ _ _ _ _ (boot_mem_read _ _ _ (ia_length _ _ _ Hi))). fold stop.
  rewrite u32_small by done. by destruct (a <? stop).
Qed.

Lemma mark_map_ok es fuel region_fuel a s :
  b_mem s = m -> 0 <= a -> map_at m a es stop -> Forall (in_memory (nframes (b_bits s))) es ->
  bitmap_ok (b_bits s) -> (length es <= fuel)%nat -> nframes (b_bits s) <= Z.of_nat region_fuel ->
  exists b, mark_map voffset fuel region_fuel mbi a s = Ok (tt, with_bits b s) /\
    marks (reserved es) (b_bits s) b /\ used_frames b <= used_frames (b_bits s) + reserved_pages es.
Proof.
  revert fuel a s. induction es as [|e es IH]; intros fuel a s Hm Ha Hmap Hin Hs Hf Hrf.
  { cbn in Hmap. subst a. exists (b_bits s). split; [|split; [by apply marks_none | cbn; lia]].
    destruct fuel; cbn [mark_map]; rewrite map_test by (done || lia);
      (destruct (Z.ltb_spec stop stop); [lia | by destruct s]). }
  destruct fuel as [|fuel]; cbn [length] in Hf; [lia|]. destruct Hmap as (He & Hsz & Hend & Hmap).
  apply Forall_cons in Hin as [Hin Hes]. cbn [mark_map]. rewrite map_test by (done || lia).
  destruct (Z.ltb_spec a stop); [|lia]. assert (He' := He). rewrite <- Hm in He'.
  rewrite (bind_ok _ _ _ _ _ (boot_mem_read _ _ _ (ea_type _ _ _ He'))).
  assert (exists b1, when (e_type e =? 2) (mark_region region_fuel a 0) s = Ok (tt, with_bits b1 s) /\
    marks (covers e) (b_bits s) b1 /\
    used_frames b1 <= used_frames (b_bits s) + (if e_type e =? 2 then pages e else 0)) as (b1 & E1 & M1 & U1).
  { unfold covers. destruct (Z.eqb_spec (e_type e) 2) as [T|T]; cbn [when andb].
    - destruct (Hin T) as (A0 & L0 & Hle). assert (P0 : 0 <= pages e).
      { unfold pages, FRAME_SIZE. Z.div_mod_to_equations. lia. }
      assert (0 <= e_addr e / FRAME_SIZE) by (apply Z.div_pos; unfold FRAME_SIZE; lia).
      destruct (mark_region_ok region_fuel 0 a e s) as (b & Er & Mb & Ub); try done; [lia..|].
      exists b. split; [done|]. rewrite Z.add_0_r in Mb. split; [done | lia].
    - exists (b_bits s). split; [by destruct s|]. split; [by apply marks_none | lia]. }
  rewrite (bind_ok _ _ _ _ _ E1).
  rewrite (bind_ok _ _ _ _ _ (boot_mem_read _ (with_bits b1 s) _ (ea_size _ _ _ He'))).
  rewrite u32_small by lia.
  destruct (IH fuel (a + e_size e + 4) (with_bits b1 s)) as (b & E & Mb & Ub); try done;
    cbn [b_bits with_bits]; rewrite ?(ms_nframes _ _ _ M1); try done; [lia | apply M1 | lia|].
  cbn [b_bits with_bits] in Ub. exists b. split; [done|]. split; [|cbn [reserved_pages foldr]; fold (reserved_pages es); lia].
  eapply marks_trans; [exact M1 | exact Mb |]. intros f. cbn. apply orb_comm.
Qed.
End map_loop.

(** ** Properties *)

(** main() between the memory size and the end of the map, with the number of
    frames that are taken. *)
Lemma memory_map_run voffset fuel region_fuel mbi i es s :
  info_at (b_mem s) mbi i -> Z.testbit (i_flags i) 0 = true -> Z.testbit (i_flags i) 6 = true ->
  0 <= i_lower i + i_upper i < 2 ^ 22 -> (i_lower i + i_upper i) mod 128 = 0 ->
  0 <= i_map i + voffset <= i_map i + voffset + i_map_length i -> i_map i + voffset + i_map_length i < 2 ^ 32 ->
  map_at (b_mem s) (i_map i + voffset) es (i_map i + voffset + i_map_length i) ->
  let n := (i_lower i + i_upper i) / 4 in
  0 <= mbi - voffset < n * FRAME_SIZE -> Forall (in_memory n) es ->
  (length es <= fuel)%nat -> n <= Z.of_nat region_fuel ->
  exists b, reserve_memory voffset fuel region_fuel mbi s = Ok (tt, with_bits b (placed_bitmap (n / 8) s)) /\
    bitmap_ok b /\ nframes b = n /\ used_frames b <= reserved_pages es + 1 /\
    (forall f, 0 <= f < n -> frame_status b f = Some (reserved es f || ((mbi - voffset) / FRAME_SIZE =? f))).
Proof.
  intros Hi F0 F6 Hmem H128 Hv Hstop Hmap n Hmbi Hes Hfuel Hrf.
  assert (Hbit : forall k, 0 <= k -> Z.testbit (i_flags i) k = true -> (Z.land (i_flags i) (2 ^ k) =? 0) = false).
  { intros k Hk Hb. rewrite <- Z.shiftl_1_l, land_bit_zero by done. by rewrite Hb. }
  unfold reserve_memory. rewrite (bind_ok _ _ _ _ _ (boot_mem_read _ _ _ (ia_flags _ _ _ Hi))).
  unfold MULTIBOOT_MEMINFO, MULTIBOOT_MMAP. rewrite (Hbit 0) by done. rewrite (bind_ok _ _ s tt s) by done.
  rewrite (bind_ok _ _ _ _ _ (boot_mem_read _ _ _ (ia_lower _ _ _ Hi))).
  rewrite (bind_ok _ _ _ _ _ (boot_mem_read _ _ _ (ia_upper _ _ _ Hi))).
  rewrite (u32_small ((i_lower i + i_upper i) * 1024)) by lia. set (size := (i_lower i + i_upper i) * 1024).
  assert (Hn : size / FRAME_SIZE = n) by (unfold size, n, FRAME_SIZE; Z.div_mod_to_equations; lia).
  assert (Hn32 : (size / FRAME_SIZE) mod 32 = 0) by (rewrite Hn; unfold n; Z.div_mod_to_equations; lia).
  assert (K0 : bitmap_ok (init_bitmap size)) by (apply init_bitmap_ok; [unfold size; lia | done]).
  set (s0 := placed_bitmap (n / 8) s).
  rewrite (bind_ok _ _ s tt (with_bits (init_bitmap size) s0))
    by (unfold paging_init, s0, placed_bitmap; by rewrite Hn).
  assert (N0 : nframes (init_bitmap size) = n) by exact Hn.
  assert (Hf0 : 0 <= (mbi - voffset) / FRAME_SIZE < n)
    by (split; [apply Z.div_pos | apply Z.div_lt_upper_bound]; unfold FRAME_SIZE in *; lia).
  assert (Hn20 : n <= 2 ^ 20) by (unfold n; Z.div_mod_to_equations; lia).
  destruct (mark_one (init_bitmap size) ((mbi - voffset) / FRAME_SIZE) K0 ltac:(lia)) as (b1 & E1 & M1 & U1).
  assert (E1' : paging_mark_reserved (u32 (mbi - voffset)) (init_bitmap size) = Ok (tt, b1))
    by (unfold paging_mark_reserved; rewrite u32_small by (unfold FRAME_SIZE in *; lia); done).
  rewrite (bind_ok _ _ _ _ _ (on_bits_ok _ (with_bits (init_bitmap size) s0) _ _ E1')).
  change (with_bits b1 (with_bits (init_bitmap size) s0)) with (with_bits b1 s0).
  rewrite (bind_ok _ _ _ _ _ (boot_mem_read _ (with_bits b1 s0) _ (ia_flags _ _ _ Hi))).
  rewrite (Hbit 6) by done. rewrite (bind_ok _ _ (with_bits b1 s0) tt (with_bits b1 s0)) by done.
  rewrite (bind_ok _ _ _ _ _ (boot_mem_read _ (with_bits b1 s0) _ (ia_map _ _ _ Hi))). rewrite u32_small by lia.
  assert (N1 : nframes b1 = n) by by rewrite (ms_nframes _ _ _ M1).
  destruct (mark_map_ok voffset (b_mem s) mbi i Hi ltac:(lia) es fuel region_fuel (i_map i + voffset) (with_bits b1 s0))
    as (b & E & Mb & Ub); try done; cbn [b_bits with_bits]; rewrite ?N1; try done; [lia | apply M1|].
  exists b. split; [done|]. split_and!; [apply Mb | by rewrite (ms_nframes _ _ _ Mb) | cbn [b_bits with_bits] in Ub; cbn in U1; lia |].
  intros f Hf. rewrite (ms_status _ _ _ Mb) by (cbn; lia). cbn [b_bits with_bits].
  rewrite (ms_status _ _ _ M1) by lia. rewrite init_bitmap_free by (unfold size in *; lia). cbn. by rewrite orb_false_r.
Qed.


(** The first round of the loop for a reserved region. *)
Lemma mark_region_out fuel a e s :
  entry_at (b_mem s) a e -> 0 < e_length e -> 0 <= e_addr e < 2 ^ 32 ->
  frame_status (b_bits s) (e_addr e / FRAME_SIZE) = None ->
  mark_region (S fuel) a 0 s = Err (OutOfBounds (e_addr e / FRAME_SIZE / 32)).
Proof.
  intros He Hl Ha Hn. cbn [mark_region]. rewrite (bind_ok _ _ _ _ _ (boot_mem_read _ _ _ (ea_length _ _ _ He))).
  destruct (Z.ltb_spec 0 (e_length e)); [|lia].
  rewrite (bind_ok _ _ _ _ _ (boot_mem_read _ _ _ (ea_addr _ _ _ He))), Z.add_0_r. apply bind_err.
  unfold on_bits, zoom, paging_mark_reserved, u64. rewrite Z.mod_small by lia.
  rewrite masked_frame by done. by rewrite set_frame_out.
Qed.

(** a reserved region that begins above the memory, such as the firmware's
    ROM below 4 GB on a machine with less memory, makes the loop access the
    frame bitmap outside its bounds. *)
Theorem high_region_overruns voffset fuel region_fuel mbi i e s :
  let a := i_map i + voffset in
  info_at (b_mem s) mbi i -> 0 <= a < a + i_map_length i -> a + i_map_length i < 2 ^ 32 ->
  entry_at (b_mem s) a e -> e_type e = 2 -> 0 < e_length e -> 0 <= e_addr e < 2 ^ 32 ->
  bitmap_ok (b_bits s) -> nframes (b_bits s) <= e_addr e / FRAME_SIZE ->
  mark_map voffset (S fuel) (S region_fuel) mbi a s = Err (OutOfBounds (e_addr e / FRAME_SIZE / 32)).
Proof.
  intros a Hi Ha Hstop He Ht Hl Hr Hs Hn. cbn [mark_map].
  rewrite (map_test voffset (b_mem s) mbi i Hi) by (unfold a in *; (done || lia)).
  destruct (Z.ltb_spec a (i_map i + voffset + i_map_length i)); [|unfold a in *; lia].
  rewrite (bind_ok _ _ _ _ _ (boot_mem_read _ _ _ (ea_type _ _ _ He))), Ht. apply bind_err. cbn [when Z.eqb Pos.eqb].
  apply mark_region_out; try done.
  destruct (frame_status (b_bits s) (e_addr e / FRAME_SIZE)) as [b|] eqn:E; [|done].
  apply (status_range _ Hs) in E; [lia|]. apply Z.div_pos; unfold FRAME_SIZE; lia.
Qed.

(** print_mmap never returns once it meets an entry of a type above 4 (the
    memory map of the boot loader can hold such entries, type 5 is defective
    memory): the entry is skipped without going on to the next one. *)
Theorem print_mmap_hangs voffset fuel mbi i e s :
  let a := i_map i + voffset in
  info_at (b_mem s) mbi i -> 0 <= a < a + i_map_length i -> a + i_map_length i < 2 ^ 32 ->
  entry_at (b_mem s) a e -> 4 < e_type e -> print_mmap voffset fuel mbi s = Err Hang.
Proof.
  intros a Hi Ha Hstop He Ht. unfold print_mmap. rewrite (bind_ok _ _ s tt (BootState (b_mem s) (b_bits s)
    (b_placement s) (b_initrd s) ((INFO, "Lower memory: %uKB - Upper memory: %uMB"%string) :: b_log s))) by done.
  set (s1 := BootState _ _ _ _ _). rewrite (bind_ok _ _ _ _ _ (boot_mem_read _ s1 _ (ia_map _ _ _ Hi))).
  apply bind_err. fold a. rewrite u32_small by lia.
  induction fuel as [|fuel IH]; cbn [print_entries];
    rewrite (map_test voffset (b_mem s) mbi i Hi) by (unfold a in *; (done || lia));
    (destruct (Z.ltb_spec a (i_map i + voffset + i_map_length i)); [|unfold a in *; lia]); [done|].
  rewrite (bind_ok _ _ _ _ _ (boot_mem_read _ s1 _ (ea_type _ _ _ He))).
  destruct (Z.ltb_spec 4 (e_type e)); [exact IH | lia].
Qed.

(** ** A concrete machine *)

(** Reading, by the contents of the memory. *)
Lemma load32_eq m a v : word_present m a = true -> word_at m a = v -> load32 a m = Ok (v, m).
Proof. intros P <-. unfold load32. by rewrite P. Qed.

Lemma load64_eq m a lo hi v :
  word_present m a = true -> word_present m (a + 4) = true -> word_at m a = lo -> word_at m (a + 4) = hi ->
  lo + 2 ^ 32 * hi = v -> load64 a m = Ok (v, m).
Proof.
  intros P1 P2 E1 E2 <-. unfold load64. rewrite (bind_ok _ _ _ _ _ (load32_eq _ _ _ P1 E1)).
  by rewrite (bind_ok _ _ _ _ _ (load32_eq _ _ _ P2 E2)).
Qed.

Ltac read_fields :=
  split; first [ apply load32_eq; vm_compute; reflexivity | eapply load64_eq; vm_compute; reflexivity ].

(** 64-bit fields. *)
Definition put64 (a v : Z) (m : mem) : mem := set_word (a + 4) (v / 2 ^ 32) (set_word a v m).

Definition put_entry (a : Z) (e : entry) (m : mem) : mem :=
  set_word (mmap_type a) (e_type e) (put64 (mmap_length a) (e_length e)
    (put64 (mmap_addr a) (e_addr e) (set_word (mmap_size a) (e_size e) m))).

(** One megabyte below 1 MB and 1 MB above; the second and third entry are reserved. *)
Definition low_map : list entry :=
  [Entry 20 0 0x9f000 1; Entry 20 0x9f000 0x1000 2; Entry 20 0xf0000 0x10000 2].

Definition put_info (mbi : Z) (i : info) (m : mem) : mem :=
  set_word (mbi_mmap_addr mbi) (i_map i) (set_word (mbi_mmap_length mbi) (i_map_length i)
    (set_word (mbi_mem_upper mbi) (i_upper i) (set_word (mbi_mem_lower mbi) (i_lower i)
      (set_word (mbi_flags mbi) (i_flags i) m)))).

Definition boot_state (es : list entry) (i : info) : boot :=
  let put := fix put a es m := match es with [] => m | e :: es => put_entry a e (put (a + 24) es m) end in
  BootState (put 0xc0002000 es (put_info 0xc0001000 i (mem_with_pages 2 0xc0001000)))
    (Bitmap (replicate 16 0) 512 0) 0 0 [].

Definition low_info : info := Info 0x41 1024 1024 0x2000 72.
Definition low_boot : boot := boot_state low_map low_info.

Lemma low_map_in : Forall (in_memory 512) low_map.
Proof.
  repeat (apply Forall_cons; split; [intros _; vm_compute; repeat split; discriminate|]). by apply Forall_nil.
Defined.


(** One entry, at the place of the map. *)
Definition one_info : info := Info 0x41 1024 1024 0x2000 24.
Definition one_boot (e : entry) : boot := boot_state [e] one_info.

(** A ROM at 0xfffc0000, and defective memory. *)
Definition rom : entry := Entry 20 0xfffc0000 0x40000 2.
Definition defective : entry := Entry 20 0 0x9f000 5.

Lemma rom_at : info_at (b_mem (one_boot rom)) 0xc0001000 one_info /\ entry_at (b_mem (one_boot rom)) 0xc0002000 rom.
Proof. split; read_fields. Defined.

Lemma defective_at :
  info_at (b_mem (one_boot defective)) 0xc0001000 one_info /\ entry_at (b_mem (one_boot defective)) 0xc0002000 defective.
Proof. split; read_fields. Defined.

Lemma rom_bits : bitmap_ok (b_bits (one_boot rom)).
Proof. split; [by apply Forall_replicate | reflexivity | cbn; lia | vm_compute; reflexivity]. Defined.

Lemma high_region_overruns_witness :
  mark_map 0xc0000000 1 1 0xc0001000 (i_map one_info + 0xc0000000) (one_boot rom) =
  Err (OutOfBounds (e_addr rom / FRAME_SIZE / 32)).
Proof.
  apply high_region_overruns;
    [exact (proj1 rom_at) | cbn; lia | cbn; lia | exact (proj2 rom_at) | reflexivity | cbn; lia | cbn; lia
    | exact rom_bits | vm_compute; discriminate].
Defined.

Lemma print_mmap_hangs_witness : print_mmap 0xc0000000 100 0xc0001000 (one_boot defective) = Err Hang.
Proof.
  apply (print_mmap_hangs 0xc0000000 100 0xc0001000 one_info defective);
    [exact (proj1 defective_at) | cbn; lia | cbn; lia | exact (proj2 defective_at) | cbn; lia].
Defined.
