(* ===== verification/Process.v ===== *)
(** Processes: process.c. A process_t lives on the kernel heap; the fields that
    thread.c reads are in the map of processes of the scheduler state, the name
    is in the memory of the structure, at its beginning. The page directory is
    cloned by paging.c: [clone] is clone_page_directory on the heap's state. *)

From S2P Require Import Prelude Memory CString Kheap Sched.

(** [sizeof(name)] for a parameter declared [const char name[64]]: the size of
    a pointer. *)
Definition sizeof_name : Z := 4.

Section processes.
Context {H : Type} `{KernelHeap H}.
Context (clone : Z -> M H Z).

Definition request_process_id : M (sched H) Z :=
  modify (fun s => with_ids (last_thread_id s) (u32 (last_process_id s + 1)) s);;
  gets last_process_id.

Definition create_process (name priority : Z) : M (sched H) Z :=
  irq_state ← irq_save;
  process ← on_heap (kmalloc SIZEOF_PROCESS);
  irq_restore irq_state;;
  if process =? 0 then mret 0
  else
    on_heap (heap_access (strncpy process name sizeof_name));;
    dir ← gets current_directory;
    page_dir ← on_heap (clone dir);
    id ← request_process_id;
    modify (fun s => with_procs (<[process := Process id priority page_dir]> (procs s)) s);;
    mret process.

Definition destroy_process (process : Z) : M (sched H) unit :=
  when (negb (process =? 0))
    (on_heap (kfree process);; modify (fun s => with_procs (delete process (procs s)) s)).
End processes.

(** ** Properties *)

(** C35: create_process with memory at hand returns a new process structure: it
    has the next process number, the given priority and a clone of the current
    page directory; the threads, the other processes and the interrupt flag are
    as before. Of the name only the first four characters are kept, since
    sizeof(name) is the size of a pointer. *)
Theorem create_process_ok {H} `{KernelHeap H} (clone : Z -> M H Z) (s : sched H) name priority l p h1 h2 d :
  kmalloc SIZEOF_PROCESS (s_heap s) = Ok (p, h1) -> p <> 0 ->
  cstring (heap_mem h1) name l -> present (heap_mem h1) p 5 ->
  p + 5 <= name \/ name + Z.of_nat (length l) + 1 <= p ->
  (forall m, m_pages m = m_pages (heap_mem h1) -> cstring m p (take 4 l) ->
     clone (current_directory s) (set_heap_mem m h1) = Ok (d, h2 m)) ->
  exists m s', create_process clone name priority s = Ok (p, s') /\ cstring m p (take 4 l) /\ s_heap s' = h2 m /\
    procs s' = <[p := Process (u32 (last_process_id s + 1)) priority d]> (procs s) /\
    last_process_id s' = u32 (last_process_id s + 1) /\ threads s' = threads s /\ s_if s' = s_if s.
Proof.
  intros Hk Hp Hc Hpr Ho Hcl.
  destruct (strncpy_ok (heap_mem h1) p name l sizeof_name Hc) as (m & E & Pg & Hn & _);
    unfold sizeof_name in *; [eapply present_sub; [exact Hpr | lia | lia] | lia |].
  specialize (Hcl m Pg Hn). exists m. eexists. split; [|split; [exact Hn|]].
  - unfold create_process, sizeof_name. rewrite (bind_ok _ _ s (s_if s) (with_flag false s)) by done.
    rewrite (bind_ok _ _ _ p (with_heap h1 (with_flag false s)))
      by (unfold on_heap, zoom; cbn [s_heap with_flag]; by rewrite Hk).
    rewrite (bind_ok _ _ _ tt (with_flag (s_if s) (with_heap h1 (with_flag false s)))) by done.
    destruct (Z.eqb_spec p 0); [done|]. set (s1 := with_flag (s_if s) _).
    rewrite (bind_ok _ _ s1 p (with_heap (set_heap_mem m h1) s1))
      by (unfold on_heap, heap_access, zoom; cbn [s_heap s1 with_heap with_flag]; by rewrite E).
    set (s2 := with_heap (set_heap_mem m h1) s1). rewrite (bind_ok _ _ s2 (current_directory s) s2) by done.
    rewrite (bind_ok _ _ s2 d (with_heap (h2 m) s2))
      by (unfold on_heap, zoom; cbn [s_heap s2 with_heap]; by rewrite Hcl).
    reflexivity.
  - by split_and!.
Qed.

(** ** A concrete heap: one page of free memory at 0xd0000000 *)

#[local] Instance page_heap : KernelHeap mem :=
  {| kmalloc := fun _ => mret 0xd0000010; kfree := fun _ => mret tt; heap_mem := id;
     set_heap_mem := fun m _ => m; heap_mem_set := fun _ _ => eq_refl |}.

(** "Process" at 0xd0000800. *)
Definition page_mem : mem := put_bytes 0xd0000800 [80; 114; 111; 99; 101; 115; 115; 0] (mem_with_pages 1 0xd0000000).

Definition page_sched : sched mem :=
  Sched ∅ ∅ None None false 0 0 0 0 0 0xc0110000 0xc0110000 0 true [] page_mem.

Lemma create_process_ok_witness :
  exists m s', create_process (fun d => mret (d + 4096)) 0xd0000800 3 page_sched = Ok (0xd0000010, s') /\
    cstring m 0xd0000010 (take 4 [80; 114; 111; 99; 101; 115; 115]) /\ s_heap s' = m /\
    procs s' = <[0xd0000010 := Process (u32 (last_process_id page_sched + 1)) 3 0xc0111000]> (procs page_sched) /\
    last_process_id s' = u32 (last_process_id page_sched + 1) /\ threads s' = threads page_sched /\
    s_if s' = s_if page_sched.
Proof.
  apply (create_process_ok _ page_sched 0xd0000800 3 [80; 114; 111; 99; 101; 115; 115] 0xd0000010 page_mem id 0xc0111000);
    [reflexivity | lia | apply cstring_b_ok; vm_compute; reflexivity
    | apply (present_b_ok _ 5); vm_compute; reflexivity | cbn [length]; lia | done].
Defined.
