(* ===== verification/Console.v ===== *)
(** The serial line (serial.c), the devices (driver.h) and the kernel's log
    (logging.c).

    The processor state records every port access; the text console is that of
    vga.c, whose memory is also the memory the texts are read from. The port
    base [com] is a variable of serial.c, [vga_driver] and [com_driver] are
    those of logging.c. The constant strings of serial.c are at addresses the
    linker chose: [fg_at i] and [bg_at i] are those of [term_fg[i]] and
    [term_bg[i]]. *)

From S2P Require Import Prelude Memory CString Vsprintf Arch Vga.

(** The functions that the pointers of a device can point to: vga_write of
    vga.c and write of serial.c. *)
Inductive device_fn : Type := FN_vga_write | FN_write.

(** driver.h *)
Record device_t : Type := Device { d_read : option device_fn; d_write : option device_fn }.

Record console : Type := Console {
  c_arch : arch;
  com : Z;
  c_vga : vga;
  vga_driver : option device_t;
  com_driver : option device_t
}.

Definition set_c_arch (a : arch) (s : console) : console := Console a (com s) (c_vga s) (vga_driver s) (com_driver s).
Definition set_com (p : Z) (s : console) : console := Console (c_arch s) p (c_vga s) (vga_driver s) (com_driver s).
Definition set_c_vga (v : vga) (s : console) : console := Console (c_arch s) (com s) v (vga_driver s) (com_driver s).
Definition set_drivers (v c : option device_t) (s : console) : console := Console (c_arch s) (com s) (c_vga s) v c.

Definition on_carch {A} (c : M arch A) : M console A := zoom c_arch set_c_arch c.
Definition on_cvga {A} (c : M vga A) : M console A := zoom c_vga set_c_vga c.
Definition on_cmem {A} (c : M mem A) : M console A := on_cvga (on_vmem c).

(** Register offsets. *)
Definition SERIAL_DATA (base : Z) : Z := base.
Definition SERIAL_DLL (base : Z) : Z := base + 0.
Definition SERIAL_DLH (base : Z) : Z := base + 1.
Definition SERIAL_INT_ENABLE (base : Z) : Z := base + 1.
Definition SERIAL_FIFO_CTRL (base : Z) : Z := base + 2.
Definition SERIAL_LINE_CTRL (base : Z) : Z := base + 3.
Definition SERIAL_MODEM_CTRL (base : Z) : Z := base + 4.
Definition SERIAL_LINE_STATUS (base : Z) : Z := base + 5.

(** The colour strings. A VGA colour number is the index; the foreground strings
    are formats whose argument is the background string. *)
Definition fg_string (d1 d2 : Z) : list Z := [27; 91; 48; 59; d1; d2; 59; 37; 115; 109].

Definition term_fg : list (list Z) :=
  [fg_string 51 48;   (** 30, black *)
   fg_string 51 52;   (** 34, blue *)
   fg_string 51 50;   (** 32, green *)
   fg_string 51 54;   (** 36, cyan *)
   fg_string 51 49;   (** 31, red *)
   fg_string 51 53;   (** 35, magenta *)
   fg_string 51 51;   (** 33, brown *)
   fg_string 51 55;   (** 37, light gray *)
   fg_string 57 48;   (** 90, dark gray *)
   fg_string 57 52;   (** 94, light blue *)
   fg_string 57 50;   (** 92, light green *)
   fg_string 57 54;   (** 96, light cyan *)
   fg_string 57 49;   (** 91, light red *)
   fg_string 57 53;   (** 95, light magenta *)
   fg_string 51 51;   (** 33, yellow *)
   fg_string 51 55].  (** 37, white *)

Definition term_bg : list (list Z) :=
  [[52; 48]; [52; 52]; [52; 50]; [52; 54]; [52; 49]; [52; 53]; [52; 51]; [52; 55];
   [49; 48; 48]; [49; 48; 52]; [49; 48; 50]; [49; 48; 54]; [49; 48; 49]; [49; 48; 53]; [49; 48; 51]; [52; 55]].

(** "\n\033[4;35;40mSerial output from kernel\033[0;37;40m\n" *)
Definition init_message : list Z :=
  [10; 27; 91; 52; 59; 51; 53; 59; 52; 48; 109; 83; 101; 114; 105; 97; 108; 32; 111; 117; 116; 112; 117; 116; 32;
   102; 114; 111; 109; 32; 107; 101; 114; 110; 101; 108; 27; 91; 48; 59; 51; 55; 59; 52; 48; 109; 10].
(** "\033[0m" *)
Definition text_reset : list Z := [27; 91; 48; 109].

Section console.
Context (dev : list io_event -> Z -> Z).
Context (kernel_voffset : Z) (fg_at bg_at : Z -> Z).
(** How often the status of the line is polled at most. *)
Context (polls : nat).

Definition is_transmit_empty : M console Z :=
  base ← gets com; v ← on_carch (inb dev (SERIAL_LINE_STATUS base)); mret (Z.land v 0x20).

(** [while (is_transmit_empty() == 0) ;] *)
Fixpoint wait_transmit (fuel : nat) : M console unit :=
  e ← is_transmit_empty;
  if e =? 0 then match fuel with O => throw Hang | S fuel => wait_transmit fuel end else mret tt.

Definition write_char (c : Z) : M console unit :=
  wait_transmit polls;;
  base ← gets com;
  on_carch (outb (SERIAL_DATA base) c).

(** [while ( *s) write_char( *s++);] for a constant string. *)
Fixpoint send_text (l : list Z) : M console unit :=
  match l with [] => mret tt | c :: l => write_char c;; send_text l end.

(** The devices as the initialisation functions leave them. *)
Definition com_device : device_t := Device None (Some FN_write).
Definition vga_device : device_t := Device None (Some FN_vga_write).

Definition serial_init : M console device_t :=
  let divisor := 3 in
  lo ← on_cmem (load8 (0x0400 + kernel_voffset));
  hi ← on_cmem (load8 (0x0400 + kernel_voffset + 1));
  modify (set_com (lo + 2 ^ 8 * hi));;
  com ← gets com;
  on_carch (outb (SERIAL_INT_ENABLE com) 0x00);;
  on_carch (outb (SERIAL_LINE_CTRL com) 0x80);;
  on_carch (outb (SERIAL_DLL com) divisor);;
  on_carch (outb (SERIAL_DLH com) (Z.shiftr divisor 8));;
  on_carch (outb (SERIAL_LINE_CTRL com) 0x03);;
  on_carch (outb (SERIAL_FIFO_CTRL com) 0xc7);;
  on_carch (outb (SERIAL_MODEM_CTRL com) 0x0b);;
  send_text init_message;;
  mret com_device.

Definition serial_terminate : M console unit := send_text text_reset.

(** [for (k = 0; buf[k]; ++k) write_char(buf[k]);] *)
Fixpoint send_buffer (fuel : nat) (p : Z) : M console unit :=
  c ← on_cmem (load8 p);
  if c =? 0 then mret tt
  else match fuel with O => throw Hang | S fuel => write_char c;; send_buffer fuel (p + 1) end.

(** The local buffer of write, the buffer of vsprintf, and the stack word with
    the argument of sprintf. *)
Context (buf tmp args : Z).

(** The loop of write: [len] bytes at most, up to a zero byte; the byte behind
    an escape character is a colour. *)
Fixpoint write_loop (fuel : nat) (data i len : Z) : M console Z :=
  c ← on_cmem (load8 data);
  if negb (c =? 0) && (i <? len) then
    match fuel with
    | O => throw Hang
    | S fuel =>
        if c =? 27 then
          a ← on_cmem (load8 (data + 1));
          on_cmem (store32 args (bg_at (a / 16)));;
          on_cmem (vsprintf fuel buf (fg_at (a mod 16)) tmp args);;
          send_buffer fuel buf;;
          write_loop fuel (data + 2) (i + 2) len
        else
          write_char c;;
          write_loop fuel (data + 1) (i + 1) len
    end
  else mret i.

Definition write (fuel : nat) (data len : Z) : M console Z :=
  on_cmem (stosb 32 buf 0);;
  write_loop fuel data 0 len.

(** ** logging.c *)

Definition level_value (l : log_level_t) : Z :=
  match l with DEBUG => 0 | INFO => 1 | NOTICE => 2 | WARNING => 3 | ERROR => 4 | CRITICAL => 5 end.

Definition logging_init (vga com : option device_t) : M console unit := modify (set_drivers vga com).

(** [driver->write(data, len)]: the word at offset 4 of the structure is the
    pointer to the function. *)
Definition device_write (fuel : nat) (driver : option device_t) (data len : Z) : M console Z :=
  match driver with
  | None => throw (Fault 4)
  | Some d =>
      match d_write d with
      | None => throw (Fault 0)
      | Some FN_vga_write => on_cvga (vga_write fuel data len)
      | Some FN_write => write fuel data len
      end
  end.

(** kprintf, with its buffer at [text] and its arguments at [va]. *)
Definition kprintf_out (fuel : nat) (text va : Z) (level : log_level_t) (fmt : Z) : M console Z :=
  n ← on_cmem (vsprintf fuel text fmt tmp va);
  len ← on_cmem (strlen fuel text);
  com ← gets com_driver;
  device_write fuel com text len;;
  (if level_value INFO <=? level_value level then
     len ← on_cmem (strlen fuel text);
     vga ← gets vga_driver;
     device_write fuel vga text len;; mret tt
   else mret tt);;
  mret n.
End console.
