(* ===== verification/FormatSpec.v ===== *)
(** What vsprintf does with a whole format: the text is the concatenation of
    the texts of the plain characters and of the conversions, each conversion
    with its flags, field width and precision, and its argument from the stack.

    A format is described by its pieces; [src] is how a piece is written in
    the format string, [text] what it prints, [words] the argument words it
    takes. *)

From S2P Require Import Prelude Memory CString Utils Vsprintf.

(** ** Formats *)

(** The part between the percent sign and the conversion character. *)
Record spec : Type := Spec { sp_flags : list Z; sp_width : option Z; sp_prec : option Z }.

Inductive piece : Type :=
  | PChar (c : Z)
  | PByte (sp : spec) (w : Z)
  | PStr (sp : spec) (p : Z) (l : list Z)
  | PNum (sp : spec) (c w : Z).

Definition is_flag (c : Z) : bool := (c =? 35) || (c =? 48) || (c =? 45) || (c =? 43) || (c =? 32).

Definition flag_step (flags c : Z) : Z :=
  if c =? 35 then Z.lor flags PREFIX
  else if c =? 48 then (if negb (has flags LEFT) then Z.lor flags ZEROS else flags)
  else if c =? 45 then Z.lor (Z.land flags (Z.lnot ZEROS)) LEFT
  else if c =? 43 then Z.lor flags PLUS
  else Z.lor (Z.land flags (Z.lnot PLUS)) SPACE.

Definition flags_of (sp : spec) : Z := foldl flag_step 0 (sp_flags sp).

Definition spec_src (sp : spec) : list Z :=
  sp_flags sp ++ from_option (numeral 10) [] (sp_width sp) ++
  from_option (fun p => 46 :: numeral 10 p) [] (sp_prec sp).

(** The bases of the number conversions, and the flag that goes with them. *)
Definition conv_num (c : Z) : option (Z * Z) :=
  if (c =? 100) || (c =? 105) then Some (10, SIGNED)
  else if c =? 117 then Some (10, 0)
  else if c =? 111 then Some (8, 0)
  else if c =? 88 then Some (16, LARGE)
  else if c =? 120 then Some (16, 0)
  else if c =? 98 then Some (2, 0)
  else None.

Definition conv_char (p : piece) : Z :=
  match p with PChar c => c | PByte _ _ => 99 | PStr _ _ _ => 115 | PNum _ c _ => c end.

Definition src (p : piece) : list Z :=
  match p with
  | PChar c => [c]
  | PByte sp _ | PStr sp _ _ | PNum sp _ _ => 37 :: spec_src sp ++ [conv_char p]
  end.

Definition words (p : piece) : list Z :=
  match p with PChar _ => [] | PByte _ w => [w] | PStr _ p _ => [p] | PNum _ _ w => [w] end.

Definition text (p : piece) : list Z :=
  match p with
  | PChar c => [c]
  | PByte _ w => [u8 w]
  | PStr _ _ l => l
  | PNum sp c w =>
      match conv_num c with
      | Some (base, f) => number_text w base (default (-1) (sp_width sp)) (default (-1) (sp_prec sp)) (Z.lor (flags_of sp) f)
      | None => []
      end
  end.

Definition format_src (ps : list piece) : list Z := ps ≫= src.
Definition format_text (ps : list piece) : list Z := ps ≫= text.
Definition format_words (ps : list piece) : list Z := ps ≫= words.

(** Widths and precisions are numbers of at most 31 bits; a width has no
    leading zero, which would be a flag. *)
Record spec_ok (sp : spec) : Prop := {
  so_flags : Forall (fun c => is_flag c = true) (sp_flags sp);
  so_width : forall v, sp_width sp = Some v -> 1 <= v < 2 ^ 31;
  so_prec : forall v, sp_prec sp = Some v -> 0 <= v < 2 ^ 31
}.

Definition piece_ok (p : piece) : Prop :=
  match p with
  | PChar c => 0 <= c < 256 /\ c <> 37
  | PByte sp w => spec_ok sp /\ 0 <= w < 2 ^ 32
  | PStr sp p l => spec_ok sp /\ 0 <= p < 2 ^ 32 /\ (length l < 1024)%nat
  | PNum sp c w => spec_ok sp /\ 0 <= w < 2 ^ 32 /\ is_Some (conv_num c)
  end.

(** ** Memory during the call *)

Section format.
Context (buf tmp size : Z) (m0 : mem).

(** Memory outside the two buffers. *)
Definition safe (a n : Z) : Prop :=
  (a + n <= buf \/ buf + size <= a) /\ (a + n <= tmp \/ tmp + 1024 <= a).

Record frame (m : mem) : Prop := {
  fr_pages : m_pages m = m_pages m0;
  fr_bytes : forall x, safe x 1 -> byte_at m x = byte_at m0 x
}.

Lemma frame_write m m' a n :
  frame m -> only_in m m' a n -> (buf <= a /\ a + n <= buf + size) \/ (tmp <= a /\ a + n <= tmp + 1024) -> frame m'.
Proof.
  intros [Fp Fb] [Op Ob] Hr. split; [congruence|]. intros x [S1 S2]. rewrite Ob by lia. apply Fb. split; lia.
Qed.

Lemma frame_changes m : frame m -> changes (fun x => buf <= x < buf + size \/ tmp <= x < tmp + 1024) m0 m.
Proof. intros [Fp Fb]. split; [done|]. intros x Hx. apply Fb. split; lia. Qed.

Lemma frame_bytes m a l :
  frame m -> bytes_at m0 a l -> safe a (Z.of_nat (length l)) -> bytes_at m a l.
Proof.
  intros F Hb [S1 S2]. eapply changes_bytes_at; [by apply frame_changes | done |]. intros x Hx. lia.
Qed.

Lemma frame_present m a n : frame m -> present m0 a n -> present m a n.
Proof. intros F. apply present_pages. by rewrite (fr_pages _ F). Qed.

Lemma frame_cstring m a l : frame m -> cstring m0 a l -> safe a (Z.of_nat (length l) + 1) -> cstring m a l.
Proof.
  intros F C [S1 S2]. eapply changes_cstring; [by apply frame_changes | done |]. intros x Hx. lia.
Qed.
End format.

(** ** Parsing *)

Lemma char_at m a c l : bytes_at m a (c :: l) -> 0 <= c < 128 -> load_char a m = Ok (c, m).
Proof.
  intros [[P E] _]%bytes_at_cons Hc. rewrite load_char_ok by done. rewrite E.
  unfold s8. rewrite Z.mod_small by lia. do 2 f_equal. lia.
Qed.

Lemma bytes_at_tail m a c l : bytes_at m a (c :: l) -> bytes_at m (a + 1) l.
Proof. by intros [_ B]%bytes_at_cons. Qed.

Lemma flag_range c : is_flag c = true -> 0 <= c < 128.
Proof. unfold is_flag. rewrite !orb_true_iff, !Z.eqb_eq. lia. Qed.

Lemma parse_flags_ok m fmt fl c fuel i flags :
  bytes_at m (fmt + (i + 1)) (fl ++ [c]) -> Forall (fun c => is_flag c = true) fl ->
  0 <= c < 128 -> is_flag c = false -> (length fl < fuel)%nat ->
  parse_flags fuel fmt i flags m = Ok ((i + Z.of_nat (length fl), foldl flag_step flags fl), m).
Proof.
  intros B F Hc Hf. revert fuel i flags B. induction F as [|x fl Hx _ IH]; intros [|fuel] i flags B L;
    cbn [length app] in *; try lia; cbn [parse_flags].
  - rewrite (bind_ok _ _ _ _ _ (char_at _ _ _ _ B Hc)). unfold is_flag in Hf.
    rewrite !orb_false_iff in Hf. destruct Hf as [[[[-> ->] ->] ->] ->]. rewrite ret_ok. cbn. by rewrite Z.add_0_r.
  - rewrite (bind_ok _ _ _ _ _ (char_at _ _ _ _ B (flag_range _ Hx))).
    apply bytes_at_tail in B. replace (fmt + (i + 1) + 1) with (fmt + (i + 1 + 1)) in B by lia.
    assert (R := fun fl' => IH fuel (i + 1) fl' B ltac:(lia)).
    replace (i + Z.of_nat (S (length fl))) with (i + 1 + Z.of_nat (length fl)) by lia.
    cbn [foldl]. rewrite <- R. unfold flag_step. unfold is_flag in Hx.
    destruct (x =? 35), (x =? 48), (x =? 45), (x =? 43), (x =? 32); done.
Qed.

Lemma digit_range c : is_digit c = true -> 0 <= c < 128.
Proof. unfold is_digit. rewrite andb_true_iff, !Z.leb_le. lia. Qed.

Lemma copy_digits_ok ds fmt tmp c fuel i k m :
  bytes_at m (fmt + (i + 1)) (ds ++ [c]) -> Forall (fun c => is_digit c = true) ds ->
  0 <= c < 128 -> is_digit c = false -> (length ds < fuel)%nat ->
  present m (tmp + k) (Z.of_nat (length ds)) ->
  (fmt + (i + 1) + Z.of_nat (length ds) + 1 <= tmp + k \/ tmp + k + Z.of_nat (length ds) <= fmt + (i + 1)) ->
  exists m', copy_digits fuel fmt tmp i k m = Ok ((i + Z.of_nat (length ds), k + Z.of_nat (length ds)), m') /\
    only_in m m' (tmp + k) (Z.of_nat (length ds)) /\ bytes_at m' (tmp + k) ds.
Proof.
  intros B F Hc Hd. revert fuel i k m B. induction F as [|x ds Hx F' IH]; intros [|fuel] i k m B L P D;
    cbn [length app] in *; try lia; cbn [copy_digits].
  - rewrite (bind_ok _ _ _ _ _ (char_at _ _ _ _ B Hc)), Hd, !Z.add_0_r. exists m. split; [done|].
    split; [done | apply bytes_at_nil].
  - assert (Xr := digit_range _ Hx). rewrite (bind_ok _ _ _ _ _ (char_at _ _ _ _ B Xr)), Hx.
    rewrite (bind_ok _ _ _ _ _ (store8_ok _ _ x (present_first _ _ _ P ltac:(lia)))).
    set (m1 := set_byte (tmp + k) x m).
    assert (O1 : only_in m m1 (tmp + k) 1) by (apply only_in_byte; lia).
    destruct (IH fuel (i + 1) (k + 1) m1) as (m' & E & O & B').
    + replace (fmt + (i + 1 + 1)) with (fmt + (i + 1) + 1) by lia. apply bytes_at_tail in B.
      eapply bytes_at_only_in; [exact O1 | exact B |]. rewrite length_app. cbn [length]. lia.
    + lia.
    + replace (tmp + (k + 1)) with (tmp + k + 1) by lia. eapply present_pages; [done|].
      eapply present_sub; [exact P | lia | lia].
    + lia.
    + exists m'. rewrite E. split; [do 3 f_equal; lia|].
      replace (tmp + (k + 1)) with (tmp + k + 1) in * by lia. split.
      * eapply only_in_trans; [eapply only_in_sub; [exact O1 | lia | lia] | eapply only_in_sub; [exact O | lia | lia]].
      * apply bytes_at_cons. split; [|done]. split.
        -- unfold page_present. rewrite (oi_pages _ _ _ _ O). apply (present_first _ _ _ P). lia.
        -- rewrite (oi_bytes _ _ _ _ O) by lia. unfold m1. rewrite byte_at_set_same. apply u8_small. lia.
Qed.

Lemma numeral_digits v : Forall (fun c => is_digit c = true) (numeral 10 v).
Proof.
  eapply Forall_impl; [apply (numeral_is_numeral 10 v); lia|]. intros c (d & Hd & ->).
  unfold digit_char, is_digit. destruct (Z.ltb_spec d 10); [|lia]. zbool.
Qed.

(** A width starts with a digit other than 0. *)
Lemma numeral_first v : 1 <= v < 2 ^ 31 ->
  exists c l, numeral 10 v = c :: l /\ is_digit c = true /\ 0 <= c < 128 /\ is_flag c = false.
Proof.
  intros Hv. destruct (numeral_head 10 v) as (d & l & E & Hd); [lia | lia |].
  exists (digit_char d), l. split; [done|]. unfold digit_char, is_digit, is_flag.
  destruct (Z.ltb_spec d 10); [|lia]. split_and!; [zbool | lia | lia | zbool].
Qed.

(** A number in the format is read through the scratch buffer. *)
Lemma parse_number_ok m fmt tmp fuel i v c :
  bytes_at m (fmt + (i + 1)) (numeral 10 v ++ [c]) -> 0 <= v < 2 ^ 31 -> 0 <= c < 128 -> is_digit c = false ->
  (34 < fuel)%nat -> present m tmp 1024 ->
  (fmt + (i + 1) + Z.of_nat (length (numeral 10 v)) + 1 <= tmp \/ tmp + 1024 <= fmt + (i + 1)) ->
  exists m', parse_number fuel fmt tmp i m = Ok ((i + Z.of_nat (length (numeral 10 v)), v), m') /\
    only_in m m' tmp 1024.
Proof.
  intros B Hv Hc Hd Hf P D. pose proof (numeral_length 10 v) as L. set (ds := numeral 10 v) in *.
  destruct (copy_digits_ok ds fmt tmp c fuel i 0 m) as (m1 & E1 & O1 & B1); try done; rewrite ?Z.add_0_r;
    [apply numeral_digits | lia | eapply present_sub; [exact P | lia | lia] | lia |].
  rewrite Z.add_0_r in O1, B1. unfold parse_number. rewrite (bind_ok _ _ _ _ _ E1). cbn [Z.add].
  assert (P1 : page_present m1 (tmp + Z.of_nat (length ds)) = true).
  { unfold page_present. rewrite (oi_pages _ _ _ _ O1). apply P. lia. }
  rewrite (bind_ok _ _ _ _ _ (store8_ok _ _ _ P1)). set (m2 := set_byte (tmp + Z.of_nat (length ds)) 0 m1).
  assert (C : cstring m2 tmp ds).
  { split.
    - apply bytes_at_app. split.
      + eapply bytes_at_only_in; [apply (only_in_byte m1 _ 0 (tmp + Z.of_nat (length ds)) 1); lia | done | lia].
      + apply bytes_at_one. split; [done|]. apply byte_at_set_same.
    - eapply Forall_impl; [apply (numeral_digits v)|]. intros x Hx. unfold is_digit in Hx.
      apply andb_true_iff in Hx as [?%Z.leb_le ?%Z.leb_le]. lia. }
  rewrite (bind_ok _ _ _ _ _ (atoi_numeral m2 tmp v fuel ltac:(lia) C ltac:(lia))), ret_ok, s32_small by lia.
  exists m2. split; [done|]. eapply only_in_trans; [eapply only_in_sub; [exact O1 | lia | lia]|].
  apply only_in_byte. lia.
Qed.

(** A conversion character. *)
Definition is_conv (c : Z) : bool :=
  (0 <=? c) && (c <? 128) && negb (is_flag c) && negb (is_digit c) && negb (c =? 42) && negb (c =? 46).

(** The three parts of a specification, in front of the conversion character. *)
Lemma parse_width_ok m fmt tmp fuel i flags args w c :
  bytes_at m (fmt + (i + 1)) (from_option (numeral 10) [] w ++ [c]) -> (forall v, w = Some v -> 1 <= v < 2 ^ 31) ->
  0 <= c < 128 -> is_digit c = false -> c <> 42 -> (34 < fuel)%nat -> present m tmp 1024 ->
  let n := Z.of_nat (length (from_option (numeral 10) [] w)) in
  (fmt + (i + 1) + n + 1 <= tmp \/ tmp + 1024 <= fmt + (i + 1)) ->
  exists m', parse_width fuel fmt tmp i flags args m = Ok ((i + n, default (-1) w, flags, args), m') /\
    only_in m m' tmp 1024.
Proof.
  intros B Hw Hc Hd H42 Hf P n D. unfold parse_width. destruct w as [v|]; cbn [from_option app] in *.
  - destruct (numeral_first v (Hw _ eq_refl)) as (x & l & E & Hx & Xr & _). assert (B' := B). rewrite E in B'.
    cbn [app] in B'. rewrite (bind_ok _ _ _ _ _ (char_at _ _ _ _ B' Xr)), Hx.
    specialize (Hw v eq_refl). destruct (parse_number_ok m fmt tmp fuel i v c) as (m' & R & O); try done; [lia|].
    exists m'. by rewrite (bind_ok _ _ _ _ _ R).
  - rewrite (bind_ok _ _ _ _ _ (char_at _ _ _ _ B Hc)), Hd. destruct (Z.eqb_spec c 42); [done|].
    exists m. cbn in n. unfold n. by rewrite Z.add_0_r.
Qed.

Lemma parse_precision_ok m fmt tmp fuel i args p c :
  bytes_at m (fmt + (i + 1)) (from_option (fun v => 46 :: numeral 10 v) [] p ++ [c]) ->
  (forall v, p = Some v -> 0 <= v < 2 ^ 31) -> 0 <= c < 128 -> is_digit c = false -> c <> 46 ->
  (34 < fuel)%nat -> present m tmp 1024 ->
  let n := Z.of_nat (length (from_option (fun v => 46 :: numeral 10 v) [] p)) in
  (fmt + (i + 1) + n + 1 <= tmp \/ tmp + 1024 <= fmt + (i + 1)) ->
  exists m', parse_precision fuel fmt tmp i args m = Ok ((i + n, default (-1) p, args), m') /\
    only_in m m' tmp 1024.
Proof.
  intros B Hp Hc Hd H46 Hf P n D. unfold parse_precision. destruct p as [v|]; cbn [from_option app length] in *.
  - rewrite (bind_ok _ _ _ _ _ (char_at _ _ _ _ B ltac:(lia))). cbn [Z.eqb Pos.eqb].
    apply bytes_at_tail in B. replace (fmt + (i + 1) + 1) with (fmt + (i + 1 + 1)) in B by lia.
    specialize (Hp v eq_refl). assert (exists x l, numeral 10 v = x :: l) as (x & l & E).
    { destruct (decide (v = 0)) as [->|]; [rewrite numeral_zero by done; eauto|].
      destruct (numeral_first v) as (x & l & E & _); [lia | eauto]. }
    assert (B' := B). rewrite E in B'. cbn [app] in B'.
    assert (Hx : is_digit x = true) by (pose proof (numeral_digits v) as F; rewrite E in F; by inversion F).
    rewrite (bind_ok _ _ _ _ _ (char_at _ _ _ _ B' (digit_range _ Hx))), Hx.
    destruct (parse_number_ok m fmt tmp fuel (i + 1) v c) as (m' & R & O); try done; [unfold n in *; lia|].
    exists m'. unfold mbind at 1, M_bind at 1. rewrite (bind_ok _ _ _ _ _ R), ret_ok.
    destruct (Z.ltb_spec v 0); [lia|]. rewrite ret_ok. split; [|done]. do 4 f_equal. unfold n. lia.
  - rewrite (bind_ok _ _ _ _ _ (char_at _ _ _ _ B Hc)). destruct (Z.eqb_spec c 46); [done|].
    exists m. cbn in n. unfold n. by rewrite Z.add_0_r.
Qed.

Lemma bytes_at_prefix m a l1 x l2 : bytes_at m a (l1 ++ x :: l2) -> bytes_at m a (l1 ++ [x]).
Proof. rewrite !bytes_at_app. intros [B1 B2]. split; [done|]. apply bytes_at_cons in B2 as [B2 _].
  apply bytes_at_one. tauto. Qed.

Lemma is_conv_parts c : is_conv c = true ->
  0 <= c < 128 /\ is_flag c = false /\ is_digit c = false /\ c <> 42 /\ c <> 46.
Proof.
  unfold is_conv. rewrite !andb_true_iff, !negb_true_iff, Z.leb_le, Z.ltb_lt, !Z.eqb_neq. tauto.
Qed.

(** A specification is read up to the conversion character. *)
Lemma step_spec m fuel buf fmt tmp i loc args sp c :
  spec_ok sp -> is_conv c = true -> bytes_at m (fmt + i) (37 :: spec_src sp ++ [c]) ->
  let n := Z.of_nat (length (spec_src sp)) in
  (Z.of_nat 34 + n < Z.of_nat fuel) -> present m tmp 1024 ->
  (fmt + i + n + 2 <= tmp \/ tmp + 1024 <= fmt + i) ->
  exists m', format_step fuel buf fmt tmp i loc args m =
      convert fuel buf fmt tmp (i + n) loc args (default (-1) (sp_width sp)) (default (-1) (sp_prec sp))
        (flags_of sp) m' /\ only_in m m' tmp 1024.
Proof.
  intros [Sf Sw Sp] (Hc & Hfl & Hd & H42 & H46)%is_conv_parts B n Hf P D.
  unfold spec_src in *. set (W := from_option (numeral 10) [] (sp_width sp)) in *.
  set (Q := from_option (fun p => 46 :: numeral 10 p) [] (sp_prec sp)) in *.
  unfold format_step. rewrite (bind_ok _ _ _ _ _ (char_at _ _ _ _ B ltac:(lia))). cbn [Z.eqb Pos.eqb].
  apply bytes_at_tail in B. rewrite <- !app_assoc in B. rewrite <- Z.add_assoc in B.
  assert (exists x l, Q ++ [c] = x :: l /\ 0 <= x < 128 /\ is_flag x = false /\ is_digit x = false /\ x <> 42)
    as (x & lx & Ex & Xr & Xf & Xd & X42).
  { unfold Q. destruct (sp_prec sp); cbn [from_option app]; eexists _, _; split; [done|done|done|done]. }
  assert (exists y l, W ++ Q ++ [c] = y :: l /\ 0 <= y < 128 /\ is_flag y = false) as (y & ly & Ey & Yr & Yf).
  { rewrite Ex. unfold W in *. destruct (sp_width sp) as [v|]; cbn [from_option app]; [|by eexists _, _].
    destruct (numeral_first v (Sw _ eq_refl)) as (y & l & -> & _ & Yr & Yf). by eexists _, _. }
  assert (Ln : n = Z.of_nat (length (sp_flags sp)) + Z.of_nat (length W) + Z.of_nat (length Q))
    by (unfold n; rewrite !length_app; lia).
  assert (B1 : bytes_at m (fmt + (i + 1)) (sp_flags sp ++ [y])) by (rewrite Ey in B; by apply bytes_at_prefix in B).
  rewrite (bind_ok _ _ _ _ _ (parse_flags_ok m fmt (sp_flags sp) y fuel i 0 B1 Sf Yr Yf ltac:(lia))).
  apply bytes_at_app in B as [_ B]. set (i1 := i + Z.of_nat (length (sp_flags sp))).
  replace (fmt + (i + 1) + Z.of_nat (length (sp_flags sp))) with (fmt + (i1 + 1)) in B by (unfold i1; lia).
  assert (B2 : bytes_at m (fmt + (i1 + 1)) (W ++ [x])) by (rewrite Ex in B; by apply bytes_at_prefix in B).
  destruct (parse_width_ok m fmt tmp fuel i1 (foldl flag_step 0 (sp_flags sp)) args (sp_width sp) x)
    as (m1 & E1 & O1); try done; [lia | fold W; unfold i1; lia |]. fold W in E1.
  rewrite (bind_ok _ _ _ _ _ E1). apply bytes_at_app in B as [_ B].
  set (i2 := i1 + Z.of_nat (length W)) in *.
  replace (fmt + (i1 + 1) + Z.of_nat (length W)) with (fmt + (i2 + 1)) in B by (unfold i2; lia).
  destruct (parse_precision_ok m1 fmt tmp fuel i2 args (sp_prec sp) c) as (m2 & E2 & O2); try done.
  - fold Q. eapply bytes_at_only_in; [exact O1 | exact B |]. rewrite length_app. cbn [length]. unfold i2, i1. lia.
  - lia.
  - eapply only_in_present; [exact O1 | done].
  - fold Q. unfold i2, i1. lia.
  - fold Q in E2. rewrite (bind_ok _ _ _ _ _ E2). exists m2.
    replace (i2 + Z.of_nat (length Q)) with (i + n) by (unfold i2, i1; lia).
    split; [done|]. by eapply only_in_trans.
Qed.

(** ** Conversions *)

Lemma conv_num_char c : is_Some (conv_num c) ->
  c = 100 \/ c = 105 \/ c = 117 \/ c = 111 \/ c = 88 \/ c = 120 \/ c = 98.
Proof.
  unfold conv_num. intros [b E]. repeat match type of E with context [?a =? ?b] => destruct (Z.eqb_spec a b); [tauto|] end.
  done.
Qed.

Lemma convert_num m fuel buf fmt tmp i loc args w p flags c base f :
  load_char (fmt + (i + 1)) m = Ok (c, m) -> conv_num c = Some (base, f) ->
  convert fuel buf fmt tmp i loc args w p flags m =
  ('(val, args) ← va_arg args;
   r ← number (buf + loc) val base w p (Z.lor flags f);
   mret (i + 1, u32 (loc + r), args)) m /\ 2 <= base <= 36.
Proof.
  intros L E. unfold convert. rewrite (bind_ok _ _ _ _ _ L).
  destruct (conv_num_char c ltac:(eauto)) as [->|[->|[->|[->|[->|[->| ->]]]]]];
    injection E as <- <-; rewrite ?Z.lor_0_r; split; (reflexivity || lia).
Qed.

Section rendering.
Context (buf fmt tmp size : Z) (m0 : mem).
Context (Hsep : buf + size <= tmp \/ tmp + 1024 <= buf) (Hsize : 0 <= size < 2 ^ 32).
Context (Pbuf : present m0 buf size) (Ptmp : present m0 tmp 1024).

(** The argument words of a piece are at [args], and its string is in memory. *)
Definition args_at (args : Z) (p : piece) : Prop :=
  (forall w, words p = [w] -> word_present m0 args = true /\ word_at m0 args = w /\ safe buf tmp size args 4) /\
  match p with PStr _ q l => cstring m0 q l /\ safe buf tmp size q (Z.of_nat (length l) + 1) | _ => True end.

Definition room (p : piece) : Z :=
  Z.of_nat (length (text p)) + match p with PStr _ _ _ => 1 | _ => 0 end.

(** What one round of the loop does with a piece. *)
Definition stepped (m m' : mem) (loc loc' : Z) (p : piece) : Prop :=
  u32 (loc' + 1) = loc + Z.of_nat (length (text p)) /\ frame buf tmp size m0 m' /\
  bytes_at m' (buf + loc) (text p) /\ (forall x, buf <= x < buf + loc -> byte_at m' x = byte_at m x).

Lemma frame_word m args w :
  frame buf tmp size m0 m -> word_present m0 args = true -> word_at m0 args = w -> safe buf tmp size args 4 ->
  va_arg args m = Ok ((w, args + 4), m).
Proof.
  intros [Fp Fb] P E [S1 S2]. unfold va_arg. rewrite (bind_ok _ _ m w m); [done|].
  assert (Pm : word_present m args = true) by (unfold word_present, page_present in *; by rewrite Fp).
  rewrite load32_ok by done. do 2 f_equal. rewrite <- E. unfold word_at. rewrite !Fb; [done | split; lia..].
Qed.

(** The scratch buffer does not overlap the text. *)
Lemma scratch_text m m' loc x :
  only_in m m' tmp 1024 -> loc <= size -> buf <= x < buf + loc -> byte_at m' x = byte_at m x.
Proof. intros [_ O] H1 H2. apply O. lia. Qed.

Lemma step_char m fuel i loc args c :
  frame buf tmp size m0 m -> piece_ok (PChar c) -> bytes_at m (fmt + i) [c] -> 0 <= loc -> loc + 1 <= size ->
  exists m', format_step fuel buf fmt tmp i loc args m = Ok ((i, loc, args), m') /\ stepped m m' loc loc (PChar c).
Proof.
  intros F [Hc H37] [P E]%bytes_at_one H0 Hl.
  assert (Pb : page_present m (buf + loc) = true).
  { unfold page_present. rewrite (fr_pages _ _ _ _ _ F). apply Pbuf. lia. }
  rewrite format_step_plain by (try done; congruence). rewrite E. eexists. split; [done|].
  assert (O : only_in m (set_byte (buf + loc) (s8 c) m) (buf + loc) 1) by (apply only_in_byte; lia).
  split_and!; cbn [text length].
  - rewrite u32_small by lia. lia.
  - eapply frame_write; [exact F | exact O | lia].
  - apply bytes_at_one. split; [done|]. rewrite byte_at_set_same. by apply u8_s8.
  - intros x Hx. apply byte_at_set_other. lia.
Qed.

(** The parts that the conversions share: the specification and the character. *)
Lemma step_conv m fuel i loc args sp c :
  frame buf tmp size m0 m -> spec_ok sp -> is_conv c = true ->
  let l := 37 :: spec_src sp ++ [c] in
  bytes_at m0 (fmt + i) l -> safe buf tmp size (fmt + i) (Z.of_nat (length l)) ->
  Z.of_nat 34 + Z.of_nat (length l) < Z.of_nat fuel ->
  exists m', format_step fuel buf fmt tmp i loc args m =
      convert fuel buf fmt tmp (i + Z.of_nat (length l) - 2) loc args (default (-1) (sp_width sp))
        (default (-1) (sp_prec sp)) (flags_of sp) m' /\
    only_in m m' tmp 1024 /\ frame buf tmp size m0 m' /\
    load_char (fmt + (i + Z.of_nat (length l) - 2 + 1)) m' = Ok (c, m').
Proof.
  intros F Hsp Hc l B S Hf. assert (Bm := frame_bytes _ _ _ _ _ _ _ F B S).
  assert (Ll : Z.of_nat (length l) = Z.of_nat (length (spec_src sp)) + 2)
    by (unfold l; cbn [length]; rewrite length_app; cbn [length]; lia).
  assert (S2 := proj2 S). destruct (step_spec m fuel buf fmt tmp i loc args sp c) as (m' & E & O); try done.
  - lia.
  - by eapply frame_present.
  - lia.
  - exists m'. replace (i + Z.of_nat (length l) - 2) with (i + Z.of_nat (length (spec_src sp))) by lia.
    assert (F' : frame buf tmp size m0 m') by (eapply frame_write; [exact F | exact O | lia]).
    split_and!; [done | done | done |]. assert (B' := frame_bytes _ _ _ _ m' _ _ F' B S). clear B. rename B' into B.
    unfold l in B. apply bytes_at_tail, bytes_at_app in B as [_ B].
    replace (fmt + i + 1 + _) with (fmt + (i + Z.of_nat (length (spec_src sp)) + 1)) in B by lia.
    eapply char_at; [exact B|]. apply is_conv_parts in Hc. tauto.
Qed.

(** The memory after text was written at [loc], in a state reached through the
    scratch buffer. *)
Lemma stepped_write m m1 m2 loc loc' p :
  only_in m m1 tmp 1024 -> frame buf tmp size m0 m1 -> only_in m1 m2 (buf + loc) (room p) ->
  0 <= loc -> loc + room p <= size -> u32 (loc' + 1) = loc + Z.of_nat (length (text p)) ->
  bytes_at m2 (buf + loc) (text p) -> stepped m m2 loc loc' p.
Proof.
  intros O1 F1 O2 H0 Hr Hl B. assert (0 <= room p) by (unfold room; destruct p; lia). split_and!; [done | | done |].
  - eapply frame_write; [exact F1 | exact O2 | lia].
  - intros x Hx. rewrite (oi_bytes _ _ _ _ O2) by lia. apply (oi_bytes _ _ _ _ O1). lia.
Qed.

Lemma u32_last loc n : 0 <= loc -> 0 <= n -> loc + n < 2 ^ 32 -> u32 (u32 (loc + u32 (n - 1)) + 1) = loc + n.
Proof.
  intros. unfold u32. rewrite Zplus_mod_idemp_r, Zplus_mod_idemp_l. rewrite Z.mod_small; lia.
Qed.

Lemma step_num m fuel i loc args sp c w :
  let p := PNum sp c w in
  frame buf tmp size m0 m -> piece_ok p -> bytes_at m0 (fmt + i) (src p) ->
  safe buf tmp size (fmt + i) (Z.of_nat (length (src p))) -> args_at args p -> 0 <= loc -> loc + room p <= size ->
  Z.of_nat 34 + Z.of_nat (length (src p)) < Z.of_nat fuel ->
  exists m' loc', format_step fuel buf fmt tmp i loc args m =
    Ok ((i + Z.of_nat (length (src p)) - 1, loc', args + 4), m') /\ stepped m m' loc loc' p.
Proof.
  intros p F (Hsp & Hw & Hcn) B S [Ha _] H0 Hr Hf. destruct (Ha w eq_refl) as (Pw & Ew & Sw).
  assert (Hc : is_conv c = true) by (destruct (conv_num_char c Hcn) as [->|[->|[->|[->|[->|[->| ->]]]]]]; done).
  destruct (step_conv m fuel i loc args sp c F Hsp Hc B S Hf) as (m1 & E & O & F1 & L). rewrite E.
  destruct Hcn as [[base f] Hcn]. destruct (convert_num m1 fuel buf fmt tmp _ loc args (default (-1) (sp_width sp))
    (default (-1) (sp_prec sp)) (flags_of sp) c base f L Hcn) as [-> Hb].
  rewrite (bind_ok _ _ _ _ _ (frame_word _ _ _ F1 Pw Ew Sw)).
  assert (Et : text p = number_text w base (default (-1) (sp_width sp)) (default (-1) (sp_prec sp)) (Z.lor (flags_of sp) f))
    by (unfold p, text; by rewrite Hcn).
  assert (Er : room p = Z.of_nat (length (text p))) by (unfold room; cbn; lia).
  destruct (number_run (buf + loc) w base (default (-1) (sp_width sp)) (default (-1) (sp_prec sp))
    (Z.lor (flags_of sp) f) m1 Hb) as (m2 & R & Bt & O2); rewrite <- Et in *.
  { eapply present_sub; [eapply frame_present; [exact F1 | exact Pbuf] | lia | lia]. }
  rewrite (bind_ok _ _ _ _ _ R). eexists m2, _. rewrite ret_ok.
  split; [do 4 f_equal; change (src p) with (37 :: spec_src sp ++ [c]); lia|].
  eapply stepped_write; [exact O | exact F1 | by rewrite Er | done | done | | done].
  apply u32_last; lia.
Qed.

Lemma step_byte m fuel i loc args sp w :
  let p := PByte sp w in
  frame buf tmp size m0 m -> piece_ok p -> bytes_at m0 (fmt + i) (src p) ->
  safe buf tmp size (fmt + i) (Z.of_nat (length (src p))) -> args_at args p -> 0 <= loc -> loc + room p <= size ->
  Z.of_nat 34 + Z.of_nat (length (src p)) < Z.of_nat fuel ->
  exists m' loc', format_step fuel buf fmt tmp i loc args m =
    Ok ((i + Z.of_nat (length (src p)) - 1, loc', args + 4), m') /\ stepped m m' loc loc' p.
Proof.
  intros p F (Hsp & Hw) B S [Ha _] H0 Hr Hf. destruct (Ha w eq_refl) as (Pw & Ew & Sw).
  destruct (step_conv m fuel i loc args sp 99 F Hsp eq_refl B S Hf) as (m1 & E & O & F1 & L). rewrite E.
  unfold convert. rewrite (bind_ok _ _ _ _ _ L). cbn [Z.eqb Pos.eqb].
  assert (Pa : page_present m1 args = true).
  { unfold page_present. rewrite (fr_pages _ _ _ _ _ F1). unfold word_present in Pw.
    apply andb_true_iff in Pw as [Pw _]. exact Pw. }
  assert (Eb : byte_at m1 args = u8 w).
  { rewrite (fr_bytes _ _ _ _ _ F1) by (destruct Sw; split; lia). rewrite <- Ew. unfold word_at, u8.
    pose proof (byte_at_range m0 args). Z.div_mod_to_equations. lia. }
  rewrite (bind_ok _ _ _ _ _ (load8_ok _ _ Pa)), Eb.
  assert (Pb : page_present m1 (buf + loc) = true).
  { unfold page_present. rewrite (fr_pages _ _ _ _ _ F1). apply Pbuf. unfold room in Hr. cbn in Hr. lia. }
  rewrite (bind_ok _ _ _ _ _ (store8_ok _ _ _ Pb)). eexists _, loc. rewrite ret_ok.
  split; [do 4 f_equal; change (src p) with (37 :: spec_src sp ++ [99]); lia|].
  eapply stepped_write; [exact O | exact F1 | apply only_in_byte; unfold room; cbn; lia | done | done | |].
  - cbn. unfold room in Hr. cbn in Hr. apply u32_small. lia.
  - apply bytes_at_one. split; [done|]. rewrite byte_at_set_same. apply u8_small, u8_range.
Qed.

(** strncpy of a string that is short enough copies all of it. *)
Lemma strncpy_all m d q l :
  cstring m q l -> (length l < 1024)%nat -> present m d (Z.of_nat (length l) + 1) ->
  d + Z.of_nat (length l) + 1 <= q \/ q + Z.of_nat (length l) + 1 <= d ->
  exists m', strncpy d q 1024 m = Ok (d, m') /\ cstring m' d l /\ only_in m m' d (Z.of_nat (length l) + 1).
Proof.
  intros C Hl P D. destruct (strncpy_ok m d q l 1024 C) as (m' & E & Pg & C' & O);
    replace (min (Z.to_nat 1024) (length l)) with (length l) in * by lia; try done.
  exists m'. rewrite take_ge in C' by lia. split_and!; [done | done | split; [done|]].
  intros x Hx. apply O. lia.
Qed.

Lemma step_str m fuel i loc args sp q l :
  let p := PStr sp q l in
  frame buf tmp size m0 m -> piece_ok p -> bytes_at m0 (fmt + i) (src p) ->
  safe buf tmp size (fmt + i) (Z.of_nat (length (src p))) -> args_at args p -> 0 <= loc -> loc + room p <= size ->
  Z.of_nat 34 + Z.of_nat (length (src p)) < Z.of_nat fuel -> (1024 <= fuel)%nat ->
  exists m' loc', format_step fuel buf fmt tmp i loc args m =
    Ok ((i + Z.of_nat (length (src p)) - 1, loc', args + 4), m') /\ stepped m m' loc loc' p.
Proof.
  intros p F (Hsp & Hq & Hl) B S [Ha [Cq Sq]] H0 Hr Hf Hf'. destruct (Ha q eq_refl) as (Pw & Ew & Sw).
  destruct (step_conv m fuel i loc args sp 115 F Hsp eq_refl B S Hf) as (m1 & E & O & F1 & L). rewrite E.
  unfold convert. rewrite (bind_ok _ _ _ _ _ L). cbn [Z.eqb Pos.eqb].
  rewrite (bind_ok _ _ _ _ _ (frame_word _ _ _ F1 Pw Ew Sw)).
  change (room p) with (Z.of_nat (length l) + 1) in Hr.
  assert (C1 := frame_cstring _ _ _ _ _ _ _ F1 Cq Sq). destruct Sq as [_ Sq].
  assert (P1 := frame_present _ _ _ _ _ _ _ F1 Ptmp). assert (P2 := frame_present _ _ _ _ _ _ _ F1 Pbuf).
  destruct (strncpy_all m1 tmp q l C1 Hl) as (m2 & R2 & C2 & O2);
    [eapply present_sub; [exact P1 | lia | lia] | lia |]. rewrite (bind_ok _ _ _ _ _ R2).
  destruct (strncpy_all m2 (buf + loc) tmp l C2 Hl) as (m3 & R3 & C3 & O3).
  { eapply only_in_present; [exact O2|]. eapply present_sub; [exact P2 | lia | lia]. }
  { lia. }
  rewrite (bind_ok _ _ _ _ _ R3).
  assert (C3' : cstring m3 tmp l).
  { destruct C2 as [C2 Fl]. split; [|done]. eapply bytes_at_only_in; [exact O3 | exact C2 |].
    rewrite length_app. cbn [length]. lia. }
  rewrite (bind_ok _ _ _ _ _ (strlen_ok m3 tmp l fuel C3' ltac:(lia))). eexists m3, _. rewrite ret_ok.
  split; [do 4 f_equal; change (src p) with (37 :: spec_src sp ++ [115]); lia|].
  assert (O12 : only_in m m2 tmp 1024)
    by (eapply only_in_trans; [exact O | eapply only_in_sub; [exact O2 | lia | lia]]).
  eapply stepped_write; [exact O12 | | exact O3 | done | done | |].
  - eapply frame_write; [exact F | exact O12 | lia].
  - cbn [text p]. unfold u32. rewrite Zplus_mod_idemp_l. rewrite Z.mod_small; lia.
  - destruct C3 as [C3 _]. by apply bytes_at_app in C3 as [C3 _].
Qed.

(** One round of the loop, for any piece. *)
Lemma piece_step m fuel i loc args p :
  frame buf tmp size m0 m -> piece_ok p -> bytes_at m0 (fmt + i) (src p) ->
  safe buf tmp size (fmt + i) (Z.of_nat (length (src p))) -> args_at args p -> 0 <= loc -> loc + room p <= size ->
  Z.of_nat 34 + Z.of_nat (length (src p)) < Z.of_nat fuel -> (1024 <= fuel)%nat ->
  exists m' loc', format_step fuel buf fmt tmp i loc args m =
    Ok ((i + Z.of_nat (length (src p)) - 1, loc', args + 4 * Z.of_nat (length (words p))), m') /\
    stepped m m' loc loc' p.
Proof.
  intros F Hp B S Ha H0 Hr Hf Hf'. destruct p as [c|sp w|sp q l|sp c w];
    cbn [words length]; change (4 * Z.of_nat 1) with 4; change (4 * Z.of_nat 0) with 0; rewrite ?Z.add_0_r.
  - destruct (step_char m fuel i loc args c F Hp) as (m' & E & St); [| done | unfold room in Hr; cbn in Hr; lia |].
    + apply (frame_bytes buf tmp size m0); try done.
    + exists m', loc. rewrite E. split; [|done]. do 4 f_equal. cbn [src length]. lia.
  - by apply step_byte.
  - by apply step_str.
  - by apply step_num.
Qed.

(** ** The loop *)

Fixpoint args_all (args : Z) (ps : list piece) : Prop :=
  match ps with
  | [] => True
  | p :: ps => args_at args p /\ args_all (args + 4 * Z.of_nat (length (words p))) ps
  end.

Fixpoint fits (loc : Z) (ps : list piece) : Prop :=
  match ps with
  | [] => True
  | p :: ps => loc + room p <= size /\ fits (loc + Z.of_nat (length (text p))) ps
  end.

Lemma src_nonempty p : (1 <= length (src p))%nat.
Proof. destruct p; cbn; lia. Qed.

Lemma format_loop_ok F0 ps fuel i loc args m :
  cstring m0 fmt F0 -> safe buf tmp size fmt (Z.of_nat (length F0) + 2) ->
  frame buf tmp size m0 m -> Forall piece_ok ps -> bytes_at m0 (fmt + i) (format_src ps) -> args_all args ps ->
  fits loc ps -> 0 <= i -> 0 <= loc -> loc <= size -> i + Z.of_nat (length (format_src ps)) = Z.of_nat (length F0) + 2 ->
  (length ps + length F0 + 1100 <= fuel)%nat ->
  exists m', format_loop fuel buf fmt tmp i loc args m = Ok (Z.of_nat (length F0) + 2, m') /\
    frame buf tmp size m0 m' /\ bytes_at m' (buf + loc) (format_text ps) /\
    (forall x, buf <= x < buf + loc -> byte_at m' x = byte_at m x).
Proof.
  intros C [S1 S2]. revert fuel i loc args m. induction ps as [|p ps IH];
    intros [|fuel] i loc args m F Hps B Ha Hfit H0 Hl Hls Hi Hf; cbn [length] in *; try lia.
  all: assert (Cm : cstring m fmt F0) by (apply (frame_cstring buf tmp size m0); try done; split; lia).
  all: cbn [format_loop]; rewrite (bind_ok _ _ _ _ _ (strlen_ok m fmt F0 fuel Cm ltac:(lia))).
  { destruct (Z.leb_spec i (Z.of_nat (length F0) + 1)); [cbn in Hi; lia|]. exists m. rewrite ret_ok.
    split; [do 2 f_equal; cbn in Hi; lia|]. split_and!; [done | apply bytes_at_nil | done]. }
  change (format_src (p :: ps)) with (src p ++ format_src ps) in *. rewrite length_app in Hi.
  pose proof (src_nonempty p) as Hne. apply Forall_cons in Hps as [Hp Hps]. destruct Ha as [Ha Has].
  destruct Hfit as [Hr Hfit]. apply bytes_at_app in B as [B Bs].
  destruct (Z.leb_spec i (Z.of_nat (length F0) + 1)); [|lia].
  destruct (piece_step m fuel i loc args p) as (m1 & loc1 & E1 & El & F1 & B1 & K1); try done; [split; lia | lia | lia |].
  rewrite (bind_ok _ _ _ _ _ E1), El.
  destruct (IH fuel (i + Z.of_nat (length (src p)) - 1 + 1) (loc + Z.of_nat (length (text p)))
    (args + 4 * Z.of_nat (length (words p))) m1) as (m' & E & F' & B' & K'); try done; try lia.
  - replace (fmt + (i + Z.of_nat (length (src p)) - 1 + 1)) with (fmt + i + Z.of_nat (length (src p))) by lia. done.
  - unfold room in Hr. destruct p; lia.
  - exists m'. split; [done|]. split; [done|]. split.
    + change (format_text (p :: ps)) with (text p ++ format_text ps). apply bytes_at_app.
      rewrite <- Z.add_assoc. split; [|done]. intros k c Hk. destruct (B1 k c Hk) as [P Ek].
      pose proof (lookup_lt_Some _ _ _ Hk). split.
      * unfold page_present in *. by rewrite (fr_pages _ _ _ _ _ F'), <- (fr_pages _ _ _ _ _ F1).
      * rewrite K' by lia. done.
    + intros x Hx. rewrite K' by lia. by apply K1.
Qed.
End rendering.

Lemma fits_end size loc ps b :
  loc + Z.of_nat (length (format_text ps)) + 2 <= size -> fits size loc (ps ++ [PChar 0; PChar b]).
Proof.
  revert loc. induction ps as [|p ps IH]; intros loc Hl.
  - cbn in *. unfold room. cbn. split_and!; lia.
  - change (format_text (p :: ps)) with (text p ++ format_text ps) in Hl. rewrite length_app in Hl.
    cbn [app fits]. split; [unfold room; destruct p; lia | apply IH; lia].
Qed.

Lemma args_end buf tmp size m args ps b :
  args_all buf tmp size m args ps -> args_all buf tmp size m args (ps ++ [PChar 0; PChar b]).
Proof.
  revert args. induction ps as [|p ps IH]; intros args.
  - intros _. cbn. unfold args_at. cbn. done.
  - intros [Ha Has]. split; [done | by apply IH].
Qed.

(** The whole call. *)
Lemma format_ok fuel buf fmt tmp args ps b m :
  let n := Z.of_nat (length (format_src ps)) in
  let size := Z.of_nat (length (format_text ps)) + 2 in
  buf <> 0 -> fmt <> 0 -> Forall piece_ok ps -> 0 <= b < 256 -> b <> 37 ->
  cstring m fmt (format_src ps) -> bytes_at m (fmt + n + 1) [b] -> args_all buf tmp size m args ps ->
  buf + size <= tmp \/ tmp + 1024 <= buf -> safe buf tmp size fmt (n + 2) ->
  present m buf size -> present m tmp 1024 -> size < 2 ^ 32 ->
  (length ps + length (format_src ps) + 1102 <= fuel)%nat ->
  exists m', vsprintf fuel buf fmt tmp args m = Ok (n + 2, m') /\
    bytes_at m' buf (format_text ps ++ [0; b]) /\ frame buf tmp size m m'.
Proof.
  intros n size Hb Hf Hps Hbr Hb37 C Bb Ha Hsep S Pb Pt Hsz Hfuel. unfold vsprintf.
  rewrite (proj2 (Z.eqb_neq _ _) Hb), (proj2 (Z.eqb_neq _ _) Hf). cbn [orb].
  destruct (stosb_ok 1024 m tmp 0 Pt) as (m1 & Run & Fl). rewrite (bind_ok _ _ _ _ _ Run).
  change (Z.of_nat 1024) with 1024 in Fl.
  assert (F1 : frame buf tmp size m m1).
  { split; [apply Fl|]. intros x [_ Sx]. rewrite (fl_bytes _ _ _ _ _ Fl).
    by replace ((tmp <=? x) && (x <? tmp + 1024)) with false by zbool. }
  set (total := ps ++ [PChar 0; PChar b]).
  assert (Es : format_src total = format_src ps ++ [0; b]) by (unfold total, format_src; by rewrite bind_app).
  assert (Et : format_text total = format_text ps ++ [0; b]) by (unfold total, format_text; by rewrite bind_app).
  destruct (format_loop_ok buf fmt tmp size m Hsep ltac:(lia) Pb Pt (format_src ps) total fuel 0 0 args m1)
    as (m' & E & F' & B' & _); try done; rewrite ?Es, ?Z.add_0_r; try lia.
  - apply Forall_app. split; [done|]. repeat constructor; try done; lia.
  - change [0; b] with ([0] ++ [b]). rewrite app_assoc. apply bytes_at_app. split; [apply C|].
    rewrite length_app, Nat2Z.inj_add, Z.add_assoc. exact Bb.
  - by apply args_end.
  - apply fits_end. unfold size. lia.
  - rewrite length_app. cbn [length]. lia.
  - unfold total. rewrite length_app. cbn [length]. lia.
  - exists m'. split; [done|]. rewrite Z.add_0_r, Et in B'. done.
Qed.

(** ** Properties *)

(** C8: vsprintf prints any format of plain characters and of the conversions
    c, s, d, i, u, o, x, X and b with flags, field width and precision: the
    buffer holds the texts of the pieces one after the other, the arguments are
    taken from the stack in order, and no memory but the buffer and the scratch
    buffer changes. The loop runs to strlen(fmt), which counts the terminator,
    so the buffer also gets the terminator and the byte behind it, and the
    result is the length of the format plus two. *)
Theorem vsprintf_ok fuel buf fmt tmp args ps b m :
  let n := Z.of_nat (length (format_src ps)) in
  let size := Z.of_nat (length (format_text ps)) + 2 in
  buf <> 0 -> fmt <> 0 -> Forall piece_ok ps -> 0 <= b < 256 -> b <> 37 ->
  cstring m fmt (format_src ps) -> bytes_at m (fmt + n + 1) [b] -> args_all buf tmp size m args ps ->
  buf + size <= tmp \/ tmp + 1024 <= buf -> safe buf tmp size fmt (n + 2) ->
  present m buf size -> present m tmp 1024 -> size < 2 ^ 32 ->
  (length ps + length (format_src ps) + 1102 <= fuel)%nat ->
  exists m', vsprintf fuel buf fmt tmp args m = Ok (n + 2, m') /\
    bytes_at m' buf (format_text ps ++ [0; b]) /\ frame buf tmp size m m'.
Proof. exact (format_ok fuel buf fmt tmp args ps b m). Qed.

(** "%s=%#x" with the arguments "ab" and 255. *)
Definition sample_mem : mem :=
  set_word 68 255 (set_word 64 80 (put_bytes 80 [97; 98; 0]
    (put_bytes 16 [37; 115; 61; 37; 35; 48; 54; 120; 0; 0] (mem_with_pages 2 0)))).

Definition sample_format : list piece :=
  [PStr (Spec [] None None) 80 [97; 98]; PChar 61; PNum (Spec [35; 48] (Some 6) None) 120 255].

Lemma sample_ok : Forall piece_ok sample_format.
Proof.
  apply Forall_cons. split; [|apply Forall_cons; split; [|apply Forall_cons; split; [|by apply Forall_nil]]].
  - split; [split; cbn; [by apply Forall_nil | done | done] | cbn; lia].
  - cbn. lia.
  - split; [split; cbn; [by repeat constructor | intros v [= <-]; lia | done] | cbn]. split; [lia | by eexists].
Defined.

Lemma sample_args :
  args_all 512 1024 (Z.of_nat (length (format_text sample_format)) + 2) sample_mem 64 sample_format.
Proof.
  split; [|split; [by split|split; [|done]]]; split.
  - intros w [= <-]. split_and!; vm_compute; intuition discriminate.
  - split; [apply cstring_b_ok; vm_compute; reflexivity | vm_compute; intuition discriminate].
  - intros w [= <-]. split_and!; vm_compute; intuition discriminate.
  - done.
Defined.

Lemma vsprintf_ok_witness :
  exists m', vsprintf 2000 512 16 1024 64 sample_mem = Ok (Z.of_nat (length (format_src sample_format)) + 2, m') /\
    bytes_at m' 512 (format_text sample_format ++ [0; 0]) /\
    frame 512 1024 (Z.of_nat (length (format_text sample_format)) + 2) sample_mem m'.
Proof.
  apply vsprintf_ok; try lia.
  - exact sample_ok.
  - apply cstring_b_ok. vm_compute. reflexivity.
  - apply (bytes_at_b_ok _ [0]). vm_compute. reflexivity.
  - exact sample_args.
  - vm_compute. intuition discriminate.
  - vm_compute. intuition discriminate.
  - apply (present_b_ok _ 11). vm_compute. reflexivity.
  - apply (present_b_ok _ 1024). vm_compute. reflexivity.
  - vm_compute. reflexivity.
  - apply Nat.leb_le. vm_compute. reflexivity.
Defined.
