(* ===== verification/RbPrint.v ===== *)
(** print_tree of rb_tree.c, which draws a tree into a buffer of text rows: it
    returns, it changes its own buffers only, and every node has its label in
    the row of its depth and the column of its place in the order. *)

From S2P Require Import Prelude Memory CString Utils Vsprintf FormatSpec RbTree RbHeap RbModel RbRep.

(** ** Definitions *)

Definition HEIGHT : Z := 30.
Definition WIDTH : Z := 255.
Definition label_width : Z := 15.

(** [while (tmp) { ++dup; tmp = get_link(tmp, 2); }] *)
Fixpoint count_links (fuel : nat) (tmp dup : Z) : M mem Z :=
  match fuel with
  | O => throw Hang
  | S fuel => if tmp =? 0 then mret dup else next ← get_link tmp 2; count_links fuel next (dup + 1)
  end.

Section print.
(** The addresses of the format string and of the rows, and, of the call at each
    depth: its buffer [b], the arguments that it pushes for sprintf, and the
    buffer of vsprintf. *)
Context (fmt s : Z) (b_at args_of tmp_at : Z -> Z).
(** Rounds of the loops over links and formats. *)
Context (link_fuel fmt_fuel : nat).

Definition cell (i j : Z) : Z := s + WIDTH * i + j.

Fixpoint print_tree_ (fuel : nat) (node : Z) (is_left : bool) (offset depth : Z) : M mem Z :=
  match fuel with
  | O => throw Hang
  | S fuel =>
      if node =? 0 then mret 0
      else
        tmp ← get_link node 2;
        dup ← count_links link_fuel tmp 0;
        data ← node_data node;
        red ← is_red node;
        let args := args_of depth in
        store32 args data;;
        store32 (args + 4) dup;;
        store32 (args + 8) (if red : bool then 82 else 66);;
        vsprintf fmt_fuel (b_at depth) fmt (tmp_at depth) args;;
        ln ← get_link node 0;
        left ← print_tree_ fuel ln true offset (depth + 1);
        rn ← get_link node 1;
        right ← print_tree_ fuel rn false (offset + left + label_width) (depth + 1);
        movsb (Z.to_nat label_width) (cell (2 * depth) (offset + left)) (b_at depth);;
        (if negb (depth =? 0) && is_left then
           stosb (Z.to_nat (label_width + right)) (cell (2 * depth - 1) (offset + left + label_width / 2)) 45;;
           store8 (cell (2 * depth - 1) (offset + left + label_width / 2)) 43;;
           store8 (cell (2 * depth - 1) (offset + left + label_width + right + label_width / 2)) 43
         else if negb (depth =? 0) && negb is_left then
           stosb (Z.to_nat (left + label_width)) (cell (2 * depth - 1) (offset - label_width / 2)) 45;;
           store8 (cell (2 * depth - 1) (offset + left + label_width / 2)) 43;;
           store8 (cell (2 * depth - 1) (offset - label_width / 2 - 1)) 43
         else mret tt);;
        mret (left + label_width + right)
  end.

(** The first [n] rows: blanks and a terminator. *)
Fixpoint clear_rows (n : nat) (i : Z) : M mem unit :=
  match n with
  | O => mret tt
  | S n =>
      stosb (Z.to_nat (WIDTH - 1)) (cell i 0) 32;;
      store8 (cell i (WIDTH - 1)) 0;;
      clear_rows n (i + 1)
  end.

(** [while (s[i][--j] == ' ') s[i][j] = '\0';] *)
Fixpoint trim_row (fuel : nat) (i j : Z) : M mem unit :=
  match fuel with
  | O => throw Hang
  | S fuel =>
      c ← load8 (cell i (j - 1));
      if c =? 32 then store8 (cell i (j - 1)) 0;; trim_row fuel i (j - 1) else mret tt
  end.

Fixpoint trim_rows (n : nat) (fuel : nat) (i : Z) : M mem unit :=
  match n with
  | O => mret tt
  | S n => trim_row fuel i (WIDTH - 1);; trim_rows n fuel (i + 1)
  end.

Definition print_tree (fuel : nat) (root : Z) : M mem unit :=
  h ← height fuel root;
  assert (h * 2 - 1 <? HEIGHT);;
  clear_rows (Z.to_nat (h * 2 - 1)) 0;;
  print_tree_ fuel root false 0 0;;
  trim_rows (Z.to_nat (h * 2 - 1)) (Z.to_nat WIDTH) 0.
End print.

(** ** Labels *)

(** "(0x%06x-%02d-%c)" *)
Definition label_format (data dup : Z) (red : bool) : list piece :=
  [PChar 40; PChar 48; PChar 120; PNum (Spec [48] (Some 6) None) 120 data; PChar 45;
   PNum (Spec [48] (Some 2) None) 100 dup; PChar 45; PByte (Spec [] None None) (if red then 82 else 66); PChar 41].

Definition full_label (c : bool) (x : lab) : list Z := format_text (label_format (lb_key x) (Z.of_nat (length (lb_dups x))) c).

(** The columns of a node hold the first characters of its label. *)
Definition label (c : bool) (x : lab) : list Z := take 15 (full_label c x).

Lemma number_digits_length k fuel ds base n : 1 < base -> 0 <= n < base ^ Z.of_nat k -> (length (number_digits fuel ds base n) <= k)%nat.
Proof.
  intros Hb. revert n k. induction fuel as [|fuel IH]; intros n k Hn; cbn [number_digits length]; [lia |].
  destruct (Z.eqb_spec n 0); [simpl; lia |]. destruct k as [|k]; [simpl in Hn; lia |]. cbn [length].
  apply le_n_S, IH. rewrite Nat2Z.inj_succ, Z.pow_succ_r in Hn by lia. split; [by apply Z.div_pos; lia |]. apply Z.div_lt_upper_bound; lia.
Qed.

Lemma digits_dark : Forall (fun c => 32 < c) digits_lower.
Proof. vm_compute. repeat constructor; done. Qed.

Lemma number_digits_dark fuel base n : 0 < base <= 36 -> 0 <= n -> Forall (fun c => 32 < c) (number_digits fuel digits_lower base n).
Proof.
  intros Hb. revert n. induction fuel as [|fuel IH]; intros n Hn; cbn [number_digits]; [constructor |].
  destruct (Z.eqb_spec n 0); [constructor |]. constructor; [| apply IH; by apply Z.div_pos; lia].
  destruct (lookup_lt_is_Some_2 digits_lower (Z.to_nat (n mod base))) as [c Hc].
  { change (length digits_lower) with 36%nat. pose proof (Z.mod_pos_bound n base). lia. }
  rewrite Hc. exact (Forall_lookup_1 _ _ _ _ digits_dark Hc).
Qed.

(** A number with leading zeros, of at most [k] digits. *)
Lemma padded_number base w k f n :
  1 < base <= 36 -> 0 <= n < base ^ Z.of_nat k -> f = 0 \/ (f = SIGNED /\ n < 2 ^ 31) -> 0 < w -> (0 < k)%nat ->
  let l := number_text n base w (-1) (Z.lor ZEROS f) in
  Forall (fun c => 32 < c) l /\ w <= Z.of_nat (length l) <= Z.max w (Z.of_nat k).
Proof.
  intros Hb Hn Hf Hw Hk l. set (ds := if n =? 0 then [48] else number_digits 32 digits_lower base n).
  assert (E : l = replicate (Z.to_nat (w - Z.of_nat (length ds))) 48 ++ rev ds).
  { assert (Z0 : forall d : list Z, Z.to_nat (-1 - Z.of_nat (length d)) = 0%nat) by (intros d; lia).
    unfold l, number_text. fold (eff_flags (Z.lor ZEROS f)). destruct Hf as [-> | [-> Hs]]; cbv zeta.
    - change (eff_flags (Z.lor ZEROS 0)) with ZEROS. change (has ZEROS SIGNED) with false. change (has ZEROS PREFIX) with false.
      change (has ZEROS LEFT) with false. change (has ZEROS LARGE) with false. change (has ZEROS ZEROS) with true. cbn [andb app length].
      fold ds. rewrite Z0, Nat.add_0_r. cbn [replicate app]. rewrite length_rev. do 2 f_equal. lia.
    - assert (Sg : (s32 n <? 0) = false) by (rewrite s32_small by lia; apply Z.ltb_ge; lia).
      change (eff_flags (Z.lor ZEROS SIGNED)) with (Z.lor ZEROS SIGNED). set (fl := Z.lor ZEROS SIGNED).
      change (has fl LEFT) with false. change (has fl SIGNED) with true. change (has fl PREFIX) with false. change (has fl PLUS) with false.
      change (has fl SPACE) with false. change (has fl LARGE) with false. change (has fl ZEROS) with true. rewrite Sg. cbn [andb app length].
      fold ds. rewrite Z0, Nat.add_0_r. cbn [replicate app]. rewrite length_rev. do 2 f_equal. lia. }
  assert (D : Forall (fun c => 32 < c) ds /\ (length ds <= k)%nat).
  { unfold ds. destruct (n =? 0); [repeat constructor; simpl; lia |]. split; [apply number_digits_dark; lia | apply (number_digits_length k); lia]. }
  rewrite E, length_app, length_replicate, length_rev. split; [| lia].
  apply Forall_app. split; [apply Forall_replicate; lia | apply List.Forall_rev, D].
Qed.

Lemma full_label_ok c x :
  0 <= lb_key x < 2 ^ 32 -> (length (lb_dups x) < 100)%nat ->
  Forall (fun c => 32 < c) (full_label c x) /\ (15 <= length (full_label c x) <= 17)%nat.
Proof.
  intros Hk Hd. destruct (padded_number 16 6 8 0 (lb_key x)) as [D1 L1]; try lia.
  destruct (padded_number 10 2 2 SIGNED (Z.of_nat (length (lb_dups x)))) as [D2 L2]; try lia.
  unfold full_label, format_text, label_format. cbn [mbind list_bind text app]. change (conv_num 120) with (Some (16, 0)).
  change (conv_num 100) with (Some (10, SIGNED)). change (flags_of (Spec [48] (Some 6) None)) with ZEROS. change (flags_of (Spec [48] (Some 2) None)) with ZEROS.
  cbn [sp_width sp_prec default from_option id]. split.
  - repeat (first [apply Forall_cons; split; [by try destruct c |] | apply Forall_app; split; [assumption |] | apply Forall_nil; done]).
  - cbn [app length]. rewrite length_app. cbn [length]. rewrite length_app. cbn [length]. lia.
Qed.

Lemma label_ok c x :
  0 <= lb_key x < 2 ^ 32 -> (length (lb_dups x) < 100)%nat -> Forall (fun c => 32 < c) (label c x) /\ length (label c x) = 15%nat.
Proof.
  intros Hk Hd. destruct (full_label_ok c x Hk Hd) as [D L]. split; [by apply Forall_take | unfold label; rewrite length_take; lia].
Qed.

(** ** Reading the tree *)

Lemma chain_count H k l : forall p dup fuel, chain H k p l -> (length l < fuel)%nat -> runs (count_links fuel p dup) H (dup + Z.of_nat (length l)) H.
Proof.
  induction l as [|a l IH]; intros p dup [|fuel] C Hf; simpl in Hf; try lia; cbn [count_links].
  - simpl in C. subst p. rewrite Z.add_0_r. apply runs_ret.
  - destruct C as (-> & N0 & v & Hv & _ & C). rewrite (proj2 (Z.eqb_neq _ _) N0).
    eapply runs_bind; [by apply runs_get_dup |]. replace (dup + Z.of_nat (length (a :: l))) with (dup + 1 + Z.of_nat (length l)) by (simpl; lia).
    apply IH; [done | lia].
Qed.

Lemma height_runs H t : forall p fuel, rep H p t -> (depth t < fuel)%nat -> runs (height fuel p) H (Z.of_nat (depth t)) H.
Proof.
  induction t as [|c l IHl x r IHr]; intros p [|fuel] R Hf; simpl in Hf; try lia; cbn [height].
  - simpl in R. subst p. apply runs_ret.
  - destruct R as (-> & v & (Hv & N0 & _) & Rl & Rr). rewrite (proj2 (Z.eqb_neq _ _) N0).
    eapply runs_bind; [exact (runs_get_link H _ v false Hv) |]. eapply runs_bind; [apply (IHl (v_l v)); [done | lia] |].
    eapply runs_bind; [exact (runs_get_link H _ v true Hv) |]. eapply runs_bind; [apply (IHr (v_r v)); [done | lia] |].
    replace (Z.of_nat (depth (T c l x r))) with (if Z.of_nat (depth r) <? Z.of_nat (depth l) then Z.of_nat (depth l) + 1 else Z.of_nat (depth r) + 1); [apply runs_ret |].
    cbn [depth]. destruct (Z.ltb_spec (Z.of_nat (depth r)) (Z.of_nat (depth l))); lia.
Qed.

(** What only reads returns the memory that it was given. *)
Definition only_reads {A} (c : M mem A) : Prop := forall m r m', c m = Ok (r, m') -> m' = m.

Lemma reads_load a : only_reads (load32 a).
Proof. intros m r m'. unfold load32. destruct (word_present m a); congruence. Qed.

Lemma reads_ret {A} (x : A) : only_reads (mret x).
Proof. intros m r m' [= _ <-]. done. Qed.

Lemma reads_bind {A B} (c : M mem A) (k : A -> M mem B) : only_reads c -> (forall x, only_reads (k x)) -> only_reads (c ≫= k).
Proof. intros Hc Hk m r m' E. apply bind_ok_inv in E as (x & m1 & E1 & E2). apply Hc in E1 as ->. by apply Hk in E2. Qed.

Lemma reads_link a i : only_reads (get_link a i).
Proof. with_strategy transparent [get_link] unfold get_link. apply reads_bind; [apply reads_load | intros; apply reads_ret]. Qed.

Lemma reads_red a : only_reads (is_red a).
Proof. with_strategy transparent [is_red] unfold is_red. destruct (a =? 0); [apply reads_ret |]. apply reads_bind; [apply reads_load | intros; apply reads_ret]. Qed.

Lemma reads_data a : only_reads (node_data a).
Proof. with_strategy transparent [node_data] unfold node_data. apply reads_load. Qed.

Lemma reads_count fuel : forall p dup, only_reads (count_links fuel p dup).
Proof.
  induction fuel as [|fuel IH]; intros p dup; cbn [count_links]; [done |]. destruct (p =? 0); [apply reads_ret |].
  apply reads_bind; [apply reads_link | intros; apply IH].
Qed.

Lemma reads_height fuel : forall p, only_reads (height fuel p).
Proof.
  induction fuel as [|fuel IH]; intros p; cbn [height]; [done |]. destruct (p =? 0); [apply reads_ret |].
  do 4 (apply reads_bind; [first [apply reads_link | apply IH] | intros]). apply reads_ret.
Qed.

Lemma runs_reads {A} (c : M mem A) H r m : runs c H r H -> only_reads c -> sim m m H -> c m = Ok (r, m).
Proof. intros [_ R] O S. destruct (R m m S) as (m' & E & _). rewrite E. by apply O in E as ->. Qed.

(** Writes beside the nodes. *)
Lemma sim_changes W m m' H :
  sim m m H -> changes W m m' -> (forall a v, H !! a = Some v -> clear_of W a 16) -> sim m' m' H.
Proof.
  intros S K C. split; try done.
  - intros a v Ha. destruct (sim_ok _ _ _ S a v Ha) as [P1 P2 P3 P4 P5 P6 P7]. split; rewrite ?(changes_word_present _ _ _ K); done.
  - intros a v Ha. rewrite <- (sim_view _ _ _ S a v Ha). unfold view.
    assert (E : forall i, 0 <= i <= 12 -> word_at m' (a + i) = word_at m (a + i)).
    { intros i Hi. apply (changes_word _ _ _ K). eapply clear_sub; [exact (C a v Ha) | lia | lia]. }
    rewrite <- !(E 4), <- !(E 8), <- !(E 12) by lia. by rewrite <- (Z.add_0_r a), !E by lia.
  - apply (sim_disj _ _ _ S).
Qed.

(** ** The drawing *)

Definition nodes (t : tree) : Z := Z.of_nat (length (inorder t)).

Lemma nodes_T c l x r : nodes (T c l x r) = nodes l + 1 + nodes r.
Proof. unfold nodes. cbn [inorder]. rewrite length_app. simpl. lia. Qed.

Section drawing.
Context (fmt s : Z) (b_at args_of tmp_at : Z -> Z) (link_fuel fmt_fuel : nat).
Hypothesis link_rounds : (100 <= link_fuel)%nat.
Hypothesis fmt_rounds : (1127 <= fmt_fuel)%nat.

Abbreviation cell := (cell s).

(** The buffers of the call at depth [d], and the rows. *)
Definition scratch_of (d x : Z) : Prop :=
  b_at d <= x < b_at d + 20 \/ args_of d <= x < args_of d + 12 \/ tmp_at d <= x < tmp_at d + 1024.
Definition on_rows (x : Z) : Prop := s <= x < s + WIDTH * HEIGHT.
Definition used_by_print (x : Z) : Prop := on_rows x \/ exists d, 0 <= d < 15 /\ scratch_of d x.

Record buffers_ok (m : mem) (H : nheap) : Prop := {
  bo_format : exists b, fmt <> 0 /\ 0 <= b < 256 /\ b <> 37 /\ cstring m fmt (format_src (label_format 0 0 false)) /\ bytes_at m (fmt + 17) [b];
  bo_present : forall d, 0 <= d < 15 -> b_at d <> 0 /\ present m (b_at d) 20 /\ present m (args_of d) 12 /\ present m (tmp_at d) 1024;
  bo_rows : present m s (WIDTH * HEIGHT);
  bo_apart : forall d, 0 <= d < 15 -> (b_at d + 20 <= args_of d \/ args_of d + 12 <= b_at d) /\
    (b_at d + 20 <= tmp_at d \/ tmp_at d + 1024 <= b_at d) /\ (args_of d + 12 <= tmp_at d \/ tmp_at d + 1024 <= args_of d);
  bo_deeper : forall d e x, 0 <= d < e -> e < 15 -> b_at d <= x < b_at d + 20 -> ~ scratch_of e x;
  bo_no_row : forall d x, 0 <= d < 15 -> scratch_of d x -> ~ on_rows x;
  bo_fmt : clear_of used_by_print fmt 18;
  bo_nodes : forall a v, H !! a = Some v -> clear_of used_by_print a 16
}.

Lemma buffers_changes W m m' H : buffers_ok m H -> changes W m m' -> (forall x, W x -> used_by_print x) -> buffers_ok m' H.
Proof.
  intros [(b & N & Hb & B37 & Cf & Bb) P R A D N' F Nd] K Sub. split; try done.
  - assert (C : forall a k, fmt <= a -> a + k <= fmt + 18 -> clear_of W a k) by (intros a k ? ? x Hx Hw; apply (F x); [lia | by apply Sub]).
    exists b. split_and!; [done | lia | lia | done | |].
    + apply (changes_cstring _ _ _ K); [done | apply C; [lia | change (Z.of_nat _) with 16; lia]].
    + apply (changes_bytes_at _ _ _ K); [done | apply C; simpl; lia].
  - intros d Hd. destruct (P d Hd) as (? & ? & ? & ?). split_and!; [done | by apply (changes_present _ _ _ K)..].
  - by apply (changes_present _ _ _ K).
Qed.

(** On the rows nothing is written but dark characters. *)
Definition darker (m m' : mem) : Prop := forall x, on_rows x -> byte_at m' x = byte_at m x \/ 32 < byte_at m' x.

#[local] Instance darker_preorder : PreOrder darker.
Proof. split; [by left |]. intros m1 m2 m3 D1 D2 x Hx. destruct (D2 x Hx) as [E|]; [| by right]. rewrite E. by apply D1. Qed.

Lemma darker_dark m m' x : darker m m' -> on_rows x -> 32 < byte_at m x -> 32 < byte_at m' x.
Proof. intros D Hx Dk. destruct (D x Hx) as [->|]; done. Qed.

(** Dark characters from [a] on. *)
Definition inked (m m' : mem) (a n : Z) : Prop :=
  changes (fun x => a <= x < a + n) m m' /\ forall x, a <= x < a + n -> 32 < byte_at m' x.

Lemma inked_darker m m' a n : inked m m' a n -> darker m m'.
Proof.
  intros [[_ B] Dk] x _. destruct (decide (a <= x < a + n)) as [Hx|Hx]; [right; by apply Dk | left; by apply B].
Qed.

Lemma stosb_inks n m a v :
  present m a (Z.of_nat n) -> 32 < v < 256 -> exists m', stosb n a v m = Ok (a + Z.of_nat n, m') /\ inked m m' a (Z.of_nat n).
Proof.
  intros P Hv. destruct (stosb_ok n m a v P) as (m' & Run & [Pg B]). exists m'. split; [done |]. split.
  - split; [done |]. intros x Hx. rewrite B. by replace ((a <=? x) && (x <? a + Z.of_nat n)) with false by zbool.
  - intros x Hx. rewrite B. replace ((a <=? x) && (x <? a + Z.of_nat n)) with true by zbool. rewrite u8_small; lia.
Qed.

Lemma store8_inks m a v : present m a 1 -> 32 < v < 256 -> store8 a v m = Ok (tt, set_byte a v m) /\ inked m (set_byte a v m) a 1.
Proof.
  intros P Hv. split; [apply store8_ok; by apply (present_first _ _ _ P) |]. split.
  - split; [done |]. intros x Hx. apply byte_at_set_other. lia.
  - intros x Hx. replace x with a by lia. rewrite byte_at_set_same, u8_small; lia.
Qed.

(** A line between two nodes: dashes, then a plus at two places of the row. *)
Lemma line_drawn m k a n b c :
  present m s (WIDTH * HEIGHT) -> 1 <= k <= 14 -> 0 <= a -> 0 <= n -> a + n <= WIDTH - 1 -> 0 <= b < WIDTH - 1 -> 0 <= c < WIDTH - 1 ->
  exists m', (stosb (Z.to_nat n) (cell (2 * k - 1) a) 45;; store8 (cell (2 * k - 1) b) 43;; store8 (cell (2 * k - 1) c) 43) m = Ok (tt, m') /\
    changes (fun x => exists j, x = cell (2 * k - 1) j /\ 0 <= j < WIDTH - 1) m m' /\ darker m m' /\ 32 < byte_at m' (cell (2 * k - 1) b).
Proof.
  intros P Hk Ha Hn Han Hb Hc. unfold RbPrint.cell, WIDTH, HEIGHT in *.
  destruct (stosb_inks (Z.to_nat n) m (s + 255 * (2 * k - 1) + a) 45) as (m1 & R1 & I1); [eapply present_sub; [exact P | lia | lia] | lia |].
  destruct (store8_inks m1 (s + 255 * (2 * k - 1) + b) 43) as [R2 I2].
  { eapply present_pages; [apply (proj1 I1) |]. eapply present_sub; [exact P | lia | lia]. }
  { lia. }
  set (m2 := set_byte _ _ m1) in *. destruct (store8_inks m2 (s + 255 * (2 * k - 1) + c) 43) as [R3 I3].
  { eapply present_pages; [apply (proj1 I1) |]. eapply present_sub; [exact P | lia | lia]. }
  { lia. }
  set (m3 := set_byte _ _ m2) in *. exists m3.
  rewrite (bind_ok _ _ _ _ _ R1), (bind_ok _ _ _ _ _ R2), R3. split; [done |]. split.
  - etransitivity; [| etransitivity].
    + eapply changes_weaken; [| exact (proj1 I1)]. intros x Hx. exists (x - (s + 255 * (2 * k - 1))). rewrite Z2Nat.id in Hx by lia. lia.
    + eapply changes_weaken; [| exact (proj1 I2)]. intros x Hx. cbv beta in Hx |- *. exists b. lia.
    + eapply changes_weaken; [| exact (proj1 I3)]. intros x Hx. cbv beta in Hx |- *. exists c. lia.
  - split.
    + etransitivity; [by eapply inked_darker | etransitivity; by eapply inked_darker].
    + eapply darker_dark; [by eapply inked_darker | unfold on_rows, WIDTH, HEIGHT; lia |]. apply I2. lia.
Qed.

Lemma label_pieces data dup c : 0 <= data < 2 ^ 32 -> 0 <= dup < 2 ^ 32 -> Forall piece_ok (label_format data dup c).
Proof.
  intros H1 H2. unfold label_format. repeat (apply Forall_cons; split; [first [by split | cbn; lia
    | split_and!; [split; cbn; [by repeat constructor | intros ? [= <-]; lia | done] | lia | lia | by eexists]
    | split; [split; cbn; [by repeat constructor | done | done] | destruct c; lia]] |]). by apply Forall_nil.
Qed.

(** The three words that sprintf gets. *)
Lemma label_words buf tmp size m a data dup (c : bool) :
  (forall i, 0 <= i <= 8 -> word_present m (a + i) = true) -> (forall i, 0 <= i <= 8 -> safe buf tmp size (a + i) 4) ->
  word_at m a = data -> word_at m (a + 4) = dup -> word_at m (a + 8) = (if c then 82 else 66) ->
  args_all buf tmp size m a (label_format data dup c).
Proof.
  intros Wp Sf W1 W2 W3.
  assert (Wd : forall i v, 0 <= i <= 8 -> word_at m (a + i) = v -> forall w, [v] = [w] -> word_present m (a + i) = true /\ word_at m (a + i) = w /\ safe buf tmp size (a + i) 4).
  { intros i v Hi <- w [= <-]. split_and!; [by apply Wp | done | by apply Sf]. }
  assert (Wd0 := Wd 0 data ltac:(lia) ltac:(by rewrite Z.add_0_r)). rewrite Z.add_0_r in Wd0.
  assert (Wd4 := Wd 4 _ ltac:(lia) W2). assert (Wd8 := Wd 8 _ ltac:(lia) W3).
  unfold label_format. cbn [args_all words length]. change (4 * Z.of_nat 0) with 0. change (4 * Z.of_nat 1) with 4. rewrite !Z.add_0_r.
  replace (a + 4 + 4) with (a + 8) by lia. repeat (first [done | split]); first [exact Wd0 | exact Wd4 | exact Wd8].
Qed.

(** The label of a node in the buffer [b]. *)
Lemma label_printed m H d x c :
  buffers_ok m H -> 0 <= d < 15 -> 0 <= lb_key x < 2 ^ 32 -> (length (lb_dups x) < 100)%nat ->
  exists m', (forall k : M mem Z, (store32 (args_of d) (lb_key x);; store32 (args_of d + 4) (Z.of_nat (length (lb_dups x)));;
      store32 (args_of d + 8) (if c : bool then 82 else 66);; vsprintf fmt_fuel (b_at d) fmt (tmp_at d) (args_of d);; k) m = k m') /\
    changes (scratch_of d) m m' /\ bytes_at m' (b_at d) (full_label c x).
Proof.
  intros Bo Hd Hk Hl. destruct (bo_format _ _ Bo) as (b & Nf & Hb & B37 & Cf & Bb). destruct (bo_present _ _ Bo d Hd) as (Nb & Pb & Pa & Pt).
  destruct (bo_apart _ _ Bo d Hd) as (A1 & A2 & A3). set (a := args_of d) in *.
  assert (Wp : forall i, 0 <= i <= 8 -> word_present m (a + i) = true).
  { intros i Hi. eapply (present_word m (a + i) 4); [eapply present_sub; [exact Pa | lia | lia] | lia]. }
  set (m1 := set_word a (lb_key x) m). set (m2 := set_word (a + 4) (Z.of_nat (length (lb_dups x))) m1).
  set (m3 := set_word (a + 8) (if c then 82 else 66) m2).
  assert (K3 : changes (fun x => a <= x < a + 12) m m3).
  { split; [done |]. intros y Hy. unfold m3, m2, m1. rewrite !byte_at_set_word_other by lia. done. }
  set (ps := label_format (lb_key x) (Z.of_nat (length (lb_dups x))) c).
  destruct (full_label_ok c x Hk Hl) as [_ Len].
  assert (Wa : word_at m3 a = lb_key x /\ word_at m3 (a + 4) = Z.of_nat (length (lb_dups x)) /\ word_at m3 (a + 8) = if c then 82 else 66).
  { unfold m3, m2, m1. split_and!.
    - rewrite !word_at_set_other, word_at_set_same by lia. by apply u32_small.
    - rewrite word_at_set_other, word_at_set_same by lia. apply u32_small. lia.
    - rewrite word_at_set_same. apply u32_small. destruct c; lia. }
  destruct Wa as (W1 & W2 & W3).
  assert (Cl : forall y k, fmt <= y -> y + k <= fmt + 18 -> clear_of (fun x => a <= x < a + 12) y k).
  { intros y k ? ? z Hz Hw. apply (bo_fmt _ _ Bo z); [lia |]. right. exists d. split; [done |]. right. by left. }
  assert (Fs : fmt + 18 <= b_at d \/ b_at d + 20 <= fmt).
  { apply interval_apart; [lia | lia |]. intros y Hy Hw. apply (bo_fmt _ _ Bo y Hy). right. exists d. split; [done |]. by left. }
  assert (Ft : fmt + 18 <= tmp_at d \/ tmp_at d + 1024 <= fmt).
  { apply interval_apart; [lia | lia |]. intros y Hy Hw. apply (bo_fmt _ _ Bo y Hy). right. exists d. split; [done |]. right. by right. }
  destruct (format_ok fmt_fuel (b_at d) fmt (tmp_at d) a ps b m3) as (m' & Run & By & Fr).
  - done.
  - done.
  - apply label_pieces; [done | lia].
  - done.
  - done.
  - apply (changes_cstring _ _ _ K3); [exact Cf | apply Cl; [lia |]]. change (Z.of_nat _) with 16. lia.
  - change (Z.of_nat _) with 16. replace (fmt + 16 + 1) with (fmt + 17) by lia. apply (changes_bytes_at _ _ _ K3); [done | apply Cl; cbn; lia].
  - apply label_words; [intros i Hi | intros i Hi | exact W1 | exact W2 | exact W3].
    + rewrite (changes_word_present _ _ _ K3). by apply Wp.
    + change (format_text ps) with (full_label c x). split; lia.
  - change (format_text ps) with (full_label c x). lia.
  - change (format_text ps) with (full_label c x). change (length (format_src ps)) with 16%nat. split; lia.
  - change (format_text ps) with (full_label c x). apply (changes_present _ _ _ K3). eapply present_sub; [exact Pb | lia | lia].
  - by apply (changes_present _ _ _ K3).
  - change (format_text ps) with (full_label c x). lia.
  - change (length (format_src ps)) with 16%nat. cbn [ps length label_format]. lia.
  - exists m'. split; [| split].
    + intros k. rewrite (bind_ok (store32 a _) _ m tt m1) by (rewrite <- (Z.add_0_r a) at 1; rewrite store32_ok by (apply Wp; lia); unfold m1; by rewrite Z.add_0_r).
      rewrite (bind_ok (store32 (a + 4) _) _ m1 tt m2) by (rewrite store32_ok; [done | unfold m1; rewrite word_present_set_word; apply Wp; lia]).
      rewrite (bind_ok (store32 (a + 8) _) _ m2 tt m3) by (rewrite store32_ok; [done | unfold m2, m1; rewrite !word_present_set_word; apply Wp; lia]).
      by rewrite (bind_ok _ _ _ _ _ Run).
    + transitivity m3; [eapply changes_weaken; [| exact K3]; intros y Hy; right; by left |].
      eapply changes_weaken; [| exact (frame_changes _ _ _ _ _ Fr)]. change (format_text ps) with (full_label c x).
      intros y [Hy | Hy]; [left; lia | right; by right].
    + by apply bytes_at_app in By as [By _].
Qed.

(** ** The tree *)

(** The label of every node is in the row of its depth. *)
Fixpoint drawn (m : mem) (t : tree) (off d : Z) : Prop :=
  match t with
  | E => True
  | T c l x r =>
      bytes_at m (cell (2 * d) (off + 15 * nodes l)) (label c x) /\
      drawn m l off (d + 1) /\ drawn m r (off + 15 * nodes l + 15) (d + 1)
  end.

(** What may be written for a tree. *)
Definition drawing (t : tree) (off d x : Z) : Prop :=
  (exists e, d <= e < 15 /\ scratch_of e x) \/
  exists k j, d <= k < d + Z.of_nat (depth t) /\
    ((x = cell (2 * k) j /\ off <= j < off + 15 * nodes t) \/ (1 <= k /\ x = cell (2 * k - 1) j /\ 0 <= j < WIDTH - 1)).

(** Every row has a dark character. *)
Definition marked (m : mem) (t : tree) (d : Z) : Prop := forall k, d <= k < d + Z.of_nat (depth t) ->
  (exists j, 0 <= j < WIDTH - 1 /\ 32 < byte_at m (cell (2 * k) j)) /\
  (1 <= k -> exists j, 0 <= j < WIDTH - 1 /\ 32 < byte_at m (cell (2 * k - 1) j)).

Lemma drawn_kept W m m' t : forall off d,
  changes W m m' -> drawn m t off d ->
  (forall k j, d <= k < d + Z.of_nat (depth t) -> off <= j < off + 15 * nodes t -> ~ W (cell (2 * k) j)) -> drawn m' t off d.
Proof.
  induction t as [|c l IHl x r IHr]; intros off d K D N; [done |]. destruct D as (B & Dl & Dr). rewrite nodes_T in N. cbn [depth] in N.
  assert (0 <= nodes l) by (unfold nodes; lia). assert (0 <= nodes r) by (unfold nodes; lia). split_and!.
  - apply (changes_bytes_at _ _ _ K); [done |]. intros y Hy. unfold label in Hy. rewrite length_take in Hy.
    replace y with (cell (2 * d) (y - cell (2 * d) 0)) by (unfold RbPrint.cell; lia). apply N; [lia |]. unfold RbPrint.cell in *. lia.
  - apply IHl; [done | done |]. intros k j Hk Hj. apply N; lia.
  - apply IHr; [done | done |]. intros k j Hk Hj. apply N; lia.
Qed.

Lemma marked_kept m m' t d : darker m m' -> 0 <= d -> d + Z.of_nat (depth t) <= 15 -> marked m t d -> marked m' t d.
Proof.
  intros D H0 H1 Mk k Hk. destruct (Mk k Hk) as [(j & Hj & Dk) Line]. split.
  - exists j. split; [done |]. eapply darker_dark; [exact D | | done]. unfold on_rows, RbPrint.cell, WIDTH, HEIGHT in *. lia.
  - intros K1. destruct (Line K1) as (j' & Hj' & Dk'). exists j'. split; [done |]. eapply darker_dark; [exact D | | done].
    unfold on_rows, RbPrint.cell, WIDTH, HEIGHT in *. lia.
Qed.

Lemma drawing_used t off d x : 0 <= d -> d + Z.of_nat (depth t) <= 15 -> 0 <= off -> off + 15 * nodes t <= 254 -> drawing t off d x -> used_by_print x.
Proof.
  intros H0 H1 H2 H3 [(e & He & Hx)|(k & j & Hk & Hx)]; [right; exists e; split; [lia | done] |]. left.
  unfold on_rows, RbPrint.cell, WIDTH, HEIGHT in *. lia.
Qed.

Lemma drawing_sub t off d t' off' d' x :
  drawing t off d x -> d' <= d -> d + Z.of_nat (depth t) <= d' + Z.of_nat (depth t') -> off' <= off -> off + 15 * nodes t <= off' + 15 * nodes t' ->
  drawing t' off' d' x.
Proof.
  intros [(e & He & Hx)|(k & j & Hk & Hx)] H1 H2 H3 H4; [left; exists e; split; [lia | done] |].
  right. exists k, j. split; [lia |]. destruct Hx as [[-> ?]|?]; [left; split; [done | lia] | by right].
Qed.

(** The loop that copies the label to its place. *)
Lemma label_drawn m d j c x :
  present m s (WIDTH * HEIGHT) -> (forall y, b_at d <= y < b_at d + 20 -> ~ on_rows y) -> bytes_at m (b_at d) (full_label c x) ->
  0 <= lb_key x < 2 ^ 32 -> (length (lb_dups x) < 100)%nat -> 0 <= d < 15 -> 0 <= j -> j + 15 <= 254 ->
  exists m', movsb 15 (cell (2 * d) j) (b_at d) m = Ok (tt, m') /\ changes (fun y => exists i, y = cell (2 * d) i /\ j <= i < j + 15) m m' /\
    darker m m' /\ bytes_at m' (cell (2 * d) j) (label c x).
Proof.
  intros P Nr B Hk Hl Hd H0 H1. destruct (full_label_ok c x Hk Hl) as [_ Lf]. destruct (label_ok c x Hk Hl) as [Dk Ll].
  assert (Pc : present m (cell (2 * d) j) 15) by (eapply present_sub; [exact P | |]; unfold RbPrint.cell, WIDTH, HEIGHT; lia).
  assert (Bl : bytes_at m (b_at d) (label c x)) by (unfold label; rewrite <- (take_drop 15 (full_label c x)) in B; by apply bytes_at_app in B as [B _]).
  assert (Pb := bytes_at_present _ _ _ Bl). rewrite Ll in Pb.
  destruct (movsb_ok 15 m (cell (2 * d) j) (b_at d)) as (m' & Run & Cp); [done | done | |].
  { destruct (interval_apart (b_at d) 15 (cell (2 * d) j) 15) as [?|?]; [lia | lia | | lia | left; lia].
    intros y Hy Hc. apply (Nr y); [lia |]. unfold on_rows, RbPrint.cell, WIDTH, HEIGHT in *. lia. }
  exists m'. split; [done |]. assert (B' : bytes_at m' (cell (2 * d) j) (label c x)) by (eapply bytes_at_copied; rewrite ?Ll; done).
  split; [| split; [| done]].
  - split; [apply Cp |]. intros y Hy. rewrite (cp_bytes _ _ _ _ _ Cp). destruct (_ && _) eqn:In; [| done]. apply andb_true_iff in In as [?%Z.leb_le ?%Z.ltb_lt]. destruct Hy. exists (y - cell (2 * d) 0).
    unfold RbPrint.cell in *. lia.
  - intros y _. rewrite (cp_bytes _ _ _ _ _ Cp). destruct (_ && _) eqn:In; [| by left]. apply andb_true_iff in In as [?%Z.leb_le ?%Z.ltb_lt]. right.
    destruct (lookup_lt_is_Some_2 (label c x) (Z.to_nat (y - cell (2 * d) j))) as [v Hv]; [lia |].
    destruct (Bl _ _ Hv) as [_ E]. rewrite Z2Nat.id in E by lia. rewrite E. exact (Forall_lookup_1 _ _ _ _ Dk Hv).
Qed.

Abbreviation print' := (print_tree_ fmt s b_at args_of tmp_at link_fuel fmt_fuel).

(** The line above a node, if it has a parent. *)
Lemma node_line m d is_left off (l r : Z) :
  present m s (WIDTH * HEIGHT) -> 0 <= d < 15 -> 0 <= off -> 0 <= l -> 0 <= r -> off + l + 15 + r <= 254 ->
  (1 <= d -> if is_left : bool then off + l + 15 + r + 8 <= 254 else 8 <= off) ->
  exists m', (if negb (d =? 0) && is_left then
       stosb (Z.to_nat (label_width + r)) (cell (2 * d - 1) (off + l + label_width / 2)) 45;;
       store8 (cell (2 * d - 1) (off + l + label_width / 2)) 43;;
       store8 (cell (2 * d - 1) (off + l + label_width + r + label_width / 2)) 43
     else if negb (d =? 0) && negb is_left then
       stosb (Z.to_nat (l + label_width)) (cell (2 * d - 1) (off - label_width / 2)) 45;;
       store8 (cell (2 * d - 1) (off + l + label_width / 2)) 43;;
       store8 (cell (2 * d - 1) (off - label_width / 2 - 1)) 43
     else mret tt) m = Ok (tt, m') /\
    changes (fun y => 1 <= d /\ exists i, y = cell (2 * d - 1) i /\ 0 <= i < WIDTH - 1) m m' /\ darker m m' /\
    (1 <= d -> exists i, 0 <= i < WIDTH - 1 /\ 32 < byte_at m' (cell (2 * d - 1) i)).
Proof.
  intros P Hd Ho Hl Hr Hb Hp. change (label_width / 2) with 7. unfold label_width. destruct (Z.eqb_spec d 0) as [->|Nd]; cbn [negb andb].
  - exists m. split_and!; [done | done | done | lia].
  - specialize (Hp ltac:(lia)). destruct is_left; cbn [negb].
    + destruct (line_drawn m d (off + l + 7) (15 + r) (off + l + 7) (off + l + 15 + r + 7)) as (m' & Run & K & D & Mk);
        [done | lia | lia | lia | unfold WIDTH; lia | unfold WIDTH; lia | unfold WIDTH; lia |].
      exists m'. split_and!; [done | eapply changes_weaken; [| exact K]; by split; [lia |] | done | intros _; exists (off + l + 7); split; [unfold WIDTH; lia | done]].
    + destruct (line_drawn m d (off - 7) (l + 15) (off + l + 7) (off - 7 - 1)) as (m' & Run & K & D & Mk);
        [done | lia | lia | lia | unfold WIDTH; lia | unfold WIDTH; lia | unfold WIDTH; lia |].
      exists m'. split_and!; [done | eapply changes_weaken; [| exact K]; by split; [lia |] | done | intros _; exists (off + l + 7); split; [unfold WIDTH; lia | done]].
Qed.

Record draws (m m' : mem) (t : tree) (off d : Z) : Prop := {
  dw_changes : changes (drawing t off d) m m';
  dw_darker : darker m m';
  dw_drawn : drawn m' t off d;
  dw_marked : marked m' t d
}.

(** The tree, its labels and the room that it needs at column [off], depth [d]. *)
Record drawable (H : nheap) (p : Z) (t : tree) (is_left : bool) (off d : Z) : Prop := {
  db_rep : rep H p t;
  db_dups : Forall (fun x => (length (lb_dups x) < 100)%nat) (inorder t);
  db_depth : 0 <= d /\ d + Z.of_nat (depth t) <= 15;
  db_columns : 0 <= off /\ off + 15 * nodes t <= 254;
  db_parent : 1 <= d -> if is_left then off + 15 * nodes t + 8 <= 254 else 8 <= off
}.

(** The parts of the drawing of a node fit together. *)
Lemma draws_node m m1 m2 m3 m4 m5 c l x r off d :
  let t := T c l x r in
  0 <= off -> off + 15 * nodes t <= 254 -> 0 <= d -> d + Z.of_nat (depth t) <= 15 -> (forall e y, 0 <= e < 15 -> scratch_of e y -> ~ on_rows y) ->
  length (label c x) = 15%nat -> Forall (fun v => 32 < v) (label c x) ->
  changes (scratch_of d) m m1 -> draws m1 m2 l off (d + 1) -> draws m2 m3 r (off + 15 * nodes l + 15) (d + 1) ->
  changes (fun y => exists i, y = cell (2 * d) i /\ off + 15 * nodes l <= i < off + 15 * nodes l + 15) m3 m4 -> darker m3 m4 ->
  bytes_at m4 (cell (2 * d) (off + 15 * nodes l)) (label c x) ->
  changes (fun y => 1 <= d /\ exists i, y = cell (2 * d - 1) i /\ 0 <= i < WIDTH - 1) m4 m5 -> darker m4 m5 ->
  (1 <= d -> exists i, 0 <= i < WIDTH - 1 /\ 32 < byte_at m5 (cell (2 * d - 1) i)) ->
  draws m m5 t off d.
Proof.
  intros t Ho Hb H0 Hd Nr Ll Dk K1 Dl Dr K4 D4 B4 K5 D5 M5. unfold t in *. rewrite nodes_T in Hb. cbn [depth] in Hd.
  assert (0 <= nodes l) by (unfold nodes; lia). assert (0 <= nodes r) by (unfold nodes; lia).
  assert (D35 : darker m3 m5) by (etransitivity; done).
  assert (B5 : bytes_at m5 (cell (2 * d) (off + 15 * nodes l)) (label c x)).
  { apply (changes_bytes_at _ _ _ K5); [done |]. intros y Hy (_ & i & -> & Hi). rewrite Ll in Hy. unfold RbPrint.cell, WIDTH in *. lia. }
  split.
  - transitivity m1; [eapply changes_weaken; [| exact K1]; intros y Hy; left; exists d; split; [lia | done] |].
    transitivity m2; [eapply changes_weaken; [| exact (dw_changes _ _ _ _ _ Dl)]; intros y Hy; eapply drawing_sub; [exact Hy | rewrite ?nodes_T; cbn [depth]; lia..] |].
    transitivity m3; [eapply changes_weaken; [| exact (dw_changes _ _ _ _ _ Dr)]; intros y Hy; eapply drawing_sub; [exact Hy | rewrite ?nodes_T; cbn [depth]; lia..] |].
    transitivity m4; [eapply changes_weaken; [| exact K4] | eapply changes_weaken; [| exact K5]].
    + intros y (i & -> & Hi). right. exists d, i. rewrite nodes_T. cbn [depth]. split; [lia | left; split; [done | lia]].
    + intros y (Hd1 & i & -> & Hi). right. exists d, i. cbn [depth]. split; [lia | by right].
  - transitivity m1; [intros y Hy; left; apply (ch_bytes _ _ _ K1); intros Hs; by apply (Nr d y) in Hs; [| lia] |].
    transitivity m2; [apply Dl |]. transitivity m3; [apply Dr | done].
  - cbn [drawn]. split_and!; [done | |].
    + assert (D3 : drawn m3 l off (d + 1)).
      { eapply drawn_kept; [apply Dr | apply Dl |]. intros k j Hk Hj [(e & He & Hs)|(k' & j' & Hk' & [[E Hj']|(_ & E & Hj')])].
        - apply (Nr e (cell (2 * k) j)); [lia | done |]. unfold on_rows, RbPrint.cell, WIDTH, HEIGHT. lia.
        - unfold RbPrint.cell, WIDTH in *. lia.
        - unfold RbPrint.cell, WIDTH in *. lia. }
      eapply drawn_kept; [exact K5 | eapply drawn_kept; [exact K4 | exact D3 |] |]; intros k j Hk Hj; [intros (i & E & Hi) | intros (_ & i & E & Hi)];
        unfold RbPrint.cell, WIDTH in *; lia.
    + eapply drawn_kept; [exact K5 | eapply drawn_kept; [exact K4 | apply Dr |] |]; intros k j Hk Hj; [intros (i & E & Hi) | intros (_ & i & E & Hi)];
        unfold RbPrint.cell, WIDTH in *; lia.
  - intros k Hk. cbn [depth] in Hk. destruct (decide (k = d)) as [->|Nk].
    + split; [| done]. exists (off + 15 * nodes l). split; [unfold WIDTH; lia |].
      destruct (lookup_lt_is_Some_2 (label c x) 0) as [v Hv]; [lia |]. destruct (B5 _ _ Hv) as [_ E]. rewrite Z.add_0_r in E. rewrite E.
      exact (Forall_lookup_1 _ _ _ _ Dk Hv).
    + destruct (decide (k < d + 1 + Z.of_nat (depth l))) as [Lk|Lk].
      * assert (Mk : marked m5 l (d + 1)).
        { eapply marked_kept; [etransitivity; [apply Dr | exact D35] | lia | lia | apply Dl]. }
        apply Mk. lia.
      * assert (Mk : marked m5 r (d + 1)) by (eapply marked_kept; [exact D35 | lia | lia | apply Dr]). apply Mk. lia.
Qed.

(** The nodes and the buffers stay as they are while something is drawn. *)
Lemma ready_changes W m m' H :
  sim m m H -> buffers_ok m H -> changes W m m' -> (forall x, W x -> used_by_print x) -> sim m' m' H /\ buffers_ok m' H.
Proof.
  intros S Bo K U. split; [| by eapply buffers_changes].
  eapply sim_changes; [exact S | exact K |]. intros a w Ha y Hy Hs. by apply (bo_nodes _ _ Bo a w Ha y Hy), U.
Qed.

Lemma ready_draws m m' H t off d :
  sim m m H -> buffers_ok m H -> draws m m' t off d -> 0 <= d -> d + Z.of_nat (depth t) <= 15 -> 0 <= off -> off + 15 * nodes t <= 254 ->
  sim m' m' H /\ buffers_ok m' H.
Proof. intros S Bo W H0 H1 H2 H3. eapply ready_changes; [exact S | exact Bo | apply W |]. intros y. by apply drawing_used. Qed.

(** The label in [b] outlives the calls for the subtrees. *)
Lemma label_stays m0 H m m' t off d l :
  buffers_ok m0 H -> draws m m' t off (d + 1) -> 0 <= d -> d + 1 + Z.of_nat (depth t) <= 15 -> 0 <= off -> off + 15 * nodes t <= 254 ->
  (length l <= 20)%nat -> bytes_at m (b_at d) l -> bytes_at m' (b_at d) l.
Proof.
  intros Bo W H0 H1 H2 H3 Ll B. apply (changes_bytes_at _ _ _ (dw_changes _ _ _ _ _ W)); [done |].
  intros y Hy [(e & He & Hs)|(k & j & Hk & Hj)]; [apply (bo_deeper _ _ Bo d e y); [lia | lia | lia | done] |].
  apply (bo_no_row _ _ Bo d y); [lia | left; lia |]. unfold on_rows, RbPrint.cell, WIDTH, HEIGHT in *. lia.
Qed.

Lemma draw_ok t : forall m H p is_left off d fuel,
  sim m m H -> buffers_ok m H -> drawable H p t is_left off d -> (depth t < fuel)%nat ->
  exists m', print' fuel p is_left off d m = Ok (15 * nodes t, m') /\ draws m m' t off d.
Proof.
  induction t as [|c l IHl x r IHr]; intros m H p is_left off d [|fuel] S Bo [R Dp [H0 Hd] [Ho Hb] Hp] Hf; cbn [depth] in Hf; try lia; cbn [print_tree_].
  - simpl in R. subst p. exists m. split; [done |]. split; [done | done | done |]. intros k Hk. cbn [depth] in Hk. lia.
  - destruct R as (-> & v & (Hv & N0 & Ec & Ek & Ch) & Rl & Rr). rewrite (proj2 (Z.eqb_neq _ _) N0).
    assert (Hb' := Hb). assert (Hp' := Hp). rewrite nodes_T in Hb', Hp'. cbn [depth] in Hd. cbn [inorder] in Dp.
    apply Forall_app in Dp as [Dl [Dx Dr]%Forall_cons]. assert (0 <= nodes l) by (unfold nodes; lia). assert (0 <= nodes r) by (unfold nodes; lia).
    assert (Hk : 0 <= lb_key x < 2 ^ 32) by (rewrite <- Ek, <- (sim_view _ _ _ S _ _ Hv); apply word_at_range).
    destruct (label_ok c x Hk Dx) as [Dk Ll].
    rewrite (bind_ok _ _ _ _ _ (runs_reads _ _ _ _ (runs_get_dup _ _ _ Hv) (reads_link _ _) S)).
    rewrite (bind_ok _ _ _ _ _ (runs_reads _ _ _ _ (chain_count _ _ _ _ 0 link_fuel Ch ltac:(lia)) (reads_count _ _ _) S)), Z.add_0_l.
    rewrite (bind_ok _ _ _ _ _ (runs_reads _ _ _ _ (runs_node_data _ _ _ Hv) (reads_data _) S)), Ek.
    rewrite (bind_ok _ _ _ _ _ (runs_reads _ _ _ _ (runs_is_red _ _ _ Hv) (reads_red _) S)), Ec.
    destruct (label_printed m H d x c Bo ltac:(lia) Hk Dx) as (m1 & R1 & K1 & B1). cbv zeta. rewrite R1.
    destruct (ready_changes _ _ _ _ S Bo K1) as [S1 Bo1]; [intros y Hy; right; exists d; split; [lia | done] |].
    destruct (IHl m1 H (v_l v) true off (d + 1) fuel S1 Bo1) as (m2 & R2 & W2); [split; [done | done | lia | lia | lia] | lia |].
    destruct (ready_draws _ _ _ _ _ _ S1 Bo1 W2) as [S2 Bo2]; [lia.. |].
    destruct (IHr m2 H (v_r v) false (off + 15 * nodes l + 15) (d + 1) fuel S2 Bo2) as (m3 & R3 & W3); [split; [done | done | lia | lia | lia] | lia |].
    destruct (ready_draws _ _ _ _ _ _ S2 Bo2 W3) as [S3 Bo3]; [lia.. |].
    rewrite (bind_ok _ _ _ _ _ (runs_reads _ _ _ _ (runs_get_link _ _ _ false Hv) (reads_link _ _) S1)). cbn [lnk].
    rewrite (bind_ok _ _ _ _ _ R2), (bind_ok _ _ _ _ _ (runs_reads _ _ _ _ (runs_get_link _ _ _ true Hv) (reads_link _ _) S2)). cbn [lnk].
    change label_width with 15 at 1. rewrite (bind_ok _ _ _ _ _ R3). destruct (full_label_ok c x Hk Dx) as [_ Lf].
    assert (B3 : bytes_at m3 (b_at d) (full_label c x)).
    { eapply (label_stays m H m2 m3); [exact Bo | exact W3 | lia.. |]. eapply (label_stays m H m1 m2); [exact Bo | exact W2 | lia.. | done]. }
    destruct (label_drawn m3 d (off + 15 * nodes l) c x) as (m4 & R4 & K4 & D4 & B4); [apply Bo3 | | done | done | done | lia | lia | lia |].
    { intros y Hy. apply (bo_no_row _ _ Bo d y); [lia | by left]. }
    change (Z.to_nat label_width) with 15%nat. rewrite (bind_ok _ _ _ _ _ R4).
    destruct (node_line m4 d is_left off (15 * nodes l) (15 * nodes r)) as (m5 & R5 & K5 & D5 & M5);
      [eapply present_pages; [apply K4 | apply Bo3] | lia | lia | lia | lia | lia | intros D1; specialize (Hp' D1); destruct is_left; lia |].
    rewrite (bind_ok _ _ _ _ _ R5). exists m5. split; [rewrite ret_ok; do 2 f_equal; rewrite nodes_T; unfold label_width; lia |].
    eapply (draws_node m m1 m2 m3 m4 m5); try done; first [cbn [depth]; lia | intros e y He Hy; by apply (bo_no_row _ _ Bo e y)].
Qed.

(** ** The rows *)

Lemma clear_rows_ok n : forall m i,
  present m s (WIDTH * HEIGHT) -> 0 <= i -> i + Z.of_nat n <= HEIGHT ->
  exists m', clear_rows s n i m = Ok (tt, m') /\ changes (fun x => cell i 0 <= x < cell (i + Z.of_nat n) 0) m m' /\
    forall k, i <= k < i + Z.of_nat n -> byte_at m' (cell k (WIDTH - 1)) = 0.
Proof.
  induction n as [|n IH]; intros m i P H0 H1; cbn [clear_rows].
  { exists m. split; [done |]. split; [done | lia]. }
  unfold HEIGHT in H1.
  destruct (stosb_ok (Z.to_nat (WIDTH - 1)) m (cell i 0) 32) as (m1 & R1 & F1).
  { eapply present_sub; [exact P | |]; unfold RbPrint.cell, WIDTH, HEIGHT; lia. }
  assert (P1 : present m1 s (WIDTH * HEIGHT)) by (eapply present_pages; [apply F1 | done]).
  set (m2 := set_byte (cell i (WIDTH - 1)) 0 m1).
  assert (R2 : store8 (cell i (WIDTH - 1)) 0 m1 = Ok (tt, m2)).
  { apply store8_ok. replace (cell i (WIDTH - 1)) with (s + (cell i (WIDTH - 1) - s)) by lia. apply P1. unfold RbPrint.cell, WIDTH, HEIGHT. lia. }
  destruct (IH m2 (i + 1)) as (m3 & R3 & K3 & Z3); [eapply present_pages; [| exact P1]; done | lia | unfold HEIGHT; lia |].
  exists m3. rewrite (bind_ok _ _ _ _ _ R1), (bind_ok _ _ _ _ _ R2), R3. split; [done |]. split.
  - split; [rewrite (ch_pages _ _ _ K3); apply F1 |]. intros x Hx. unfold RbPrint.cell, WIDTH in Hx.
    rewrite (ch_bytes _ _ _ K3) by (unfold RbPrint.cell, WIDTH; lia). unfold m2. rewrite byte_at_set_other by (unfold RbPrint.cell, WIDTH; lia).
    rewrite (fl_bytes _ _ _ _ _ F1). unfold RbPrint.cell, WIDTH. change (Z.of_nat (Z.to_nat (255 - 1))) with 254.
    by replace (_ && _) with false by zbool.
  - intros k Hk. destruct (decide (k = i)) as [->|Nk]; [| apply Z3; lia].
    rewrite (ch_bytes _ _ _ K3) by (unfold RbPrint.cell, WIDTH; lia). unfold m2. by rewrite byte_at_set_same.
Qed.

(** Blanks of the rows become terminators, nothing else changes. *)
Record trimmed (m m' : mem) : Prop := {
  tr_pages : m_pages m' = m_pages m;
  tr_bytes : forall x, byte_at m' x = byte_at m x \/ (on_rows x /\ byte_at m x = 32 /\ byte_at m' x = 0)
}.

#[local] Instance trimmed_preorder : PreOrder trimmed.
Proof.
  split; [split; [done | by left] |]. intros m1 m2 m3 [P1 B1] [P2 B2]. split; [congruence |]. intros x.
  destruct (B2 x) as [-> | (On & E & Z)]; [apply B1 |]. right. destruct (B1 x) as [E1 | (_ & _ & E1)]; [split_and!; congruence | congruence].
Qed.

Lemma trimmed_dark m m' x : trimmed m m' -> 32 < byte_at m x -> byte_at m' x = byte_at m x.
Proof. intros Tr D. destruct (tr_bytes _ _ Tr x) as [-> | (_ & E & _)]; [done | lia]. Qed.

Lemma trim_row_ok fuel : forall m i j j0,
  present m s (WIDTH * HEIGHT) -> 0 <= i < HEIGHT -> 0 <= j0 < j -> j <= WIDTH - 1 -> 32 < byte_at m (cell i j0) -> j < Z.of_nat fuel ->
  exists m', trim_row s fuel i j m = Ok (tt, m') /\ trimmed m m'.
Proof.
  induction fuel as [|fuel IH]; intros m i j j0 P Hi Hj Hw Dk Hf; [lia |]. cbn [trim_row].
  assert (On : on_rows (cell i (j - 1))) by (unfold on_rows, RbPrint.cell, WIDTH, HEIGHT in *; lia).
  assert (Pc : page_present m (cell i (j - 1)) = true).
  { replace (cell i (j - 1)) with (s + (cell i (j - 1) - s)) by lia. apply P. unfold on_rows in On. lia. }
  rewrite (bind_ok _ _ _ _ _ (load8_ok _ _ Pc)). destruct (Z.eqb_spec (byte_at m (cell i (j - 1))) 32) as [E|Ne]; [| by exists m].
  rewrite (bind_ok _ _ _ _ _ (store8_ok _ _ 0 Pc)). set (m1 := set_byte _ _ m).
  assert (Tr : trimmed m m1).
  { split; [done |]. intros x. destruct (decide (x = cell i (j - 1))) as [-> | Nx]; [right; split_and!; [done | done | unfold m1; by rewrite byte_at_set_same] |].
    left. unfold m1. by rewrite byte_at_set_other. }
  assert (j0 <> j - 1) by (intros ->; lia).
  destruct (IH m1 i (j - 1) j0) as (m' & R & Tr'); [done | done | lia | lia | by rewrite (trimmed_dark _ _ _ Tr) | lia |].
  exists m'. split; [done | by etransitivity].
Qed.

Lemma trim_rows_ok n fuel : forall m i,
  present m s (WIDTH * HEIGHT) -> 0 <= i -> i + Z.of_nat n <= HEIGHT -> WIDTH - 1 < Z.of_nat fuel ->
  (forall k, i <= k < i + Z.of_nat n -> exists j, 0 <= j < WIDTH - 1 /\ 32 < byte_at m (cell k j)) ->
  exists m', trim_rows s n fuel i m = Ok (tt, m') /\ trimmed m m'.
Proof.
  induction n as [|n IH]; intros m i P H0 H1 Hf Dk; cbn [trim_rows]; [by exists m |].
  destruct (Dk i) as (j & Hj & Dj); [lia |].
  destruct (trim_row_ok fuel m i (WIDTH - 1) j) as (m1 & R1 & T1); [done | lia | done | done | done | lia |].
  destruct (IH m1 (i + 1)) as (m2 & R2 & T2); [eapply present_pages; [apply T1 | done] | lia | lia | done | |].
  { intros k Hk. destruct (Dk k) as (j' & Hj' & Dj'); [lia |]. exists j'. split; [done | by rewrite (trimmed_dark _ _ _ T1)]. }
  exists m2. rewrite (bind_ok _ _ _ _ _ R1). split; [done | by etransitivity].
Qed.

Lemma drawn_trimmed m m' t : forall off d,
  trimmed m m' -> Forall (fun x => 0 <= lb_key x < 2 ^ 32 /\ (length (lb_dups x) < 100)%nat) (inorder t) -> drawn m t off d -> drawn m' t off d.
Proof.
  induction t as [|c l IHl x r IHr]; intros off d Tr F D; [done |]. destruct D as (B & Dl & Dr).
  cbn [inorder] in F. apply Forall_app in F as [Fl [[Hk Hd] Fr]%Forall_cons]. split_and!; [| by apply IHl | by apply IHr].
  destruct (label_ok c x Hk Hd) as [Dk _]. intros i v Hv. destruct (B i v Hv) as [Pv Ev].
  split; [unfold page_present in *; by rewrite (tr_pages _ _ Tr) |]. rewrite (trimmed_dark _ _ _ Tr); [done |]. rewrite Ev. exact (Forall_lookup_1 _ _ _ _ Dk Hv).
Qed.

Lemma rep_keys m H t : forall p, sim m m H -> rep H p t -> Forall (fun x => 0 <= lb_key x < 2 ^ 32) (inorder t).
Proof.
  induction t as [|c l IHl x r IHr]; intros p S R; cbn [inorder]; [constructor |].
  destruct R as (_ & v & (Hv & _ & _ & Ek & _) & Rl & Rr). apply Forall_app. split; [by eapply IHl |]. constructor; [| by eapply IHr].
  rewrite <- Ek, <- (sim_view _ _ _ S _ _ Hv). apply word_at_range.
Qed.

(** ** Property *)

(** C34: print_tree draws the tree. For a tree of at most 16 nodes and depth 15,
    with fewer than 100 duplicates of a node, it returns; the label of the i-th
    node in the order is in the columns from 15 * i on of the row that is twice its
    depth, every row is a terminated string, and nothing but the rows and the
    buffers of the calls changes. *)
Theorem print_tree_ok m H t root fuel :
  sim m m H -> buffers_ok m H -> rep H root t -> Forall (fun x => (length (lb_dups x) < 100)%nat) (inorder t) ->
  (depth t <= 15)%nat -> nodes t <= 16 -> (depth t < fuel)%nat ->
  exists m', print_tree fmt s b_at args_of tmp_at link_fuel fmt_fuel fuel root m = Ok (tt, m') /\
    changes used_by_print m m' /\ drawn m' t 0 0 /\ forall i, 0 <= i < 2 * Z.of_nat (depth t) - 1 -> byte_at m' (cell i (WIDTH - 1)) = 0.
Proof.
  intros S Bo R Dp Hd Hn Hf. unfold print_tree.
  rewrite (bind_ok _ _ _ _ _ (runs_reads _ _ _ _ (height_runs _ _ _ _ R Hf) (reads_height _ _) S)).
  set (h := Z.of_nat (depth t)). assert (0 <= h <= 15) by lia. rewrite (proj2 (Z.ltb_lt _ _)) by (unfold HEIGHT; lia).
  rewrite (bind_ok (assert true) _ m tt m) by done. set (n := Z.to_nat (h * 2 - 1)).
  destruct (clear_rows_ok n m 0) as (m1 & R1 & K1 & Z1); [apply Bo | lia | unfold n, HEIGHT; lia |].
  assert (U1 : changes on_rows m m1).
  { eapply changes_weaken; [| exact K1]. intros x Hx. unfold on_rows, RbPrint.cell, WIDTH, HEIGHT, n in *. lia. }
  destruct (ready_changes _ _ _ _ S Bo U1) as [S1 Bo1]; [by left |].
  destruct (draw_ok t m1 H root false 0 0 fuel S1 Bo1) as (m2 & R2 & W2); [split; [done | done | lia | lia | lia] | done |].
  destruct (trim_rows_ok n (Z.to_nat WIDTH) m2 0) as (m3 & R3 & T3).
  { eapply present_pages; [apply W2 | apply Bo1]. }
  { lia. }
  { unfold n, HEIGHT. lia. }
  { done. }
  { intros k Hk. unfold n in Hk. destruct (Z.Even_or_Odd k) as [[q ->]|[q ->]].
    - apply (dw_marked _ _ _ _ _ W2 q). lia.
    - replace (2 * q + 1) with (2 * (q + 1) - 1) by lia. apply (dw_marked _ _ _ _ _ W2 (q + 1)); lia. }
  exists m3. rewrite (bind_ok _ _ _ _ _ R1), (bind_ok _ _ _ _ _ R2). split; [done |]. split_and!.
  - transitivity m1; [eapply changes_weaken; [| exact U1]; by left |].
    transitivity m2; [eapply changes_weaken; [| apply W2]; intros x; apply drawing_used; lia |].
    split; [apply T3 |]. intros x Hx. destruct (tr_bytes _ _ T3 x) as [-> | (On & _)]; [done |]. destruct Hx. by left.
  - eapply drawn_trimmed; [exact T3 | | apply W2]. apply Forall_and. split; [by eapply rep_keys | done].
  - intros i Hi. assert (Z2 : byte_at m2 (cell i (WIDTH - 1)) = 0).
    { rewrite (ch_bytes _ _ _ (dw_changes _ _ _ _ _ W2)); [apply Z1; unfold n; lia |].
      intros [(e & He & Hs)|(k & j & Hk & Hj)]; [apply (bo_no_row _ _ Bo e _ ltac:(lia) Hs) |]; unfold on_rows, RbPrint.cell, WIDTH, HEIGHT in *; lia. }
    destruct (tr_bytes _ _ T3 (cell i (WIDTH - 1))) as [-> | (_ & E & _)]; [done | congruence].
Qed.
End drawing.

(** ** A tree of three nodes, one of them with a duplicate *)

Definition tree_nodes : list (Z * nview) :=
  [(0x2000, NView 64 false 0x2010 0x2020 0); (0x2010, NView 32 true 0 0 0x2030); (0x2020, NView 0x100 true 0 0 0); (0x2030, NView 32 false 0 0 0)].

Definition print_mem : mem :=
  put_bytes 0x1000 (format_src (label_format 0 0 false) ++ [0; 0])
    (foldr (fun '(a, v) m => set_word a (v_data v) (set_word (a + 4) (v_l v + Z.b2z (v_red v)) (set_word (a + 8) (v_r v) (set_word (a + 12) (v_d v) m))))
       (mem_with_pages 20 0x1000) tree_nodes).

Definition sample_tree : tree := T false (T true E (Lab 0x2010 32 [0x2030]) E) (Lab 0x2000 64 []) (T true E (Lab 0x2020 0x100 []) E).

Definition print_b (d : Z) : Z := 0x5000 + 0x800 * d.
Definition print_args (d : Z) : Z := 0x5020 + 0x800 * d.
Definition print_tmp (d : Z) : Z := 0x5040 + 0x800 * d.
Definition node_map : nheap := list_to_map tree_nodes.

Lemma node_map_cases (P : Z -> nview -> Prop) : Forall (fun '(a, v) => P a v) tree_nodes -> forall a v, node_map !! a = Some v -> P a v.
Proof. intros F a v Hv. apply elem_of_list_to_map_2 in Hv. by apply (proj1 (Forall_forall _ _) F) in Hv. Qed.

Lemma pages_in n : forall q k, 0 <= k < Z.of_nat n -> q + k ∈ m_pages (mem_with_pages n (q * PAGE)).
Proof.
  induction n as [|n IH]; intros q k Hk; [lia |]. cbn [mem_with_pages map_page_at m_pages]. rewrite Z.div_mul by done.
  apply elem_of_union. destruct (decide (k = 0)) as [->|Nk]; [left; rewrite Z.add_0_r; by apply elem_of_singleton |].
  right. replace (q * PAGE + PAGE) with ((q + 1) * PAGE) by lia. replace (q + k) with (q + 1 + (k - 1)) by lia. apply IH. lia.
Qed.

Lemma print_present a n : 0x1000 <= a -> a + n <= 0x15000 -> present print_mem a n.
Proof.
  intros H1 H2 i Hi. unfold page_present. apply bool_decide_eq_true. change (m_pages print_mem) with (m_pages (mem_with_pages 20 (1 * PAGE))).
  replace ((a + i) / PAGE) with (1 + ((a + i) / PAGE - 1)) by lia. apply pages_in. unfold PAGE. Z.div_mod_to_equations. lia.
Qed.

Lemma print_sim : sim print_mem print_mem node_map.
Proof.
  assert (W : forall a, 0x1000 <= a -> a + 4 <= 0x15000 -> word_present print_mem a = true) by (intros; eapply (present_word _ _ 4); [by apply print_present | lia]).
  split.
  - apply (node_map_cases (fun a v => node_ok print_mem a)). repeat (constructor; [split; first [apply W; lia | lia | reflexivity] |]). constructor.
  - apply (node_map_cases (fun a v => view print_mem a = v)). repeat (constructor; [vm_compute; reflexivity |]). constructor.
  - intros a b Ne [v Hv] [w Hw]. apply elem_of_list_to_map_2 in Hv, Hw. revert Ne. unfold disjoint_nodes.
    unfold tree_nodes in Hv, Hw. rewrite !elem_of_cons, elem_of_nil in Hv, Hw. naive_solver lia.
  - reflexivity.
  - reflexivity.
Qed.

Lemma print_buffers : buffers_ok 0x1000 0x3000 print_b print_args print_tmp print_mem node_map.
Proof.
  unfold print_b, print_args, print_tmp. split.
  - exists 0. split_and!; [lia | lia | lia | lia | |].
    + apply cstring_b_ok. vm_compute. reflexivity.
    + apply bytes_at_b_ok. vm_compute. reflexivity.
  - intros d Hd. split_and!; [lia | apply print_present; lia..].
  - apply print_present; unfold WIDTH, HEIGHT; lia.
  - intros d Hd. lia.
  - intros d e x Hd He Hx. unfold scratch_of. lia.
  - intros d x Hd Hx. unfold scratch_of, on_rows, WIDTH, HEIGHT in *. lia.
  - intros x Hx [On|(d & Hd & Sc)]; unfold scratch_of, on_rows, WIDTH, HEIGHT in *; lia.
  - apply (node_map_cases (fun a v => clear_of _ a 16)).
    repeat (constructor; [intros x Hx [On|(d & Hd & Sc)]; unfold scratch_of, on_rows, WIDTH, HEIGHT in *; lia |]). constructor.
Qed.

Lemma print_tree_ok_witness :
  exists m', print_tree 0x1000 0x3000 print_b print_args print_tmp 100 1127 3 0x2000 print_mem = Ok (tt, m') /\
    changes (used_by_print 0x3000 print_b print_args print_tmp) print_mem m' /\ drawn 0x3000 m' sample_tree 0 0 /\
    forall i, 0 <= i < 3 -> byte_at m' (cell 0x3000 i (WIDTH - 1)) = 0.
Proof.
  apply (print_tree_ok 0x1000 0x3000 print_b print_args print_tmp 100 1127 ltac:(lia) ltac:(lia) print_mem node_map sample_tree 0x2000 3 print_sim print_buffers).
  - split; [done |]. eexists. split; [split_and!; [by vm_compute | done..] |]. split; (split; [done |]; eexists; split; [split_and!; [by vm_compute | done | done | done |] | done]).
    + split_and!; [done | done |]. eexists. split_and!; [by vm_compute | done | done].
    + done.
  - repeat (constructor; [simpl; lia |]). constructor.
  - simpl. lia.
  - vm_compute. congruence.
  - simpl. lia.
Defined.
