(* ===== verification/SerialSpec.v ===== *)
(** What serial.c does with the line: serial_init programs the chip for 38400
    baud, eight bits, no parity, and announces itself; write sends a text whose
    colour escapes become the escape sequences of a terminal.

    The chip is an 8250: [uart_after] is its state after the accesses of a
    trace, as its data sheet describes the registers. *)

From S2P Require Import Prelude Memory CString Utils Vsprintf FormatSpec Arch ArchSpec Vga VgaSpec Console.

(** ** The chip *)

Record uart : Type := Uart {
  u_divisor : Z;    (** of 115200 baud *)
  u_ier : Z;        (** interrupts enabled *)
  u_fcr : Z;        (** FIFO control *)
  u_lcr : Z;        (** line control, with the latch bit DLAB *)
  u_mcr : Z;        (** modem control *)
  u_line : list Z   (** the bytes sent *)
}.

Definition u_dlab (u : uart) : bool := Z.testbit (u_lcr u) 7.

Definition uart_write (r v : Z) (u : uart) : uart :=
  let '(Uart d i f l m o) := u in
  if r =? 0 then if u_dlab u then Uart (d / 2 ^ 8 * 2 ^ 8 + v) i f l m o else Uart d i f l m (o ++ [v])
  else if r =? 1 then if u_dlab u then Uart (d mod 2 ^ 8 + 2 ^ 8 * v) i f l m o else Uart d v f l m o
  else if r =? 2 then Uart d i v l m o
  else if r =? 3 then Uart d i f v m o
  else if r =? 4 then Uart d i f l v o
  else u.

(** A trace has the latest access first. *)
Fixpoint uart_after (base : Z) (t : list io_event) (u : uart) : uart :=
  match t with
  | [] => u
  | Out8 p v :: t => uart_write (p - base) v (uart_after base t u)
  | _ :: t => uart_after base t u
  end.

(** The bytes written to a port. *)
Fixpoint sent (port : Z) (t : list io_event) : list Z :=
  match t with
  | [] => []
  | Out8 p v :: t => if p =? port then sent port t ++ [v] else sent port t
  | _ :: t => sent port t
  end.

(** The trace after [j] more readings of a port. *)
Fixpoint polled (dev : list io_event -> Z -> Z) (port : Z) (j : nat) (t : list io_event) : list io_event :=
  match j with
  | O => t
  | S j => polled dev port j (In8 port (u8 (dev t port)) :: t)
  end.

(** The transmitter gets empty while its status is read at most [n] times. *)
Definition drains (dev : list io_event -> Z -> Z) (base : Z) (n : nat) : Prop :=
  forall t, exists j, (j <= n)%nat /\ Z.testbit (u8 (dev (polled dev (base + 5) j t) (base + 5))) 5 = true.

(** The bytes [l] are written one after the other, each after the status was
    read. *)
Inductive sends (dev : list io_event -> Z -> Z) (base : Z) : list io_event -> list Z -> list io_event -> Prop :=
  | sends_nil t : sends dev base t [] t
  | sends_cons t k c l t' :
      sends dev base (Out8 base (u8 c) :: polled dev (base + 5) k t) l t' -> sends dev base t (c :: l) t'.

Lemma sends_app dev base t l t1 l' t2 :
  sends dev base t l t1 -> sends dev base t1 l' t2 -> sends dev base t (l ++ l') t2.
Proof. induction 1; intros; cbn [app]; [done|]. econstructor. by apply IHsends. Qed.

Lemma sent_polled dev p q j t : sent p (polled dev q j t) = sent p t.
Proof. revert t. induction j as [|j IH]; intros t; [done|]. cbn [polled]. by rewrite IH. Qed.

Lemma sends_sent dev base t l t' : sends dev base t l t' -> sent base t' = sent base t ++ map u8 l.
Proof.
  induction 1 as [t|t k c l t' _ IH]; [by rewrite app_nil_r|].
  rewrite IH. cbn [sent map]. by rewrite Z.eqb_refl, sent_polled, <- app_assoc.
Qed.

Lemma uart_polled dev base q j t u : uart_after base (polled dev q j t) u = uart_after base t u.
Proof. revert t. induction j as [|j IH]; intros t; [done|]. cbn [polled]. by rewrite IH. Qed.

(** While the latch is closed these writes are transmissions. *)
Lemma sends_uart dev base t l t' u :
  sends dev base t l t' -> u_dlab (uart_after base t u) = false ->
  let v := uart_after base t u in
  uart_after base t' u = Uart (u_divisor v) (u_ier v) (u_fcr v) (u_lcr v) (u_mcr v) (u_line v ++ map u8 l).
Proof.
  intros S. revert u. induction S as [t|t k c l t' _ IH]; intros u D v.
  - rewrite app_nil_r. unfold v. by destruct (uart_after base t u).
  - assert (E : uart_after base (Out8 base (u8 c) :: polled dev (base + 5) k t) u =
      Uart (u_divisor v) (u_ier v) (u_fcr v) (u_lcr v) (u_mcr v) (u_line v ++ [u8 c])).
    { cbn [uart_after]. rewrite uart_polled. fold v. fold v in D. clearbody v. unfold uart_write.
      rewrite Z.sub_diag, D. cbn [Z.eqb]. by destruct v. }
    rewrite (IH u); rewrite E; [cbn; by rewrite <- app_assoc | exact D].
Qed.

(** ** Polling and sending *)

Definition with_ctrace (t : list io_event) (s : console) : console := set_c_arch (with_trace t (c_arch s)) s.

Lemma with_ctrace_id s : with_ctrace (a_trace (c_arch s)) s = s.
Proof. by destruct s as [[] ? ? ? ?]. Qed.

(** The base of the port and a transmitter that gets ready. *)
Definition line_ok (dev : list io_event -> Z -> Z) (polls : nat) (base : Z) : Prop :=
  0 <= base /\ base + 5 < 2 ^ 16 /\ drains dev base polls.

Section serial.
Context (dev : list io_event -> Z -> Z) (polls : nat).

Lemma wait_ok j fuel s :
  0 <= com s -> com s + 5 < 2 ^ 16 -> (j <= fuel)%nat ->
  Z.testbit (u8 (dev (polled dev (com s + 5) j (a_trace (c_arch s))) (com s + 5))) 5 = true ->
  exists k, wait_transmit dev fuel s = Ok (tt, with_ctrace (polled dev (com s + 5) k (a_trace (c_arch s))) s).
Proof.
  revert fuel s. induction j as [|j IH]; intros fuel s H0 Hb Hj Hr.
  all: destruct fuel as [|fuel]; try lia; cbn [wait_transmit]; unfold is_transmit_empty.
  all: set (t1 := In8 (com s + 5) (u8 (dev (a_trace (c_arch s)) (com s + 5))) :: a_trace (c_arch s)).
  all: rewrite (bind_ok _ _ s (Z.land (u8 (dev (a_trace (c_arch s)) (com s + 5))) 0x20) (with_ctrace t1 s))
    by (unfold gets, on_carch, zoom, inb, SERIAL_LINE_STATUS, mbind, M_bind; by rewrite u16_small by lia).
  all: change 0x20 with (Z.shiftl 1 5); rewrite land_shiftl_1 by lia.
  1, 2: cbn [polled] in Hr; rewrite Hr; exists 1%nat; reflexivity.
  destruct (Z.testbit (u8 (dev (a_trace (c_arch s)) (com s + 5))) 5) eqn:T; [exists 1%nat; reflexivity|].
  destruct (IH fuel (with_ctrace t1 s)) as [k Hk]; [done | done | lia | done |].
  exists (S k). exact Hk.
Qed.

Lemma write_char_ok c s :
  line_ok dev polls (com s) ->
  exists t, write_char dev polls c s = Ok (tt, with_ctrace t s) /\ sends dev (com s) (a_trace (c_arch s)) [c] t.
Proof.
  intros (H0 & Hb & Hd). destruct (Hd (a_trace (c_arch s))) as (j & Hj & Hr).
  destruct (wait_ok j polls s H0 Hb Hj Hr) as [k Hk]. unfold write_char.
  rewrite (bind_ok _ _ _ _ _ Hk). eexists. split; [|econstructor; constructor].
  unfold SERIAL_DATA, outb, on_carch, zoom, modify, gets, mbind, M_bind. cbn [with_ctrace com set_c_arch].
  by rewrite u16_small by lia.
Qed.

Lemma outb_run p v s : on_carch (outb p v) s = Ok (tt, with_ctrace (Out8 (u16 p) (u8 v) :: a_trace (c_arch s)) s).
Proof. reflexivity. Qed.

(** A constant string. *)
Lemma send_text_ok l s :
  line_ok dev polls (com s) ->
  exists t, send_text dev polls l s = Ok (tt, with_ctrace t s) /\ sends dev (com s) (a_trace (c_arch s)) l t.
Proof.
  revert s. induction l as [|c l IH]; intros s L; cbn [send_text].
  - exists (a_trace (c_arch s)). rewrite with_ctrace_id. split; [done | constructor].
  - destruct (write_char_ok c s L) as (t1 & E1 & S1). rewrite (bind_ok _ _ _ _ _ E1).
    destruct (IH (with_ctrace t1 s) L) as (t & E & S). exists t. split; [done|].
    by apply (sends_app _ _ _ [c] t1).
Qed.
End serial.

(** ** Initialisation *)

(** The accesses of serial_init in front of the message, latest first. *)
Definition init_writes (base : Z) : list io_event :=
  [Out8 (base + 4) 0x0b; Out8 (base + 2) 0xc7; Out8 (base + 3) 0x03; Out8 (base + 1) 0; Out8 (base + 0) 3;
   Out8 (base + 3) 0x80; Out8 (base + 1) 0].

Lemma init_writes_uart base t u :
  let v := uart_after base t u in u_dlab v = false ->
  uart_after base (init_writes base ++ t) u = Uart 3 0 0xc7 0x03 0x0b (u_line v).
Proof.
  intros v D. unfold init_writes. cbn [app uart_after]. fold v. clearbody v. destruct v as [d i f l m o].
  replace (base + 4 - base) with 4 by lia. replace (base + 3 - base) with 3 by lia.
  replace (base + 2 - base) with 2 by lia. replace (base + 1 - base) with 1 by lia.
  replace (base + 0 - base) with 0 by lia. unfold uart_write at 7. cbn [Z.eqb Pos.eqb]. rewrite D.
  cbn. f_equal. Z.div_mod_to_equations. lia.
Qed.

Lemma serial_init_run dev voffset polls s base u :
  let m := v_mem (c_vga s) in
  present m (0x400 + voffset) 2 ->
  base = byte_at m (0x400 + voffset) + 2 ^ 8 * byte_at m (0x400 + voffset + 1) ->
  line_ok dev polls base -> u_dlab (uart_after base (a_trace (c_arch s)) u) = false ->
  exists t, serial_init dev voffset polls s = Ok (com_device, with_ctrace t (set_com base s)) /\
    uart_after base t u =
      Uart 3 0 0xc7 0x03 0x0b (u_line (uart_after base (a_trace (c_arch s)) u) ++ init_message).
Proof.
  intros m P Eb L D. unfold serial_init, SERIAL_INT_ENABLE, SERIAL_LINE_CTRL, SERIAL_DLL, SERIAL_DLH,
    SERIAL_FIFO_CTRL, SERIAL_MODEM_CTRL. assert (B0 := proj1 L). assert (B5 := proj1 (proj2 L)).
  assert (R : forall k, 0 <= k < 2 -> on_cmem (load8 (0x400 + voffset + k)) s = Ok (byte_at m (0x400 + voffset + k), s)).
  { intros k Hk. unfold on_cmem, on_cvga, zoom, on_vmem, zoom. fold m. rewrite load8_ok by (by apply P).
    by destruct s as [? ? [] ? ?]. }
  pose proof (R 0 ltac:(lia)) as R0. rewrite Z.add_0_r in R0.
  rewrite (bind_ok _ _ _ _ _ R0), (bind_ok _ _ _ _ _ (R 1 ltac:(lia))). rewrite <- Eb.
  set (s1 := with_ctrace (init_writes base ++ a_trace (c_arch s)) (set_com base s)).
  destruct (send_text_ok dev polls init_message s1 L) as (t & Et & St).
  exists t. split.
  - rewrite (bind_ok _ _ s tt (set_com base s)), (bind_ok _ _ (set_com base s) base (set_com base s)) by done.
    rewrite !(bind_ok _ _ _ _ _ (outb_run _ _ _)). rewrite !u16_small by lia.
    apply (bind_ok _ (fun _ => mret com_device)) in Et. exact Et.
  - pose proof (init_writes_uart base (a_trace (c_arch s)) u D) as E.
    change (sends dev base (init_writes base ++ a_trace (c_arch s)) init_message t) in St.
    pose proof (sends_uart _ _ _ _ _ u St) as E'. rewrite E in E'. by apply E'.
Qed.

(** serial_init. The base of the port comes from the BIOS data area; the chip
    is set to 115200 / 3 = 38400 baud, eight data bits without parity, one stop
    bit, cleared FIFOs of 16 bytes, RTS and DTR on and no interrupts, the latch
    of the divisor is closed again, and what goes out on the line is exactly
    the announcement. The device that is returned writes with write. *)
Theorem serial_init_ok dev voffset polls s base u :
  let m := v_mem (c_vga s) in
  present m (0x400 + voffset) 2 ->
  base = byte_at m (0x400 + voffset) + 2 ^ 8 * byte_at m (0x400 + voffset + 1) ->
  line_ok dev polls base -> u_dlab (uart_after base (a_trace (c_arch s)) u) = false ->
  exists t, serial_init dev voffset polls s = Ok (com_device, with_ctrace t (set_com base s)) /\
    uart_after base t u =
      Uart 3 0 0xc7 0x03 0x0b (u_line (uart_after base (a_trace (c_arch s)) u) ++ init_message).
Proof. intros m. apply serial_init_run. Qed.

(** ** Texts with colours *)

Definition c_mem (s : console) : mem := v_mem (c_vga s).
Definition with_vmem (m : mem) (v : vga) : vga := Vga m (xpos v) (ypos v) (attribute v) (v_trace v).
Definition with_cmem (m : mem) (s : console) : console := set_c_vga (with_vmem m (c_vga s)) s.

Lemma on_cmem_ok {A} (c : M mem A) s x m : c (c_mem s) = Ok (x, m) -> on_cmem c s = Ok (x, with_cmem m s).
Proof. intros E. unfold on_cmem, on_cvga, zoom. by rewrite (on_vmem_ok _ _ _ _ E). Qed.

Lemma with_cmem_id s : with_cmem (c_mem s) s = s.
Proof. by destruct s as [? ? [] ? ?]. Qed.

Lemma on_cmem_read {A} (c : M mem A) s x : c (c_mem s) = Ok (x, c_mem s) -> on_cmem c s = Ok (x, s).
Proof. intros E. by rewrite (on_cmem_ok _ _ _ _ E), with_cmem_id. Qed.

Lemma on_cmem_byte m a c s : c_mem s = m -> page_present m a = true -> byte_at m a = c -> on_cmem (load8 a) s = Ok (c, s).
Proof. intros <- P <-. apply on_cmem_read. by rewrite load8_ok. Qed.

(** VGA colour numbers have blue in bit 0 and red in bit 2, those of a terminal
    the other way round; bit 3 is the bright colour. Bright yellow and white
    text are shown in the normal intensity, and so is a white background. *)
Definition swap_rgb (c : Z) : Z := c / 4 mod 2 + 2 * (c / 2 mod 2) + 4 * (c mod 2).
Definition ansi_fg (c : Z) : Z := (if (8 <=? c) && (c <? 14) then 90 else 30) + swap_rgb c.
Definition ansi_bg (c : Z) : Z := (if (8 <=? c) && (c <? 15) then 100 else 40) + swap_rgb c.

(** ESC [ 0 ; fg ; bg m *)
Definition colour_sequence (a : Z) : list Z :=
  [27; 91; 48; 59] ++ numeral 10 (ansi_fg (a mod 16)) ++ [59] ++ numeral 10 (ansi_bg (a / 16)) ++ [109].

(** The text as it goes out: an escape character and the colour behind it are
    replaced by the sequence. *)
Fixpoint serial_text (l : list Z) : list Z :=
  match l with
  | [] => []
  | c :: l => if c =? 27 then match l with [] => [] | a :: l => colour_sequence a ++ serial_text l end
              else c :: serial_text l
  end.

(** Every escape character is followed by a colour. *)
Fixpoint escaped (l : list Z) : bool :=
  match l with
  | [] => true
  | c :: l => if c =? 27 then match l with [] => false | _ :: l => escaped l end else escaped l
  end.

(** The bytes of a text without escape characters. *)
Definition plain (l : list Z) : Prop := Forall (fun c => c <> 27) l.

Lemma plain_escaped l : plain l -> escaped l = true.
Proof. induction 1 as [|c l Hc _ IH]; [done|]. cbn. by rewrite (proj2 (Z.eqb_neq _ _) Hc). Qed.

Lemma plain_serial_text l : plain l -> serial_text l = l.
Proof. induction 1 as [|c l Hc _ IH]; [done|]. cbn. by rewrite (proj2 (Z.eqb_neq _ _) Hc), IH. Qed.

Section colours.
Context (dev : list io_event -> Z -> Z) (polls : nat).
Context (fg_at bg_at : Z -> Z) (buf tmp args : Z).

Definition fg (i : Z) : list Z := default [] (term_fg !! Z.to_nat i).
Definition bg (i : Z) : list Z := default [] (term_bg !! Z.to_nat i).

(** The memory that write itself uses: its buffer, that of vsprintf and the
    argument of sprintf. *)
Definition wscratch (x : Z) : Prop :=
  buf <= x < buf + 32 \/ tmp <= x < tmp + 1024 \/ args <= x < args + 4.

(** [n] bytes from [a] on lie outside of it; nothing outside of it changes. *)
Definition quiet (a n : Z) : Prop := clear_of wscratch a n.
Definition kept (m m' : mem) : Prop := changes wscratch m m'.

#[global] Instance kept_preorder : PreOrder kept := changes_preorder _.

(** The strings of the two tables are in memory, and the three areas are present
    and apart. [b] is the byte behind a foreground string. *)
Record colours_in (m : mem) : Prop := {
  ci_fg : forall i, 0 <= i < 16 -> fg_at i <> 0 /\ quiet (fg_at i) 12 /\
    exists b, bytes_at m (fg_at i) (fg i ++ [0; b]) /\ 0 <= b < 256 /\ b <> 37;
  ci_bg : forall i, 0 <= i < 16 -> 0 <= bg_at i < 2 ^ 32 /\ quiet (bg_at i) 4 /\ cstring m (bg_at i) (bg i);
  ci_present : present m buf 32 /\ present m tmp 1024 /\ word_present m args = true;
  ci_apart : buf <> 0 /\ (buf + 32 <= tmp \/ tmp + 1024 <= buf) /\ (buf + 32 <= args \/ args + 4 <= buf) /\
    (tmp + 1024 <= args \/ args + 4 <= tmp)
}.

Lemma colour_cases (P : Z -> Prop) : Forall P (seqZ 0 16) -> forall i, 0 <= i < 16 -> P i.
Proof. intros F i Hi. eapply Forall_forall in F; [exact F|]. apply elem_of_seqZ. lia. Qed.

Lemma fg_spec i : 0 <= i < 16 ->
  exists d1 d2, fg i = fg_string d1 d2 /\ numeral 10 (ansi_fg i) = [d1; d2] /\ 48 <= d1 < 58 /\ 48 <= d2 < 58.
Proof.
  revert i. apply colour_cases. repeat (apply Forall_cons; split; [eexists _, _; split_and!; [reflexivity|vm_compute; reflexivity|lia|lia|lia|lia]|]).
  by apply Forall_nil.
Qed.

Lemma bg_spec i : 0 <= i < 16 -> bg i = numeral 10 (ansi_bg i) /\ (length (bg i) <= 3)%nat /\ Forall (fun c => 48 <= c < 58) (bg i).
Proof.
  revert i. apply colour_cases.
  repeat (apply Forall_cons; split; [split_and!; [vm_compute; reflexivity | vm_compute; lia | cbn; repeat constructor; lia]|]).
  by apply Forall_nil.
Qed.

(** The tables are read only. *)
Lemma colours_changed W m m' :
  changes W m m' -> (forall i, 0 <= i < 16 -> clear_of W (fg_at i) 12 /\ clear_of W (bg_at i) 4) ->
  colours_in m -> colours_in m'.
Proof.
  intros K HW [Cf Cb (P1 & P2 & P3) Ca]. split; [| | |done].
  - intros i Hi. destruct (Cf i Hi) as (N & Q & b & B & Hb). split_and!; [done | done |]. exists b.
    split; [|done]. destruct (fg_spec i Hi) as (d1 & d2 & E & _). eapply changes_bytes_at; [exact K | exact B |].
    rewrite E. by apply HW.
  - intros i Hi. destruct (Cb i Hi) as (R & Q & C). split_and!; [lia | lia | done |].
    destruct (bg_spec i Hi) as (_ & L & _). eapply changes_cstring; [exact K | exact C |].
    eapply clear_sub; [by apply HW | lia | lia].
  - split_and!; [by eapply changes_present | by eapply changes_present |]. by rewrite (changes_word_present _ _ _ K).
Qed.

Lemma kept_colours m m' : kept m m' -> colours_in m -> colours_in m'.
Proof. intros K Ci. eapply colours_changed; [exact K | | done]. intros i Hi. split; [by apply (ci_fg _ Ci) | by apply (ci_bg _ Ci)]. Qed.

Lemma quiet_safe a n size : quiet a n -> 0 < n -> 0 < size <= 32 -> safe buf tmp size a n.
Proof.
  intros Q Hn Hs. unfold safe. split.
  - apply interval_apart; [lia | lia |]. intros x Hx Hb. apply (Q x Hx). unfold wscratch. lia.
  - apply interval_apart; [lia | lia |]. intros x Hx Hb. apply (Q x Hx). unfold wscratch. lia.
Qed.

(** The format of an escape sequence. *)
Definition escape_format (d1 d2 j : Z) : list piece :=
  map PChar [27; 91; 48; 59; d1; d2; 59] ++ [PStr (Spec [] None None) (bg_at j) (bg j); PChar 109].

Lemma escape_text a d1 d2 : 0 <= a < 256 -> numeral 10 (ansi_fg (a mod 16)) = [d1; d2] ->
  format_text (escape_format d1 d2 (a / 16)) = colour_sequence a.
Proof.
  intros Ha E. unfold colour_sequence. rewrite E. destruct (bg_spec (a / 16)) as (Eb & _); [Z.div_mod_to_equations; lia|].
  rewrite <- Eb. reflexivity.
Qed.

Lemma escape_pieces d1 d2 j :
  48 <= d1 < 58 -> 48 <= d2 < 58 -> 0 <= bg_at j < 2 ^ 32 -> (length (bg j) <= 3)%nat -> Forall piece_ok (escape_format d1 d2 j).
Proof.
  intros H1 H2 Hb Hl. unfold escape_format. cbn [map app].
  repeat (apply Forall_cons; split; [first [by cbn; lia | split; [split; cbn; [by apply Forall_nil | done | done] | lia]]|]).
  by apply Forall_nil.
Qed.

Lemma send_buffer_ok l fuel p s :
  line_ok dev polls (com s) -> cstring (c_mem s) p l -> (length l <= fuel)%nat ->
  exists t, send_buffer dev polls fuel p s = Ok (tt, with_ctrace t s) /\ sends dev (com s) (a_trace (c_arch s)) l t.
Proof.
  revert fuel p s. induction l as [|c l IH]; intros fuel p s L C Hf.
  - apply cstring_nil in C as [P B]. exists (a_trace (c_arch s)). rewrite with_ctrace_id.
    split; [|constructor]. destruct fuel; cbn [send_buffer];
      by rewrite (bind_ok _ _ _ _ _ (on_cmem_byte _ p 0 s eq_refl P B)).
  - apply cstring_cons in C as ((P & B) & Hc & C). destruct fuel as [|fuel]; cbn [length] in Hf; [lia|].
    cbn [send_buffer]. rewrite (bind_ok _ _ _ _ _ (on_cmem_byte _ p c s eq_refl P B)).
    destruct (Z.eqb_spec c 0); [lia|]. destruct (write_char_ok dev polls c s L) as (t1 & E1 & S1).
    rewrite (bind_ok _ _ _ _ _ E1). destruct (IH fuel (p + 1) (with_ctrace t1 s) L C) as (t & E & St); [lia|].
    exists t. split; [done|]. by apply (sends_app _ _ _ [c] t1).
Qed.

Lemma escape_args m d1 d2 j size :
  0 < size <= 32 -> colours_in m -> 0 <= j < 16 -> word_at m args = bg_at j ->
  args_all buf tmp size m args (escape_format d1 d2 j).
Proof.
  intros Hs Ci Hj Ew. destruct (ci_bg _ Ci j Hj) as (Rb & Qb & Cb). destruct (bg_spec j Hj) as (_ & Lb & _).
  destruct (ci_present _ Ci) as (_ & _ & P3). destruct (ci_apart _ Ci) as (_ & A1 & A2 & A3).
  cbn [args_all escape_format map app words length]. unfold args_at; cbn [words].
  repeat (split; [done|]). split; [|by repeat (split; [done|])]. rewrite !Z.add_0_r. split.
  - intros w [= <-]. split_and!; [done | done |]. split; lia.
  - split; [done|]. apply quiet_safe; [eapply clear_sub; [exact Qb | lia | lia] | lia | lia].
Qed.

(** sprintf of the colour, and the sequence on the line. *)
Lemma escape_ok fuel a s :
  colours_in (c_mem s) -> 0 <= a < 256 -> line_ok dev polls (com s) -> (1150 <= fuel)%nat ->
  exists m1 m2 n t, on_cmem (store32 args (bg_at (a / 16))) s = Ok (tt, with_cmem m1 s) /\
    on_cmem (vsprintf fuel buf (fg_at (a mod 16)) tmp args) (with_cmem m1 s) = Ok (n, with_cmem m2 s) /\
    send_buffer dev polls fuel buf (with_cmem m2 s) = Ok (tt, with_ctrace t (with_cmem m2 s)) /\
    kept (c_mem s) m2 /\ sends dev (com s) (a_trace (c_arch s)) (colour_sequence a) t.
Proof.
  intros Ci Ha L Hf. set (i := a mod 16). set (j := a / 16).
  assert (Hi : 0 <= i < 16) by (unfold i; Z.div_mod_to_equations; lia).
  assert (Hj : 0 <= j < 16) by (unfold j; Z.div_mod_to_equations; lia).
  destruct (ci_present _ Ci) as (_ & _ & Pw). set (m1 := set_word args (bg_at j) (c_mem s)).
  assert (K1 : kept (c_mem s) m1)
    by (split; [done|]; intros x Hx; unfold m1; apply byte_at_set_word_other; unfold wscratch in Hx; lia).
  assert (C1 := kept_colours _ _ K1 Ci). destruct (ci_present _ C1) as (P1 & P2 & P3).
  destruct (ci_apart _ Ci) as (Nb & A1 & A2 & A3).
  destruct (ci_fg _ C1 i Hi) as (Nf & Qf & b & Bf & Hb & Hb37). destruct (ci_bg _ C1 j Hj) as (Rb & Qb & Cb).
  destruct (fg_spec i Hi) as (d1 & d2 & Ef & En & Hd1 & Hd2). destruct (bg_spec j Hj) as (_ & Lb & Fb).
  set (ps := escape_format d1 d2 j). assert (Et : format_text ps = colour_sequence a) by (by apply escape_text).
  assert (Es : format_src ps = fg_string d1 d2) by reflexivity.
  assert (Lt : (length (format_text ps) <= 11)%nat)
    by (unfold ps, escape_format, format_text; cbn; rewrite length_app; cbn [length]; lia).
  rewrite Ef in Bf. change [0; b] with ([0] ++ [b]) in Bf. rewrite app_assoc in Bf. apply bytes_at_app in Bf as [Bf Bn].
  destruct (format_ok fuel buf (fg_at i) tmp args ps b m1) as (m2 & E2 & B2 & F2); try done; rewrite ?Es; try lia.
  - apply escape_pieces; try done; lia.
  - split; [done|]. cbn. repeat constructor; lia.
  - cbn [length fg_string app] in Bn. cbn [length fg_string]. rewrite <- Z.add_assoc. exact Bn.
  - apply escape_args; [lia | done | done |]. unfold m1. rewrite word_at_set_same. apply u32_small. lia.
  - apply quiet_safe; [exact Qf | cbn; lia | lia].
  - eapply present_sub; [exact P1 | lia | lia].
  - cbn [length]. unfold ps. cbn. lia.
  - assert (K2 : kept (c_mem s) m2).
    { etransitivity; [exact K1|]. split; [apply F2|]. intros x Hx. apply (fr_bytes _ _ _ _ _ F2).
      unfold wscratch in Hx. split; lia. }
    assert (C2 : cstring m2 buf (colour_sequence a)).
    { rewrite Et in B2. split.
      - change [0; b] with ([0] ++ [b]) in B2. rewrite app_assoc in B2. by apply bytes_at_app in B2 as [B2 _].
      - rewrite <- Et. unfold ps, escape_format, format_text. cbn.
        repeat (apply Forall_cons; split; [lia|]). apply Forall_app. split; [|repeat constructor; lia].
        eapply Forall_impl; [exact Fb|]. cbn. lia. }
    destruct (send_buffer_ok (colour_sequence a) fuel buf (with_cmem m2 s) L C2) as (t & E3 & S3); [rewrite <- Et; lia|].
    exists m1, m2, (Z.of_nat (length (fg_string d1 d2)) + 2), t. split_and!; try done.
    + apply on_cmem_ok. by apply store32_ok.
    + by rewrite (on_cmem_ok _ (with_cmem m1 s) _ _ E2).
Qed.

(** The loop of write, for a text whose escape characters are followed by a
    colour. *)
Lemma write_loop_ok n l fuel data i len s :
  (length l <= n)%nat -> line_ok dev polls (com s) -> colours_in (c_mem s) ->
  cstring (c_mem s) data l -> quiet data (Z.of_nat (length l) + 1) -> escaped l = true ->
  i + Z.of_nat (length l) <= len -> (length l + 1150 <= fuel)%nat ->
  exists m' t, write_loop dev fg_at bg_at polls buf tmp args fuel data i len s =
      Ok (i + Z.of_nat (length l), with_ctrace t (with_cmem m' s)) /\
    kept (c_mem s) m' /\ sends dev (com s) (a_trace (c_arch s)) (serial_text l) t.
Proof.
  revert l fuel data i s. induction n as [|n IH]; intros [|c l] fuel data i s Hn L Ci C Q Es Hl Hf;
    cbn [length] in *; try lia.
  1, 2: apply cstring_nil in C as [P B]; exists (c_mem s), (a_trace (c_arch s)); rewrite with_cmem_id, with_ctrace_id;
    split; [|split; [reflexivity | constructor]]; destruct fuel as [|fuel]; cbn [write_loop];
    rewrite (bind_ok _ _ _ _ _ (on_cmem_byte _ data 0 s eq_refl P B)); cbn [Z.eqb negb andb]; by rewrite Z.add_0_r.
  assert (C0 := C). apply cstring_cons in C as ((P & B) & Hc & C). destruct fuel as [|fuel]; [lia|]. cbn [write_loop].
  rewrite (bind_ok _ _ _ _ _ (on_cmem_byte _ data c s eq_refl P B)).
  destruct (Z.eqb_spec c 0), (Z.ltb_spec i len); try lia. cbn [negb andb].
  cbn [escaped serial_text] in *. destruct (Z.eqb_spec c 27) as [->|_].
  - destruct l as [|a l]; [done|]. apply cstring_cons in C as ((Pa & Ba) & Hab & C). cbn [length] in *.
    rewrite (bind_ok _ _ _ _ _ (on_cmem_byte _ (data + 1) a s eq_refl Pa Ba)).
    destruct (escape_ok fuel a s Ci ltac:(lia) L ltac:(lia)) as (m1 & m2 & r & t1 & E1 & E2 & E3 & K2 & S2).
    rewrite (bind_ok _ _ _ _ _ E1), (bind_ok _ _ _ _ _ E2), (bind_ok _ _ _ _ _ E3).
    replace (data + 1 + 1) with (data + 2) in C by lia.
    destruct (IH l fuel (data + 2) (i + 2) (with_ctrace t1 (with_cmem m2 s))) as (m' & t & E & K & S); try done; try lia.
    + by eapply kept_colours.
    + eapply changes_cstring; [exact K2 | exact C |]. eapply clear_sub; [exact Q | lia | lia].
    + eapply clear_sub; [exact Q | lia | lia].
    + exists m', t. rewrite E. split; [do 2 f_equal; lia|]. split; [by etransitivity|]. by eapply sends_app.
  - destruct (write_char_ok dev polls c s L) as (t1 & E1 & S1). rewrite (bind_ok _ _ _ _ _ E1).
    destruct (IH l fuel (data + 1) (i + 1) (with_ctrace t1 s)) as (m' & t & E & K & S); try done; try lia.
    + eapply clear_sub; [exact Q | lia | lia].
    + exists m', t. rewrite E. split; [do 2 f_equal; lia|]. split; [done|]. by apply (sends_app _ _ _ [c] t1).
Qed.
End colours.
