(* ===== verification/ConsoleSpec.v ===== *)
(** What kprintf does with a message: the text that vsprintf makes of the format
    goes out on the serial line, with its colours as escape sequences, and from
    the level INFO on it is also typed on the screen in these colours. *)

From S2P Require Import Prelude Memory CString Utils Vsprintf FormatSpec Arch ArchSpec Vga VgaSpec Console SerialSpec.

(** ** The screen *)

(** A colour escape sets the colours of the text; the background bits that were
    set before stay set. *)
Definition recolour (attr a : Z) : Z := u16 (Z.lor (Z.shiftl a 8) (Z.land attr 0xf000)).

(** The attribute and the terminal after a text. *)
Fixpoint screen_text (attr : Z) (l : list Z) (t : term) : Z * term :=
  match l with
  | [] => (attr, t)
  | c :: l => if c =? 27 then match l with [] => (attr, t) | a :: l => screen_text (recolour attr a) l t end
              else screen_text attr l (put_char attr (s8 c) t)
  end.

Lemma plain_screen_text attr l t :
  plain l -> screen_text attr l t = (attr, foldl (fun t c => put_char attr (s8 c) t) t l).
Proof.
  intros P. revert t. induction P as [|c l Hc _ IH]; intros t; [done|].
  cbn [screen_text foldl]. by rewrite (proj2 (Z.eqb_neq _ _) Hc), IH.
Qed.

Lemma on_vmem_byte v a c : page_present (v_mem v) a = true -> byte_at (v_mem v) a = c -> on_vmem (load8 a) v = Ok (c, v).
Proof. intros P <-. rewrite (on_vmem_ok _ _ _ (v_mem v) (load8_ok _ _ P)). by destruct v. Qed.

Lemma cstring_screen v v' a l :
  m_pages (v_mem v') = m_pages (v_mem v) ->
  (forall x, x < video_mem \/ video_mem + 4000 <= x -> byte_at (v_mem v') x = byte_at (v_mem v) x) ->
  a + Z.of_nat (length l) + 1 <= video_mem \/ video_mem + 4000 <= a -> cstring (v_mem v) a l -> cstring (v_mem v') a l.
Proof.
  intros P B Hd C. eapply (changes_cstring (fun x => video_mem <= x < video_mem + 4000)); [split; [done|] | done |].
  - intros x Hx. apply B. lia.
  - intros x Hx. lia.
Qed.

(** vga_write types the characters of a text. *)
Lemma vga_write_ok n l fuel data i len v t :
  (length l <= n)%nat -> vga_ok v -> shows v t -> cstring (v_mem v) data l -> escaped l = true -> (length l <= fuel)%nat ->
  i + Z.of_nat (length l) <= len ->
  (data + Z.of_nat (length l) + 1 <= video_mem \/ video_mem + 4000 <= data) ->
  exists v', vga_write_loop fuel data i len v = Ok (i + Z.of_nat (length l), v') /\ vga_ok v' /\
    attribute v' = (screen_text (attribute v) l t).1 /\ shows v' (screen_text (attribute v) l t).2 /\
    m_pages (v_mem v') = m_pages (v_mem v) /\
    forall x, x < video_mem \/ video_mem + 4000 <= x -> byte_at (v_mem v') x = byte_at (v_mem v) x.
Proof.
  revert l fuel data i v t. induction n as [|n IH]; intros [|c l] fuel data i v t Hn Hv Hs C Es Hf Hl Hd;
    cbn [length] in *; try lia.
  1, 2: apply cstring_nil in C as [P B]; exists v; split; [|by split_and!];
    destruct fuel; cbn [vga_write_loop]; rewrite (bind_ok _ _ _ _ _ (on_vmem_byte v data 0 P B));
    cbn [Z.eqb negb andb]; by rewrite Z.add_0_r.
  apply cstring_cons in C as ((P & B) & Hc & C). destruct fuel as [|fuel]; [lia|]. cbn [vga_write_loop].
  rewrite (bind_ok _ _ _ _ _ (on_vmem_byte v data c P B)).
  destruct (Z.eqb_spec c 0), (Z.ltb_spec i len); try lia. cbn [negb andb escaped screen_text] in *.
  destruct (Z.eqb_spec c 27) as [->|_].
  - destruct l as [|a l]; [done|]. apply cstring_cons in C as ((Pa & Ba) & Hab & C). cbn [length] in *.
    rewrite (bind_ok _ _ _ _ _ (on_vmem_byte v (data + 1) a Pa Ba)), (bind_ok _ _ v (attribute v) v) by done.
    set (v1 := Vga (v_mem v) (xpos v) (ypos v) (recolour (attribute v) a) (v_trace v)).
    rewrite (bind_ok _ _ v tt v1) by done. replace (data + 1 + 1) with (data + 2) in C by lia.
    destruct (IH l fuel (data + 2) (i + 2) v1 t) as (v' & E' & R); try done; try lia.
    + destruct Hv as [X Y A Pm]. split; try done. apply u16_range.
    + by destruct Hs.
    + exists v'. rewrite E'. split; [do 2 f_equal; lia | done].
  - destruct (print_char_run v t (s8 c) Hv Hs) as (v1 & E1 & V1 & S1 & A1 & P1 & B1 & _).
    { unfold s8. Z.div_mod_to_equations. lia. }
    rewrite (bind_ok _ _ _ _ _ E1).
    destruct (IH l fuel (data + 1) (i + 1) v1 (put_char (attribute v) (s8 c) t)) as (v' & E' & R); try done; try lia.
    + eapply cstring_screen; [exact P1 | exact B1 | lia | done].
    + rewrite A1 in R. destruct R as (R1 & R2 & R3 & R4 & R5). exists v'. rewrite E'. split; [do 2 f_equal; lia|].
      split_and!; try done; [congruence|]. intros x Hx. rewrite R5 by done. by apply B1.
Qed.

(** Memory outside the screen does not matter to it. *)
Definition screen_kept (m m' : mem) : Prop :=
  m_pages m' = m_pages m /\ forall x, video_mem <= x < video_mem + 4000 -> byte_at m' x = byte_at m x.

Lemma screen_mem v t m' :
  screen_kept (v_mem v) m' -> vga_ok v -> shows v t -> vga_ok (with_vmem m' v) /\ shows (with_vmem m' v) t.
Proof.
  intros [Pg B] [X Y A P] [Sx Sy Sc]. split; split; try done; cbn [v_mem with_vmem].
  - by apply (present_pages (v_mem v)).
  - intros i Hi. rewrite <- Sc by done. unfold cell. rewrite !B by lia. done.
Qed.

(** ** kprintf *)

Definition apart (a n b k : Z) : Prop := a + n <= b \/ b + k <= a.

Section kprintf.
Context (dev : list io_event -> Z -> Z) (polls : nat) (fg_at bg_at : Z -> Z) (wbuf tmp wargs : Z).

Abbreviation colours_in := (colours_in fg_at bg_at wbuf tmp wargs).
Abbreviation quiet := (quiet wbuf tmp wargs).
Abbreviation kept := (kept wbuf tmp wargs).

(** write: the buffer is cleared, then the loop runs. *)
Lemma write_ok l fuel data len s :
  line_ok dev polls (com s) -> colours_in (c_mem s) -> cstring (c_mem s) data l ->
  quiet data (Z.of_nat (length l) + 1) -> escaped l = true -> Z.of_nat (length l) <= len ->
  (length l + 1150 <= fuel)%nat ->
  exists m' t, write dev fg_at bg_at polls wbuf tmp wargs fuel data len s =
      Ok (Z.of_nat (length l), with_ctrace t (with_cmem m' s)) /\
    kept (c_mem s) m' /\ sends dev (com s) (a_trace (c_arch s)) (serial_text l) t.
Proof.
  intros L Ci C Q Es Hl Hf. destruct (ci_present _ _ _ _ _ _ Ci) as (Pw & _).
  destruct (stosb_ok 32 (c_mem s) wbuf 0 Pw) as (m1 & E1 & Fl). change (Z.of_nat 32) with 32 in Fl.
  assert (K1 : kept (c_mem s) m1).
  { split; [apply Fl|]. intros x Hx. rewrite (fl_bytes _ _ _ _ _ Fl). unfold wscratch in Hx.
    by replace ((wbuf <=? x) && (x <? wbuf + 32)) with false by zbool. }
  unfold write. rewrite (bind_ok _ _ _ _ _ (on_cmem_ok _ _ _ _ E1)).
  destruct (write_loop_ok dev polls fg_at bg_at wbuf tmp wargs (length l) l fuel data 0 len (with_cmem m1 s))
    as (m' & t & E & K & S); try done; try lia.
  - by eapply kept_colours.
  - by eapply changes_cstring.
  - exists m', t. rewrite E. split; [done|]. split; [by etransitivity | done].
Qed.

(** The tables are apart from the text, which vsprintf writes. *)
Lemma colours_frame tb size m m1 :
  (forall i, 0 <= i < 16 -> apart (fg_at i) 12 tb size /\ apart (bg_at i) 4 tb size) ->
  frame tb tmp size m m1 -> colours_in m -> colours_in m1.
Proof.
  intros A F Ci. eapply colours_changed; [by apply frame_changes | | exact Ci].
  intros i Hi. destruct (A i Hi) as [A1 A2]. destruct (ci_fg _ _ _ _ _ _ Ci i Hi) as (_ & Qf & _).
  destruct (ci_bg _ _ _ _ _ _ Ci i Hi) as (_ & Qb & _). unfold apart in *.
  split; intros x Hx; [specialize (Qf x Hx) | specialize (Qb x Hx)]; unfold wscratch in *; lia.
Qed.

(** The text and the screen, apart from everything that is written. *)
Record text_ok (tb size : Z) : Prop := {
  tk_quiet : quiet tb size;
  tk_tables : forall i, 0 <= i < 16 -> apart (fg_at i) 12 tb size /\ apart (bg_at i) 4 tb size;
  tk_screen : apart tb size video_mem 4000 /\ quiet video_mem 4000
}.

Lemma frame_screen tb size m m1 : text_ok tb size -> frame tb tmp size m m1 -> 0 < size -> screen_kept m m1.
Proof.
  intros [_ _ [A Q]] F Hz. split; [apply F|]. intros x Hx. apply (fr_bytes _ _ _ _ _ F). specialize (Q x Hx).
  unfold wscratch in Q. split; [destruct A; lia | lia].
Qed.

Lemma kept_screen tb size m m1 m2 : text_ok tb size -> kept m1 m2 -> screen_kept m m1 -> screen_kept m m2.
Proof.
  intros [_ _ [A Q]] [Kp Kb] [P B]. split; [congruence|]. intros x Hx. rewrite Kb by (by apply Q). by apply B.
Qed.

End kprintf.

(** kprintf, with everything that it changes. *)
Lemma kprintf_run dev polls fg_at bg_at wbuf tmp wargs fuel tb va level fmt ps b s t :
  let m := c_mem s in
  let n := Z.of_nat (length (format_src ps)) in
  let size := Z.of_nat (length (format_text ps)) + 2 in
  tb <> 0 -> fmt <> 0 -> Forall piece_ok ps -> 0 <= b < 256 -> b <> 37 ->
  cstring m fmt (format_src ps) -> bytes_at m (fmt + n + 1) [b] -> args_all tb tmp size m va ps ->
  safe tb tmp size fmt (n + 2) -> present m tb size -> size < 2 ^ 32 ->
  (length ps + length (format_src ps) + length (format_text ps) + 1150 <= fuel)%nat ->
  Forall (fun c => 0 < c < 256) (format_text ps) -> escaped (format_text ps) = true ->
  text_ok fg_at bg_at wbuf tmp wargs tb size -> colours_in fg_at bg_at wbuf tmp wargs m ->
  com_driver s = Some com_device -> vga_driver s = Some vga_device ->
  line_ok dev polls (com s) -> vga_ok (c_vga s) -> shows (c_vga s) t ->
  exists v' tr, kprintf_out dev fg_at bg_at polls wbuf tmp wargs fuel tb va level fmt s =
      Ok (n + 2, set_c_vga v' (with_ctrace tr s)) /\
    sends dev (com s) (a_trace (c_arch s)) (serial_text (format_text ps)) tr /\ vga_ok v' /\
    (let (attr, t') := if level_value INFO <=? level_value level then screen_text (attribute (c_vga s)) (format_text ps) t
                       else (attribute (c_vga s), t) in
     attribute v' = attr /\ shows v' t') /\
    m_pages (v_mem v') = m_pages m /\
    forall x, x < video_mem \/ video_mem + 4000 <= x -> ~ (tb <= x < tb + size) -> ~ wscratch wbuf tmp wargs x ->
      byte_at (v_mem v') x = byte_at m x.
Proof.
  intros m n size Hb Hf Hps Hbr Hb37 C Bb Ha S Pb Hsz Hfuel Hz Hes T Ci Dc Dv L Vok Vsh.
  set (l := format_text ps) in *. unfold kprintf_out. destruct (ci_present _ _ _ _ _ _ Ci) as (_ & Pt & _).
  assert (Hsep : tb + size <= tmp \/ tmp + 1024 <= tb).
  { apply interval_apart; [lia | lia |]. intros x Hx Hx'. apply (tk_quiet _ _ _ _ _ _ _ T x Hx). unfold wscratch. lia. }
  destruct (format_ok fuel tb fmt tmp va ps b m) as (m1 & E1 & B1 & F1); try done; [lia|].
  rewrite (bind_ok _ _ _ _ _ (on_cmem_ok _ s _ _ E1)). set (s1 := with_cmem m1 s).
  assert (C1 : cstring m1 tb l) by (split; [|done]; change [0; b] with ([0] ++ [b]) in B1;
    rewrite app_assoc in B1; by apply bytes_at_app in B1 as [B1 _]).
  assert (L1 : forall s', cstring (c_mem s') tb l -> on_cmem (strlen fuel tb) s' = Ok (Z.of_nat (length l) + 1, s'))
    by (intros s' C'; apply on_cmem_read, strlen_ok; [done | lia]).
  rewrite (bind_ok _ _ _ _ _ (L1 s1 C1)), (bind_ok _ _ s1 (Some com_device) s1) by (unfold gets; by rewrite <- Dc).
  assert (Q : quiet wbuf tmp wargs tb (Z.of_nat (length l) + 1))
    by (eapply clear_sub; [apply (tk_quiet _ _ _ _ _ _ _ T) | lia | lia]).
  destruct (write_ok dev polls fg_at bg_at wbuf tmp wargs l fuel tb (Z.of_nat (length l) + 1) s1)
    as (m2 & tr & E2 & K2 & S2); try done; try lia; [eapply colours_frame; [apply T | exact F1 | done]|].
  set (s2 := with_ctrace tr (with_cmem m2 s)).
  rewrite (bind_ok _ _ s1 (Z.of_nat (length l)) s2) by exact E2.
  assert (C2 : cstring m2 tb l) by (by eapply changes_cstring).
  destruct (screen_mem (c_vga s) t m2) as [V2 Sh2]; [| done | done |].
  { eapply kept_screen; [exact T | exact K2 |]. eapply frame_screen; [exact T | exact F1 | lia]. }
  assert (B2 : forall x, ~ (tb <= x < tb + size) -> ~ wscratch wbuf tmp wargs x -> byte_at m2 x = byte_at m x).
  { intros x Hx Hw. rewrite (ch_bytes _ _ _ K2) by done. apply (fr_bytes _ _ _ _ _ F1). unfold wscratch in Hw.
    unfold size in Hx. fold l in Hx |- *. split; [clear -Hx; lia | clear -Hw; lia]. }
  assert (P2 : m_pages m2 = m_pages m) by (rewrite (ch_pages _ _ _ K2); apply F1).
  destruct (level_value INFO <=? level_value level).
  - destruct (vga_write_ok (length l) l fuel tb 0 (Z.of_nat (length l) + 1) (c_vga s2) t) as (v' & E4 & V4 & A4 & S4 & P4 & B4);
      try done; try lia; [destruct (tk_screen _ _ _ _ _ _ _ T) as [[?|?] _]; lia|].
    exists v', tr. split; [|split_and!; try done].
    + rewrite (bind_ok _ _ s2 tt (set_c_vga v' s2)); [done|].
      rewrite (bind_ok _ _ _ _ _ (L1 s2 C2)), (bind_ok _ _ s2 (Some vga_device) s2) by (unfold gets; by rewrite <- Dv).
      rewrite (bind_ok _ _ s2 (0 + Z.of_nat (length l)) (set_c_vga v' s2)); [done|].
      cbn [device_write d_write vga_device]. unfold on_cvga, zoom, vga_write. by rewrite E4.
    + change (attribute (c_vga s2)) with (attribute (c_vga s)) in A4, S4.
      destruct (screen_text (attribute (c_vga s)) l t) as [attr t']. by split.
    + by rewrite P4.
    + intros x Hx Ht Hw. rewrite B4 by done. by apply B2.
  - exists (with_vmem m2 (c_vga s)), tr. split_and!; try done. intros x _. apply B2.
Qed.

(** C9: kprintf. The text of the format goes out on the serial line, where each
    colour escape is the terminal's sequence for that colour; from the level
    INFO on its characters are also typed on the screen in these colours, and
    below that level the screen stays as it is. The result is what vsprintf
    returns. This is for texts of non-zero bytes in which every escape character
    is followed by a colour, with the drivers that main() installs and a
    transmitter that gets ready. *)
Theorem kprintf_ok dev polls fg_at bg_at wbuf tmp wargs fuel tb va level fmt ps b s t :
  let m := c_mem s in
  let n := Z.of_nat (length (format_src ps)) in
  let size := Z.of_nat (length (format_text ps)) + 2 in
  tb <> 0 -> fmt <> 0 -> Forall piece_ok ps -> 0 <= b < 256 -> b <> 37 ->
  cstring m fmt (format_src ps) -> bytes_at m (fmt + n + 1) [b] -> args_all tb tmp size m va ps ->
  safe tb tmp size fmt (n + 2) -> present m tb size -> size < 2 ^ 32 ->
  (length ps + length (format_src ps) + length (format_text ps) + 1150 <= fuel)%nat ->
  Forall (fun c => 0 < c < 256) (format_text ps) -> escaped (format_text ps) = true ->
  text_ok fg_at bg_at wbuf tmp wargs tb size -> colours_in fg_at bg_at wbuf tmp wargs m ->
  com_driver s = Some com_device -> vga_driver s = Some vga_device ->
  line_ok dev polls (com s) -> vga_ok (c_vga s) -> shows (c_vga s) t ->
  exists s', kprintf_out dev fg_at bg_at polls wbuf tmp wargs fuel tb va level fmt s = Ok (n + 2, s') /\
    sends dev (com s) (a_trace (c_arch s)) (serial_text (format_text ps)) (a_trace (c_arch s')) /\
    vga_ok (c_vga s') /\
    let (attr, t') := if level_value INFO <=? level_value level then screen_text (attribute (c_vga s)) (format_text ps) t
                      else (attribute (c_vga s), t) in
    attribute (c_vga s') = attr /\ shows (c_vga s') t'.
Proof.
  intros m n size Hb Hf Hps Hbr Hb37 C Bb Ha S Pb Hsz Hfuel Hz Hes T Ci Dc Dv L Vok Vsh.
  destruct (kprintf_run dev polls fg_at bg_at wbuf tmp wargs fuel tb va level fmt ps b s t)
    as (v' & tr & E & Se & V' & Sh & _); try done.
  by exists (set_c_vga v' (with_ctrace tr s)).
Qed.

(** ** A concrete console *)

(** The colour strings from 5000 on, the format "\033\012%s\n" at 16 with the
    argument "ab" at 80, and an empty screen. *)
Definition sample_fg (i : Z) : Z := 5000 + 16 * i.
Definition sample_bg (i : Z) : Z := 5300 + 8 * i.

Definition colour_mem : mem :=
  put_bytes 16 [27; 10; 37; 115; 10; 0; 0] (set_word 64 80 (put_bytes 80 [97; 98; 0]
    (foldr (fun i m => put_bytes (sample_fg i) (fg i ++ [0; 0]) (put_bytes (sample_bg i) (bg i ++ [0]) m))
      (mem_with_pages 2 0) (seqZ 0 16)))).

Definition colour_format : list piece := [PChar 27; PChar 10; PStr (Spec [] None None) 80 [97; 98]; PChar 10].

Definition sample_console : console :=
  Console boot_arch 0x3f8 (Vga (map_page_at video_mem colour_mem) 0 0 0x0f00 []) (Some vga_device) (Some com_device).

(** A transmitter that is always empty. *)
Lemma ready_line n : line_ok (fun _ _ => 0x20) n 0x3f8.
Proof. split_and!; [lia | lia |]. intros t. exists 0%nat. split; [lia | reflexivity]. Defined.

Lemma sample_screen : vga_ok (c_vga sample_console).
Proof.
  split; [cbn; lia | cbn; lia | cbn; lia |]. intros i Hi. unfold page_present. apply bool_decide_eq_true.
  replace ((video_mem + i) / PAGE) with (video_mem / PAGE)
    by (unfold video_mem, PAGE; Z.div_mod_to_equations; lia).
  cbn [m_pages c_vga v_mem sample_console map_page_at]. set_solver.
Defined.

Lemma sample_console_args :
  args_all 512 1024 (Z.of_nat (length (format_text colour_format)) + 2) (c_mem sample_console) 64 colour_format.
Proof.
  do 2 (split; [by split|]). split; [|by split]. split.
  - intros w [= <-]. split_and!; vm_compute; intuition discriminate.
  - split; [apply cstring_b_ok; vm_compute; reflexivity | vm_compute; intuition discriminate].
Defined.

Lemma sample_colours : colours_in sample_fg sample_bg 3000 1024 4000 (c_mem sample_console).
Proof.
  split.
  - apply colour_cases. repeat (apply Forall_cons; split; [split_and!; [unfold sample_fg; lia | intros x Hx; unfold wscratch, sample_fg in *; lia |
      exists 0; split; [apply bytes_at_b_ok; vm_compute; reflexivity | lia]]|]). by apply Forall_nil.
  - apply colour_cases. repeat (apply Forall_cons; split; [split_and!; [unfold sample_bg; lia | unfold sample_bg; lia
      | intros x Hx; unfold wscratch, sample_bg in *; lia | apply cstring_b_ok; vm_compute; reflexivity]|]). by apply Forall_nil.
  - split_and!; [apply (present_b_ok _ 32); vm_compute; reflexivity | apply (present_b_ok _ 1024); vm_compute; reflexivity
      | vm_compute; reflexivity].
  - lia.
Defined.

Lemma sample_text : text_ok sample_fg sample_bg 3000 1024 4000 512 7.
Proof.
  split.
  - intros x Hx. unfold wscratch. lia.
  - intros i Hi. unfold apart, sample_fg, sample_bg. lia.
  - unfold apart, video_mem. split; [lia|]. intros x Hx. unfold wscratch. lia.
Defined.

Lemma kprintf_ok_witness :
  let t := Term 0 0 (cell (v_mem (c_vga sample_console))) in
  exists s', kprintf_out (fun _ _ => 0x20) sample_fg sample_bg 0 3000 1024 4000 2000 512 64 NOTICE 16 sample_console =
      Ok (Z.of_nat (length (format_src colour_format)) + 2, s') /\
    sends (fun _ _ => 0x20) (com sample_console) (a_trace (c_arch sample_console)) (serial_text (format_text colour_format))
      (a_trace (c_arch s')) /\
    vga_ok (c_vga s') /\
    let (attr, t') := if level_value INFO <=? level_value NOTICE
                      then screen_text (attribute (c_vga sample_console)) (format_text colour_format) t
                      else (attribute (c_vga sample_console), t) in
    attribute (c_vga s') = attr /\ shows (c_vga s') t'.
Proof.
  intros t. apply (kprintf_ok (fun _ _ => 0x20) 0 sample_fg sample_bg 3000 1024 4000 2000 512 64 NOTICE 16
    colour_format 0 sample_console t); try lia.
  - do 2 (apply Forall_cons; split; [cbn; lia|]). apply Forall_cons; split; [|apply Forall_cons; split; [cbn; lia | by apply Forall_nil]].
    split; [split; cbn; [by apply Forall_nil | done | done] | cbn; lia].
  - apply cstring_b_ok. vm_compute. reflexivity.
  - apply (bytes_at_b_ok _ [0]). vm_compute. reflexivity.
  - exact sample_console_args.
  - vm_compute. intuition discriminate.
  - apply (present_b_ok _ 7). vm_compute. reflexivity.
  - vm_compute. reflexivity.
  - apply Nat.leb_le. vm_compute. reflexivity.
  - apply (bool_decide_unpack (Forall _ (format_text colour_format))). vm_compute. exact I.
  - reflexivity.
  - exact sample_text.
  - exact sample_colours.
  - reflexivity.
  - reflexivity.
  - apply ready_line.
  - exact sample_screen.
  - by split.
Defined.

(** The port base of the BIOS data area, 0x3f8, at the address where the kernel
    sees it. *)
Definition bda_console : console :=
  Console boot_arch 0 (Vga (put_bytes 0xc0000400 [0xf8; 3] (mem_with_pages 1 0xc0000000)) 0 0 0x0f00 []) None None.

Definition reset_uart : uart := Uart 0 0 0 0 0 [].

Lemma serial_init_ok_witness :
  exists t, serial_init (fun _ _ => 0x20) 0xc0000000 0 bda_console = Ok (com_device, with_ctrace t (set_com 0x3f8 bda_console)) /\
    uart_after 0x3f8 t reset_uart =
      Uart 3 0 0xc7 0x03 0x0b (u_line (uart_after 0x3f8 (a_trace (c_arch bda_console)) reset_uart) ++ init_message).
Proof.
  apply (serial_init_ok (fun _ _ => 0x20) 0xc0000000 0 bda_console 0x3f8 reset_uart);
    [apply (present_b_ok _ 2); vm_compute; reflexivity | vm_compute; reflexivity | apply ready_line | vm_compute; reflexivity].
Defined.
