(* ===== verification/InitrdSpec.v ===== *)
(** What initrd_parse does: the offset of every file of the ramdisk becomes the
    address of its contents. *)

From S2P Require Import Prelude Memory CString Utils Vsprintf FormatSpec Frames Arch Boot BootSpec.

Section initrd.
Context (location n str_name name_buf tmp args : Z) (m0 : mem).
(** The name of each file. *)
Context (name : Z -> list Z).

(** The memory that the loop may write besides the headers: the local buffer,
    that of vsprintf and the argument. *)
Definition scratch (x : Z) : Prop :=
  name_buf <= x < name_buf + 128 \/ tmp <= x < tmp + 1024 \/ args <= x < args + 4.

Definition offset_word (j x : Z) : Prop := file_offset location j <= x < file_offset location j + 4.

(** The ramdisk: [n] headers, each with a name that fits into the buffer
    together with the slash and the two bytes that vsprintf adds. *)
Record ramdisk : Prop := {
  rd_count : word_present m0 (nfiles_at location) = true /\ word_at m0 (nfiles_at location) = n;
  rd_range : 0 <= location /\ location + SIZEOF_INITRD_HEADER + n * SIZEOF_FILE_HEADER < 2 ^ 32;
  rd_offset : forall j, 0 <= j < n -> word_present m0 (file_offset location j) = true;
  rd_name : forall j, 0 <= j < n -> cstring m0 (file_name location j) (name j) /\ (length (name j) <= 125)%nat;
  rd_quiet : forall x, location <= x < location + SIZEOF_INITRD_HEADER + n * SIZEOF_FILE_HEADER -> ~ scratch x
}.

(** The buffers, and the format "/%s" with the byte behind it. *)
Record buffers (b : Z) : Prop := {
  bf_fmt : cstring m0 str_name [47; 37; 115] /\ bytes_at m0 (str_name + 4) [b] /\ 0 <= b < 256 /\ b <> 37;
  bf_fmt_range : (str_name + 5 <= location \/ location + SIZEOF_INITRD_HEADER + n * SIZEOF_FILE_HEADER <= str_name) /\
    str_name <> 0 /\ forall x, str_name <= x < str_name + 5 -> ~ scratch x;
  bf_present : present m0 name_buf 128 /\ present m0 tmp 1024 /\ word_present m0 args = true;
  bf_apart : (name_buf + 128 <= tmp \/ tmp + 1024 <= name_buf) /\ (args + 4 <= name_buf \/ name_buf + 128 <= args) /\
    (args + 4 <= tmp \/ tmp + 1024 <= args) /\ name_buf <> 0
}.

(** After [i] rounds. *)
Record relocated (i : Z) (m : mem) : Prop := {
  rl_pages : m_pages m = m_pages m0;
  rl_done : forall j, 0 <= j < i -> word_at m (file_offset location j) = u32 (word_at m0 (file_offset location j) + location);
  rl_other : forall x, ~ scratch x -> (forall j, 0 <= j < i -> ~ offset_word j x) -> byte_at m x = byte_at m0 x
}.

Lemma relocated_start : relocated 0 m0.
Proof. split; [done | lia | done]. Qed.

Lemma word_ext m m' a : (forall x, a <= x < a + 4 -> byte_at m' x = byte_at m x) -> word_at m' a = word_at m a.
Proof. intros E. unfold word_at. by rewrite !E by lia. Qed.

Lemma relocated_bytes i m a l :
  relocated i m -> bytes_at m0 a l ->
  (forall x, a <= x < a + Z.of_nat (length l) -> ~ scratch x /\ forall j, 0 <= j < i -> ~ offset_word j x) ->
  bytes_at m a l.
Proof.
  intros [Rp _ Ro] B Hq k c Hk. pose proof (lookup_lt_Some _ _ _ Hk). destruct (B k c Hk) as [P E].
  destruct (Hq (a + Z.of_nat k)) as [Q1 Q2]; [lia|].
  split; [unfold page_present in *; by rewrite Rp | by rewrite Ro].
Qed.

Context (b : Z) (Rd : ramdisk) (Bf : buffers b).

Ltac layout := unfold offset_word, file_offset, file_name, file_header, nfiles_at, SIZEOF_INITRD_HEADER, SIZEOF_FILE_HEADER in *.

(** The headers' other fields, and the format, are left alone. *)
Lemma name_quiet i x : 0 <= i < n -> file_name location i <= x < file_name location i + 128 ->
  ~ scratch x /\ forall j, ~ offset_word j x.
Proof. intros Hi Hx. split; [apply (rd_quiet Rd); layout; nia | intros j; layout; lia]. Qed.

Lemma count_quiet x : 0 <= n -> nfiles_at location <= x < nfiles_at location + 4 ->
  ~ scratch x /\ forall j, 0 <= j -> ~ offset_word j x.
Proof. intros Hn Hx. split; [apply (rd_quiet Rd); layout; nia | intros j; layout; lia]. Qed.

Lemma format_quiet x : str_name <= x < str_name + 5 -> ~ scratch x /\ forall j, 0 <= j < n -> ~ offset_word j x.
Proof.
  intros Hx. destruct (bf_fmt_range b Bf) as (D & _ & Q). split; [by apply Q|]. intros j Hj. layout.
  destruct D; nia.
Qed.

Lemma offset_quiet i x : 0 <= i < n -> offset_word i x -> ~ scratch x /\ forall j, j <> i -> ~ offset_word j x.
Proof. intros Hi Hx. split; [apply (rd_quiet Rd); layout; nia | intros j Hj; layout; lia]. Qed.

Lemma present_pages_word m a : m_pages m = m_pages m0 -> word_present m0 a = true -> word_present m a = true.
Proof. intros E. unfold word_present, page_present. by rewrite E. Qed.

(** The two stores of a round. *)
Definition before_print (i : Z) (m : mem) : mem :=
  set_word args (file_name location i)
    (set_word (file_offset location i) (u32 (word_at m0 (file_offset location i) + location)) m).

Lemma before_print_byte i m x : ~ scratch x -> ~ offset_word i x -> byte_at (before_print i m) x = byte_at m x.
Proof.
  intros Q O. unfold before_print, scratch, offset_word in *. by rewrite !byte_at_set_word_other by lia.
Qed.

Lemma before_print_bytes i m a l :
  relocated i m -> 0 <= i -> bytes_at m0 a l ->
  (forall x, a <= x < a + Z.of_nat (length l) -> ~ scratch x /\ forall j, 0 <= j <= i -> ~ offset_word j x) ->
  bytes_at (before_print i m) a l.
Proof.
  intros R Hi B Hq k c Hk. pose proof (lookup_lt_Some _ _ _ Hk). destruct (Hq (a + Z.of_nat k)) as [Q1 Q2]; [lia|].
  assert (Bm : bytes_at m a l) by (eapply relocated_bytes; [exact R | done |]; intros x Hx;
    destruct (Hq x Hx) as [H1 H2]; split; [done|]; intros j Hj; apply H2; lia).
  destruct (Bm k c Hk) as [P E]. split; [done|]. rewrite before_print_byte; [done | done | apply Q2; lia].
Qed.

(** Memory that is not scratch lies apart from the buffers. *)
Lemma quiet_apart a k : 0 < k -> (forall x, a <= x < a + k -> ~ scratch x) ->
  (a + k <= name_buf \/ name_buf + 128 <= a) /\ (a + k <= tmp \/ tmp + 1024 <= a).
Proof.
  intros Hk Hq. split; apply interval_apart; try lia; intros x Hx; specialize (Hq x Hx); unfold scratch in Hq; tauto.
Qed.

(** The pieces of "/%s" for a file. *)
Definition name_format (i : Z) : list piece :=
  [PChar 47; PStr (Spec [] None None) (file_name location i) (name i)].

(** vsprintf of the name, from the memory after the two stores. *)
Lemma print_name fuel i m :
  relocated i m -> 0 <= i < n -> (1107 <= fuel)%nat ->
  exists r m', vsprintf fuel name_buf str_name tmp args (before_print i m) = Ok (r, m') /\
    m_pages m' = m_pages m0 /\ (forall x, ~ scratch x -> byte_at m' x = byte_at (before_print i m) x).
Proof.
  intros R Hi Hf. set (m2 := before_print i m).
  destruct (rd_name Rd i Hi) as [Cn Ln]. destruct (bf_apart b Bf) as (A1 & A2 & A3 & A4).
  destruct (bf_fmt b Bf) as (Cf & Bb & Hb & Hb37). destruct (bf_fmt_range b Bf) as (_ & Hz & Qf).
  destruct (bf_present b Bf) as (P1 & P2 & P3). destruct (rd_range Rd) as [Hl Hr].
  assert (Pg : m_pages m2 = m_pages m0) by apply (rl_pages _ _ R).
  assert (Hname : 0 <= file_name location i < 2 ^ 32) by (layout; nia).
  destruct (quiet_apart (file_name location i) 128) as [Sn St];
    [lia | intros x Hx; by apply (name_quiet i) |].
  destruct (quiet_apart str_name 5) as [Fn Ft]; [lia | done |].
  set (size := Z.of_nat (length (format_text (name_format i))) + 2).
  assert (Lt : length (format_text (name_format i)) = S (length (name i)))
    by (unfold format_text, name_format; cbn; by rewrite app_nil_r).
  assert (Hs : size <= 128) by (unfold size; lia).
  assert (Fs : format_src (name_format i) = [47; 37; 115]) by done.
  assert (Hsep : name_buf + size <= tmp \/ tmp + 1024 <= name_buf) by lia.
  destruct (format_ok fuel name_buf str_name tmp args (name_format i) b m2) as (m' & E & _ & F); fold size;
    rewrite ?Fs; cbn [length]; try done; try lia.
  - apply Forall_cons. split; [cbn; lia|]. apply Forall_cons. split; [|by apply Forall_nil].
    split; [split; cbn; [by apply Forall_nil | done | done] | cbn; lia].
  - destruct Cf as [Cf Fl]. split; [|done]. apply before_print_bytes; [done | lia | done |].
    intros x Hx. cbn [app length] in Hx. destruct (format_quiet x) as [Q1 Q2]; [lia|]. split; [done|].
    intros k Hk. apply Q2. lia.
  - replace (str_name + Z.of_nat 3 + 1) with (str_name + 4) by lia. apply before_print_bytes; [done | lia | done |].
    intros x Hx. cbn [length] in Hx. destruct (format_quiet x) as [Q1 Q2]; [lia|]. split; [done|].
    intros k Hk. apply Q2. lia.
  - split; [by split|]. cbn [words length]. change (4 * Z.of_nat 0) with 0. rewrite Z.add_0_r. split; [|done]. split.
    + intros w [= <-]. split_and!; [by apply present_pages_word | | split; lia].
      unfold m2, before_print. rewrite word_at_set_same. by apply u32_small.
    + split; [|split; lia]. destruct Cn as [Cn Fl]. split; [|done]. apply before_print_bytes; [done | lia | done |].
      intros x Hx. rewrite length_app in Hx. cbn [length] in Hx. destruct (name_quiet i x) as [Q1 Q2]; [done | lia |].
      split; [done|]. intros k _. apply Q2.
  - split; lia.
  - eapply present_pages; [exact Pg|]. eapply present_sub; [exact P1 | lia | lia].
  - by eapply present_pages.
  - eexists _, m'. split; [exact E|]. split; [by rewrite (fr_pages _ _ _ _ _ F)|].
    intros x Hx. apply (fr_bytes _ _ _ _ _ F). unfold scratch in Hx. split; lia.
Qed.

(** One round leaves the headers relocated up to the next file. *)
Lemma round_relocated i m m' :
  relocated i m -> 0 <= i < n -> m_pages m' = m_pages m0 ->
  (forall x, ~ scratch x -> byte_at m' x = byte_at (before_print i m) x) -> relocated (i + 1) m'.
Proof.
  intros R Hi Pg Hb. split; [done | |].
  - intros j Hj. assert (Ej : forall x, offset_word j x -> byte_at m' x = byte_at (before_print i m) x).
    { intros x Hx. apply Hb. apply (offset_quiet j x); [lia | done]. }
    rewrite (word_ext (before_print i m) m') by exact Ej. destruct (decide (j = i)) as [->|Hne].
    + unfold before_print. rewrite word_at_set_other, word_at_set_same; [unfold u32; by rewrite Zmod_mod|].
      destruct (interval_apart (file_offset location i) 4 args 4) as [D|D]; try lia.
      intros x Hx. destruct (offset_quiet i x) as [Q _]; [lia | done |]. unfold scratch in Q. tauto.
    + rewrite <- (rl_done i m R j) by lia. apply word_ext. intros x Hx.
      destruct (offset_quiet j x) as [Q1 Q2]; [lia | done |]. apply before_print_byte; [done | apply Q2; lia].
  - intros x Q O. rewrite Hb by done. rewrite before_print_byte; [|done | apply O; lia].
    apply (rl_other i m R); [done|]. intros j Hj. apply O. lia.
Qed.

Lemma boot_mem_write {A} (c : M mem A) s x m :
  c (b_mem s) = Ok (x, m) -> on_mem c s = Ok (x, BootState m (b_bits s) (b_placement s) (b_initrd s) (b_log s)).
Proof. intros E. unfold on_mem, zoom. by rewrite E. Qed.

(** The number of files is read again in every round. *)
Lemma count_read i s : relocated i (b_mem s) -> 0 <= i <= n -> on_mem (load32 (nfiles_at location)) s = Ok (n, s).
Proof.
  intros R Hi. destruct (rd_count Rd) as [Pc Ec]. apply boot_mem_read.
  rewrite load32_ok by (apply present_pages_word; [apply (rl_pages _ _ R) | done]). do 2 f_equal.
  rewrite <- Ec. apply word_ext. intros x Hx. destruct (count_quiet x) as [Q1 Q2]; [lia | done |].
  apply (rl_other _ _ R); [done|]. intros j Hj. apply Q2. lia.
Qed.

Lemma parse_from_ok fuel fmt_fuel i s :
  b_initrd s = location -> relocated i (b_mem s) -> 0 <= i <= n -> n - i <= Z.of_nat fuel -> (1107 <= fmt_fuel)%nat ->
  exists s', initrd_parse_from str_name name_buf tmp args fuel fmt_fuel i s = Ok (tt, s') /\
    relocated n (b_mem s') /\ b_bits s' = b_bits s /\ b_placement s' = b_placement s /\ b_initrd s' = location.
Proof.
  revert i s. induction fuel as [|fuel IH]; intros i s El R Hi Hf Hff; cbn [initrd_parse_from].
  all: rewrite (bind_ok _ _ s location s) by (unfold gets; by rewrite El).
  all: rewrite (bind_ok _ _ _ _ _ (count_read i s R Hi)); destruct (Z.ltb_spec i n) as [L|L]; [try lia|].
  1, 3: exists s; replace n with i by lia; by split_and!.
  set (s1 := BootState (b_mem s) (b_bits s) (b_placement s) (b_initrd s) ((INFO, "-> Loading '%s': %d bytes..."%string) :: b_log s)).
  rewrite (bind_ok _ _ s tt s1) by done.
  assert (Po : word_present (b_mem s) (file_offset location i) = true)
    by (apply present_pages_word; [apply (rl_pages _ _ R) | apply (rd_offset Rd); lia]).
  assert (Eo : word_at (b_mem s) (file_offset location i) = word_at m0 (file_offset location i)).
  { apply word_ext. intros x Hx. destruct (offset_quiet i x) as [Q1 Q2]; [lia | done |].
    apply (rl_other _ _ R); [done|]. intros j Hj. apply Q2. lia. }
  rewrite (bind_ok _ _ _ _ _ (boot_mem_read _ s1 _ (load32_ok _ _ Po))). cbn [b_mem s1]. rewrite Eo.
  rewrite (bind_ok _ _ _ _ _ (boot_mem_write _ s1 _ _ (store32_ok _ _ _ Po))).
  set (s2 := BootState _ _ _ _ _). destruct (bf_present b Bf) as (_ & _ & Pa).
  assert (Pa' : word_present (b_mem s2) args = true) by (apply present_pages_word; [apply (rl_pages _ _ R) | done]).
  rewrite (bind_ok _ _ _ _ _ (boot_mem_write _ s2 _ _ (store32_ok _ _ _ Pa'))).
  destruct (print_name fmt_fuel i (b_mem s) R) as (r & m' & E & Pg & Hb); [lia | done |].
  set (s3 := BootState _ _ _ _ _).
  rewrite (bind_ok _ _ _ _ _ (boot_mem_write _ s3 _ _ E)).
  destruct (IH (i + 1) (BootState m' (b_bits s3) (b_placement s3) (b_initrd s3) (b_log s3))) as (s' & E' & R' & F1 & F2 & F3);
    [done | apply (round_relocated i (b_mem s) m'); [done | lia | done | done] | lia | lia | done |].
  exists s'. by split_and!.
Qed.
End initrd.

(** ** Properties *)

(** initrd_init with one module that holds a ramdisk image. *)
Lemma relocation voffset str_initrd str_name name_buf tmp args fuel fmt_fuel mbi flags count mods start stop n name b s :
  let m := b_mem s in let location := u32 (start + voffset) in
  load32 (mbi_flags mbi) m = Ok (flags, m) -> Z.testbit flags 3 = true ->
  load32 (mbi_mods_count mbi) m = Ok (count, m) -> 0 < count ->
  load32 (mbi_mods_addr mbi) m = Ok (mods, m) -> load32 mods m = Ok (start, m) -> load32 (u32 (mods + 4)) m = Ok (stop, m) ->
  cstring m location (chars "INITRD") -> cstring m str_initrd (chars "INITRD") ->
  ramdisk location n name_buf tmp args m name -> 0 <= n <= Z.of_nat fuel ->
  buffers location n str_name name_buf tmp args m b -> (1107 <= fmt_fuel)%nat ->
  exists s', initrd_init voffset str_initrd str_name name_buf tmp args fuel fmt_fuel mbi s = Ok (tt, s') /\
    relocated location name_buf tmp args m n (b_mem s') /\
    b_placement s' = u32 (stop + voffset) /\ b_initrd s' = location /\ b_bits s' = b_bits s.
Proof.
  intros m location Ef F3 Ec Hc Em Es Ee Cm Ci Rd Hn Bf Hff. unfold initrd_init.
  rewrite (bind_ok _ _ _ _ _ (boot_mem_read _ s _ Ef)). unfold MULTIBOOT_MODS.
  rewrite <- Z.shiftl_1_l, land_bit_zero, F3 by lia. cbn [negb]. rewrite (bind_ok _ _ s tt s) by done.
  rewrite (bind_ok _ _ _ _ _ (boot_mem_read _ s _ Ec)). destruct (Z.ltb_spec 0 count); [|lia].
  rewrite (bind_ok _ _ s tt s) by done. rewrite (bind_ok _ _ _ _ _ (boot_mem_read _ s _ Em)).
  rewrite (bind_ok _ _ _ _ _ (boot_mem_read _ s _ Es)), (bind_ok _ _ _ _ _ (boot_mem_read _ s _ Ee)).
  set (s1 := BootState m (b_bits s) (u32 (stop + voffset)) location (b_log s)).
  rewrite (bind_ok _ _ s tt s1) by done.
  set (s2 := BootState m (b_bits s) (u32 (stop + voffset)) location
    ((INFO, "[initrd] Location [0x%x-0x%x] = 0x%x bytes"%string) :: b_log s)).
  rewrite (bind_ok _ _ s1 tt s2), (bind_ok _ _ s2 location s2) by done.
  assert (Ecmp : strcmp fmt_fuel location str_initrd m = Ok (0, m)).
  { rewrite (strcmp_ok m location str_initrd _ _ fmt_fuel Cm Ci) by (cbn; lia). done. }
  rewrite (bind_ok _ _ _ _ _ (boot_mem_read _ s2 _ Ecmp)), (bind_ok _ _ s2 tt s2) by done.
  unfold initrd_parse. set (s3 := BootState m (b_bits s) (u32 (stop + voffset)) location
    ((INFO, "[vfs] Processing initrd..."%string) :: b_log s2)). rewrite (bind_ok _ _ s2 tt s3) by done.
  destruct (parse_from_ok location n str_name name_buf tmp args m name b Rd Bf fuel fmt_fuel 0 s3)
    as (s' & E & R & B1 & B2 & B3); [done | apply relocated_start | lia | lia | done |].
  exists s'. by split_and!.
Qed.

(** C31: initrd_init with one module that holds a ramdisk image: the memory that
    kmalloc hands out starts behind the image, the magic string is accepted,
    and the offset field of every file header is moved by the address of the
    image, so that it is the address of the file. Nothing else of the image and
    no memory outside the buffers changes, provided every file name has at most
    125 characters; the frame bitmap is left alone. *)
Theorem initrd_init_ok voffset str_initrd str_name name_buf tmp args fuel fmt_fuel mbi flags count mods start stop n name b s :
  let m := b_mem s in let location := u32 (start + voffset) in
  load32 (mbi_flags mbi) m = Ok (flags, m) -> Z.testbit flags 3 = true ->
  load32 (mbi_mods_count mbi) m = Ok (count, m) -> 0 < count ->
  load32 (mbi_mods_addr mbi) m = Ok (mods, m) -> load32 mods m = Ok (start, m) -> load32 (u32 (mods + 4)) m = Ok (stop, m) ->
  cstring m location (chars "INITRD") -> cstring m str_initrd (chars "INITRD") ->
  ramdisk location n name_buf tmp args m name -> 0 <= n <= Z.of_nat fuel ->
  buffers location n str_name name_buf tmp args m b -> (1107 <= fmt_fuel)%nat ->
  exists s', initrd_init voffset str_initrd str_name name_buf tmp args fuel fmt_fuel mbi s = Ok (tt, s') /\
    relocated location name_buf tmp args m n (b_mem s') /\
    b_placement s' = u32 (stop + voffset) /\ b_initrd s' = location /\ b_bits s' = b_bits s.
Proof.
  intros m location. apply relocation.
Qed.

(** ** A concrete image: one file, "a" *)

Definition image_mem : mem :=
  set_word (mbi_flags 0xc0001000) 8 (set_word (mbi_mods_count 0xc0001000) 1 (set_word (mbi_mods_addr 0xc0001000) 0x5000
    (set_word 0x5000 0x3000 (set_word 0x5004 0x4000
      (put_bytes 0xc0006000 [73; 78; 73; 84; 82; 68; 0] (put_bytes 0xc0006010 [47; 37; 115; 0; 0]
        (put_bytes 0xc0003000 [73; 78; 73; 84; 82; 68; 0; 1; 0; 0; 0; 0xbf; 97; 0]
          (set_word (file_offset 0xc0003000 0) 0x2300
            (map_page_at 0x5000 (mem_with_pages 16 0xc0001000)))))))))).

Definition image_boot : boot := BootState image_mem (Bitmap [] 0 0) 0 0 [].

Lemma image_ramdisk : ramdisk 0xc0003000 1 0xc0007000 0xc0008000 0xc0009000 image_mem (fun _ => [97]).
Proof.
  split.
  - split; vm_compute; reflexivity.
  - unfold SIZEOF_INITRD_HEADER, SIZEOF_FILE_HEADER. lia.
  - intros j Hj. replace j with 0 by lia. vm_compute. reflexivity.
  - intros j Hj. replace j with 0 by lia. split; [apply cstring_b_ok; vm_compute; reflexivity | cbn; lia].
  - unfold SIZEOF_INITRD_HEADER, SIZEOF_FILE_HEADER, scratch. lia.
Defined.

Lemma image_buffers : buffers 0xc0003000 1 0xc0006010 0xc0007000 0xc0008000 0xc0009000 image_mem 0.
Proof.
  split.
  - split_and!; [apply cstring_b_ok; vm_compute; reflexivity | apply (bytes_at_b_ok _ [0]); vm_compute; reflexivity | lia..].
  - unfold SIZEOF_INITRD_HEADER, SIZEOF_FILE_HEADER, scratch. split_and!; lia.
  - split_and!; [apply (present_b_ok _ 128) | apply (present_b_ok _ 1024) |]; vm_compute; reflexivity.
  - lia.
Defined.

Lemma initrd_init_ok_witness :
  exists s', initrd_init 0xc0000000 0xc0006000 0xc0006010 0xc0007000 0xc0008000 0xc0009000 1 1107 0xc0001000 image_boot = Ok (tt, s') /\
    relocated (u32 (0x3000 + 0xc0000000)) 0xc0007000 0xc0008000 0xc0009000 image_mem 1 (b_mem s') /\
    b_placement s' = u32 (0x4000 + 0xc0000000) /\ b_initrd s' = u32 (0x3000 + 0xc0000000) /\ b_bits s' = b_bits image_boot.
Proof.
  apply (initrd_init_ok 0xc0000000 0xc0006000 0xc0006010 0xc0007000 0xc0008000 0xc0009000 1 1107 0xc0001000 8 1 0x5000
    0x3000 0x4000 1 (fun _ => [97]) 0 image_boot);
    try (apply load32_eq; vm_compute; reflexivity); try (apply cstring_b_ok; vm_compute; reflexivity); try reflexivity; try lia.
  - exact image_ramdisk.
  - exact image_buffers.
Defined.
