(* ===== verification/MkInitrd.v ===== *)
(** The host tool that builds the ramdisk image: make_initrd.c.

    The array of file headers is the block of bytes that the C array is, with
    the bytes the stack held before; a store outside of it is [OutOfBounds]. The
    host's file system is a parameter: [fs name] is the contents of a file, if
    it exists; [writable] says whether initrd.img can be created. Memory of the
    host's malloc is taken to be there. Messages are recorded by their format. *)

From S2P Require Import Prelude.

Definition MAGIC_FILE : Z := 0xbf.
Definition MAX_FILES : Z := 64.
(** struct initrd_header: magic, name[128], three bytes of padding, offset, length. *)
Definition sizeof_header : Z := 140.

Record tool : Type := Tool {
  headers : list Z;
  img : list Z;              (** what was written to initrd.img *)
  stdout : list string
}.

(** A 32-bit word in the byte order of the host, low byte first. *)
Definition le32 (v : Z) : list Z := [u8 v; u8 (v / 2 ^ 8); u8 (v / 2 ^ 16); u8 (v / 2 ^ 24)].

(** The word that four bytes of a block make. *)
Definition word_of (l : list Z) (o : Z) : Z :=
  let b k := default 0 (l !! Z.to_nat (o + k)) in b 0 + 2 ^ 8 * b 1 + 2 ^ 16 * b 2 + 2 ^ 24 * b 3.

(** Bytes of the block replaced from offset [o] on. *)
Definition blit (o : Z) (l a : list Z) : list Z :=
  take (Z.to_nat o) a ++ l ++ drop (Z.to_nat o + length l) a.

Definition print (msg : string) : M tool unit := modify (fun t => Tool (headers t) (img t) (msg :: stdout t)).
Definition fwrite (l : list Z) : M tool unit := modify (fun t => Tool (headers t) (img t ++ l) (stdout t)).

Definition store_bytes (o : Z) (l : list Z) : M tool unit := fun t =>
  if o + Z.of_nat (length l) <=? Z.of_nat (length (headers t))
  then Ok (tt, Tool (blit o l (headers t)) (img t) (stdout t)) else Err (OutOfBounds o).
Definition load_word (o : Z) : M tool Z := fun t =>
  if o + 4 <=? Z.of_nat (length (headers t)) then Ok (word_of (headers t) o, t) else Err (OutOfBounds o).

(** headers[i] and its fields. *)
Definition header_of (i : Z) : Z := sizeof_header * i.
Definition name_of (i : Z) : Z := header_of i + 1.
Definition offset_of (i : Z) : Z := header_of i + 132.
Definition length_of (i : Z) : Z := header_of i + 136.

Section tool.
Context (fs : list Z -> option (list Z)) (writable : bool).

(** The loop that fills in the headers, over argv[i+1], ...; [None] is the
    return with status 1. The message names argv[i*2+1]. *)
Fixpoint describe (argv : list (list Z)) (i : Z) (names : list (list Z)) (off : Z) : M tool (option Z) :=
  match names with
  | [] => mret (Some off)
  | name :: names =>
      print "writing file %s at 0x%x";;
      store_bytes (name_of i) (name ++ [0]);;
      store_bytes (offset_of i) (le32 off);;
      match fs name with
      | None =>
          match argv !! Z.to_nat (i * 2 + 1) with
          | None => throw (OutOfBounds (i * 2 + 1))
          | Some _ => print "Error: file not found: %s";; mret None
          end
      | Some data =>
          store_bytes (length_of i) (le32 (Z.of_nat (length data)));;
          len ← load_word (length_of i);
          store_bytes (header_of i) [MAGIC_FILE];;
          describe argv (i + 1) names (u32 (off + len))
      end
  end.

(** The loop that copies the files. *)
Fixpoint copy_files (i : Z) (names : list (list Z)) : M tool unit :=
  match names with
  | [] => mret tt
  | name :: names =>
      match fs name with
      | None => throw (Fault 0)
      | Some data =>
          len ← load_word (length_of i);
          fwrite (take (Z.to_nat len) data);;
          copy_files (i + 1) names
      end
  end.

(** "INITRD" with its terminator. *)
Definition magic_string : list Z := [73; 78; 73; 84; 82; 68; 0].

(** main with the arguments [names] behind the program's name [prog]. *)
Definition make_initrd (prog : list Z) (names : list (list Z)) : M tool Z :=
  let nheaders := Z.of_nat (length names) in
  print "size of header: %d";;
  r ← describe (prog :: names) 0 names (sizeof_header * MAX_FILES + 4);
  match r with
  | None => mret 1
  | Some _ =>
      if writable then
        fwrite magic_string;;
        fwrite (le32 nheaders);;
        hs ← gets headers;
        fwrite (take (Z.to_nat (sizeof_header * nheaders)) hs);;
        copy_files 0 names;;
        mret 0
      else throw (Fault 0)
  end.
End tool.
