(* ===== verification/MkInitrdSpec.v ===== *)
(** The image that make_initrd.c writes, and what the kernel's initrd.c makes of
    it: the headers are those that the kernel expects, but the offsets in them
    are not where the files are. *)

From S2P Require Import Prelude Memory CString Utils Vsprintf FormatSpec Frames Arch Boot BootSpec InitrdSpec MkInitrd.

(** ** Bytes in a block *)

(** The bytes [l] are in the block [a] from offset [o] on. *)
Definition has (a : list Z) (o : Z) (l : list Z) : Prop :=
  forall k c, l !! k = Some c -> a !! (Z.to_nat o + k)%nat = Some c.

Lemma length_blit o l a : 0 <= o -> o + Z.of_nat (length l) <= Z.of_nat (length a) -> length (blit o l a) = length a.
Proof. intros. unfold blit. rewrite !length_app, length_take, length_drop. lia. Qed.

Lemma blit_same o l a : 0 <= o -> o + Z.of_nat (length l) <= Z.of_nat (length a) -> has (blit o l a) o l.
Proof.
  intros H1 H2 k c Hk. unfold blit. pose proof (lookup_lt_Some _ _ _ Hk). rewrite lookup_app_r; rewrite length_take; [|lia].
  rewrite lookup_app_l by lia. by replace (Z.to_nat o + k - Z.to_nat o `min` length a)%nat with k by lia.
Qed.

Lemma blit_other o l a k :
  0 <= o -> o + Z.of_nat (length l) <= Z.of_nat (length a) ->
  Z.of_nat k < o \/ o + Z.of_nat (length l) <= Z.of_nat k -> blit o l a !! k = a !! k.
Proof.
  intros H1 H2 Hk. unfold blit. destruct (decide (Z.of_nat k < o)).
  - rewrite lookup_app_l by (rewrite length_take; lia). rewrite lookup_take_lt by lia. done.
  - rewrite lookup_app_r; rewrite length_take; [|lia]. rewrite lookup_app_r by lia.
    rewrite lookup_drop. f_equal. lia.
Qed.

Lemma has_blit a o l o' l' :
  has a o' l' -> 0 <= o -> 0 <= o' -> o + Z.of_nat (length l) <= Z.of_nat (length a) ->
  o' + Z.of_nat (length l') <= o \/ o + Z.of_nat (length l) <= o' -> has (blit o l a) o' l'.
Proof.
  intros Ha H0 H0' Hl Hd k c Hk. pose proof (lookup_lt_Some _ _ _ Hk). rewrite blit_other by lia. by apply Ha.
Qed.

Lemma has_agree a b o l n :
  has a o l -> 0 <= o -> o + Z.of_nat (length l) <= n -> (forall k, Z.of_nat k < n -> b !! k = a !! k) -> has b o l.
Proof. intros Ha H0 Hn E k c Hk. pose proof (lookup_lt_Some _ _ _ Hk). rewrite E by lia. by apply Ha. Qed.

Lemma has_shift p a q o l : has a o l -> 0 <= o -> has (p ++ a ++ q) (Z.of_nat (length p) + o) l.
Proof.
  intros Ha H0 k c Hk. specialize (Ha k c Hk). pose proof (lookup_lt_Some _ _ _ Ha).
  rewrite lookup_app_r by lia. rewrite lookup_app_l by lia. rewrite <- Ha. f_equal. lia.
Qed.

Lemma has_le32 a o v : 0 <= o -> has a o (le32 v) -> word_of a o = u32 v.
Proof.
  intros H0 Ha. unfold word_of. cbv zeta.
  assert (E : forall k : nat, (k < 4)%nat -> default 0 (a !! Z.to_nat (o + Z.of_nat k)) = default 0 (le32 v !! k)).
  { intros k Hk. destruct (lookup_lt_is_Some_2 (le32 v) k) as [c Hc]; [cbn; lia|]. rewrite Hc.
    replace (Z.to_nat (o + Z.of_nat k)) with (Z.to_nat o + k)%nat by lia. by rewrite (Ha k c Hc). }
  pose proof (E 0%nat ltac:(lia)) as E0. pose proof (E 1%nat ltac:(lia)) as E1. pose proof (E 2%nat ltac:(lia)) as E2.
  pose proof (E 3%nat ltac:(lia)) as E3. change (Z.of_nat 0) with 0 in E0.
  change (Z.of_nat 1) with 1 in E1. change (Z.of_nat 2) with 2 in E2. change (Z.of_nat 3) with 3 in E3.
  rewrite E0, E1, E2, E3. cbn. unfold u8, u32. Z.div_mod_to_equations. lia.
Qed.

(** Bytes in memory. *)
Lemma has_bytes_at m a l o l' : bytes_at m a l -> 0 <= o -> has l o l' -> bytes_at m (a + o) l'.
Proof.
  intros B H0 Hl k c Hk. specialize (B _ _ (Hl k c Hk)).
  by replace (a + Z.of_nat (Z.to_nat o + k)) with (a + o + Z.of_nat k) in B by lia.
Qed.

Lemma bytes_at_le32 m a v : bytes_at m a (le32 v) -> word_present m a = true /\ word_at m a = u32 v.
Proof.
  intros B. destruct (B 0%nat _ eq_refl) as [P0 E0], (B 1%nat _ eq_refl) as [_ E1], (B 2%nat _ eq_refl) as [_ E2],
    (B 3%nat _ eq_refl) as [P3 E3]. change (Z.of_nat 0) with 0 in *. change (Z.of_nat 1) with 1 in *.
  change (Z.of_nat 2) with 2 in *. change (Z.of_nat 3) with 3 in *. rewrite Z.add_0_r in *. split.
  - unfold word_present. by rewrite P0, P3.
  - unfold word_at. rewrite E0, E1, E2, E3. unfold u8, u32. Z.div_mod_to_equations. lia.
Qed.

(** ** The tool *)

Lemma store_bytes_ok o l t : o + Z.of_nat (length l) <= Z.of_nat (length (headers t)) ->
  store_bytes o l t = Ok (tt, Tool (blit o l (headers t)) (img t) (stdout t)).
Proof. intros. unfold store_bytes. by destruct (Z.leb_spec (o + Z.of_nat (length l)) (Z.of_nat (length (headers t)))); [|lia]. Qed.

Lemma load_word_ok o v t : 0 <= o -> o + 4 <= Z.of_nat (length (headers t)) -> has (headers t) o (le32 v) ->
  load_word o t = Ok (u32 v, t).
Proof.
  intros H0 Ho Hh. unfold load_word. destruct (Z.leb_spec (o + 4) (Z.of_nat (length (headers t)))); [|lia].
  by rewrite (has_le32 _ _ v).
Qed.

Abbreviation size_of l := (Z.of_nat (length (l : list Z))).

(** The bytes in front of file [j]. *)
Fixpoint before (files : list (list Z * list Z)) (j : nat) : Z :=
  match j, files with
  | S j, f :: files => size_of f.2 + before files j
  | _, _ => 0
  end.

Lemma before_nonneg files j : 0 <= before files j.
Proof. revert files. induction j as [|j IH]; intros [|f files]; cbn [before]; try lia. specialize (IH files). lia. Qed.

Definition total (files : list (list Z * list Z)) : Z := before files (length files).

Lemma before_le files j : before files j <= total files.
Proof.
  unfold total. revert j. induction files as [|f files IH]; intros [|j]; cbn [before length]; try lia.
  - pose proof (before_nonneg files (length files)). lia.
  - specialize (IH j). lia.
Qed.

(** Header [i] of a block. *)
Record described (hs : list Z) (i : Z) (name : list Z) (off len : Z) : Prop := {
  de_magic : has hs (header_of i) [MAGIC_FILE];
  de_name : has hs (name_of i) (name ++ [0]);
  de_offset : has hs (offset_of i) (le32 off);
  de_length : has hs (length_of i) (le32 len)
}.

Ltac fields := unfold name_of, offset_of, length_of, header_of, sizeof_header in *.

Lemma described_agree a b i name off len :
  described a i name off len -> 0 <= i -> (length name <= 127)%nat ->
  (forall k, Z.of_nat k < header_of (i + 1) -> b !! k = a !! k) -> described b i name off len.
Proof.
  intros [D1 D2 D3 D4] Hi Hn E. split; (eapply has_agree; [eassumption | fields; lia | | exact E]);
    rewrite ?length_app; cbn [length le32]; fields; lia.
Qed.

Section image.
Context (fs : list Z -> option (list Z)).

Definition file_ok (f : list Z * list Z) : Prop := fs f.1 = Some f.2 /\ (length f.1 <= 127)%nat.

(** The four stores of a round. *)
Lemma describe_one a i name off len :
  0 <= i -> (length name <= 127)%nat -> header_of (i + 1) <= size_of a ->
  let a1 := blit (name_of i) (name ++ [0]) a in let a2 := blit (offset_of i) (le32 off) a1 in
  let a3 := blit (length_of i) (le32 len) a2 in let a4 := blit (header_of i) [MAGIC_FILE] a3 in
  length a1 = length a /\ length a2 = length a /\ length a3 = length a /\ length a4 = length a /\
  has a3 (length_of i) (le32 len) /\ described a4 i name off len /\
  (forall k, Z.of_nat k < header_of i -> a4 !! k = a !! k).
Proof.
  intros Hi Hn Ha a1 a2 a3 a4. assert (Ln : length (name ++ [0]) = (length name + 1)%nat) by (by rewrite length_app).
  assert (L1 : length a1 = length a) by (apply length_blit; rewrite ?Ln; fields; lia).
  assert (L2 : length a2 = length a) by (unfold a2; rewrite length_blit; cbn [length le32]; fields; lia).
  assert (L3 : length a3 = length a) by (unfold a3; rewrite length_blit; cbn [length le32]; fields; lia).
  assert (L4 : length a4 = length a) by (unfold a4; rewrite length_blit; cbn [length]; fields; lia).
  assert (H3 : has a3 (length_of i) (le32 len)) by (apply blit_same; cbn [length le32]; fields; lia).
  split_and!; try done.
  - split; [apply blit_same | | |]; try (cbn [length]; fields; lia).
    + do 3 (apply has_blit; rewrite ?Ln; cbn [length le32]; try (fields; lia)).
      apply blit_same; rewrite ?Ln; fields; lia.
    + do 2 (apply has_blit; cbn [length le32]; try (fields; lia)). apply blit_same; cbn [length le32]; fields; lia.
    + apply has_blit; cbn [length le32]; try (fields; lia). done.
  - intros k Hk. unfold a4, a3, a2, a1. rewrite !blit_other by (rewrite ?Ln; fold a1 a2 a3; cbn [length le32]; fields; lia). done.
Qed.

Lemma describe_ok argv files i off t :
  0 <= i -> header_of (i + Z.of_nat (length files)) <= size_of (headers t) ->
  Forall file_ok files -> 0 <= off -> off + total files < 2 ^ 32 ->
  exists t', describe fs argv i (map fst files) off t = Ok (Some (off + total files), t') /\
    length (headers t') = length (headers t) /\ img t' = img t /\
    (forall k, Z.of_nat k < header_of i -> headers t' !! k = headers t !! k) /\
    forall j f, files !! j = Some f -> described (headers t') (i + Z.of_nat j) f.1 (off + before files j) (size_of f.2).
Proof.
  revert i off t. induction files as [|[name data] files IH]; intros i off t Hi Hh Hf Ho Ht.
  - exists t. cbn [map describe]. rewrite Z.add_0_r. by split_and!.
  - apply Forall_cons in Hf as [[Hfs Hn] Hf]. cbn [map describe fst snd length] in *.
    assert (Et : total ((name, data) :: files) = size_of data + total files) by done. rewrite Et in *.
    pose proof (before_nonneg files (length files) : 0 <= total files).
    destruct (describe_one (headers t) i name off (size_of data)) as (L1 & L2 & L3 & L4 & H3 & D & K);
      [done | done | fields; lia |].
    set (a1 := blit (name_of i) _ _) in *. set (a2 := blit (offset_of i) _ _) in *.
    set (a3 := blit (length_of i) _ _) in *. set (a4 := blit (header_of i) _ _) in *.
    set (t1 := Tool (headers t) (img t) (("writing file %s at 0x%x"%string) :: stdout t)).
    rewrite (bind_ok _ _ t tt t1) by done.
    assert (Hlen : forall o l (x : tool), length (headers x) = length (headers t) ->
      o + size_of l <= header_of (i + 1) -> store_bytes o l x = Ok (tt, Tool (blit o l (headers x)) (img x) (stdout x)))
      by (intros o l x Lx Hl; apply store_bytes_ok; rewrite Lx; fields; lia).
    rewrite (bind_ok _ _ t1 tt (Tool a1 (img t) (stdout t1))) by (exact (Hlen (name_of i) (name ++ [0]) t1 eq_refl ltac:(rewrite length_app; cbn [length]; fields; lia))).
    rewrite (bind_ok _ _ (Tool a1 _ _) tt (Tool a2 (img t) (stdout t1)))
      by (exact (Hlen (offset_of i) (le32 off) (Tool a1 (img t) (stdout t1)) L1 ltac:(cbn [length le32]; fields; lia))).
    rewrite Hfs.
    rewrite (bind_ok _ _ (Tool a2 _ _) tt (Tool a3 (img t) (stdout t1)))
      by (exact (Hlen (length_of i) (le32 (size_of data)) (Tool a2 (img t) (stdout t1)) L2 ltac:(cbn [length le32]; fields; lia))).
    rewrite (bind_ok _ _ _ _ _ (load_word_ok (length_of i) (size_of data) (Tool a3 (img t) (stdout t1)) ltac:(fields; lia)
      ltac:(cbn [headers]; fields; lia) H3)). rewrite (u32_small (size_of data)) by lia.
    rewrite (bind_ok _ _ (Tool a3 _ _) tt (Tool a4 (img t) (stdout t1)))
      by (exact (Hlen (header_of i) [MAGIC_FILE] (Tool a3 (img t) (stdout t1)) L3 ltac:(cbn [length]; fields; lia))).
    rewrite u32_small by lia.
    destruct (IH (i + 1) (off + size_of data) (Tool a4 (img t) (stdout t1))) as (t' & E & L & Ig & Kp & Ds);
      [lia | cbn [headers]; fields; lia | done | lia | lia |].
    exists t'. rewrite E. split_and!; [do 3 f_equal; lia | by rewrite L | done | |].
    + intros k Hk. rewrite Kp by (fields; lia). by apply K.
    + intros [|j] f Hj.
      * injection Hj as <-. cbn [fst snd before]. rewrite !Z.add_0_r. eapply described_agree; [exact D | done | done | exact Kp].
      * specialize (Ds j f Hj). cbn [before snd]. rewrite Z.add_assoc.
        by replace (i + Z.of_nat (S j)) with (i + 1 + Z.of_nat j) by lia.
Qed.

Lemma copy_files_ok files i t :
  0 <= i -> header_of (i + Z.of_nat (length files)) <= size_of (headers t) -> Forall file_ok files -> total files < 2 ^ 32 ->
  (forall j f, files !! j = Some f -> has (headers t) (length_of (i + Z.of_nat j)) (le32 (size_of f.2))) ->
  exists t', copy_files fs i (map fst files) t = Ok (tt, t') /\ img t' = img t ++ concat (map snd files).
Proof.
  revert i t. induction files as [|[name data] files IH]; intros i t Hi Hh Hf Ht Hd.
  - exists t. cbn. by rewrite app_nil_r.
  - apply Forall_cons in Hf as [[Hfs Hn] Hf]. cbn [map copy_files fst snd length concat] in *. rewrite Hfs.
    pose proof (before_nonneg files (length files) : 0 <= total files).
    change (total ((name, data) :: files)) with (size_of data + total files) in Ht.
    pose proof (Hd 0%nat _ eq_refl) as H0. cbn [snd] in H0. change (Z.of_nat 0) with 0 in H0. rewrite Z.add_0_r in H0.
    rewrite (bind_ok _ _ _ _ _ (load_word_ok (length_of i) (size_of data) t ltac:(fields; lia) ltac:(fields; lia) H0)).
    rewrite u32_small, Nat2Z.id, firstn_all by lia.
    set (t1 := Tool (headers t) (img t ++ data) (stdout t)). rewrite (bind_ok _ _ t tt t1) by done.
    destruct (IH (i + 1) t1) as (t' & E & Ei); [lia | cbn [headers t1]; fields; lia | done | lia | |].
    + intros j f Hj. specialize (Hd (S j) f Hj). by replace (i + Z.of_nat (S j)) with (i + 1 + Z.of_nat j) in Hd by lia.
    + exists t'. split; [done|]. rewrite Ei. cbn [img t1]. by rewrite <- app_assoc.
Qed.
End image.

Definition image (files : list (list Z * list Z)) (hs : list Z) : list Z :=
  magic_string ++ le32 (Z.of_nat (length files)) ++ hs ++ concat (map snd files).

(** Where the files of an image are. *)
Definition contents_at (files : list (list Z * list Z)) (j : nat) : Z :=
  SIZEOF_INITRD_HEADER + sizeof_header * Z.of_nat (length files) + before files j.

(** What the header of a file says instead. *)
Definition header_offset (files : list (list Z * list Z)) (j : nat) : Z := sizeof_header * MAX_FILES + 4 + before files j.

(** The headers of the files, in a block without a gap. *)
Definition all_described (files : list (list Z * list Z)) (hs : list Z) : Prop :=
  size_of hs = sizeof_header * Z.of_nat (length files) /\
  forall j f, files !! j = Some f -> described hs (Z.of_nat j) f.1 (header_offset files j) (size_of f.2).

(** C32: make_initrd with up to 64 existing files of names that fit: the tool
    returns 0 and the image is the magic string, the number of files, one header
    of 140 bytes for each file with its magic byte, name, length and offset, and
    the contents of the files one after the other. *)
Theorem make_initrd_ok fs prog files t :
  size_of (headers t) = sizeof_header * MAX_FILES -> img t = [] -> (length files <= 64)%nat -> Forall (file_ok fs) files ->
  sizeof_header * MAX_FILES + 4 + total files < 2 ^ 32 ->
  exists t' hs, make_initrd fs true prog (map fst files) t = Ok (0, t') /\ img t' = image files hs /\ all_described files hs.
Proof.
  intros Hh Hi Hn Hf Ht. unfold make_initrd. rewrite length_map.
  set (t1 := Tool (headers t) (img t) ("size of header: %d"%string :: stdout t)). rewrite (bind_ok _ _ t tt t1) by done.
  destruct (describe_ok fs (prog :: map fst files) files 0 (sizeof_header * MAX_FILES + 4) t1) as (t2 & E2 & L2 & I2 & _ & D2);
    [lia | cbn [headers t1]; rewrite Hh; unfold header_of, sizeof_header, MAX_FILES; lia | done
    | unfold sizeof_header, MAX_FILES; lia | done |].
  rewrite (bind_ok _ _ _ _ _ E2). set (n := Z.of_nat (length files)). set (hs := take (Z.to_nat (sizeof_header * n)) (headers t2)).
  cbn [headers t1] in L2. cbn [img t1] in I2. rewrite Hi in I2.
  set (t3 := Tool (headers t2) ((magic_string ++ le32 n) ++ hs) (stdout t2)).
  rewrite (bind_ok _ _ t2 tt (Tool (headers t2) (img t2 ++ magic_string) (stdout t2))) by done.
  rewrite (bind_ok _ _ _ tt (Tool (headers t2) (magic_string ++ le32 n) (stdout t2))) by (by rewrite I2).
  rewrite (bind_ok _ _ _ (headers t2) (Tool (headers t2) (magic_string ++ le32 n) (stdout t2))) by done.
  rewrite (bind_ok _ _ _ tt t3) by done.
  destruct (copy_files_ok fs files 0 t3) as (t4 & E4 & I4);
    [lia | cbn [headers t3]; rewrite L2, Hh; unfold header_of, sizeof_header, MAX_FILES; lia | done | unfold sizeof_header, MAX_FILES in *; lia | |].
  { intros j f Hj. rewrite Z.add_0_l. exact (de_length _ _ _ _ _ (D2 j f Hj)). }
  exists t4, hs. rewrite (bind_ok _ _ _ _ _ E4), ret_ok. split; [done|]. split; [rewrite I4; unfold image; cbn [img t3]; by rewrite <- !app_assoc|].
  split; [unfold hs; rewrite length_take; unfold n, sizeof_header, MAX_FILES in *; lia|].
  intros j f Hj. pose proof (lookup_lt_Some _ _ _ Hj). eapply Forall_lookup_1 in Hf as [_ Hf]; [|exact Hj].
  eapply (described_agree (headers t2)); [by apply (D2 j f) | lia | done |].
  intros k Hk. unfold hs. apply lookup_take_lt. unfold header_of, n in *. nia.
Qed.

Lemma make_initrd_ok_witness :
  let fs := fun name => if decide (name = [97]) then Some [1; 2; 3] else None in
  let t := Tool (replicate (Z.to_nat 8960) 0) [] [] in
  exists t' hs, make_initrd fs true [109] (map fst [([97], [1; 2; 3])]) t = Ok (0, t') /\
    img t' = image [([97], [1; 2; 3])] hs /\ all_described [([97], [1; 2; 3])] hs.
Proof.
  intros fs t. apply (make_initrd_ok fs [109] [([97], [1; 2; 3])] t).
  - vm_compute. reflexivity.
  - reflexivity.
  - cbn. lia.
  - apply Forall_cons. split; [split; [reflexivity | cbn; lia] | by apply Forall_nil].
  - vm_compute. reflexivity.
Defined.

(** ** The image in the kernel *)

Lemma contents_in files j f : files !! j = Some f -> has (concat (map snd files)) (before files j) f.2.
Proof.
  revert files. induction j as [|j IH]; intros [|g files] Hj; try done.
  - injection Hj as ->. intros k c Hk. cbn [before map concat]. change (Z.to_nat 0 + k)%nat with k.
    rewrite lookup_app_l; [done | by eapply lookup_lt_Some].
  - intros k c Hk. cbn [before map concat]. specialize (IH files Hj k c Hk).
    pose proof (before_nonneg files j).
    rewrite lookup_app_r by lia. rewrite <- IH. f_equal. lia.
Qed.

Section loaded.
Context (files : list (list Z * list Z)) (hs : list Z) (location : Z) (m : mem).
Context (Hd : all_described files hs) (Hm : bytes_at m location (image files hs)).

Lemma loaded_header o l : has hs o l -> 0 <= o -> bytes_at m (location + SIZEOF_INITRD_HEADER + o) l.
Proof.
  intros Hh H0. replace (location + SIZEOF_INITRD_HEADER + o) with (location + (SIZEOF_INITRD_HEADER + o)) by lia.
  apply (has_bytes_at m location (image files hs)); [done | unfold SIZEOF_INITRD_HEADER; lia |].
  unfold image. rewrite app_assoc. by apply (has_shift (magic_string ++ le32 (Z.of_nat (length files))) hs).
Qed.

Lemma loaded_contents j f : files !! j = Some f -> bytes_at m (location + contents_at files j) f.2.
Proof.
  intros Hj. pose proof (before_nonneg files j).
  apply (has_bytes_at m location (image files hs)); [done | unfold contents_at, SIZEOF_INITRD_HEADER, sizeof_header; lia |].
  unfold image, contents_at. destruct Hd as [Hl _].
  replace (SIZEOF_INITRD_HEADER + sizeof_header * Z.of_nat (length files)) with
    (size_of (magic_string ++ le32 (Z.of_nat (length files)) ++ hs))
    by (rewrite !length_app; cbn [length magic_string le32]; unfold SIZEOF_INITRD_HEADER; lia).
  pose proof (has_shift (magic_string ++ le32 (Z.of_nat (length files)) ++ hs) (concat (map snd files)) []) as Sh.
  rewrite app_nil_r, <- !app_assoc in Sh. apply Sh; [by apply contents_in | done].
Qed.

(** The kernel finds the ramdisk that it expects. *)
Lemma image_ramdisk_ok name_buf tmp args :
  0 <= location -> location + SIZEOF_INITRD_HEADER + Z.of_nat (length files) * SIZEOF_FILE_HEADER < 2 ^ 32 ->
  Forall (fun f => (length f.1 <= 125)%nat /\ Forall (fun c => 0 < c < 256) f.1) files ->
  (forall x, location <= x < location + SIZEOF_INITRD_HEADER + Z.of_nat (length files) * SIZEOF_FILE_HEADER ->
     ~ scratch name_buf tmp args x) ->
  ramdisk location (Z.of_nat (length files)) name_buf tmp args m (fun j => default [] (fst <$> files !! Z.to_nat j)) /\
  cstring m location (chars "INITRD").
Proof.
  intros H0 H32 Hn Hq. destruct Hd as [_ D]. split; [split; try done|].
  - assert (B : bytes_at m (location + 7) (le32 (Z.of_nat (length files)))).
    { apply (has_bytes_at m location (image files hs)); [done | lia |].
      apply (has_shift magic_string (le32 (Z.of_nat (length files))) _ 0); [|lia]. intros k c Hk. exact Hk. }
    apply bytes_at_le32 in B as [P E]. split; [done|]. unfold nfiles_at. rewrite E. apply u32_small.
    unfold SIZEOF_INITRD_HEADER, SIZEOF_FILE_HEADER in *. lia.
  - intros j Hj. destruct (lookup_lt_is_Some_2 files (Z.to_nat j)) as [f Hf]; [lia|].
    pose proof (loaded_header _ _ (de_offset _ _ _ _ _ (D _ _ Hf)) ltac:(unfold offset_of, header_of, sizeof_header; lia)) as B.
    apply bytes_at_le32 in B as [P _]. unfold file_offset, file_header, SIZEOF_FILE_HEADER.
    unfold offset_of, header_of, sizeof_header in P. rewrite Z2Nat.id in P by lia.
    by replace (location + SIZEOF_INITRD_HEADER + j * 140 + 132) with (location + SIZEOF_INITRD_HEADER + (140 * j + 132)) by lia.
  - intros j Hj. destruct (lookup_lt_is_Some_2 files (Z.to_nat j)) as [f Hf]; [lia|]. rewrite Hf. cbn [fmap option_fmap option_map default].
    eapply Forall_lookup_1 in Hn as [Hl Hz]; [|exact Hf]. split; [split; [|done] | done].
    pose proof (loaded_header _ _ (de_name _ _ _ _ _ (D _ _ Hf)) ltac:(unfold name_of, header_of, sizeof_header; lia)) as B.
    unfold name_of, header_of, sizeof_header in B. rewrite Z2Nat.id in B by lia.
    unfold file_name, file_header, SIZEOF_FILE_HEADER.
    by replace (location + SIZEOF_INITRD_HEADER + j * 140 + 1) with (location + SIZEOF_INITRD_HEADER + (140 * j + 1)) by lia.
  - split; [|repeat constructor; lia]. intros k c Hk. apply (Hm k c). unfold image. apply lookup_app_l_Some. exact Hk.
Qed.

(** The offset that the tool wrote, as a word of memory. *)
Lemma loaded_offset j f : files !! j = Some f -> word_at m (file_offset location (Z.of_nat j)) = u32 (header_offset files j).
Proof.
  intros Hf. destruct Hd as [_ D].
  pose proof (loaded_header _ _ (de_offset _ _ _ _ _ (D _ _ Hf)) ltac:(unfold offset_of, header_of, sizeof_header; lia)) as B.
  apply bytes_at_le32 in B as [_ E]. rewrite <- E. f_equal.
  unfold file_offset, file_header, SIZEOF_FILE_HEADER, offset_of, header_of, sizeof_header. lia.
Qed.
End loaded.


(** ** The image of one file "a" with the contents 1, 2, 3 *)

Definition one_file : list (list Z * list Z) := [([97], [1; 2; 3])].

Definition one_header : list Z := [MAGIC_FILE; 97] ++ replicate 130 0 ++ le32 8964 ++ le32 3.

Lemma has_slice a o l : take (length l) (drop (Z.to_nat o) a) = l -> has a o l.
Proof.
  intros E k c Hk. rewrite <- E in Hk. pose proof (lookup_lt_Some _ _ _ Hk) as L. rewrite length_take in L.
  rewrite lookup_take_lt, lookup_drop in Hk by lia. done.
Defined.

Lemma one_described : all_described one_file one_header.
Proof.
  split; [vm_compute; reflexivity|]. intros [|j] f Hj; [|done]. injection Hj as <-.
  split; apply has_slice; vm_compute; reflexivity.
Defined.

Definition tool_mem : mem :=
  set_word (mbi_flags 0xc0001000) 8 (set_word (mbi_mods_count 0xc0001000) 1 (set_word (mbi_mods_addr 0xc0001000) 0x5000
    (set_word 0x5000 0x3000 (set_word 0x5004 0x4000
      (put_bytes 0xc0006000 [73; 78; 73; 84; 82; 68; 0] (put_bytes 0xc0006010 [47; 37; 115; 0; 0]
        (put_bytes 0xc0003000 (image one_file one_header) (map_page_at 0x5000 (mem_with_pages 16 0xc0001000))))))))).

Definition tool_boot : boot := BootState tool_mem (Bitmap [] 0 0) 0 0 [].

Lemma tool_buffers : buffers 0xc0003000 1 0xc0006010 0xc0007000 0xc0008000 0xc0009000 tool_mem 0.
Proof.
  split.
  - split_and!; [apply cstring_b_ok; vm_compute; reflexivity | apply (bytes_at_b_ok _ [0]); vm_compute; reflexivity | lia..].
  - unfold SIZEOF_INITRD_HEADER, SIZEOF_FILE_HEADER, scratch. split_and!; lia.
  - split_and!; [apply (present_b_ok _ 128) | apply (present_b_ok _ 1024) |]; vm_compute; reflexivity.
  - lia.
Defined.

