(* ===== verification/Demo.v ===== *)
(** The threads that main.c demonstrates the kernel with, and the system calls
    as a thread makes them (the wrappers of syscall.h), on the state of the whole
    kernel.

    [int $0x80] is the trap: the stub pushes the registers of the thread and
    calls isr_handler with the frame at [regs_at]; the result of the call is the
    eax of the frame. String constants are at the addresses [str_ok], [str_dash]
    and [str_exit]. *)

From S2P Require Import Prelude Memory CString Handlers Desc Arch Kheap Sched Vga Keyboard Interrupts.

(** One register of a frame. *)
Definition set_ebx (v : Z) (r : registers_t) : registers_t :=
  Registers (r_gs r) (r_fs r) (r_es r) (r_ds r) (r_ebp r) (r_edi r) (r_esi r) (r_edx r) (r_ecx r)
    v (r_eax r) (r_int_no r) (r_err_code r) (r_eip r) (r_cs r) (r_eflags r) (r_esp r) (r_ss r).
Definition set_ecx (v : Z) (r : registers_t) : registers_t :=
  Registers (r_gs r) (r_fs r) (r_es r) (r_ds r) (r_ebp r) (r_edi r) (r_esi r) (r_edx r) v
    (r_ebx r) (r_eax r) (r_int_no r) (r_err_code r) (r_eip r) (r_cs r) (r_eflags r) (r_esp r) (r_ss r).
Definition set_edx (v : Z) (r : registers_t) : registers_t :=
  Registers (r_gs r) (r_fs r) (r_es r) (r_ds r) (r_ebp r) (r_edi r) (r_esi r) v (r_ecx r)
    (r_ebx r) (r_eax r) (r_int_no r) (r_err_code r) (r_eip r) (r_cs r) (r_eflags r) (r_esp r) (r_ss r).
Definition set_int (n e : Z) (r : registers_t) : registers_t :=
  Registers (r_gs r) (r_fs r) (r_es r) (r_ds r) (r_ebp r) (r_edi r) (r_esi r) (r_edx r) (r_ecx r)
    (r_ebx r) (r_eax r) n e (r_eip r) (r_cs r) (r_eflags r) (r_esp r) (r_ss r).

(** "abcdefghijklmnopqrstuvwxyz" with its terminator: sizeof(alph) is 27. *)
Definition alph : list Z := seqZ 97 26 ++ [0].

Section demo.
Context {H : Type} `{KernelHeap H}.
Context (code : Z -> Z -> M (kernel H) unit) (regs_at : Z).
Context (str_ok str_dash str_exit : Z).

Definition set_regs (f : registers_t -> registers_t) : M (kernel H) unit :=
  modify (fun k => Kernel (k_arch k) (k_sched k) (k_kbd k) (f (k_regs k))).

(** [asm volatile("int $0x80" : "=a" (a) : ...)] *)
Definition int80 : M (kernel H) Z :=
  set_regs (set_int SYSCALL_VECTOR 0);;
  isr_handler code MAX_HANDLERS regs_at;;
  r ← gets k_regs;
  mret (s32 (r_eax r)).

(** The registers that the wrappers load. *)
Definition DEFN_SYSCALL0 (num : Z) : M (kernel H) Z := set_regs (set_eax num);; int80.
Definition DEFN_SYSCALL1 (num p1 : Z) : M (kernel H) Z := set_regs (set_ebx p1 ∘ set_eax num);; int80.
Definition DEFN_SYSCALL2 (num p1 p2 : Z) : M (kernel H) Z := set_regs (set_ecx p2 ∘ set_ebx p1 ∘ set_eax num);; int80.
Definition DEFN_SYSCALL3 (num p1 p2 p3 : Z) : M (kernel H) Z :=
  set_regs (set_edx p3 ∘ set_ecx p2 ∘ set_ebx p1 ∘ set_eax num);; int80.

Definition syscall_thread_exit : M (kernel H) Z := DEFN_SYSCALL0 0.
Definition syscall_vga_print_str (s : Z) : M (kernel H) Z := DEFN_SYSCALL1 1 s.
Definition syscall_vga_print_dec (v : Z) : M (kernel H) Z := DEFN_SYSCALL1 2 v.
Definition syscall_vga_print_hex (v : Z) : M (kernel H) Z := DEFN_SYSCALL1 3 v.

(** ** The threads *)

(** [for (unsigned i = 0; i < 200000; ++i)]; [n] rounds are left. *)
Fixpoint func1_loop (n : nat) (i : Z) : M (kernel H) unit :=
  match n with
  | O => mret tt
  | S n =>
      (if i mod 5000 =? 0 then (syscall_vga_print_str str_dash;; mret tt) else mret tt);;
      func1_loop n (i + 1)
  end.

Definition func1 (off : Z) : M (kernel H) unit :=
  syscall_vga_print_hex off;;
  syscall_vga_print_str str_ok;;
  func1_loop (Z.to_nat 200000) 0;;
  syscall_vga_print_str str_exit;;
  syscall_thread_exit;;
  mret tt.

(** [*video = (uint16_t)alph[i % sizeof(alph)] | 0x0f00] *)
Definition show_letter (video i : Z) : M (kernel H) unit :=
  on_kbd (on_vga (on_vmem (store16 video (Z.lor (default 0 (alph !! Z.to_nat (i mod 27))) 0x0f00)))).

(** The counter is incremented twice in a round. *)
Fixpoint func2_loop (fuel : nat) (video i : Z) : M (kernel H) unit :=
  if i <? 2000000 then
    match fuel with
    | O => throw Hang
    | S fuel => show_letter video i;; func2_loop fuel video (i + 1 + 1)
    end
  else mret tt.

Definition func2 (fuel : nat) (off : Z) : M (kernel H) unit := func2_loop fuel (u32 (0xc00b8000 + u32 (off * 2))) 0.

(** [for (;;) ;] *)
Fixpoint spin (fuel : nat) : M (kernel H) unit := match fuel with O => throw Hang | S fuel => spin fuel end.

(** The first loop of func3 only counts in a local variable. *)
Fixpoint count (n : nat) (a : Z) : Z := match n with O => a | S n => count n (a + 1) end.

Definition func3 (fuel : nat) : M (kernel H) unit := let _ := count (Z.to_nat 100000) 0 in spin fuel.

Context (dev : list io_event -> Z -> Z).

Fixpoint reset (fuel flush_fuel : nat) : M (kernel H) unit :=
  match fuel with
  | O => throw Hang
  | S fuel =>
      c ← on_kbd keyboard_lastchar;
      (if c =? 114 then on_arch (arch_reset dev flush_fuel) else mret tt);;
      reset fuel flush_fuel
  end.

(** ** The threads that main starts *)

(** The addresses of thread_exit, func1 and func2. *)
Context (exit_at func1_at func2_at : Z).

(** [if (!create_thread(...)) { kprintf(INFO, "Oups\n"); stop(); }] *)
Definition must_create (process entry args : Z) (user : bool) : M (kernel H) unit :=
  t ← on_sched (create_thread exit_at process entry args 1 user false);
  if t =? 0 then on_arch (kprintf INFO "Oups");; throw Stopped else mret tt.

(** [for (k = 0; k < 10; ++k)]; [n] rounds are left. *)
Fixpoint start_threads (n : nat) (procs : list Z) (k off : Z) : M (kernel H) unit :=
  match n with
  | O => mret tt
  | S n =>
      match procs !! Z.to_nat (k mod 3) with
      | None => throw (OutOfBounds (k mod 3))
      | Some p =>
          must_create p func2_at (u32 (off + 80 * 2)) false;;
          must_create p func1_at k true;;
          start_threads n procs (u32 (k + 1)) (u32 (off + 2))
      end
  end.

(** One round of the last loop of main: a letter on the screen, and a new thread
    for the keys u and k. The result is the next value of [off]. *)
Definition main_round (proc1 i off : Z) : M (kernel H) Z :=
  show_letter (0xc00b8000 + 80) i;;
  c ← on_kbd keyboard_lastchar;
  if s8 c =? 117 then
    on_sched (create_thread exit_at proc1 func1_at 5 1 true false);; mret off
  else if s8 c =? 107 then
    on_sched (create_thread exit_at proc1 func2_at off 1 false false);; mret (u32 (off + 2))
  else mret off.

Fixpoint main_loop (fuel : nat) (proc1 i off : Z) : M (kernel H) unit :=
  match fuel with
  | O => throw Hang
  | S fuel => off ← main_round proc1 i off; main_loop fuel proc1 (u32 (i + 1)) off
  end.
End demo.
