(* ===== verification/DemoSpec.v ===== *)
(** What the demonstration threads do: the text that func1 prints through the
    system calls, the cell that func2 writes, and the threads that main starts. *)

From S2P Require Import Prelude Memory CString Utils Dll Handlers Desc Arch ArchSpec Kheap Sched SchedSpec ThreadSpec Vga VgaSpec Keyboard Console SerialSpec ConsoleSpec Interrupts InterruptSpec Demo.

(** ** Printing strings *)

(** The terminal after a text without escapes. *)
Definition typed (attr : Z) (l : list Z) (t : term) : term := foldl (fun t c => put_char attr (s8 c) t) t l.

Lemma typed_app attr l1 l2 t : typed attr (l1 ++ l2) t = typed attr l2 (typed attr l1 t).
Proof. apply foldl_app. Qed.

(** Memory outside of the screen is kept. *)
Definition screen_only (v v' : vga) : Prop :=
  attribute v' = attribute v /\ m_pages (v_mem v') = m_pages (v_mem v) /\
  forall x, x < video_mem \/ video_mem + 4000 <= x -> byte_at (v_mem v') x = byte_at (v_mem v) x.

#[global] Instance screen_only_preorder : PreOrder screen_only.
Proof.
  split; [intros v; by split_and!|]. intros v1 v2 v3 (A1 & P1 & B1) (A2 & P2 & B2). split_and!; [congruence | congruence |].
  intros x Hx. by rewrite B2, B1.
Qed.

Section strings.
(** A loop that prints the characters of a string. *)
Context (loop : nat -> Z -> M vga unit).
Hypothesis loop_end : forall fuel p v, page_present (v_mem v) p = true -> byte_at (v_mem v) p = 0 -> loop fuel p v = Ok (tt, v).
Hypothesis loop_char : forall fuel p c v, page_present (v_mem v) p = true -> byte_at (v_mem v) p = c -> c <> 0 -> c <> 27 ->
  loop (S fuel) p v = (vga_print_char (s8 c);; loop fuel (p + 1)) v.

Lemma print_loop_ok l fuel p v t :
  vga_ok v -> shows v t -> cstring (v_mem v) p l -> plain l -> (length l <= fuel)%nat ->
  (p + Z.of_nat (length l) + 1 <= video_mem \/ video_mem + 4000 <= p) ->
  exists v', loop fuel p v = Ok (tt, v') /\ vga_ok v' /\ shows v' (typed (attribute v) l t) /\ screen_only v v'.
Proof.
  revert fuel p v t. induction l as [|c l IH]; intros fuel p v t Hv Hs C Hp Hf Hd; cbn [length] in *.
  - apply cstring_nil in C as [P B]. exists v. rewrite loop_end by done. by split_and!.
  - apply cstring_cons in C as ((P & B) & Hc & C). apply Forall_cons in Hp as [Hc27 Hp]. destruct fuel as [|fuel]; [lia|].
    rewrite (loop_char fuel p c) by (done || lia).
    destruct (print_char_run v t (s8 c) Hv Hs) as (v1 & E1 & V1 & S1 & A1 & P1 & B1 & _).
    { unfold s8. Z.div_mod_to_equations. lia. }
    rewrite (bind_ok _ _ _ _ _ E1).
    destruct (IH fuel (p + 1) v1 (put_char (attribute v) (s8 c) t)) as (v' & E & V & S & K); try done; try lia.
    + eapply cstring_screen; [exact P1 | exact B1 | lia | done].
    + exists v'. rewrite A1 in S. split_and!; try done. etransitivity; [|exact K]. by split_and!.
Qed.
End strings.

Lemma vga_print_str_ok l fuel p v t :
  vga_ok v -> shows v t -> cstring (v_mem v) p l -> plain l -> (length l <= fuel)%nat ->
  (p + Z.of_nat (length l) + 1 <= video_mem \/ video_mem + 4000 <= p) ->
  exists v', vga_print_str fuel p v = Ok (tt, v') /\ vga_ok v' /\ shows v' (typed (attribute v) l t) /\ screen_only v v'.
Proof.
  apply (print_loop_ok vga_print_str).
  - intros f a u P B. destruct f; cbn [vga_print_str]; by rewrite (bind_ok _ _ _ _ _ (on_vmem_byte u a 0 P B)).
  - intros f a c u P B H0 H27. cbn [vga_print_str]. rewrite (bind_ok _ _ _ _ _ (on_vmem_byte u a c P B)).
    by rewrite (proj2 (Z.eqb_neq _ _) H0), (proj2 (Z.eqb_neq _ _) H27).
Qed.

Lemma print_buffer_ok l fuel p v t :
  vga_ok v -> shows v t -> cstring (v_mem v) p l -> plain l -> (length l <= fuel)%nat ->
  (p + Z.of_nat (length l) + 1 <= video_mem \/ video_mem + 4000 <= p) ->
  exists v', print_buffer fuel p v = Ok (tt, v') /\ vga_ok v' /\ shows v' (typed (attribute v) l t) /\ screen_only v v'.
Proof.
  apply (print_loop_ok print_buffer).
  - intros f a u P B. destruct f; cbn [print_buffer]; by rewrite (bind_ok _ _ _ _ _ (on_vmem_byte u a 0 P B)).
  - intros f a c u P B H0 H27. cbn [print_buffer]. rewrite (bind_ok _ _ _ _ _ (on_vmem_byte u a c P B)).
    by rewrite (proj2 (Z.eqb_neq _ _) H0).
Qed.

Lemma numeral_plain base v : 2 <= base <= 36 -> plain (numeral base v).
Proof.
  intros Hb. eapply Forall_impl; [apply (numeral_is_numeral base v); lia|]. intros c (d & Hd & ->).
  unfold digit_char. destruct (Z.ltb_spec d 10); lia.
Qed.

(** vga_print_hex: the digits of the number. *)
Lemma vga_print_hex_ok fuel buffer value v t :
  vga_ok v -> shows v t -> 0 <= value < 2 ^ 32 -> present (v_mem v) buffer 34 -> (33 <= fuel)%nat ->
  (buffer + 34 <= video_mem \/ video_mem + 4000 <= buffer) ->
  exists v', vga_print_hex fuel buffer value v = Ok (tt, v') /\ vga_ok v' /\
    shows v' (typed (attribute v) (numeral 16 value) t) /\
    attribute v' = attribute v /\ m_pages (v_mem v') = m_pages (v_mem v) /\
    forall x, (x < video_mem \/ video_mem + 4000 <= x) -> (x < buffer \/ buffer + 34 <= x) ->
      byte_at (v_mem v') x = byte_at (v_mem v) x.
Proof.
  intros Hv Hs Hx P Hf Hd. destruct (itoa_ok (v_mem v) value buffer 16 ltac:(lia) Hx P) as (m & E & C & [Op Ob]).
  unfold vga_print_hex. rewrite (bind_ok _ _ _ _ _ (on_vmem_ok _ _ _ _ E)).
  destruct (screen_mem v t m) as [V1 S1]; [split; [done|]; intros x Hx'; apply Ob; lia | done | done |].
  pose proof (numeral_length 16 value). 
  destruct (print_buffer_ok (numeral 16 value) fuel buffer (with_vmem m v) t) as (v' & E' & V' & S' & A' & P' & B');
    try done; [apply numeral_plain; lia | lia | lia |].
  exists v'. split_and!; try done; [by rewrite P' |]. intros x H1 H2. rewrite B' by done. apply Ob. lia.
Qed.

(** ** System calls *)

Section calls.
Context {H : Type} `{KernelHeap H}.
Context (code : Z -> Z -> M (kernel H) unit) (regs_at entry void_eax buffer : Z) (str_fuel : nat).
Hypothesis Hcode : forall r, code entry r = syscall_handler void_eax str_fuel buffer r.

Definition k_screen (k : kernel H) : vga := k_vga (k_kbd k).

Definition with_screen (v : vga) (b : keyboard) : keyboard :=
  Keyboard (last_char b) (shift_pressed b) (kbd_buffer b) (read_idx b) (write_idx b) v.

(** The handler of int 0x80 is attached. *)
Definition handled (k : kernel H) : Prop := vector_calls (a_table (k_arch k)) SYSCALL_VECTOR [entry].

(** The frame when the thread executes the instruction. *)
Definition trapped (f : registers_t -> registers_t) (k : kernel H) : kernel H :=
  Kernel (k_arch k) (k_sched k) (k_kbd k) (set_int SYSCALL_VECTOR 0 (f (k_regs k))).

(** A call of the table that returns. *)
Lemma int80_ok f num arg k k1 :
  handled k -> r_eax (f (k_regs k)) = num -> num < num_syscalls -> r_ebx (f (k_regs k)) = arg ->
  syscall_body void_eax str_fuel buffer num arg (trapped f k) = Ok (void_eax, k1) ->
  exists k', (set_regs f;; int80 code regs_at) k = Ok (s32 void_eax, k') /\ handled k' /\
    k_kbd k' = k_kbd k1 /\ k_sched k' = k_sched k1.
Proof.
  intros Hh En Hn Eb B. set (k0 := trapped f k).
  destruct (syscall_dispatch code void_eax str_fuel buffer k0 entry regs_at eq_refl Hh Hcode) as [_ D].
  cbn [k_regs k0 trapped set_int r_eax r_ebx] in D. rewrite En, Eb in D. specialize (D Hn). fold k0 in B. rewrite B in D.
  destruct D as (k' & E & Er & Ek & Es & b & Ea). exists k'. split; [|split_and!; try done].
  - unfold int80. rewrite (bind_ok _ _ k tt (Kernel (k_arch k) (k_sched k) (k_kbd k) (f (k_regs k)))) by done.
    rewrite (bind_ok _ _ _ tt k0) by done. rewrite (bind_ok _ _ _ _ _ E).
    rewrite (bind_ok _ _ k' (k_regs k') k') by done. rewrite ret_ok, Er. done.
  - unfold handled. rewrite Ea. exact Hh.
Qed.

Lemma on_screen_ok (c : M vga unit) k v' :
  c (k_screen k) = Ok (tt, v') ->
  on_kbd (on_vga c) k = Ok (tt, Kernel (k_arch k) (k_sched k) (with_screen v' (k_kbd k)) (k_regs k)).
Proof. intros E. unfold on_kbd, on_vga, zoom. unfold k_screen in E. by rewrite E. Qed.

(** A print call: the screen of the kernel changes as the function says. *)
Lemma print_call num arg (c : M vga unit) k v' :
  handled k -> 0 < num < num_syscalls ->
  (forall k0 : kernel H, syscall_body void_eax str_fuel buffer num arg k0 = (on_kbd (on_vga c);; mret void_eax) k0) ->
  c (k_screen k) = Ok (tt, v') ->
  exists k', DEFN_SYSCALL1 code regs_at num arg k = Ok (s32 void_eax, k') /\ handled k' /\
    k_kbd k' = with_screen v' (k_kbd k) /\ k_sched k' = k_sched k.
Proof.
  intros Hh Hn Hb E.
  destruct (int80_ok (set_ebx arg ∘ set_eax num) num arg k
    (Kernel (k_arch k) (k_sched k) (with_screen v' (k_kbd k)) (set_int SYSCALL_VECTOR 0 ((set_ebx arg ∘ set_eax num) (k_regs k)))))
    as (k' & R & Hh' & Ek & Es); try done; [lia | | by exists k'].
  rewrite Hb. pose proof (on_screen_ok c (trapped (set_ebx arg ∘ set_eax num) k) v' E) as E'.
  by rewrite (bind_ok _ _ _ _ _ E').
Qed.

(** ** func1 *)

Context (str_ok str_dash str_exit : Z).
Definition text_ok_nl : list Z := [111; 107; 10].
Definition text_exit : list Z := [101; 120; 105; 116; 10].

(** [n] bytes apart from the screen and from the buffer of vga_print_hex. *)
Definition off_screen (a n : Z) : Prop :=
  (a + n <= video_mem \/ video_mem + 4000 <= a) /\ (a + n <= buffer \/ buffer + 34 <= a).

(** The strings of func1, the screen and the handler; [t] is shown. *)
Record serving (attr : Z) (t : term) (k : kernel H) : Prop := {
  sv_handled : handled k;
  sv_ok : vga_ok (k_screen k);
  sv_attr : attribute (k_screen k) = attr;
  sv_shows : shows (k_screen k) t;
  sv_buffer : present (v_mem (k_screen k)) buffer 34 /\ (buffer + 34 <= video_mem \/ video_mem + 4000 <= buffer);
  sv_str_ok : cstring (v_mem (k_screen k)) str_ok text_ok_nl /\ off_screen str_ok 4;
  sv_str_dash : cstring (v_mem (k_screen k)) str_dash [45] /\ off_screen str_dash 2;
  sv_str_exit : cstring (v_mem (k_screen k)) str_exit text_exit /\ off_screen str_exit 6
}.

Lemma serving_keep attr t t' k k' :
  serving attr t k -> handled k' -> vga_ok (k_screen k') -> shows (k_screen k') t' ->
  attribute (k_screen k') = attribute (k_screen k) -> m_pages (v_mem (k_screen k')) = m_pages (v_mem (k_screen k)) ->
  (forall x, (x < video_mem \/ video_mem + 4000 <= x) -> (x < buffer \/ buffer + 34 <= x) ->
     byte_at (v_mem (k_screen k')) x = byte_at (v_mem (k_screen k)) x) -> serving attr t' k'.
Proof.
  intros [S1 S2 S3 S4 [S5 S5'] [C1 O1] [C2 O2] [C3 O3]] Hh Hv Hs Ha Hp Hb.
  assert (C : forall a l, cstring (v_mem (k_screen k)) a l -> off_screen a (Z.of_nat (length l) + 1) ->
    cstring (v_mem (k_screen k')) a l).
  { intros a l [C F] [A1 A2]. split; [|done]. intros i c Hi. pose proof (lookup_lt_Some _ _ _ Hi) as L.
    rewrite length_app in L. cbn [length] in L. destruct (C i c Hi) as [P E].
    split; [unfold page_present in *; by rewrite Hp | rewrite Hb by lia; done]. }
  split; [done | done | congruence | done | split; [by apply (present_pages _ _ _ _ Hp) | done] |..]; by split; [apply C|].
Qed.

Lemma print_str_call s l attr t k :
  serving attr t k -> cstring (v_mem (k_screen k)) s l -> off_screen s (Z.of_nat (length l) + 1) -> plain l ->
  (length l <= str_fuel)%nat ->
  exists k', syscall_vga_print_str code regs_at s k = Ok (s32 void_eax, k') /\ serving attr (typed attr l t) k' /\
    k_sched k' = k_sched k.
Proof.
  intros Sv C [O1 O2] Hp Hf.
  destruct (vga_print_str_ok l str_fuel s (k_screen k) t) as (v' & E & V' & S' & A' & P' & B'); try done; [apply Sv | apply Sv | lia |].
  destruct (print_call 1 s (vga_print_str str_fuel s) k v') as (k' & R & Hh & Ek & Es); try done; [apply Sv|].
  exists k'. split; [exact R|]. split; [|done]. assert (Ev : k_screen k' = v') by (unfold k_screen; by rewrite Ek).
  rewrite <- (sv_attr _ _ _ Sv) at 2. apply (serving_keep attr t _ k k' Sv Hh); rewrite ?Ev; auto.
Qed.

Lemma print_hex_call value attr t k :
  serving attr t k -> 0 <= value < 2 ^ 32 -> (33 <= str_fuel)%nat ->
  exists k', syscall_vga_print_hex code regs_at value k = Ok (s32 void_eax, k') /\
    serving attr (typed attr (numeral 16 value) t) k' /\ k_sched k' = k_sched k.
Proof.
  intros Sv Hv Hf. destruct (sv_buffer _ _ _ Sv) as [Pb Ob].
  destruct (vga_print_hex_ok str_fuel buffer value (k_screen k) t) as (v' & E & V' & S' & A' & P' & B'); try done; [apply Sv | apply Sv |].
  destruct (print_call 3 value (vga_print_hex str_fuel buffer value) k v') as (k' & R & Hh & Ek & Es); try done; [apply Sv|].
  exists k'. split; [exact R|]. split; [|done]. assert (Ev : k_screen k' = v') by (unfold k_screen; by rewrite Ek).
  rewrite <- (sv_attr _ _ _ Sv) at 2. apply (serving_keep attr t _ k k' Sv Hh); rewrite ?Ev; auto.
Qed.

(** How many of the numbers from [i] on, [n] of them, are multiples of 5000. *)
Fixpoint marks (n : nat) (i : Z) : nat :=
  match n with
  | O => 0
  | S n => (if i mod 5000 =? 0 then 1 else 0) + marks n (i + 1)
  end.

Lemma marks_count n i : 0 <= i -> Z.of_nat (marks n i) = (i + Z.of_nat n + 4999) / 5000 - (i + 4999) / 5000.
Proof.
  revert i. induction n as [|n IH]; intros i Hi; cbn [marks]; [rewrite Z.add_0_r; lia|].
  rewrite Nat2Z.inj_add, IH by lia. replace (i + 1 + Z.of_nat n) with (i + Z.of_nat (S n)) by lia.
  destruct (Z.eqb_spec (i mod 5000) 0); Z.div_mod_to_equations; lia.
Qed.

Lemma func1_loop_ok n i attr t k :
  serving attr t k -> (1 <= str_fuel)%nat ->
  exists k', func1_loop code regs_at str_dash n i k = Ok (tt, k') /\
    serving attr (typed attr (replicate (marks n i) 45) t) k' /\ k_sched k' = k_sched k.
Proof.
  intros Sv Hf. revert i t k Sv. induction n as [|n IH]; intros i t k Sv; cbn [func1_loop marks].
  - by exists k.
  - destruct (i mod 5000 =? 0); cbn [Nat.add].
    + destruct (sv_str_dash _ _ _ Sv) as [Cd Od].
      destruct (print_str_call str_dash [45] attr t k Sv Cd Od) as (k1 & E1 & S1 & K1); [repeat constructor; lia | cbn; lia |].
      destruct (IH (i + 1) _ k1 S1) as (k' & E & S & K). exists k'.
      rewrite (bind_ok _ _ k tt k1) by (by rewrite (bind_ok _ _ _ _ _ E1)). rewrite E.
      split_and!; [done | exact S | congruence].
    + destruct (IH (i + 1) _ k Sv) as (k' & E & S & K). exists k'. by rewrite (bind_ok _ _ k tt k) by done.
Qed.

(** The thread ends: its state is set and the timer interrupt is raised. *)
Lemma exit_call cur th k :
  handled k -> current_thread (k_sched k) = Some cur -> threads (k_sched k) !! cur = Some th ->
  exists k', syscall_thread_exit code regs_at k = Ok (s32 void_eax, k') /\ handled k' /\ k_kbd k' = k_kbd k /\
    threads (k_sched k') = <[cur := set_state th TASK_FINISHED]> (threads (k_sched k)) /\
    raised (k_sched k') = IRQ 0 :: raised (k_sched k) /\ s_if (k_sched k') = true.
Proof.
  intros Hh Hc Ht. set (k0 := trapped (set_eax 0) k).
  set (s0 := with_flag (a_if (k_arch k0)) (k_sched k0)).
  set (s1 := with_threads (<[cur := set_state th TASK_FINISHED]> (threads (k_sched k))) (with_flag false s0)).
  set (s2 := with_raised (IRQ 0 :: raised (k_sched k)) (with_flag true s1)).
  assert (X : thread_exit s0 = Ok (tt, s2)).
  { unfold thread_exit. rewrite (bind_ok _ _ s0 tt (with_flag false s0)) by done.
    rewrite (bind_ok _ _ _ (Some cur) (with_flag false s0)) by (unfold gets; cbn; by rewrite Hc).
    rewrite (bind_ok _ _ _ tt s1); [done|]. unfold upd_thread.
    rewrite (bind_ok _ _ _ th (with_flag false s0)); [done|]. unfold thread_at. cbn. by rewrite Ht. }
  assert (B : syscall_body void_eax str_fuel buffer 0 (r_ebx (k_regs k)) k0 =
    Ok (void_eax, Kernel (with_if true (k_arch k)) s2 (k_kbd k) (k_regs k0))).
  { unfold syscall_body. cbn [Z.eqb]. unfold mbind, M_bind, on_sched. fold s0. by rewrite X. }
  destruct (int80_ok (set_eax 0) 0 (r_ebx (k_regs k)) k _ Hh eq_refl ltac:(done) eq_refl B) as (k' & R & Hh' & Ek & Es).
  exists k'. rewrite Es. by split_and!.
Qed.

(** What func1 prints. *)
Definition func1_text (off : Z) : list Z := numeral 16 off ++ text_ok_nl ++ replicate 40 45 ++ text_exit.

Lemma func1_run off attr t cur th k :
  serving attr t k -> 0 <= off < 2 ^ 32 -> (33 <= str_fuel)%nat ->
  current_thread (k_sched k) = Some cur -> threads (k_sched k) !! cur = Some th ->
  exists k', func1 code regs_at str_ok str_dash str_exit off k = Ok (tt, k') /\
    serving attr (typed attr (func1_text off) t) k' /\
    threads (k_sched k') = <[cur := set_state th TASK_FINISHED]> (threads (k_sched k)) /\
    raised (k_sched k') = IRQ 0 :: raised (k_sched k).
Proof.
  intros Sv Ho Hf Hc Ht. unfold func1, func1_text. rewrite !typed_app.
  assert (exists n, n = Z.to_nat 200000 /\ Z.of_nat n = 200000) as (n & <- & Hn)
    by (eexists; split; [reflexivity | by rewrite Z2Nat.id]).
  destruct (print_hex_call off attr t k Sv Ho Hf) as (k1 & E1 & S1 & K1). rewrite (bind_ok _ _ _ _ _ E1).
  destruct (sv_str_ok _ _ _ S1) as [Co Oo].
  destruct (print_str_call str_ok text_ok_nl attr _ k1 S1 Co Oo) as (k2 & E2 & S2 & K2);
    [repeat constructor; lia | cbn; lia |]. rewrite (bind_ok _ _ _ _ _ E2).
  destruct (func1_loop_ok n 0 attr _ k2 S2) as (k3 & E3 & S3 & K3); [lia|].
  rewrite (bind_ok _ _ _ _ _ E3).
  assert (Em : marks n 0 = 40%nat) by (apply Nat2Z.inj; rewrite marks_count, Hn by lia; reflexivity).
  rewrite Em in S3. destruct (sv_str_exit _ _ _ S3) as [Ce Oe].
  destruct (print_str_call str_exit text_exit attr _ k3 S3 Ce Oe) as (k4 & E4 & S4 & K4);
    [repeat constructor; lia | cbn; lia |]. rewrite (bind_ok _ _ _ _ _ E4).
  destruct (exit_call cur th k4 (sv_handled _ _ _ S4)) as (k5 & E5 & H5 & B5 & T5 & R5 & _); [congruence | congruence |].
  exists k5. rewrite (bind_ok _ _ _ _ _ E5), ret_ok. split_and!; [done | | congruence | congruence].
  assert (Es : k_screen k5 = k_screen k4) by (unfold k_screen; by rewrite B5).
  apply (serving_keep attr _ _ k4 k5 S4 H5); rewrite ?Es; [apply S4 | apply S4 | reflexivity | reflexivity | reflexivity].
Qed.
End calls.

(** ** Properties *)

(** C27: a thread that runs func1 with the kernel's system call handler attached:
    it prints its argument in hexadecimal, a line "ok", one dash for each of the
    40 multiples of 5000 below 200000 and a line "exit", all through int 0x80,
    and then ends: its state is finished and it asks for the timer interrupt. *)
Theorem func1_ok {H} `{KernelHeap H} code regs_at entry void_eax buffer str_fuel str_ok str_dash str_exit off attr t cur th
    (k : kernel H) :
  (forall r, code entry r = syscall_handler void_eax str_fuel buffer r) ->
  serving entry buffer str_ok str_dash str_exit attr t k -> 0 <= off < 2 ^ 32 -> (33 <= str_fuel)%nat ->
  current_thread (k_sched k) = Some cur -> threads (k_sched k) !! cur = Some th ->
  exists k', func1 code regs_at str_ok str_dash str_exit off k = Ok (tt, k') /\
    shows (k_screen k') (typed attr (func1_text off) t) /\
    threads (k_sched k') = <[cur := set_state th TASK_FINISHED]> (threads (k_sched k)) /\
    raised (k_sched k') = IRQ 0 :: raised (k_sched k).
Proof.
  intros Hc Sv Ho Hf Hcur Ht.
  destruct (func1_run code regs_at entry void_eax buffer str_fuel Hc str_ok str_dash str_exit off attr t cur th k Sv Ho Hf Hcur Ht)
    as (k' & E & S & T & R). exists k'. split_and!; try done. apply S.
Qed.

(** ** func2 *)

(** A cell is written. *)
Lemma show_letter_ok {H : Type} (k : kernel H) video i :
  present (v_mem (k_screen k)) video 2 ->
  exists v', show_letter video i k = Ok (tt, Kernel (k_arch k) (k_sched k) (with_screen v' (k_kbd k)) (k_regs k)) /\
    let w := Z.lor (default 0 (alph !! Z.to_nat (i mod 27))) 0x0f00 in
    v' = with_vmem (set_byte (video + 1) (w / 2 ^ 8) (set_byte video w (v_mem (k_screen k)))) (k_screen k).
Proof.
  intros P. eexists. split; [|reflexivity]. unfold show_letter. apply on_screen_ok.
  erewrite (on_vmem_ok _ _ tt); [reflexivity|]. unfold store16.
  rewrite (bind_ok _ _ _ _ _ (store8_ok _ _ _ (present_first _ _ _ P ltac:(lia)))).
  apply store8_ok. apply P. lia.
Qed.

Lemma func2_loop_ok {H : Type} n fuel video i (k : kernel H) :
  present (v_mem (k_screen k)) video 2 -> 2000000 - i = 2 * (Z.of_nat n + 1) -> 0 <= i -> (n < fuel)%nat ->
  exists v', func2_loop fuel video i k = Ok (tt, Kernel (k_arch k) (k_sched k) (with_screen v' (k_kbd k)) (k_regs k)) /\
    m_pages (v_mem v') = m_pages (v_mem (k_screen k)) /\
    byte_at (v_mem v') video = 97 /\ byte_at (v_mem v') (video + 1) = 0x0f /\
    forall x, x <> video -> x <> video + 1 -> byte_at (v_mem v') x = byte_at (v_mem (k_screen k)) x.
Proof.
  revert fuel i k. induction n as [|n IH]; intros [|fuel] i k P Hn Hi Hf; try lia; cbn [func2_loop].
  all: destruct (Z.ltb_spec i 2000000); [|lia].
  all: destruct (show_letter_ok k video i P) as (v1 & E1 & Ev); cbv zeta in Ev; rewrite (bind_ok _ _ _ _ _ E1);
    set (k1 := Kernel (k_arch k) (k_sched k) (with_screen v1 (k_kbd k)) (k_regs k)).
  - replace i with 1999998 in * by lia. exists v1. split; [by destruct fuel|]. subst v1. cbn [v_mem with_vmem].
    split_and!; [done | | |].
    + rewrite byte_at_set_other by lia. by rewrite byte_at_set_same.
    + by rewrite byte_at_set_same.
    + intros x H1 H2. by rewrite !byte_at_set_other by lia.
  - destruct (IH fuel (i + 1 + 1) k1) as (v' & E & Pg & B0 & B1 & B); [| lia | lia | lia |].
    { subst v1. exact P. }
    exists v'. rewrite E. split_and!; try done; [by rewrite Pg; subst v1|].
    intros x H1 H2. rewrite B by done. subst v1. cbn. by rewrite !byte_at_set_other by lia.
Qed.

(** func2 with a position on the screen returns after a million rounds, and
    leaves the letter a in bright white in that cell: the counter goes up by two
    in a round, and the last number, 1999998, is a multiple of 27. No other byte
    changes. *)
Theorem func2_ok {H : Type} fuel off (k : kernel H) :
  vga_ok (k_screen k) -> 0 <= off < 2000 -> (Z.to_nat 1000000 <= fuel)%nat ->
  exists v', func2 fuel off k = Ok (tt, Kernel (k_arch k) (k_sched k) (with_screen v' (k_kbd k)) (k_regs k)) /\
    cell (v_mem v') off = 0x0f61 /\
    forall x, x <> video_mem + 2 * off -> x <> video_mem + 2 * off + 1 -> byte_at (v_mem v') x = byte_at (v_mem (k_screen k)) x.
Proof.
  intros [_ _ _ Pm] Ho Hf. unfold func2. rewrite !u32_small by (rewrite ?u32_small; lia).
  replace (0xc00b8000 + off * 2) with (video_mem + 2 * off) by (unfold video_mem; lia).
  assert (exists n, n = Z.to_nat 999999 /\ Z.of_nat n = 999999) as (n & _ & Hn)
    by (eexists; split; [reflexivity | by rewrite Z2Nat.id]).
  destruct (func2_loop_ok n fuel (video_mem + 2 * off) 0 k) as (v' & E & _ & B0 & B1 & B).
  - eapply present_sub; [exact Pm | lia | lia].
  - lia.
  - lia.
  - apply Nat2Z.inj_lt. apply Nat2Z.inj_le in Hf. rewrite Z2Nat.id in Hf by lia. lia.
  - exists v'. split; [exact E|]. split; [|done]. unfold cell. by rewrite B0, B1.
Qed.

(** ** A concrete kernel *)

#[local] Instance idle_heap : KernelHeap mem :=
  {| kmalloc := fun _ => mret 0; kfree := fun _ => mret tt; heap_mem := id;
     set_heap_mem := fun m _ => m; heap_mem_set := fun _ _ => eq_refl |}.

(** The strings of func1 in low memory, and one running thread at address 4096. *)
Definition demo_screen : vga :=
  Vga (map_page_at video_mem (put_bytes 16 (text_ok_nl ++ [0]) (put_bytes 32 [45; 0] (put_bytes 48 (text_exit ++ [0])
    (mem_with_pages 1 0))))) 0 0 0x0f00 [].

Definition demo_sched : sched mem :=
  Sched {[4096 := set_state zero_thread TASK_RUNNING]} ∅ (Some 4096) (Some 4096) true 1 1 0 0 0 0 0 0 true [] no_mem.

Definition demo_kernel : kernel mem :=
  Kernel (with_table (one_handler 128 7) boot_arch) demo_sched (init_keyboard demo_screen) (frame 128 0 0).

Lemma demo_screen_ok : vga_ok demo_screen.
Proof.
  split; [cbn; lia | cbn; lia | cbn; lia |]. intros i Hi. unfold page_present. apply bool_decide_eq_true.
  replace ((video_mem + i) / PAGE) with (video_mem / PAGE) by (unfold video_mem, PAGE; Z.div_mod_to_equations; lia).
  cbn [m_pages v_mem demo_screen map_page_at]. set_solver.
Defined.

Lemma demo_serving : serving 7 256 16 32 48 0x0f00 (Term 0 0 (cell (v_mem demo_screen))) demo_kernel.
Proof.
  split.
  - by apply one_handler_calls.
  - exact demo_screen_ok.
  - reflexivity.
  - by split.
  - split; [apply (present_b_ok _ 34); vm_compute; reflexivity | unfold video_mem; lia].
  - split; [apply cstring_b_ok; vm_compute; reflexivity | unfold off_screen, video_mem; lia].
  - split; [apply cstring_b_ok; vm_compute; reflexivity | unfold off_screen, video_mem; lia].
  - split; [apply cstring_b_ok; vm_compute; reflexivity | unfold off_screen, video_mem; lia].
Defined.

Lemma func1_ok_witness :
  exists k', func1 (fun _ => syscall_handler 0 40 256) 5000 16 32 48 255 demo_kernel = Ok (tt, k') /\
    shows (k_screen k') (typed 0x0f00 (func1_text 255) (Term 0 0 (cell (v_mem demo_screen)))) /\
    threads (k_sched k') = <[4096 := set_state (set_state zero_thread TASK_RUNNING) TASK_FINISHED]> (threads demo_sched) /\
    raised (k_sched k') = IRQ 0 :: raised demo_sched.
Proof.
  apply (func1_ok (fun _ => syscall_handler 0 40 256) 5000 7 0 256 40 16 32 48 255 0x0f00
    (Term 0 0 (cell (v_mem demo_screen))) 4096 (set_state zero_thread TASK_RUNNING) demo_kernel);
    [done | exact demo_serving | lia | lia | reflexivity | reflexivity].
Defined.

Lemma func2_ok_witness :
  exists v', func2 (Z.to_nat 1000000) 160 demo_kernel =
      Ok (tt, Kernel (k_arch demo_kernel) (k_sched demo_kernel) (with_screen v' (k_kbd demo_kernel)) (k_regs demo_kernel)) /\
    cell (v_mem v') 160 = 0x0f61 /\
    forall x, x <> video_mem + 2 * 160 -> x <> video_mem + 2 * 160 + 1 -> byte_at (v_mem v') x = byte_at (v_mem demo_screen) x.
Proof. apply (func2_ok (Z.to_nat 1000000) 160 demo_kernel); [exact demo_screen_ok | lia | apply Nat.le_refl]. Defined.
