(* ===== verification/StartSpec.v ===== *)
(** The threads that main starts: twenty of them, two in each of ten rounds,
    each with its own frame on its own stacks, in the order of their creation.

    What main needs of the heap is the class [ThreadSupply]: requests for a
    number of threads succeed, the blocks are new ones, and writing into the
    stacks that were handed out does not disturb the heap. *)

From S2P Require Import Prelude Memory CString Dll Paging MemAlloc Handlers Arch ArchSpec Kheap Sched SchedSpec ThreadSpec Vga VgaSpec Keyboard Interrupts InterruptSpec Demo.

(** [room n taken stacks h]: memory for [n] more threads; [taken] are the thread
    structures and [stacks] the stacks in use. *)
Class ThreadSupply {H : Type} `{KernelHeap H} (room : nat -> list Z -> list Z -> H -> Prop) : Prop := {
  supply_ok : forall n taken stacks h user, room (S n) taken stacks h ->
    exists thread kst ust h3, thread_memory user h thread kst ust h3 /\ (thread ∉ taken) /\
      (forall a b, a ∈ stacks_of user kst ust -> b ∈ stacks -> a + STACK_SIZE <= b \/ b + STACK_SIZE <= a) /\
      (forall x, in_stacks stacks x -> byte_at (heap_mem h3) x = byte_at (heap_mem h) x) /\
      room n (thread :: taken) (stacks_of user kst ust ++ stacks) h3;
  supply_write : forall n taken stacks h h', room n taken stacks h -> stack_write stacks h h' -> room n taken stacks h'
}.

(** A thread to be: its process, function, argument and mode. *)
Record job : Type := Job { j_process : Z; j_entry : Z; j_args : Z; j_user : bool }.

(** The two threads of round [k]. *)
Definition round_jobs (procs : list Z) (func1_at func2_at k : Z) : list job :=
  let p := default 0 (procs !! Z.to_nat (k mod 3)) in
  [Job p func2_at (2 * k + 160) false; Job p func1_at k true].

Section start.
Context {H : Type} `{KH : KernelHeap H} (room : nat -> list Z -> list Z -> H -> Prop) `{!ThreadSupply room}.
Context (exit_at func1_at func2_at : Z) (pmap : gmap Z process_t).
Implicit Types (s : sched H).

(** A thread [a] with stacks [kst] and [ust] that will do a job. *)
Definition does_job (s : sched H) (j : job) (a kst ust : Z) : Prop :=
  exists p t, pmap !! j_process j = Some p /\ threads s !! a = Some t /\ t_process t = j_process j /\
    t_state t = TASK_READY /\ t_esp t = kst + 0x2000 - 72 /\ t_page_dir t = pr_page_dir p /\
    thread_frame (heap_mem (s_heap s)) (j_user j) false exit_at (j_entry j) (j_args j) kst ust.

(** The stacks of a list of threads. *)
Definition job_stacks (js : list job) (ts : list (Z * Z * Z)) : list Z :=
  mjoin (zip_with (fun j '(_, kst, ust) => stacks_of (j_user j) kst ust) js ts).

(** [js] are the jobs of the threads [ts], which follow the threads [ks] in the
    ring of [c]. *)
Record started (n : nat) (c : Z) (ks : list Z) (js : list job) (ts : list (Z * Z * Z)) (s : sched H) : Prop := {
  sd_ring : scheduled s c (ks ++ map (fun t => t.1.1) ts);
  sd_procs : procs s = pmap;
  sd_id : 0 <= last_thread_id s /\ last_thread_id s + Z.of_nat n < 2 ^ 32 - 1;
  sd_jobs : Forall2 (fun j t => does_job s j t.1.1 t.1.2 t.2) js ts;
  sd_room : exists taken stacks, room n taken stacks (s_heap s) /\
    (forall a, a ∈ (c :: ks ++ map (fun t => t.1.1) ts) -> a ∈ taken) /\ (forall a, a ∈ job_stacks js ts -> a ∈ stacks)
}.

(** Frames lie inside the stacks. *)
Lemma frame_kept m m' (user : bool) exit entry args kst ust :
  (forall x, in_stacks (stacks_of user kst ust) x -> byte_at m' x = byte_at m x) ->
  thread_frame m user false exit entry args kst ust -> thread_frame m' user false exit entry args kst ust.
Proof.
  intros E. assert (W : forall a n, (forall x, a <= x < a + 4 * Z.of_nat n -> in_stacks (stacks_of user kst ust) x) ->
    words_from m' a n = words_from m a n) by (intros a n Ha; apply words_from_ext; auto).
  assert (K : kst ∈ stacks_of user kst ust) by (by destruct user; left).
  assert (Ik : forall a n, kst <= a -> a + 4 * Z.of_nat n <= kst + 0x2000 -> words_from m' a n = words_from m a n).
  { intros a n H1 H2. apply W. intros x Hx. exists kst. split; [done|]. unfold STACK_SIZE. lia. }
  unfold thread_frame. rewrite !Ik by lia. destruct user; [|done]. rewrite W; [done|].
  intros x Hx. exists ust. split; [right; left | unfold STACK_SIZE; lia].
Qed.

(** Jobs of other threads stay done when a thread is created. *)
Lemma job_kept s s' j a kst ust :
  does_job s j a kst ust -> bodies (threads s') a = bodies (threads s) a ->
  (forall x, in_stacks (stacks_of (j_user j) kst ust) x -> byte_at (heap_mem (s_heap s')) x = byte_at (heap_mem (s_heap s)) x) ->
  does_job s' j a kst ust.
Proof.
  intros (p & t & Hp & Ht & P & St & Es & Pd & Fr) B M. unfold bodies in B. rewrite Ht in B.
  destruct (threads s' !! a) as [t'|] eqn:Ht'; [|done]. apply (inj Some) in B.
  exists p, t'. split_and!; try done; [| | | |by eapply frame_kept].
  - rewrite <- P. exact (f_equal t_process B).
  - rewrite <- St. exact (f_equal t_state B).
  - rewrite <- Es. exact (f_equal t_esp B).
  - rewrite <- Pd. exact (f_equal t_page_dir B).
Qed.

Lemma stack_write_mono (l l' : list Z) (h h' : H) : (forall a, a ∈ l -> a ∈ l') -> stack_write l h h' -> stack_write l' h h'.
Proof.
  intros Hl (m & E & P & B). exists m. split_and!; try done. intros x Hx. apply B. intros (a & Ha & Hr). apply Hx.
  exists a. auto.
Qed.

Lemma room_writes n taken stacks l (h h' : H) :
  (forall a, a ∈ l -> a ∈ stacks) -> rtc (stack_write l) h h' -> room n taken stacks h -> room n taken stacks h'.
Proof.
  intros Hl W. induction W as [h|h h1 h' W _ IH]; [done|]. intros R. apply IH.
  eapply supply_write; [exact R|]. by eapply stack_write_mono.
Qed.

Lemma job_stacks_in js ts i j t : js !! i = Some j -> ts !! i = Some t ->
  forall a, a ∈ stacks_of (j_user j) t.1.2 t.2 -> a ∈ job_stacks js ts.
Proof.
  intros Hj Ht a Ha. apply list_elem_of_join. exists (stacks_of (j_user j) t.1.2 t.2). split; [done|].
  apply list_elem_of_lookup. exists i. rewrite lookup_zip_with, Hj. cbn. rewrite Ht. by destruct t as [[? ?] ?].
Qed.

Lemma job_stacks_snoc js ts j t : length js = length ts ->
  job_stacks (js ++ [j]) (ts ++ [t]) = job_stacks js ts ++ stacks_of (j_user j) t.1.2 t.2.
Proof.
  intros L. unfold job_stacks. rewrite zip_with_app, join_app by done. cbn. rewrite app_nil_r. by destruct t as [[? ?] ?].
Qed.

(** One more thread. *)
Lemma create_job n c ks js ts s j p :
  started (S n) c ks js ts s -> pmap !! j_process j = Some p ->
  exists id t s', create_thread exit_at (j_process j) (j_entry j) (j_args j) 1 (j_user j) false s = Ok (id, s') /\ id <> 0 /\
    started n c ks (js ++ [j]) (ts ++ [t]) s' /\ s_if s' = s_if s.
Proof.
  intros [Sr Sp [I0 I1] Sj (taken & stacks & Rm & Ht & Hs)] Hp.
  destruct (supply_ok n taken stacks (s_heap s) (j_user j) Rm) as (a & kst & ust & h3 & Tm & Hn & Ap & Kb & Rm').
  assert (Hn' : a ∉ c :: ks ++ map (fun t => t.1.1) ts) by (intros Hin; by apply Hn, Ht).
  rewrite <- Sp in Hp.
  destruct (create_thread_run s exit_at (j_process j) p (j_entry j) (j_args j) 1 (j_user j) false a kst ust h3 c _ Sr Hn' Hp Tm)
    as (s' & t & Run & Sr' & Tt & Bt & _ & Fl & Bo & Pr & Id & W & Fr).
  destruct (stack_writes_mem _ _ _ W) as [_ Wb]. assert (L := Forall2_length _ _ _ Sj).
  rewrite (u32_small (last_thread_id s + 1)) in * by lia.
  exists (last_thread_id s + 1), (a, kst, ust), s'. split; [exact Run|]. split; [lia|]. split; [|done]. split.
  - rewrite map_app, app_assoc. exact Sr'.
  - congruence.
  - lia.
  - apply Forall2_app; [|apply Forall2_cons; split; [|apply Forall2_nil_2]].
    + apply Forall2_same_length_lookup_2; [done|]. intros i j' t' Hj' Ht'.
      pose proof (Forall2_lookup_lr _ _ _ _ _ _ Sj Hj' Ht') as D. apply (job_kept s); [done | |].
      * apply Bo. intros <-. apply Hn', list_elem_of_further, elem_of_app. right.
        apply list_elem_of_fmap. exists t'. split; [done|]. by eapply list_elem_of_lookup_2.
      * intros x (b & Hb & Hx). assert (Hb' : b ∈ stacks) by (apply Hs; by eapply job_stacks_in).
        rewrite Wb; [apply Kb; by exists b|]. intros (d & Hd & Hx'). specialize (Ap d b Hd Hb'). lia.
    + exists p, t. rewrite Sp in Hp. split_and!; try done.
      * exact (f_equal t_process Bt).
      * exact (f_equal t_state Bt).
      * exact (f_equal t_esp Bt).
      * exact (f_equal t_page_dir Bt).
  - exists (a :: taken), (stacks_of (j_user j) kst ust ++ stacks). split_and!.
    + eapply room_writes; [|exact W | exact Rm']. intros b Hb. apply elem_of_app. by left.
    + intros b. rewrite map_app, app_assoc. change (c :: (ks ++ ?x) ++ ?y) with ((c :: ks ++ x) ++ y).
      rewrite elem_of_app. intros [Hb|Hb]; [right; by apply Ht | apply list_elem_of_singleton in Hb as ->; left].
    + intros b. rewrite job_stacks_snoc by done. rewrite !elem_of_app. intros [Hb|Hb]; [right; by apply Hs | by left].
Qed.

Lemma started_flag n c ks js ts b s : started n c ks js ts s -> started n c ks js ts (with_flag b s).
Proof. intros [S1 S2 S3 S4 S5]. split; try done. Qed.

(** On the state of the kernel. *)
Lemma must_create_ok n c ks js ts (k : kernel H) j p :
  started (S n) c ks js ts (k_sched k) -> pmap !! j_process j = Some p ->
  exists t s', must_create exit_at (j_process j) (j_entry j) (j_args j) (j_user j) k =
      Ok (tt, Kernel (k_arch k) s' (k_kbd k) (k_regs k)) /\ started n c ks (js ++ [j]) (ts ++ [t]) s'.
Proof.
  intros S Hp. destruct (create_job n c ks js ts _ j p (started_flag _ _ _ _ _ (a_if (k_arch k)) _ S) Hp)
    as (id & t & s' & E & Hid & S' & F). exists t, s'. split; [|done]. unfold must_create.
  rewrite (bind_ok _ _ k id (Kernel (k_arch k) s' (k_kbd k) (k_regs k))); [by rewrite (proj2 (Z.eqb_neq _ _) Hid)|].
  unfold on_sched. rewrite E, F. cbn. by destruct (k_arch k).
Qed.

(** [n] rounds from round [k] on. *)
Lemma start_threads_run n procs c ks : forall i js ts (k : kernel H),
  started (2 * n) c ks js ts (k_sched k) -> length procs = 3%nat -> Forall (fun p => is_Some (pmap !! p)) procs ->
  0 <= i -> i + Z.of_nat n <= 10 ->
  exists ts' s', start_threads exit_at func1_at func2_at n procs i (2 * i) k =
      Ok (tt, Kernel (k_arch k) s' (k_kbd k) (k_regs k)) /\
    started 0 c ks (js ++ mjoin (map (round_jobs procs func1_at func2_at) (seqZ i (Z.of_nat n)))) (ts ++ ts') s'.
Proof.
  induction n as [|n IH]; intros i js ts k Sd L Hp Hi Hn.
  - exists [], (k_sched k). rewrite !app_nil_r. split; [by destruct k | exact Sd].
  - cbn [start_threads]. destruct (lookup_lt_is_Some_2 procs (Z.to_nat (i mod 3))) as [p Ep];
      [rewrite L; pose proof (Z.mod_pos_bound i 3); lia|]. rewrite Ep.
    destruct (Forall_lookup_1 _ _ _ _ Hp Ep) as [pr Hpr]. rewrite !u32_small by lia.
    replace (2 * S n)%nat with (S (S (2 * n))) in Sd by lia.
    destruct (must_create_ok _ c ks js ts k (Job p func2_at (2 * i + 160) false) pr Sd Hpr) as (t1 & s1 & E1 & S1).
    cbn [j_process j_entry j_args j_user] in E1. change (2 * i + 80 * 2) with (2 * i + 160). rewrite (bind_ok _ _ _ _ _ E1).
    set (k1 := Kernel (k_arch k) s1 (k_kbd k) (k_regs k)).
    destruct (must_create_ok _ c ks _ _ k1 (Job p func1_at i true) pr S1 Hpr) as (t2 & s2 & E2 & S2).
    cbn [j_process j_entry j_args j_user] in E2. rewrite (bind_ok _ _ _ _ _ E2).
    set (k2 := Kernel _ s2 _ _). replace (2 * i + 2) with (2 * (i + 1)) by lia.
    destruct (IH (i + 1) _ _ k2 S2 L Hp) as (ts' & s' & E & S'); [lia | lia |].
    exists (t1 :: t2 :: ts'), s'. split; [exact E|].
    rewrite seqZ_cons by lia. replace (Z.pred (Z.of_nat (S n))) with (Z.of_nat n) by lia.
    cbn [map mjoin list_join]. unfold round_jobs at 1. rewrite Ep. cbn [default from_option].
    rewrite <- !app_assoc in S'. cbn [app] in S' |- *. replace (Z.succ i) with (i + 1) by lia. exact S'.
Qed.
End start.

(** ** Properties *)

(** C26: the loop of main that starts the threads. With three processes and a heap
    that has room for twenty threads, ten rounds put twenty threads behind those
    of the ring, in this order: in round k a kernel thread that will run func2
    with 2 k + 160 and a user thread that will run func1 with k, both in the
    address space of the process k mod 3. Each of them is ready, its stack holds
    the frame that starts its function, and none is disturbed by those created
    later; the devices, the keyboard and the registers are as before. *)
Theorem main_threads_ok {H} `{KernelHeap H} (room : nat -> list Z -> list Z -> H -> Prop) `{!ThreadSupply room}
    exit_at func1_at func2_at pmap procs c ks (k : kernel H) :
  started room exit_at pmap 20 c ks [] [] (k_sched k) -> length procs = 3%nat ->
  Forall (fun p => is_Some (pmap !! p)) procs ->
  exists ts s', start_threads exit_at func1_at func2_at 10 procs 0 0 k = Ok (tt, Kernel (k_arch k) s' (k_kbd k) (k_regs k)) /\
    scheduled s' c (ks ++ map (fun t => t.1.1) ts) /\
    Forall2 (fun j t => does_job exit_at pmap s' j t.1.1 t.1.2 t.2)
      (mjoin (map (round_jobs procs func1_at func2_at) (seqZ 0 10))) ts.
Proof.
  intros S L Hp. destruct (start_threads_run room exit_at func1_at func2_at pmap 10 procs c ks 0 [] [] k S L Hp) as (ts & s' & E & S');
    [lia | lia |]. exists ts, s'. split; [exact E|]. destruct S' as [Sr _ _ Sj _]. by split.
Qed.

(** ** The boot-time heap supplies threads *)

Section placement_supply.
Context (table_ap : Z -> M pg (Z * Z)) (frame_data : Z -> mem -> mem) (head : Z) (tree_fuel fuel : nat).
Context (kernel_voffset : Z).

#[local] Instance place_heap : KernelHeap kheap_state :=
  kheap_heap table_ap frame_data head tree_fuel fuel kernel_voffset.

(** A thread takes at most its structure and two stacks. *)
Definition THREAD_ROOM : Z := SIZEOF_THREAD + STACK_SIZE + STACK_SIZE.

Definition place_room (n : nat) (taken stacks : list Z) (h : kheap_state) : Prop :=
  let p := placement_address (k_pg h) in
  k_ready h = false /\ 0 < p /\ p + Z.of_nat n * THREAD_ROOM < 2 ^ 32 /\
  present (heap_mem h) p (Z.of_nat n * THREAD_ROOM) /\
  (forall a, a ∈ taken -> a < p) /\ (forall a, a ∈ stacks -> a + STACK_SIZE <= p).

Lemma place_kmalloc h size p :
  k_ready h = false -> placement_address (k_pg h) = p -> 0 <= p -> 0 <= size -> p + size < 2 ^ 32 ->
  kmalloc size h = Ok (p, set_place (p + size) h).
Proof.
  intros Hr <- Hp Hs Hb. unfold kmalloc, place_heap, kheap_heap, kmalloc_.
  rewrite (bind_ok _ _ _ _ _ (kmalloc_int_placement _ _ _ _ _ _ h size 0 false Hr)). cbn [align_placement Z.eqb negb andb].
  rewrite u32_small by lia. done.
Qed.

#[global] Instance placement_supply : ThreadSupply place_room.
Proof.
  split.
  - intros n taken stacks h user (Hr & Hp & Hb & Pr & Ht & Hs). set (p := placement_address (k_pg h)) in *.
    unfold THREAD_ROOM, SIZEOF_THREAD, STACK_SIZE in *. rewrite Nat2Z.inj_succ in *.
    set (e := if user then p + 52 + 0x2000 + 0x2000 else p + 52 + 0x2000).
    exists p, (p + 52), (if user then p + 52 + 0x2000 else 0), (set_place e h). split_and!.
    + split.
      * exists (set_place (p + 52) h), (set_place (p + 52 + 0x2000) h). split_and!.
        -- apply place_kmalloc; (done || unfold SIZEOF_THREAD; lia).
        -- exact (place_kmalloc (set_place (p + 52) h) 0x2000 (p + 52) Hr eq_refl ltac:(lia) ltac:(lia) ltac:(lia)).
        -- destruct user; [|done]. exact (place_kmalloc (set_place (p + 52 + 0x2000) h) 0x2000 (p + 52 + 0x2000) Hr eq_refl
             ltac:(lia) ltac:(lia) ltac:(lia)).
      * lia.
      * unfold STACK_SIZE. split_and!; [lia | lia | apply (present_sub _ _ _ _ _ Pr); lia].
      * intros ->. unfold STACK_SIZE. split_and!; [lia | lia | apply (present_sub _ _ _ _ _ Pr); lia | lia].
    + intros Hin. specialize (Ht p Hin). lia.
    + intros a b Ha Hb'. specialize (Hs b Hb'). unfold STACK_SIZE. right.
      destruct user; cbn [stacks_of] in Ha; rewrite ?elem_of_cons, ?elem_of_nil in Ha; lia.
    + done.
    + unfold place_room. cbn [k_ready set_place set_k_pg k_pg k_heap hpg placement_address set_placement].
      unfold THREAD_ROOM, SIZEOF_THREAD, STACK_SIZE. assert (p < e /\ e <= p + 52 + 0x4000) by (unfold e; destruct user; lia).
      split_and!; [done | lia | lia | apply (present_sub _ _ _ _ _ Pr); lia | |].
      * intros a. rewrite elem_of_cons. intros [->|Ha]; [lia | specialize (Ht a Ha); lia].
      * intros a. rewrite elem_of_app. intros [Ha|Ha]; [|specialize (Hs a Ha); lia].
        unfold e. destruct user; cbn [stacks_of] in Ha; rewrite ?elem_of_cons, ?elem_of_nil in Ha; lia.
  - intros n taken stacks h h' (Hr & Hp & Hb & Pr & Ht & Hs) (m & -> & Pg & _). split_and!; try done.
    apply (present_pages (heap_mem h)); [|done]. by rewrite heap_mem_set.
Qed.
End placement_supply.

(** ** A concrete kernel: three threads, and 90 pages of free memory *)

Lemma mem_with_pages_present n a : a mod PAGE = 0 -> present (mem_with_pages n a) a (Z.of_nat n * PAGE).
Proof.
  revert a. induction n as [|n IH]; intros a Ha i Hi; [lia|]. cbn [mem_with_pages]. rewrite page_present_map.
  apply orb_true_iff. unfold PAGE in *. destruct (decide (i < 4096)) as [L|L].
  - left. apply bool_decide_eq_true. Z.div_mod_to_equations. lia.
  - right. replace (a + i) with (a + 4096 + (i - 4096)) by lia.
    apply IH; [Z.div_mod_to_equations; lia | lia].
Defined.

Definition roomy_heap : kheap_state :=
  KheapState false (Heap (mem_with_pages 90 0xc0200000) (al (k_heap boot_kheap)) (set_placement 0xc0200000 (k_pg boot_kheap))).

#[local] Existing Instance boot_heap.

Definition roomy_kernel : kernel kheap_state :=
  Kernel boot_arch (with_heap roomy_heap two_threads) (init_keyboard bottom_right) (frame 128 0 0).

Abbreviation boot_room :=
  (place_room (fun _ => throw Hang) (fun _ m => m) 0 0 0 0xc0000000).

Lemma roomy_started : started boot_room 0xc0100500 (procs two_threads) 20 kthread [thread1; thread2] [] [] (k_sched roomy_kernel).
Proof.
  split.
  - exact two_threads_ring.
  - reflexivity.
  - replace (last_thread_id (k_sched roomy_kernel)) with 3 by (vm_compute; reflexivity). lia.
  - by apply Forall2_nil_2.
  - exists [kthread; thread1; thread2], []. split; [|split; [done | intros a Ha; done]].
    split_and!; [reflexivity | cbn; lia | cbn; unfold THREAD_ROOM, SIZEOF_THREAD, STACK_SIZE; lia | | | intros a Ha; by apply elem_of_nil in Ha].
    + apply (present_sub _ 0xc0200000 (Z.of_nat 90 * PAGE)); [by apply mem_with_pages_present | cbn; lia |].
      cbn [k_pg k_heap hpg roomy_heap k_sched roomy_kernel s_heap with_heap set_placement placement_address].
      unfold THREAD_ROOM, SIZEOF_THREAD, STACK_SIZE, PAGE. lia.
    + intros a. rewrite !elem_of_cons, elem_of_nil. intros [->|[->|[->|[]]]]; vm_compute; reflexivity.
Defined.

Lemma main_threads_ok_witness :
  let procs := [0xc0111000; 0xc0111000; 0xc0111000] in
  exists ts s', start_threads 0xc0100500 0xc0100600 0xc0100700 10 procs 0 0 roomy_kernel =
      Ok (tt, Kernel (k_arch roomy_kernel) s' (k_kbd roomy_kernel) (k_regs roomy_kernel)) /\
    scheduled s' kthread ([thread1; thread2] ++ map (fun t => t.1.1) ts) /\
    Forall2 (fun j t => does_job 0xc0100500 (Sched.procs two_threads) s' j t.1.1 t.1.2 t.2)
      (mjoin (map (round_jobs procs 0xc0100600 0xc0100700) (seqZ 0 10))) ts.
Proof.
  intros procs. apply (main_threads_ok boot_room 0xc0100500 0xc0100600 0xc0100700 (Sched.procs two_threads) procs kthread [thread1; thread2] roomy_kernel).
  - exact roomy_started.
  - reflexivity.
  - repeat (apply Forall_cons; split; [vm_compute; by eexists|]). by apply Forall_nil.
Defined.
