(* ===== verification/Main.v ===== *)
(** main() of main.c: the start of the kernel, on the state of the whole machine.

    The parts of the machine are those of the components. There is one memory,
    the one of the kernel heap's state; an operation of another component that
    accesses memory runs on it: [on_console] for the log, [on_boot] for the boot
    information and the ramdisk, [on_screen] for the screen alone. The frame
    bitmap and placement_address are those of the page tables' state, the log is
    the processor's. [layout] has what the compiler and the linker chose: the
    addresses of functions, strings, tables and stack buffers. *)

From S2P Require Import Prelude Memory Frames Paging PagingBoot MemAlloc Handlers Desc Arch Kheap Sched Vga Keyboard Interrupts Process Boot Console Demo.

(** multiboot.h *)
Definition MULTIBOOT_MAGIC : Z := 0x2badb002.
Definition MULTIBOOT_LOADER : Z := 2 ^ 9.
Definition mbi_boot_loader_name (mbi : Z) : Z := mbi + 64.

(** kheap.h *)
Definition HEAP_MIN_SIZE : Z := 0x00070000.
Definition HEAP_MAX_SIZE : Z := 0x00f00000.

Record machine : Type := Machine {
  stack_start : Z;
  stack_size : Z;
  mc_kernel : kernel kheap_state;
  mc_com : Z;
  mc_vga_driver : option device_t;
  mc_com_driver : option device_t;
  mc_initrd : Z
}.

Record layout : Type := Layout {
  kernel_voffset : Z;
  l_fg_at : Z -> Z; l_bg_at : Z -> Z;           (** the colour strings of serial.c *)
  l_wbuf : Z; l_tmp : Z; l_wargs : Z;           (** the buffers of write and vsprintf *)
  l_text : Z; l_va : Z;                         (** kprintf: its buffer and its arguments *)
  str_booting : Z;                              (** the format of the first message *)
  l_gdt : Z; l_tss : Z; l_idt : Z; l_isr : Z -> Z; l_irq : Z -> Z;
  str_initrd : Z; str_name : Z; l_name_buf : Z; l_sprintf_args : Z;
  l_head : Z;                                   (** the dummy head of the tree operations *)
  pit_handler_at : Z; page_fault_at : Z; syscall_handler_at : Z; keyboard_handler_at : Z;
  thread_exit_at : Z; func1_at : Z; func2_at : Z;
  str_process1 : Z; str_process2 : Z; str_process3 : Z
}.

(** ** The parts of the machine *)

Definition set_kernel (k : kernel kheap_state) (s : machine) : machine :=
  Machine (stack_start s) (stack_size s) k (mc_com s) (mc_vga_driver s) (mc_com_driver s) (mc_initrd s).

Definition mc_heap (s : machine) : kheap_state := s_heap (k_sched (mc_kernel s)).
Definition set_mheap (h : kheap_state) (s : machine) : machine :=
  let k := mc_kernel s in
  set_kernel (Kernel (k_arch k) (with_heap h (k_sched k)) (k_kbd k) (k_regs k)) s.

Definition mc_mem (s : machine) : mem := hmem (k_heap (mc_heap s)).
Definition set_memory (m : mem) (s : machine) : machine :=
  let h := mc_heap s in set_mheap (KheapState (k_ready h) (Heap m (al (k_heap h)) (k_pg h))) s.

Definition on_kernel {A} (c : M (kernel kheap_state) A) : M machine A := zoom mc_kernel set_kernel c.
Definition on_kstate {A} (c : M kheap_state A) : M machine A := zoom mc_heap set_mheap c.
Definition on_memory {A} (c : M mem A) : M machine A := zoom mc_mem set_memory c.

(** The log: the processor, the line, the drivers and the screen in memory. *)
Definition console_of (s : machine) : console :=
  let v := k_vga (k_kbd (mc_kernel s)) in
  Console (k_arch (mc_kernel s)) (mc_com s) (Vga (mc_mem s) (xpos v) (ypos v) (attribute v) (v_trace v))
    (mc_vga_driver s) (mc_com_driver s).

Definition with_vga (v : vga) (b : keyboard) : keyboard :=
  Keyboard (last_char b) (shift_pressed b) (kbd_buffer b) (read_idx b) (write_idx b) v.

Definition set_console (c : console) (s : machine) : machine :=
  let k := mc_kernel s in
  set_memory (v_mem (c_vga c))
    (Machine (stack_start s) (stack_size s)
       (Kernel (c_arch c) (k_sched k) (with_vga (c_vga c) (k_kbd k)) (k_regs k))
       (com c) (vga_driver c) (com_driver c) (mc_initrd s)).

Definition on_console {A} (c : M console A) : M machine A := zoom console_of set_console c.

(** The page tables; the scheduler reads the two directory pointers as well. *)
Definition set_pages (p : pg) (s : machine) : machine :=
  let h := mc_heap s in let k := mc_kernel s in let d := k_sched k in
  set_kernel (Kernel (k_arch k)
    (Sched (threads d) (procs d) (kernel_thread d) (current_thread d) (scheduling d) (num_threads d) (last_thread_id d)
       (last_process_id d) (old_cycles_count d) (tsc_reads d) (Paging.current_directory p) (Paging.kernel_directory p)
       (tss_esp0 d) (s_if d) (raised d) (set_k_pg p h)) (k_kbd k) (k_regs k)) s.

Definition on_pages {A} (c : M pg A) : M machine A := zoom (fun s => k_pg (mc_heap s)) set_pages c.

(** The boot information. *)
Definition boot_of (s : machine) : boot :=
  let p := k_pg (mc_heap s) in
  BootState (mc_mem s) (bm p) (placement_address p) (mc_initrd s) (a_log (k_arch (mc_kernel s))).

Definition set_boot (b : boot) (s : machine) : machine :=
  let h := mc_heap s in let k := mc_kernel s in
  Machine (stack_start s) (stack_size s)
    (Kernel (with_log (b_log b) (k_arch k))
       (with_heap (KheapState (k_ready h) (Heap (b_mem b) (al (k_heap h))
          (set_placement (b_placement b) (set_bm (b_bits b) (k_pg h))))) (k_sched k)) (k_kbd k) (k_regs k))
    (mc_com s) (mc_vga_driver s) (mc_com_driver s) (b_initrd b).

Definition on_boot {A} (c : M boot A) : M machine A := zoom boot_of set_boot c.

(** ** Address translation *)

(** The pages that the processor finds through the current directory. *)
Definition mmu_pages (s : pg) : gset Z :=
  list_to_set (filter (fun p => visible s (Paging.current_directory s) (p * PAGE) = true) (seqZ 0 (2 ^ 20))).

(** With the current directory loaded, exactly these pages are accessible. *)
Definition translate : M machine unit :=
  modify (fun s => set_memory (Mem (m_bytes (mc_mem s)) (mmu_pages (k_pg (mc_heap s)))) s).

Section main.
Context (L : layout).
(** Devices and the cycle counter, kmalloc_ap for a page table that is missing
    when the heap exists, the contents of new frames, and clone_page_directory on
    the state of the heap. *)
Context (dev : list io_event -> Z -> Z) (table_ap : Z -> M pg (Z * Z)) (frame_data : Z -> mem -> mem) (clone : Z -> M kheap_state Z).
(** Polls of the serial line, rounds of loops over strings, maps and pages, and
    of tree operations. *)
Context (polls fuel tree_fuel : nat).

Let kv : Z := kernel_voffset L.

#[local] Instance main_heap : KernelHeap kheap_state :=
  kheap_heap table_ap frame_data (l_head L) tree_fuel fuel kv.

Definition log (level : log_level_t) (msg : string) : M machine unit := on_kernel (on_arch (kprintf level msg)).

(** The first lines: the stack, the console, the boot loader's magic number and
    the first message, whose argument is the name of the boot loader. *)
Definition main_console (magic mbi esp stack_end : Z) : M machine unit :=
  modify (fun s => Machine esp (u32 (stack_end - esp)) (mc_kernel s) (mc_com s) (mc_vga_driver s) (mc_com_driver s) (mc_initrd s));;
  on_console (on_cvga (vga_init dev));;
  com_driver ← on_console (serial_init dev kv polls);
  on_console (logging_init (Some vga_device) (Some com_driver));;
  assert (magic =? MULTIBOOT_MAGIC);;
  flags ← on_memory (load32 (mbi_flags mbi));
  assert (negb (Z.land flags MULTIBOOT_LOADER =? 0));;
  name ← on_memory (load32 (mbi_boot_loader_name mbi));
  on_memory (store32 (l_va L) (u32 (name + kv)));;
  on_console (kprintf_out dev (l_fg_at L) (l_bg_at L) polls (l_wbuf L) (l_tmp L) (l_wargs L) fuel (l_text L) (l_va L)
    INFO (str_booting L));;
  mret tt.

(** paging.c. The allocator that get_page uses is kmalloc_ap without a heap. *)
Definition paging_finalize : M machine unit :=
  on_pages (finalize_tables (placement_ap kv) fuel kv);;
  on_kernel (on_arch (on_table (attach_interrupt_handler 14 (page_fault_at L))));;
  on_pages (kd ← gets Paging.kernel_directory; switch_page_directory kd);;
  translate;;
  on_pages (alloc_heap_pages (placement_ap kv) (Z.to_nat (KHEAP_INITIAL_SIZE / FRAME_SIZE)) KHEAP_START);;
  translate;;
  dir ← on_pages (gets Paging.current_directory);
  kheap ← on_kstate (on_kheap (create_mem_allocator (l_head L) tree_fuel KHEAP_START (KHEAP_START + KHEAP_INITIAL_SIZE)
    HEAP_MIN_SIZE HEAP_MAX_SIZE 0 0 dir));
  on_kstate (modify (fun h => KheapState (negb (kheap =? 0)) (k_heap h)));;
  log INFO "[paging] %u frames (%uMB) - %u used (%uKB) - %u free (%uMB)".

(** The test of the allocator in main. *)
Definition smoke_test : M machine unit :=
  p1 ← on_kstate (kmalloc 8);
  p2 ← on_kstate (kmalloc 8);
  on_memory (store8 p1 97);;
  log INFO "p1 @ 0x%x";;
  log INFO "p2 @ 0x%x";;
  on_kstate (kfree p2);;
  on_kstate (kfree p1);;
  p3 ← on_kstate (kmalloc 16);
  log INFO "p3 @ 0x%x";;
  '(p4, phys) ← on_kstate (kmalloc_ap table_ap frame_data (l_head L) tree_fuel fuel kv 0x1a0000);
  on_memory (CString.memset p4 0 0x1a0000);;
  on_memory (store8 p4 122);;
  log INFO "p4 @ 0x%x phys = %x";;
  p5 ← on_kstate (kmalloc 2);
  log INFO "p5 @ 0x%x";;
  on_kstate (kfree p5);;
  on_kstate (kfree p4);;
  on_kstate (kfree p3).

(** The memory of the machine from the loader's information to the kernel heap. *)
Definition main_memory (mbi : Z) : M machine unit :=
  on_boot (initrd_init kv (str_initrd L) (str_name L) (l_name_buf L) (l_tmp L) (l_sprintf_args L) fuel fuel mbi);;
  on_boot (reserve_memory kv fuel fuel mbi);;
  paging_finalize.

(** System calls, scheduler, keyboard, three processes and their threads. The
    result is the first process. *)
Definition main_start : M machine Z :=
  on_kernel (syscall_init (syscall_handler_at L));;
  on_kernel (on_sched scheduling_init);;
  on_kernel (keyboard_init dev (keyboard_handler_at L));;
  proc1 ← on_kernel (on_sched (create_process clone (str_process1 L) 1));
  proc2 ← on_kernel (on_sched (create_process clone (str_process2 L) 1));
  proc3 ← on_kernel (on_sched (create_process clone (str_process3 L) 1));
  on_kernel (start_threads (thread_exit_at L) (func1_at L) (func2_at L) 10 [proc1; proc2; proc3] 0 0);;
  mret proc1.

(** A step that draws on the screen: it sees the memory, and what it draws is
    in the memory afterwards. *)
Definition copy_screen (from to : mem) : mem :=
  foldr (fun i m => set_byte (video_mem + i) (byte_at from (video_mem + i)) m) to (seqZ 0 4000).

Definition on_drawing {A} (c : M (kernel kheap_state) A) : M machine A := fun s =>
  let k := mc_kernel s in
  match on_kernel c (set_kernel (Kernel (k_arch k) (k_sched k) (with_vga (c_vga (console_of s)) (k_kbd k)) (k_regs k)) s) with
  | Ok (r, s') => Ok (r, set_memory (copy_screen (v_mem (k_vga (k_kbd (mc_kernel s')))) (mc_mem s')) s')
  | Err e => Err e
  end.

(** [loop_fuel]: rounds of the last, endless loop. *)
Definition main (loop_fuel : nat) (magic mbi esp stack_end : Z) : M machine unit :=
  main_console magic mbi esp stack_end;;
  on_kernel (on_arch (arch_init dev (l_gdt L) (l_tss L) (l_idt L) (l_isr L) (l_irq L) (pit_handler_at L)));;
  main_memory mbi;;
  smoke_test;;
  on_boot (print_mmap kv fuel mbi);;
  proc1 ← main_start;
  on_drawing (main_loop (thread_exit_at L) (func1_at L) (func2_at L) loop_fuel proc1 0 0).
End main.
