(* ===== verification/MainSpec.v ===== *)
(** What the first part of main() does: the screen is cleared, the serial line
    programmed, the boot loader checked, and the first message appears on both
    consoles. *)

From S2P Require Import Prelude Memory CString Utils Vsprintf FormatSpec Frames Paging MemAlloc Arch ArchSpec Kheap Sched Vga VgaSpec Keyboard Interrupts Boot BootSpec Console SerialSpec ConsoleSpec Main.

(** ** The parts of the machine *)

Lemma console_of_set c s : console_of (set_console c s) = c.
Proof. by destruct c as [? ? [] ? ?]. Qed.

Lemma set_console_set c c' s : set_console c' (set_console c s) = set_console c' s.
Proof. done. Qed.

Lemma mem_set_console c s : mc_mem (set_console c s) = v_mem (c_vga c).
Proof. done. Qed.

Lemma on_console_ok {A} (f : M console A) c s a c' :
  f c = Ok (a, c') -> on_console f (set_console c s) = Ok (a, set_console c' s).
Proof. intros E. unfold on_console, zoom. by rewrite console_of_set, E. Qed.

Lemma on_console_first {A} (f : M console A) s a c' :
  f (console_of s) = Ok (a, c') -> on_console f s = Ok (a, set_console c' s).
Proof. intros E. unfold on_console, zoom. by rewrite E. Qed.

(** A memory access while the console is [c]: the screen sees it later. *)
Lemma on_memory_console {A} (f : M mem A) c s a m' :
  f (c_mem c) = Ok (a, m') ->
  exists s', on_memory f (set_console c s) = Ok (a, s') /\ console_of s' = with_cmem m' c /\
    forall c', set_console c' s' = set_console c' s.
Proof.
  intros E. unfold on_memory, zoom. rewrite mem_set_console. unfold c_mem in E. rewrite E. eexists. split; [done|].
  split; [by destruct c as [? ? [] ? ?] | done].
Qed.

Lemma on_memory_read {A} (f : M mem A) s a : f (mc_mem s) = Ok (a, mc_mem s) -> on_memory f s = Ok (a, s).
Proof. intros E. unfold on_memory, zoom. rewrite E. destruct s as [? ? [? [] ? ?] ? ? ? ?]. by destruct s_heap as [? []]. Qed.

(** ** The first message *)

Definition booting_text (name : list Z) : list Z := [27; 10] ++ chars "Toutatis kernel booting from " ++ name ++ [27; 15; 10].

Definition booting_format (q : Z) (name : list Z) : list piece :=
  map PChar ([27; 10] ++ chars "Toutatis kernel booting from ") ++ [PStr (Spec [] None None) q name] ++ map PChar [27; 15; 10].

(** "\033\012Toutatis kernel booting from %s\033\017\n" *)
Definition booting_src : list Z := [27; 10] ++ chars "Toutatis kernel booting from %s" ++ [27; 15; 10].

Lemma booting_format_text q name : format_text (booting_format q name) = booting_text name.
Proof. reflexivity. Qed.

Lemma booting_format_src q name : format_src (booting_format q name) = booting_src.
Proof. reflexivity. Qed.

Lemma booting_pieces q name : 0 <= q < 2 ^ 32 -> (length name < 1024)%nat -> Forall piece_ok (booting_format q name).
Proof.
  intros Hq Hn. unfold booting_format. apply Forall_app. split; [|apply Forall_cons; split].
  - cbn. repeat (apply Forall_cons; split; [cbn; lia|]). by apply Forall_nil.
  - split; [split; cbn; [by apply Forall_nil | done | done] | done].
  - cbn. repeat (apply Forall_cons; split; [cbn; lia|]). by apply Forall_nil.
Qed.

(** The characters of the message. *)
Lemma booting_bytes name : Forall (fun c => 0 < c < 256) name -> Forall (fun c => 0 < c < 256) (booting_text name).
Proof.
  intros F. unfold booting_text. rewrite !Forall_app. split_and!; [| | exact F |];
    apply (bool_decide_unpack (Forall _ _)); vm_compute; exact I.
Qed.

Lemma escaped_plain_app l l' : plain l -> escaped (l ++ l') = escaped l'.
Proof. induction 1 as [|c l Hc _ IH]; [done|]. cbn. by rewrite (proj2 (Z.eqb_neq _ _) Hc). Qed.

Lemma booting_escaped name : plain name -> escaped (booting_text name) = true.
Proof.
  intros P. change (escaped (booting_text name)) with (escaped (chars "Toutatis kernel booting from " ++ name ++ [27; 15; 10])).
  rewrite !escaped_plain_app; [reflexivity | exact P |]. apply (bool_decide_unpack (Forall _ _)). vm_compute. exact I.
Qed.

Definition screen (x : Z) : Prop := video_mem <= x < video_mem + 4000.

(** What is in memory when main() is entered: the screen, the BIOS data area,
    the name of the boot loader, and the constants and buffers of the log; what
    is read lies apart from what is written before it is read. *)
Record console_ready (L : layout) (mbi np : Z) (name : list Z) (b : Z) (m : mem) : Prop := {
  cr_screen : present m video_mem 4000;
  cr_bda : present m (0x400 + kernel_voffset L) 2 /\ clear_of screen (0x400 + kernel_voffset L) 2;
  cr_mbi : load32 (mbi_boot_loader_name mbi) m = Ok (np, m) /\ clear_of screen mbi 68;
  cr_name : let q := u32 (np + kernel_voffset L) in
    cstring m q name /\ (length name < 1024)%nat /\ plain name /\
    clear_of (fun x => screen x \/ l_va L <= x < l_va L + 4) q (Z.of_nat (length name) + 1) /\
    safe (l_text L) (l_tmp L) (Z.of_nat (length (booting_text name)) + 2) q (Z.of_nat (length name) + 1);
  cr_format : let n := Z.of_nat (length booting_src) in
    str_booting L <> 0 /\ cstring m (str_booting L) booting_src /\ bytes_at m (str_booting L + n + 1) [b] /\
    0 <= b < 256 /\ b <> 37 /\
    clear_of (fun x => screen x \/ l_va L <= x < l_va L + 4) (str_booting L) (n + 2) /\
    safe (l_text L) (l_tmp L) (Z.of_nat (length (booting_text name)) + 2) (str_booting L) (n + 2);
  cr_va : word_present m (l_va L) = true /\ clear_of screen (l_va L) 4 /\
    safe (l_text L) (l_tmp L) (Z.of_nat (length (booting_text name)) + 2) (l_va L) 4;
  cr_text : let size := Z.of_nat (length (booting_text name)) + 2 in
    l_text L <> 0 /\ present m (l_text L) size /\
    text_ok (l_fg_at L) (l_bg_at L) (l_wbuf L) (l_tmp L) (l_wargs L) (l_text L) size;
  cr_colours : colours_in (l_fg_at L) (l_bg_at L) (l_wbuf L) (l_tmp L) (l_wargs L) m /\
    forall i, 0 <= i < 16 ->
      clear_of (fun x => screen x \/ l_va L <= x < l_va L + 4) (l_fg_at L i) 12 /\
      clear_of (fun x => screen x \/ l_va L <= x < l_va L + 4) (l_bg_at L i) 4
}.

(** Characters take no arguments. *)
Lemma args_plain_app tb tmp size m va l ps :
  args_all tb tmp size m va ps -> args_all tb tmp size m va (map PChar l ++ ps).
Proof. induction l as [|c l IH]; intros H; [done|]. cbn [map app args_all words length]. rewrite Z.add_0_r. by split; [split|apply IH]. Qed.

(** What the first part writes: the screen, the pushed argument and the buffers
    of the log. *)
Definition console_writes (L : layout) (name : list Z) (x : Z) : Prop :=
  screen x \/ l_va L <= x < l_va L + 4 \/
  l_text L <= x < l_text L + (Z.of_nat (length (booting_text name)) + 2) \/ wscratch (l_wbuf L) (l_tmp L) (l_wargs L) x.

Section console.
Context (L : layout) (dev : list io_event -> Z -> Z) (polls fuel : nat).
Context (magic mbi esp stack_end : Z) (s : machine) (base : Z) (u : uart).
Let kv := kernel_voffset L.
Let m := mc_mem s.
Let attr := attribute (k_vga (k_kbd (mc_kernel s))).

Context (Hattr : 0 <= attr < 2 ^ 16).
Context (Hbase : base = byte_at m (0x400 + kv) + 2 ^ 8 * byte_at m (0x400 + kv + 1)).
Context (Hline : line_ok dev polls base).
Context (Hdlab : u_dlab (uart_after base (a_trace (k_arch (mc_kernel s))) u) = false).
Context (Hscreen : present m video_mem 4000).
Context (Hbda : present m (0x400 + kv) 2) (Hbda' : clear_of screen (0x400 + kv) 2).

(** The state with the stack noted. *)
Let s0 : machine :=
  Machine esp (u32 (stack_end - esp)) (mc_kernel s) (mc_com s) (mc_vga_driver s) (mc_com_driver s) (mc_initrd s).

(** The screen, the line and the drivers. *)
Lemma consoles_run :
  exists v1 t, let c := set_drivers (Some vga_device) (Some com_device)
                         (with_ctrace t (set_com base (set_c_vga v1 (console_of s0)))) in
    main_console L dev polls fuel magic mbi esp stack_end s =
      (assert (magic =? MULTIBOOT_MAGIC);;
       flags ← on_memory (load32 (mbi_flags mbi));
       assert (negb (Z.land flags MULTIBOOT_LOADER =? 0));;
       name ← on_memory (load32 (mbi_boot_loader_name mbi));
       on_memory (store32 (l_va L) (u32 (name + kv)));;
       on_console (kprintf_out dev (l_fg_at L) (l_bg_at L) polls (l_wbuf L) (l_tmp L) (l_wargs L) fuel (l_text L) (l_va L)
         INFO (str_booting L));;
       mret tt : M machine unit) (set_console c s0) /\
    changes screen m (v_mem v1) /\ vga_ok v1 /\ shows v1 (blank attr) /\ attribute v1 = attr /\
    uart_after base t u = Uart 3 0 0xc7 0x03 0x0b
      (u_line (uart_after base (a_trace (k_arch (mc_kernel s))) u) ++ init_message).
Proof.
  destruct (vga_init_ok dev (c_vga (console_of s0)) Hattr Hscreen) as (v1 & E1 & V1 & Sh1 & A1 & P1 & B1).
  set (c1 := set_c_vga v1 (console_of s0)).
  assert (K1 : changes screen m (v_mem v1)) by (split; [done|]; intros x Hx; apply B1; unfold screen in Hx; lia).
  destruct (serial_init_run dev kv polls c1 base u) as (t & E2 & U).
  { by eapply changes_present. }
  { rewrite Hbase. cbn [c1 c_vga set_c_vga]. by rewrite !(ch_bytes _ _ _ K1) by (apply Hbda'; lia). }
  { done. }
  { done. }
  exists v1, t. split; [|by split_and!]. unfold main_console. rewrite (bind_ok _ _ s tt s0) by done.
  rewrite (bind_ok _ _ s0 tt (set_console c1 s0)) by (apply on_console_first; unfold on_cvga, zoom; by rewrite E1).
  rewrite (bind_ok _ _ _ _ _ (on_console_ok _ _ _ _ _ E2)).
  by rewrite (bind_ok _ _ _ tt _ (on_console_ok (logging_init _ _) _ s0 _ _ eq_refl)).
Qed.

(** The message, when the boot loader is the expected one. *)
Lemma message_run flags np name b :
  magic = MULTIBOOT_MAGIC -> load32 (mbi_flags mbi) m = Ok (flags, m) -> Z.testbit flags 9 = true ->
  console_ready L mbi np name b m -> (length (booting_text name) + 1250 <= fuel)%nat ->
  exists v' tr, let s' := set_console (set_drivers (Some vga_device) (Some com_device)
                            (with_ctrace tr (set_com base (set_c_vga v' (console_of s0))))) s0 in
    main_console L dev polls fuel magic mbi esp stack_end s = Ok (tt, s') /\
    uart_after base tr u = Uart 3 0 0xc7 0x03 0x0b
      (u_line (uart_after base (a_trace (k_arch (mc_kernel s))) u) ++ init_message ++
       map u8 (serial_text (booting_text name))) /\
    vga_ok v' /\ attribute v' = (screen_text attr (booting_text name) (blank attr)).1 /\
    shows v' (screen_text attr (booting_text name) (blank attr)).2 /\
    changes (console_writes L name) m (v_mem v').
Proof.
  intros Em Ef F9 R Hfuel. destruct consoles_run as (v1 & t & E & K1 & V1 & Sh1 & A1 & U1). rewrite E. clear E.
  set (c1 := set_drivers _ _ _). set (s1 := set_console c1 s0).
  destruct R as [_ _ [Rnp Cm] (Rq & Hlen & Hpl & Cq & Sq) (Nf & Rf & Rb & Hb & Hb37 & Cf & Sf) (Pv & Cv & Sv)
    (Nt & Pt & Tk) [Ci Cc]]. fold kv in Rq, Cq, Sq. set (q := u32 (np + kv)) in *.
  set (text := booting_text name) in *. set (size := Z.of_nat (length text) + 2) in *.
  rewrite Em, Z.eqb_refl, (bind_ok _ _ s1 tt s1) by done.
  rewrite (bind_ok _ _ s1 flags s1)
    by (apply on_memory_read, (changes_load32 _ _ _ K1 _ _ Ef); eapply clear_sub; [exact Cm | unfold mbi_flags; lia..]).
  unfold MULTIBOOT_LOADER. rewrite <- Z.shiftl_1_l, land_bit_zero, F9 by lia. cbn [negb].
  rewrite (bind_ok _ _ s1 tt s1) by done.
  rewrite (bind_ok _ _ s1 np s1)
    by (apply on_memory_read, (changes_load32 _ _ _ K1 _ _ Rnp); eapply clear_sub; [exact Cm | unfold mbi_boot_loader_name; lia..]).
  fold q. assert (Pv1 : word_present (v_mem v1) (l_va L) = true) by (by rewrite (changes_word_present _ _ _ K1)).
  destruct (on_memory_console (store32 (l_va L) q) c1 s0 _ _ (store32_ok _ _ _ Pv1)) as (s2 & E2 & C2 & Same).
  rewrite (bind_ok _ _ _ _ _ E2). set (m2 := set_word (l_va L) q (c_mem c1)) in *. set (c2 := with_cmem m2 c1) in *.
  set (W := fun x => screen x \/ l_va L <= x < l_va L + 4) in *.
  assert (K2 : changes W m m2).
  { split; [by rewrite <- (ch_pages _ _ _ K1)|]. intros x Hx. unfold m2. rewrite byte_at_set_word_other by (unfold W in Hx; lia).
    apply (ch_bytes _ _ _ K1). unfold W in Hx. tauto. }
  assert (Hsk : screen_kept (v_mem v1) m2).
  { split; [done|]. intros x Hx. apply byte_at_set_word_other. unfold screen in Cv.
    destruct (decide (l_va L <= x < l_va L + 4)) as [H|H]; [by destruct (Cv x H)|lia]. }
  destruct (screen_mem v1 (blank attr) m2 Hsk V1 Sh1) as [V2 Sh2].
  assert (Ha : args_all (l_text L) (l_tmp L) size m2 (l_va L) (booting_format q name)).
  { unfold booting_format. apply args_plain_app. cbn [app map args_all words length]. split.
    - split; [|split; [|done]].
      + intros w [= <-]. split_and!; [by rewrite (changes_word_present _ _ _ K2) | | exact Sv].
        unfold m2. rewrite word_at_set_same. apply u32_small. apply u32_range.
      + eapply changes_cstring; [exact K2 | exact Rq | exact Cq].
    - by repeat split. }
  assert (Hsize : size < 2 ^ 32).
  { unfold size, text, booting_text. rewrite !length_app. cbn [length]. change (length (chars _)) with 29%nat. lia. }
  destruct (kprintf_run dev polls (l_fg_at L) (l_bg_at L) (l_wbuf L) (l_tmp L) (l_wargs L) fuel (l_text L) (l_va L) INFO
    (str_booting L) (booting_format q name) b c2 (blank attr)) as (v' & tr & E3 & S3 & V3 & Sc3 & P3 & B3);
    rewrite ?booting_format_text, ?booting_format_src; try done.
  - apply booting_pieces; [apply u32_range | done].
  - eapply changes_cstring; [exact K2 | exact Rf |]. eapply clear_sub; [exact Cf | lia | lia].
  - eapply changes_bytes_at; [exact K2 | exact Rb |]. eapply clear_sub; [exact Cf | lia | cbn [length]; lia].
  - by eapply changes_present.
  - fold text. change (length (booting_format q name)) with 35%nat. change (length booting_src) with 36%nat. lia.
  - apply booting_bytes, Rq.
  - by apply booting_escaped.
  - by eapply colours_changed.
  - change (format_text (booting_format q name)) with text in S3, Sc3, B3. change (level_value INFO <=? level_value INFO) with true in Sc3.
    change (attribute (c_vga c2)) with (attribute v1) in Sc3. rewrite A1 in Sc3.
    destruct (screen_text attr text (blank attr)) as [attr' t']. destruct Sc3 as [Sa3 Sh3].
    exists v', tr. split; [|split_and!].
    + assert (E4 := on_console_first _ s2 _ _ (eq_trans (f_equal _ C2) E3)). rewrite (bind_ok _ _ _ _ _ E4). by rewrite Same.
    + change (sends dev base t (serial_text text) tr) in S3. pose proof (sends_uart _ _ _ _ _ u S3) as U3.
      rewrite U1 in U3. cbn zeta in U3. rewrite U3 by done. cbn [u_divisor u_ier u_fcr u_lcr u_mcr u_line]. by rewrite app_assoc.
    + done.
    + exact Sa3.
    + exact Sh3.
    + split; [rewrite P3; apply (ch_pages _ _ _ K2)|]. intros x Hx. unfold console_writes in Hx. fold text in Hx. fold size in Hx.
      rewrite B3; [apply (ch_bytes _ _ _ K2); unfold W; tauto | unfold screen in Hx; lia | tauto | tauto].
Qed.
End console.

(** ** Properties *)

(** C10: main() up to the boot message. With the magic number of a multiboot
    loader that has a name, the serial line is programmed and carries the
    announcement and then the message "Toutatis kernel booting from" with the
    name of the loader, its colours as escape sequences; the cleared screen shows
    the message in its colours; both devices are registered with the log; nothing
    else in memory changes than the screen and the log's own buffers, so that the
    boot information is still there for what follows. *)
Theorem main_console_ok L dev polls fuel magic mbi esp stack_end s base u flags np name b :
  let m := mc_mem s in
  let kv := kernel_voffset L in
  let attr := attribute (k_vga (k_kbd (mc_kernel s))) in
  0 <= attr < 2 ^ 16 -> base = byte_at m (0x400 + kv) + 2 ^ 8 * byte_at m (0x400 + kv + 1) -> line_ok dev polls base ->
  u_dlab (uart_after base (a_trace (k_arch (mc_kernel s))) u) = false ->
  magic = MULTIBOOT_MAGIC -> load32 (mbi_flags mbi) m = Ok (flags, m) -> Z.testbit flags 9 = true ->
  console_ready L mbi np name b m -> (length (booting_text name) + 1250 <= fuel)%nat ->
  exists s', main_console L dev polls fuel magic mbi esp stack_end s = Ok (tt, s') /\
    stack_start s' = esp /\ stack_size s' = u32 (stack_end - esp) /\
    mc_vga_driver s' = Some vga_device /\ mc_com_driver s' = Some com_device /\ mc_com s' = base /\
    uart_after base (a_trace (k_arch (mc_kernel s'))) u = Uart 3 0 0xc7 0x03 0x0b
      (u_line (uart_after base (a_trace (k_arch (mc_kernel s))) u) ++ init_message ++
       map u8 (serial_text (booting_text name))) /\
    shows (c_vga (console_of s')) (screen_text attr (booting_text name) (blank attr)).2 /\
    changes (console_writes L name) m (mc_mem s').
Proof.
  intros m kv attr Ha Hb Hl Hd Hm Hf F9 R Hfuel. assert (R' := R). destruct R' as [Rs [Rb Cb] _ _ _ _ _ _].
  destruct (message_run L dev polls fuel magic mbi esp stack_end s base u Ha Hb Hl Hd Rs Rb Cb flags np name b Hm Hf F9 R Hfuel)
    as (v' & tr & E & U & V & _ & Sh & K).
  eexists. split; [exact E|]. split_and!; try done. by destruct v'.
Qed.

(** main() refuses another loader: with a wrong magic number, or when the
    loader did not give its name, an assertion stops the kernel before anything
    but the two consoles was touched, whatever else is in memory. *)
Theorem main_rejects_loader L dev table_ap frame_data clone polls fuel tree_fuel loop_fuel magic mbi esp stack_end s base u flags :
  let m := mc_mem s in
  let kv := kernel_voffset L in
  0 <= attribute (k_vga (k_kbd (mc_kernel s))) < 2 ^ 16 ->
  base = byte_at m (0x400 + kv) + 2 ^ 8 * byte_at m (0x400 + kv + 1) -> line_ok dev polls base ->
  u_dlab (uart_after base (a_trace (k_arch (mc_kernel s))) u) = false ->
  present m video_mem 4000 -> present m (0x400 + kv) 2 -> clear_of screen (0x400 + kv) 2 ->
  clear_of screen mbi 4 -> load32 (mbi_flags mbi) m = Ok (flags, m) ->
  magic <> MULTIBOOT_MAGIC \/ Z.testbit flags 9 = false ->
  main L dev table_ap frame_data clone polls fuel tree_fuel loop_fuel magic mbi esp stack_end s = Err AssertFailed.
Proof.
  intros m kv Ha Hb Hl Hd Ps Pb Cb Cm Hf Hbad. apply bind_err.
  destruct (consoles_run L dev polls fuel magic mbi esp stack_end s base u Ha Hb Hl Hd Ps Pb Cb) as (v1 & t & -> & K & _).
  destruct (Z.eqb_spec magic MULTIBOOT_MAGIC) as [E|E]; [|done]. destruct Hbad as [?|F9]; [done|].
  set (s1 := set_console _ _). rewrite (bind_ok _ _ s1 tt s1) by done.
  rewrite (bind_ok _ _ s1 flags s1) by (by apply on_memory_read, (changes_load32 _ _ _ K _ _ Hf)).
  unfold MULTIBOOT_LOADER. by rewrite <- Z.shiftl_1_l, land_bit_zero, F9 by lia.
Qed.

(** ** A concrete machine *)

Definition sample_layout : layout :=
  Layout 0xc0000000 (fun i => 0xc0001000 + 16 * i) (fun i => 0xc0001200 + 8 * i) 0xc0001400 0xc0002000 0xc0001500
    0xc0002800 0xc0002c00 0xc0001600 0xc0010000 0xc0011000 0xc0012000 (fun n => 0xc0020000 + 16 * n) (fun n => 0xc0021000 + 16 * n)
    0xc0001700 0xc0001710 0xc0003000 0xc0003100 0xc0003200 0xc0030000 0xc0030100 0xc0030200 0xc0030300 0xc0030400 0xc0030500
    0xc0030600 0xc0001720 0xc0001730 0xc0001740.

(** The memory that the boot loader "GRUB" leaves, with the structure at
    0xc0000800. *)
Definition loader_mem : mem :=
  put_bytes 0xc0000400 [0xf8; 3] (set_word 0xc0000800 0x200 (set_word 0xc0000840 0x900 (put_bytes 0xc0000900 (chars "GRUB" ++ [0])
    (put_bytes 0xc0001600 (booting_src ++ [0; 0])
      (foldr (fun i m => put_bytes (l_fg_at sample_layout i) (fg i ++ [0; 0]) (put_bytes (l_bg_at sample_layout i) (bg i ++ [0]) m))
        (map_page_at video_mem (mem_with_pages 4 0xc0000000)) (seqZ 0 16)))))).

Definition no_regs : registers_t := Registers 0 0 0 0 0 0 0 0 0 0 0 0 0 0 0 0 0 0.

Definition machine_with (m : mem) (p : pg) : machine :=
  Machine 0 0
    (Kernel boot_arch (Sched ∅ ∅ None None false 0 0 0 0 0 0 0 0 true []
       (KheapState false (Heap m (Allocator (RbTree.RbTree 0 0 0) 0 0 0 0 0 0 0 0) p))) (init_keyboard (init_vga m)) no_regs)
    0 None None 0.

Definition sample_machine : machine := machine_with loader_mem (Pg (Bitmap [] 0 0) ∅ ∅ 0 0 0xc0100000 0).

Lemma sample_ready : console_ready sample_layout 0xc0000800 0x900 (chars "GRUB") 0 loader_mem.
Proof.
  assert (Pv : present loader_mem video_mem 4000).
  { intros i Hi. unfold page_present. apply bool_decide_eq_true.
    replace ((video_mem + i) / PAGE) with (video_mem / PAGE) by (unfold video_mem, PAGE; Z.div_mod_to_equations; lia).
    change (m_pages loader_mem) with (m_pages (map_page_at video_mem (mem_with_pages 4 0xc0000000))). cbn. set_solver. }
  assert (Cl : forall a n, 0xc0000000 <= a -> a + n <= 0xc0002c00 ->
    clear_of (fun x => screen x \/ 0xc0002c00 <= x < 0xc0002c04) a n)
    by (intros a n H1 H2 x Hx; unfold screen, video_mem; lia).
  split; cbn [kernel_voffset l_va l_text l_tmp str_booting l_fg_at l_bg_at l_wbuf l_wargs sample_layout].
  - exact Pv.
  - split; [apply (present_b_ok _ 2); vm_compute; reflexivity|]. intros x Hx. unfold screen, video_mem. lia.
  - split; [apply load32_eq; vm_compute; reflexivity|]. intros x Hx. unfold screen, video_mem. lia.
  - do 3 (split; [first [apply cstring_b_ok; vm_compute; reflexivity | cbn; lia | apply (bool_decide_unpack (Forall _ _)); vm_compute; exact I]|]).
    split; [apply Cl; vm_compute; congruence|]. split; left; vm_compute; congruence.
  - split; [lia|]. split; [apply cstring_b_ok; vm_compute; reflexivity|].
    split; [apply (bytes_at_b_ok _ [0]); vm_compute; reflexivity|]. split; [lia|]. split; [lia|].
    split; [apply Cl; vm_compute; congruence|]. split; left; vm_compute; congruence.
  - split; [vm_compute; reflexivity|]. split; [intros x Hx; unfold screen, video_mem; lia|].
    split; right; vm_compute; congruence.
  - change (Z.of_nat (length (booting_text (chars "GRUB"))) + 2) with 40.
    split; [lia|]. split; [apply (present_b_ok _ 40); vm_compute; reflexivity|]. split.
    + intros x Hx. unfold wscratch. lia.
    + intros i Hi. unfold apart. lia.
    + unfold apart, video_mem. split; [lia|]. intros x Hx. unfold wscratch. lia.
  - split; [|intros i Hi; split; apply Cl; lia]. split.
    + apply colour_cases. repeat (apply Forall_cons; split; [split_and!; [lia | intros x Hx; unfold wscratch; lia |
        exists 0; split; [apply bytes_at_b_ok; vm_compute; reflexivity | lia]]|]). by apply Forall_nil.
    + apply colour_cases. repeat (apply Forall_cons; split; [split_and!; [lia | lia | intros x Hx; unfold wscratch; lia
        | apply cstring_b_ok; vm_compute; reflexivity]|]). by apply Forall_nil.
    + split_and!; [apply (present_b_ok _ 32); vm_compute; reflexivity | apply (present_b_ok _ 1024); vm_compute; reflexivity
        | vm_compute; reflexivity].
    + lia.
Defined.

Lemma main_console_ok_witness :
  exists s', main_console sample_layout (fun _ _ => 0x20) 0 2000 MULTIBOOT_MAGIC 0xc0000800 0xc0008000 0xc000c000 sample_machine =
      Ok (tt, s') /\
    stack_start s' = 0xc0008000 /\ stack_size s' = u32 (0xc000c000 - 0xc0008000) /\
    mc_vga_driver s' = Some vga_device /\ mc_com_driver s' = Some com_device /\ mc_com s' = 0x3f8 /\
    uart_after 0x3f8 (a_trace (k_arch (mc_kernel s'))) reset_uart = Uart 3 0 0xc7 0x03 0x0b
      (u_line (uart_after 0x3f8 (a_trace (k_arch (mc_kernel sample_machine))) reset_uart) ++ init_message ++
       map u8 (serial_text (booting_text (chars "GRUB")))) /\
    shows (c_vga (console_of s')) (screen_text 0x0f00 (booting_text (chars "GRUB")) (blank 0x0f00)).2 /\
    changes (console_writes sample_layout (chars "GRUB")) loader_mem (mc_mem s').
Proof.
  apply (main_console_ok sample_layout (fun _ _ => 0x20) 0 2000 MULTIBOOT_MAGIC 0xc0000800 0xc0008000 0xc000c000 sample_machine
    0x3f8 reset_uart 0x200 0x900 (chars "GRUB") 0).
  - cbn. lia.
  - vm_compute. reflexivity.
  - apply ready_line.
  - reflexivity.
  - reflexivity.
  - apply load32_eq; vm_compute; reflexivity.
  - reflexivity.
  - exact sample_ready.
  - apply Nat.leb_le. vm_compute. reflexivity.
Defined.

Lemma main_rejects_loader_witness :
  main sample_layout (fun _ _ => 0x20) (fun _ => throw Hang) (fun _ m => m) (fun d => mret d) 0 2000 20 1 0 0xc0000800 0xc0008000
    0xc000c000 sample_machine = Err AssertFailed.
Proof.
  apply (main_rejects_loader sample_layout (fun _ _ => 0x20) (fun _ => throw Hang) (fun _ m => m) (fun d => mret d) 0 2000 20 1 0
    0xc0000800 0xc0008000 0xc000c000 sample_machine 0x3f8 reset_uart 0x200).
  - cbn. lia.
  - vm_compute. reflexivity.
  - apply ready_line.
  - reflexivity.
  - exact (cr_screen _ _ _ _ _ _ sample_ready).
  - exact (proj1 (cr_bda _ _ _ _ _ _ sample_ready)).
  - exact (proj2 (cr_bda _ _ _ _ _ _ sample_ready)).
  - intros x Hx. unfold screen, video_mem. lia.
  - apply load32_eq; vm_compute; reflexivity.
  - by left.
Defined.
