(* ===== verification/BootMemory.v ===== *)
(** The memory of the machine from the boot loader's information to the kernel
    heap: initrd_init, the loop over the memory map and paging_finalize, in the
    order in which main() calls them. *)

From S2P Require Import Prelude Memory CString Utils Frames Paging PagingSpec PagingBoot RbHeap MemAlloc AllocBase AllocTree AllocSpec AllocOps HeapTables HeapPages AllocGrow AllocLife Handlers Desc Arch ArchSpec Kheap Sched Vga Keyboard Interrupts Boot BootSpec InitrdSpec Console Main.

(** ** The map in a memory that changes elsewhere *)

Lemma changes_load64 W m m' a v : changes W m m' -> load64 a m = Ok (v, m) -> clear_of W a 8 -> load64 a m' = Ok (v, m').
Proof.
  intros K E C. unfold load64 in *. apply bind_ok_inv in E as (lo & m1 & E1 & E).
  assert (m1 = m) as -> by (unfold load32 in E1; destruct (word_present m a); congruence).
  apply bind_ok_inv in E as (hi & m2 & E2 & E).
  assert (m2 = m) as -> by (unfold load32 in E2; destruct (word_present m (a + 4)); congruence).
  rewrite (bind_ok _ _ _ _ _ (changes_load32 _ _ _ K _ _ E1 ltac:(eapply clear_sub; [exact C | lia | lia]))).
  rewrite (bind_ok _ _ _ _ _ (changes_load32 _ _ _ K _ _ E2 ltac:(eapply clear_sub; [exact C | lia | lia]))).
  by injection E as <-.
Qed.

Lemma changes_entry W m m' a e : changes W m m' -> clear_of W a 24 -> entry_at m a e -> entry_at m' a e.
Proof.
  intros K C [E1 E2 E3 E4].
  split; (eapply changes_load32 || eapply changes_load64); try eassumption; eapply clear_sub; try exact C;
    unfold mmap_size, mmap_addr, mmap_length, mmap_type; lia.
Qed.

Lemma changes_map W m m' es : forall a stop,
  changes W m m' -> clear_of W a (stop - a) -> (forall e, e ∈ es -> 20 <= e_size e) -> map_at m a es stop -> map_at m' a es stop.
Proof.
  induction es as [|e es IH]; intros a stop K C Hs Hm; [done|]. destruct Hm as (He & H0 & Hle & Hm).
  assert (20 <= e_size e) by (apply Hs; by left). split_and!; [| done | done |].
  - eapply changes_entry; [exact K | | exact He]. eapply clear_sub; [exact C | lia | lia].
  - apply IH; try done; [eapply clear_sub; [exact C | lia | lia]|]. intros e' He'. apply Hs. by right.
Qed.

Lemma changes_info W m m' mbi i : changes W m m' -> clear_of W mbi 68 -> info_at m mbi i -> info_at m' mbi i.
Proof.
  intros K C [E1 E2 E3 E4 E5]. split; (eapply changes_load32; [eassumption | eassumption |]); eapply clear_sub; try exact C;
    unfold mbi_flags, mbi_mem_lower, mbi_mem_upper, mbi_mmap_addr, mbi_mmap_length; lia.
Qed.

(** ** What the processor sees *)

Lemma mmu_page s a : 0 <= a < 2 ^ 32 ->
  bool_decide (a / PAGE ∈ mmu_pages s) = visible s (Paging.current_directory s) (a - a mod PAGE).
Proof.
  intros Ha. apply eq_true_iff_eq. rewrite bool_decide_eq_true. unfold mmu_pages.
  rewrite elem_of_list_to_set, list_elem_of_filter, elem_of_seqZ.
  replace (a / PAGE * PAGE) with (a - a mod PAGE) by (unfold PAGE; Z.div_mod_to_equations; lia).
  split; [by intros [? _]|]. intros Hv. split; [done|]. unfold PAGE. Z.div_mod_to_equations. lia.
Qed.

Lemma frame_visible kd v s f : has_frame kd v s f -> visible s kd v = true.
Proof. intros (p & e & Hw & He & Hp & _). unfold visible. by rewrite Hw, He, Hp. Qed.

Lemma low_visible kd kv v s : mapped_low kd kv v s -> visible s kd v = true.
Proof. intros (p & e & Hw & He & Hp & _). unfold visible. by rewrite Hw, He, Hp. Qed.

(** ** The parts of the machine *)

Lemma boot_of_set b s : boot_of (set_boot b s) = b.
Proof. by destruct b. Qed.

Lemma on_boot_ok {A} (c : M boot A) s a b : c (boot_of s) = Ok (a, b) -> on_boot c s = Ok (a, set_boot b s).
Proof. intros E. unfold on_boot, zoom. by rewrite E. Qed.

Lemma on_pages_ok {A} (c : M pg A) s a p : c (k_pg (mc_heap s)) = Ok (a, p) -> on_pages c s = Ok (a, set_pages p s).
Proof. intros E. unfold on_pages, zoom. by rewrite E. Qed.

Lemma on_kstate_ok {A} (c : M kheap_state A) s a h : c (mc_heap s) = Ok (a, h) -> on_kstate c s = Ok (a, set_mheap h s).
Proof. intros E. unfold on_kstate, zoom. by rewrite E. Qed.

(** ** The kernel heap *)

(** The kernel heap: its first block, and the arena of blocks up to [e] while
    [fr] frames are free. *)
Definition first_block : Z := 0xd0000048.
Definition kernel_arena (bl : list block) (e fr : Z) : arena := Arena bl first_block e HEAP_MIN_SIZE HEAP_MAX_SIZE fr.
Definition one_free (e : Z) : list block := [Block first_block (e - first_block) true].

(** create_mem_allocator on the pages of the kernel heap. The word before the
    first block is not written: when it is not above the block, no block is taken
    to lie there. *)
Lemma kernel_heap_created head tree_fuel h dir fr :
  (3 <= tree_fuel)%nat -> head mod 4 = 0 -> 0 < head -> head + 16 <= KHEAP_START ->
  (forall x, head <= x < head + 16 \/ KHEAP_START <= x < KHEAP_START + KHEAP_INITIAL_SIZE -> page_present (hmem h) x = true) ->
  exists h' t,
    create_mem_allocator head tree_fuel KHEAP_START (KHEAP_START + KHEAP_INITIAL_SIZE) HEAP_MIN_SIZE HEAP_MAX_SIZE 0 0 dir h = Ok (KHEAP_START, h') /\
    heap_ok h' (one_free (KHEAP_START + KHEAP_INITIAL_SIZE)) t /\
    (word_at (hmem h) (first_block - 4) < first_block -> heap_pages (hpg h) dir KHEAP_START (2 ^ 32) -> fr <= frames_left (hpg h) ->
       implements head h' (kernel_arena (one_free (KHEAP_START + KHEAP_INITIAL_SIZE)) (KHEAP_START + KHEAP_INITIAL_SIZE) fr)) /\
    m_pages (hmem h') = m_pages (hmem h) /\ hpg h' = hpg h /\
    (forall x, x < KHEAP_START \/ KHEAP_START + KHEAP_INITIAL_SIZE <= x -> x < head \/ head + 16 <= x -> byte_at (hmem h') x = byte_at (hmem h) x).
Proof.
  intros Ht Ha Hh Hk Pr.
  assert (Nd : node_ok (hmem h) head).
  { unfold KHEAP_START in Hk. split; [done | done | lia |..]; unfold word_present; rewrite !Pr by lia; done. }
  destruct (create_ok head tree_fuel h KHEAP_START (KHEAP_START + KHEAP_INITIAL_SIZE) HEAP_MIN_SIZE HEAP_MAX_SIZE 0 0 dir)
    as (h' & t & Ec & Ok' & Es & Ee & _ & En & Ex & Pg & Out & Ed & Ep); [|done|].
  { split; [done | done | | exact Nd | by left]. intros i Hi. apply Pr. right. lia. }
  change (heap_start KHEAP_START) with first_block in *.
  exists h', t. split_and!; [exact Ec | exact Ok' | | exact Pg | exact Ep | intros x Hx Hx'; apply Out; [unfold first_block, KHEAP_START in *; lia | done]].
  intros G Hp Fr. split; [by exists t | done | by rewrite Es, Ee, En, Ex | | |].
  - split; [by eapply node_ok_pages | left; rewrite Es; unfold KHEAP_START, first_block in *; lia].
  - unfold left_guard. rewrite Es. unfold KHEAP_START, KHEAP_INITIAL_SIZE, first_block in *. split_and!; [done | left; lia | |].
    + unfold word_present, page_present in *. rewrite Pg, !Pr by lia. done.
    + unfold word_at in *. by rewrite !Out by lia.
  - unfold paged. rewrite Ep, Ed, Es, Ee, Ex. split_and!; [| unfold HEAP_MAX_SIZE, KHEAP_START, KHEAP_INITIAL_SIZE, first_block; lia | done].
    eapply heap_pages_sub; [exact Hp | unfold KHEAP_START, first_block; lia | unfold HEAP_MAX_SIZE, first_block; lia].
Qed.

(** ** paging_finalize *)

Lemma page_of x : x - x mod PAGE <= x < x - x mod PAGE + 4096 /\ (x - x mod PAGE) mod 4096 = 0.
Proof. unfold PAGE. split; Z.div_mod_to_equations; lia. Qed.

#[local] Opaque mmu_pages.

Section finalize.
Context (L : layout) (fuel tree_fuel : nat).
Let kv : Z := 0xc0000000.
Let head := l_head L.
Context (Hkv : kernel_voffset L = kv) (Hfuel : 2 ^ 18 + 1 <= Z.of_nat fuel) (Htree : (3 <= tree_fuel)%nat).

(** The pages after paging_finalize: what finalize_pages leaves. *)
Record pages_final (p p' : pg) : Prop := {
  pf_ok : pg_ok (placement_phys kv) p';
  pf_dir : Paging.kernel_directory p' <> 0 /\ Paging.current_directory p' = Paging.kernel_directory p';
  pf_placement : placement_address p <= placement_address p';
  pf_low : forall v, kv <= v < placement_address p' -> v mod 4096 = 0 -> mapped_low (Paging.kernel_directory p') kv v p';
  pf_heap : forall v, KHEAP_START <= v < KHEAP_START + KHEAP_INITIAL_SIZE -> v mod 4096 = 0 ->
    exists f, has_frame (Paging.kernel_directory p') v p' f /\ 0 < f < nframes (bm p) /\ frame_status (bm p) f = Some false /\
      forall u, kv <= u < placement_address p' -> u mod 4096 = 0 -> (u - kv) / 4096 <> f;
  pf_apart : forall v1 v2 f1 f2, KHEAP_START <= v1 < KHEAP_START + KHEAP_INITIAL_SIZE ->
    KHEAP_START <= v2 < KHEAP_START + KHEAP_INITIAL_SIZE -> v1 mod 4096 = 0 -> v2 mod 4096 = 0 ->
    has_frame (Paging.kernel_directory p') v1 p' f1 -> has_frame (Paging.kernel_directory p') v2 p' f2 -> v1 <> v2 -> f1 <> f2;
  pf_tables : heap_pages p' (Paging.kernel_directory p') KHEAP_START (2 ^ 32);
  pf_frames : nframes (bm p') = nframes (bm p)
}.

(** Kernel and heap are accessible through the new directory. *)
Lemma final_present p p' m :
  pages_final p p' -> m_pages m = mmu_pages p' ->
  forall x, kv <= x < placement_address p' \/ KHEAP_START <= x < KHEAP_START + KHEAP_INITIAL_SIZE -> x < 2 ^ 32 ->
  page_present m x = true.
Proof.
  clear Hkv Hfuel Htree head. intros F Em x Hx Hm. unfold page_present. rewrite Em, mmu_page by (unfold kv, KHEAP_START in *; lia).
  rewrite (proj2 (pf_dir _ _ F)). destruct (page_of x) as [Hr Ha]. destruct Hx as [Hx|Hx].
  - eapply low_visible, (pf_low _ _ F); [|done]. unfold kv in *. Z.div_mod_to_equations. lia.
  - destruct (pf_heap _ _ F (x - x mod PAGE)) as (f & Hf & _); [|done|by eapply frame_visible].
    unfold KHEAP_START, KHEAP_INITIAL_SIZE in *. Z.div_mod_to_equations. lia.
Qed.

Lemma finalize_run s P fr :
  let p := k_pg (mc_heap s) in
  bitmap_ok (bm p) -> dirs p = ∅ -> ptables p = ∅ ->
  kv <= placement_address p -> placement_address p + 0x204000 <= P -> P <= KHEAP_START ->
  0 <= fr -> used_frames (bm p) + (P - kv) / 4096 + 258 + fr <= nframes (bm p) ->
  vector_ready (a_table (k_arch (mc_kernel s))) 14 [] -> page_fault_at L <> 0 ->
  head mod 4 = 0 -> kv <= head -> head + 16 <= placement_address p ->
  exists s' t, paging_finalize L fuel tree_fuel s = Ok (tt, s') /\
    let h := mc_heap s' in
    pages_final p (k_pg h) /\ k_ready h = true /\
    heap_ok (k_heap h) [Block (heap_start KHEAP_START) (KHEAP_START + KHEAP_INITIAL_SIZE - heap_start KHEAP_START) true] t /\
    (word_at (mc_mem s) (first_block - 4) < first_block ->
       implements head (k_heap h) (kernel_arena (one_free (KHEAP_START + KHEAP_INITIAL_SIZE)) (KHEAP_START + KHEAP_INITIAL_SIZE) fr)) /\
    m_pages (mc_mem s') = mmu_pages (k_pg h) /\
    (forall x, x < KHEAP_START \/ KHEAP_START + KHEAP_INITIAL_SIZE <= x -> x < head \/ head + 16 <= x ->
       byte_at (mc_mem s') x = byte_at (mc_mem s) x) /\
    vector_ready (a_table (k_arch (mc_kernel s'))) 14 [page_fault_at L] /\ mc_initrd s' = mc_initrd s.
Proof.
  intros p Hb Ed Et Hp HP HK Hfr Hu Hv Hpf Ha Hh Hh'.
  destruct (finalize_pages_run fuel p P Hfuel Hb Ed Et Hp HP HK ltac:(fold kv; lia)) as (p3 & Run & Ok3 & Hk & Hc & Hpl & _ & Hlow & Hheap & Hap & Hhp & Hnf & Hus).
  assert (F : pages_final p p3) by (by split).
  unfold finalize_pages in Run. apply bind_ok_inv in Run as ([] & p1 & R1 & Run).
  apply bind_ok_inv in Run as (kd & p1' & [= <- <-] & Run). apply bind_ok_inv in Run as (old & p2 & R2 & R3).
  destruct (attach_table 14 (page_fault_at L) _ [] Hv Hpf) as (tb & Ea & _ & Rd).
  rewrite decide_False in Rd by done.
  unfold paging_finalize. rewrite Hkv.
  rewrite (bind_ok _ _ _ _ _ (on_pages_ok _ s _ _ R1)). set (s1 := set_pages p1 s).
  set (s2 := set_kernel (Kernel (with_table tb (k_arch (mc_kernel s1))) (k_sched (mc_kernel s1)) (k_kbd (mc_kernel s1)) (k_regs (mc_kernel s1))) s1).
  rewrite (bind_ok _ _ s1 tt s2)
    by (unfold on_kernel, on_arch, on_table, zoom; cbn [mc_kernel s1 set_pages set_kernel k_arch]; by rewrite Ea).
  rewrite (bind_ok _ _ s2 old (set_pages p2 s2))
    by (apply on_pages_ok; change (k_pg (mc_heap s2)) with p1; by rewrite (bind_ok _ _ p1 (Paging.kernel_directory p1) p1)).
  set (s3 := set_pages p2 s2). rewrite (bind_ok _ _ s3 tt (set_memory (Mem (m_bytes (mc_mem s)) (mmu_pages p2)) s3)) by done.
  set (s4 := set_memory _ s3). rewrite (bind_ok _ _ s4 tt (set_pages p3 s4)) by (apply on_pages_ok; exact R3).
  set (m5 := Mem (m_bytes (mc_mem s)) (mmu_pages p3)). set (s5 := set_memory m5 (set_pages p3 s4)).
  rewrite (bind_ok _ _ (set_pages p3 s4) tt s5) by done.
  rewrite (bind_ok _ _ _ _ _ (on_pages_ok (gets Paging.current_directory) s5 (Paging.current_directory p3) p3 eq_refl)).
  set (s6 := set_pages p3 s5).
  assert (Pr : forall x, kv <= x < placement_address p3 \/ KHEAP_START <= x < KHEAP_START + KHEAP_INITIAL_SIZE -> x < 2 ^ 32 ->
    page_present m5 x = true) by (by eapply final_present).
  destruct (kernel_heap_created head tree_fuel (Heap m5 (al (k_heap (mc_heap s))) p3) (Paging.current_directory p3) fr Htree Ha) as (h' & t & Ec & Ok' & Har & Pg & Ep & Out').
  { unfold kv in *. lia. }
  { lia. }
  { intros x Hx. apply Pr; unfold KHEAP_START, KHEAP_INITIAL_SIZE in *; lia. }
  set (s7 := set_mheap (KheapState (k_ready (mc_heap s6)) h') s6).
  rewrite (bind_ok _ _ s6 KHEAP_START s7).
  2: { apply on_kstate_ok. unfold on_kheap, zoom. change (k_heap (mc_heap s6)) with (Heap m5 (al (k_heap (mc_heap s))) p3).
       fold head. by rewrite Ec. }
  set (s8 := set_mheap (KheapState true h') s7). rewrite (bind_ok _ _ s7 tt s8) by (by apply on_kstate_ok).
  eexists _, t. split; [reflexivity|]. change (k_pg (mc_heap _)) with (hpg h'). rewrite Ep.
  split_and!; [exact F | done | exact Ok' | | exact Pg | exact Out' | exact Rd | done].
  intros G. apply Har; [exact G | rewrite Hc; exact Hhp | unfold frames_left; cbn [hpg]; fold kv in Hus; lia].
Qed.
End finalize.

(** ** main() from the ramdisk to the heap *)

(** What initrd_init writes: the headers of the ramdisk, and its buffers. *)
Definition initrd_writes (L : layout) (location n x : Z) : Prop :=
  scratch (l_name_buf L) (l_tmp L) (l_sprintf_args L) x \/
  location <= x < location + SIZEOF_INITRD_HEADER + n * SIZEOF_FILE_HEADER.

Lemma relocated_changes L location n m m' :
  relocated location (l_name_buf L) (l_tmp L) (l_sprintf_args L) m n m' -> changes (initrd_writes L location n) m m'.
Proof.
  intros [Pg _ O]. split; [done|]. intros x Hx. apply O; [unfold initrd_writes in Hx; tauto|].
  intros j Hj Hw. apply Hx. right. unfold offset_word, file_offset, file_header, SIZEOF_INITRD_HEADER, SIZEOF_FILE_HEADER in *. lia.
Qed.

(** What the boot loader has left in memory: the information structure, a ramdisk
    image of [n] files from the physical address [start] to [stop], and the
    memory map; they lie apart from each other and from the buffers. *)
Record loaded (L : layout) (mbi : Z) (i : info) (es : list entry) (start stop n : Z) (name : Z -> list Z) (m : mem) : Prop := {
  ld_info : info_at m mbi i;
  ld_flags : Z.testbit (i_flags i) 0 = true /\ Z.testbit (i_flags i) 3 = true /\ Z.testbit (i_flags i) 6 = true;
  ld_module : exists count mods, load32 (mbi_mods_count mbi) m = Ok (count, m) /\ 0 < count /\
    load32 (mbi_mods_addr mbi) m = Ok (mods, m) /\ load32 mods m = Ok (start, m) /\ load32 (u32 (mods + 4)) m = Ok (stop, m);
  ld_magic : cstring m (start + kernel_voffset L) (chars "INITRD") /\ cstring m (str_initrd L) (chars "INITRD");
  ld_ramdisk : ramdisk (start + kernel_voffset L) n (l_name_buf L) (l_tmp L) (l_sprintf_args L) m name;
  ld_buffers : exists b, buffers (start + kernel_voffset L) n (str_name L) (l_name_buf L) (l_tmp L) (l_sprintf_args L) m b;
  ld_range : 0 <= start /\ 0 <= n /\ start + SIZEOF_INITRD_HEADER + n * SIZEOF_FILE_HEADER <= stop;
  ld_map : let a := i_map i + kernel_voffset L in
    0 <= a <= a + i_map_length i /\ a + i_map_length i < 2 ^ 32 /\ map_at m a es (a + i_map_length i) /\
    (forall e, e ∈ es -> 20 <= e_size e);
  ld_apart : clear_of (initrd_writes L (start + kernel_voffset L) n) mbi 68 /\
    clear_of (initrd_writes L (start + kernel_voffset L) n) (i_map i + kernel_voffset L) (i_map_length i)
}.

Section memory.
Context (L : layout) (fuel tree_fuel : nat).
Let kv : Z := 0xc0000000.
Context (Hkv : kernel_voffset L = kv) (Hfuel : 2 ^ 18 + 1 <= Z.of_nat fuel) (Htree : (3 <= tree_fuel)%nat).
Context (mbi : Z) (i : info) (es : list entry) (start stop n : Z) (name : Z -> list Z) (s : machine).
Context (Ld : loaded L mbi i es start stop n name (mc_mem s)).
Let nf : Z := (i_lower i + i_upper i) / 4.
Context (Hn : n <= Z.of_nat fuel) (Hes : (length es <= fuel)%nat) (Hnf : nf <= Z.of_nat fuel).
Context (Hmem : 0 <= i_lower i + i_upper i < 2 ^ 22) (H128 : (i_lower i + i_upper i) mod 128 = 0).
Context (Hmbi : 0 <= mbi - kv < nf * FRAME_SIZE) (Hin : Forall (in_memory nf) es).
Context (Hstop : stop + kv < KHEAP_START).

(** The ramdisk and the map. *)
Lemma boot_part_run :
  exists b s1 m1, (on_boot (initrd_init kv (str_initrd L) (str_name L) (l_name_buf L) (l_tmp L) (l_sprintf_args L) fuel fuel mbi);;
     on_boot (reserve_memory kv fuel fuel mbi)) s = Ok (tt, set_boot b s1) /\ s1 = set_boot (boot_of s1) s /\
    relocated (start + kv) (l_name_buf L) (l_tmp L) (l_sprintf_args L) (mc_mem s) n m1 /\ b_mem b = m1 /\
    b_placement b = align_placement (stop + kv) FRAME_SIZE + nf / 8 /\ b_initrd b = start + kv /\
    bitmap_ok (b_bits b) /\ nframes (b_bits b) = nf /\ used_frames (b_bits b) <= reserved_pages es + 1 /\
    (forall f, 0 <= f < nf -> frame_status (b_bits b) f = Some (reserved es f || ((mbi - kv) / FRAME_SIZE =? f))).
Proof.
  destruct Ld as [Hi (F0 & F3 & F6) (count & mods & Mc & Hc & Mm & Ms & Me) [Cm Ci] Rd [bb Bf] (R0 & R1 & R2)
    (A1 & A2 & Am & As) [Ap1 Ap2]]. rewrite Hkv in *.
  assert (El : u32 (start + kv) = start + kv)
    by (apply u32_small; unfold kv, KHEAP_START, SIZEOF_INITRD_HEADER, SIZEOF_FILE_HEADER in *; lia).
  assert (Es : u32 (stop + kv) = stop + kv)
    by (apply u32_small; unfold kv, KHEAP_START, SIZEOF_INITRD_HEADER, SIZEOF_FILE_HEADER in *; lia).
  destruct (relocation kv (str_initrd L) (str_name L) (l_name_buf L) (l_tmp L) (l_sprintf_args L) fuel fuel mbi (i_flags i) count mods
    start stop n name bb (boot_of s)) as (b1 & E1 & Rl & Bp & Bi & Bb); rewrite ?El; try done; [apply Hi | lia |].
  rewrite El in Rl, Bi. rewrite Es in Bp. pose proof (relocated_changes L _ _ _ _ Rl) as K.
  destruct (memory_map_run kv fuel fuel mbi i es b1) as (b & E2 & Kb & Nb & Ub & Sb); try done.
  { eapply changes_info; [exact K | exact Ap1 | exact Hi]. }
  { eapply changes_map; [exact K | | exact As | exact Am].
    replace (i_map i + kv + i_map_length i - (i_map i + kv)) with (i_map_length i) by lia. exact Ap2. }
  set (s1 := set_boot b1 s).
  eexists _, s1, (b_mem b1). split.
  { rewrite (bind_ok _ _ _ _ _ (on_boot_ok _ s _ _ E1)). apply (on_boot_ok _ s1).
    unfold s1. rewrite boot_of_set. exact E2. }
  split_and!; try done. cbn [b_placement with_bits placed_bitmap]. rewrite Bp.
  destruct (align_placement_ok (stop + kv) FRAME_SIZE) as (P1 & P2 & _);
    [unfold kv, KHEAP_START, FRAME_SIZE, SIZEOF_INITRD_HEADER, SIZEOF_FILE_HEADER in *; lia..|].
  destruct (P2 ltac:(done)) as [P3 _]. apply u32_small. fold nf.
  assert (0 <= nf / 8 <= 2 ^ 17) by (unfold nf; Z.div_mod_to_equations; lia).
  unfold kv, KHEAP_START, FRAME_SIZE, SIZEOF_INITRD_HEADER, SIZEOF_FILE_HEADER in *. lia.
Qed.

Context (P : Z) (Hdirs : dirs (k_pg (mc_heap s)) = ∅) (Htables : ptables (k_pg (mc_heap s)) = ∅).
Context (HP : align_placement (stop + kv) FRAME_SIZE + nf / 8 + 0x204000 <= P) (HP' : P <= KHEAP_START).
Context (fr : Z) (Hfr : 0 <= fr) (Hfree : reserved_pages es + 1 + (P - kv) / 4096 + 258 + fr <= nf).
Context (Hvec : vector_ready (a_table (k_arch (mc_kernel s))) 14 []) (Hpf : page_fault_at L <> 0).
Context (Hhead : l_head L mod 4 = 0 /\ kv <= l_head L /\ l_head L + 16 <= stop + kv).
Context (Hapart : l_head L + 16 <= start + kv \/ stop + kv <= l_head L).

Lemma memory_run :
  exists s' t, main_memory L fuel tree_fuel mbi s = Ok (tt, s') /\
    let h := mc_heap s' in let p := k_pg h in let kd := Paging.kernel_directory p in
    k_ready h = true /\
    heap_ok (k_heap h) [Block (heap_start KHEAP_START) (KHEAP_START + KHEAP_INITIAL_SIZE - heap_start KHEAP_START) true] t /\
    mc_initrd s' = start + kv /\
    (forall x, kv <= x < stop + kv -> page_present (mc_mem s') x = true) /\
    (forall v, kv <= v < stop + kv -> v mod 4096 = 0 -> mapped_low kd kv v p) /\
    (forall j, 0 <= j < n -> word_at (mc_mem s') (file_offset (start + kv) j) =
       u32 (word_at (mc_mem s) (file_offset (start + kv) j) + (start + kv))) /\
    (forall v, KHEAP_START <= v < KHEAP_START + KHEAP_INITIAL_SIZE -> v mod 4096 = 0 ->
       exists f, has_frame kd v p f /\ 0 < f < nf /\ reserved es f = false /\ f <> (mbi - kv) / FRAME_SIZE /\
         forall x, 0 <= x < stop -> x / 4096 <> f) /\
    vector_ready (a_table (k_arch (mc_kernel s'))) 14 [page_fault_at L] /\ kd <> 0 /\
    (clear_of (initrd_writes L (start + kv) n) (first_block - 4) 4 -> word_at (mc_mem s) (first_block - 4) < first_block ->
       implements (l_head L) (k_heap h) (kernel_arena (one_free (KHEAP_START + KHEAP_INITIAL_SIZE)) (KHEAP_START + KHEAP_INITIAL_SIZE) fr)).
Proof.
  destruct boot_part_run as (b & s1 & m1 & E1 & Es1 & Rl & Em & Ep & Ei & Kb & Nb & Ub & Sb).
  set (s2 := set_boot b s1) in *.
  destruct (ld_range _ _ _ _ _ _ _ _ _ Ld) as (R0 & R1 & R2).
  destruct (align_placement_ok (stop + kv) FRAME_SIZE) as (P1 & _);
    [unfold kv, KHEAP_START, FRAME_SIZE, SIZEOF_INITRD_HEADER, SIZEOF_FILE_HEADER in *; lia..|].
  assert (N8 : 0 <= nf / 8) by (unfold nf; Z.div_mod_to_equations; lia).
  destruct (finalize_run L fuel tree_fuel Hkv Hfuel Htree s2 P fr) as (s' & t & E & F & Rd & Hok & Har & Mp & By & Vr & In).
  all: cbn [s2 set_boot mc_heap mc_kernel k_sched s_heap with_heap k_pg k_heap hpg bm set_placement set_bm placement_address k_arch with_log a_table].
  - exact Kb.
  - rewrite Es1. exact Hdirs.
  - rewrite Es1. exact Htables.
  - rewrite Ep. unfold kv, SIZEOF_INITRD_HEADER, SIZEOF_FILE_HEADER in *; lia.
  - by rewrite Ep.
  - done.
  - done.
  - rewrite Nb. fold kv. lia.
  - rewrite Es1. exact Hvec.
  - done.
  - apply Hhead.
  - apply Hhead.
  - rewrite Ep. destruct Hhead as (_ & _ & Hh). lia.
  - change (mc_mem s2) with (b_mem b) in By. rewrite Em in By. change (k_pg (mc_heap s2)) with
      (set_placement (b_placement b) (set_bm (b_bits b) (k_pg (mc_heap s1)))) in F.
    assert (F' := F). destruct F as [Fok [Fd Fc] Fp Flow Fheap Fapart _ _]. cbn [placement_address set_placement set_bm bm] in *. rewrite Ep in Fp.
    assert (Hlow : forall v, kv <= v < stop + kv -> v mod 4096 = 0 -> mapped_low (Paging.kernel_directory (k_pg (mc_heap s'))) kv v (k_pg (mc_heap s'))).
    { intros v Hv Hva. apply Flow; [|done]. fold kv. lia. }
    exists s', t. split; [|split_and!].
    + unfold main_memory. rewrite Hkv.
      apply bind_ok_inv in E1 as ([] & s0 & E0 & E1). rewrite (bind_ok _ _ _ _ _ E0), (bind_ok _ _ _ _ _ E1). exact E.
    + exact Rd.
    + exact Hok.
    + rewrite In. exact Ei.
    + intros x Hx. eapply final_present; [exact F' | exact Mp | left; fold kv; lia | unfold KHEAP_START in *; lia].
    + exact Hlow.
    + intros j Hj. rewrite <- (rl_done _ _ _ _ _ _ _ Rl j Hj). unfold word_at.
      unfold file_offset, file_header, SIZEOF_INITRD_HEADER, SIZEOF_FILE_HEADER in *. rewrite !By by lia. done.
    + intros v Hv Hva. destruct (Fheap v Hv Hva) as (f & Hf & Hr & Hs & Hu). rewrite Nb in Hr.
      rewrite Sb in Hs by lia. injection Hs as Hs. apply orb_false_iff in Hs as [Hs1 Hs2]. apply Z.eqb_neq in Hs2.
      exists f. split_and!; try done; [lia.. |]. intros x Hx Hf'. apply (Hu (kv + (x - x mod 4096))).
      * fold kv. Z.div_mod_to_equations. lia.
      * unfold kv. Z.div_mod_to_equations. lia.
      * fold kv. rewrite <- Hf'. unfold kv. Z.div_mod_to_equations. lia.
    + exact Vr.
    + exact Fd.
    + intros C G. apply Har. change (mc_mem s2) with (b_mem b). rewrite Em. unfold word_at in *.
      rewrite !(ch_bytes _ _ _ (relocated_changes L _ _ _ _ Rl)); [exact G | apply C; lia..].
Qed.
End memory.

(** A machine that main() can start on: the loader's information, a ramdisk and a
    memory map, [P] above all that paging_finalize places after them, frames for
    those and for the heap, and [fr] more. *)
Record bootable (L : layout) (fuel : nat) (mbi : Z) (i : info) (es : list entry) (start stop n : Z) (name : Z -> list Z) (s : machine) (P fr : Z) : Prop := {
  bt_offset : kernel_voffset L = 0xc0000000;
  bt_fuel : let nf := (i_lower i + i_upper i) / 4 in
    2 ^ 18 + 1 <= Z.of_nat fuel /\ n <= Z.of_nat fuel /\ (length es <= fuel)%nat /\ nf <= Z.of_nat fuel;
  bt_loaded : loaded L mbi i es start stop n name (mc_mem s);
  bt_memory : 0 <= i_lower i + i_upper i < 2 ^ 22 /\ (i_lower i + i_upper i) mod 128 = 0;
  bt_map : let nf := (i_lower i + i_upper i) / 4 in 0 <= mbi - 0xc0000000 < nf * FRAME_SIZE /\ Forall (in_memory nf) es;
  bt_pages : dirs (k_pg (mc_heap s)) = ∅ /\ ptables (k_pg (mc_heap s)) = ∅;
  bt_room : let nf := (i_lower i + i_upper i) / 4 in stop + 0xc0000000 < KHEAP_START /\
    align_placement (stop + 0xc0000000) FRAME_SIZE + nf / 8 + 0x204000 <= P <= KHEAP_START /\
    0 <= fr /\ reserved_pages es + 1 + (P - 0xc0000000) / 4096 + 258 + fr <= nf;
  bt_vector : vector_ready (a_table (k_arch (mc_kernel s))) 14 [] /\ page_fault_at L <> 0;
  bt_head : (l_head L mod 4 = 0 /\ 0xc0000000 <= l_head L /\ l_head L + 16 <= stop + 0xc0000000) /\
    (l_head L + 16 <= start + 0xc0000000 \/ stop + 0xc0000000 <= l_head L)
}.

Lemma bootable_run L fuel tree_fuel mbi i es start stop n name s P fr :
  let kv := 0xc0000000 in
  let nf := (i_lower i + i_upper i) / 4 in
  bootable L fuel mbi i es start stop n name s P fr -> (3 <= tree_fuel)%nat ->
  exists s' t, main_memory L fuel tree_fuel mbi s = Ok (tt, s') /\
    let h := mc_heap s' in let p := k_pg h in let kd := Paging.kernel_directory p in
    k_ready h = true /\
    heap_ok (k_heap h) [Block (heap_start KHEAP_START) (KHEAP_START + KHEAP_INITIAL_SIZE - heap_start KHEAP_START) true] t /\
    mc_initrd s' = start + kv /\
    (forall x, kv <= x < stop + kv -> page_present (mc_mem s') x = true) /\
    (forall v, kv <= v < stop + kv -> v mod 4096 = 0 -> mapped_low kd kv v p) /\
    (forall j, 0 <= j < n -> word_at (mc_mem s') (file_offset (start + kv) j) =
       u32 (word_at (mc_mem s) (file_offset (start + kv) j) + (start + kv))) /\
    (forall v, KHEAP_START <= v < KHEAP_START + KHEAP_INITIAL_SIZE -> v mod 4096 = 0 ->
       exists f, has_frame kd v p f /\ 0 < f < nf /\ reserved es f = false /\ f <> (mbi - kv) / FRAME_SIZE /\
         forall x, 0 <= x < stop -> x / 4096 <> f) /\
    vector_ready (a_table (k_arch (mc_kernel s'))) 14 [page_fault_at L] /\ kd <> 0 /\
    (clear_of (initrd_writes L (start + kv) n) (first_block - 4) 4 -> word_at (mc_mem s) (first_block - 4) < first_block ->
       implements (l_head L) (k_heap h) (kernel_arena (one_free (KHEAP_START + KHEAP_INITIAL_SIZE)) (KHEAP_START + KHEAP_INITIAL_SIZE) fr)).
Proof.
  intros kv nf [Hkv (Hfuel & Hn & Hes & Hnf) Ld [Hmem H128] [Hmbi Hin] [Hd Ht] (Hstop & [HP HP'] & Hfr0 & Hfr) [Hv Hpf] [Hh Ha]] Htree.
  by apply (memory_run L fuel tree_fuel Hkv Hfuel Htree mbi i es start stop n name s Ld Hn Hes Hnf Hmem H128 Hmbi Hin Hstop P Hd Ht HP HP' fr).
Qed.

(** ** Property *)


(** ** A concrete machine: 32 MB, a ramdisk of one page with one file *)

Definition boot_layout : layout :=
  Layout 0xc0000000 (fun i => 0) (fun i => 0) 0 0xc0008000 0 0 0 0 0 0 0 (fun n => 0) (fun n => 0)
    0xc0006000 0xc0006010 0xc0007000 0xc0009000 0xc0002000 0 0xc0030100 0 0 0 0 0 0 0 0.

Definition pc_info : info := Info 0x49 1024 31744 0xa000 72.

Definition pc_mem : mem :=
  set_word (mbi_flags 0xc0001000) 0x49 (set_word (mbi_mem_lower 0xc0001000) 1024 (set_word (mbi_mem_upper 0xc0001000) 31744
    (set_word (mbi_mmap_addr 0xc0001000) 0xa000 (set_word (mbi_mmap_length 0xc0001000) 72
      (put_entry 0xc000a000 (Entry 20 0 0x9f000 1) (put_entry 0xc000a018 (Entry 20 0x9f000 0x1000 2)
        (put_entry 0xc000a030 (Entry 20 0xf0000 0x10000 2) image_mem))))))).

Definition pc : machine :=
  Machine 0 0
    (Kernel boot_arch (Sched ∅ ∅ None None false 0 0 0 0 0 0 0 0 true []
       (KheapState false (Heap pc_mem (Allocator (RbTree.RbTree 0 0 0) 0 0 0 0 0 0 0 0) (Pg (Bitmap [] 0 0) ∅ ∅ 0 0 0xc0100000 0))))
       (init_keyboard (init_vga pc_mem)) (Registers 0 0 0 0 0 0 0 0 0 0 0 0 0 0 0 0 0 0))
    0 None None 0.

Lemma pc_loaded : loaded boot_layout 0xc0001000 pc_info low_map 0x3000 0x4000 1 (fun _ => [97]) pc_mem.
Proof.
  assert (Q : forall a k, 0xc0001000 <= a -> a + k <= 0xc0003000 \/ 0xc000a000 <= a ->
    clear_of (initrd_writes boot_layout 0xc0003000 1) a k).
  { intros a k H1 H2 x Hx. unfold initrd_writes, scratch, boot_layout, SIZEOF_INITRD_HEADER, SIZEOF_FILE_HEADER.
    cbn [l_name_buf l_tmp l_sprintf_args]. lia. }
  split; cbn [kernel_voffset boot_layout l_name_buf l_tmp l_sprintf_args str_initrd str_name].
  - read_fields.
  - by vm_compute.
  - exists 1, 0x5000. split_and!; try (apply load32_eq; vm_compute; reflexivity). lia.
  - split; apply cstring_b_ok; vm_compute; reflexivity.
  - split.
    + split; vm_compute; reflexivity.
    + unfold SIZEOF_INITRD_HEADER, SIZEOF_FILE_HEADER. lia.
    + intros j Hj. replace j with 0 by lia. vm_compute. reflexivity.
    + intros j Hj. replace j with 0 by lia. split; [apply cstring_b_ok; vm_compute; reflexivity | cbn; lia].
    + unfold SIZEOF_INITRD_HEADER, SIZEOF_FILE_HEADER, scratch. lia.
  - exists 0. split.
    + split_and!; [apply cstring_b_ok; vm_compute; reflexivity | apply (bytes_at_b_ok _ [0]); vm_compute; reflexivity | lia..].
    + unfold SIZEOF_INITRD_HEADER, SIZEOF_FILE_HEADER, scratch. split_and!; lia.
    + split_and!; [apply (present_b_ok _ 128) | apply (present_b_ok _ 1024) |]; vm_compute; reflexivity.
    + lia.
  - unfold SIZEOF_INITRD_HEADER, SIZEOF_FILE_HEADER. lia.
  - split_and!; [cbn; lia.. | |].
    + cbn [map_at low_map]. split_and!; try read_fields; try (cbn; lia); reflexivity.
    + intros e He. unfold low_map in He. set_unfold in He. destruct He as [->|[->|[->|[]]]]; cbn; lia.
  - split; apply Q; cbn; lia.
Defined.

Lemma pc_bootable fuel : Z.of_nat fuel = 2 ^ 18 + 1 ->
  bootable boot_layout fuel 0xc0001000 pc_info low_map 0x3000 0x4000 1 (fun _ => [97]) pc 0xc0209000 1000.
Proof.
  intros Hf. split.
  - reflexivity.
  - change ((i_lower pc_info + i_upper pc_info) / 4) with 8192. cbn [length low_map]. lia.
  - exact pc_loaded.
  - split; [cbn; lia | reflexivity].
  - split; [vm_compute; split; congruence |].
    repeat (apply Forall_cons; split; [intros _; vm_compute; repeat split; discriminate|]). by apply Forall_nil.
  - split; reflexivity.
  - vm_compute. repeat split; congruence.
  - split; [apply init_vector_ready | vm_compute; congruence].
  - vm_compute. split; [repeat split; congruence | left; congruence].
Defined.

