(* ===== verification/Smoke.v ===== *)
(** The test of the allocator that main() runs on the new kernel heap: every
    call of it returns, and the heap is one free block again. On its way the heap
    shrinks to its smallest size, grows for a large block on a page boundary, and
    shrinks again. *)

From S2P Require Import Prelude Memory CString Frames Paging PagingSpec HeapTables HeapPages PagingBoot RbTree RbHeap RbModel RbSpec MemAlloc AllocBase AllocTree AllocSpec AllocOps AllocGrow AllocShrink AllocAlign AllocProps AllocLife Handlers Desc Arch Kheap Sched Keyboard Interrupts Process Boot BootSpec InitrdSpec Main BootMemory.

(** The end of the kernel heap after paging_finalize, after a contraction, and
    after the growth for the large block. *)
Definition first_end : Z := 0xd0100000.
Definition low_end : Z := 0xd0070000.
Definition high_end : Z := 0xd0211000.

(** The pages between them. *)
Definition grown_pages : Z := (high_end - low_end) / PAGE.

(** The blocks at each step. *)
Definition one_used (n e : Z) : list block := [Block first_block n false; Block (first_block + n) (e - (first_block + n)) true].
Definition two_used : list block :=
  [Block first_block 28 false; Block (first_block + 28) 28 false; Block (first_block + 56) (first_end - (first_block + 56)) true].
Definition large : block := Block 0xd0000ff8 0x1a0010 false.
Definition large_used : list block :=
  [Block first_block 32 false; Block (first_block + 32) 3984 true; large; Block (0xd0000ff8 + 0x1a0010) (high_end - (0xd0000ff8 + 0x1a0010)) true].
Definition small_used : list block :=
  [Block first_block 32 false; Block (first_block + 32) 28 false; Block (first_block + 60) 3956 true; large;
   Block (0xd0000ff8 + 0x1a0010) (high_end - (0xd0000ff8 + 0x1a0010)) true].

(** ** The calls on the heap *)

Section heap_calls.
Context (table_ap : Z -> M pg (Z * Z)) (frame_data : Z -> mem -> mem) `{!FrameData frame_data} (head : Z) (tree_fuel fuel : nat) (fr : Z).
Hypothesis below : head + 16 <= first_block.
Hypothesis iterations : (17 <= tree_fuel)%nat.

Abbreviation holds_arena h r := (implements head h r).
Abbreviation call' := (call table_ap frame_data head tree_fuel fuel).

(** Requests that need not grow the heap. *)
Lemma allowed_fit bl e size c :
  0 <= size < 0x200000 -> (length bl <= 5)%nat -> e mod PAGE = 0 -> c ∈ bl -> b_free c = true -> get_block_size size <= b_size c ->
  allowed head tree_fuel (kernel_arena bl e fr) (Take size).
Proof.
  intros Hs Hl He Hc Fc Fit. unfold allowed. cbv zeta. cbn [kernel_arena blocks a_end a_min a_start a_max].
  split_and!; [lia | done | done | lia | lia | by destruct bl; [apply not_elem_of_nil in Hc |] |].
  intros No. specialize (No c Hc Fc). lia.
Qed.

Lemma take_first h n size e :
  implements head h (kernel_arena (one_free e) e fr) -> 0 <= size < 100 -> get_block_size size = n -> e = first_end \/ e = low_end ->
  exists h', call' (Take size) h = Ok (first_block + 8, h') /\ implements head h' (kernel_arena (one_used n e) e fr).
Proof.
  intros Im Hs En He. assert (Z : 28 <= n < 200) by (destruct (get_block_size_ok size) as (? & _ & _ & ?); lia).
  assert (Ec : carve (Block first_block (e - first_block) true) n = one_used n e).
  { unfold carve, one_used. cbn [b_addr b_size]. rewrite (proj2 (Z.leb_le _ _)) by (destruct He as [-> | ->]; unfold first_end, low_end, first_block; lia).
    do 3 f_equal. lia. }
  assert (Fit : get_block_size size <= b_size (Block first_block (e - first_block) true)).
  { cbn [b_size]. destruct He as [-> | ->]; unfold first_end, low_end, first_block; lia. }
  destruct (take_best table_ap frame_data head tree_fuel fuel h [] (Block first_block (e - first_block) true) [] first_block e HEAP_MIN_SIZE HEAP_MAX_SIZE fr size Im) as (h' & Run & Im').
  - apply (allowed_fit (one_free e) e size (Block first_block (e - first_block) true)); [lia | simpl; lia | by destruct He as [-> | ->] | by left | done | done].
  - done.
  - done.
  - by intros c ?%not_elem_of_nil.
  - exists h'. split; [exact Run |]. rewrite En, app_nil_r, Ec in Im'. exact Im'.
Qed.

Lemma take_second h :
  implements head h (kernel_arena (one_used 28 first_end) first_end fr) ->
  exists h', call' (Take 8) h = Ok (first_block + 36, h') /\ implements head h' (kernel_arena two_used first_end fr).
Proof.
  intros Im.
  destruct (take_best table_ap frame_data head tree_fuel fuel h [Block first_block 28 false] (Block (first_block + 28) (first_end - (first_block + 28)) true) []
    first_block first_end HEAP_MIN_SIZE HEAP_MAX_SIZE fr 8 Im) as (h' & Run & Im').
  - eapply (allowed_fit _ first_end 8); [lia | simpl; lia | done | right; by left | done | vm_compute; congruence].
  - done.
  - vm_compute. congruence.
  - intros c. rewrite app_nil_r. by intros ->%list_elem_of_singleton.
  - exists h'. split; [exact Run | exact Im'].
Qed.

(** The second block goes back, and with it the pages above the smallest size. *)
Lemma give_second h :
  implements head h (kernel_arena two_used first_end fr) ->
  exists h', call' (Give (first_block + 36)) h = Ok (0, h') /\ implements head h' (kernel_arena (one_used 28 low_end) low_end fr).
Proof.
  intros Im.
  destruct (give_shrunk table_ap frame_data head tree_fuel fuel h (kernel_arena two_used first_end fr) [Block first_block 28 false] (Block (first_block + 28) 28 false)
    (Block (first_block + 56) (first_end - (first_block + 56)) true) [Block first_block 28 false] (Block (first_block + 28) (first_end - (first_block + 28)) true) Im)
    as (h' & Run & Im'); try done.
  - simpl. lia.
  - right. vm_compute. congruence.
  - exists h'. split; [exact Run | exact Im'].
Qed.

(** The first block goes back to a heap of the smallest size. *)
Lemma give_first h n :
  implements head h (kernel_arena (one_used n low_end) low_end fr) -> 0 < n < 200 ->
  exists h', call' (Give (first_block + 8)) h = Ok (0, h') /\ implements head h' (kernel_arena (one_free low_end) low_end fr).
Proof.
  intros Im Hn.
  destruct (give_merged table_ap frame_data head tree_fuel fuel h (kernel_arena (one_used n low_end) low_end fr) [] (Block first_block n false)
    (Block (first_block + n) (low_end - (first_block + n)) true) [] Im) as (h' & Run & Im'); try done.
  - simpl. lia.
  - left. destruct (im_limits _ _ _ Im) as (-> & -> & -> & _). vm_compute. congruence.
  - exists h'. split; [exact Run |]. cbn [kernel_arena a_start a_end a_min a_max] in Im'. unfold freed, free_right, free_left in Im'.
    cbn in Im'. replace (n + (low_end - (first_block + n))) with (low_end - first_block) in Im' by lia. exact Im'.
Qed.

(** 0x1a0000 bytes on a page boundary: the heap grows. *)
Lemma take_large h :
  implements head h (kernel_arena (one_used 32 low_end) low_end fr) -> grown_pages <= fr ->
  exists h', alloc table_ap frame_data head tree_fuel (S (S fuel)) 0x1a0000 4096 h = Ok (0xd0001000, h') /\ implements head h' (kernel_arena large_used high_end (fr - grown_pages)).
Proof.
  intros Im Hfr. set (b := Block (first_block + 32) (high_end - (first_block + 32)) true).
  assert (No : no_fit (one_used 32 low_end) (get_block_size 0x1a0000)).
  { intros c. unfold one_used. rewrite !elem_of_cons. intros [-> | [-> | ?%not_elem_of_nil]]; [done | | done]. intros _. vm_compute. reflexivity. }
  assert (Free : forall (P : block -> Prop), P b -> forall c, c ∈ [Block first_block 32 false] ++ [b] -> b_free c = true -> P c).
  { intros P HP c. cbn [app]. rewrite !elem_of_cons. intros [-> | [-> | ?%not_elem_of_nil]]; done. }
  destruct (take_aligned_grown table_ap frame_data head tree_fuel fuel h (one_used 32 low_end) first_block low_end HEAP_MIN_SIZE HEAP_MAX_SIZE fr 0x1a0000 4096
    [Block first_block 32 false] b Im) as (h' & Run & Im').
  - unfold allowed. cbv zeta. cbn [blocks a_end a_min a_start a_max].
    split_and!; [simpl; lia | done | done | lia | lia | done |]. intros _. split_and!; [by vm_compute | by vm_compute | done | exact Hfr | left; exact below].
  - exact No.
  - intros c d. unfold one_used. rewrite !elem_of_cons. intros [-> | [-> | ?%not_elem_of_nil]] [-> | [-> | ?%not_elem_of_nil]]; done.
  - lia.
  - done.
  - lia.
  - reflexivity.
  - split.
    + intros c d Hc Hd Fc Fd _. by rewrite (Free (fun x => x = b) eq_refl c Hc Fc), (Free (fun x => x = b) eq_refl d Hd Fd).
    + intros c Hc Fc. apply (Free (fun c => _ -> aligned_offset 4096 c <= b_size c)); [| done | done]. intros _. vm_compute. congruence.
    + intros c Hc Fc. apply (Free (fun c => _ -> aligned_offset 4096 c = 0 \/ get_block_size 0x1a0000 + 28 <= b_size c - aligned_offset 4096 c)); [| done | done].
      intros _. right. vm_compute. congruence.
  - split; vm_compute; congruence.
  - intros c Hc Fc. by rewrite (Free (fun x => x = b) eq_refl c Hc Fc).
  - vm_compute. reflexivity.
  - exists h'. split; [exact Run | exact Im'].
Qed.

Lemma take_small h :
  implements head h (kernel_arena large_used high_end fr) ->
  exists h', call' (Take 2) h = Ok (first_block + 40, h') /\ implements head h' (kernel_arena small_used high_end fr).
Proof.
  intros Im.
  destruct (take_best table_ap frame_data head tree_fuel fuel h [Block first_block 32 false] (Block (first_block + 32) 3984 true)
    [large; Block (0xd0000ff8 + 0x1a0010) (high_end - (0xd0000ff8 + 0x1a0010)) true] first_block high_end HEAP_MIN_SIZE HEAP_MAX_SIZE fr 2 Im) as (h' & Run & Im').
  - eapply (allowed_fit _ high_end 2); [lia | simpl; lia | done | right; by left | done | vm_compute; congruence].
  - done.
  - vm_compute. congruence.
  - intros c. cbn [app]. rewrite !elem_of_cons. intros [-> | [-> | [-> | ?%not_elem_of_nil]]]; [done | done | intros _ _; vm_compute; reflexivity | done].
  - exists h'. split; [exact Run | exact Im'].
Qed.

Lemma give_small h :
  implements head h (kernel_arena small_used high_end fr) ->
  exists h', call' (Give (first_block + 40)) h = Ok (0, h') /\ implements head h' (kernel_arena large_used high_end fr).
Proof.
  intros Im.
  destruct (give_merged table_ap frame_data head tree_fuel fuel h (kernel_arena small_used high_end fr) [Block first_block 32 false] (Block (first_block + 32) 28 false)
    (Block (first_block + 60) 3956 true) [large; Block (0xd0000ff8 + 0x1a0010) (high_end - (0xd0000ff8 + 0x1a0010)) true] Im) as (h' & Run & Im'); try done.
  - right. by left.
  - exists h'. split; [exact Run | exact Im'].
Qed.

Lemma give_large h :
  implements head h (kernel_arena large_used high_end fr) ->
  exists h', call' (Give 0xd0001000) h = Ok (0, h') /\ implements head h' (kernel_arena (one_used 32 low_end) low_end fr).
Proof.
  intros Im.
  destruct (give_shrunk table_ap frame_data head tree_fuel fuel h (kernel_arena large_used high_end fr) [Block first_block 32 false; Block (first_block + 32) 3984 true] large
    (Block (0xd0000ff8 + 0x1a0010) (high_end - (0xd0000ff8 + 0x1a0010)) true) [Block first_block 32 false] (Block (first_block + 32) (high_end - (first_block + 32)) true) Im)
    as (h' & Run & Im'); try done.
  - simpl. lia.
  - right. vm_compute. congruence.
  - exists h'. split; [exact Run | exact Im'].
Qed.
End heap_calls.

(** ** The calls on the machine *)

Section machine_calls.
Context (L : layout) (table_ap : Z -> M pg (Z * Z)) (frame_data : Z -> mem -> mem) `{!FrameData frame_data} (tree_fuel fuel : nat).

(** The kernel heap is in use and holds [r]. *)
Record heap_at (s : machine) (r : arena) : Prop := {
  at_ready : k_ready (mc_heap s) = true;
  at_arena : implements (l_head L) (k_heap (mc_heap s)) r
}.

(** From any machine whose heap holds [r] the call returns [v], and the heap
    holds [r']. *)
Definition turns {A} (c : M machine A) (r : arena) (v : A) (r' : arena) : Prop :=
  forall s, heap_at s r -> exists s', c s = Ok (v, s') /\ heap_at s' r'.

Lemma turns_bind {A B} (c : M machine A) (k : A -> M machine B) r v r1 w r2 :
  turns c r v r1 -> turns (k v) r1 w r2 -> turns (c ≫= k) r w r2.
Proof.
  intros Hc Hk s At. destruct (Hc s At) as (s1 & R1 & At1). destruct (Hk s1 At1) as (s2 & R2 & At2).
  exists s2. by rewrite (bind_ok _ _ _ _ _ R1).
Qed.

Lemma turns_log level msg r : turns (log level msg) r tt r.
Proof. intros s [H1 H3]. eexists. split; [reflexivity | by split]. Qed.

(** A call of the allocator on the machine. *)
Lemma turns_heap {A} (c : M heap A) v r r' :
  (forall h, implements (l_head L) h r -> exists h', c h = Ok (v, h') /\ implements (l_head L) h' r') ->
  turns (on_kstate (on_kheap c)) r v r'.
Proof.
  intros Hc s [H1 H3]. destruct (Hc _ H3) as (h' & R & Im).
  exists (set_mheap (KheapState (k_ready (mc_heap s)) h') s).
  unfold on_kstate, on_kheap, zoom. rewrite R. split; [done | by split].
Qed.

(** The code writes into a block it holds. *)
Lemma turns_write {A} (c : M mem A) v r b p n :
  b ∈ blocks r -> b_free b = false -> b_addr b + 8 <= p -> p + n <= b_addr b + b_size b - 8 ->
  (forall m, present m p n -> exists m' f, c m = Ok (v, m') /\ filled m m' p n f) -> turns (on_memory c) r v r.
Proof.
  intros Hb Fb Lo Hi Hc s [H1 H3]. destruct (im_heap _ _ _ H3) as (t & I & _).
  destruct (Hc (mc_mem s)) as (m' & f & R & F).
  { intros i Hi'. replace (p + i) with (b_addr b + (p + i - b_addr b)) by lia. apply (inv_region _ _ _ _ I b Hb). lia. }
  exists (set_memory m' s). unfold on_memory, zoom. rewrite R. split; [done |]. split; [done |].
  eapply (write_block table_ap frame_data); [exact H3 | exact Hb | exact Fb |]. split; [by destruct F |].
  intros x Hx. rewrite (fl_bytes _ _ _ _ _ F). by replace ((p <=? x) && (x <? p + n)) with false by zbool.
Qed.

Lemma turns_store8 r b p v :
  b ∈ blocks r -> b_free b = false -> b_addr b + 8 <= p -> p + 1 <= b_addr b + b_size b - 8 -> turns (on_memory (store8 p v)) r tt r.
Proof.
  intros Hb Fb Lo Hi. apply (turns_write _ tt r b p 1); [done | done | done | done |]. intros m P.
  exists (set_byte p v m), (fun _ => u8 v). split; [apply store8_ok; rewrite <- (Z.add_0_r p); apply P; lia |]. split; [done |].
  intros x. destruct (decide (x = p)) as [-> |].
  - rewrite byte_at_set_same. by replace ((p <=? p) && (p <? p + 1)) with true by zbool.
  - rewrite byte_at_set_other by done. by replace ((p <=? x) && (x <? p + 1)) with false by zbool.
Qed.

Lemma turns_memset r b p v n :
  b ∈ blocks r -> b_free b = false -> 0 <= n -> b_addr b + 8 <= p -> p + n <= b_addr b + b_size b - 8 ->
  turns (on_memory (CString.memset p v n)) r (p + n) r.
Proof.
  intros Hb Fb Hn Lo Hi. apply (turns_write _ _ r b p n); [done | done | done | done |]. intros m P.
  destruct (memset_ok m p v n Hn P) as (m' & R & F). by exists m', (fun _ => u8 v).
Qed.

Abbreviation heap' := (kheap_heap table_ap frame_data (l_head L) tree_fuel (S (S fuel)) (kernel_voffset L)).

Lemma turns_kmalloc size v r r' :
  (forall h, implements (l_head L) h r ->
    exists h', call table_ap frame_data (l_head L) tree_fuel fuel (Take size) h = Ok (v, h') /\ implements (l_head L) h' r') ->
  turns (on_kstate (@kmalloc _ heap' size)) r v r'.
Proof.
  intros Hc s At. destruct (turns_heap _ v r r' Hc s At) as (s' & R & At'). exists s'. split; [| done]. rewrite <- R.
  unfold on_kstate, zoom. cbn [kmalloc kheap_heap]. unfold kmalloc_, kmalloc_int, mbind, M_bind, gets. rewrite (at_ready _ _ At).
  cbn [call]. by destruct (on_kheap _ _) as [[] |].
Qed.

Lemma turns_kfree p r r' :
  (forall h, implements (l_head L) h r ->
    exists h', call table_ap frame_data (l_head L) tree_fuel fuel (Give p) h = Ok (0, h') /\ implements (l_head L) h' r') ->
  turns (on_kstate (@kfree _ heap' p)) r tt r'.
Proof.
  intros Hc s At. destruct (turns_heap _ 0 r r' Hc s At) as (s' & R & At'). exists s'. split; [| done].
  revert R. unfold on_kstate, zoom. cbn [kfree kheap_heap]. unfold kfree_, mbind, M_bind, gets. rewrite (at_ready _ _ At).
  cbn [call]. unfold on_kheap, zoom, mbind, M_bind, mret, M_ret. destruct (MemAlloc.free _ _ _ _ _) as [[[] ?] |]; [| done].
  by intros [= <-].
Qed.

(** The physical address of an aligned block is found in the page tables. *)
Lemma turns_kmalloc_ap {B} size v r r' (k : Z * Z -> M machine B) w r2 :
  a_start r' <= v < a_start r' + a_max r' -> v mod 4096 = 0 ->
  (forall h, implements (l_head L) h r ->
    exists h', alloc table_ap frame_data (l_head L) tree_fuel (S (S fuel)) size 4096 h = Ok (v, h') /\ implements (l_head L) h' r') ->
  (forall phys, turns (k (v, phys)) r' w r2) ->
  turns (on_kstate (kmalloc_ap table_ap frame_data (l_head L) tree_fuel (S (S fuel)) (kernel_voffset L) size) ≫= k) r w r2.
Proof.
  intros Hr Hv Hc Hk s [H1 H3]. destruct (Hc _ H3) as (h' & R & Im).
  destruct (im_limits _ _ _ Im) as (Ls & _ & _ & Lx). destruct (im_pages _ _ _ Im) as (Hp & _ & _). rewrite Ls, Lx in Hp.
  destruct (hp_entry _ _ _ _ Hp v Hr Hv) as (p & e & Hw & _ & He). set (phys := u32 (u32 (p_frame e * FRAME_SIZE) + Z.land v 0xfff)).
  destruct (Hk phys (set_mheap (KheapState true h') s)) as (s2 & R2 & At2); [by split |].
  exists s2. split; [| done]. rewrite (bind_ok _ _ s (v, phys) (set_mheap (KheapState true h') s)); [done |].
  assert (Ra : on_kheap (alloc table_ap frame_data (l_head L) tree_fuel (S (S fuel)) size 4096) (mc_heap s) = Ok (v, KheapState true h')).
  { unfold on_kheap, zoom. by rewrite R, H1. }
  assert (Rp : (kd ← gets Paging.kernel_directory;
      page ← get_page table_ap v 0 kd;
      e ← load_pte page;
      mret (u32 (u32 (p_frame e * FRAME_SIZE) + Z.land v 0xfff))) (hpg h') = Ok (phys, hpg h')).
  { rewrite (bind_ok _ _ (hpg h') (page_dir (al h')) (hpg h')) by (unfold gets; by rewrite (hp_kernel _ _ _ _ Hp)).
    by rewrite (bind_ok _ _ _ _ _ (get_page_walk _ _ _ _ _ _ (hp_dir _ _ _ _ Hp) Hw)), (bind_ok _ _ _ _ _ (load_pte_ok _ _ _ He)). }
  unfold on_kstate, zoom, kmalloc_ap.
  rewrite (bind_ok (kmalloc_int table_ap frame_data (l_head L) tree_fuel (S (S fuel)) (kernel_voffset L) size FRAME_SIZE true) _ _ (v, Some phys) (KheapState true h')); [done |].
  unfold kmalloc_int. rewrite (bind_ok (gets k_ready) _ (mc_heap s) true (mc_heap s)) by (unfold gets; by rewrite H1).
  rewrite (bind_ok _ _ _ _ _ Ra), (bind_ok (on_pg _) _ (KheapState true h') phys (KheapState true h')); [done |].
  unfold on_pg, zoom, set_k_pg, k_pg. cbn [k_ready k_heap]. rewrite Rp. by destruct h'.
Qed.
End machine_calls.

(** ** The test *)

Section smoke.
Context (L : layout) (table_ap : Z -> M pg (Z * Z)) (frame_data : Z -> mem -> mem) `{!FrameData frame_data} (fuel tree_fuel : nat) (fr : Z).
Context (iterations : (17 <= tree_fuel)%nat) (below : l_head L + 16 <= first_block).
Context (frames : grown_pages <= fr).

(** The next call returns [v] and the heap holds [r]. *)
Ltac heap_call v r := apply (turns_bind _ _ _ _ v r); [first [apply (turns_kmalloc L table_ap frame_data tree_fuel fuel) | apply (turns_kfree L table_ap frame_data tree_fuel fuel)]; intros ? ? |].
Ltac log_call := apply (turns_bind _ _ _ _ tt _ _ _ (turns_log _ _ _ _)).

Lemma smoke_turns :
  turns L (smoke_test L table_ap frame_data (S (S fuel)) tree_fuel) (kernel_arena (one_free first_end) first_end fr) tt
    (kernel_arena (one_free low_end) low_end (fr - grown_pages)).
Proof.
  unfold smoke_test.
  heap_call (first_block + 8) (kernel_arena (one_used 28 first_end) first_end fr).
  { eapply take_first; try eassumption; [lia | reflexivity | by left]. }
  heap_call (first_block + 36) (kernel_arena two_used first_end fr); [by eapply take_second |].
  apply (turns_bind _ _ _ _ tt (kernel_arena two_used first_end fr)).
  { eapply (turns_store8 L table_ap frame_data _ (Block first_block 28 false)); [by left | done | simpl; lia | simpl; lia]. }
  do 2 log_call.
  heap_call tt (kernel_arena (one_used 28 low_end) low_end fr); [by eapply give_second |].
  heap_call tt (kernel_arena (one_free low_end) low_end fr); [eapply give_first; try eassumption; lia |].
  heap_call (first_block + 8) (kernel_arena (one_used 32 low_end) low_end fr).
  { eapply take_first; try eassumption; [lia | reflexivity | by right]. }
  log_call.
  eapply (turns_kmalloc_ap L table_ap frame_data tree_fuel fuel _ 0xd0001000 _ (kernel_arena large_used high_end (fr - grown_pages)));
    [by vm_compute | reflexivity | intros ? ?; by eapply take_large | intros phys; cbn [fst snd]].
  assert (large_held : large ∈ blocks (kernel_arena large_used high_end (fr - grown_pages))) by (right; right; by left).
  eapply turns_bind; [eapply (turns_memset L table_ap frame_data _ large); [done | done | lia | simpl; lia | simpl; lia] |].
  eapply turns_bind; [eapply (turns_store8 L table_ap frame_data _ large); [done | done | simpl; lia | simpl; lia] |].
  log_call.
  heap_call (first_block + 40) (kernel_arena small_used high_end (fr - grown_pages)); [by eapply take_small |].
  log_call.
  heap_call tt (kernel_arena large_used high_end (fr - grown_pages)); [by eapply give_small |].
  heap_call tt (kernel_arena (one_used 32 low_end) low_end (fr - grown_pages)); [by eapply give_large |].
  apply (turns_kfree L table_ap frame_data tree_fuel fuel). intros ? ?. eapply give_first; try eassumption. lia.
Qed.
End smoke.


